(* ===== verification/_CoqProject ===== *)
-Q . S2P
Prelude.v
Text.v
Errors.v
Modules.v
Effects.v
Uuid.v
Validate.v
Gates.v
Answers.v
Ledger.v
Payments.v
Tally.v
PaymentProofs.v
FeePlans.v
Statements.v
FeePlanProofs.v
FeePlanRuns.v
StatementProofs.v
FeePlanKeeps.v
FeePlanFacts.v
FeePlanBounds.v
FeePlanDemo.v
Tenant.v
Appointments.v
AppointmentProofs.v
Badges.v
ExamForms.v
Exams.v
ExamProofs.v
MarkProofs.v
QuestionProofs.v
ExamRaces.v
Meals.v
MealProofs.v
MealBooks.v
MealBalance.v
MealPrices.v
MealRuns.v
Timetable.v
TimetableProofs.v
MaterializeProofs.v
TimetableRoutes.v
LessonProofs.v
TimetableRuns.v
RateLimit.v
RateProofs.v
RateSharing.v
RateRuns.v
EventForms.v
Seats.v
Roster.v
Events.v
EventRoutes.v
Roles.v
Catalog.v
Years.v
Blueprints.v
RosterProofs.v
RoleProofs.v
CatalogProofs.v
EventKeeps.v
EventFacts.v
RosterKeeps.v
RosterExact.v
StaffProofs.v
TeachingProofs.v
RoleRuns.v
RosterRuns.v
EventRuns.v
Sight.v
HomeworkForms.v
Homework.v
HomeworkRoutes.v
HomeworkProofs.v
HomeworkKeeps.v
HomeworkFacts.v
HomeworkRuns.v
Pool.v
PoolKeeps.v
PoolRuns.v
