(* ===== verification/Prelude.v ===== *)
(** * Hezarfen backend: a verified model of the school-management server

    The program is a Rust web server for schools. One process serves many
    schools; each school's data lives in a Postgres database of its own, and a
    control database lists the schools. A request enters through [src/web],
    which checks who is asking and parses the body into validated newtypes
    ([src/domain], [src/validate.rs]); a workflow of [src/service] then makes the
    statements and transactions of [src/db] in order and answers a value or an
    [AppError] ([src/error.rs]). No lock is held between two statements of a
    workflow: other requests, of this process or another, commit in between.

    ** How the model is made

    A Rust function is a Coq function of the same name, over records and
    inductive types with the source's fields and constructors. An [i64], [u32]
    or [usize] is a [Z] whose wrap-around, saturation or checked overflow is
    written out ([Prelude]); text is a list of code points ([Text]); a fallible
    pure function returns [result E A].

    A workflow is an [io] program over a [World] ([Effects]): a state monad in
    which each statement or transaction ([atomic]), each reading of the clock
    ([now]) and each minted uuid ([fresh]) is one effect, and [w_env n] is what
    everybody else did to the database before the [n]-th. A theorem about every
    world whose [w_env] keeps an invariant [I] (and moves within a relation [R])
    is therefore a rely/guarantee statement about every interleaving of committed
    transactions; [triple], [keeps] and [outline] are its three forms, with one
    rule for each construct. Section [Retry] of [Effects] models
    [tx_with_retry] itself ([src/database.rs]) and shows that it ends within
    eight rounds, that a round which met a conflict leaves nothing behind, and
    that the last one answers its closure's result with exactly its writes (or a
    conflict, in the eighth), which is what lets a workflow write [atomic f] for
    it.

    What counts as one atomic step is decided by the locks of the source: a
    transaction whose first statement locks or updates the row all the later
    ones are about is one step; one that reads before it locks is split there
    (the isolation is READ COMMITTED), as in [Meals.claim_and_place].

    ** The files

    - [Prelude]: results, machine integers, sums and counts over tables.
      [Text], [Uuid]: Rust strings; uuids and the keys spelled from them.
      [Errors] ([src/error.rs]), [Effects] ([src/database.rs]), [Validate]
      ([src/validate.rs]), [Ledger] (the fields both ledgers share).
    - [Modules] ([src/module.rs], [src/domain/role.rs]): the catalogue of modules,
      their requirements and packages. The guards of the selling routes decide
      exactly by closure under requirements.
    - [Tenant] ([src/tenant.rs], [src/web/tenant_state.rs], [src/web/builder.rs]):
      the registry of schools, their databases and live pools. Every operation
      keeps every school's shelf closed under requirements; creation is all or
      nothing though each statement may fail; a drop that failed can be retried;
      [resolve] answers by the school's status.
    - [Payments], [PaymentProofs] ([src/domain/payment_ledger.rs],
      [src/db/payment_ledger.rs], [src/service/payment_ledger.rs]): the fee
      ledger. Ids are unambiguous, the recursion under a payment's cap is
      complete and its locks serialize a charge's whole tree, the ledger stays
      well formed, a keyed retry answers the line it wrote, a reversed charge
      takes no money, and balances are exact.
      Its workflows run on any database with a ledger ([Payments.HasLedger]).
    - [Gates]: the extractors, checked fields and pages of [src/web]. [Answers]:
      programs that keep a property whatever the others do, walked in one pass, and
      the outlines of requests that mint uuids.
    - [FeePlans], [Statements] ([src/domain/fee_plan.rs],
      [src/service/fee_plan_assignment.rs] and their siblings,
      [src/web/payments.rs]): schedules, their placement on students, and what a
      family reads. [FeePlanProofs], [FeePlanRuns], [FeePlanKeeps]: the invariant
      (every charge is a copy of an installment of a plan its student is on)
      through every route. [FeePlanFacts], [FeePlanBounds], [StatementProofs]: a
      placement's bill is the schedule, a replay bills nothing, an assigned plan is
      frozen, a batch is bounded, the statement accounts for the balance to the
      unit and is private. [FeePlanDemo] applies them at a small school and runs
      the edit that slips under the batch's bound.
    - [Meals], [MealProofs], [MealBooks], [MealBalance], [MealPrices], [MealRuns]
      ([src/domain/menu.rs], [src/domain/meal_booking.rs] and the rest of the
      meal program): menus, seats and the meal ledger. A held seat is counted and
      billed once, a cancelled one is refunded, a balance is what was paid less
      the seats held, and a seat costs what the menu carries when it is taken;
      the last file runs the two races in which that fails.
    - [Appointments], [AppointmentProofs] ([src/domain/appointment.rs] and its
      siblings): slots, bookings and decisions. One live booking per slot, no two
      approved meetings of one requester or of one teacher at once (a person who
      is both is not compared with themselves by the code), final decisions.
    - [ExamForms], [Exams], [ExamProofs], [MarkProofs], [QuestionProofs],
      [ExamRaces] ([src/domain/exam*.rs], [src/db/exam*.rs],
      [src/service/exam*.rs]): schedules and questions legal as a whole, sittings
      numbered and limited, marks and their counters in balance (and how far a kind
      claimed or changed in between moves its reference count), questions frozen
      once sat whatever becomes of their links to the bank, answers that fit; the
      last file runs what the write paths leave open.
    - [Timetable], [TimetableProofs], [MaterializeProofs], [TimetableRoutes],
      [LessonProofs], [TimetableRuns] ([src/domain/weekly_slot.rs],
      [src/domain/holiday.rs], [src/domain/course_session.rs] and their [db] and
      [service] files, [src/web/weekly_plan.rs], [src/web/holidays.rs],
      [src/web/sessions.rs]): the weekly plan of a section, the lessons generated
      from it around the holidays, and the roll call. Every request keeps the
      weeks and lessons well formed; the generator adds exactly the lessons the
      plan asks for on the days it takes for open and, run again, none; a mark moves
      its two counters exactly;
      the last file runs three of the cases the code leaves open.
    - [Badges] ([src/domain/badge.rs], [src/db/badge.rs], [src/service/badge.rs]):
      awards are permanent, and every counter-moving write calls their sync; a
      component's tables implement the interface [BadgeStore].
    - [RateLimit], [RateProofs], [RateSharing], [RateRuns] ([src/rate_limit.rs]):
      the per-client window, its eviction and overflow, and any number of
      processes folding their counts into one table. A client is billed for its
      admits and the reports whose commit went unheard, no counter leaves its
      width, an exhausted client stays refused.
    - [Tally]: counters that count the rows of another table, and what an insert,
      a delete and a sweep of the rows owe them.
      [Roster] ([src/db/class_pump.rs], [src/db/class_group.rs],
      [src/db/enrollment.rs] and the services over them): sections, their courses
      and their students. [Roles] ([src/db/user.rs]): accounts, and the cascade of
      a role change over the rosters, the parents' links, the boards and the
      appointment calendar of [Appointments]. [Catalog] ([src/db/course.rs],
      [src/db/course_offering.rs], [src/db/class_course.rs]): courses, the
      templates of a grade and what a section overrides. [Years]
      ([src/db/academic_year.rs]): years and the rollover. [Blueprints]
      ([src/db/class_blueprint.rs]): the course list of a grade, pumped into its
      sections. All five work on one set of tables, [Roster.Tables].
    - [RosterProofs], [RoleProofs], [CatalogProofs], [RosterKeeps]: the invariant
      of those tables ([RosterProofs.ok]) statement by statement, and then for
      every request under interference; no request but a hand unenroll leaves a
      live member without a seat. [RosterExact], [StaffProofs], [TeachingProofs]:
      what entering, leaving, demotion, overrides and the blueprint pump do, row
      by row. [RoleRuns], [RosterRuns]: the floor under the admins and the race
      past it, and a small school at which the theorems are applied.

    - [EventForms], [Events], [EventRoutes] ([src/domain/event.rs],
      [src/domain/registration.rs], [src/db/event.rs], [src/db/registration.rs],
      [src/db/attendance.rs], [src/service/registration.rs],
      [src/web/events.rs]): events and their audiences, signup lists, the roll and
      its report, on the same [Roster.Tables]; [Seats] is their part of its
      invariant, which the requests of the rosters keep too. [EventKeeps]: every route keeps it, and no list is filled past its capacity.
      [EventFacts]: the freeze of a list is one rule in Rust and in SQL, who may be
      marked is who the report expects, a registration case by case, the list of
      events. [EventRuns]: a fair at the small school, and a seat handed out after
      its list closed.

    - [Sight] ([src/service/instance.rs], [src/service/parent_link.rs]):
      what a caller may see and run, on any tables that read a school's
      ([Roster.School]).
      [HomeworkForms], [Homework], [HomeworkRoutes] ([src/domain/homework*.rs],
      [src/db/homework*.rs], [src/service/homework*.rs], [src/web/homework.rs]):
      homework and its audience, hand-ins with their files and badge counters,
      grades, and every route over them, on the tables [Homework.Desk].
      [HomeworkProofs], [HomeworkKeeps]: the invariant of those tables through every
      route under interference; work a grade froze and the stamp of a first hand-in
      stand. [HomeworkFacts]: the audience in SQL and in Rust is one, a student is
      shown what is theirs, a narrowing orphans no work, a hand-in, its withdrawal
      and a grade case by case. [HomeworkRuns]: a week at the small school, a
      photograph that earns no badge, a hand-in beside a grade, and the credit two
      graders can mint.

    - [Pool] ([src/domain/pool_question.rs],
      [src/domain/solution.rs], [src/db/pool_question.rs], [src/db/solution.rs],
      [src/service/pool_question.rs], [src/web/questions.rs],
      [src/web/image.rs]): the questions students ask, their approval and the
      credit it moves, the solutions offered on them, a photograph of either and
      the blobs on the disk, on the tables [Pool.Hall]. [PoolKeeps]:
      the invariant of those tables through every route under
      interference; an approved question stands, a pending one is its asker's, a
      solution is its author's, and nobody earns the published counter alone.
      [PoolRuns]: one question asked, approved and answered at the small school.

    ** Interfaces

    What lies outside [src/] is a parameter: [Uuid.UuidText] (the [uuid] crate,
    implemented by [hyphenated]), [Meals.Calendar] and [Timetable.Dates] ([chrono]), [sha256] and the
    iteration order of a [HashMap] ([RateLimit.HashOrder]), the word of a server
    that may refuse any statement ([Effects.statement]). [Badges.BadgeStore] is
    what the badges ask of the tables of a component, [Payments.HasLedger] what
    the ledger's workflows ask of a database, [Roster.School] what the gates of an
    instance read. The collation that orders text ids
    is an argument of [Statements].

    ** Bounds and fuel

    Recursions that are not structural carry fuel that the source bounds:
    [Payments.APPLIED_DEPTH] (4) is the deepest tree of lines that can exist,
    which [applied_complete] and [lock_walk_root] show is enough;
    [Meals.CAP_WRITE_TRIES] (8) and [Appointments.CAS_UPDATE_RETRIES] (3) are the
    source's own loop bounds, after which it answers an error;
    [Timetable.days_between] gives its loop one round per day of the range, and
    [days_between_seq] shows that it lists every one. Counters stored as
    [BIGINT] that only ever step by one are unbounded integers; sums that the
    code computes in an [i64] wrap, saturate or are refused as written.

    ** Not modelled

    Routing, extraction and serialization in [src/web] (each handler calls one
    modelled or unmodelled workflow and shapes JSON), the OpenAPI document
    ([src/lib.rs]), telemetry, configuration and process start, object storage and
    uploads, the paged list queries ([src/db/page.rs]) and the SQL of the
    migrations beyond the constraints the statements rely on: all of it is I/O or
    shape; the exceptions are the guards of the builder's and the timetable's
    routes. Under an instance that a detach sweeps lie rows of exams, homework and
    lessons; those belong to their own components, whose tables are separate
    here, and enter the sweep as the file keys it answers (the homework's share of
    it is [Homework.sweep_homework_tx]). Of the question bank only the two columns
    it rewrites on an exam's questions are modelled ([Exams.link_banked_as],
    [Exams.unlink_template]). The session, term, question-bank, chat, board, podcast, insight and AI-bridge
    services are program logic not modelled yet; the manifest lists each with its
    sources. *)

From stdpp Require Export base tactics numbers list gmap strings pretty sorting.
From Stdlib Require Export ZArith Lia ZifyBool.

#[global] Set Default Proof Using "Type".

(** ** Results

    Rust's [Result<A, E>] with the error type first, so that [result E] is a
    monad and stdpp's [x ← m; k] reads as the [?] operator. *)

Inductive result (E A : Type) : Type :=
  | Ok (a : A)
  | Err (e : E).
Arguments Ok {E A} a.
Arguments Err {E A} e.

#[export] Instance result_ret E : MRet (result E) := λ A a, Ok a.
#[export] Instance result_bind E : MBind (result E) := λ A B f m,
  match m with Ok a => f a | Err e => Err e end.
#[export] Instance result_fmap E : FMap (result E) := λ A B f m,
  match m with Ok a => Ok (f a) | Err e => Err e end.

#[export] Instance result_eq_dec {E A} `{EqDecision E, EqDecision A} :
  EqDecision (result E A).
Proof. solve_decision. Defined.

Definition is_ok {E A} (r : result E A) : bool :=
  match r with Ok _ => true | Err _ => false end.

(** [Result::map_err], which the code reaches through [?] and [From]. *)
Definition map_err {E F A} (f : E → F) (r : result E A) : result F A :=
  match r with Ok a => Ok a | Err e => Err (f e) end.

(** [Option::ok_or]. *)
Definition ok_or {E A} (o : option A) (e : E) : result E A :=
  match o with Some a => Ok a | None => Err e end.

Lemma bind_ok {E A B} (m : result E A) (f : A → result E B) b :
  m ≫= f = Ok b ↔ ∃ a, m = Ok a ∧ f a = Ok b.
Proof. destruct m; naive_solver. Qed.

Lemma bind_err {E A B} (m : result E A) (f : A → result E B) e :
  m ≫= f = Err e ↔ m = Err e ∨ ∃ a, m = Ok a ∧ f a = Err e.
Proof. destruct m; naive_solver. Qed.

Lemma ok_or_ok {E A} (o : option A) (e : E) a : ok_or o e = Ok a ↔ o = Some a.
Proof. destruct o; naive_solver. Qed.

Lemma map_err_ok {E F A} (f : E → F) (r : result E A) a :
  map_err f r = Ok a ↔ r = Ok a.
Proof. destruct r; naive_solver. Qed.

(** ** Machine integers

    An [i64], [u32] or [usize] is a [Z] in its range; the saturating and
    checked operations of the standard library are written out. *)

Definition i64_min : Z := -9223372036854775808.
Definition i64_max : Z := 9223372036854775807.
Definition u32_max : Z := 4294967295.
Definition u64_max : Z := 18446744073709551615.

Definition in_i64 (z : Z) : Prop := (i64_min ≤ z ≤ i64_max)%Z.
Definition in_u32 (z : Z) : Prop := (0 ≤ z ≤ u32_max)%Z.

#[export] Instance in_i64_dec z : Decision (in_i64 z).
Proof. unfold in_i64. apply _. Defined.
#[export] Instance in_u32_dec z : Decision (in_u32 z).
Proof. unfold in_u32. apply _. Defined.

Definition i64_clamp (z : Z) : Z := Z.max i64_min (Z.min i64_max z).
Definition i64_saturating_add (a b : Z) : Z := i64_clamp (a + b).
Definition i64_saturating_sub (a b : Z) : Z := i64_clamp (a - b).
Definition i64_saturating_mul (a b : Z) : Z := i64_clamp (a * b).

Definition i64_checked (z : Z) : option Z :=
  if decide (in_i64 z) then Some z else None.
Definition i64_checked_add (a b : Z) : option Z := i64_checked (a + b).
Definition i64_checked_mul (a b : Z) : option Z := i64_checked (a * b).

(** Plain [+], [-], [*] on an [i64] in a release build: two's complement. *)
Definition i64_wrap (z : Z) : Z := ((z + 2 ^ 63) mod 2 ^ 64 - 2 ^ 63)%Z.

Definition u32_saturating_add (a b : Z) : Z := Z.min u32_max (a + b).
(** Plain [-] on a [u32] in a release build. *)
Definition u32_wrapping_sub (a b : Z) : Z := ((a - b) mod 2 ^ 32)%Z.

(** [(lo..=hi).contains(&z)]. *)
Definition in_range (lo hi z : Z) : bool := bool_decide (lo ≤ z ≤ hi)%Z.

Lemma in_range_spec lo hi z : in_range lo hi z = true ↔ (lo ≤ z ≤ hi)%Z.
Proof. apply bool_decide_eq_true. Qed.

Lemma in_range_false lo hi z : in_range lo hi z = false ↔ ¬ (lo ≤ z ≤ hi)%Z.
Proof. apply bool_decide_eq_false. Qed.

Ltac unfold_ints :=
  unfold in_i64, in_u32, i64_checked_add, i64_checked_mul, i64_checked,
    i64_saturating_add, i64_saturating_sub, i64_saturating_mul, i64_clamp,
    u32_saturating_add, i64_min, i64_max, u32_max, u64_max in *.

Lemma i64_clamp_in z : in_i64 (i64_clamp z).
Proof. unfold_ints. lia. Qed.

Lemma i64_clamp_id z : in_i64 z → i64_clamp z = z.
Proof. unfold_ints. lia. Qed.

Lemma i64_wrap_id z : in_i64 z → i64_wrap z = z.
Proof.
  unfold_ints. unfold i64_wrap. intros H.
  rewrite Z.mod_small by lia. lia.
Qed.

Lemma i64_wrap_in z : in_i64 (i64_wrap z).
Proof.
  unfold i64_wrap, in_i64, i64_min, i64_max.
  pose proof (Z.mod_pos_bound (z + 2 ^ 63) (2 ^ 64) ltac:(lia)). lia.
Qed.

Lemma u32_wrapping_sub_id a b :
  in_u32 a → in_u32 b → (b ≤ a)%Z → u32_wrapping_sub a b = (a - b)%Z.
Proof.
  unfold_ints. unfold u32_wrapping_sub. intros.
  apply Z.mod_small. lia.
Qed.

Lemma i64_checked_add_Some a b c :
  i64_checked_add a b = Some c ↔ in_i64 (a + b) ∧ c = (a + b)%Z.
Proof. unfold i64_checked_add, i64_checked. case_decide; naive_solver. Qed.

Lemma i64_checked_mul_Some a b c :
  i64_checked_mul a b = Some c ↔ in_i64 (a * b) ∧ c = (a * b)%Z.
Proof. unfold i64_checked_mul, i64_checked. case_decide; naive_solver. Qed.

(** The lemmas the components' proofs rewrite with on ground bounds. *)
Create HintDb ints.
Create Rewrite HintDb ints.
#[export] Hint Resolve i64_clamp_in i64_wrap_in : ints.
#[export] Hint Rewrite in_range_spec in_range_false : ints.

(** ** Lists *)

Lemma filter_none {A} (P : A → Prop) `{!∀ x, Decision (P x)} (l : list A) :
  (∀ x, x ∈ l → ¬ P x) → filter P l = [].
Proof.
  induction l as [|x l IH]; intros Hno; [done|].
  rewrite filter_cons_False by (apply Hno; constructor).
  apply IH. intros y Hy. apply Hno. by constructor.
Qed.

Lemma filter_of_fmap {A B} (f : A → B) (P : B → Prop) `{!∀ y, Decision (P y)} (l : list A) :
  filter P (f <$> l) = f <$> filter (λ x, P (f x)) l.
Proof.
  induction l as [|x l IH]; [done|]. csimpl. rewrite !filter_cons. rewrite IH. by case_decide.
Qed.

(** Sums of integers, which reordering does not change. *)
Definition sumZ (l : list Z) : Z := foldr Z.add 0%Z l.
Arguments sumZ _ : simpl never.

Lemma sumZ_cons x l : sumZ (x :: l) = (x + sumZ l)%Z.
Proof. done. Qed.
Lemma sumZ_app l k : sumZ (l ++ k) = (sumZ l + sumZ k)%Z.
Proof. induction l as [|x l IH]; [done|]. cbn [app]. rewrite !sumZ_cons, IH. lia. Qed.
#[export] Instance sumZ_perm : Proper ((≡ₚ) ==> (=)) sumZ.
Proof. induction 1; rewrite ?sumZ_cons; lia. Qed.

Lemma sumZ_nonneg {A} (f : A → Z) (ls : list A) :
  (∀ l, (0 ≤ f l)%Z) → (0 ≤ sumZ (f <$> ls))%Z.
Proof.
  intros Hf. induction ls as [|l ls IH]; [done|]. csimpl. rewrite sumZ_cons.
  pose proof (Hf l). lia.
Qed.

Lemma sumZ_zero {A} (f : A → Z) (ls : list A) :
  (∀ l, l ∈ ls → f l = 0%Z) → sumZ (f <$> ls) = 0%Z.
Proof.
  induction ls as [|l ls IH]; intros Hz; [done|]. csimpl.
  rewrite sumZ_cons, Hz, IH; [done| |constructor].
  intros l' Hl'. apply Hz. by constructor.
Qed.

(** ** Updating one row of a table *)

Lemma alter_as_insert `{Countable K} {A} (f : A → A) (m : gmap K A) i a :
  m !! i = Some a → alter f i m = <[i := f a]> m.
Proof.
  intros Hi. apply map_eq. intros j. destruct (decide (i = j)) as [<-|Hne].
  - by rewrite lookup_alter_eq, Hi, lookup_insert_eq.
  - by rewrite lookup_alter_ne, lookup_insert_ne.
Qed.

(** ** Counting the rows of a table *)

Section Count.
Context `{Countable K} {A : Type}.
Implicit Types m : gmap K A.

Definition count (P : K * A → Prop) `{!∀ p, Decision (P p)} (m : gmap K A) : Z :=
  Z.of_nat (size (filter P m)).

Lemma count_nonneg (P : K * A → Prop) `{!∀ p, Decision (P p)} m : (0 ≤ count P m)%Z.
Proof. unfold count. lia. Qed.

Lemma count_delete (P : K * A → Prop) `{!∀ p, Decision (P p)} m i a :
  m !! i = Some a →
  count P m = (count P (delete i m) + if decide (P (i, a)) then 1 else 0)%Z.
Proof.
  intros Hi. unfold count. rewrite map_filter_delete. case_decide as HP.
  - rewrite map_size_delete_Some by (exists a; by rewrite map_lookup_filter_Some).
    assert (size (filter P m) ≠ 0) as Hz.
    { rewrite map_size_ne_0_lookup. exists i, a. by apply map_lookup_filter_Some. }
    lia.
  - rewrite map_size_delete_None; [lia|]. apply map_lookup_filter_None. right. naive_solver.
Qed.

Lemma count_insert (P : K * A → Prop) `{!∀ p, Decision (P p)} m i a :
  count P (<[i := a]> m) = (count P (delete i m) + if decide (P (i, a)) then 1 else 0)%Z.
Proof.
  rewrite (count_delete P (<[i := a]> m) i a) by apply lookup_insert_eq.
  by rewrite delete_insert_eq.
Qed.

Lemma count_insert_fresh (P : K * A → Prop) `{!∀ p, Decision (P p)} m i a :
  m !! i = None →
  count P (<[i := a]> m) = (count P m + if decide (P (i, a)) then 1 else 0)%Z.
Proof. intros Hi. by rewrite count_insert, delete_id. Qed.

Lemma count_replace (P : K * A → Prop) `{!∀ p, Decision (P p)} m i a a' :
  m !! i = Some a → (P (i, a) ↔ P (i, a')) → count P (<[i := a']> m) = count P m.
Proof.
  intros Hi HP. rewrite count_insert, (count_delete P m i a) by done.
  by rewrite (decide_ext (P (i, a')) (P (i, a))) by done.
Qed.

Lemma count_ext (P Q : K * A → Prop) `{!∀ p, Decision (P p), !∀ p, Decision (Q p)} m m' :
  filter P m = filter Q m' → count P m = count Q m'.
Proof. unfold count. by intros ->. Qed.

Lemma count_0 (P : K * A → Prop) `{!∀ p, Decision (P p)} m :
  count P m = 0%Z ↔ ∀ i a, m !! i = Some a → ¬ P (i, a).
Proof.
  unfold count. split.
  - intros Hz i a Hi HP. assert (filter P m = ∅) as He by (apply map_size_empty_inv; lia).
    assert (filter P m !! i = Some a) as Hf by by apply map_lookup_filter_Some.
    by rewrite He, lookup_empty in Hf.
  - intros Hno. assert (filter P m = ∅) as ->; [|by rewrite map_size_empty].
    apply map_empty. intros i. apply map_lookup_filter_None. destruct (m !! i) eqn:E; naive_solver.
Qed.
End Count.

(** ** Summing over the rows of a table *)

Section Total.
Context `{Countable K} {A : Type}.
Implicit Types (m : gmap K A) (f g : K → A → Z).

Definition total f m : Z := sumZ ((λ p, f p.1 p.2) <$> map_to_list m).

Lemma total_empty f : total f ∅ = 0%Z.
Proof. unfold total. by rewrite map_to_list_empty. Qed.

Lemma total_insert_fresh f m i a : m !! i = None → total f (<[i := a]> m) = (f i a + total f m)%Z.
Proof. intros Hi. unfold total. by rewrite map_to_list_insert. Qed.

Lemma total_delete f m i a : m !! i = Some a → total f m = (f i a + total f (delete i m))%Z.
Proof.
  intros Hi. rewrite <- total_insert_fresh by apply lookup_delete_eq. by rewrite insert_delete_id.
Qed.

Lemma total_insert f m i a :
  total f (<[i := a]> m) = (f i a + total f m - default 0 (f i <$> m !! i))%Z.
Proof.
  rewrite (total_delete f (<[i := a]> m) i a) by apply lookup_insert_eq.
  rewrite delete_insert_eq. destruct (m !! i) as [b|] eqn:E; simpl.
  - rewrite (total_delete f m i b) by done. lia.
  - rewrite delete_id by done. lia.
Qed.

Lemma total_ext f g m : (∀ i a, m !! i = Some a → f i a = g i a) → total f m = total g m.
Proof.
  intros Hfg. unfold total. f_equal. apply list_fmap_ext. intros j [i a] Hj. simpl.
  apply Hfg. apply elem_of_map_to_list. by eapply list_elem_of_lookup_2.
Qed.

Lemma total_nonneg f m : (∀ i a, m !! i = Some a → 0 ≤ f i a)%Z → (0 ≤ total f m)%Z.
Proof.
  induction m as [|i a m Hi IH] using map_ind; intros Hf; [by rewrite total_empty|].
  rewrite total_insert_fresh by done. assert (0 ≤ f i a)%Z by (apply Hf, lookup_insert_eq).
  assert (0 ≤ total f m)%Z; [|lia]. apply IH. intros j b Hj. apply Hf.
  rewrite lookup_insert_ne by (intros ->; congruence). done.
Qed.

Lemma total_mono f g m : (∀ i a, m !! i = Some a → f i a ≤ g i a)%Z → (total f m ≤ total g m)%Z.
Proof.
  induction m as [|i a m Hi IH] using map_ind; intros Hf; [by rewrite !total_empty|].
  rewrite !total_insert_fresh by done. assert (f i a ≤ g i a)%Z by (apply Hf, lookup_insert_eq).
  enough (total f m ≤ total g m)%Z by lia. apply IH. intros j b Hj. apply Hf.
  rewrite lookup_insert_ne by (intros ->; congruence). done.
Qed.

Lemma total_subseteq f m m' :
  m ⊆ m' → (∀ i a, m' !! i = Some a → 0 ≤ f i a)%Z → (total f m ≤ total f m')%Z.
Proof.
  revert m. induction m' as [|i a m' Hi IH] using map_ind; intros m Hsub Hf.
  - assert (m = ∅) as ->; [|done]. apply map_empty. intros i. destruct (m !! i) as [a|] eqn:E; [|done].
    by apply (lookup_weaken _ _ _ _ E) in Hsub.
  - assert (0 ≤ f i a)%Z by (apply Hf, lookup_insert_eq).
    assert (∀ j b, m' !! j = Some b → 0 ≤ f j b)%Z as Hf'.
    { intros j b Hj. apply Hf. rewrite lookup_insert_ne by (intros ->; congruence). done. }
    assert (delete i m ⊆ m') as Hd.
    { rewrite <- (delete_insert_id m' i a) by done. by apply delete_mono. }
    pose proof (IH _ Hd Hf') as Hle. rewrite total_insert_fresh by done.
    destruct (m !! i) as [b|] eqn:E.
    + pose proof (lookup_weaken _ _ _ _ E Hsub) as Hb. rewrite lookup_insert_eq in Hb.
      injection Hb as ->. rewrite (total_delete f m i b) by done. lia.
    + rewrite delete_id in Hle by done. lia.
Qed.
End Total.

(** Two tables whose rows weigh the same, key by key, weigh the same. *)
Lemma total_ext_map `{Countable K} {A B} (f : K → A → Z) (g : K → B → Z) (m : gmap K A) (m' : gmap K B) :
  (∀ i, f i <$> m !! i = g i <$> m' !! i) → total f m = total g m'.
Proof.
  revert m'. induction m as [|i a m Hi IH] using map_ind; intros m' Heq.
  - assert (m' = ∅) as ->; [|by rewrite !total_empty].
    apply map_empty. intros j. specialize (Heq j). rewrite lookup_empty in Heq.
    by destruct (m' !! j).
  - pose proof (Heq i) as Hb. rewrite lookup_insert_eq in Hb.
    destruct (m' !! i) as [b|] eqn:E; [|done]. injection Hb as Hb.
    rewrite total_insert_fresh, (total_delete g m' i b), Hb by done. f_equal. apply IH.
    intros j. destruct (decide (i = j)) as [<-|Hne].
    + by rewrite lookup_delete_eq, Hi.
    + rewrite lookup_delete_ne by done. specialize (Heq j). by rewrite lookup_insert_ne in Heq.
Qed.

(** Weighing one key differently. *)
Lemma total_at `{Countable K} {A} (f g : K → A → Z) (m : gmap K A) k :
  (∀ i a, i ≠ k → f i a = g i a) →
  total f m = (total g m + match m !! k with Some a => f k a - g k a | None => 0 end)%Z.
Proof.
  intros Hfg. destruct (m !! k) as [a|] eqn:E.
  - rewrite (total_delete f m k a), (total_delete g m k a) by done.
    rewrite (total_ext f g (delete k m)); [lia|].
    intros i b [Hne _]%lookup_delete_Some. by apply Hfg.
  - rewrite (total_ext f g m); [lia|]. intros i b Hi. apply Hfg. intros ->. congruence.
Qed.
