(* ===== verification/Text.v ===== *)
(** * Text: Rust strings as sequences of Unicode scalar values

    A [&str] or [String] is the list of its [char]s, each a code point in [N];
    what the code asks of the standard library's [str] ([trim], [is_ascii],
    [split_once], [rsplit_once], decimal [Display] of integers) is written out
    here. Literals of the source enter through [lit], which decodes their UTF-8 bytes. *)

From S2P Require Import Prelude.

Abbreviation char := N (only parsing).
Abbreviation str := (list N).

Definition bytes_of (s : string) : list N :=
  Ascii.N_of_ascii <$> String.list_ascii_of_string s.

(** UTF-8 decoding of a literal's bytes (source literals are well formed). *)
Fixpoint utf8_decode (bs : list N) : str :=
  match bs with
  | [] => []
  | b :: r =>
      if (b <? 128)%N then b :: utf8_decode r else
      match r with
      | [] => []
      | b1 :: r1 =>
          let c1 := N.land b1 63 in
          if (b <? 224)%N then (N.shiftl (N.land b 31) 6 + c1)%N :: utf8_decode r1 else
          match r1 with
          | [] => []
          | b2 :: r2 =>
              let c2 := N.land b2 63 in
              if (b <? 240)%N
              then (N.shiftl (N.land b 15) 12 + N.shiftl c1 6 + c2)%N :: utf8_decode r2
              else
              match r2 with
              | [] => []
              | b3 :: r3 =>
                  (N.shiftl (N.land b 7) 18 + N.shiftl c1 12 + N.shiftl c2 6
                    + N.land b3 63)%N :: utf8_decode r3
              end
          end
      end
  end.

(** [str::as_bytes]: the UTF-8 bytes of the scalar values. *)
Definition utf8_char (c : char) : list N :=
  (if c <? 128 then [c]
   else if c <? 2048 then [192 + c / 64; 128 + c mod 64]
   else if c <? 65536 then [224 + c / 4096; 128 + c / 64 mod 64; 128 + c mod 64]
   else [240 + c / 262144; 128 + c / 4096 mod 64; 128 + c / 64 mod 64; 128 + c mod 64])%N.
Definition utf8_encode (s : str) : list N := s ≫= utf8_char.

(** The [char]s of a string literal. *)
Definition lit (s : string) : str := utf8_decode (bytes_of s).

(** [char::is_whitespace]: the Unicode [White_Space] property. *)
Definition is_whitespace (c : char) : bool :=
  bool_decide (c ∈ [9; 10; 11; 12; 13; 32; 133; 160; 5760; 8192; 8193; 8194;
    8195; 8196; 8197; 8198; 8199; 8200; 8201; 8202; 8232; 8233; 8239; 8287;
    12288]%N).

Definition between (lo hi c : char) : bool := (lo <=? c)%N && (c <=? hi)%N.
Definition is_ascii_lowercase (c : char) : bool := between 97 122 c.
Definition is_ascii_uppercase (c : char) : bool := between 65 90 c.
Definition is_ascii_digit (c : char) : bool := between 48 57 c.
Definition is_ascii_alphanumeric (c : char) : bool :=
  is_ascii_lowercase c || is_ascii_uppercase c || is_ascii_digit c.
Definition is_ascii_hexdigit (c : char) : bool :=
  is_ascii_digit c || between 97 102 c || between 65 70 c.
(** [str::is_ascii]. *)
Definition is_ascii (s : str) : bool := forallb (λ c, (c <? 128)%N) s.

Fixpoint trim_start (s : str) : str :=
  match s with
  | [] => []
  | c :: s' => if is_whitespace c then trim_start s' else s
  end.
Definition trim_end (s : str) : str := reverse (trim_start (reverse s)).
Definition trim (s : str) : str := trim_end (trim_start s).

(** [s.chars().count()] as the [usize] it is. *)
Definition char_count (s : str) : Z := Z.of_nat (length s).

(** [str::split_once] on one character. *)
Fixpoint split_once (c : char) (s : str) : option (str * str) :=
  match s with
  | [] => None
  | x :: s' =>
      if (x =? c)%N then Some ([], s')
      else match split_once c s' with
           | Some (l, r) => Some (x :: l, r)
           | None => None
           end
  end.

(** [str::rsplit_once]: the split at the last occurrence. *)
Definition rsplit_once (c : char) (s : str) : option (str * str) :=
  match split_once c (reverse s) with
  | Some (l, r) => Some (reverse r, reverse l)
  | None => None
  end.

(** [Display] of an integer. *)
Definition show_int (z : Z) : str := bytes_of (pretty z).

(** ** Literals and digits *)

#[export] Instance bytes_of_inj : Inj (=) (=) bytes_of.
Proof.
  intros s t H. unfold bytes_of in H.
  assert (Inj (=) (=) Ascii.N_of_ascii) as Hi.
  { intros a b E. rewrite <-(Ascii.ascii_N_embedding a), <-(Ascii.ascii_N_embedding b).
    by rewrite E. }
  apply (inj (fmap Ascii.N_of_ascii)) in H.
  rewrite <-(String.string_of_list_ascii_of_string s),
    <-(String.string_of_list_ascii_of_string t). by rewrite H.
Qed.

#[export] Instance show_int_inj : Inj (=) (=) show_int.
Proof. intros a b H. by apply (inj bytes_of), (inj pretty) in H. Qed.

Definition is_int_char (c : char) : bool := is_ascii_digit c || (c =? 45)%N.

Lemma bytes_of_cons a s : bytes_of (String.String a s) = Ascii.N_of_ascii a :: bytes_of s.
Proof. done. Qed.

Lemma pretty_N_char_digit x :
  is_ascii_digit (Ascii.N_of_ascii (pretty_N_char x)) = true.
Proof. unfold pretty_N_char. by repeat case_match. Qed.

Lemma pretty_N_go_digits x s :
  Forall (λ c, is_ascii_digit c = true) (bytes_of s) →
  Forall (λ c, is_ascii_digit c = true) (bytes_of (pretty_N_go x s)).
Proof.
  revert s. induction (N.lt_wf_0 x) as [x _ IH]; intros s Hs.
  assert (x = 0 ∨ 0 < x)%N as [->|Hx] by lia; [by rewrite pretty_N_go_0|].
  rewrite pretty_N_go_step by done. apply IH; [by apply N.div_lt|].
  rewrite bytes_of_cons. constructor; [apply pretty_N_char_digit|done].
Qed.

(** A decimal number is digits after at most a sign. *)
Lemma show_int_chars z : Forall (λ c, is_int_char c = true) (show_int z).
Proof.
  assert (∀ x : N, Forall (λ c, is_ascii_digit c = true) (bytes_of (pretty x))) as HN.
  { intros x. unfold pretty, pretty_N. case_decide; [by repeat constructor|].
    by apply pretty_N_go_digits. }
  assert (∀ x : N, Forall (λ c, is_int_char c = true) (bytes_of (pretty x))) as HN'.
  { intros x. eapply Forall_impl; [apply HN|]. intros c Hc. unfold is_int_char. by rewrite Hc. }
  unfold show_int, pretty, pretty_Z. destruct z as [|p|p]; [apply (HN' 0%N)|apply (HN' (Npos p))|].
  change (bytes_of ("-" +:+ pretty (N.pos p))) with (45%N :: bytes_of (pretty (N.pos p))).
  constructor; [done|apply HN'].
Qed.

Lemma show_int_no z (c : char) : is_int_char c = false → c ∉ show_int z.
Proof.
  intros Hc Hin. pose proof (show_int_chars z) as H. rewrite Forall_forall in H.
  specialize (H _ Hin). congruence.
Qed.

(** ** Trimming *)

Definition head_ok (s : str) : Prop :=
  match s with [] => True | c :: _ => is_whitespace c = false end.

Lemma trim_start_head s : head_ok (trim_start s).
Proof. induction s as [|c s IH]; simpl; [done|]. by destruct (is_whitespace c) eqn:?. Qed.

Lemma trim_start_id s : head_ok s → trim_start s = s.
Proof. destruct s as [|c s]; simpl; [done|]. by intros ->. Qed.

Lemma trim_start_suffix s : ∃ p, s = p ++ trim_start s.
Proof.
  induction s as [|c s [p Hp]]; simpl; [by exists []|].
  destruct (is_whitespace c); [|by exists []].
  exists (c :: p). simpl. by f_equal.
Qed.

Lemma trim_end_prefix s : ∃ q, s = trim_end s ++ q.
Proof.
  unfold trim_end. destruct (trim_start_suffix (reverse s)) as [p Hp].
  exists (reverse p). rewrite <-reverse_app, <-Hp. by rewrite reverse_involutive.
Qed.

Lemma trim_head s : head_ok (trim s).
Proof.
  unfold trim. pose proof (trim_start_head s) as H.
  destruct (trim_end_prefix (trim_start s)) as [q Hq].
  destruct (trim_end (trim_start s)) as [|c t]; simpl; [done|].
  by rewrite Hq in H.
Qed.

Lemma trim_last s : head_ok (reverse (trim s)).
Proof. unfold trim, trim_end. rewrite reverse_involutive. apply trim_start_head. Qed.

(** Trimming is idempotent: a stored value is its own trimmed form. *)
Lemma trim_idemp s : trim (trim s) = trim s.
Proof.
  unfold trim at 1. rewrite trim_start_id by apply trim_head.
  unfold trim_end. rewrite trim_start_id by apply trim_last.
  apply reverse_involutive.
Qed.

Lemma trim_length s : length (trim s) ≤ length s.
Proof.
  unfold trim. destruct (trim_start_suffix s) as [p Hp].
  destruct (trim_end_prefix (trim_start s)) as [q Hq].
  rewrite Hp at 2. rewrite Hq at 2. rewrite !length_app. lia.
Qed.

(** ** Splitting *)

Lemma split_once_app c l r : c ∉ l → split_once c (l ++ c :: r) = Some (l, r).
Proof.
  induction l as [|x l IH]; simpl; intros H.
  - by rewrite N.eqb_refl.
  - apply not_elem_of_cons in H as [Hx Hl].
    destruct (N.eqb_spec x c); [congruence|]. by rewrite IH.
Qed.

Lemma rsplit_once_app c l r : c ∉ r → rsplit_once c (l ++ c :: r) = Some (l, r).
Proof.
  intros H. unfold rsplit_once.
  rewrite reverse_app, reverse_cons, <-app_assoc. simpl.
  rewrite split_once_app by by rewrite elem_of_reverse.
  by rewrite !reverse_involutive.
Qed.

Lemma split_once_Some c s l r :
  split_once c s = Some (l, r) → s = l ++ c :: r ∧ c ∉ l.
Proof.
  revert l r. induction s as [|x s IH]; simpl; intros l r H; [done|].
  destruct (N.eqb_spec x c) as [->|Hne].
  - injection H as <- <-. split; [done|apply not_elem_of_nil].
  - destruct (split_once c s) as [[l1 r1]|]; [|done]. injection H as <- <-.
    destruct (IH _ _ eq_refl) as [-> Hn]. split; [done|].
    apply not_elem_of_cons. split; congruence.
Qed.
