(* ===== verification/Errors.v ===== *)
(** * Errors: what an operation answers instead of a value

    [src/error.rs]: the two error types every fallible operation returns, the
    conversion of driver errors into them and the HTTP response each becomes;
    and from [src/module.rs] the names of the modules an error can carry. *)

From S2P Require Import Prelude Text.

(** ** Module names ([src/module.rs]) *)

Inductive Module_ : Set :=
  | Chatbot | Notes | Messages | Events | Appointments | Courses | CourseNotes
  | Classes | Sessions | Exams | Marks | Meals | Payments | Work | Pomodoro
  | Questions | BankQuestions | Attendance | Subjects | Homework | Boards.

#[export] Instance Module_eq_dec : EqDecision Module_.
Proof. solve_decision. Defined.

Definition module_as_str (m : Module_) : str :=
  lit match m with
  | Chatbot => "chatbot"
  | Notes => "notes"
  | Messages => "messages"
  | Events => "events"
  | Appointments => "appointments"
  | Courses => "courses"
  | CourseNotes => "course_notes"
  | Classes => "classes"
  | Sessions => "sessions"
  | Exams => "exams"
  | Marks => "marks"
  | Meals => "meals"
  | Payments => "payments"
  | Work => "work"
  | Pomodoro => "pomodoro"
  | Questions => "questions"
  | BankQuestions => "bank_questions"
  | Attendance => "attendance"
  | Subjects => "subjects"
  | Homework => "homework"
  | Boards => "boards"
  end.

(** ** The error types *)

Inductive ValidationError : Type :=
  | Empty (field : string)
  | TooShort (field : string) (min got : Z)
  | TooLong (field : string) (max got : Z)
  | NotAscii (field : string)
  | Invalid (field reason : string)
  | Unknown (field : string) (value : str)
  | Contradictory (field : string) (value : str).

#[export] Instance ValidationError_eq_dec : EqDecision ValidationError.
Proof. solve_decision. Defined.

(** The driver's error as far as [src/] looks at it: the variants
    [From<sqlx::Error>] matches on, a server error by its SQLSTATE, and the
    rest; [display] is its [Display] text. *)
Inductive DriverError : Type :=
  | RowNotFound
  | PoolTimedOut
  | PoolClosed
  | Tls
  | Io
  | Database (code : option string) (display : str)
  | OtherDriver (display : str).

#[export] Instance DriverError_eq_dec : EqDecision DriverError.
Proof. solve_decision. Defined.

Inductive AppError : Type :=
  | Validation (v : ValidationError)
  | NotFound
  | Expired (m : string)
  | Unauthorized
  | Forbidden (m : string)
  | ModuleDisabled (m : Module_)
  | Conflict (m : string)
  | ConflictOwned (m : str)
  | ConflictCoded (code : string) (message : str)
  | PayloadTooLarge (m : str)
  | TooManyRequests (retry_after_secs : Z)
  | Db (e : DriverError)
  | DbUnavailable
  | DbTimeout
  | Internal (m : str).

#[export] Instance AppError_eq_dec : EqDecision AppError.
Proof. solve_decision. Defined.

(** [impl From<sqlx::Error> for AppError]. *)
Definition from_driver (e : DriverError) : AppError :=
  match e with
  | RowNotFound => NotFound
  | PoolTimedOut | PoolClosed | Tls => DbUnavailable
  | Io => DbTimeout
  | _ => Db e
  end.

(** The [?] on a [Result<_, ValidationError>] inside a function that returns
    [AppError]: [#[from] ValidationError]. *)
Definition checked {A} (r : result ValidationError A) : result AppError A :=
  map_err Validation r.

(** [AppError::class]. *)
Definition class (e : AppError) : string :=
  match e with
  | Validation _ => "validation"
  | NotFound => "not_found"
  | Expired _ => "expired"
  | Unauthorized => "unauthorized"
  | Forbidden _ => "forbidden"
  | ModuleDisabled _ => "module_disabled"
  | Conflict _ | ConflictOwned _ => "conflict"
  | ConflictCoded _ _ => "conflict_coded"
  | PayloadTooLarge _ => "payload_too_large"
  | TooManyRequests _ => "too_many_requests"
  | Db _ => "db"
  | DbUnavailable => "db_unavailable"
  | DbTimeout => "db_timeout"
  | Internal _ => "internal"
  end.

(** The [Display] text of a driver error, as [detail] logs it; only the
    variants that become [Db] are ever displayed. *)
Definition driver_display (e : DriverError) : str :=
  match e with
  | Database _ d | OtherDriver d => d
  | _ => []
  end.

(** [AppError::detail]: what the log line carries. *)
Definition detail (e : AppError) : option str :=
  match e with
  | Db e => Some (driver_display e)
  | Internal m => Some m
  | DbTimeout => Some (lit "the write may or may not have applied")
  | _ => None
  end.

(** [ValidationError]'s [Display]: the [#[error(...)]] attributes. *)
Definition validation_display (v : ValidationError) : str :=
  match v with
  | Empty f => lit f ++ lit " must not be empty"
  | TooShort f min got =>
      lit f ++ lit " must be at least " ++ show_int min ++ lit " characters (got "
        ++ show_int got ++ lit ")"
  | TooLong f max got =>
      lit f ++ lit " must be at most " ++ show_int max ++ lit " characters (got "
        ++ show_int got ++ lit ")"
  | NotAscii f => lit f ++ lit " must be ASCII"
  | Invalid f reason => lit f ++ lit ": " ++ lit reason
  | Unknown f value =>
      lit f ++ lit ": `" ++ value ++ lit "` is not a known " ++ lit f
  | Contradictory f value =>
      lit f ++ lit ": `" ++ value ++ lit "` is asked for in both directions at once"
  end.

(** A rendered response: status, [Retry-After] and the JSON body's fields. *)
Record Response := MkResponse {
  resp_status : Z;
  resp_retry_after : option str;
  resp_error : str;
  resp_code : option string;
  resp_module : option str;
}.

(** [AppError::render]. *)
Definition render (e : AppError) : Response :=
  let plain status message := MkResponse status None message None None in
  match e with
  | TooManyRequests s =>
      MkResponse 429 (Some (show_int s)) (lit "too many requests") None None
  | DbUnavailable =>
      MkResponse 503 (Some (lit "1"))
        (lit "database reconnecting — retry shortly") None None
  | DbTimeout =>
      MkResponse 503 None
        (lit "request timed out — the write may or may not have applied") None None
  | ConflictCoded code message => MkResponse 409 None message (Some code) None
  | ModuleDisabled m =>
      MkResponse 403 None (lit "module disabled") None (Some (module_as_str m))
  | Validation v => plain 400%Z (validation_display v)
  | NotFound => plain 404%Z (lit "not found")
  | Expired m => plain 410%Z (lit m)
  | Unauthorized => plain 401%Z (lit "unauthorized")
  | Forbidden m => plain 403%Z (lit m)
  | Conflict m => plain 409%Z (lit m)
  | ConflictOwned m => plain 409%Z m
  | PayloadTooLarge m => plain 413%Z m
  | Db _ => plain 500%Z (lit "database error")
  | Internal _ => plain 500%Z (lit "internal server error")
  end.

(** No response carries a server detail: whatever the driver said or an
    internal message holds, two errors of one class that have such a detail
    render to the very same response, and its status is 500 or 503. *)
Theorem details_never_leak e e' :
  is_Some (detail e) → class e = class e' →
  render e = render e' ∧ (resp_status (render e) = 500 ∨ resp_status (render e) = 503)%Z.
Proof. intros [d Hd]. destruct e, e'; simpl in *; try done; auto. Qed.

Lemma details_never_leak_witness :
  render (Internal (lit "secret")) = render (Internal []).
Proof. apply details_never_leak; [by eexists|reflexivity]. Defined.
