(* ===== verification/Modules.v ===== *)
(** * Modules a school buys ([src/module.rs]) and the roles in it
    ([src/domain/role.rs])

    The catalogue of modules with its hard requirements, the packages they are
    sold in, and the set one school has switched on. *)

From S2P Require Import Prelude Text Errors.
From stdpp Require Import finite.

(** ** The catalogue *)

(** [Module::ALL], which lists the variants in declaration order, the order the
    derived [Ord] gives them. *)
Definition ALL : list Module_ :=
  [Chatbot; Notes; Messages; Events; Appointments; Courses; CourseNotes; Classes;
   Sessions; Exams; Marks; Meals; Payments; Work; Pomodoro; Questions;
   BankQuestions; Attendance; Subjects; Homework; Boards].

Lemma elem_of_ALL m : m ∈ ALL.
Proof. apply (bool_decide_unpack _). by destruct m; vm_compute. Qed.

Lemma ALL_NoDup : NoDup ALL.
Proof. by apply (bool_decide_unpack _); vm_compute. Qed.

#[export] Instance Module_finite : Finite Module_ :=
  {| enum := ALL; NoDup_enum := ALL_NoDup; elem_of_enum := elem_of_ALL |}.

(** [Iterator::find]. *)
Fixpoint find_first {A} (p : A → bool) (l : list A) : option A :=
  match l with [] => None | x :: l => if p x then Some x else find_first p l end.

Definition try_from_str (value : str) : result ValidationError Module_ :=
  ok_or (find_first (λ m, bool_decide (module_as_str m = value)) ALL)
    (Unknown "module" value).

Definition requires (m : Module_) : list Module_ :=
  match m with
  | Subjects => [Courses]
  | CourseNotes => [Courses]
  | Sessions => [Courses]
  | Exams => [Courses; Subjects]
  | Homework => [Courses; Subjects]
  | Classes => [Courses]
  | Marks => [Exams]
  | Attendance => [Events; Sessions]
  | _ => []
  end.

Inductive Package : Set := Academics | Communication | Operations | Ai.

#[export] Instance Package_eq_dec : EqDecision Package.
Proof. solve_decision. Defined.

Definition package (m : Module_) : Package :=
  match m with
  | Courses | Subjects | Sessions | Exams | Marks | Homework | Classes | CourseNotes
  | Attendance | BankQuestions => Academics
  | Notes | Messages | Events | Appointments | Questions | Boards => Communication
  | Meals | Payments | Work | Pomodoro => Operations
  | Chatbot => Ai
  end.

Definition dependents (m : Module_) : list Module_ :=
  filter (λ other, m ∈ requires other) ALL.

Definition PACKAGES : list Package := [Academics; Communication; Operations; Ai].

Definition package_as_str (p : Package) : str :=
  lit match p with
  | Academics => "academics"
  | Communication => "communication"
  | Operations => "operations"
  | Ai => "ai"
  end.

Definition package_try_from_str (value : str) : result ValidationError Package :=
  ok_or (find_first (λ p, bool_decide (package_as_str p = value)) PACKAGES)
    (Unknown "package" value).

Definition modules (p : Package) : list Module_ := filter (λ m, package m = p) ALL.

(** ** What one school has switched on *)

Abbreviation ModuleSet := (gset Module_).

Definition all : ModuleSet := list_to_set ALL.

(** [ModuleSet::iter]: in the order of [Ord]. *)
Definition iter (s : ModuleSet) : list Module_ := filter (λ m, m ∈ s) ALL.

Fixpoint from_names (names : list str) : result ValidationError ModuleSet :=
  match names with
  | [] => Ok ∅
  | name :: rest =>
      m ← try_from_str name;
      set ← from_names rest;
      Ok ({[m]} ∪ set)
  end.

(** [str]'s order: lexicographic on the code points, which for UTF-8 is the
    order of the bytes. *)
Fixpoint str_le (a b : str) : bool :=
  match a, b with
  | [], _ => true
  | _ :: _, [] => false
  | x :: a, y :: b => (x <? y)%N || ((x =? y)%N && str_le a b)
  end.

Definition names (s : ModuleSet) : list str :=
  merge_sort str_le (module_as_str <$> iter s).

Definition missing_requirements (s : ModuleSet) : list (Module_ * Module_) :=
  m ← iter s; (λ needed, (m, needed)) <$> filter (.∉ s) (requires m).

(** [slice::join] on strings. *)
Fixpoint join_with (sep : str) (l : list str) : str :=
  match l with
  | [] => []
  | [x] => x
  | x :: l => x ++ sep ++ join_with sep l
  end.

Definition validate (s : ModuleSet) : result AppError () :=
  let missing := missing_requirements s in
  match missing with
  | [] => Ok ()
  | _ =>
      let message := join_with (lit "; ") ((λ '(m, needed),
        module_as_str m ++ lit " requires " ++ module_as_str needed
          ++ lit ", which is not enabled") <$> missing) in
      Err (ConflictOwned message)
  end.

(** ** Selling modules: the guards of [src/web/builder.rs] *)

Record PatchModules := MkPatch {
  enable : option (list str);
  disable : option (list str);
  enable_packages : option (list str);
  disable_packages : option (list str);
}.

(** [PatchModules::side]. *)
Fixpoint add_packages (set : ModuleSet) (packages : list str)
    : result ValidationError ModuleSet :=
  match packages with
  | [] => Ok set
  | name :: rest =>
      p ← package_try_from_str name;
      add_packages (set ∪ list_to_set (modules p)) rest
  end.

Definition side (mods packages : option (list str)) : result AppError ModuleSet :=
  checked (
    set ← from_names (default [] mods);
    add_packages set (default [] packages)).

Definition refuse_if_needed (m : Module_) (set : ModuleSet) : result AppError () :=
  let needed_by := module_as_str <$> filter (.∈ set) (dependents m) in
  match needed_by with
  | [] => Ok ()
  | _ => Err (ConflictOwned (module_as_str m ++ lit " is required by "
           ++ join_with (lit ", ") needed_by))
  end.

Definition path_module (raw : str) : result AppError Module_ :=
  match try_from_str raw with Ok m => Ok m | Err _ => Err NotFound end.

(** The decision of each builder route, on the set it read: [None] answers the
    unchanged set without a write. *)
Definition enable_decision (m : Module_) (set : ModuleSet) : result AppError (option ModuleSet) :=
  if bool_decide (m ∈ set) then Ok None
  else
    let set' := {[m]} ∪ set in
    _ ← validate set';
    Ok (Some set').

Definition disable_decision (m : Module_) (set : ModuleSet) : result AppError (option ModuleSet) :=
  if negb (bool_decide (m ∈ set)) then Ok None
  else
    _ ← refuse_if_needed m set;
    Ok (Some (set ∖ {[m]})).

Definition patch_sides (req : PatchModules) : result AppError (ModuleSet * ModuleSet) :=
  on ← side (enable req) (enable_packages req);
  off ← side (disable req) (disable_packages req);
  match find_first (λ m, bool_decide (m ∈ off)) (iter on) with
  | Some m => Err (Validation (Contradictory "module" (module_as_str m)))
  | None => Ok (on, off)
  end.

Definition patch_decision (on off current : ModuleSet) : result AppError (option ModuleSet) :=
  let result_ := (current ∪ on) ∖ off in
  _ ← validate result_;
  if bool_decide (result_ = current) then Ok None else Ok (Some result_).

(** ** Requirements *)

Definition closed (s : ModuleSet) : Prop :=
  ∀ m needed, m ∈ s → needed ∈ requires m → needed ∈ s.

Lemma elem_of_iter m s : m ∈ iter s ↔ m ∈ s.
Proof. unfold iter. rewrite list_elem_of_filter. pose proof (elem_of_ALL m). naive_solver. Qed.

Lemma elem_of_missing s m needed :
  (m, needed) ∈ missing_requirements s ↔ m ∈ s ∧ needed ∈ requires m ∧ needed ∉ s.
Proof.
  unfold missing_requirements. rewrite list_elem_of_bind. split.
  - intros (x & Hin & Hx). apply elem_of_iter in Hx.
    apply list_elem_of_fmap in Hin as (y & [= -> ->] & Hy).
    apply list_elem_of_filter in Hy. naive_solver.
  - intros (Hm & Hn & Hs). exists m. rewrite elem_of_iter. split; [|done].
    apply list_elem_of_fmap. exists needed. by rewrite list_elem_of_filter.
Qed.

Lemma validate_ok_closed s : validate s = Ok () ↔ closed s.
Proof.
  unfold validate, closed. destruct (missing_requirements s) as [|[m n] l] eqn:E.
  - split; [|done]. intros _ m n Hm Hn. destruct (decide (n ∈ s)) as [|Hns]; [done|].
    assert ((m, n) ∈ missing_requirements s) as Hin by by apply elem_of_missing.
    rewrite E in Hin. by apply elem_of_nil in Hin.
  - split; [done|]. intros Hc.
    assert ((m, n) ∈ missing_requirements s) as Hin by (rewrite E; constructor).
    apply elem_of_missing in Hin as (? & ? & Hn). destruct Hn. eauto.
Qed.

Lemma module_as_str_inj m n : module_as_str m = module_as_str n → m = n.
Proof.
  assert (Forall (λ m, Forall (λ n, module_as_str m = module_as_str n → m = n) ALL) ALL) as H.
  { apply (bool_decide_unpack _). by vm_compute. }
  rewrite Forall_forall in H. specialize (H m (elem_of_ALL m)).
  rewrite Forall_forall in H. apply (H n (elem_of_ALL n)).
Qed.

Lemma find_first_Some {A} (p : A → bool) l x :
  (∀ y, p y = true → y = x) → p x = true → x ∈ l → find_first p l = Some x.
Proof.
  intros Hu Hx. induction l as [|y l IH]; simpl; intros Hin; [by apply elem_of_nil in Hin|].
  destruct (p y) eqn:E; [by rewrite (Hu y E)|].
  apply IH. apply elem_of_cons in Hin as [->|?]; [congruence|done].
Qed.

Lemma find_first_None {A} (p : A → bool) l :
  find_first p l = None ↔ ∀ x, x ∈ l → p x = false.
Proof.
  induction l as [|y l IH]; simpl; [split; [by intros _ z ?%elem_of_nil|done]|].
  destruct (p y) eqn:E; split; try done.
  - intros H. specialize (H y ltac:(constructor)). congruence.
  - rewrite IH. intros H z Hz. apply elem_of_cons in Hz as [->|Hz]; auto.
  - intros H. apply IH. intros z Hz. apply H. by constructor.
Qed.

Lemma find_first_elem {A} (p : A → bool) l x : find_first p l = Some x → x ∈ l ∧ p x = true.
Proof.
  induction l as [|y l IH]; simpl; [done|]. destruct (p y) eqn:E.
  - intros [= ->]. split; [constructor|done].
  - intros [? ?]%IH. split; [by constructor|done].
Qed.

Lemma try_from_str_as_str m : try_from_str (module_as_str m) = Ok m.
Proof.
  unfold try_from_str. rewrite (find_first_Some _ _ m); [done|..].
  - intros y Hy%bool_decide_eq_true. by apply module_as_str_inj.
  - by apply bool_decide_eq_true.
  - apply elem_of_ALL.
Qed.

Lemma try_from_str_ok value m : try_from_str value = Ok m ↔ value = module_as_str m.
Proof.
  split; [|intros ->; apply try_from_str_as_str]. unfold try_from_str.
  rewrite ok_or_ok. intros [_ H]%find_first_elem. by apply bool_decide_eq_true in H.
Qed.

Lemma from_names_ok names s :
  from_names names = Ok s ↔
    (∀ n, n ∈ names → ∃ m, n = module_as_str m)
    ∧ ∀ m, m ∈ s ↔ module_as_str m ∈ names.
Proof.
  revert s. induction names as [|n names IH]; intros s; simpl.
  - split.
    + intros [= <-]. split; [by intros ? ?%elem_of_nil|]. intros m.
      split; [by intros ?%elem_of_empty|by intros ?%elem_of_nil].
    + intros [_ H]. f_equal. apply set_eq. intros m. rewrite H.
      split; [by intros ?%elem_of_empty|by intros ?%elem_of_nil].
  - rewrite bind_ok. setoid_rewrite bind_ok. setoid_rewrite try_from_str_ok. split.
    + intros (m & -> & s' & Hs' & [= <-]). apply IH in Hs' as [Hn Hs'].
      split; [intros x [->|Hx]%elem_of_cons; eauto|]. intros m'.
      rewrite elem_of_union, elem_of_singleton, elem_of_cons, Hs'. split; [naive_solver|].
      intros [E|?]; [left; by apply module_as_str_inj|by right].
    + intros [Hn Hs]. destruct (Hn n) as [m Hm]; [constructor|]. exists m. split; [done|].
      exists (list_to_set (filter (λ m, module_as_str m ∈ names) ALL)). split.
      * apply IH. split; [intros x Hx; apply Hn; by constructor|]. intros m'.
        rewrite elem_of_list_to_set, list_elem_of_filter. pose proof (elem_of_ALL m'). naive_solver.
      * f_equal. apply set_eq. intros m'. rewrite Hs, elem_of_union, elem_of_singleton,
          elem_of_list_to_set, list_elem_of_filter, elem_of_cons, Hm.
        pose proof (elem_of_ALL m'). split; [naive_solver|].
        intros [E|?]; [left; by apply module_as_str_inj|naive_solver].
Qed.

Lemma names_ok s : from_names (names s) = Ok s.
Proof.
  apply from_names_ok. unfold names. setoid_rewrite merge_sort_Permutation.
  setoid_rewrite list_elem_of_fmap. setoid_rewrite elem_of_iter. split; [naive_solver|].
  intros m. split; [by eauto|]. intros (m' & E & Hm'). by rewrite (module_as_str_inj _ _ E).
Qed.

Lemma str_le_total a b : str_le a b = true ∨ str_le b a = true.
Proof.
  revert b. induction a as [|x a IH]; intros [|y b]; simpl; try by auto.
  destruct (N.lt_total x y) as [Hxy|[->|Hxy]].
  - left. by rewrite (proj2 (N.ltb_lt _ _) Hxy).
  - rewrite N.ltb_irrefl, N.eqb_refl. simpl. apply IH.
  - right. by rewrite (proj2 (N.ltb_lt _ _) Hxy).
Qed.

(** A set of modules survives being stored: its names parse back to the very
    set, and they are stored in sorted order, so equal sets are equal rows. *)
Theorem names_round_trip s :
  from_names (names s) = Ok s ∧ Sorted (λ a b, str_le a b) (names s).
Proof.
  split; [apply names_ok|]. unfold names.
  apply Sorted_merge_sort. intros a b. rewrite !Is_true_true. apply str_le_total.
Qed.

(** ** The guards of the three selling routes *)

Lemma elem_of_dependents m other : other ∈ dependents m ↔ m ∈ requires other.
Proof.
  unfold dependents. rewrite list_elem_of_filter. pose proof (elem_of_ALL other). naive_solver.
Qed.

Lemma requires_irrefl m : m ∉ requires m.
Proof. apply (bool_decide_unpack _). by destruct m; vm_compute. Qed.

Lemma refuse_if_needed_ok m s :
  refuse_if_needed m s = Ok () ↔ ∀ other, other ∈ s → m ∉ requires other.
Proof.
  unfold refuse_if_needed. destruct (filter (.∈ s) (dependents m)) as [|d l] eqn:E; simpl.
  - split; [|done]. intros _ other Ho Hm.
    assert (other ∈ filter (.∈ s) (dependents m)) as Hin
      by (by rewrite list_elem_of_filter, elem_of_dependents).
    rewrite E in Hin. by apply elem_of_nil in Hin.
  - split; [done|]. intros Hno.
    assert (d ∈ filter (.∈ s) (dependents m)) as Hin by (rewrite E; constructor).
    apply list_elem_of_filter in Hin as [Hd Hm]. apply elem_of_dependents in Hm.
    by destruct (Hno d).
Qed.

(** On a satisfiable set, the selling routes decide exactly by requirements:
    enabling a module writes iff it is off and everything it requires is on;
    disabling one writes iff it is on and what remains is still satisfiable (the
    guard over its dependents and the requirement check agree); and a patch only
    ever writes a satisfiable set. *)
Theorem decisions_exact s m on off :
  closed s →
  (∀ s', enable_decision m s = Ok (Some s') ↔
     (m ∉ s) ∧ s' = {[m]} ∪ s ∧ (∀ n, n ∈ requires m → n ∈ s))
  ∧ (∀ s', disable_decision m s = Ok (Some s') ↔
     m ∈ s ∧ s' = s ∖ {[m]} ∧ closed (s ∖ {[m]}))
  ∧ (∀ s', patch_decision on off s = Ok (Some s') ↔
     s' = (s ∪ on) ∖ off ∧ s' ≠ s ∧ closed s').
Proof.
  intros Hs. split_and!; intros s'.
  - unfold enable_decision. case_bool_decide as Hm; [naive_solver|].
    rewrite bind_ok. assert (closed ({[m]} ∪ s) ↔ ∀ n, n ∈ requires m → n ∈ s) as Hc.
    { split.
      - intros Hc n Hn. specialize (Hc m n ltac:(set_solver) Hn).
        apply elem_of_union in Hc as [->%elem_of_singleton|?]; [|done].
        by destruct (requires_irrefl m).
      - intros Hn x y [->%elem_of_singleton|Hx]%elem_of_union Hy;
          apply elem_of_union; right; eauto. }
    rewrite <-Hc, <-validate_ok_closed. split.
    + intros ([] & Hv & [= <-]). done.
    + intros (_ & -> & Hv). by exists ().
  - unfold disable_decision. case_bool_decide as Hm; simpl; [|naive_solver].
    rewrite bind_ok. assert (closed (s ∖ {[m]}) ↔ ∀ o, o ∈ s → m ∉ requires o) as Hc.
    { split.
      - intros Hc o Ho Hmo. destruct (decide (o = m)) as [->|Hne]; [by apply (requires_irrefl m)|].
        specialize (Hc o m ltac:(set_solver) Hmo). set_solver.
      - intros Ho x y Hx Hy. apply elem_of_difference in Hx as [Hx Hxm].
        apply elem_of_difference. split; [eauto|]. intros ->%elem_of_singleton. by apply (Ho x). }
    rewrite Hc, <-refuse_if_needed_ok. split.
    + intros ([] & Hv & [= <-]). done.
    + intros (_ & -> & Hv). by exists ().
  - unfold patch_decision. rewrite bind_ok. split.
    + intros ([] & Hv & Hd). case_bool_decide as Heq; [done|]. injection Hd as <-.
      by apply validate_ok_closed in Hv.
    + intros (-> & Hne & Hc). exists (). apply validate_ok_closed in Hc. split; [done|].
      by rewrite bool_decide_eq_false_2.
Qed.

Lemma decisions_exact_witness :
  is_ok (disable_decision Exams {[Courses; Subjects; Exams; Marks]}) = false
  ∧ enable_decision Exams {[Courses; Subjects]} = Ok (Some ({[Exams]} ∪ {[Courses; Subjects]})).
Proof.
  split; [vm_compute; reflexivity|].
  assert (closed {[Courses; Subjects]}) as Hc
    by (apply validate_ok_closed; vm_compute; reflexivity).
  destruct (decisions_exact {[Courses; Subjects]} Exams ∅ ∅ Hc) as (He & _ & _).
  refine (proj2 (He _) _). split_and!; [set_solver|reflexivity|].
  intros n Hn. simpl in Hn. set_solver.
Defined.

(** ** Roles ([src/domain/role.rs]) *)

(** Declared low to high, which is the derived [Ord]. *)
Inductive Role : Set := RAi | Parent | Student | Teacher | Manager | Admin.

#[export] Instance Role_eq_dec : EqDecision Role.
Proof. solve_decision. Defined.

Definition role_as_str (r : Role) : str :=
  lit match r with
  | RAi => "ai"
  | Parent => "parent"
  | Student => "student"
  | Teacher => "teacher"
  | Manager => "manager"
  | Admin => "admin"
  end.

Definition role_rank (r : Role) : nat :=
  match r with RAi => 0 | Parent => 1 | Student => 2 | Teacher => 3 | Manager => 4 | Admin => 5 end.

Definition at_least (self min : Role) : bool := role_rank min <=? role_rank self.

(** The assignable roles. *)
Definition ROLES : list Role := [Parent; Student; Teacher; Manager; Admin].

Definition role_try_from_str (value : str) : result ValidationError Role :=
  ok_or (find_first (λ r, bool_decide (role_as_str r = value)) ROLES)
    (Invalid "role" "must be one of: parent, student, teacher, manager, admin").

Definition may_message (self recipient : Role) : bool :=
  if bool_decide (self = RAi) || bool_decide (recipient = RAi) then false
  else at_least self Teacher || at_least recipient Teacher.

Definition messageable_roles (self : Role) : option (list Role) :=
  if at_least self Teacher then None else Some [Teacher; Manager; Admin].

(** The search filter and the message gate agree on every assignable pair. *)
Lemma messageable_roles_agree self recipient :
  self ∈ ROLES → recipient ∈ ROLES →
  may_message self recipient =
    match messageable_roles self with
    | None => true
    | Some l => bool_decide (recipient ∈ l)
    end.
Proof.
  assert (RAi ∉ ROLES) as Hai by (unfold ROLES; set_solver).
  by destruct self, recipient; intros Hs Hr; vm_compute.
Qed.
