(* ===== verification/Effects.v ===== *)
(** * Effects: requests, transactions and the other requests between them

    Every handler of the server is a straight run of database round trips
    ([src/db], [src/database.rs]) interleaved with reads of the clock and of
    the id generator, while other requests commit between any two of its round
    trips. [io] is that: a state monad over a [World] whose [w_env] gives what
    the rest of the server did to the database before the [n]-th effect, so a
    theorem over all [w_env] that keep an invariant is a rely/guarantee
    statement about every interleaving of committed transactions.

    [tx] is the body of one transaction (or one statement): it either commits
    a new state or refuses and leaves none, which is the rollback. Section
    [Retry] models [tx_with_retry] round by round and shows that it answers
    only what one run of its closure answers, which is what lets the component
    files write [atomic f] for it. *)

From S2P Require Import Prelude Text Errors.

Record World (S : Type) := MkWorld {
  w_db : S;
  w_step : nat;
  w_env : nat → S → S;
  w_clock : nat → Z;
  w_fresh : nat → N;
}.
Arguments MkWorld {S} _ _ _ _ _.
Arguments w_db {S} _.
Arguments w_step {S} _.
Arguments w_env {S} _ _ _.
Arguments w_clock {S} _ _.
Arguments w_fresh {S} _ _.

Definition io (S A : Type) : Type := World S → result AppError A * World S.
Definition tx (S A : Type) : Type := S → result AppError (A * S).

#[export] Instance io_ret S : MRet (io S) := λ A a w, (Ok a, w).
#[export] Instance io_bind S : MBind (io S) := λ A B f m w,
  match m w with
  | (Ok a, w') => f a w'
  | (Err e, w') => (Err e, w')
  end.

#[export] Instance tx_ret S : MRet (tx S) := λ A a s, Ok (a, s).
#[export] Instance tx_bind S : MBind (tx S) := λ A B f m s,
  match m s with
  | Ok (a, s') => f a s'
  | Err e => Err e
  end.

(** An early [return Err(e)], and [?] on a pure result. *)
Definition raise {S A} (e : AppError) : io S A := λ w, (Err e, w).
Definition lift {S A} (r : result AppError A) : io S A := λ w, (r, w).
Definition refuse {S A} (e : AppError) : tx S A := λ _, Err e.
Definition decide_tx {S A} (r : result AppError A) : tx S A := λ s,
  match r with Ok a => Ok (a, s) | Err e => Err e end.

(** A read, and an unconditional write, as one statement of a transaction. *)
Definition gets {S A} (f : S → A) : tx S A := λ s, Ok (f s, s).
Definition writes {S A} (f : S → A * S) : tx S A := λ s, Ok (f s).

Definition tick {S} (s : S) (w : World S) : World S :=
  MkWorld s (Datatypes.S (w_step w)) (w_env w) (w_clock w) (w_fresh w).

(** One committed transaction, or one statement outside of any. *)
Definition atomic {S A} (m : tx S A) : io S A := λ w,
  let s := w_env w (w_step w) (w_db w) in
  match m s with
  | Ok (a, s') => (Ok a, tick s' w)
  | Err e => (Err e, tick s w)
  end.

(** [Timestamp::now()] and [next_uuid()]. *)
Definition now {S} : io S Z := λ w, (Ok (w_clock w (w_step w)), tick (w_db w) w).
Definition fresh {S} : io S N := λ w, (Ok (w_fresh w (w_step w)), tick (w_db w) w).

(** What a transaction that committed did, step by step. *)
Lemma tx_bind_ok {S A B} (m : tx S A) (f : A → tx S B) s b s' :
  (m ≫= f) s = Ok (b, s') ↔ ∃ a s1, m s = Ok (a, s1) ∧ f a s1 = Ok (b, s').
Proof. unfold mbind, tx_bind. destruct (m s) as [[a s1]|e]; naive_solver. Qed.

Lemma gets_ok {S A} (f : S → A) s a s' : gets f s = Ok (a, s') ↔ a = f s ∧ s' = s.
Proof. unfold gets. naive_solver. Qed.

Lemma decide_ok {S A} (r : result AppError A) (s : S) a s' :
  decide_tx r s = Ok (a, s') ↔ r = Ok a ∧ s' = s.
Proof. unfold decide_tx. destruct r; naive_solver. Qed.

Lemma tx_bind_gets {S A B} (f : S → A) (k : A → tx S B) s :
  (gets f ≫= k) s = k (f s) s.
Proof. done. Qed.

(** A [match] on (or a [let _ =] of) a fallible call: its error is a value. *)
Definition attempt {S A} (m : io S A) : io S (result AppError A) := λ w,
  let '(r, w') := m w in (Ok r, w').

(** A statement the server (or the network) may refuse: [verdict] is its word on
    the effect of that step, and a refused statement changed nothing. *)
Definition statement {S A} (verdict : nat → option AppError) (m : tx S A) : io S A := λ w,
  match verdict (w_step w) with
  | Some e => (Err e, tick (w_env w (w_step w) (w_db w)) w)
  | None => atomic m w
  end.

(** [for x in xs { body(x)?; }]. *)
Fixpoint for_each {S A} (xs : list A) (body : A → io S ()) : io S () :=
  match xs with
  | [] => mret ()
  | x :: xs => _ ← body x; for_each xs body
  end.

(** [for _ in 0..n { body }; last]: a round answers [Some] to return. *)
Fixpoint rounds {S A} (n : nat) (body : io S (option A)) (last : io S A) : io S A :=
  match n with
  | O => last
  | S n' => r ← body; match r with Some a => mret a | None => rounds n' body last end
  end.

(** What a guarded insert found ([src/db/cap.rs]). *)
Inductive Claimed (A : Type) := Made (a : A) | Full | Duplicate.
Arguments Made {A} a.
Arguments Full {A}.
Arguments Duplicate {A}.

(** [cap::UNLIMITED]. *)
Definition UNLIMITED : Z := i64_max.

(** A refused foreign key and a taken key, as the driver reports them. *)
Definition fk_violation : AppError := from_driver (Database (Some "23503"%string) []).
Definition unique_violation : AppError := from_driver (Database (Some "23505"%string) []).

(** A world in which nobody else writes. *)
Definition quiet {S} (s : S) (clock : nat → Z) (ids : nat → N) : World S :=
  MkWorld s 0 (λ _ s, s) clock ids.

Lemma atomic_bind {S A B} (m : tx S A) (k : A → io S B) w :
  (atomic m ≫= k) w =
    match m (w_env w (w_step w) (w_db w)) with
    | Ok (a, s') => k a (tick s' w)
    | Err e => (Err e, tick (w_env w (w_step w) (w_db w)) w)
    end.
Proof. unfold mbind, io_bind, atomic. by destruct (m _) as [[a s']|e]. Qed.

Lemma lift_bind {S A B} (r : result AppError A) (k : A → io S B) w :
  (lift r ≫= k) w = match r with Ok a => k a w | Err e => (Err e, w) end.
Proof. by destruct r. Qed.

(** ** Runs nobody interferes with *)

Definition undisturbed {S} (w : World S) : Prop := ∀ n s, w_env w n s = s.

Lemma atomic_alone {S A} (m : tx S A) w :
  undisturbed w →
  atomic m w = match m (w_db w) with
               | Ok (a, s') => (Ok a, tick s' w)
               | Err e => (Err e, tick (w_db w) w)
               end.
Proof. intros Hq. unfold atomic. by rewrite !Hq. Qed.

Lemma statement_alone {S A} v (m : tx S A) w :
  undisturbed w →
  statement v m w =
    match v (w_step w) with
    | Some e => (Err e, tick (w_db w) w)
    | None => match m (w_db w) with
              | Ok (a, s') => (Ok a, tick s' w)
              | Err e => (Err e, tick (w_db w) w)
              end
    end.
Proof. intros Hq. unfold statement, atomic. by rewrite Hq. Qed.

Lemma statement_bind_alone {S A B} v (m : tx S A) (k : A → io S B) w :
  undisturbed w →
  (statement v m ≫= k) w =
    match v (w_step w) with
    | Some e => (Err e, tick (w_db w) w)
    | None => match m (w_db w) with
              | Ok (a, s') => k a (tick s' w)
              | Err e => (Err e, tick (w_db w) w)
              end
    end.
Proof.
  intros Hq. unfold mbind, io_bind. rewrite statement_alone by done.
  destruct (v (w_step w)); [done|]. by destruct (m (w_db w)) as [[a s']|e].
Qed.

Lemma atomic_bind_alone {S A B} (m : tx S A) (k : A → io S B) w :
  undisturbed w →
  (atomic m ≫= k) w =
    match m (w_db w) with
    | Ok (a, s') => k a (tick s' w)
    | Err e => (Err e, tick (w_db w) w)
    end.
Proof.
  intros Hq. unfold mbind, io_bind, atomic. rewrite !Hq.
  by destruct (m (w_db w)) as [[a s']|e].
Qed.

Lemma lift_bind_alone {S A B} (r : result AppError A) (k : A → io S B) w :
  (lift r ≫= k) w = match r with Ok a => k a w | Err e => (Err e, w) end.
Proof. by destruct r. Qed.

Lemma now_bind {S B} (k : Z → io S B) w :
  (now ≫= k) w = k (w_clock w (w_step w)) (tick (w_db w) w).
Proof. done. Qed.

Lemma attempt_bind {S A B} (m : io S A) (k : result AppError A → io S B) w :
  (attempt m ≫= k) w = let '(r, w') := m w in k r w'.
Proof. unfold attempt, mbind, io_bind. by destruct (m w). Qed.

Lemma fresh_bind {S B} (k : N → io S B) w :
  (fresh ≫= k) w = k (w_fresh w (w_step w)) (tick (w_db w) w).
Proof. done. Qed.

(** ** Rely/guarantee triples *)

Section Triples.
Context {S : Type} (I : S → Prop).

(** Everybody else keeps [I]. *)
Definition stable (w : World S) : Prop := ∀ n s, I s → I (w_env w n s).

(** Under any such interference the handler keeps [I], and answers within [Q]
    of the state its last statement left. *)
Definition triple {A} (m : io S A) (Q : result AppError A → S → Prop) : Prop :=
  ∀ w, stable w → I (w_db w) →
    let '(r, w') := m w in
    I (w_db w') ∧ w_env w' = w_env w ∧ Q r (w_db w').

Definition keeps {A} (m : io S A) : Prop := triple m (λ _ _, True).

(** A transaction body keeps [I]. *)
Definition tx_keeps {A} (m : tx S A) : Prop :=
  ∀ s a s', I s → m s = Ok (a, s') → I s'.

Lemma triple_weaken {A} (m : io S A) (Q Q' : result AppError A → S → Prop) :
  (∀ r s, Q r s → Q' r s) → triple m Q → triple m Q'.
Proof.
  intros HQ Hm w Hst HI. specialize (Hm w Hst HI).
  destruct (m w) as [r w']. naive_solver.
Qed.

Lemma triple_ret {A} (a : A) (Q : result AppError A → S → Prop) :
  (∀ s, I s → Q (Ok a) s) → triple (mret a) Q.
Proof. intros HQ w Hst HI. simpl. auto. Qed.

Lemma triple_lift {A} (r : result AppError A) (Q : result AppError A → S → Prop) :
  (∀ s, I s → Q r s) → triple (lift r) Q.
Proof. intros HQ w Hst HI. simpl. auto. Qed.

Lemma triple_raise {A} e (Q : result AppError A → S → Prop) :
  (∀ s, I s → Q (Err e) s) → triple (raise e) Q.
Proof. intros HQ w Hst HI. simpl. auto. Qed.

Lemma triple_bind {A B} (m : io S A) (f : A → io S B) Q R :
  triple m R →
  (∀ a, triple (f a) Q) →
  (∀ e s, R (Err e) s → Q (Err e) s) →
  triple (m ≫= f) Q.
Proof.
  intros Hm Hf He w Hst HI. specialize (Hm w Hst HI).
  unfold mbind, io_bind. destruct (m w) as [[a|e] w'].
  - destruct Hm as (HI' & Henv & _).
    assert (stable w') as Hst' by (unfold stable; by rewrite Henv).
    specialize (Hf a w' Hst' HI'). destruct (f a w') as [r w''].
    rewrite <-Henv. exact Hf.
  - naive_solver.
Qed.

Lemma triple_now (Q : result AppError Z → S → Prop) :
  (∀ t s, I s → Q (Ok t) s) → triple now Q.
Proof. intros HQ w Hst HI. simpl. auto. Qed.

Lemma triple_fresh (Q : result AppError N → S → Prop) :
  (∀ t s, I s → Q (Ok t) s) → triple fresh Q.
Proof. intros HQ w Hst HI. simpl. auto. Qed.

Lemma triple_atomic {A} (m : tx S A) (Q : result AppError A → S → Prop) :
  tx_keeps m →
  (∀ s a s', I s → m s = Ok (a, s') → Q (Ok a) s') →
  (∀ s e, I s → m s = Err e → Q (Err e) s) →
  triple (atomic m) Q.
Proof.
  intros Hk Hok Herr w Hst HI. unfold atomic.
  pose proof (Hst (w_step w) _ HI) as HI'.
  destruct (m (w_env w (w_step w) (w_db w))) as [[a s']|e] eqn:E; simpl.
  - repeat split; [by eapply Hk| by eapply Hok].
  - repeat split; [done| by eapply Herr].
Qed.

Lemma triple_lift_bind {A B} (r : result AppError A) (k : A → io S B) Q :
  (∀ a, r = Ok a → triple (k a) Q) → (∀ e s, I s → r = Err e → Q (Err e) s) →
  triple (lift r ≫= k) Q.
Proof.
  intros Hk He. destruct r as [a|e]; [exact (Hk a eq_refl)|]. intros w Hst HI. simpl. auto.
Qed.

Lemma triple_read {A B} (m : tx S A) (P : A → Prop) (k : A → io S B) Q :
  tx_keeps m → (∀ s a s', I s → m s = Ok (a, s') → P a) →
  (∀ e s, I s → Q (Err e) s) →
  (∀ a, P a → triple (k a) Q) → triple (atomic m ≫= k) Q.
Proof.
  intros Hm HP He Hk w Hst HI. unfold mbind, io_bind, atomic.
  pose proof (Hst (w_step w) _ HI) as HI'.
  destruct (m (w_env w (w_step w) (w_db w))) as [[a s']|e] eqn:E; [|simpl; auto].
  pose proof (Hm _ _ _ HI' E) as HI2. pose proof (HP _ _ _ HI' E) as HPa.
  apply (Hk a HPa (tick s' w) Hst HI2).
Qed.

Lemma triple_rounds {A} n (body : io S (option A)) (last : io S A) Q :
  triple body (λ r s, match r with
                      | Ok (Some a) => Q (Ok a) s
                      | Ok None => True
                      | Err e => Q (Err e) s
                      end) →
  triple last Q → triple (rounds n body last) Q.
Proof.
  intros Hb Hl. induction n as [|n IH]; simpl; [done|]. intros w Hst HI.
  specialize (Hb w Hst HI). unfold mbind, io_bind. destruct (body w) as [[[a|]|e] w'].
  - done.
  - destruct Hb as (HI' & Henv & _).
    assert (stable w') as Hst' by (unfold stable; by rewrite Henv).
    specialize (IH w' Hst' HI'). rewrite <-Henv. exact IH.
  - done.
Qed.

Lemma keeps_bind {A B} (m : io S A) (f : A → io S B) :
  keeps m → (∀ a, keeps (f a)) → keeps (m ≫= f).
Proof. intros. by eapply triple_bind. Qed.

Lemma keeps_atomic {A} (m : tx S A) : tx_keeps m → keeps (atomic m).
Proof. intros. by apply triple_atomic. Qed.

Lemma keeps_ret {A} (a : A) : keeps (mret a).
Proof. by apply triple_ret. Qed.
Lemma keeps_lift {A} (r : result AppError A) : keeps (lift r).
Proof. by apply triple_lift. Qed.
Lemma keeps_raise {A} e : keeps (raise (A := A) e).
Proof. by apply triple_raise. Qed.
Lemma keeps_now : keeps now.
Proof. by apply triple_now. Qed.
Lemma keeps_fresh : keeps fresh.
Proof. by apply triple_fresh. Qed.

Lemma keeps_rounds {A} n (body : io S (option A)) (last : io S A) :
  keeps body → keeps last → keeps (rounds n body last).
Proof.
  intros Hb Hl. induction n as [|n IH]; simpl; [done|].
  apply keeps_bind; [done|]. intros [a|]; [apply keeps_ret|done].
Qed.

(** A bind that knows what was decided, or read. *)
Lemma keeps_lift_bind {A B} (r : result AppError A) (k : A → io S B) :
  (∀ a, r = Ok a → keeps (k a)) → keeps (lift r ≫= k).
Proof.
  intros Hk. destruct r as [a|e]; [exact (Hk a eq_refl)|]. intros w Hst HI. simpl. auto.
Qed.

Lemma keeps_read {A B} (m : tx S A) (P : A → Prop) (k : A → io S B) :
  tx_keeps m → (∀ s a s', I s → m s = Ok (a, s') → P a) →
  (∀ a, P a → keeps (k a)) → keeps (atomic m ≫= k).
Proof.
  intros Hm HP Hk w Hst HI. unfold mbind, io_bind, atomic.
  pose proof (Hst (w_step w) _ HI) as HI'.
  destruct (m (w_env w (w_step w) (w_db w))) as [[a s']|e] eqn:E; [|simpl; auto].
  pose proof (Hm _ _ _ HI' E) as HI2. pose proof (HP _ _ _ HI' E) as HPa.
  apply (Hk a HPa (tick s' w) Hst HI2).
Qed.

Lemma keeps_attempt {A} (m : io S A) : keeps m → keeps (attempt m).
Proof.
  intros Hm w Hst HI. unfold attempt. specialize (Hm w Hst HI).
  destruct (m w) as [r w']. naive_solver.
Qed.

Lemma keeps_statement {A} verdict (m : tx S A) : tx_keeps m → keeps (statement verdict m).
Proof.
  intros Hm w Hst HI. unfold statement. destruct (verdict (w_step w)).
  - simpl. auto.
  - by apply keeps_atomic.
Qed.

Lemma keeps_for_each {A} (xs : list A) (body : A → io S ()) :
  (∀ x, keeps (body x)) → keeps (for_each xs body).
Proof.
  intros Hb. induction xs as [|x xs IH]; simpl; [apply keeps_ret|].
  by apply keeps_bind.
Qed.

(** Reads change nothing. *)
Lemma tx_keeps_gets {A} (f : S → A) : tx_keeps (gets f).
Proof. intros s a s' HI. unfold gets. by intros [= <- <-]. Qed.
Lemma tx_keeps_refuse {A} e : tx_keeps (refuse (A := A) e).
Proof. intros s a s' HI. done. Qed.
Lemma tx_keeps_decide {A} (r : result AppError A) : tx_keeps (decide_tx r).
Proof. intros s a s' HI. unfold decide_tx. destruct r; by intros [= <- <-]. Qed.
Lemma tx_keeps_ret {A} (a : A) : tx_keeps (mret a).
Proof. intros s x s' HI. by intros [= <- <-]. Qed.
Lemma tx_keeps_bind {A B} (m : tx S A) (f : A → tx S B) :
  tx_keeps m → (∀ a, tx_keeps (f a)) → tx_keeps (m ≫= f).
Proof.
  intros Hm Hf s b s' HI. unfold mbind, tx_bind.
  destruct (m s) as [[a s1]|e] eqn:E; [|done].
  intros Hb. eapply Hf; [|exact Hb]. by eapply Hm.
Qed.
End Triples.

Create HintDb effects.
#[export] Hint Resolve keeps_ret keeps_lift keeps_raise keeps_now keeps_fresh
  keeps_atomic keeps_bind keeps_rounds keeps_attempt keeps_statement keeps_for_each
  tx_keeps_gets tx_keeps_refuse
  tx_keeps_decide tx_keeps_ret tx_keeps_bind : effects.

(** Walks a handler down to its transactions, and to the calls of other
    handlers; it does not look inside a definition. *)
Ltac keeps_walk :=
  repeat lazymatch goal with
  | |- ∀ _, _ => intro
  | |- keeps _ (mbind _ _) => apply keeps_bind
  | |- keeps _ (mret _) => apply keeps_ret
  | |- keeps _ (lift _) => apply keeps_lift
  | |- keeps _ (raise _) => apply keeps_raise
  | |- keeps _ now => apply keeps_now
  | |- keeps _ fresh => apply keeps_fresh
  | |- keeps _ (rounds _ _ _) => apply keeps_rounds
  | |- keeps _ (for_each _ _) => apply keeps_for_each
  | |- keeps _ (attempt _) => apply keeps_attempt
  | |- keeps _ (statement _ _) => apply keeps_statement
  | |- keeps _ (atomic _) => apply keeps_atomic
  | |- keeps _ (match _ with _ => _ end) => case_match
  | |- tx_keeps _ (mbind _ _) => apply tx_keeps_bind
  | |- tx_keeps _ (mret _) => apply tx_keeps_ret
  | |- tx_keeps _ (gets _) => apply tx_keeps_gets
  | |- tx_keeps _ (refuse _) => apply tx_keeps_refuse
  | |- tx_keeps _ (decide_tx _) => apply tx_keeps_decide
  | |- tx_keeps _ (match _ with _ => _ end) => case_match
  end.

(** ** [tx_with_retry] ([src/database.rs]) *)

Definition CAP_WRITE_TRIES : nat := 8.

Definition is_retryable_tx (e : DriverError) : bool :=
  match e with
  | Database (Some code) _ =>
      bool_decide (code = "40001"%string) || bool_decide (code = "40P01"%string)
  | _ => false
  end.

Definition foreign_key_violation (e : DriverError) : bool :=
  match e with
  | Database (Some code) _ => bool_decide (code = "23503"%string)
  | _ => false
  end.

Definition is_retryable_cascade (e : DriverError) : bool :=
  is_retryable_tx e || foreign_key_violation e.

Definition is_retryable (e : DriverError) (cascade : bool) : bool :=
  if cascade then is_retryable_cascade e else is_retryable_tx e.

Section Retry.
Context {S A : Type}.
(** What the server answers in round [n]: to [BEGIN], to the closure's
    statements (inside [f n]) and to [COMMIT]. A refused [COMMIT] applied
    nothing. *)
Context (begin_verdict commit_verdict : nat → option DriverError).
Context (f : nat → tx S A).

Fixpoint tx_rounds (cascade : bool) (left attempt : nat) (last : option DriverError)
    : io S A :=
  match left with
  | O => raise match last with
               | Some e => Db e
               | None => Internal (lit "a guarded transaction never ran")
               end
  | Datatypes.S left' => λ w,
      let s := w_env w (w_step w) (w_db w) in
      match begin_verdict attempt with
      | Some e => (Err (from_driver e), tick s w)
      | None =>
          match f attempt s with
          | Ok (a, s') =>
              match commit_verdict attempt with
              | None => (Ok a, tick s' w)
              | Some e =>
                  if is_retryable e cascade
                  then tx_rounds cascade left' (Datatypes.S attempt) (Some e) (tick s w)
                  else (Err (from_driver e), tick s w)
              end
          | Err (Db e) =>
              if is_retryable e cascade
              then tx_rounds cascade left' (Datatypes.S attempt) (Some e) (tick s w)
              else (Err (Db e), tick s w)
          | Err e => (Err e, tick s w)
          end
      end
  end.

Definition tx_with_retry (cascade : bool) : io S A :=
  tx_rounds cascade CAP_WRITE_TRIES 0 None.

(** What the [k]-th round reads: the committed state, as the others left it after
    [k] rounds of this transaction of which nothing remains. *)
Fixpoint seen (w : World S) (k : nat) : S :=
  match k with
  | O => w_env w (w_step w) (w_db w)
  | Datatypes.S k' => w_env w (w_step w + k) (seen w k')
  end.

(** A round the server asks to run again: its closure's statement, or its
    [COMMIT], met a conflict. *)
Definition contended (cascade : bool) (k : nat) (s : S) (d : DriverError) : Prop :=
  begin_verdict k = None ∧ is_retryable d cascade = true
  ∧ (f k s = Err (Db d) ∨ is_ok (f k s) = true ∧ commit_verdict k = Some d).

(** A round that settles the transaction: on a commit with what its closure
    answered and wrote, otherwise with the refusal and the state it had read. *)
Definition settled (cascade : bool) (k : nat) (s : S) (r : result AppError A) (s' : S) : Prop :=
  match begin_verdict k with
  | Some d => r = Err (from_driver d) ∧ s' = s
  | None =>
      match f k s with
      | Ok (a, t) =>
          match commit_verdict k with
          | None => r = Ok a ∧ s' = t
          | Some d => is_retryable d cascade = false ∧ r = Err (from_driver d) ∧ s' = s
          end
      | Err e => (∀ d, e = Db d → is_retryable d cascade = false) ∧ r = Err e ∧ s' = s
      end
  end.

(** After [k] contended rounds, the next settles it or spends the budget. *)
Definition settles_after (cascade : bool) (left attempt : nat) (w : World S) (r : result AppError A) (w' : World S) : Prop :=
  ∃ k, k < left ∧ w_step w' = w_step w + Datatypes.S k
    ∧ (∀ j, j < k → ∃ d, contended cascade (attempt + j) (seen w j) d)
    ∧ (settled cascade (attempt + k) (seen w k) r (w_db w')
       ∨ Datatypes.S k = left ∧ ∃ d, contended cascade (attempt + k) (seen w k) d ∧ r = Err (Db d) ∧ w_db w' = seen w k).

Lemma seen_tick w j : seen (tick (seen w 0) w) j = seen w (Datatypes.S j).
Proof.
  induction j as [|j IH].
  - change (w_env w (Datatypes.S (w_step w)) (seen w 0) = w_env w (w_step w + 1) (seen w 0)). by rewrite Nat.add_1_r.
  - change (w_env w (Datatypes.S (w_step w) + Datatypes.S j) (seen (tick (seen w 0) w) j)
      = w_env w (w_step w + Datatypes.S (Datatypes.S j)) (seen w (Datatypes.S j))). rewrite IH. f_equal. lia.
Qed.

Lemma settles_now cascade left attempt w r s' :
  settled cascade attempt (seen w 0) r s' → settles_after cascade (Datatypes.S left) attempt w r (tick s' w).
Proof.
  intros Hs. exists 0. rewrite Nat.add_0_r. split_and!; [lia|simpl; lia|intros j Hj; lia|by left].
Qed.

Lemma settles_later cascade left attempt w d :
  contended cascade attempt (seen w 0) d →
  (left ≠ 0 → let '(r, w') := tx_rounds cascade left (Datatypes.S attempt) (Some d) (tick (seen w 0) w) in
     settles_after cascade left (Datatypes.S attempt) (tick (seen w 0) w) r w') →
  let '(r, w') := tx_rounds cascade left (Datatypes.S attempt) (Some d) (tick (seen w 0) w) in
  settles_after cascade (Datatypes.S left) attempt w r w'.
Proof.
  intros Hc IH. destruct left as [|left].
  - exists 0. rewrite Nat.add_0_r. split_and!; [lia|simpl; lia|intros j Hj; lia|]. right. split; [done|]. by exists d.
  - specialize (IH ltac:(done)). destruct (tx_rounds _ _ _ _ _) as [r w'].
    destruct IH as (k & Hk & Hstep & Hbefore & Hlast). exists (Datatypes.S k).
    assert (attempt + Datatypes.S k = Datatypes.S attempt + k) as -> by lia. rewrite <- seen_tick.
    split_and!; [lia|simpl in Hstep; lia| |].
    + intros [|j] Hj; [exists d; by rewrite Nat.add_0_r|].
      assert (attempt + Datatypes.S j = Datatypes.S attempt + j) as -> by lia. rewrite <- seen_tick. apply Hbefore. lia.
    + destruct Hlast as [Hs|[Hb He]]; [by left|]. right. split; [lia|done].
Qed.

Lemma tx_rounds_settle cascade left attempt last w :
  left ≠ 0 → let '(r, w') := tx_rounds cascade left attempt last w in settles_after cascade left attempt w r w'.
Proof.
  revert attempt last w. induction left as [|left IH]; intros attempt last w Hl; [done|]. cbn [tx_rounds].
  change (w_env w (w_step w) (w_db w)) with (seen w 0).
  destruct (begin_verdict attempt) as [d|] eqn:Hb; [apply settles_now; unfold settled; by rewrite Hb|].
  destruct (f attempt (seen w 0)) as [[a s']|e] eqn:Hf.
  - destruct (commit_verdict attempt) as [d|] eqn:Hc; [destruct (is_retryable d cascade) eqn:Hr|].
    + apply settles_later; [|by apply IH]. split_and!; [done..|]. right. by rewrite Hf.
    + apply settles_now. unfold settled. by rewrite Hb, Hf, Hc.
    + apply settles_now. unfold settled. by rewrite Hb, Hf, Hc.
  - assert (∀ r, (∀ d, e = Db d → is_retryable d cascade = false) → r = Err e →
      settles_after cascade (Datatypes.S left) attempt w r (tick (seen w 0) w)) as Hend.
    { intros r Hd ->. apply settles_now. unfold settled. by rewrite Hb, Hf. }
    destruct e as [| | | | | | | | | | |d| | |]; try (apply Hend; done).
    destruct (is_retryable d cascade) eqn:Hr; [|apply Hend; [by intros ? [= <-]|done]].
    apply settles_later; [|by apply IH]. split_and!; [done..|]. by left.
Qed.

(** A refusal is a decision: anything but a driver error ends the loop in its
    first round, unchanged. *)
Lemma tx_with_retry_refusal cascade w e :
  (∀ d, e ≠ Db d) →
  begin_verdict 0 = None →
  f 0 (w_env w (w_step w) (w_db w)) = Err e →
  tx_with_retry cascade w = (Err e, tick (w_env w (w_step w) (w_db w)) w).
Proof.
  intros He Hb Hf. unfold tx_with_retry. change CAP_WRITE_TRIES with (Datatypes.S 7).
  generalize 7 as left. intros left. cbn [tx_rounds]. rewrite Hb, Hf.
  destruct e; try done. by destruct (He e).
Qed.

(** With a server that always serializes the race against this transaction,
    the budget is spent and the last contention is the answer. *)
Lemma tx_rounds_exhaust cascade d :
  is_retryable d cascade = true →
  (∀ n, begin_verdict n = None) →
  (∀ n, commit_verdict n = Some d) →
  (∀ n s, is_ok (f n s) = true) →
  ∀ left attempt last w,
  left ≠ 0 →
  (tx_rounds cascade left attempt last w).1 = Err (Db d)
  ∧ w_step (tx_rounds cascade left attempt last w).2 = w_step w + left.
Proof.
  intros Hd Hb Hc Hf. induction left as [|left IH]; intros attempt last w Hl; [done|].
  simpl. rewrite Hb. specialize (Hf attempt (w_env w (w_step w) (w_db w))).
  destruct (f attempt _) as [[a s']|e]; [|done]. rewrite Hc, Hd.
  destruct left as [|left]; [simpl; split; [done|lia]|].
  destruct (IH (Datatypes.S attempt) (Some d)
    (tick (w_env w (w_step w) (w_db w)) w) ltac:(done)) as [-> ->].
  simpl. split; [done|lia].
Qed.

Lemma tx_rounds_bounded cascade left attempt last w :
  w_step (tx_rounds cascade left attempt last w).2 ≤ w_step w + left.
Proof.
  revert attempt last w. induction left as [|left IH]; intros attempt last w; simpl; [lia|].
  destruct (begin_verdict attempt); [simpl; lia|].
  destruct (f attempt _) as [[a s']|e].
  - destruct (commit_verdict attempt) as [d|]; [|simpl; lia].
    destruct (is_retryable d cascade); [|simpl; lia].
    etransitivity; [apply IH|]. simpl. lia.
  - destruct e; try (simpl; lia). destruct (is_retryable e cascade); [|simpl; lia].
    etransitivity; [apply IH|]. simpl. lia.
Qed.

(** C39. The retry loop around a transaction ends within eight rounds and is
    invisible. Every round but the last met a conflict the loop retries, and
    nothing of it remains: each round runs on the state the others alone made of
    the one before. The last round, on such a state, is what is answered: its
    closure's answer with exactly its writes when it commits; its refusal, or the
    server's word on [BEGIN] or [COMMIT], with the state it had read; or, when it
    is the eighth and met a conflict too, that conflict, with nothing written. *)
Theorem tx_with_retry_one_round cascade w :
  let '(r, w') := tx_with_retry cascade w in
  ∃ k, k < CAP_WRITE_TRIES ∧ w_step w' = w_step w + Datatypes.S k
    ∧ (∀ j, j < k → ∃ d, contended cascade j (seen w j) d)
    ∧ (settled cascade k (seen w k) r (w_db w')
       ∨ Datatypes.S k = CAP_WRITE_TRIES
         ∧ ∃ d, contended cascade k (seen w k) d ∧ r = Err (Db d) ∧ w_db w' = seen w k).
Proof. exact (tx_rounds_settle cascade CAP_WRITE_TRIES 0 None w ltac:(discriminate)). Qed.

(** Under any interference that keeps [I], so does the loop. *)
Lemma tx_with_retry_keeps (I : S → Prop) cascade :
  (∀ n, tx_keeps I (f n)) → keeps I (tx_with_retry cascade).
Proof.
  intros Hf. unfold tx_with_retry, keeps. generalize CAP_WRITE_TRIES as left.
  generalize 0 as attempt. generalize (@None DriverError) as last.
  intros last attempt left. revert last attempt.
  induction left as [|left IH]; intros last attempt w Hst HI; simpl; [done|].
  set (s := w_env w (w_step w) (w_db w)).
  assert (I s) as Hs by (by apply Hst).
  assert (stable I (tick s w)) as Hst' by done.
  destruct (begin_verdict attempt) as [d|]; [done|].
  destruct (f attempt s) as [[a s']|e] eqn:E.
  - destruct (commit_verdict attempt) as [d|].
    + destruct (is_retryable d cascade); [|done].
      by apply (IH (Some d) (Datatypes.S attempt) (tick s w)).
    + simpl. split; [|done]. by eapply Hf.
  - destruct e; try done. destruct (is_retryable e cascade); [|done].
    by apply (IH (Some e) (Datatypes.S attempt) (tick s w)).
Qed.
End Retry.

(** ** Outlines: what a handler knows between its round trips

    [triple] keeps one predicate; here what the others do is a relation [R]
    between states on top of an invariant [I] (an append-only table only grows,
    a revision only moves up), and each point of a handler carries an assertion
    that interference of that kind cannot break. [T] is what the handler and
    the others together may do; with [T] taken as [R] an outline is a guarantee
    that the handler's own statements move as everybody else's do. *)

Section Outlines.
Context {S : Type} (I : S → Prop) (R T : S → S → Prop) `{!PreOrder T, rely_total : !subrelation R T}.
Set Default Proof Using "All".

Definition relies (w : World S) : Prop := ∀ n s, I s → I (w_env w n s) ∧ R s (w_env w n s).

(** An assertion that interference keeps. *)
Definition steady (P : S → Prop) : Prop := ∀ s s', I s → I s' → R s s' → P s → P s'.

Definition outline {A} (P : S → Prop) (m : io S A) (Q : result AppError A → S → Prop) : Prop :=
  ∀ w, relies w → I (w_db w) → P (w_db w) →
    let '(r, w') := m w in
    I (w_db w') ∧ T (w_db w) (w_db w') ∧ w_env w' = w_env w ∧ Q r (w_db w').

(** A transaction body that keeps [I] and moves as [T] allows. *)
Definition tx_moves {A} (m : tx S A) : Prop :=
  ∀ s a s', I s → m s = Ok (a, s') → I s' ∧ T s s'.

Definition anything {A} (_ : result AppError A) (_ : S) : Prop := True.

Lemma outline_weaken {A} (P P' : S → Prop) (m : io S A) Q Q' :
  (∀ s, I s → P' s → P s) → (∀ r s, Q r s → Q' r s) → outline P m Q → outline P' m Q'.
Proof.
  intros HP HQ Hm w Hw HI HPw. specialize (Hm w Hw HI (HP _ HI HPw)). destruct (m w). naive_solver.
Qed.

(** What is known of the values read so far. *)
Lemma outline_pure {A} (P : S → Prop) (φ : Prop) (m : io S A) Q :
  (φ → outline P m Q) → outline (λ s, P s ∧ φ) m Q.
Proof. intros Hm w Hw HI [HP Hφ]. by apply Hm. Qed.

Lemma outline_done {A} (P : S → Prop) (r : result AppError A) Q :
  (∀ s, I s → P s → Q r s) → outline P (λ w, (r, w)) Q.
Proof. intros HQ w Hw HI HP. split_and!; [done|done|done|by apply HQ]. Qed.

Lemma outline_ret {A} (P : S → Prop) (a : A) Q :
  (∀ s, I s → P s → Q (Ok a) s) → outline P (mret a) Q.
Proof. apply outline_done. Qed.

Lemma outline_raise {A} (P : S → Prop) e (Q : result AppError A → S → Prop) :
  (∀ s, I s → P s → Q (Err e) s) → outline P (raise e) Q.
Proof. apply outline_done. Qed.

Lemma outline_bind {A B} (P : S → Prop) (m : io S A) (k : A → io S B) M Q :
  outline P m M → (∀ a, outline (M (Ok a)) (k a) Q) → (∀ e s, M (Err e) s → Q (Err e) s) →
  outline P (m ≫= k) Q.
Proof.
  intros Hm Hk He w Hw HI HP. specialize (Hm w Hw HI HP).
  unfold mbind, io_bind. destruct (m w) as [[a|e] w']; destruct Hm as (HI' & HT & Henv & HM).
  - assert (relies w') as Hw' by (unfold relies; by rewrite Henv).
    specialize (Hk a w' Hw' HI' HM). destruct (k a w') as [r w''].
    destruct Hk as (? & ? & Henv' & ?). split_and!; [done|by etrans|congruence|done].
  - split_and!; auto.
Qed.

Lemma outline_lift {A B} (P : S → Prop) (r : result AppError A) (k : A → io S B) Q :
  (∀ a, r = Ok a → outline P (k a) Q) → (∀ e s, I s → P s → r = Err e → Q (Err e) s) →
  outline P (lift r ≫= k) Q.
Proof.
  intros Hk He. destruct r as [a|e]; [exact (Hk a eq_refl)|].
  intros w Hw HI HP. split_and!; [done|done|done|by apply He].
Qed.

Lemma outline_now {B} (P : S → Prop) (k : Z → io S B) Q :
  (∀ t, outline P (k t) Q) → outline P (now ≫= k) Q.
Proof. intros Hk w Hw HI HP. exact (Hk _ (tick (w_db w) w) Hw HI HP). Qed.

Lemma outline_fresh {B} (P : S → Prop) (k : N → io S B) Q :
  (∀ u, outline P (k u) Q) → outline P (fresh ≫= k) Q.
Proof. intros Hk w Hw HI HP. exact (Hk _ (tick (w_db w) w) Hw HI HP). Qed.

(** A statement in tail position, whose move may depend on what held before. *)
Lemma outline_commit {A} (P : S → Prop) (m : tx S A) Q :
  steady P →
  (∀ s a s', I s → P s → m s = Ok (a, s') → I s' ∧ T s s' ∧ Q (Ok a) s') →
  (∀ s e, I s → P s → m s = Err e → Q (Err e) s) →
  outline P (atomic m) Q.
Proof.
  intros HP Hm He w Hw HI HPw. unfold atomic.
  destruct (Hw (w_step w) _ HI) as [HI' HR]. pose proof (HP _ _ HI HI' HR HPw) as HP'.
  destruct (m (w_env w (w_step w) (w_db w))) as [[a s']|e] eqn:E; simpl.
  - destruct (Hm _ _ _ HI' HP' E) as (HI'' & HT' & HQ). apply rely_total in HR.
    split_and!; [done|by etrans|done|exact HQ].
  - split_and!; [done|by apply rely_total|done|exact (He _ _ HI' HP' E)].
Qed.

Lemma outline_atomic {A} (P : S → Prop) (m : tx S A) Q :
  steady P → tx_moves m →
  (∀ s a s', I s → P s → m s = Ok (a, s') → Q (Ok a) s') →
  (∀ s e, I s → P s → m s = Err e → Q (Err e) s) →
  outline P (atomic m) Q.
Proof.
  intros HP Hm HQ He. apply outline_commit; [done| |done]. intros s a s' HI HPs E.
  destruct (Hm s a s' HI E) as [HI' HT]. split; [done|]. split; [done|]. exact (HQ _ _ _ HI HPs E).
Qed.

(** A statement and what follows it. *)
Lemma outline_step {A B} (P : S → Prop) (m : tx S A) (M : A → S → Prop) (k : A → io S B) Q :
  steady P → tx_moves m →
  (∀ s a s', I s → P s → m s = Ok (a, s') → M a s') →
  (∀ e s, I s → P s → Q (Err e) s) →
  (∀ a, outline (M a) (k a) Q) → outline P (atomic m ≫= k) Q.
Proof.
  intros HP Hm HM He Hk. apply (outline_bind P _ _ (λ r s, match r with Ok a => M a s | Err e => Q (Err e) s end)).
  - apply outline_atomic; [done|done|exact HM|auto].
  - exact Hk.
  - done.
Qed.

Lemma outline_rounds {A} (P : S → Prop) n (body : io S (option A)) (last : io S A) Q :
  outline P body (λ r s, match r with
    | Ok (Some a) => Q (Ok a) s | Ok None => P s | Err e => Q (Err e) s end) →
  outline P last Q → outline P (rounds n body last) Q.
Proof.
  intros Hb Hl. induction n as [|n IH]; simpl; [done|].
  eapply outline_bind; [exact Hb| |done].
  intros [a|]; [by apply outline_ret|done].
Qed.

Lemma steady_true : steady (λ _, True).
Proof. done. Qed.
Lemma steady_and (P Q : S → Prop) : steady P → steady Q → steady (λ s, P s ∧ Q s).
Proof. intros HP HQ s s' HI HI' HR [Hp Hq]. split; [exact (HP _ _ HI HI' HR Hp)|exact (HQ _ _ HI HI' HR Hq)]. Qed.
Lemma steady_const (P : Prop) : steady (λ _, P).
Proof. by intros s s' _ _ _ HP. Qed.

Lemma tx_moves_gets {A} (f : S → A) : tx_moves (gets f).
Proof. intros s a s' HI [= _ <-]. by split. Qed.

Lemma tx_moves_bind {A B} (m : tx S A) (f : A → tx S B) :
  tx_moves m → (∀ a, tx_moves (f a)) → tx_moves (m ≫= f).
Proof.
  intros Hm Hf s b s' HI (a & s1 & H1 & H2)%tx_bind_ok.
  destruct (Hm _ _ _ HI H1) as [HI1 HT1]. destruct (Hf a _ _ _ HI1 H2) as [HI2 HT2].
  split; [done|by etrans].
Qed.
End Outlines.

(** ** What a run nobody disturbs answers *)

Section Alone.
Context {S : Type}.

(** [m] ends with an answer and a state within [Q]. *)
Definition leads {A} (m : io S A) (w : World S) (Q : result AppError A → S → Prop) : Prop :=
  let '(r, w') := m w in w_env w' = w_env w ∧ Q r (w_db w').

Lemma leads_done {A} (r : result AppError A) w (Q : result AppError A → S → Prop) :
  Q r (w_db w) → leads (λ w, (r, w)) w Q.
Proof. by split. Qed.

Lemma leads_weaken {A} (m : io S A) w (Q Q' : result AppError A → S → Prop) :
  leads m w Q → (∀ r t, Q r t → Q' r t) → leads m w Q'.
Proof. unfold leads. destruct (m w). naive_solver. Qed.

Lemma leads_bind {A B} (m : io S A) (k : A → io S B) w M Q :
  undisturbed w → leads m w M → (∀ e t, M (Err e) t → Q (Err e) t) →
  (∀ a w1, undisturbed w1 → M (Ok a) (w_db w1) → leads (k a) w1 Q) → leads (m ≫= k) w Q.
Proof.
  unfold leads, mbind, io_bind. intros Hw Hm He Hk. destruct (m w) as [[a|e] w1]; [|naive_solver].
  destruct Hm as [Henv Hm]. specialize (Hk a w1 ltac:(unfold undisturbed; by rewrite Henv) Hm).
  destruct (k a w1). by rewrite <- Henv.
Qed.

Lemma leads_lift {A B} (r : result AppError A) (k : A → io S B) w Q :
  match r with Ok a => leads (k a) w Q | Err e => Q (Err e) (w_db w) end → leads (lift r ≫= k) w Q.
Proof. destruct r; [done|]. by split. Qed.

Lemma leads_atomic {A} (m : tx S A) w Q :
  undisturbed w →
  match m (w_db w) with Ok (a, t) => Q (Ok a) t | Err e => Q (Err e) (w_db w) end → leads (atomic m) w Q.
Proof. intros Hw. unfold leads. rewrite atomic_alone by done. by destruct (m (w_db w)) as [[a t]|e]. Qed.

(** A read passes its answer on, and so do the clock and the id generator. *)
Lemma leads_read {A B} (f : S → A) (k : A → io S B) w Q :
  undisturbed w →
  (∀ w1, undisturbed w1 → w_db w1 = w_db w → leads (k (f (w_db w))) w1 Q) →
  leads (atomic (gets f) ≫= k) w Q.
Proof.
  intros Hw Hk. unfold leads. rewrite atomic_bind_alone by done. simpl.
  exact (Hk (tick (w_db w) w) Hw eq_refl).
Qed.

Lemma leads_fresh {B} (k : N → io S B) w Q :
  undisturbed w → (∀ u w1, undisturbed w1 → w_db w1 = w_db w → leads (k u) w1 Q) → leads (fresh ≫= k) w Q.
Proof. intros Hw Hk. exact (Hk _ (tick (w_db w) w) Hw eq_refl). Qed.

Lemma leads_now {B} (k : Z → io S B) w Q :
  undisturbed w → (∀ u w1, undisturbed w1 → w_db w1 = w_db w → leads (k u) w1 Q) → leads (now ≫= k) w Q.
Proof. intros Hw Hk. exact (Hk _ (tick (w_db w) w) Hw eq_refl). Qed.
End Alone.
