(* ===== verification/Uuid.v ===== *)
(** * Uuids and the keys spelled from them

    Every entity id of the server is a uuid ([src/domain/*.rs], the [*Id]
    newtypes); composite keys are spelled as text with ['_'] between uuid
    texts. The [uuid] crate is outside the source: what the code relies on
    (the hyphenated lower-case text has 36 characters out of [0-9a-f-], and
    parsing gives the uuid back) is the interface [UuidText], and
    [hyphenated] is an implementation of it. *)

From S2P Require Import Prelude Text.

(** A uuid is its 128-bit value. *)
Abbreviation uuid := N.
Definition uuid_ok (u : uuid) : Prop := (u < 2 ^ 128)%N.
Definition uuid_nil : uuid := 0%N.

Definition is_uuid_char (c : char) : bool :=
  is_ascii_digit c || between 97 102 c || (c =? 45)%N.

(** [is_hyphenated_uuid] ([src/tenant.rs]): [8-4-4-4-12] hex with dashes. *)
Definition is_hyphenated_uuid (value : str) : bool :=
  bool_decide (length value = 36)
  && forallb (λ '(i, c),
       if bool_decide (i ∈ [8; 13; 18; 23]) then (c =? 45)%N else is_ascii_hexdigit c)
     (zip (seq 0 (length value)) value).

Class UuidText := {
  uuid_text : uuid → str;
  uuid_parse : str → option uuid;
  uuid_text_length u : length (uuid_text u) = 36;
  uuid_text_chars u : forallb is_uuid_char (uuid_text u) = true;
  uuid_text_hyphenated u : is_hyphenated_uuid (uuid_text u) = true;
  uuid_parse_text u : uuid_ok u → uuid_parse (uuid_text u) = Some u;
}.

Section Keys.
Context `{UuidText}.

(** [FeePlanId::from_key] and its twins:
    [Self(Uuid::parse_str(key).unwrap_or(Uuid::nil()))]. *)
Definition uuid_from_key (key : str) : uuid := default uuid_nil (uuid_parse key).

(** [format!("{}_{}", a.key(), b.key())]. *)
Definition pair_key (a b : str) : str := a ++ lit "_" ++ b.

Lemma uuid_from_key_text u : uuid_ok u → uuid_from_key (uuid_text u) = u.
Proof. intros Hu. unfold uuid_from_key. by rewrite uuid_parse_text. Qed.

Lemma uuid_text_inj u v : uuid_ok u → uuid_ok v → uuid_text u = uuid_text v → u = v.
Proof.
  intros Hu Hv E. apply uuid_parse_text in Hu, Hv. rewrite E in Hu. congruence.
Qed.

Lemma uuid_text_no_underscore u : (95%N : char) ∉ uuid_text u.
Proof.
  intros Hin. pose proof (uuid_text_chars u) as Hc.
  rewrite forallb_forall in Hc. rewrite list_elem_of_In in Hin.
  by specialize (Hc _ Hin).
Qed.
End Keys.

(** ** An implementation: the hyphenated lower-case form *)

Fixpoint nibbles (k : nat) (u : N) : list N :=
  match k with
  | O => []
  | S k' => (u mod 16)%N :: nibbles k' (u / 16)
  end.

Definition from_nibbles (l : list N) : N := foldr (λ d acc, d + 16 * acc)%N 0%N l.

Definition hex_digit (d : N) : char := (if d <? 10 then 48 + d else 87 + d)%N.
Definition unhex (c : char) : option N :=
  if is_ascii_digit c then Some (c - 48)%N
  else if between 97 102 c then Some (c - 87)%N else None.

Definition hyphenate (l : str) : str :=
  take 8 l ++ 45%N :: take 4 (drop 8 l) ++ 45%N :: take 4 (drop 12 l)
    ++ 45%N :: take 4 (drop 16 l) ++ 45%N :: drop 20 l.

Definition hyphenated_text (u : uuid) : str :=
  hyphenate (reverse (hex_digit <$> nibbles 32 u)).

Definition hyphenated_parse (s : str) : option uuid :=
  let digits := filter (λ c, c ≠ 45%N) s in
  if decide (length s = 36 ∧ length digits = 32)
  then from_nibbles <$> (reverse <$> mapM unhex digits) else None.

Lemma nibbles_length k u : length (nibbles k u) = k.
Proof. revert u. induction k; simpl; auto. Qed.

Lemma nibbles_lt k u : Forall (λ d, d < 16)%N (nibbles k u).
Proof.
  revert u. induction k as [|k IH]; intros u; simpl; constructor; [|done].
  by apply N.mod_lt.
Qed.

Lemma from_nibbles_nibbles k u : from_nibbles (nibbles k u) = (u mod 16 ^ N.of_nat k)%N.
Proof.
  revert u. induction k as [|k IH]; intros u; [simpl; by rewrite N.mod_1_r|].
  cbn [nibbles]. unfold from_nibbles in *. cbn [foldr]. rewrite IH.
  replace (N.of_nat (S k)) with (N.succ (N.of_nat k)) by lia.
  rewrite N.pow_succ_r', N.Div0.mod_mul_r. done.
Qed.

Lemma nibble_cases (P : N → Prop) d :
  (d < 16)%N → Forall P [0;1;2;3;4;5;6;7;8;9;10;11;12;13;14;15]%N → P d.
Proof.
  intros Hd HP. revert d Hd. rewrite Forall_forall in HP. intros d Hd. apply HP.
  rewrite !elem_of_cons. lia.
Qed.

Lemma unhex_hex d : (d < 16)%N → unhex (hex_digit d) = Some d.
Proof. intros Hd. apply (nibble_cases (λ d, unhex (hex_digit d) = Some d) d Hd). by repeat constructor. Qed.

Lemma hex_digit_ne d : (d < 16)%N → hex_digit d ≠ 45%N ∧ is_uuid_char (hex_digit d) = true.
Proof.
  intros Hd. apply (nibble_cases (λ d, hex_digit d ≠ 45%N ∧ is_uuid_char (hex_digit d) = true) d Hd).
  by repeat constructor.
Qed.

Lemma hyphenate_length l : length l = 32 → length (hyphenate l) = 36.
Proof. intros H. unfold hyphenate. repeat (rewrite length_app || cbn [length]).
  rewrite !length_take, !length_drop, H. done. Qed.

Lemma hyphenate_filter l :
  length l = 32 → Forall (λ c, c ≠ 45%N) l → filter (λ c, c ≠ 45%N) (hyphenate l) = l.
Proof.
  intros Hlen Hl.
  do 32 (destruct l as [|? l]; [done|]). destruct l; [|done].
  repeat match goal with H : Forall _ (_ :: _) |- _ => apply Forall_cons in H as [? ?] end.
  unfold hyphenate. cbn [take drop app].
  repeat first [rewrite filter_cons_True by done | rewrite filter_cons_False by naive_solver].
  done.
Qed.

Lemma hex_digit_hex d : (d < 16)%N → is_ascii_hexdigit (hex_digit d) = true.
Proof.
  intros Hd. apply (nibble_cases (λ d, is_ascii_hexdigit (hex_digit d) = true) d Hd).
  by repeat constructor.
Qed.

Lemma hyphenate_shape l :
  length l = 32 → Forall (λ c, is_ascii_hexdigit c = true) l →
  is_hyphenated_uuid (hyphenate l) = true.
Proof.
  intros Hlen Hl. do 32 (destruct l as [|? l]; [done|]). destruct l; [|done].
  repeat match goal with H : Forall _ (_ :: _) |- _ => apply Forall_cons in H as [? ?] end.
  unfold hyphenate, is_hyphenated_uuid. cbn [take drop app length seq zip zip_with forallb].
  repeat match goal with H : is_ascii_hexdigit _ = true |- _ => rewrite H; clear H end.
  by vm_compute.
Qed.

Lemma mapM_unhex l : Forall (λ d, d < 16)%N l → mapM unhex (hex_digit <$> l) = Some l.
Proof.
  intros H. apply mapM_Some. apply Forall2_fmap_l. induction H; constructor; auto using unhex_hex.
Qed.

Lemma hyphenated_digits u : Forall (λ d, d < 16)%N (reverse (nibbles 32 u)).
Proof. rewrite reverse_Permutation. apply nibbles_lt. Qed.

#[export] Program Instance hyphenated : UuidText := {|
  uuid_text := hyphenated_text;
  uuid_parse := hyphenated_parse;
|}.
Next Obligation.
  intros u. apply hyphenate_length. by rewrite length_reverse, length_fmap, nibbles_length.
Qed.
Next Obligation.
  intros u. unfold hyphenated_text. rewrite <-fmap_reverse.
  pose proof (hyphenated_digits u) as H.
  assert (Forall (λ c, is_uuid_char c = true) (hex_digit <$> reverse (nibbles 32 u))) as Hc.
  { rewrite Forall_fmap. eapply Forall_impl; [exact H|]. intros d Hd. by apply hex_digit_ne. }
  rewrite forallb_forall. intros c Hin. rewrite <-list_elem_of_In in Hin. revert c Hin.
  apply Forall_forall. unfold hyphenate.
  repeat rewrite ?Forall_app, ?Forall_cons.
  repeat split; auto using Forall_take, Forall_drop.
Qed.
Next Obligation.
  intros u. unfold hyphenated_text. rewrite <-fmap_reverse.
  apply hyphenate_shape; [by rewrite length_fmap, length_reverse, nibbles_length|].
  rewrite Forall_fmap. eapply Forall_impl; [apply hyphenated_digits|].
  intros d Hd. by apply hex_digit_hex.
Qed.
Next Obligation.
  intros u Hu. unfold hyphenated_parse, hyphenated_text. rewrite <-fmap_reverse.
  pose proof (hyphenated_digits u) as H.
  assert (length (hex_digit <$> reverse (nibbles 32 u)) = 32) as Hl
    by (by rewrite length_fmap, length_reverse, nibbles_length).
  rewrite hyphenate_filter; [|done|].
  2:{ rewrite Forall_fmap. eapply Forall_impl; [exact H|]. intros d Hd. by apply hex_digit_ne. }
  rewrite decide_True by (by split; [apply hyphenate_length|]).
  rewrite mapM_unhex by done. cbn [fmap option_fmap option_map].
  rewrite reverse_involutive, from_nibbles_nibbles. f_equal. by apply N.mod_small.
Qed.
