(* ===== verification/Validate.v ===== *)
(** * Validation of raw input ([src/validate.rs])

    The field checks every newtype's [try_new] runs, branch for branch. *)

From S2P Require Import Prelude Text Errors.
Open Scope Z_scope.

Definition MIN_USERNAME_LEN : Z := 3.
Definition MAX_USERNAME_LEN : Z := 32.
Definition USERNAME_SEPARATORS : list char := [46; 95; 45]%N.
Definition MIN_PASSWORD_LEN : Z := 6.
Definition MAX_PASSWORD_LEN : Z := 128.
Definition MAX_EMAIL_LEN : Z := 254.
Definition MIN_PHONE_DIGITS : Z := 7.
Definition MAX_PHONE_DIGITS : Z := 15.
Definition MAX_PAYMENT_REQUEST_KEY_LEN : Z := 64.
Definition COURSE_KINDS : list string := ["course"; "study"; "club"]%string.
Definition EXAM_MODES : list string := ["sync"; "async"; "open"]%string.
Definition HOMEWORK_STATUSES : list string := ["done"; "incomplete"; "missing"]%string.
Definition QUESTION_KINDS : list string := ["choice"; "text"]%string.
Definition UNLIMITED_EXAM_ATTEMPTS : Z := 0.
Definition MAX_EXAM_ATTEMPTS : Z := 100.
Definition MIN_EXAM_DURATION_MS : Z := 60 * 1000.
Definition MAX_EXAM_DURATION_MS : Z := 24 * 60 * 60 * 1000.
Definition MIN_QUESTION_POINTS : Z := 1.
Definition MAX_QUESTION_POINTS : Z := 100.
Definition MIN_MARK : Z := 0.
Definition MAX_MARK : Z := 100.

Definition is_separator (c : char) : bool := bool_decide (c ∈ USERNAME_SEPARATORS).

(** The [while let Some(c) = chars.next()] loop with its [peek]. *)
Fixpoint consecutive_separators (s : str) : bool :=
  match s with
  | c :: (n :: _) as s' => (is_separator c && is_separator n) || consecutive_separators s'
  | _ => false
  end.

Definition starts_with (p : char → bool) (s : str) : bool :=
  match s with c :: _ => p c | [] => false end.
Definition ends_with (p : char → bool) (s : str) : bool := starts_with p (reverse s).

Definition validate_username (value : str) : result ValidationError () :=
  let value := trim value in
  let len := char_count value in
  if bool_decide (value = []) then Err (Empty "username") else
  if negb (is_ascii value) then Err (NotAscii "username") else
  if len <? MIN_USERNAME_LEN then Err (TooShort "username" MIN_USERNAME_LEN len) else
  if MAX_USERNAME_LEN <? len then Err (TooLong "username" MAX_USERNAME_LEN len) else
  if existsb is_ascii_uppercase value
  then Err (Invalid "username" "must be all lowercase") else
  if negb (forallb (λ c, is_ascii_lowercase c || is_ascii_digit c || is_separator c) value)
  then Err (Invalid "username"
    "may contain only lowercase letters, digits, '.', '_' and '-'") else
  if negb (starts_with is_ascii_alphanumeric value)
     || negb (ends_with is_ascii_alphanumeric value)
  then Err (Invalid "username" "must start and end with a letter or digit") else
  if consecutive_separators value
  then Err (Invalid "username" "must not contain consecutive '.', '_' or '-'") else
  Ok ().

Definition validate_password (value : str) : result ValidationError () :=
  let len := char_count value in
  if len <? MIN_PASSWORD_LEN then Err (TooShort "password" MIN_PASSWORD_LEN len) else
  if MAX_PASSWORD_LEN <? len then Err (TooLong "password" MAX_PASSWORD_LEN len) else
  Ok ().

Definition validate_required (field : string) (value : str) (max : Z)
    : result ValidationError () :=
  if bool_decide (trim value = []) then Err (Empty field) else
  if max <? char_count value then Err (TooLong field max (char_count value)) else
  Ok ().

Definition validate_optional (field : string) (value : str) (max : Z)
    : result ValidationError () :=
  if max <? char_count value then Err (TooLong field max (char_count value)) else Ok ().

Definition count_char (c : char) (s : str) : Z :=
  Z.of_nat (length (List.filter (N.eqb c) s)).

Definition validate_email (value : str) : result ValidationError () :=
  let value := trim value in
  let invalid := Invalid "email" "must look like name@example.com" in
  if bool_decide (value = []) then Err (Empty "email") else
  if negb (is_ascii value) then Err (NotAscii "email") else
  if MAX_EMAIL_LEN <? char_count value
  then Err (TooLong "email" MAX_EMAIL_LEN (char_count value)) else
  if existsb is_whitespace value || negb (count_char 64%N value =? 1)
  then Err invalid else
  match split_once 64%N value with
  | Some (local, domain) =>
      if negb (bool_decide (local = []))
         && existsb (N.eqb 46) domain
         && negb (starts_with (N.eqb 46) domain)
         && negb (ends_with (N.eqb 46) domain)
      then Ok () else Err invalid
  | None => Err invalid
  end.

Definition strip_prefix (c : char) (s : str) : option str :=
  match s with x :: s' => if (x =? c)%N then Some s' else None | [] => None end.

Definition validate_phone (value : str) : result ValidationError () :=
  let value := trim value in
  if bool_decide (value = []) then Err (Empty "phone") else
  let rest := default value (strip_prefix 43%N value) in
  if existsb (λ c, negb (is_ascii_digit c)
                   && negb (bool_decide (c ∈ [32; 45; 40; 41]%N))) rest
  then Err (Invalid "phone"
    "may contain digits, spaces, dashes, parentheses, and a leading +") else
  let digits := Z.of_nat (length (List.filter is_ascii_digit rest)) in
  if negb (in_range MIN_PHONE_DIGITS MAX_PHONE_DIGITS digits)
  then Err (Invalid "phone" "must contain 7 to 15 digits") else
  Ok ().

Definition is_request_key_char (c : char) : bool :=
  is_ascii_alphanumeric c || (c =? 45)%N.

Definition validate_request_key (value : str) : result ValidationError () :=
  let len := char_count value in
  if len =? 0 then Err (Empty "request_key") else
  if MAX_PAYMENT_REQUEST_KEY_LEN <? len
  then Err (TooLong "request_key" MAX_PAYMENT_REQUEST_KEY_LEN len) else
  if negb (forallb is_request_key_char value)
  then Err (Invalid "request_key" "may contain only letters, digits and '-'") else
  Ok ().

(** [LIST.contains(&value)] over string literals. *)
Definition one_of (l : list string) (value : str) : bool :=
  existsb (λ s, bool_decide (lit s = value)) l.

Definition validate_course_kind (value : str) : result ValidationError () :=
  if one_of COURSE_KINDS value then Ok ()
  else Err (Invalid "kind" "must be one of: course, study, club").

Definition validate_exam_mode (value : str) : result ValidationError () :=
  if one_of EXAM_MODES value then Ok ()
  else Err (Invalid "mode" "must be one of: sync, async, open").

Definition validate_homework_status (value : str) : result ValidationError () :=
  if one_of HOMEWORK_STATUSES value then Ok ()
  else Err (Invalid "status" "must be one of: done, incomplete, missing").

Definition validate_attempt_limit (value : Z) : result ValidationError () :=
  if (value =? UNLIMITED_EXAM_ATTEMPTS) || in_range 1 MAX_EXAM_ATTEMPTS value
  then Ok ()
  else Err (Invalid "max_attempts" "must be between 1 and 100, or 0 for unlimited").

Definition validate_exam_duration (value : Z) : result ValidationError () :=
  if in_range MIN_EXAM_DURATION_MS MAX_EXAM_DURATION_MS value then Ok ()
  else Err (Invalid "duration_ms"
    "must be between 60000 (1 minute) and 86400000 (24 hours) milliseconds").

Definition validate_question_kind (value : str) : result ValidationError () :=
  if one_of QUESTION_KINDS value then Ok ()
  else Err (Invalid "kind" "must be one of: choice, text").

Definition validate_question_points (value : Z) : result ValidationError () :=
  if in_range MIN_QUESTION_POINTS MAX_QUESTION_POINTS value then Ok ()
  else Err (Invalid "points" "must be between 1 and 100").

Definition validate_mark (value : Z) : result ValidationError () :=
  if in_range MIN_MARK MAX_MARK value then Ok ()
  else Err (Invalid "mark" "must be between 0 and 100").

(** ** What the checks accept *)

Lemma forallb_iff {A} (p : A → bool) (l : list A) :
  forallb p l = true ↔ Forall (λ x, p x = true) l.
Proof.
  rewrite forallb_forall, Forall_forall.
  split; intros H x Hx; apply H; by apply list_elem_of_In.
Qed.

Lemma existsb_false_iff {A} (p : A → bool) (l : list A) :
  existsb p l = false ↔ Forall (λ x, p x = false) l.
Proof.
  induction l as [|x l IH]; simpl; [by split|].
  rewrite orb_false_iff, Forall_cons. by rewrite IH.
Qed.

(** One guard of a validator: [if b then Err e else k]. *)
Lemma guard_ok {E A} (b : bool) (e : E) (k : result E A) a :
  (if b then Err e else k) = Ok a ↔ b = false ∧ k = Ok a.
Proof. destruct b; naive_solver. Qed.

(** The last guard of a validator, spelled the other way round. *)
Lemma guard_ok_else {E} (b : bool) (e : E) :
  (if b then Ok () else Err e) = Ok () ↔ b = true.
Proof. destruct b; naive_solver. Qed.

Create Rewrite HintDb validate.
#[export] Hint Rewrite @guard_ok @guard_ok_else negb_true_iff negb_false_iff
  orb_false_iff orb_true_iff andb_true_iff Z.ltb_ge Z.eqb_eq Z.eqb_neq bool_decide_eq_false
  bool_decide_eq_true @forallb_iff @existsb_false_iff in_range_spec : validate.

Definition no_adjacent (p : char → bool) (s : str) : Prop :=
  ∀ i a b, s !! i = Some a → s !! S i = Some b → ¬ (p a = true ∧ p b = true).

Lemma consecutive_separators_spec s :
  consecutive_separators s = false ↔ no_adjacent is_separator s.
Proof.
  unfold no_adjacent. induction s as [|c [|n s] IH].
  - split; [|done]. intros _ i a b Ha. by rewrite lookup_nil in Ha.
  - split; [|done]. intros _ i a b _ Hb. by destruct i.
  - change (consecutive_separators (c :: n :: s)) with
      ((is_separator c && is_separator n) || consecutive_separators (n :: s)).
    rewrite orb_false_iff, IH, andb_false_iff. split.
    + intros [Hcn Hs] [|i] a b Ha Hb; simpl in *; [naive_solver congruence|eauto].
    + intros H. split; [|intros i a b Ha Hb; by apply (H (S i))].
      specialize (H 0%nat c n eq_refl eq_refl).
      destruct (is_separator c), (is_separator n); naive_solver.
Qed.

Definition is_username_char (c : char) : bool :=
  is_ascii_lowercase c || is_ascii_digit c || is_separator c.

Lemma is_separator_cases c : is_separator c = true → c = 46%N ∨ c = 95%N ∨ c = 45%N.
Proof.
  unfold is_separator, USERNAME_SEPARATORS. rewrite bool_decide_eq_true, !elem_of_cons.
  set_solver.
Qed.

Lemma username_char_plain c :
  is_username_char c = true →
  (c <? 128)%N = true ∧ is_ascii_uppercase c = false.
Proof.
  unfold is_username_char, is_ascii_uppercase, is_ascii_lowercase, is_ascii_digit, between.
  rewrite !orb_true_iff. intros [[H|H]|H%is_separator_cases]; lia.
Qed.

(** The accepted usernames, described without the order of the checks: the
    trimmed value has 3 to 32 characters out of [a-z0-9._-], starts and ends with
    a letter or digit and never has two separators in a row. *)
Theorem validate_username_spec value :
  validate_username value = Ok () ↔
    MIN_USERNAME_LEN ≤ char_count (trim value) ≤ MAX_USERNAME_LEN
    ∧ Forall (λ c, is_username_char c = true) (trim value)
    ∧ starts_with is_ascii_alphanumeric (trim value) = true
    ∧ ends_with is_ascii_alphanumeric (trim value) = true
    ∧ no_adjacent is_separator (trim value).
Proof.
  unfold validate_username. cbv zeta. set (t := trim value).
  autorewrite with validate. unfold is_ascii.
  autorewrite with validate. fold (is_username_char).
  rewrite <-consecutive_separators_spec.
  assert (Forall (λ c, is_username_char c = true) t →
    Forall (λ c, (c <? 128)%N = true) t ∧ Forall (λ c, is_ascii_uppercase c = false) t).
  { intros H. split; (eapply Forall_impl; [exact H|]); apply username_char_plain. }
  unfold is_username_char in *. unfold char_count in *.
  split; [naive_solver|]. intros (Hlen & Hchars & ? & ? & ?).
  repeat split; try naive_solver; try (unfold MIN_USERNAME_LEN in *; naive_solver lia).
  intros ->. unfold MIN_USERNAME_LEN in Hlen. simpl in Hlen. lia.
Qed.

Lemma validate_request_key_ok value :
  validate_request_key value = Ok () →
  value ≠ [] ∧ Forall (λ c, is_request_key_char c = true) value.
Proof.
  unfold validate_request_key. cbv zeta. autorewrite with validate.
  intros (H1 & _ & H2 & _). split; [by intros ->|done].
Qed.

(** A request key can never spell the ['_'] that joins the parts of a ledger
    key. *)
Lemma request_key_no_underscore value :
  validate_request_key value = Ok () → (95%N : char) ∉ value.
Proof.
  intros [_ H]%validate_request_key_ok Hin. rewrite Forall_forall in H.
  by specialize (H _ Hin).
Qed.

Lemma count_char_cons c x s :
  count_char c (x :: s) = (if (c =? x)%N then 1 else 0) + count_char c s.
Proof. unfold count_char. simpl. destruct (c =? x)%N; simpl; lia. Qed.

Lemma count_char_0 c s : count_char c s = 0 ↔ c ∉ s.
Proof.
  induction s as [|x s IH]; [split; [intros; apply not_elem_of_nil|done]|].
  rewrite count_char_cons, not_elem_of_cons, <-IH.
  assert (0 ≤ count_char c s) by (unfold count_char; lia).
  destruct (N.eqb_spec c x); lia.
Qed.

Lemma split_once_count1 c s l r :
  split_once c s = Some (l, r) → count_char c s = 1 → c ∉ r.
Proof.
  intros [-> Hl]%split_once_Some. apply count_char_0 in Hl. rewrite <-count_char_0.
  revert Hl. induction l as [|x l IH]; simpl; rewrite !count_char_cons.
  - rewrite N.eqb_refl. lia.
  - assert (0 ≤ count_char c l) by (unfold count_char; lia).
    destruct (c =? x)%N; [lia|]. intros. apply IH; lia.
Qed.

(** An accepted email is, trimmed, [local@domain] in ASCII without white space:
    one ['@'], a non-empty local part, and a domain with a dot strictly inside. *)
Theorem validate_email_shape value :
  validate_email value = Ok () →
  ∃ local domain,
    trim value = local ++ 64%N :: domain
    ∧ local ≠ [] ∧ (64%N ∉ local) ∧ (64%N ∉ domain)
    ∧ (46%N ∈ domain)
    ∧ starts_with (N.eqb 46) domain = false ∧ ends_with (N.eqb 46) domain = false
    ∧ Forall (λ c, is_whitespace c = false) (trim value)
    ∧ char_count (trim value) ≤ MAX_EMAIL_LEN.
Proof.
  unfold validate_email. cbv zeta. set (t := trim value).
  autorewrite with validate. intros (Hne & Hascii & Hlen & (Hws & Hat) & H).
  destruct (split_once 64%N t) as [[local domain]|] eqn:E; [|done].
  autorewrite with validate in H. destruct H as (((Hl & Hdot) & Hs) & He).
  pose proof (split_once_count1 _ _ _ _ E Hat) as Hd.
  apply split_once_Some in E as [Ht Hnl].
  exists local, domain. repeat split; try done.
  apply existsb_exists in Hdot as (x & Hin & Hx).
  apply N.eqb_eq in Hx as <-. by apply list_elem_of_In.
Qed.

Lemma validate_email_shape_witness :
  validate_email (lit " ayse@okul.k12.tr ") = Ok ()
  ∧ ∃ local domain, trim (lit " ayse@okul.k12.tr ") = local ++ 64%N :: domain.
Proof.
  split; [reflexivity|].
  destruct (validate_email_shape (lit " ayse@okul.k12.tr ") eq_refl) as (l & d & E & _).
  by exists l, d.
Defined.
