(* ===== verification/Gates.v ===== *)
(** * What every request meets at the door ([src/web/extractor.rs],
    [src/web/page.rs], [src/db/page.rs])

    The caller's account and the extractors that gate on its role, the fields a
    body carries past a validator, the range of a schedule, and the
    window of a page. *)

From S2P Require Import Prelude Text Errors Effects Uuid Validate Modules.
Open Scope Z_scope.

Definition MAX_PAGE_LIMIT : Z := 500.

(** ** The caller *)

Record User := MkUser { uid : uuid; get_role : Role }.

(** [RequireStudent], [RequireTeacher] and [RequireManager]. *)
Definition require_student (u : User) : result AppError () :=
  if at_least (get_role u) Student then Ok () else Err (Forbidden "requires student role or higher").
Definition require_teacher (u : User) : result AppError () :=
  if at_least (get_role u) Teacher then Ok () else Err (Forbidden "requires teacher role or higher").
Definition require_manager (u : User) : result AppError () :=
  if at_least (get_role u) Manager then Ok () else Err (Forbidden "requires manager role or higher").

(** ** Fields *)

(** [?] on a validator's answer. *)
Definition checked {S A} (r : result ValidationError A) : io S A := lift (map_err Validation r).

(** [Option::map(..).transpose()?]. *)
Definition checked_opt {S A B} (f : A → result ValidationError B) (x : option A) : io S (option B) :=
  match x with None => mret None | Some a => b ← checked (f a); mret (Some b) end.

(** The attendance statuses are the school's own list. *)
Definition attendance_status_try_new (value : str) (allowed : list str) : result ValidationError str :=
  if negb (existsb (λ s, bool_decide (s = value)) allowed)
  then Err (Invalid "status" "is not one of this school's attendance statuses (see GET /settings)")
  else Ok value.

(** ** Schedules *)

Definition SCHEDULE_PAST_GRACE_MS : Z := 60 * 1000.

Definition range_error : AppError := Validation (Invalid "ends_at" "must be at or after starts_at").

Definition check_time_range (starts ends : option Z) : result AppError () :=
  match starts, ends with
  | Some s, Some e => if e <? s then Err range_error else Ok ()
  | _, _ => Ok ()
  end.

Definition check_not_past {S} (field : string) (value : option Z) : io S () :=
  match value with
  | None => mret ()
  | Some v =>
      t_now ← now;
      if v <? t_now - SCHEDULE_PAST_GRACE_MS
      then raise (Validation (Invalid field "must not be in the past")) else mret ()
  end.

(** ** Pages *)

(** [PageParams::resolve]. *)
Definition resolve_page (limit offset : option Z) : result AppError (option Z * Z) :=
  match limit with
  | Some l =>
      if negb (in_range 1 MAX_PAGE_LIMIT l)
      then Err (Validation (Invalid "limit" "must be between 1 and 500")) else Ok ()
  | None => Ok ()
  end ≫= λ _,
  let offset := default 0 offset in
  if offset <? 0 then Err (Validation (Invalid "offset" "must not be negative"))
  else Ok (limit, offset).

(** [PagedList::run] ([src/db/page.rs]): a page in SQL, and a count of the same
    rows when the page may hide some. *)
Definition sql_window {A} (rows : list A) (limit : option Z) (offset : Z) : list A :=
  let rest := drop (Z.to_nat offset) rows in
  match limit with Some l => take (Z.to_nat l) rest | None => rest end.
Definition paged_list {S A} (rows : S → list A) (limit : option Z) (offset : Z) : io S (list A * Z) :=
  let counted := bool_decide (is_Some limit) || (0 <? offset) in
  page ← atomic (gets (λ s, if counted then sql_window (rows s) limit offset else rows s));
  if counted then
    total ← atomic (gets (λ s, Z.of_nat (length (rows s))));
    mret (page, total)
  else mret (page, Z.of_nat (length page)).

(** [paginate]: [items[start..end]], in [usize]. *)
Definition usize_saturating_add (a b : Z) : Z := Z.min u64_max (a + b).
Definition paginate {A} (items : list A) (limit : option Z) (offset : Z) : list A :=
  let len := Z.of_nat (length items) in
  let start := Z.min (Z.max offset 0) len in
  let end_ := match limit with
              | Some l => Z.min (usize_saturating_add start (Z.max l 0)) len
              | None => len
              end in
  take (Z.to_nat (end_ - start)) (drop (Z.to_nat start) items).

(** ** Orders of ids *)

Definition ascending (us : gset uuid) : list uuid := merge_sort N.le (elements us).
Definition descending (us : gset uuid) : list uuid := reverse (ascending us).

Section Keyed.
Context `{UuidText}.

(** [sort_by_key(key)]: the text of the ids. *)
Definition by_key (u v : uuid) : Prop := str_le (uuid_text u) (uuid_text v) = true.
#[global] Instance by_key_dec : RelDecision by_key.
Proof. intros u v. unfold by_key. apply _. Defined.

End Keyed.

Lemma elem_of_ascending u us : u ∈ ascending us ↔ u ∈ us.
Proof. unfold ascending. by rewrite merge_sort_Permutation, elem_of_elements. Qed.
Lemma elem_of_descending u us : u ∈ descending us ↔ u ∈ us.
Proof. unfold descending. by rewrite reverse_Permutation, elem_of_ascending. Qed.
Lemma NoDup_ascending us : NoDup (ascending us).
Proof. unfold ascending. rewrite merge_sort_Permutation. apply NoDup_elements. Qed.
Lemma NoDup_descending us : NoDup (descending us).
Proof. unfold descending. rewrite reverse_Permutation. apply NoDup_ascending. Qed.

Lemma by_key_total `{UuidText} : Total by_key.
Proof. intros u v. apply str_le_total. Qed.
