(* ===== verification/Answers.v ===== *)
(** * Programs walked in one pass

    [Effects.outline] for a property a whole request keeps: [answers m φ] says that
    [m], with the others moving within [R] and keeping [I], does so too and answers
    a value within [φ] when it answers one. [answer_walk] goes through a program,
    leaving what its statements and its validators owe. At the end, [draws]: outlines
    of requests that mint uuids. *)

From S2P Require Import Prelude Text Errors Effects Uuid Validate Modules Gates.

Open Scope Z_scope.

(** ** Programs that answer values within [φ] *)

Section Answers.
Context {S : Type} (I : S → Prop) (R : S → S → Prop) `{!PreOrder R}.
Set Default Proof Using "All".

Definition answers {A} (m : io S A) (φ : A → Prop) : Prop :=
  outline I R R (λ _, True) m (λ r _, match r with Ok a => φ a | Err _ => True end).

Lemma answers_bind {A B} (m : io S A) (k : A → io S B) φ ψ :
  answers m φ → (∀ a, φ a → answers (k a) ψ) → answers (m ≫= k) ψ.
Proof.
  intros Hm Hk. eapply (outline_bind I R R); [exact Hm| |done]. intros a w Hw HI Ha. by apply Hk.
Qed.
Lemma answers_ret {A} (a : A) (φ : A → Prop) : φ a → answers (mret a) φ.
Proof. intros Ha. by apply (outline_ret I R R). Qed.
Lemma answers_raise {A} e (φ : A → Prop) : answers (raise e) φ.
Proof. by apply (outline_raise I R R). Qed.
Lemma answers_lift {A} (r : result AppError A) : answers (lift r) (λ a, r = Ok a).
Proof. apply (outline_done I R R). intros s _ _. by destruct r. Qed.
Lemma answers_now : answers now (λ _, True).
Proof. intros w _ HI _. by split_and!. Qed.
Lemma answers_fresh : answers fresh (λ _, True).
Proof. intros w _ HI _. by split_and!. Qed.
Lemma answers_atomic {A} (m : tx S A) : tx_moves I R m → answers (atomic m) (λ _, True).
Proof. intros Hm. by apply (outline_atomic I R R). Qed.
Lemma answers_gets {A} (f : S → A) : answers (atomic (gets f)) (λ _, True).
Proof. apply answers_atomic, (tx_moves_gets I R R). Qed.
Lemma answers_read {A} (f : S → A) (φ : A → Prop) : (∀ s, I s → φ (f s)) → answers (atomic (gets f)) φ.
Proof.
  intros Hf. apply (outline_atomic I R R); [done|apply (tx_moves_gets I R R)| |done].
  intros s a s' HI _ [= <- _]. by apply Hf.
Qed.
Lemma answers_attempted {A} (m : io S A) φ :
  answers m φ → answers (attempt m) (λ r, match r with Ok a => φ a | Err _ => True end).
Proof.
  intros Hm w Hw HI HP. unfold attempt. specialize (Hm w Hw HI HP). destruct (m w) as [r w'].
  destruct Hm as (? & ? & ? & ?). by split_and!.
Qed.
Lemma answers_attempt {A} (m : io S A) φ : answers m φ → answers (attempt m) (λ _, True).
Proof.
  intros Hm. apply (outline_weaken I R R (λ _, True) (λ _, True) _ (λ r _,
    match r with Ok (Ok a) => φ a | _ => True end)); [done|by intros []|]. by apply answers_attempted.
Qed.
Lemma answers_for_each {A} (xs : list A) (body : A → io S ()) :
  (∀ x, answers (body x) (λ _, True)) → answers (for_each xs body) (λ _, True).
Proof.
  intros Hb. induction xs as [|x xs IH]; simpl; [by apply answers_ret|]. by eapply answers_bind; [apply Hb|].
Qed.
Lemma answers_mapM {A B} (f : A → io S B) xs φ : (∀ x, answers (f x) φ) → answers (mapM f xs) (λ _, True).
Proof.
  intros Hf. induction xs as [|x xs IH]; simpl; [by apply answers_ret|].
  eapply answers_bind; [apply Hf|]. intros y _. eapply answers_bind; [exact IH|]. intros ys _. by apply answers_ret.
Qed.
Lemma answers_weaken {A} (m : io S A) φ ψ : answers m φ → (∀ a, φ a → ψ a) → answers m ψ.
Proof. intros Hm Hφ. eapply (outline_weaken I R R (λ _, True)); [done| |exact Hm]. intros [a|e] s; naive_solver. Qed.
End Answers.

(** Steps through a program; what a step answers is left as a hypothesis. *)
Ltac answer_step :=
  lazymatch goal with
  | |- ∀ _, _ => intro
  | |- answers _ _ (mbind _ (lift _)) _ => eapply answers_bind; [apply _|apply answers_lift; apply _|]
  | |- answers _ _ (mbind _ (atomic (gets _))) _ => eapply answers_bind; [apply _|apply answers_gets; apply _|]
  | |- answers _ _ (mbind _ now) _ => eapply answers_bind; [apply _|apply answers_now; apply _|]
  | |- answers _ _ (mbind _ fresh) _ => eapply answers_bind; [apply _|apply answers_fresh; apply _|]
  | |- answers _ _ (mret _) _ => apply answers_ret; [apply _|try done]
  | |- answers _ _ (raise _) _ => apply answers_raise; apply _
  | |- answers _ _ (lift _) _ => eapply answers_weaken; [apply _|apply answers_lift; apply _|try done]
  | |- answers _ _ (let _ := _ in _) _ => progress cbv zeta
  | |- answers _ _ (match _ with _ => _ end) _ => case_match
  end.
Ltac answer_walk := repeat answer_step.

Section Fields.
Context {S : Type} (I : S → Prop) (R : S → S → Prop) `{!PreOrder R}.
Set Default Proof Using "All".

Lemma not_past_answers f v : answers I R (check_not_past f v) (λ _, True).
Proof. unfold check_not_past. answer_walk. Qed.
Lemma checked_answers {A B} (f : A → result ValidationError B) x :
  answers I R (checked (f x)) (λ b, f x = Ok b).
Proof. unfold checked. eapply answers_weaken; [apply _|apply answers_lift; apply _|]. intros b. destruct (f x); simpl; [by intros [= ->]|done]. Qed.
Lemma checked_opt_answers {A B} (f : A → result ValidationError B) x :
  answers I R (checked_opt f x) (λ y, ∀ b, y = Some b → ∃ a, x = Some a ∧ f a = Ok b).
Proof.
  unfold checked_opt. destruct x as [a|]; [|by apply answers_ret; [apply _|]].
  eapply answers_bind; [apply _|apply checked_answers|]. intros b Hb. apply answers_ret; [apply _|].
  intros b' [= <-]. by exists a.
Qed.

End Fields.

(** ** Whatever the others keep *)

(** A request whose answer nobody reads. *)
Definition silent {S A} (m : io S A) : io S () := _ ← m; mret ().

Section Anyhow.
Context {S : Type}.

Definition anyhow (_ _ : S) : Prop := True.
#[global] Instance anyhow_pre : PreOrder anyhow.
Proof. by split. Qed.

Context (I : S → Prop).
Set Default Proof Using "Type".

Lemma fine_tx {A} (m : tx S A) : tx_keeps I m → answers I anyhow (atomic m) (λ _, True).
Proof. intros Hm. apply answers_atomic; [apply _|]. intros d a d' HI E. split; [by eapply Hm|done]. Qed.
Lemma fine_then {A B} (m : io S A) (k : A → io S B) φ ψ :
  answers I anyhow m φ → (∀ a, φ a → answers I anyhow (k a) ψ) → answers I anyhow (m ≫= k) ψ.
Proof. apply answers_bind, _. Qed.
Lemma kept_anything {A} (m : io S A) :
  answers I anyhow m (λ _, True) → outline I anyhow anyhow (λ _, True) m anything.
Proof.
  intros Hm. apply (outline_weaken I anyhow anyhow (λ _, True) (λ _, True) _
    (λ r _, match r with Ok _ => True | Err _ => True end)); done.
Qed.
End Anyhow.
Arguments fine_tx {S I A} m _.
Arguments fine_then {S I A B} m k φ ψ _ _.

(** * Outlines for requests that draw ids

    [Effects.outline] for a handler that mints uuids: it is run in worlds whose
    id generator ([src/domain/monotonic_id.rs]) answers uuids, and a point after
    a draw may use that the id is one. The assertions are otherwise those of an
    outline: [I] is the invariant, [R] what everybody does to the tables. *)

(** Every id the world would hand out is a uuid. *)
Definition ids_ok {S} (w : World S) : Prop := ∀ n, uuid_ok (w_fresh w n).

Section Draws.
Context {S : Type} (I : S → Prop) (R : S → S → Prop) `{!PreOrder R}.
Set Default Proof Using "All".

Definition draws {A} (P : S → Prop) (m : io S A) (Q : result AppError A → S → Prop) : Prop :=
  ∀ w, ids_ok w → relies I R w → I (w_db w) → P (w_db w) →
    let '(r, w') := m w in
    I (w_db w') ∧ R (w_db w) (w_db w') ∧ (w_env w' = w_env w ∧ w_fresh w' = w_fresh w) ∧ Q r (w_db w').

Lemma draws_weaken {A} (P P' : S → Prop) (m : io S A) Q Q' :
  (∀ s, I s → P' s → P s) → (∀ r s, I s → Q r s → Q' r s) → draws P m Q → draws P' m Q'.
Proof.
  intros HP HQ Hm w Hid Hw HI HPw. specialize (Hm w Hid Hw HI (HP _ HI HPw)). destruct (m w). naive_solver.
Qed.

Lemma draws_done {A} (P : S → Prop) (r : result AppError A) Q :
  (∀ s, I s → P s → Q r s) → draws P (λ w, (r, w)) Q.
Proof. intros HQ w Hid Hw HI HP. split_and!; [done|done|done|done|by apply HQ]. Qed.

Lemma draws_bind {A B} (P : S → Prop) (m : io S A) (k : A → io S B) M Q :
  draws P m M → (∀ a, draws (M (Ok a)) (k a) Q) → (∀ e s, I s → M (Err e) s → Q (Err e) s) →
  draws P (m ≫= k) Q.
Proof.
  intros Hm Hk He w Hid Hw HI HP. specialize (Hm w Hid Hw HI HP).
  unfold mbind, io_bind. destruct (m w) as [[a|e] w']; destruct Hm as (HI' & HT & [Henv Hfr] & HM).
  - assert (relies I R w') as Hw' by (unfold relies; by rewrite Henv).
    assert (ids_ok w') as Hid' by (unfold ids_ok; by rewrite Hfr).
    specialize (Hk a w' Hid' Hw' HI' HM). destruct (k a w') as [r w''].
    destruct Hk as (? & ? & [Henv' Hfr'] & ?). split_and!; [done|by etrans|congruence|congruence|done].
  - split_and!; auto.
Qed.

Lemma draws_lift {A B} (P : S → Prop) (r : result AppError A) (k : A → io S B) Q :
  (∀ a, r = Ok a → draws P (k a) Q) → (∀ e s, I s → P s → r = Err e → Q (Err e) s) →
  draws P (lift r ≫= k) Q.
Proof.
  intros Hk He. destruct r as [a|e]; [exact (Hk a eq_refl)|].
  intros w Hid Hw HI HP. split_and!; [done|done|done|done|by apply He].
Qed.

Lemma draws_now {B} (P : S → Prop) (k : Z → io S B) Q :
  (∀ t, draws P (k t) Q) → draws P (now ≫= k) Q.
Proof. intros Hk w Hid Hw HI HP. exact (Hk _ (tick (w_db w) w) Hid Hw HI HP). Qed.

Lemma draws_fresh {B} (P : S → Prop) (k : N → io S B) Q :
  (∀ u, uuid_ok u → draws P (k u) Q) → draws P (fresh ≫= k) Q.
Proof. intros Hk w Hid Hw HI HP. exact (Hk _ (Hid (w_step w)) (tick (w_db w) w) Hid Hw HI HP). Qed.

(** A statement, whose move may depend on what held before. *)
Lemma draws_commit {A} (P : S → Prop) (m : tx S A) Q :
  steady I R P →
  (∀ s a s', I s → P s → m s = Ok (a, s') → I s' ∧ R s s' ∧ Q (Ok a) s') →
  (∀ s e, I s → P s → m s = Err e → Q (Err e) s) →
  draws P (atomic m) Q.
Proof.
  intros HP Hm He w Hid Hw HI HPw. unfold atomic.
  destruct (Hw (w_step w) _ HI) as [HI' HR]. pose proof (HP _ _ HI HI' HR HPw) as HP'.
  destruct (m (w_env w (w_step w) (w_db w))) as [[a s']|e] eqn:E; simpl.
  - destruct (Hm _ _ _ HI' HP' E) as (HI'' & HT' & HQ).
    split_and!; [done|by etrans|done|done|exact HQ].
  - split_and!; [done|done|done|done|exact (He _ _ HI' HP' E)].
Qed.

(** What is known of the values read so far. *)
Lemma draws_pure {A} (φ : Prop) (P : S → Prop) (m : io S A) Q :
  (φ → draws P m Q) → draws (λ s, φ ∧ P s) m Q.
Proof. intros Hm w Hid Hw HI [Hφ HP]. by apply Hm. Qed.

(** What interference keeps, the request keeps too. *)
Lemma draws_frame {A} (P F : S → Prop) (m : io S A) Q :
  steady I R F → draws P m Q → draws (λ s, P s ∧ F s) m (λ r s, Q r s ∧ F s).
Proof.
  intros HF Hm w Hid Hw HI [HP HFw]. specialize (Hm w Hid Hw HI HP). destruct (m w) as [r w'].
  destruct Hm as (HI' & HR & Hsame & HQ). split_and!; [done|done|apply Hsame..|done|exact (HF _ _ HI HI' HR HFw)].
Qed.

(** A [match] on a fallible call. *)
Lemma draws_attempt {A B} (P : S → Prop) (m : io S A) (k : result AppError A → io S B) M Q :
  draws P m M → (∀ r, draws (M r) (k r) Q) → draws P (attempt m ≫= k) Q.
Proof.
  intros Hm Hk w Hid Hw HI HP. specialize (Hm w Hid Hw HI HP). rewrite attempt_bind.
  destruct (m w) as [r w']. destruct Hm as (HI' & HT & [Henv Hfr] & HM).
  assert (relies I R w') as Hw' by (unfold relies; by rewrite Henv).
  assert (ids_ok w') as Hid' by (unfold ids_ok; by rewrite Hfr).
  specialize (Hk r w' Hid' Hw' HI' HM). destruct (k r w') as [r' w''].
  destruct Hk as (? & ? & [Henv' Hfr'] & ?). split_and!; [done|by etrans|congruence|congruence|done].
Qed.

(** A read, and what follows it. *)
Lemma draws_read {A B} (P : S → Prop) (f : S → A) (k : A → io S B) Q :
  steady I R P →
  (∀ s0, I s0 → P s0 → draws (λ s, P s ∧ R s0 s) (k (f s0)) Q) →
  draws P (atomic (gets f) ≫= k) Q.
Proof.
  intros HP Hk w Hid Hw HI HPw. unfold mbind, io_bind, atomic, gets.
  destruct (Hw (w_step w) _ HI) as [HI' HR]. pose proof (HP _ _ HI HI' HR HPw) as HP'.
  specialize (Hk _ HI' HP' (tick (w_env w (w_step w) (w_db w)) w) Hid Hw HI' (conj HP' (reflexivity _))).
  destruct (k _ _) as [r w']. destruct Hk as (? & HR' & Hsame & ?). split_and!; [done| |apply Hsame..|done].
  by etrans.
Qed.

(** What has happened since a read stays so. *)
Lemma steady_since (P : S → Prop) s0 : steady I R P → steady I R (λ s, P s ∧ R s0 s).
Proof. intros HP s s' HI HI' HR [HPs Hs]. split; [exact (HP _ _ HI HI' HR HPs)|by etrans]. Qed.

Lemma draws_for_each {A} (P : S → Prop) (Q : list A → S → Prop) (E : AppError → S → Prop)
    (xs : list A) (body : A → io S ()) :
  (∀ done_ x rest, xs = done_ ++ x :: rest →
     draws (λ s, P s ∧ Q done_ s) (body x)
       (λ r s, match r with Ok _ => P s ∧ Q (done_ ++ [x]) s | Err e => E e s end)) →
  draws (λ s, P s ∧ Q [] s) (for_each xs body)
    (λ r s, match r with Ok _ => P s ∧ Q xs s | Err e => E e s end).
Proof.
  intros Hb. change xs with ([] ++ xs) in Hb. revert Hb.
  assert (∀ before, (∀ done_ x rest, before ++ xs = done_ ++ x :: rest →
     draws (λ s, P s ∧ Q done_ s) (body x)
       (λ r s, match r with Ok _ => P s ∧ Q (done_ ++ [x]) s | Err e => E e s end)) →
    draws (λ s, P s ∧ Q before s) (for_each xs body)
    (λ r s, match r with Ok _ => P s ∧ Q (before ++ xs) s | Err e => E e s end)) as H; [|exact (H [])].
  induction xs as [|x xs IH]; intros before Hb.
  - simpl. apply draws_done. by rewrite app_nil_r.
  - simpl. eapply draws_bind; [exact (Hb before x xs eq_refl)| |done].
    intros []. rewrite (cons_middle x before xs), app_assoc. apply IH.
    by rewrite <- app_assoc.
Qed.
End Draws.
