(* ===== verification/Ledger.v ===== *)
(** * What the two ledgers share ([src/domain/meal_ledger.rs])

    The amount, method and note of a ledger line; [src/domain/payment_ledger.rs]
    re-exports them. *)

From S2P Require Import Prelude Text Errors Validate.
Open Scope Z_scope.

Definition MAX_LEDGER_AMOUNT_MINOR : Z := 10000000.
Definition MAX_LEDGER_METHOD_LEN : Z := 50.
Definition MAX_LEDGER_NOTE_LEN : Z := 500.

(** [LedgerAmount::try_new]; the newtype is its value. *)
Definition ledger_amount_try_new (value : Z) : result ValidationError Z :=
  if negb (in_range 1 MAX_LEDGER_AMOUNT_MINOR value)
  then Err (Invalid "amount_minor" "must be between 1 and 10000000 minor units")
  else Ok value.

(** [LedgerMethod::try_new]: blank means none. *)
Definition ledger_method_try_new (value : str) : result ValidationError (option str) :=
  let value := trim value in
  _ ← validate_optional "method" value MAX_LEDGER_METHOD_LEN;
  Ok (if bool_decide (value = []) then None else Some value).

(** [LedgerNote::try_new]. *)
Definition ledger_note_try_new (value : str) : result ValidationError (option str) :=
  let value := trim value in
  _ ← validate_optional "note" value MAX_LEDGER_NOTE_LEN;
  Ok (if bool_decide (value = []) then None else Some value).

(** A stored amount is one [try_new] let through. *)
Definition amount_ok (a : Z) : Prop := 1 ≤ a ≤ MAX_LEDGER_AMOUNT_MINOR.

Lemma ledger_amount_ok v a : ledger_amount_try_new v = Ok a → a = v ∧ amount_ok a.
Proof.
  unfold ledger_amount_try_new, amount_ok.
  destruct (in_range _ _ v) eqn:E; simpl; [|done]. apply in_range_spec in E.
  intros [= <-]. done.
Qed.
