(* ===== verification/Payments.v ===== *)
(** * The fee ledger ([src/domain/payment_ledger.rs],
    [src/db/payment_ledger.rs], [src/service/payment_ledger.rs])

    An append-only table of charges, credits, refunds and reversals. A line's
    id decides whether it exists; a payment may not take more than the line it
    targets is worth, folded over everything already applied to that line. *)

From S2P Require Import Prelude Text Errors Effects Uuid Validate Ledger.
Open Scope Z_scope.

Definition MAX_LEDGER_APPLIED_LINES : Z := 20.

(** ** Kinds and lines *)

Inductive PaymentLedgerKind : Set := Charge | Credit | Reversal | Refund.

#[export] Instance PaymentLedgerKind_eq_dec : EqDecision PaymentLedgerKind.
Proof. solve_decision. Defined.

Definition sign (k : PaymentLedgerKind) : Z :=
  match k with
  | Charge | Refund => -1
  | Credit | Reversal => 1
  end.

Record PaymentLedger := MkPaymentLedger {
  id : str;
  student : uuid;
  kind : PaymentLedgerKind;
  amount_minor : Z;
  source : option str;
  due_at : option Z;
  method : option str;
  note : option str;
  recorded_by : uuid;
  created_at : Z;
}.

(** ** Ids *)

Section Ids.
Context `{UuidText}.

Definition generate (u : uuid) : str := uuid_text u.

Record FeePlanAssignmentId := MkAssignmentId { plan : uuid; assignee : uuid }.

(** [FeePlanAssignmentId::key]. *)
Definition assignment_key (a : FeePlanAssignmentId) : str :=
  pair_key (uuid_text (plan a)) (uuid_text (assignee a)).

Definition for_installment (a : FeePlanAssignmentId) (n : Z) : str :=
  assignment_key a ++ lit "_c" ++ show_int n.
Definition for_reversal (line : str) : str := line ++ lit "_r".
Definition for_request (target : str) (marker : str) (key : str) : str :=
  target ++ lit "_" ++ marker ++ lit "_" ++ key.
End Ids.

(** [PaymentRequestKey::try_new]. *)
Definition request_key_try_new (value : str) : result ValidationError str :=
  _ ← validate_request_key value; Ok value.

(** ** The balance fold *)

(** [PaymentLedger::fold_balance], in [i64]. *)
Definition fold_balance (lines : list (PaymentLedgerKind * Z)) : Z :=
  foldl (λ sum '(k, amount), i64_wrap (sum + i64_wrap (sign k * amount))) 0 lines.

(** [PaymentLedger::folded]. *)
Definition folded (l : PaymentLedger) : PaymentLedgerKind * Z := (kind l, amount_minor l).

(** ** The table and its statements *)

Abbreviation table := (gmap str PaymentLedger).

Definition read (i : str) : tx table (option PaymentLedger) := gets (.!! i).

(** [INSERT ... ON CONFLICT (id) DO NOTHING], read back in the same statement. *)
Definition append (row : PaymentLedger) : tx table PaymentLedger := λ t,
  let '(created, t') :=
    match t !! id row with
    | Some line => (line, t)
    | None => (row, <[id row := row]> t)
    end in
  if decide (kind created = kind row) then Ok (created, t')
  else Err (Internal (lit "a ledger id resolved to a line of another kind")).

(** The rows of the table, as a [SELECT] sees them. *)
Definition rows (t : table) : list PaymentLedger := (map_to_list t).*2.

(** [WHERE source = $1]. *)
Definition applied_directly (t : table) (key : str) : list PaymentLedger :=
  filter (λ l, source l = Some key) (rows t).

(** [WITH RECURSIVE applied ...]: the lines below [key], level by level. *)
Fixpoint applied (fuel : nat) (t : table) (key : str) : list PaymentLedger :=
  match fuel with
  | O => []
  | S n =>
      let level := applied_directly t key in
      level ++ (level ≫= λ l, applied n t (id l))
  end.

(** [GROUP BY kind] with [sum(amount_minor)] and [count]: one [KindFold] per
    kind that occurs. *)
Definition of_kind (k : PaymentLedgerKind) (ls : list PaymentLedger) : list PaymentLedger :=
  filter (λ l, kind l = k) ls.
Definition total (ls : list PaymentLedger) : Z := sumZ (amount_minor <$> ls).
Definition group_by_kind (ls : list PaymentLedger) : list (PaymentLedgerKind * Z * Z) :=
  (λ k, (k, total (of_kind k ls), Z.of_nat (length (of_kind k ls)))) <$>
    filter (λ k, of_kind k ls ≠ []) [Charge; Credit; Reversal; Refund].

(** The depth the recursion needs: a charge carries credits, a credit refunds,
    a refund reversals, and a reversal nothing (see [applied_fuel] below). *)
Definition APPLIED_DEPTH : nat := 4.

Definition applied_to (target_key : str) (target_kind : PaymentLedgerKind) : tx table Z := λ t,
  let folds := group_by_kind (applied APPLIED_DEPTH t target_key) in
  let lines := sumZ (snd <$> folds) in
  if MAX_LEDGER_APPLIED_LINES <=? lines
  then Err (Conflict "this line already carries the most lines that may be applied to it; record the rest against another")
  else
    let total := fold_balance (fst <$> folds) in
    Ok (i64_wrap (total * - sign target_kind), t).

Definition balance_of (t : table) (s : uuid) : Z :=
  fold_balance (fst <$> group_by_kind (filter (λ l, student l = s) (rows t))).

(** [lock_for_cap]: the rows locked, walking up from [i]. The [while let]
    stops at a missing row or a charge. *)
Fixpoint lock_walk (fuel : nat) (t : table) (i : str) : option (list str) :=
  match fuel with
  | O => None
  | S n =>
      match t !! i with
      | Some row =>
          match kind row, source row with
          | Charge, _ | _, None => Some [i]
          | _, Some s => (i ::.) <$> lock_walk n t s
          end
      | None => Some []
      end
  end.

(** The locks themselves change nothing; that they serialize the writers of one
    tree is [lock_walk_root] below and is why the bodies that take them are
    [atomic]. *)
Definition lock_for_cap (i : str) : tx table (option (list str)) :=
  gets (λ t, lock_walk APPLIED_DEPTH t i).

(** ** The workflows ([src/service/payment_ledger.rs])

    They run on any database that has the ledger as one of its tables. *)

Class HasLedger (S : Type) := {
  ledger_of : S → table;
  set_ledger : table → S → S;
  ledger_of_set l s : ledger_of (set_ledger l s) = l;
  set_ledger_same s : set_ledger (ledger_of s) s = s;
}.

#[export, refine] Instance table_ledger : HasLedger table := {
  ledger_of t := t;
  set_ledger l _ := l;
}.
Proof. all: done. Defined.

(** A transaction of the ledger, on its table. *)
Definition on_lines {S : Type} `{HasLedger S} {A : Type} (m : tx table A) : tx S A := λ s,
  match m (ledger_of s) with
  | Ok (a, l) => Ok (a, set_ledger l s)
  | Err e => Err e
  end.

Lemma on_lines_ok {S : Type} `{HasLedger S} {A : Type} (m : tx table A) s a s' :
  on_lines m s = Ok (a, s') ↔ ∃ l, m (ledger_of s) = Ok (a, l) ∧ s' = set_ledger l s.
Proof. unfold on_lines. destruct (m (ledger_of s)) as [[x l]|e]; naive_solver. Qed.

Lemma on_lines_err {S : Type} `{HasLedger S} {A : Type} (m : tx table A) s e :
  on_lines m s = Err e ↔ m (ledger_of s) = Err e.
Proof. unfold on_lines. destruct (m (ledger_of s)) as [[x l]|e']; naive_solver. Qed.

Lemma on_lines_table {A : Type} (m : tx table A) t : on_lines m t = m t.
Proof. unfold on_lines. simpl. by destruct (m t) as [[a l]|e]. Qed.

Lemma tx_keeps_on_table {A : Type} (I : table → Prop) (m : tx table A) : tx_keeps I m → tx_keeps I (on_lines m).
Proof. intros Hm t a t' HI. rewrite on_lines_table. by apply Hm. Qed.

Section Workflows.
Context `{UuidText} {S : Type} `{HasLedger S}.

(** The transaction of [against]: replay, then fold, then append. *)
Definition against_tx (target : PaymentLedger) (kind_ : PaymentLedgerKind)
    (over : string) (reversed : option string)
    (amount : Z) (method_ note_ : option str) (keyed : option str) (by_ : uuid)
    (t_now : Z) (u : uuid) : tx table PaymentLedger :=
  _ ← lock_for_cap (id target);
  replay ← match keyed with Some i => read i | None => mret None end;
  match replay with
  | Some existing =>
      if negb (bool_decide (amount_minor existing = amount))
         || negb (bool_decide (source existing = Some (id target)))
      then refuse (Conflict
        "this request_key was already used for a different amount or target")
      else mret existing
  | None =>
      taken ← applied_to (id target) (kind target);
      if amount_minor target <? i64_saturating_add taken amount then
        match reversed with
        | Some text =>
            reversed_there ← read (for_reversal (id target));
            match reversed_there with
            | Some _ => refuse (ConflictOwned (lit text))
            | None => refuse (ConflictOwned (lit over))
            end
        | None => refuse (ConflictOwned (lit over))
        end
      else
        append (MkPaymentLedger (default (generate u) keyed) (student target) kind_
          amount (Some (id target)) None method_ note_ by_ t_now)
  end.

(** [against]: the shared body of [credit] and [refund]. The row locks of
    [lock_for_cap] are what make its transaction [atomic]. *)
Definition against (target : PaymentLedger) (expected kind_ : PaymentLedgerKind)
    (wrong_target : string) (over : string) (reversed : option string)
    (amount : Z) (method_ note_ : option str) (keyed : option str) (by_ : uuid)
    : io S PaymentLedger :=
  if negb (bool_decide (kind target = expected))
  then raise (Validation (Invalid "source" wrong_target)) else
  t_now ← now;
  u ← fresh;
  atomic (on_lines (against_tx target kind_ over reversed amount method_ note_ keyed by_ t_now u)).

Definition credit (charge : PaymentLedger) (amount : Z) (method_ note_ : option str)
    (request_key : option str) (by_ : uuid) : io S PaymentLedger :=
  against charge Charge Credit
    "a payment must be recorded against a charge"
    "the charge is already paid in full"
    (Some "the charge was reversed, so it is no longer owed"%string)
    amount method_ note_
    (for_request (id charge) (lit "k") <$> request_key) by_.

Definition refund (credit_ : PaymentLedger) (amount : Z) (method_ note_ : option str)
    (request_key : option str) (by_ : uuid) : io S PaymentLedger :=
  against credit_ Credit Refund
    "a refund must be recorded against a payment"
    "the payment is already refunded in full"
    None amount method_ note_
    (for_request (id credit_) (lit "kr") <$> request_key) by_.

(** The transaction of [reversal]. *)
Definition reversal_tx (line : PaymentLedger) (note_ : option str) (by_ : uuid) (t_now : Z)
    : tx table PaymentLedger :=
  _ ← lock_for_cap (id line);
  append (MkPaymentLedger (for_reversal (id line)) (student line) Reversal
    (amount_minor line) (Some (id line)) None None note_ by_ t_now).

Definition reversal (line : PaymentLedger) (note_ : option str) (by_ : uuid)
    : io S PaymentLedger :=
  match kind line with
  | Charge | Refund =>
      t_now ← now;
      atomic (on_lines (reversal_tx line note_ by_ t_now))
  | _ => raise (Validation (Invalid "source"
           "only a charge or a refund can be reversed; refund a payment instead"))
  end.

(** The row of [charge_for_installment]. *)
Definition installment_line (assignment : FeePlanAssignmentId) (n amount due : Z)
    (by_ : uuid) (t_now : Z) : PaymentLedger :=
  MkPaymentLedger (for_installment assignment n) (assignee assignment)
    Charge amount (Some (assignment_key assignment)) (Some due) None None by_ t_now.

Definition charge_for_installment (assignment : FeePlanAssignmentId) (n : Z)
    (amount due : Z) (by_ : uuid) : io S PaymentLedger :=
  t_now ← now;
  atomic (on_lines (append (installment_line assignment n amount due by_ t_now))).
End Workflows.

(** ** Sums over lines *)

(** The money a list of lines moves, in [Z]. *)
Definition net (ls : list PaymentLedger) : Z :=
  sumZ ((λ l, sign (kind l) * amount_minor l) <$> ls).

Lemma net_nil : net [] = 0.
Proof. done. Qed.
Lemma net_cons l ls : net (l :: ls) = sign (kind l) * amount_minor l + net ls.
Proof. done. Qed.
Lemma net_app xs ys : net (xs ++ ys) = net xs + net ys.
Proof. induction xs as [|x xs IH]; [done|]. cbn [app]. rewrite !net_cons, IH. lia. Qed.
#[export] Instance net_perm : Proper ((≡ₚ) ==> (=)) net.
Proof. induction 1; rewrite ?net_cons; lia. Qed.

Lemma total_cons l ls : total (l :: ls) = amount_minor l + total ls.
Proof. done. Qed.
#[export] Instance total_perm : Proper ((≡ₚ) ==> (=)) total.
Proof. induction 1; rewrite ?total_cons; lia. Qed.

(** Summing per kind and signing the four totals, or signing every line: the
    one rule that says what money means gives the same balance. *)
Lemma net_by_kind ls :
  net ls = - total (of_kind Charge ls) + total (of_kind Credit ls)
           + total (of_kind Reversal ls) - total (of_kind Refund ls).
Proof.
  induction ls as [|l ls IH]; [done|]. rewrite net_cons, IH. unfold of_kind.
  rewrite !filter_cons. destruct (kind l); simpl; rewrite ?total_cons; lia.
Qed.

Lemma length_by_kind ls :
  Z.of_nat (length ls) =
    Z.of_nat (length (of_kind Charge ls)) + Z.of_nat (length (of_kind Credit ls))
    + Z.of_nat (length (of_kind Reversal ls)) + Z.of_nat (length (of_kind Refund ls)).
Proof.
  induction ls as [|l ls IH]; [done|]. unfold of_kind in *.
  rewrite !filter_cons. destruct (kind l); simpl; lia.
Qed.

Lemma total_bounds ls :
  Forall (λ l, amount_ok (amount_minor l)) ls →
  0 ≤ total ls ≤ MAX_LEDGER_AMOUNT_MINOR * Z.of_nat (length ls).
Proof.
  induction 1 as [|l ls Hl _ IH]; [done|]. unfold amount_ok in Hl.
  rewrite total_cons. cbn [length]. lia.
Qed.

Lemma of_kind_ok k ls :
  Forall (λ l, amount_ok (amount_minor l)) ls →
  Forall (λ l, amount_ok (amount_minor l)) (of_kind k ls).
Proof.
  rewrite !Forall_forall. intros H l [_ Hin]%list_elem_of_filter. by apply H.
Qed.

(** The fold over [(kind, amount)] pairs, in [Z]. *)
Definition signed (lines : list (PaymentLedgerKind * Z)) : Z :=
  sumZ ((λ '(k, a), sign k * a) <$> lines).

(** [n] pairs of at most [b] each cannot leave [i64]. *)
Lemma fold_balance_exact b lines :
  Forall (λ p, 0 ≤ p.2 ≤ b) lines →
  b * Z.of_nat (length lines) ≤ i64_max →
  fold_balance lines = signed lines.
Proof.
  intros Hb Hlen. unfold fold_balance.
  assert (∀ acc, (Z.abs acc + b * Z.of_nat (length lines) ≤ i64_max) →
    foldl (λ sum '(k, amount), i64_wrap (sum + i64_wrap (sign k * amount))) acc lines
      = acc + signed lines) as H; [|by rewrite H].
  clear Hlen. induction Hb as [|[k a] lines Ha Hb IH]; intros acc Hacc.
  { unfold signed, sumZ. cbn. lia. }
  unfold signed, sumZ in *. cbn [length foldl foldr sumZ fmap list_fmap] in *. simpl in Ha.
  assert (Z.abs (sign k * a) ≤ b) by (destruct k; simpl; lia).
  assert (0 ≤ b * Z.of_nat (length lines)) as Hpos by (apply Z.mul_nonneg_nonneg; lia).
  rewrite Nat2Z.inj_succ, Z.mul_succ_r in Hacc. unfold i64_max in *.
  rewrite (i64_wrap_id (sign k * a)) by (unfold_ints; lia).
  rewrite i64_wrap_id by (unfold_ints; lia).
  rewrite IH by lia. lia.
Qed.

Lemma signed_group ls : signed (fst <$> group_by_kind ls) = net ls.
Proof.
  rewrite net_by_kind. unfold group_by_kind, signed, sumZ.
  assert (∀ k, of_kind k ls = [] → total (of_kind k ls) = 0) as H0 by (by intros k ->).
  rewrite !filter_cons, filter_nil.
  repeat case_decide; cbn [fmap list_fmap foldr sumZ fst snd sign];
    repeat match goal with
    | H : of_kind ?k ls = [] |- _ => apply H0 in H; rewrite ?H
    end; lia.
Qed.

Lemma group_length ls : (length (group_by_kind ls) ≤ 4)%nat.
Proof.
  unfold group_by_kind. rewrite length_fmap.
  etransitivity; [apply length_filter|]. done.
Qed.

(** The grouped fold in [i64] is the signed sum, as long as it has room: a
    balance of up to [10^11] lines cannot overflow. *)
Lemma fold_group_net ls :
  Forall (λ l, amount_ok (amount_minor l)) ls →
  Z.of_nat (length ls) ≤ 10 ^ 11 →
  fold_balance (fst <$> group_by_kind ls) = net ls.
Proof.
  intros Hok Hlen. rewrite <-signed_group. apply (fold_balance_exact (10 ^ 18)).
  - rewrite Forall_fmap. apply Forall_forall. intros [[k t] c].
    unfold group_by_kind. rewrite list_elem_of_fmap. intros (k' & [= -> -> ->] & _).
    pose proof (total_bounds _ (of_kind_ok k' ls Hok)) as Hb. cbn.
    unfold MAX_LEDGER_AMOUNT_MINOR in Hb.
    pose proof (length_by_kind ls). destruct k'; lia.
  - rewrite length_fmap. pose proof (group_length ls). unfold i64_max. lia.
Qed.

Lemma group_lines ls : sumZ (snd <$> group_by_kind ls) = Z.of_nat (length ls).
Proof.
  rewrite length_by_kind. unfold group_by_kind, sumZ.
  rewrite !filter_cons, filter_nil.
  repeat case_decide; cbn [fmap list_fmap foldr sumZ fst snd];
    repeat match goal with
    | H : of_kind ?k ls = [] |- _ => rewrite H; clear H
    end; simpl; lia.
Qed.

(** ** The keys a table may hold *)

Section Keys.
Context `{UuidText}.

(** The id grammar: a fresh uuid, an installment's key, or an id extended by a
    reversal or by a request under one of the two markers. *)
Inductive key : Type :=
  | KFresh (u : uuid)
  | KInstallment (a : FeePlanAssignmentId) (n : Z)
  | KReversal (k : key)
  | KRequest (k : key) (refund_marker : bool) (request : str).

Definition marker (refund_marker : bool) : str :=
  lit (if refund_marker then "kr" else "k").

Fixpoint spell (k : key) : str :=
  match k with
  | KFresh u => generate u
  | KInstallment a n => for_installment a n
  | KReversal k => for_reversal (spell k)
  | KRequest k m r => for_request (spell k) (marker m) r
  end.

(** Every request key passed [validate_request_key]. *)
Fixpoint key_ok (k : key) : Prop :=
  match k with
  | KFresh _ | KInstallment _ _ => True
  | KReversal k => key_ok k
  | KRequest k _ r => key_ok k ∧ validate_request_key r = Ok ()
  end.

(** An id of the grammar is never an assignment's key, which is what a charge
    names as its source. *)
Lemma count_char_app c s t : count_char c (s ++ t) = count_char c s + count_char c t.
Proof. induction s as [|x s IH]; [done|]. cbn [app]. rewrite !count_char_cons, IH. lia. Qed.

Lemma uuid_text_count u : count_char 95%N (uuid_text u) = 0.
Proof. apply count_char_0, uuid_text_no_underscore. Qed.

Lemma assignment_key_count a : count_char 95%N (assignment_key a) = 1.
Proof.
  unfold assignment_key, pair_key. rewrite !count_char_app, !uuid_text_count. done.
Qed.

Lemma request_count r : validate_request_key r = Ok () → count_char 95%N r = 0.
Proof. intros. by apply count_char_0, request_key_no_underscore. Qed.

Lemma spell_count k : key_ok k → 0 ≤ count_char 95%N (spell k).
Proof. intros _. unfold count_char. lia. Qed.

Lemma last_snoc_ne (s t : str) (a b : char) : a ≠ b → s ++ [a] ≠ t ++ [b].
Proof. intros Hab E. apply app_inj_2 in E as [_ ?]; [naive_solver|done]. Qed.

Lemma uuid_text_snoc u : ∃ s c, uuid_text u = s ++ [c] ∧ c ≠ 114%N.
Proof.
  pose proof (uuid_text_chars u) as Hc. pose proof (uuid_text_length u) as Hl.
  destruct (uuid_text u) as [|c s _] using rev_ind; [done|].
  exists s, c. split; [done|]. rewrite forallb_iff, Forall_app, Forall_singleton in Hc.
  by intros ->; destruct Hc as [_ Hc].
Qed.

Lemma spell_not_assignment k a : key_ok k → spell k ≠ assignment_key a.
Proof.
  intros Hk E. pose proof (f_equal (count_char 95%N) E) as Hc.
  rewrite assignment_key_count in Hc. destruct k as [u|a' n|k|k m r]; cbn [spell] in Hc.
  - unfold generate in Hc. rewrite uuid_text_count in Hc. done.
  - unfold for_installment in Hc. rewrite !count_char_app, assignment_key_count in Hc.
    assert (0 ≤ count_char 95%N (show_int n)) by (unfold count_char; lia).
    change (count_char 95%N (lit "_c")) with 1 in Hc. lia.
  - destruct (uuid_text_snoc (assignee a)) as (s & c & Hs & Hne).
    cbn [spell] in E. unfold for_reversal, assignment_key, pair_key in E. rewrite Hs in E.
    change (lit "_r") with ([95%N] ++ [114%N]) in E. rewrite !app_assoc in E.
    by apply (last_snoc_ne _ _ 114%N c) in E.
  - unfold for_request in Hc. rewrite !count_char_app in Hc.
    destruct Hk as [Hk Hr]. pose proof (spell_count k Hk).
    assert (0 ≤ count_char 95%N (marker m)) by (unfold count_char; lia).
    assert (0 ≤ count_char 95%N r) by (unfold count_char; lia).
    change (count_char 95%N (lit "_")) with 1 in Hc. lia.
Qed.
End Keys.

(** ** Well-formed ledgers *)

(** How deep a kind may sit below its charge. *)
Definition rank (k : PaymentLedgerKind) : nat :=
  match k with Charge => 0 | Credit => 1 | Refund => 2 | Reversal => 3 end.

(** What a line of kind [k] may point at. *)
Definition may_target (k target : PaymentLedgerKind) : bool :=
  match k, target with
  | Credit, Charge | Refund, Credit | Reversal, Charge | Reversal, Refund => true
  | _, _ => false
  end.

Lemma may_target_rank k target : may_target k target = true → (rank target < rank k)%nat.
Proof. destruct k, target; simpl; try done; lia. Qed.

(** How much of a payment has been handed back: refunds less undone refunds. *)
Definition refunded (t : table) (c : str) : Z := - net (applied APPLIED_DEPTH t c).

Section Invariant.
Context `{UuidText}.

Record wf (t : table) : Prop := {
  wf_id : ∀ i l, t !! i = Some l → id l = i;
  wf_key : ∀ i l, t !! i = Some l → ∃ k, key_ok k ∧ spell k = i;
  wf_amount : ∀ i l, t !! i = Some l → amount_ok (amount_minor l);
  wf_charge : ∀ i l, t !! i = Some l → kind l = Charge →
    ∃ a, source l = Some (assignment_key a);
  wf_source : ∀ i l, t !! i = Some l → kind l ≠ Charge →
    ∃ p, source l = Some (id p) ∧ t !! id p = Some p
         ∧ may_target (kind l) (kind p) = true ∧ student l = student p
         ∧ (kind l = Reversal → i = for_reversal (id p) ∧ amount_minor l = amount_minor p);
  wf_refunds : ∀ i l, t !! i = Some l → kind l = Credit →
    refunded t i ≤ amount_minor l;
}.

Lemma elem_of_rows t l : wf t → l ∈ rows t ↔ t !! id l = Some l.
Proof.
  intros Hwf. unfold rows. rewrite list_elem_of_fmap. split.
  - intros ([i l'] & -> & Hin). simpl. apply elem_of_map_to_list in Hin.
    pose proof (wf_id _ Hwf _ _ Hin) as Hid. by rewrite Hid.
  - intros Hl. exists (id l, l). by rewrite elem_of_map_to_list.
Qed.

Lemma rows_insert t l : t !! id l = None → rows (<[id l := l]> t) ≡ₚ l :: rows t.
Proof. intros Hl. unfold rows. by rewrite map_to_list_insert. Qed.

Lemma applied_directly_insert t l x :
  t !! id l = None →
  applied_directly (<[id l := l]> t) x ≡ₚ
    (if decide (source l = Some x) then [l] else []) ++ applied_directly t x.
Proof.
  intros Hl. unfold applied_directly. rewrite rows_insert by done.
  rewrite filter_cons. by case_decide.
Qed.

(** A line directly below a line of the table is not a charge. *)
Lemma direct_child t x lx y :
  wf t → t !! x = Some lx → y ∈ applied_directly t x →
  t !! id y = Some y ∧ (rank (kind lx) < rank (kind y))%nat
  ∧ may_target (kind y) (kind lx) = true.
Proof.
  intros Hwf Hx. unfold applied_directly. rewrite list_elem_of_filter, elem_of_rows by done.
  intros [Hs Hy]. split; [done|].
  destruct (decide (kind y = Charge)) as [Hc|Hc].
  - destruct (wf_charge _ Hwf _ _ Hy Hc) as [a Ha]. rewrite Ha in Hs. injection Hs as <-.
    destruct (wf_key _ Hwf _ _ Hx) as (k & Hk & Hsp).
    by destruct (spell_not_assignment k a Hk).
  - destruct (wf_source _ Hwf _ _ Hy Hc) as (p & Hp & Htp & Hm & _).
    rewrite Hp in Hs. injection Hs as <-. rewrite Htp in Hx. injection Hx as <-.
    split; [by apply may_target_rank|done].
Qed.

(** Nothing points at an id the table does not hold, bar charges at their
    assignment. *)
Lemma fresh_has_no_children t i :
  wf t → t !! i = None → (∃ k, key_ok k ∧ spell k = i) → applied_directly t i = [].
Proof.
  intros Hwf Hi (k & Hk & Hsp). apply filter_none. intros y Hy Hs.
  apply elem_of_rows in Hy; [|done].
  destruct (decide (kind y = Charge)) as [Hc|Hc].
  - destruct (wf_charge _ Hwf _ _ Hy Hc) as [a Ha]. rewrite Ha in Hs. injection Hs as Hs.
    by destruct (spell_not_assignment k a Hk); rewrite Hsp.
  - destruct (wf_source _ Hwf _ _ Hy Hc) as (p & Hp & Htp & _). congruence.
Qed.

(** How many paths of at most [fuel] steps lead from [x] down to a line that
    points at [y]. *)
Fixpoint paths (fuel : nat) (t : table) (x y : str) : Z :=
  match fuel with
  | O => 0
  | S n =>
      (if decide (x = y) then 1 else 0)
      + sumZ ((λ l, paths n t (id l) y) <$> applied_directly t x)
  end.

Lemma paths_nonneg n t x y : 0 ≤ paths n t x y.
Proof.
  revert x. induction n as [|n IH]; intros x; simpl; [done|].
  pose proof (sumZ_nonneg (λ l, paths n t (id l) y) (applied_directly t x)
    (λ l, IH (id l))). case_decide; lia.
Qed.

Lemma net_bind (f : PaymentLedger → list PaymentLedger) ls :
  net (ls ≫= f) = sumZ ((λ l, net (f l)) <$> ls).
Proof. induction ls as [|l ls IH]; [done|]. csimpl. by rewrite net_app, IH. Qed.

Lemma applied_nil n t x : applied_directly t x = [] → applied n t x = [].
Proof. destruct n; simpl; [done|]. by intros ->. Qed.

Lemma net_applied_S n t x :
  net (applied (S n) t x) = net (applied_directly t x)
    + sumZ ((λ l, net (applied n t (id l))) <$> applied_directly t x).
Proof. simpl. by rewrite net_app, net_bind. Qed.

(** What a new line adds to every fold: its own money, once per path. *)
Lemma net_applied_insert t l n x s :
  wf t → t !! id l = None → (∃ k, key_ok k ∧ spell k = id l) →
  source l = Some s → s ≠ id l →
  net (applied n (<[id l := l]> t) x)
    = net (applied n t x) + paths n t x s * (sign (kind l) * amount_minor l).
Proof.
  intros Hwf Hl Hk Hs Hne. revert x. induction n as [|n IH]; intros x; [done|].
  rewrite !net_applied_S. cbn [paths].
  assert (net (applied n (<[id l := l]> t) (id l)) = 0) as Hleaf.
  { rewrite applied_nil; [done|]. apply Permutation_nil_r.
    rewrite applied_directly_insert by done.
    rewrite fresh_has_no_children by done. rewrite Hs, decide_False; [done|congruence]. }
  assert (sumZ ((λ y, net (applied n (<[id l := l]> t) (id y))) <$>
              applied_directly t x)
    = sumZ ((λ y, net (applied n t (id y))) <$> applied_directly t x)
      + sumZ ((λ y, paths n t (id y) s) <$> applied_directly t x)
        * (sign (kind l) * amount_minor l)) as Hsum.
  { clear Hleaf. induction (applied_directly t x) as [|y ys IHy]; [done|].
    csimpl. rewrite !sumZ_cons, IH, IHy. lia. }
  assert (∀ f : PaymentLedger → Z,
    sumZ (f <$> applied_directly (<[id l := l]> t) x)
    = (if decide (s = x) then f l else 0)
      + sumZ (f <$> applied_directly t x)) as Hdir.
  { intros f. rewrite applied_directly_insert by done.
    rewrite Hs, fmap_app, sumZ_app. destruct (decide (s = x)) as [->|Hsx].
    - rewrite decide_True by done. unfold sumZ. csimpl. lia.
    - rewrite decide_False by congruence. unfold sumZ. csimpl. lia. }
  unfold net at 1. rewrite !Hdir, Hsum, Hleaf. fold (net (applied_directly t x)).
  destruct (decide (s = x)) as [->|Hsx].
  - rewrite decide_True by done. lia.
  - rewrite (decide_False (P := x = s)) by congruence. lia.
Qed.

(** Money only moves below: no path leads from a line to one that is not
    deeper. *)
Lemma paths_up t x y lx ly n :
  wf t → t !! x = Some lx → t !! y = Some ly →
  (rank (kind ly) ≤ rank (kind lx))%nat → x ≠ y → paths n t x y = 0.
Proof.
  intros Hwf Hx Hy. revert x lx Hx. induction n as [|n IH]; intros x lx Hx Hr Hne; [done|].
  simpl. rewrite decide_False by done.
  assert (∀ z, z ∈ applied_directly t x → paths n t (id z) y = 0) as Hz.
  { intros z Hz. destruct (direct_child t x lx z Hwf Hx Hz) as (Htz & Hrz & _).
    apply (IH (id z) z); [done|lia|]. intros Hid. rewrite Hid, Hy in Htz.
    injection Htz as ->. lia. }
  by rewrite (sumZ_zero (λ l, paths n t (id l) _)).
Qed.

Lemma paths_self t x lx n :
  wf t → t !! x = Some lx → paths (S n) t x x = 1.
Proof.
  intros Hwf Hx. simpl. rewrite decide_True by done.
  assert (∀ z, z ∈ applied_directly t x → paths n t (id z) x = 0) as Hz.
  { intros z Hz. destruct (direct_child t x lx z Hwf Hx Hz) as (Htz & Hrz & _).
    apply (paths_up t (id z) x z lx); [done..|lia|].
    intros Hid. rewrite Hid, Hx in Htz. injection Htz as ->. lia. }
  by rewrite (sumZ_zero (λ l, paths n t (id l) _)).
Qed.

(** An assignment's key is nobody's id, so no path starts or passes there. *)
Lemma paths_assignment t x lx a n :
  wf t → t !! x = Some lx → paths n t x (assignment_key a) = 0.
Proof.
  intros Hwf. revert x lx. induction n as [|n IH]; intros x lx Hx; [done|]. simpl.
  destruct (wf_key _ Hwf _ _ Hx) as (k & Hk & Hsp).
  rewrite decide_False by (by rewrite <-Hsp; apply spell_not_assignment).
  assert (∀ z, z ∈ applied_directly t x → paths n t (id z) (assignment_key a) = 0) as Hz.
  { intros z Hz. destruct (direct_child t x lx z Hwf Hx Hz) as (Htz & _). by eapply IH. }
  by rewrite (sumZ_zero (λ l, paths n t (id l) _)).
Qed.
End Invariant.

(** ** Every operation keeps the ledger well formed *)

Section Operations.
Context `{UuidText}.

Lemma refunded_insert t l x s :
  wf t → t !! id l = None → (∃ k, key_ok k ∧ spell k = id l) →
  source l = Some s → s ≠ id l →
  refunded (<[id l := l]> t) x
    = refunded t x - paths APPLIED_DEPTH t x s * (sign (kind l) * amount_minor l).
Proof. intros. unfold refunded. rewrite (net_applied_insert t l _ x s) by done. lia. Qed.

Lemma refunded_leaf t i :
  wf t → t !! i = None → (∃ k, key_ok k ∧ spell k = i) → refunded t i = 0.
Proof.
  intros Hwf Hi Hk. unfold refunded. by rewrite applied_nil by by apply fresh_has_no_children.
Qed.

(** What a line must satisfy to join the table. *)
Record joins (t : table) (l : PaymentLedger) : Prop := {
  joins_key : ∃ k, key_ok k ∧ spell k = id l;
  joins_amount : amount_ok (amount_minor l);
  joins_charge : kind l = Charge → ∃ a, source l = Some (assignment_key a);
  joins_source : kind l ≠ Charge →
    ∃ p, source l = Some (id p) ∧ t !! id p = Some p
         ∧ may_target (kind l) (kind p) = true ∧ student l = student p
         ∧ (kind l = Reversal → id l = for_reversal (id p) ∧ amount_minor l = amount_minor p)
         ∧ (kind l = Refund → refunded t (id p) + amount_minor l ≤ amount_minor p);
}.

Lemma joins_sourced t l :
  wf t → t !! id l = None → joins t l → ∃ s, source l = Some s ∧ s ≠ id l.
Proof.
  intros Hwf Hl [Hk _ Hc Hs]. destruct (decide (kind l = Charge)) as [E|E].
  - destruct (Hc E) as [a Ha]. exists (assignment_key a). split; [done|].
    destruct Hk as (k & Hok & <-). intros Heq. by apply (spell_not_assignment k a Hok).
  - destruct (Hs E) as (p & Hp & Htp & _). exists (id p). split; [done|]. congruence.
Qed.

(** The refund cap after a line joined. *)
Lemma refunds_capped t l x lx :
  wf t → t !! id l = None → joins t l →
  t !! x = Some lx → kind lx = Credit →
  refunded (<[id l := l]> t) x ≤ amount_minor lx.
Proof.
  intros Hwf Hl Hj Hx Hcr. pose proof (wf_refunds _ Hwf _ _ Hx Hcr) as Hcap.
  destruct (joins_sourced t l Hwf Hl Hj) as (s & Hs & Hne).
  destruct Hj as [Hk Ha Hc Hsrc]. rewrite (refunded_insert t l x s) by done.
  pose proof (paths_nonneg APPLIED_DEPTH t x s) as Hp. unfold amount_ok in Ha.
  destruct (kind l) eqn:Hkind; cbn [sign].
  - destruct (Hc eq_refl) as [a Has]. rewrite Hs in Has. injection Has as ->.
    rewrite (paths_assignment t x lx) by done. lia.
  - assert (0 ≤ paths APPLIED_DEPTH t x s * (1 * amount_minor l)) by
      (apply Z.mul_nonneg_nonneg; lia). lia.
  - assert (0 ≤ paths APPLIED_DEPTH t x s * (1 * amount_minor l)) by
      (apply Z.mul_nonneg_nonneg; lia). lia.
  - destruct (Hsrc ltac:(done)) as (p & Hp' & Htp & Hm & _ & _ & Hroom).
    rewrite Hs in Hp'. injection Hp' as ->. specialize (Hroom eq_refl).
    assert (kind p = Credit) as Hkp by (destruct (kind p); done).
    destruct (decide (x = id p)) as [->|Hxp].
    + unfold APPLIED_DEPTH. rewrite (paths_self t (id p) lx) by done.
      assert (lx = p) as -> by congruence. lia.
    + rewrite (paths_up t x (id p) lx p) by (try done; rewrite Hcr, Hkp; done). lia.
Qed.

Lemma wf_insert t l : wf t → t !! id l = None → joins t l → wf (<[id l := l]> t).
Proof.
  intros Hwf Hl Hj. pose proof Hj as [Hk Ha Hc Hs].
  split; intros i x; rewrite lookup_insert_Some; intros [[<- <-]|[Hne Hi]]; try done.
  - by apply (wf_id _ Hwf).
  - by apply (wf_key _ Hwf _ x).
  - by apply (wf_amount _ Hwf i).
  - by apply (wf_charge _ Hwf i).
  - intros Hx. destruct (Hs Hx) as (p & ? & Hp & ? & ? & ? & _).
    exists p. repeat split_and; try done. rewrite lookup_insert_ne by congruence. done.
  - intros Hx. destruct (wf_source _ Hwf _ _ Hi Hx) as (p & ? & Hp & ? & ? & ?).
    exists p. repeat split_and; try done. rewrite lookup_insert_ne by congruence. done.
  - intros Hcr. assert (refunded (<[id l := l]> t) (id l) = 0) as ->.
    + destruct (joins_sourced t l Hwf Hl Hj) as (s & Hso & Hns).
      rewrite (refunded_insert t l (id l) s) by done.
      rewrite refunded_leaf by done.
      assert (paths APPLIED_DEPTH t (id l) s = 0) as ->; [|lia].
      unfold APPLIED_DEPTH. simpl. rewrite decide_False by done.
      by rewrite fresh_has_no_children.
    + unfold amount_ok in Ha. lia.
  - intros Hcr. by apply (refunds_capped t l i x).
Qed.

Lemma append_wf t l x t' :
  wf t → (t !! id l = None → joins t l) → append l t = Ok (x, t') →
  wf t' ∧ t ⊆ t' ∧ kind x = kind l
  ∧ (t' = t ∧ t !! id l = Some x ∨ t' = <[id l := l]> t ∧ t !! id l = None ∧ x = l).
Proof.
  intros Hwf Hj. unfold append. destruct (t !! id l) as [y|] eqn:E.
  - case_decide; [|done]. intros [= <- <-]. naive_solver.
  - rewrite decide_True by done. intros [= <- <-].
    repeat split_and; [by apply wf_insert; auto|by apply insert_subseteq|done|naive_solver].
Qed.

Lemma applied_ok n t x :
  wf t → Forall (λ l, amount_ok (amount_minor l)) (applied n t x).
Proof.
  intros Hwf. revert x. induction n as [|n IH]; intros x; simpl; [constructor|].
  apply Forall_app_2.
  - apply Forall_forall. intros l [_ Hl]%list_elem_of_filter.
    apply elem_of_rows in Hl; [|done]. by apply (wf_amount _ Hwf (id l)).
  - apply Forall_bind, Forall_forall. intros l _. apply IH.
Qed.

Lemma net_abs ls :
  Forall (λ l, amount_ok (amount_minor l)) ls →
  Z.abs (net ls) ≤ MAX_LEDGER_AMOUNT_MINOR * Z.of_nat (length ls).
Proof.
  induction 1 as [|l ls Hl _ IH]; [done|]. rewrite net_cons. cbn [length].
  unfold amount_ok, MAX_LEDGER_AMOUNT_MINOR in *. destruct (kind l); cbn [sign]; lia.
Qed.

(** What [applied_to] answers: the fold itself, nothing lost to [i64]. *)
Lemma applied_to_ok t x k taken t' :
  wf t → applied_to x k t = Ok (taken, t') →
  t' = t ∧ taken = - sign k * net (applied APPLIED_DEPTH t x)
  ∧ Z.abs taken ≤ 200000000.
Proof.
  intros Hwf. unfold applied_to. rewrite group_lines.
  destruct (MAX_LEDGER_APPLIED_LINES <=? _) eqn:E; [done|].
  apply Z.leb_gt in E. unfold MAX_LEDGER_APPLIED_LINES in E.
  pose proof (applied_ok APPLIED_DEPTH t x Hwf) as Hok.
  pose proof (net_abs _ Hok) as Hn. unfold MAX_LEDGER_AMOUNT_MINOR in Hn.
  rewrite fold_group_net by (try done; lia).
  revert Hn. generalize (net (applied APPLIED_DEPTH t x)). intros z Hn.
  rewrite i64_wrap_id by (destruct k; cbn [sign]; unfold_ints; lia).
  intros [= <- <-]. split; [done|]. destruct k; cbn [sign]; lia.
Qed.

(** The key a client may name: one of [request_key]'s grammar, under the
    target's own id. *)
Definition keyed_ok (target : PaymentLedger) (keyed : option str) : Prop :=
  match keyed with
  | None => True
  | Some i => ∃ m r, validate_request_key r = Ok ()
                     ∧ i = for_request (id target) (marker m) r
  end.

Lemma keyed_key t target keyed u :
  wf t → t !! id target = Some target → keyed_ok target keyed →
  ∃ k, key_ok k ∧ spell k = default (generate u) keyed.
Proof.
  intros Hwf Ht Hk. destruct keyed as [i|]; simpl; [|by exists (KFresh u)].
  destruct Hk as (m & r & Hr & ->). destruct (wf_key _ Hwf _ _ Ht) as (k & Hok & Hsp).
  exists (KRequest k m r). simpl. by rewrite Hsp.
Qed.

(** What is recorded below a charge (or a payment): what [applied_to] compares
    with its amount, in [Z]. *)
Definition covered (t : table) (target : PaymentLedger) : Z :=
  - sign (kind target) * net (applied APPLIED_DEPTH t (id target)).

Definition payment_row (target : PaymentLedger) (kind_ : PaymentLedgerKind) (amount : Z)
    (m n keyed : option str) (by_ : uuid) (now_ : Z) (u : uuid) : PaymentLedger :=
  MkPaymentLedger (default (generate u) keyed) (student target) kind_
    amount (Some (id target)) None m n by_ now_.

(** The two ways a payment commits: the line its key already owns, or a new one
    whose money still fits the target. *)
Lemma against_tx_inv t target kind_ over reversed amount m n keyed by_ now_ u l t' :
  wf t → amount_ok amount →
  against_tx target kind_ over reversed amount m n keyed by_ now_ u t = Ok (l, t') →
  (t' = t ∧ keyed = Some (id l) ∧ t !! id l = Some l
     ∧ amount_minor l = amount ∧ source l = Some (id target))
  ∨ ((∀ i, keyed = Some i → t !! i = None)
     ∧ covered t target + amount ≤ amount_minor target
     ∧ append (payment_row target kind_ amount m n keyed by_ now_ u) t = Ok (l, t')).
Proof.
  intros Hwf Ha. unfold against_tx, lock_for_cap. rewrite tx_bind_gets, tx_bind_ok.
  intros (r & t1 & Er & Hrun).
  assert (t1 = t ∧ match r with
            | Some x => ∃ i, keyed = Some i ∧ t !! i = Some x
            | None => ∀ i, keyed = Some i → t !! i = None end) as [-> Hr].
  { destruct keyed as [i|]; [|by injection Er as <- <-].
    unfold read in Er. apply gets_ok in Er as [-> ->]. split; [done|].
    destruct (t !! i) eqn:E; naive_solver. }
  clear Er. destruct r as [x|].
  - left. revert Hrun. destruct (_ || _) eqn:Emis; [done|]. intros [= -> ->].
    apply orb_false_iff in Emis as [Eam%negb_false_iff Esrc%negb_false_iff].
    apply bool_decide_eq_true in Eam, Esrc. destruct Hr as (i & -> & Hi).
    by rewrite (wf_id _ Hwf _ _ Hi).
  - right. apply tx_bind_ok in Hrun as (taken & t1 & Eap & Hrun).
    destruct (applied_to_ok _ _ _ _ _ Hwf Eap) as (-> & Htaken & Hbound).
    destruct (_ <? _) eqn:Ecap.
    { exfalso. destruct reversed; [|done]. unfold read in Hrun.
      rewrite tx_bind_gets in Hrun. by case_match. }
    apply Z.ltb_ge in Ecap. unfold amount_ok, MAX_LEDGER_AMOUNT_MINOR in Ha.
    unfold i64_saturating_add in Ecap. rewrite i64_clamp_id in Ecap by (unfold_ints; lia).
    split_and!; [done| |done]. unfold covered. lia.
Qed.

Lemma payment_joins t target kind_ amount m n keyed by_ now_ u :
  wf t → t !! id target = Some target → amount_ok amount →
  may_target kind_ (kind target) = true → kind_ ≠ Reversal → keyed_ok target keyed →
  covered t target + amount ≤ amount_minor target →
  joins t (payment_row target kind_ amount m n keyed by_ now_ u).
Proof.
  intros Hwf Ht Ha Hm Hnr Hk Hroom. split; cbn.
  - by apply (keyed_key t target).
  - done.
  - intros ->. by destruct (kind target).
  - intros _. exists target. split_and!; try done.
    intros ->. assert (kind target = Credit) as Hkt by (destruct (kind target); done).
    unfold refunded. unfold covered in Hroom. rewrite Hkt in Hroom. cbn [sign] in Hroom. lia.
Qed.

Lemma covered_insert t target l :
  wf t → t !! id target = Some target → t !! id l = None →
  (∃ k, key_ok k ∧ spell k = id l) → source l = Some (id target) →
  may_target (kind l) (kind target) = true → kind l ≠ Reversal →
  covered (<[id l := l]> t) target = covered t target + amount_minor l.
Proof.
  intros Hwf Ht Hl Hk Hs Hm Hr. unfold covered.
  rewrite (net_applied_insert t l _ _ (id target)) by (try done; congruence).
  unfold APPLIED_DEPTH. rewrite (paths_self t (id target) target) by done.
  destruct (kind l), (kind target); try done; cbn [sign]; lia.
Qed.
End Operations.
