(* ===== verification/Tally.v ===== *)
(** * Counters that count rows

    Several tables carry a count of the rows of another: a section its live
    members, a course the sections that teach it, an instance its roster. The
    code moves each in the statement that moves the row. A counter [n] tallies
    [rows] when it holds, at every key it has, the number of rows that point
    there; the lemmas say what an insert, a delete, an update and a sweep of the
    rows owe the counter. *)

From S2P Require Import Prelude.
Open Scope Z_scope.

(** [c + 1], and [GREATEST(c - 1, 0)]. *)
Definition bumped (c : Z) : Z := c + 1.
Definition given_back (c : Z) : Z := Z.max (c - 1) 0.

(** [UPDATE … WHERE id IN (…)]: each row named once. *)
Definition update_in `{Countable K} {V} (ids : gset K) (f : V → V) (m : gmap K V) : gmap K V :=
  map_imap (λ i v, Some (if decide (i ∈ ids) then f v else v)) m.

Lemma lookup_update_in `{Countable K} {V} (ids : gset K) (f : V → V) (m : gmap K V) i :
  update_in ids f m !! i = if decide (i ∈ ids) then f <$> m !! i else m !! i.
Proof. unfold update_in. rewrite map_lookup_imap. case_decide; by destruct (m !! i). Qed.

Lemma dom_update_in `{Countable K} {V} (ids : gset K) (f : V → V) (m : gmap K V) :
  dom (update_in ids f m) = dom m.
Proof.
  apply set_eq. intros i. rewrite !elem_of_dom, lookup_update_in. case_decide; [|done].
  by rewrite fmap_is_Some.
Qed.

Lemma dom_alter_row `{Countable K} {V} (f : V → V) (m : gmap K V) i : dom (alter f i m) = dom m.
Proof. apply dom_alter_L. Qed.

(** A column the update does not write, and the one it does. *)
Lemma column_same `{Countable K} {V W} (h : V → W) (f : V → V) (m : gmap K V) i :
  (∀ v, h (f v) = h v) → h <$> alter f i m = h <$> m.
Proof.
  intros Hf. apply map_eq. intros j. rewrite !lookup_fmap, lookup_alter. case_decide as E; [|done].
  subst. destruct (m !! j); [|done]. simpl. by rewrite Hf.
Qed.
Lemma column_moves `{Countable K} {V W} (h : V → W) (f : V → V) (g : W → W) (m : gmap K V) i :
  (∀ v, h (f v) = g (h v)) → h <$> alter f i m = alter g i (h <$> m).
Proof. intros Hf. apply fmap_alter. auto. Qed.
Lemma column_same_in `{Countable K} {V W} (h : V → W) (f : V → V) (m : gmap K V) ids :
  (∀ v, h (f v) = h v) → h <$> update_in ids f m = h <$> m.
Proof.
  intros Hf. apply map_eq. intros j. rewrite !lookup_fmap, lookup_update_in. case_decide as E; [|done].
  destruct (m !! j); [|done]. simpl. by rewrite Hf.
Qed.
Lemma column_moves_in `{Countable K} {V W} (h : V → W) (f : V → V) (g : W → W) (m : gmap K V) ids :
  (∀ v, h (f v) = g (h v)) → h <$> update_in ids f m = update_in ids g (h <$> m).
Proof.
  intros Hf. apply map_eq. intros j. rewrite lookup_fmap, !lookup_update_in, lookup_fmap.
  case_decide as E; [|done]. destruct (m !! j); [|done]. simpl. by rewrite Hf.
Qed.
Lemma column_same_all `{Countable K} {V W} (h : V → W) (f : V → V) (m : gmap K V) :
  (∀ v, h (f v) = h v) → h <$> (f <$> m) = h <$> m.
Proof. intros Hf. rewrite <- map_fmap_compose. apply map_fmap_ext. intros; apply Hf. Qed.
Lemma column_put `{Countable K} {V W} (h : V → W) (m : gmap K V) i v :
  h <$> m !! i = Some (h v) → h <$> <[i := v]> m = h <$> m.
Proof.
  intros Hi. apply map_eq. intros j. rewrite !lookup_fmap, lookup_insert.
  case_decide as E; [|done]. subst. by rewrite Hi.
Qed.

Section Tally.
Context `{Countable K, Countable J} {A : Type}.
Variable key : J * A → option K.
Implicit Types (rows : gmap J A) (n : gmap K Z).

Definition tallied (rows : gmap J A) (k : K) : Z := count (λ p, key p = Some k) rows.

Definition tallies (n : gmap K Z) (rows : gmap J A) : Prop :=
  ∀ k c, n !! k = Some c → c = tallied rows k.

Lemma tallied_nonneg rows k : 0 ≤ tallied rows k.
Proof. apply count_nonneg. Qed.

Lemma tallied_insert rows j a k :
  rows !! j = None →
  tallied (<[j := a]> rows) k = tallied rows k + if decide (key (j, a) = Some k) then 1 else 0.
Proof. intros Hj. unfold tallied. by rewrite count_insert_fresh. Qed.

Lemma tallied_delete rows j a k :
  rows !! j = Some a →
  tallied (delete j rows) k = tallied rows k - if decide (key (j, a) = Some k) then 1 else 0.
Proof. intros Hj. unfold tallied. rewrite (count_delete _ rows j a) by done. lia. Qed.

Lemma tallied_update rows j a a' k :
  rows !! j = Some a →
  tallied (<[j := a']> rows) k = tallied rows k
    - (if decide (key (j, a) = Some k) then 1 else 0) + (if decide (key (j, a') = Some k) then 1 else 0).
Proof.
  intros Hj. unfold tallied. rewrite count_insert, (count_delete _ rows j a) by done. lia.
Qed.

(** A row that still points where it did. *)
Lemma tallied_same rows j a a' k :
  rows !! j = Some a → key (j, a') = key (j, a) → tallied (<[j := a']> rows) k = tallied rows k.
Proof. intros Hj Hk. rewrite (tallied_update rows j a) by done. rewrite Hk. lia. Qed.

Lemma tallied_0 rows k : tallied rows k = 0 ↔ ∀ j a, rows !! j = Some a → key (j, a) ≠ Some k.
Proof. unfold tallied. by rewrite count_0. Qed.

Lemma tallied_pos rows j a k : rows !! j = Some a → key (j, a) = Some k → 1 ≤ tallied rows k.
Proof.
  intros Hj Hk. pose proof (tallied_nonneg rows k) as Hpos.
  assert (tallied rows k ≠ 0) as Hne by (intros E; exact (proj1 (tallied_0 rows k) E _ _ Hj Hk)). lia.
Qed.

(** Rows that all point where they did. *)
Lemma tallied_frame rows rows' k :
  (∀ j, rows' !! j ≫= (λ a, key (j, a)) = rows !! j ≫= (λ a, key (j, a))) →
  tallied rows' k = tallied rows k.
Proof.
  intros E. unfold tallied, count. rewrite <- !size_dom.
  assert (dom (filter (λ p, key p = Some k) rows') = dom (filter (λ p, key p = Some k) rows)) as ->; [|done].
  apply set_eq. intros j. rewrite !elem_of_dom. unfold is_Some.
  setoid_rewrite map_lookup_filter_Some. specialize (E j).
  assert (∀ r : gmap J A, (∃ x, r !! j = Some x ∧ key (j, x) = Some k) ↔ r !! j ≫= (λ a, key (j, a)) = Some k) as Hr.
  { intros r. destruct (r !! j); simpl; naive_solver. }
  rewrite !Hr. by rewrite E.
Qed.

(** ** What a write owes the counter *)

Lemma tallies_frame n n' rows :
  (∀ k, n' !! k = n !! k) → tallies n rows → tallies n' rows.
Proof. intros E Ht k c. rewrite E. apply Ht. Qed.

Lemma tallies_rows n rows rows' :
  (∀ j, rows' !! j ≫= (λ a, key (j, a)) = rows !! j ≫= (λ a, key (j, a))) →
  tallies n rows → tallies n rows'.
Proof. intros E Ht k c Hc. rewrite (tallied_frame rows rows') by done. by apply Ht. Qed.

Lemma tallies_bump n rows j a k :
  rows !! j = None → key (j, a) = Some k → tallies n rows →
  tallies (alter bumped k n) (<[j := a]> rows).
Proof.
  intros Hj Hk Ht k' c Hc. rewrite tallied_insert, Hk by done.
  destruct (decide (k = k')) as [<-|Hne].
  - rewrite lookup_alter_eq in Hc. apply fmap_Some in Hc as (c0 & Hc0 & ->).
    rewrite (Ht _ _ Hc0), decide_True by done. reflexivity.
  - rewrite lookup_alter_ne in Hc by done. rewrite (Ht _ _ Hc), decide_False by congruence. lia.
Qed.

Lemma tallies_give_back n rows j a k :
  rows !! j = Some a → key (j, a) = Some k → tallies n rows →
  tallies (alter given_back k n) (delete j rows).
Proof.
  intros Hj Hk Ht k' c Hc. rewrite (tallied_delete rows j a), Hk by done.
  destruct (decide (k = k')) as [<-|Hne].
  - rewrite lookup_alter_eq in Hc. apply fmap_Some in Hc as (c0 & Hc0 & ->).
    rewrite (Ht _ _ Hc0), decide_True by done. pose proof (tallied_pos rows j a k Hj Hk).
    unfold given_back. lia.
  - rewrite lookup_alter_ne in Hc by done. rewrite (Ht _ _ Hc), decide_False by congruence. lia.
Qed.

(** A row that stops pointing anywhere. *)
Lemma tallies_retire n rows j a a' k :
  rows !! j = Some a → key (j, a) = Some k → key (j, a') = None → tallies n rows →
  tallies (alter given_back k n) (<[j := a']> rows).
Proof.
  intros Hj Hk Hk' Ht k' c Hc. rewrite (tallied_update rows j a), Hk, Hk' by done.
  rewrite (decide_False (P := None = Some k')) by done.
  destruct (decide (k = k')) as [<-|Hne].
  - rewrite lookup_alter_eq in Hc. apply fmap_Some in Hc as (c0 & Hc0 & ->).
    rewrite (Ht _ _ Hc0), decide_True by done. pose proof (tallied_pos rows j a k Hj Hk).
    unfold given_back. lia.
  - rewrite lookup_alter_ne in Hc by done. rewrite (Ht _ _ Hc), decide_False by congruence. lia.
Qed.

Lemma tallies_same n rows j a a' :
  rows !! j = Some a → key (j, a') = key (j, a) → tallies n rows → tallies n (<[j := a']> rows).
Proof. intros Hj Hk Ht k c Hc. rewrite (tallied_same rows j a) by done. by apply Ht. Qed.

Lemma tallies_silent n rows j a :
  rows !! j = None → key (j, a) = None → tallies n rows → tallies n (<[j := a]> rows).
Proof.
  intros Hj Hk Ht k c Hc. rewrite tallied_insert, Hk by done.
  rewrite decide_False by done. rewrite (Ht _ _ Hc). lia.
Qed.

(** A counter that is born, with no row pointing at it yet, and one that goes. *)
Lemma tallies_born n rows k :
  (∀ j a, rows !! j = Some a → key (j, a) ≠ Some k) → tallies n rows → tallies (<[k := 0]> n) rows.
Proof.
  intros Hno Ht k' c [[<- <-]|[Hne Hc]]%lookup_insert_Some; [|by apply Ht].
  symmetry. by apply tallied_0.
Qed.

Lemma tallies_gone n rows k : tallies n rows → tallies (delete k n) rows.
Proof. intros Ht k' c [_ Hc]%lookup_delete_Some. by apply Ht. Qed.

(** Rows that go without counting. *)
Lemma tallies_untouched n rows j : rows !! j ≫= (λ a, key (j, a)) = None → tallies n rows → tallies n (delete j rows).
Proof.
  intros Hj. apply tallies_rows. intros j'. rewrite lookup_delete. case_decide as E; [by subst|done].
Qed.

(** A row whatever it points at, in and out. *)
Definition at_key (f : Z → Z) (k : option K) (n : gmap K Z) : gmap K Z :=
  match k with Some k => alter f k n | None => n end.

Lemma tallies_in n rows j a :
  rows !! j = None → tallies n rows → tallies (at_key bumped (key (j, a)) n) (<[j := a]> rows).
Proof. intros Hj Ht. destruct (key (j, a)) eqn:Hk; [by apply tallies_bump|by apply tallies_silent]. Qed.

Lemma tallies_out n rows j a :
  rows !! j = Some a → tallies n rows → tallies (at_key given_back (key (j, a)) n) (delete j rows).
Proof.
  intros Hj Ht. destruct (key (j, a)) eqn:Hk; [by eapply tallies_give_back|].
  apply tallies_untouched; [by rewrite Hj|done].
Qed.

(** The rows of a counter that goes. *)
Lemma tallies_cut n rows k (P : J * A → Prop) `{!∀ p, Decision (P p)} :
  (∀ j a k', rows !! j = Some a → ¬ P (j, a) → key (j, a) = Some k' → k = k') →
  tallies n rows → tallies (delete k n) (filter P rows).
Proof.
  intros HP Ht k' c [Hne Hc]%lookup_delete_Some. rewrite (Ht _ _ Hc). unfold tallied. symmetry.
  apply count_ext. rewrite map_filter_filter. apply map_filter_ext. intros j a Hj. split; [tauto|].
  intros Hk. split; [done|]. destruct (decide (P (j, a))) as [|Hn]; [done|]. destruct Hne. exact (HP j a k' Hj Hn Hk).
Qed.

Lemma tallied_filter_le (P : J * A → Prop) `{!∀ p, Decision (P p)} rows k : tallied (filter P rows) k ≤ tallied rows k.
Proof.
  unfold tallied, count. rewrite map_filter_filter. apply Nat2Z.inj_le, map_subseteq_size.
  apply map_filter_subseteq_ext. tauto.
Qed.

(** Rows that go, none of them under a counter that stays. *)
Lemma tallies_keep n n' rows (P : J * A → Prop) `{!∀ p, Decision (P p)} :
  (∀ k c, n' !! k = Some c → n !! k = Some c ∧ ∀ j a, rows !! j = Some a → key (j, a) = Some k → P (j, a)) →
  tallies n rows → tallies n' (filter P rows).
Proof.
  intros HP Ht k c Hc. destruct (HP k c Hc) as [Hn Hk]. rewrite (Ht _ _ Hn). unfold tallied. symmetry.
  apply count_ext. rewrite map_filter_filter. apply map_filter_ext. intros j a Hj. split; [tauto|eauto].
Qed.

(** ** A sweep: some rows go, or stop counting, at most one under each key *)

Lemma count_halves (P Q : J * A → Prop) `{!∀ p, Decision (P p), !∀ p, Decision (Q p)} rows :
  count P rows = count (λ p, P p ∧ Q p) rows + count (λ p, P p ∧ ¬ Q p) rows.
Proof.
  induction rows as [|j a rows Hj IH] using map_ind; [done|].
  rewrite !count_insert_fresh, IH by done. repeat case_decide; naive_solver lia.
Qed.

Variable gone : J * A → Prop.
Context `{!∀ p, Decision (gone p)}.

Definition swept_key (rows : gmap J A) (k : K) : Prop :=
  ∃ j a, rows !! j = Some a ∧ gone (j, a) ∧ key (j, a) = Some k.

Lemma count_gone rows k :
  (∀ j a j' a', rows !! j = Some a → rows !! j' = Some a' → gone (j, a) → gone (j', a') →
     key (j, a) = Some k → key (j', a') = Some k → j = j') →
  count (λ p, key p = Some k ∧ gone p) rows = 1 ∧ swept_key rows k
  ∨ count (λ p, key p = Some k ∧ gone p) rows = 0 ∧ ¬ swept_key rows k.
Proof.
  intros Huniq. destruct (decide (count (λ p, key p = Some k ∧ gone p) rows = 0)) as [Hz|Hz].
  - right. split; [done|]. intros (j & a & Hj & Hg & Hk). by apply (proj1 (count_0 _ _) Hz j a Hj).
  - left. unfold count in *. set (m := filter (λ p, key p = Some k ∧ gone p) rows) in *.
    destruct (map_choose m) as (j & a & Hja); [intros Hm; by rewrite Hm in Hz|].
    pose proof (proj1 (map_lookup_filter_Some _ _ _ _) Hja) as [Hj [Hk Hg]].
    split; [|by exists j, a]. assert (m = {[j := a]}) as ->; [|by rewrite map_size_singleton].
    apply map_eq. intros j'. destruct (m !! j') as [a'|] eqn:Hj'.
    + pose proof (proj1 (map_lookup_filter_Some _ _ _ _) Hj') as [Hr [Hk' Hg']].
      assert (j = j') as <- by by eapply Huniq.
      rewrite lookup_singleton_eq. congruence.
    + symmetry. apply lookup_singleton_None. intros <-. congruence.
Qed.

Lemma tallied_sweep rows k : 
  tallied (filter (λ p, ¬ gone p) rows) k = tallied rows k - count (λ p, key p = Some k ∧ gone p) rows.
Proof.
  unfold tallied. rewrite (count_halves (λ p, key p = Some k) gone rows).
  assert (count (λ p, key p = Some k) (filter (λ p, ¬ gone p) rows)
          = count (λ p, key p = Some k ∧ ¬ gone p) rows) as ->; [|lia].
  apply count_ext. rewrite map_filter_filter. apply map_filter_ext. naive_solver.
Qed.

Lemma tallied_stamp rows (f : A → A) k :
  (∀ j a, rows !! j = Some a → key (j, f a) = if decide (gone (j, a)) then None else key (j, a)) →
  tallied (f <$> rows) k = tallied rows k - count (λ p, key p = Some k ∧ gone p) rows.
Proof.
  intros Hf. unfold tallied. rewrite (count_halves (λ p, key p = Some k) gone rows).
  induction rows as [|j a rows Hj IH] using map_ind; [done|].
  rewrite fmap_insert, !count_insert_fresh by (by rewrite ?lookup_fmap, ?Hj).
  pose proof (Hf j a (lookup_insert_eq _ _ _)) as Hja.
  rewrite Hja. specialize (IH ltac:(intros j' a' Hj'; apply Hf; rewrite lookup_insert_ne; congruence)).
  repeat case_decide; naive_solver lia.
Qed.

(** The counters give back one each, under the keys of the rows that went. *)
Lemma tallies_sweep n rows rows' (ids : gset K) :
  (∀ k j a j' a', rows !! j = Some a → rows !! j' = Some a' → gone (j, a) → gone (j', a') →
     key (j, a) = Some k → key (j', a') = Some k → j = j') →
  (∀ k, k ∈ ids ↔ swept_key rows k) →
  (∀ k, tallied rows' k = tallied rows k - count (λ p, key p = Some k ∧ gone p) rows) →
  tallies n rows → tallies (update_in ids given_back n) rows'.
Proof.
  intros Huniq Hids Hrows Ht k c. rewrite lookup_update_in, Hrows. unfold given_back.
  destruct (count_gone rows k ltac:(eauto)) as [[-> Hs]|[-> Hs]]; rewrite <- Hids in Hs.
  - rewrite decide_True by done. intros (c0 & Hc0 & ->)%fmap_Some. rewrite (Ht _ _ Hc0).
    apply Hids in Hs as (j & a & Hj & _ & Hk). pose proof (tallied_pos rows j a k Hj Hk). lia.
  - rewrite decide_False by done. intros Hc. rewrite (Ht _ _ Hc). lia.
Qed.
End Tally.
