(* ===== verification/PaymentProofs.v ===== *)
(** * What the fee ledger promises

    The theorems about [Payments]: the id grammar is unambiguous, the recursion
    under the cap is complete and its locks serialize a payment's whole tree,
    every workflow keeps the ledger well formed under any interference, a retry
    of a keyed payment answers the line it already wrote, and a reversed charge
    takes no more money. *)

From S2P Require Import Prelude Text Errors Effects Uuid Validate Ledger Payments.
Open Scope Z_scope.

(** ** The id grammar *)

Section Grammar.
Context `{UuidText}.

(** Texts joined by ['_'], every one of them free of it. *)
Fixpoint join (first : str) (rest : list str) : str :=
  match rest with
  | [] => first
  | s :: rest => first ++ 95%N :: join s rest
  end.

Definition plain (s : str) : Prop := (95%N : char) ∉ s.

Lemma join_app a xs b ys :
  join a (xs ++ b :: ys) = join a xs ++ 95%N :: join b ys.
Proof.
  revert a. induction xs as [|x xs IH]; intros a; simpl; [done|].
  rewrite IH. by rewrite <-app_assoc.
Qed.

Lemma plain_split a b (s t : str) :
  plain a → plain b → a ++ 95%N :: s = b ++ 95%N :: t → a = b ∧ s = t.
Proof.
  intros Ha Hb E. pose proof (split_once_app 95%N a s Ha) as Hs.
  rewrite E, split_once_app in Hs by done. by injection Hs as -> ->.
Qed.

Lemma join_inj a xs b ys :
  plain a → Forall plain xs → plain b → Forall plain ys →
  join a xs = join b ys → a = b ∧ xs = ys.
Proof.
  intros Ha Hxs Hb Hys. revert a b ys Ha Hb Hys.
  induction Hxs as [|x xs Hx _ IH]; intros a b [|y ys] Ha Hb Hys E; simpl in E.
  - done.
  - subst a. destruct Ha. apply elem_of_app. right. by constructor.
  - subst b. destruct Hb. apply elem_of_app. right. by constructor.
  - apply Forall_cons in Hys as [Hy Hys].
    apply plain_split in E as [-> E]; [|done..].
    by destruct (IH x y ys Hx Hy Hys E) as [-> ->].
Qed.

(** A key read from the left: its base, then its suffixes. *)
Fixpoint base (k : key) : uuid + FeePlanAssignmentId * Z :=
  match k with
  | KFresh u => inl u
  | KInstallment a n => inr (a, n)
  | KReversal k | KRequest k _ _ => base k
  end.

Fixpoint suffixes (k : key) : list (option (bool * str)) :=
  match k with
  | KFresh _ | KInstallment _ _ => []
  | KReversal k => suffixes k ++ [None]
  | KRequest k m r => suffixes k ++ [Some (m, r)]
  end.

Definition base_first (b : uuid + FeePlanAssignmentId * Z) : str :=
  match b with inl u => uuid_text u | inr (a, _) => uuid_text (plan a) end.
Definition base_rest (b : uuid + FeePlanAssignmentId * Z) : list str :=
  match b with
  | inl _ => []
  | inr (a, n) => [uuid_text (assignee a); lit "c" ++ show_int n]
  end.
Definition suffix_texts (s : option (bool * str)) : list str :=
  match s with
  | None => [lit "r"]
  | Some (m, r) => [marker m; r]
  end.

Definition texts (k : key) : list str :=
  base_rest (base k) ++ (suffixes k ≫= suffix_texts).

Lemma spell_join k : spell k = join (base_first (base k)) (texts k).
Proof.
  induction k as [u|a n|k IH|k IH m r].
  - done.
  - change (spell (KInstallment a n)) with
      ((uuid_text (plan a) ++ [95%N] ++ uuid_text (assignee a)) ++ [95%N; 99%N] ++ show_int n).
    change (join (base_first (base (KInstallment a n))) (texts (KInstallment a n))) with
      (uuid_text (plan a) ++ 95%N :: (uuid_text (assignee a) ++ 95%N :: 99%N :: show_int n)).
    by rewrite <-!app_assoc.
  - unfold texts in *. cbn [spell base suffixes]. unfold for_reversal.
    rewrite bind_app, IH, (app_assoc (base_rest _)). cbn [mbind list_bind suffix_texts app].
    by rewrite join_app.
  - unfold texts in *. cbn [spell base suffixes]. unfold for_request.
    rewrite bind_app, IH, (app_assoc (base_rest _)). cbn [mbind list_bind suffix_texts app].
    by rewrite join_app.
Qed.

Lemma show_int_plain n : plain (show_int n).
Proof. by apply show_int_no. Qed.

Definition base_ok (b : uuid + FeePlanAssignmentId * Z) : Prop :=
  match b with
  | inl u => uuid_ok u
  | inr (a, _) => uuid_ok (plan a) ∧ uuid_ok (assignee a)
  end.

Definition suffix_ok (s : option (bool * str)) : Prop :=
  match s with None => True | Some (_, r) => validate_request_key r = Ok () end.

Lemma suffixes_ok k : key_ok k → Forall suffix_ok (suffixes k).
Proof.
  induction k as [u|a n|k IH|k IH m r]; simpl; try done.
  - intros Hk. apply Forall_app_2; [auto|by repeat constructor].
  - intros [Hk Hr]. apply Forall_app_2; [auto|by repeat constructor].
Qed.

Lemma texts_plain k : key_ok k → Forall plain (texts k).
Proof.
  intros Hk. unfold texts. apply Forall_app_2.
  - destruct (base k) as [u|[a n]]; simpl; repeat constructor.
    + apply uuid_text_no_underscore.
    + intros Hin. apply elem_of_cons in Hin as [Hin|Hin]; [done|by apply (show_int_plain n)].
  - apply Forall_bind. eapply Forall_impl; [by apply suffixes_ok|].
    intros [[m r]|] Hs; simpl in *; repeat constructor.
    + destruct m; simpl; unfold plain; set_solver.
    + by apply request_key_no_underscore.
    + unfold plain; set_solver.
Qed.

Lemma suffix_texts_inj ss ts :
  ss ≫= suffix_texts = ts ≫= suffix_texts → ss = ts.
Proof.
  revert ts. induction ss as [|s ss IH]; intros [|t ts]; csimpl; intros E.
  - done.
  - by destruct t as [[[] r]|].
  - by destruct s as [[[] r]|].
  - destruct s as [[[] r]|], t as [[[] r']|]; simpl in E; try done;
      injection E; intros; subst; f_equal; auto.
Qed.

(** The first text after the base tells the bases apart: a uuid text is longer
    than any marker. *)
Lemma suffix_texts_head (ss : list (option (bool * str))) x l :
  ss ≫= suffix_texts = x :: l → (length x ≤ 2)%nat.
Proof.
  destruct ss as [|[[[] r]|] ss]; csimpl; try done;
    intros E; injection E as <- _; simpl; lia.
Qed.

Lemma base_suffixes_inj k k' : base k = base k' → suffixes k = suffixes k' → k = k'.
Proof.
  revert k'. induction k as [u|a n|k IH|k IH m r];
    intros [u'|a' n'|k'|k' m' r']; simpl; intros Hb Hs; try congruence;
    try (apply (f_equal length) in Hs; rewrite ?length_app in Hs; simpl in Hs; lia);
    try (apply app_inj_2 in Hs as [Hs E]; [|done]; try done).
  - by rewrite (IH k').
  - injection E as -> ->. by rewrite (IH k').
Qed.

(** The id of a ledger line says exactly where it came from: two different
    ways of making an id (a fresh uuid, an installment of an assignment, the
    reversal of a line, a client's request key under a line and its marker)
    never spell the same text, so an id collision is always a replay of the
    same operation. *)
Theorem spell_inj k k' :
  key_ok k → key_ok k' → base_ok (base k) → base_ok (base k') →
  spell k = spell k' → k = k'.
Proof.
  intros Hk Hk' Hb Hb' E. rewrite !spell_join in E.
  apply join_inj in E as [Hf Ht];
    [|by destruct (base k) as [|[]]; apply uuid_text_no_underscore
     |by apply texts_plain
     |by destruct (base k') as [|[]]; apply uuid_text_no_underscore
     |by apply texts_plain].
  unfold texts in Ht. revert Hf Ht Hb Hb'.
  assert (∀ (ss : list (option (bool * str))) (u : uuid) l,
    ss ≫= suffix_texts ≠ uuid_text u :: l) as Hlong.
  { intros ss u l Hh. apply suffix_texts_head in Hh. rewrite uuid_text_length in Hh; lia. }
  destruct (base k) as [u|[a n]] eqn:Eb, (base k') as [u'|[a' n']] eqn:Eb'; simpl;
    intros Hf Ht Hb Hb'.
  - apply uuid_text_inj in Hf; [|done..]. subst u'. apply suffix_texts_inj in Ht.
    apply base_suffixes_inj; congruence.
  - by apply Hlong in Ht.
  - symmetry in Ht. by apply Hlong in Ht.
  - destruct Hb as [Hp Ha], Hb' as [Hp' Ha'].
    apply uuid_text_inj in Hf; [|done..]. injection Ht as Hu Hn Hss.
    apply uuid_text_inj in Hu; [|done..]. apply show_int_inj in Hn.
    apply suffix_texts_inj in Hss. destruct a, a'. simpl in *. subst.
    apply base_suffixes_inj; congruence.
Qed.
End Grammar.

Lemma spell_inj_witness :
  let k := KRequest (KInstallment (MkAssignmentId 3 5) 0) false (lit "r") in
  spell k = spell k ∧ k = k.
Proof.
  split; [reflexivity|].
  apply (spell_inj (H := hyphenated)); vm_compute; auto.
Defined.

(** ** The recursion below a line *)

Section Tree.
Context `{UuidText}.

(** The specification of [applied]: every line that points, through any number
    of [source]s, at [x]. *)
Inductive below (t : table) (x : str) : PaymentLedger → Prop :=
  | below_direct l : t !! id l = Some l → source l = Some x → below t x l
  | below_step p l : below t x p → t !! id l = Some l → source l = Some (id p) → below t x l.

Lemma elem_of_direct t x l :
  wf t → l ∈ applied_directly t x ↔ source l = Some x ∧ t !! id l = Some l.
Proof.
  intros Hwf. unfold applied_directly.
  by rewrite list_elem_of_filter, elem_of_rows by done.
Qed.

Lemma elem_of_applied_S n t x l :
  l ∈ applied (S n) t x ↔
    l ∈ applied_directly t x ∨ ∃ p, p ∈ applied_directly t x ∧ l ∈ applied n t (id p).
Proof. simpl. rewrite elem_of_app, list_elem_of_bind. naive_solver. Qed.

Lemma rank_le k : (rank k ≤ 3)%nat.
Proof. destruct k; simpl; lia. Qed.

(** Fuel beyond the distance to a reversal changes nothing. *)
Lemma applied_enough t x lx n m :
  wf t → t !! x = Some lx →
  (3 ≤ n + rank (kind lx))%nat → (3 ≤ m + rank (kind lx))%nat →
  applied n t x = applied m t x.
Proof.
  intros Hwf. revert x lx m. induction n as [|n IH]; intros x lx m Hx Hn Hm.
  - pose proof (rank_le (kind lx)). rewrite (applied_nil m t x); [done|].
    destruct (applied_directly t x) as [|y ys] eqn:E; [done|].
    destruct (direct_child t x lx y Hwf Hx) as (_ & Hr & _); [rewrite E; constructor|].
    pose proof (rank_le (kind y)). lia.
  - destruct m as [|m].
    + rewrite (applied_nil (S n) t x); [done|].
      destruct (applied_directly t x) as [|y ys] eqn:E; [done|].
      destruct (direct_child t x lx y Hwf Hx) as (_ & Hr & _); [rewrite E; constructor|].
      pose proof (rank_le (kind y)). lia.
    + simpl. f_equal. assert (∀ y, y ∈ applied_directly t x →
        applied n t (id y) = applied m t (id y)) as Hy.
      { intros y Hy. destruct (direct_child t x lx y Hwf Hx Hy) as (Hty & Hr & _).
        apply (IH (id y) y); [done|lia..]. }
      induction (applied_directly t x) as [|y ys IHy]; [done|]. csimpl.
      rewrite Hy by constructor. f_equal. apply IHy.
      intros z Hz. apply Hy. by constructor.
Qed.

Lemma applied_fuel n t x lx :
  wf t → t !! x = Some lx → (APPLIED_DEPTH ≤ n)%nat →
  applied n t x = applied APPLIED_DEPTH t x.
Proof.
  unfold APPLIED_DEPTH. intros Hwf Hx Hn. apply (applied_enough t x lx); [done..|lia|lia].
Qed.

Lemma applied_below n t x l : wf t → l ∈ applied n t x → below t x l.
Proof.
  intros Hwf. revert x. induction n as [|n IH]; intros x; [by intros ?%elem_of_nil|].
  rewrite elem_of_applied_S. intros [Hl|(p & Hp & Hl)].
  - apply elem_of_direct in Hl as [? ?]; [|done]. by apply below_direct.
  - apply elem_of_direct in Hp as [Hs Htp]; [|done]. apply IH in Hl. clear IH.
    induction Hl as [l Hl Hsl|q l Hq IHq Hl Hsl].
    + apply (below_step t x p); [by apply below_direct|done..].
    + by apply (below_step t x q).
Qed.

Lemma applied_step n t x p l :
  wf t → p ∈ applied n t x → t !! id l = Some l → source l = Some (id p) →
  l ∈ applied (S n) t x.
Proof.
  intros Hwf. revert x. induction n as [|n IH]; intros x; [by intros ?%elem_of_nil|].
  rewrite !elem_of_applied_S. intros [Hp|(q & Hq & Hp)] Hl Hs.
  - right. exists p. split; [done|]. rewrite elem_of_applied_S. left.
    by apply elem_of_direct.
  - right. exists q. split; [done|]. by apply IH.
Qed.

(** A line below another ranks after it. *)
Lemma below_rank t x lx l : wf t → t !! x = Some lx → below t x l → (rank (kind lx) < rank (kind l))%nat.
Proof.
  intros Hwf Hx. induction 1 as [l Hl Hs|p l Hp IH Hl Hs].
  - by destruct (direct_child t x lx l Hwf Hx) as (_ & ? & _); [apply elem_of_direct|].
  - assert (t !! id p = Some p) as Htp by (by inversion Hp).
    destruct (direct_child t (id p) p l Hwf Htp) as (_ & ? & _); [by apply elem_of_direct|lia].
Qed.

(** Two lines a third is below are one below the other. *)
Lemma below_chain t p q l :
  wf t → t !! id p = Some p → t !! id q = Some q → below t (id p) l → below t (id q) l →
  p = q ∨ below t (id p) q ∨ below t (id q) p.
Proof.
  intros Hwf Hp Hq H1. induction H1 as [l Hl Hs|r l Hr IH Hl Hs]; intros H2.
  - inversion H2 as [? _ Hs'|r ? Hr _ Hs']; subst.
    + left. congruence.
    + right. right. assert (t !! id r = Some r) as Htr by (by inversion Hr). assert (r = p) as <- by congruence. done.
  - assert (t !! id r = Some r) as Htr by (by inversion Hr).
    inversion H2 as [? _ Hs'|r' ? Hr' _ Hs']; subst.
    + right. left. assert (r = q) as <- by congruence. done.
    + assert (t !! id r' = Some r') as Htr' by (by inversion Hr'). assert (r = r') as <- by congruence. by apply IH.
Qed.

Lemma siblings_apart t x lx p l :
  wf t → t !! x = Some lx → p ∈ applied_directly t x → l ∈ applied_directly t x → ¬ below t (id p) l.
Proof.
  intros Hwf Hx Hp Hl Hb. destruct (direct_child t x lx p Hwf Hx Hp) as (Htp & Hrp & _).
  apply elem_of_direct in Hl as [Hs Htl]; [|done]. inversion Hb as [? _ Hs'|r ? Hr _ Hs']; subst.
  - assert (lx = p) as -> by congruence. lia.
  - assert (t !! id r = Some r) as Htr by (by inversion Hr). assert (lx = r) as -> by congruence.
    pose proof (below_rank t (id p) p r Hwf Htp Hr). lia.
Qed.

Lemma NoDup_rows t : wf t → NoDup (rows t).
Proof.
  intros Hwf. unfold rows. apply (NoDup_fmap_1 id).
  assert (id <$> (map_to_list t).*2 = (map_to_list t).*1) as ->; [|apply NoDup_fst_map_to_list].
  rewrite <- list_fmap_compose. apply list_fmap_ext. intros k [i l] Hin. simpl.
  apply list_elem_of_lookup_2, elem_of_map_to_list in Hin. by apply (wf_id _ Hwf).
Qed.

Lemma applied_nodup n t x lx : wf t → t !! x = Some lx → NoDup (applied n t x).
Proof.
  intros Hwf. revert x lx. induction n as [|n IH]; intros x lx Hx; [constructor|]. simpl.
  assert (NoDup (applied_directly t x)) as Hlevel by (apply NoDup_filter, NoDup_rows, Hwf).
  apply NoDup_app. split; [done|]. split.
  - intros l Hl (p & Hlp & Hp)%list_elem_of_bind. by apply (siblings_apart t x lx p l), (applied_below n).
  - apply NoDup_bind; [|intros p Hp; by eapply IH, (direct_child t x lx p)|done].
    intros p q l Hp Hq Hlp%applied_below Hlq%applied_below; [|done..].
    destruct (direct_child t x lx p Hwf Hx Hp) as (Htp & _). destruct (direct_child t x lx q Hwf Hx Hq) as (Htq & _).
    destruct (below_chain t p q l Hwf Htp Htq Hlp Hlq) as [|[Hb|Hb]]; [done|..]; by apply (siblings_apart t x lx) in Hb.
Qed.

(** C38. The lines a cap is folded over are exactly the lines below it, at every
    depth and each of them once, so the fold's sum counts none twice: the recursive
    query misses none (four levels are enough, and more fuel never finds another)
    and invents none. *)
Theorem applied_complete t x lx n :
  wf t → t !! x = Some lx → (APPLIED_DEPTH ≤ n)%nat →
  NoDup (applied n t x) ∧ ∀ l, l ∈ applied n t x ↔ below t x l.
Proof.
  intros Hwf Hx Hn. split; [by eapply applied_nodup|]. intros l. split; [by apply applied_below|].
  rewrite (applied_fuel n t x lx) by done. clear n Hn.
  induction 1 as [l Hl Hs|p l _ IH Hl Hs].
  - unfold APPLIED_DEPTH. rewrite elem_of_applied_S. left. by apply elem_of_direct.
  - rewrite <-(applied_fuel (S APPLIED_DEPTH) t x lx) by (done || lia).
    by apply (applied_step _ t x p).
Qed.

(** *** The lock walk *)

Lemma lock_walk_up t i l :
  wf t → t !! i = Some l → kind l ≠ Charge →
  ∃ p, source l = Some (id p) ∧ t !! id p = Some p ∧ (rank (kind p) < rank (kind l))%nat
    ∧ ∀ n, lock_walk (S n) t i = (i ::.) <$> lock_walk n t (id p).
Proof.
  intros Hwf Hi Hc. destruct (wf_source _ Hwf _ _ Hi Hc) as (p & Hs & Hp & Hm & _).
  exists p. split; [done|]. split; [done|]. split; [by apply may_target_rank|].
  intros n. simpl. rewrite Hi, Hs. by destruct (kind l).
Qed.

Lemma lock_walk_charge n t i l :
  t !! i = Some l → kind l = Charge → lock_walk (S n) t i = Some [i].
Proof. intros Hi Hc. simpl. by rewrite Hi, Hc. Qed.

(** The walk reaches a charge. *)
Lemma lock_walk_reaches n t i l :
  wf t → t !! i = Some l → (rank (kind l) < n)%nat →
  ∃ up root, lock_walk n t i = Some (up ++ [id root]) ∧ t !! id root = Some root
    ∧ kind root = Charge ∧ (length up ≤ rank (kind l))%nat
    ∧ ∀ m, (n ≤ m)%nat → lock_walk m t i = lock_walk n t i.
Proof.
  intros Hwf. revert i l. induction n as [|n IH]; intros i l Hi Hn; [lia|].
  destruct (decide (kind l = Charge)) as [Hc|Hc].
  - exists [], l. rewrite (lock_walk_charge n t i l) by done.
    pose proof (wf_id _ Hwf _ _ Hi) as Hid. rewrite Hid.
    repeat split_and; try done; [simpl; lia|]. intros [|m] Hm; [lia|].
    by apply (lock_walk_charge m t i l).
  - destruct (lock_walk_up t i l Hwf Hi Hc) as (p & _ & Hp & Hr & Hw).
    destruct (IH (id p) p Hp ltac:(lia)) as (up & root & Hup & Hroot & Hrc & Hlen & Hm).
    exists (i :: up), root. rewrite Hw, Hup. repeat split_and; try done; [simpl; lia|].
    intros [|m] Hnm; [lia|]. by rewrite Hw, Hm by lia; rewrite Hup.
Qed.

Definition lock_root (t : table) (i : str) : option str :=
  lock_walk APPLIED_DEPTH t i ≫= last.

Lemma lock_root_up t i l p :
  wf t → t !! i = Some l → kind l ≠ Charge → source l = Some (id p) → t !! id p = Some p →
  lock_root t i = lock_root t (id p).
Proof.
  intros Hwf Hi Hc Hs Hp. destruct (lock_walk_up t i l Hwf Hi Hc) as (q & Hq & _ & Hr & Hw).
  rewrite Hs in Hq. injection Hq as Hq.
  assert (rank (kind p) < 3)%nat as Hr'.
  { assert (t !! id q = Some p) by congruence.
    destruct (lock_walk_up t i l Hwf Hi Hc) as (q' & Hq' & Htq & Hr' & _).
    rewrite Hs in Hq'. injection Hq' as Hq'. assert (q' = p) as -> by congruence.
    pose proof (rank_le (kind l)). lia. }
  unfold lock_root, APPLIED_DEPTH. rewrite Hw, <-Hq.
  destruct (lock_walk_reaches 3 t (id p) p Hwf Hp Hr') as (up & root & Hup & _ & _ & _ & Hm).
  rewrite (Hm 4%nat) by lia. rewrite Hup. simpl.
  by destruct up.
Qed.

(** Taking the row locks of a line terminates at its charge after at most
    four rows, and every line of the tree it folds over locks that same charge:
    two writers whose caps read the same money serialize on one row. *)
Theorem lock_walk_root t i l :
  wf t → t !! i = Some l →
  (∃ up root, lock_walk APPLIED_DEPTH t i = Some (up ++ [id root])
     ∧ t !! id root = Some root ∧ kind root = Charge ∧ (length up ≤ 3)%nat)
  ∧ ∀ x, below t i x → lock_root t (id x) = lock_root t i.
Proof.
  intros Hwf Hi. split.
  - pose proof (rank_le (kind l)) as Hr.
    destruct (lock_walk_reaches APPLIED_DEPTH t i l Hwf Hi) as (up & root & ? & ? & ? & ? & _);
      [unfold APPLIED_DEPTH; lia|].
    exists up, root. repeat split_and; try done. lia.
  - assert (∀ p y, t !! id y = Some y → t !! id p = Some p → source y = Some (id p) →
      lock_root t (id y) = lock_root t (id p)) as Hone.
    { intros p y Hy Hp Hs.
      destruct (direct_child t (id p) p y Hwf Hp) as (_ & Hr & _); [by apply elem_of_direct|].
      apply (lock_root_up t (id y) y p); try done. intros E. rewrite E in Hr. simpl in Hr. lia. }
    pose proof (wf_id _ Hwf _ _ Hi) as Hid. rewrite <-Hid in Hi |- *.
    induction 1 as [y Hy Hs|p y Hp IH Hy Hs]; [by apply (Hone l)|].
    assert (t !! id p = Some p) by (by destruct Hp).
    by rewrite (Hone p).
Qed.
End Tree.

(** ** The workflows *)

Section Workflow_theorems.
Context `{UuidText}.

(** The interference a workflow meets: everybody keeps the ledger well formed
    and nobody takes away the line the request already read. *)
Definition rely (target : PaymentLedger) (t : table) : Prop :=
  wf t ∧ t !! id target = Some target.

Definition request_key_ok (rk : option str) : Prop :=
  match rk with Some r => validate_request_key r = Ok () | None => True end.

Lemma keyed_ok_request target m rk :
  request_key_ok rk → keyed_ok target (for_request (id target) (marker m) <$> rk).
Proof. destruct rk as [r|]; simpl; [|done]. intros Hr. by exists m, r. Qed.

Lemma against_keeps target expected kind_ wrong over reversed amount m n keyed by_ :
  amount_ok amount → may_target kind_ expected = true → kind_ ≠ Reversal →
  keyed_ok target keyed →
  keeps (rely target) (against target expected kind_ wrong over reversed amount m n keyed by_).
Proof.
  intros Ha Hm Hr Hk. unfold against. case_bool_decide as Hkd; cbn [negb]; [|apply keeps_raise].
  keeps_walk. apply tx_keeps_on_table. intros t l t' [Hwf Ht] Hrun.
  rewrite <-Hkd in Hm.
  apply against_tx_inv in Hrun as [(-> & _)|(_ & Hroom & Happ)]; [done| |done..].
  eapply append_wf in Happ as (? & Hsub & _); [|done|by intros _; apply payment_joins].
  split; [done|]. by eapply lookup_weaken.
Qed.

Lemma append_keeps (target row : PaymentLedger) :
  (∀ t, rely target t → joins t row) → tx_keeps (rely target) (append row).
Proof.
  intros Hj t l t' Ht Happ. pose proof (Hj t Ht) as Hjt. destruct Ht as [Hwf Ht].
  eapply append_wf in Happ as (? & Hsub & _); [|done..].
  split; [done|]. by eapply lookup_weaken.
Qed.

Lemma reversal_joins t line n by_ now_ :
  rely line t → kind line = Charge ∨ kind line = Refund →
  joins t (MkPaymentLedger (for_reversal (id line)) (student line) Reversal
    (amount_minor line) (Some (id line)) None None n by_ now_).
Proof.
  intros [Hwf Ht] Hk. destruct (wf_key _ Hwf _ _ Ht) as (k & Hok & Hsp).
  split; simpl; try done.
  - exists (KReversal k). simpl. by rewrite Hsp.
  - by apply (wf_amount _ Hwf (id line)).
  - intros _. exists line. repeat split_and; try done. by destruct Hk as [-> | ->].
Qed.

Lemma charge_joins t a k amount due by_ now_ :
  amount_ok amount →
  joins t (MkPaymentLedger (for_installment a k) (assignee a) Charge amount
    (Some (assignment_key a)) (Some due) None None by_ now_).
Proof.
  intros Ha. split; simpl; try done; [by exists (KInstallment a k)|].
  intros _. by exists a.
Qed.

(** C21. Whatever the other requests commit in between, every workflow of the
    ledger (recording a payment, refunding one, reversing a line, raising an
    installment's charge) leaves it well formed: each line's id is spelled from
    its origin, each non-charge points at a line of a kind it may point at and
    of the same student, a reversal undoes its line's whole amount, and no
    payment is ever refunded beyond what was paid. *)
Theorem ledger_ops_keep_wf target amount m n rk by_ :
  amount_ok amount → request_key_ok rk →
  keeps (rely target) (credit target amount m n rk by_)
  ∧ keeps (rely target) (refund target amount m n rk by_)
  ∧ keeps (rely target) (reversal target n by_)
  ∧ ∀ a k due, keeps (rely target) (charge_for_installment a k amount due by_).
Proof.
  intros Ha Hrk. split_and!.
  - unfold credit. apply against_keeps; [done..|]. by apply (keyed_ok_request target false).
  - unfold refund. apply against_keeps; [done..|]. by apply (keyed_ok_request target true).
  - unfold reversal. destruct (kind target) eqn:Hk; try apply keeps_raise;
      (apply keeps_bind; [apply keeps_now|]; intros now_;
       apply keeps_atomic, tx_keeps_on_table, tx_keeps_bind; [apply tx_keeps_gets|]; intros _;
       apply append_keeps; intros t Ht; apply reversal_joins; eauto).
  - intros a k due. unfold charge_for_installment.
    apply keeps_bind; [apply keeps_now|]. intros now_.
    apply keeps_atomic, tx_keeps_on_table, append_keeps. intros t _. by apply charge_joins.
Qed.

(** The database a workflow's transaction runs on: two effects (the clock and
    the id) come first. *)
Definition seen (w : World table) : table := w_env w (2 + w_step w)%nat (w_db w).

Definition drawn (w : World table) : uuid := w_fresh w (1 + w_step w)%nat.

Lemma against_run target kind_ wrong over reversed amount m n keyed by_ w :
  let run := against_tx target kind_ over reversed amount m n keyed by_
               (w_clock w (w_step w)) (drawn w) (seen w) in
  let '(r, w') :=
    against target (kind target) kind_ wrong over reversed amount m n keyed by_ w in
  match run with
  | Ok (l, t') => r = Ok l ∧ w_db w' = t'
  | Err e => r = Err e ∧ w_db w' = seen w
  end.
Proof.
  unfold against. rewrite bool_decide_eq_true_2 by done. cbn [negb].
  unfold mbind, io_bind, now, fresh, atomic, drawn, seen.
  cbn [tick w_db w_step w_env w_clock w_fresh Nat.add].
  rewrite on_lines_table. by destruct (against_tx _ _ _ _ _ _ _ _ _ _ _ _) as [[l' s']|e].
Qed.

Lemma against_ok target expected kind_ wrong over reversed amount m n keyed by_ w l w' :
  against target expected kind_ wrong over reversed amount m n keyed by_ w = (Ok l, w') →
  kind target = expected
  ∧ against_tx target kind_ over reversed amount m n keyed by_
      (w_clock w (w_step w)) (drawn w) (seen w) = Ok (l, w_db w').
Proof.
  destruct (decide (kind target = expected)) as [<-|E].
  - pose proof (against_run target kind_ wrong over reversed amount m n keyed by_ w) as Hr.
    intros Hrun. rewrite Hrun in Hr. cbn zeta in Hr. revert Hr.
    destruct (against_tx _ _ _ _ _ _ _ _ _ _ _ _) as [[l' t']|e]; naive_solver.
  - unfold against. by rewrite bool_decide_eq_false_2.
Qed.

Lemma replayed_kind t target l m r :
  wf t → t !! id l = Some l → id l = for_request (id target) (marker m) r →
  t !! id target = Some target → source l = Some (id target) →
  match kind target with Charge => kind l = Credit | Credit => kind l = Refund | _ => True end.
Proof.
  intros Hwf Hl Hid Ht Hs.
  destruct (direct_child t (id target) target l Hwf Ht) as (_ & _ & Hm);
    [by apply elem_of_direct|].
  destruct (kind target) eqn:Ht', (kind l) eqn:Hlk; try done.
  destruct (wf_source _ Hwf _ _ Hl) as (p & Hp & Htp & _ & _ & Hrev); [congruence|].
  destruct (Hrev Hlk) as [Hrid _]. rewrite Hs in Hp. injection Hp as Hp.
  rewrite Hid, <-Hp in Hrid. unfold for_request, for_reversal in Hrid.
  apply app_inv_head in Hrid. apply (f_equal length) in Hrid.
  rewrite !length_app in Hrid. destruct m; simpl in Hrid; lia.
Qed.

(** What an accepted payment or refund did to the table. *)
Definition records (t t' : table) (target : PaymentLedger) (kind_ : PaymentLedgerKind)
    (amount : Z) (keyed : option str) (l : PaymentLedger) : Prop :=
  kind l = kind_ ∧ amount_minor l = amount ∧ source l = Some (id target)
  ∧ student l = student target
  ∧ (t' = t ∧ t !! id l = Some l ∧ keyed = Some (id l)
     ∨ t' = <[id l := l]> t ∧ t !! id l = None
       ∧ (∀ i, keyed = Some i → id l = i)
       ∧ covered t' target = covered t target + amount
       ∧ covered t' target ≤ amount_minor target).

Lemma child_of_target t target l :
  wf t → t !! id target = Some target → t !! id l = Some l → source l = Some (id target) →
  may_target (kind l) (kind target) = true ∧ student l = student target
  ∧ (kind l = Reversal → id l = for_reversal (id target)).
Proof.
  intros Hwf Ht Hl Hs.
  destruct (direct_child t (id target) target l Hwf Ht) as (_ & _ & Hm);
    [by apply elem_of_direct|].
  destruct (wf_source _ Hwf _ _ Hl) as (p & Hp & Htp & _ & Hst & Hrev);
    [by intros E; rewrite E in Hm|].
  rewrite Hs in Hp. injection Hp as Hp. assert (p = target) as -> by congruence.
  repeat split_and; try done. naive_solver.
Qed.

Lemma against_tx_records t target kind_ over reversed amount m n mk rk by_ now_ u l t' :
  wf t → t !! id target = Some target → amount_ok amount →
  may_target kind_ (kind target) = true → kind_ ≠ Reversal → request_key_ok rk →
  (rk = None → t !! generate u = None) →
  let keyed := for_request (id target) (marker mk) <$> rk in
  against_tx target kind_ over reversed amount m n keyed by_ now_ u t = Ok (l, t') →
  records t t' target kind_ amount keyed l.
Proof.
  intros Hwf Ht Ha Hm Hnr Hrk Hfresh keyed Hrun.
  assert (keyed_ok target keyed) as Hk by by apply keyed_ok_request.
  apply against_tx_inv in Hrun as [(-> & Hi & Hl & <- & Hs)|(Hno & Hroom & Happ)]; [| |done..].
  - destruct (child_of_target t target l Hwf Ht Hl Hs) as (Hml & Hst & Hrev).
    assert (∃ r, id l = for_request (id target) (marker mk) r) as [r Hid]
      by (unfold keyed in Hi; destruct rk; naive_solver).
    pose proof (replayed_kind t target l mk r Hwf Hl Hid Ht Hs) as Hrep.
    split_and!; try done; [|by left].
    destruct (kind target), (kind l), kind_; done.
  - pose proof (payment_joins t target kind_ amount m n keyed by_ now_ u
      Hwf Ht Ha Hm Hnr Hk Hroom) as Hj.
    assert (t !! id (payment_row target kind_ amount m n keyed by_ now_ u) = None) as Hfr.
    { unfold keyed in *. cbn. destruct rk as [r|]; cbn in *; auto. }
    unfold append in Happ. rewrite Hfr, decide_True in Happ by done. injection Happ as <- <-.
    pose proof (covered_insert t target _ Hwf Ht Hfr (joins_key _ _ Hj) eq_refl Hm Hnr) as Hc.
    split_and!; try done. right. split_and!; try done.
    + intros i Hi. cbn. by rewrite Hi.
    + by etransitivity; [apply Z.eq_le_incl, Hc|].
Qed.

(** C1. An accepted payment (or refund) either answers the line its request key
    already owned and writes nothing, or appends exactly one line, of the right
    kind, student, amount and target, and what the target has been covered by
    grows by that amount and still fits the amount the target is worth. *)
Theorem payment_records target amount m n rk by_ w :
  rely target (seen w) → amount_ok amount → request_key_ok rk →
  (rk = None → seen w !! generate (drawn w) = None) →
  (∀ l w', credit target amount m n rk by_ w = (Ok l, w') →
     records (seen w) (w_db w') target Credit amount
       (for_request (id target) (lit "k") <$> rk) l)
  ∧ (∀ l w', refund target amount m n rk by_ w = (Ok l, w') →
     records (seen w) (w_db w') target Refund amount
       (for_request (id target) (lit "kr") <$> rk) l).
Proof.
  intros [Hwf Ht] Ha Hrk Hfresh.
  split; intros l w' [Hk Hrun]%against_ok.
  - eapply (against_tx_records _ _ _ _ _ _ _ _ false); try done. by rewrite Hk.
  - eapply (against_tx_records _ _ _ _ _ _ _ _ true); try done. by rewrite Hk.
Qed.

(** Retrying a keyed payment is safe: once a line owns the request key, the
    same request answers that very line and writes nothing, whoever retries it,
    whatever note it now carries and whatever else has been committed since
    (a cap reached or a charge reversed included); the same key with another
    amount is refused as a conflict, writing nothing. *)
Theorem payment_retry charge amount m n r by_ w l :
  rely charge (seen w) → kind charge = Charge →
  seen w !! id l = Some l → id l = for_request (id charge) (lit "k") r →
  source l = Some (id charge) →
  let '(answer, w') := credit charge amount m n (Some r) by_ w in
  w_db w' = seen w
  ∧ answer = if decide (amount_minor l = amount) then Ok l
             else Err (Conflict "this request_key was already used for a different amount or target").
Proof.
  intros [Hwf Ht] Hk Hl Hid Hs. unfold credit.
  match goal with |- let '(_, _) := against ?a _ ?c ?d ?e ?f ?g ?h ?i ?j ?k w in _ =>
    pose proof (against_run a c d e f g h i j k w) as Hr end.
  rewrite Hk in Hr. destruct (against _ _ _ _ _ _ _ _ _ _ _ w) as [answer w'].
  revert Hr. unfold against_tx, lock_for_cap. rewrite tx_bind_gets.
  cbn [fmap option_fmap option_map]. unfold read. rewrite tx_bind_gets, <-Hid, Hl.
  rewrite (bool_decide_eq_true_2 (source l = _)) by done. rewrite orb_false_r.
  case_decide as Ha; [rewrite bool_decide_eq_true_2 by done|rewrite bool_decide_eq_false_2 by done];
    simpl; naive_solver.
Qed.

(** *** Reversed charges *)

Lemma net_child t x lx y :
  wf t → t !! x = Some lx → y ∈ applied_directly t x → kind lx = Charge →
  0 ≤ sign (kind y) * amount_minor y + net (applied 3 t (id y))
  ∧ (kind y = Reversal →
      sign (kind y) * amount_minor y + net (applied 3 t (id y)) = amount_minor y).
Proof.
  intros Hwf Hx Hy Hc. destruct (direct_child t x lx y Hwf Hx Hy) as (Hty & _ & Hm).
  rewrite Hc in Hm. destruct (kind y) eqn:Hky; try done; cbn [sign].
  - split; [|done]. pose proof (wf_refunds _ Hwf _ _ Hty Hky) as Hcap.
    unfold refunded in Hcap. rewrite <-(applied_enough t (id y) y 3) in Hcap;
      [lia|done..|lia|unfold APPLIED_DEPTH; lia].
  - assert (applied_directly t (id y) = []) as Hleaf.
    { destruct (applied_directly t (id y)) as [|z zs] eqn:E; [done|].
      destruct (direct_child t (id y) y z Hwf Hty) as (_ & _ & Hmz); [rewrite E; constructor|].
      rewrite Hky in Hmz. by destruct (kind z). }
    rewrite applied_nil by done. rewrite net_nil.
    pose proof (wf_amount _ Hwf _ _ Hty) as Ha. unfold amount_ok in Ha. lia.
Qed.

Lemma covered_reversed t charge rv :
  wf t → t !! id charge = Some charge → kind charge = Charge →
  t !! for_reversal (id charge) = Some rv → kind rv = Reversal →
  amount_minor charge ≤ covered t charge.
Proof.
  intros Hwf Ht Hc Hrv Hk. unfold covered. rewrite Hc. cbn [sign].
  destruct (wf_source _ Hwf _ _ Hrv) as (p & Hs & Hp & _ & _ & Hrev); [by rewrite Hk|].
  destruct (Hrev Hk) as [Hid Ham]. apply app_inv_tail in Hid.
  assert (p = charge) as -> by congruence.
  assert (rv ∈ applied_directly t (id charge)) as Hin.
  { apply elem_of_direct; [done|]. split; [done|]. by rewrite (wf_id _ Hwf _ _ Hrv). }
  unfold APPLIED_DEPTH. rewrite net_applied_S, <-Ham.
  change (- -1) with 1. rewrite Z.mul_1_l.
  assert (∀ y, y ∈ applied_directly t (id charge) →
    0 ≤ sign (kind y) * amount_minor y + net (applied 3 t (id y))
    ∧ (kind y = Reversal →
        sign (kind y) * amount_minor y + net (applied 3 t (id y)) = amount_minor y)) as Hall
    by (intros; by eapply net_child).
  clear -Hin Hall Hk. induction (applied_directly t (id charge)) as [|y ys IH];
    [by apply elem_of_nil in Hin|].
  rewrite !fmap_cons. rewrite net_cons, sumZ_cons.
  assert (0 ≤ net ys + sumZ ((λ l, net (applied 3 t (id l))) <$> ys)) as Hpos.
  { clear -Hall. assert (∀ z, z ∈ ys → z ∈ y :: ys) as Hsub by (by constructor).
    induction ys as [|z zs IHz]; [done|]. rewrite !fmap_cons. rewrite net_cons, sumZ_cons.
    destruct (Hall z) as [Hz _]; [apply Hsub; constructor|].
    assert (0 ≤ net zs + sumZ ((λ l, net (applied 3 t (id l))) <$> zs)); [|lia].
    apply IHz; [|by constructor]. intros u Hu. apply Hall.
    apply elem_of_cons in Hu as [->|Hu]; [constructor|by do 2 constructor]. }
  apply elem_of_cons in Hin as [<-|Hin].
  - destruct (Hall rv) as [_ Hr]; [constructor|]. specialize (Hr Hk). lia.
  - destruct (Hall y) as [Hy _]; [constructor|].
    assert (amount_minor rv ≤ net ys + sumZ ((λ l, net (applied 3 t (id l))) <$> ys)); [|lia].
    apply IH; [done|]. intros z Hz. apply Hall. by constructor.
Qed.

(** A reversed charge takes no further money: any payment against it under a
    key nobody used yet is refused with nothing written, and the refusal says
    the charge was reversed (or that the line is full), never that it is paid. *)
Theorem reversed_charge_refuses charge rv amount m n rk by_ w :
  rely charge (seen w) → kind charge = Charge →
  seen w !! for_reversal (id charge) = Some rv → kind rv = Reversal →
  amount_ok amount →
  (∀ r, rk = Some r → seen w !! for_request (id charge) (lit "k") r = None) →
  let '(answer, w') := credit charge amount m n rk by_ w in
  w_db w' = seen w
  ∧ (answer = Err (ConflictOwned (lit "the charge was reversed, so it is no longer owed"))
     ∨ answer = Err (Conflict "this line already carries the most lines that may be applied to it; record the rest against another")).
Proof.
  intros [Hwf Ht] Hk Hrv Hrk Ha Hno. unfold credit.
  match goal with |- let '(_, _) := against ?a _ ?c ?d ?e ?f ?g ?h ?i ?j ?k ?w in _ =>
    pose proof (against_run a c d e f g h i j k w) as Hr end.
  rewrite Hk in Hr. destruct (against _ _ _ _ _ _ _ _ _ _ _ w) as [answer w'].
  revert Hr. unfold against_tx, lock_for_cap. rewrite tx_bind_gets.
  assert (match for_request (id charge) (lit "k") <$> rk with
          | Some i => read i | None => mret None end (seen w) = Ok (None, seen w)) as Hread.
  { destruct rk as [r|]; [|done]. simpl. unfold read, gets. by rewrite (Hno r). }
  unfold mbind, tx_bind. rewrite Hread. rewrite Hk.
  destruct (applied_to (id charge) Charge (seen w)) as [[taken t1]|e] eqn:Eap.
  - destruct (applied_to_ok _ _ _ _ _ Hwf Eap) as (-> & Htaken & Hb).
    pose proof (covered_reversed _ _ _ Hwf Ht Hk Hrv Hrk) as Hcov.
    unfold covered in Hcov. rewrite Hk in Hcov.
    unfold amount_ok, MAX_LEDGER_AMOUNT_MINOR in Ha.
    unfold i64_saturating_add. rewrite i64_clamp_id by (unfold_ints; lia).
    rewrite (proj2 (Z.ltb_lt _ _)) by lia.
    unfold read, gets, refuse. rewrite Hrv. naive_solver.
  - unfold applied_to in Eap. destruct (_ <=? _); [|done]. naive_solver.
Qed.
End Workflow_theorems.

(** ** The balance *)

Section Balance.
Context `{UuidText}.

Definition lines_of (t : table) (s : uuid) : list PaymentLedger :=
  filter (λ l, student l = s) (rows t).

Lemma lines_of_ok t s : wf t → Forall (λ l, amount_ok (amount_minor l)) (lines_of t s).
Proof.
  intros Hwf. apply Forall_forall. intros l [_ Hl]%list_elem_of_filter.
  apply elem_of_rows in Hl; [|done]. by apply (wf_amount _ Hwf (id l)).
Qed.

Lemma balance_of_net t s :
  wf t → Z.of_nat (size t) ≤ 10 ^ 11 → balance_of t s = net (lines_of t s).
Proof.
  intros Hwf Hsz. unfold balance_of. apply fold_group_net; [by apply lines_of_ok|].
  etransitivity; [|exact Hsz]. apply inj_le. unfold lines_of.
  etransitivity; [apply length_filter|]. unfold rows.
  by rewrite length_fmap, length_map_to_list.
Qed.

(** A student's balance is the signed sum of their lines, in integers that
    never overflow: summing each kind in the database and folding the four
    totals in [i64] loses nothing up to [10^11] lines, and a line that joins
    the table moves its own student's balance by its signed amount and nobody
    else's. *)
Theorem balance_of_exact t s :
  wf t → Z.of_nat (size t) < 10 ^ 11 →
  balance_of t s = sumZ ((λ l, sign (kind l) * amount_minor l) <$> lines_of t s)
  ∧ in_i64 (balance_of t s)
  ∧ ∀ l, t !! id l = None → joins t l →
      balance_of (<[id l := l]> t) s
      = balance_of t s + (if decide (student l = s) then sign (kind l) * amount_minor l else 0).
Proof.
  intros Hwf Hsz. rewrite (balance_of_net t) by (done || lia).
  split_and!; [done| |].
  - pose proof (net_abs _ (lines_of_ok t s Hwf)) as Hn.
    assert (length (lines_of t s) ≤ size t)%nat as Hlen.
    { unfold lines_of. etransitivity; [apply length_filter|]. unfold rows.
      by rewrite length_fmap, length_map_to_list. }
    unfold MAX_LEDGER_AMOUNT_MINOR in Hn. unfold_ints. lia.
  - intros l Hl Hj. rewrite balance_of_net; [|by apply wf_insert|].
    + unfold lines_of. rewrite rows_insert by done. rewrite filter_cons.
      case_decide; rewrite ?net_cons; lia.
    + rewrite map_size_insert_None by done. lia.
Qed.
End Balance.

(** ** A ledger with one charge, for the witnesses *)

Section Demo.
#[local] Existing Instance hyphenated.

Definition demo_charge : PaymentLedger :=
  MkPaymentLedger (for_installment (MkAssignmentId 3 5) 0) 5%N Charge 900
    (Some (assignment_key (MkAssignmentId 3 5))) (Some 77) None None 8%N 5.
Definition demo_reversal : PaymentLedger :=
  MkPaymentLedger (for_reversal (id demo_charge)) 5%N Reversal 900
    (Some (id demo_charge)) None None None 8%N 6.
Definition demo_credit : PaymentLedger :=
  MkPaymentLedger (for_request (id demo_charge) (lit "k") (lit "a1")) 5%N Credit 400
    (Some (id demo_charge)) None None None 8%N 6.
Definition demo_world (t : table) : World table := quiet t (λ n, 0) (λ n, 99%N).
Definition demo_table : table := <[id demo_charge := demo_charge]> ∅.
Definition demo_reversed : table := <[id demo_reversal := demo_reversal]> demo_table.
Definition demo_paid : table := <[id demo_credit := demo_credit]> demo_table.

Lemma wf_empty : wf ∅.
Proof. split; intros i l Hl; by rewrite lookup_empty in Hl. Qed.

Lemma demo_wf : wf demo_table.
Proof.
  apply wf_insert; [apply wf_empty|by vm_compute|]. split; [|by vm_compute| |done].
  - by exists (KInstallment (MkAssignmentId 3 5) 0).
  - intros _. by exists (MkAssignmentId 3 5).
Qed.

Lemma demo_rely : rely demo_charge demo_table.
Proof. split; [apply demo_wf|by vm_compute]. Qed.

Lemma demo_reversed_wf : wf demo_reversed.
Proof.
  apply wf_insert; [apply demo_wf|by vm_compute|].
  apply (reversal_joins demo_table demo_charge None 8%N 6); [apply demo_rely|by left].
Qed.

Lemma demo_paid_wf : wf demo_paid.
Proof.
  apply wf_insert; [apply demo_wf|by vm_compute|].
  apply (payment_joins demo_table demo_charge Credit 400 None None
    (Some (id demo_credit)) 8%N 6 0%N); [apply demo_wf|by vm_compute|by vm_compute|done|done| |].
  - exists false, (lit "a1"). split; [done|by vm_compute].
  - by vm_compute.
Qed.

Lemma demo_amount : amount_ok 400.
Proof. unfold amount_ok, MAX_LEDGER_AMOUNT_MINOR. lia. Qed.

Lemma applied_complete_witness :
  NoDup (applied 9 demo_paid (id demo_charge)) ∧ below demo_paid (id demo_charge) demo_credit.
Proof.
  destruct (applied_complete demo_paid (id demo_charge) demo_charge 9) as [Hnd Hin]; [apply demo_paid_wf| | |].
  - by vm_compute.
  - unfold APPLIED_DEPTH. lia.
  - split; [exact Hnd|]. apply Hin, (elem_of_applied_S 8). left.
    apply elem_of_direct; [apply demo_paid_wf|]. split; by vm_compute.
Defined.

Lemma lock_walk_root_witness :
  lock_root demo_paid (id demo_credit) = lock_root demo_paid (id demo_charge).
Proof.
  apply (lock_walk_root demo_paid (id demo_charge) demo_charge); [apply demo_paid_wf| |].
  - by vm_compute.
  - by apply below_direct; vm_compute.
Defined.

Lemma ledger_ops_keep_wf_witness :
  keeps (rely demo_charge) (credit demo_charge 100 None None (Some (lit "a1")) 8%N).
Proof.
  apply (ledger_ops_keep_wf demo_charge 100 None None (Some (lit "a1")) 8%N); done.
Defined.

Lemma payment_records_witness :
  let '(r, w') := credit demo_charge 400 None None (Some (lit "a1")) 8%N (demo_world demo_table) in
  match r with
  | Ok l => records (seen (demo_world demo_table)) (w_db w') demo_charge Credit 400
              (Some (for_request (id demo_charge) (lit "k") (lit "a1"))) l
  | Err _ => False
  end.
Proof.
  destruct (credit demo_charge 400 None None (Some (lit "a1")) 8%N (demo_world demo_table))
    as [[l|e] w'] eqn:E.
  - refine (proj1 (payment_records demo_charge 400 None None (Some (lit "a1")) 8%N
      (demo_world demo_table) demo_rely demo_amount _ _) l w' E);
      [by vm_compute|intros ?; congruence].
  - apply (f_equal (λ x, is_ok x.1)) in E. by vm_compute in E.
Defined.

Lemma payment_retry_witness :
  (credit demo_charge 400 None (Some (lit "again")) (Some (lit "a1")) 8%N (demo_world demo_paid)).1
    = Ok demo_credit.
Proof.
  pose proof (payment_retry demo_charge 400 None (Some (lit "again")) (lit "a1") 8%N
    (demo_world demo_paid) demo_credit) as Hp.
  destruct (credit demo_charge 400 _ _ _ _ _) as [r w'].
  destruct Hp as [_ Hr]; [split; [apply demo_paid_wf|by vm_compute]|done|by vm_compute|done|done|].
  by rewrite Hr.
Defined.

Lemma reversed_charge_refuses_witness :
  w_db (credit demo_charge 100 None None None 8%N (demo_world demo_reversed)).2 = demo_reversed.
Proof.
  pose proof (reversed_charge_refuses demo_charge demo_reversal 100 None None None 8%N
    (demo_world demo_reversed)) as Hp.
  destruct (credit demo_charge 100 None None None 8%N (demo_world demo_reversed)) as [r w'].
  apply Hp; [split; [apply demo_reversed_wf|by vm_compute]|done|by vm_compute|done|done|done].
Defined.

Lemma balance_of_exact_witness : balance_of demo_paid 5%N = -500 ∧ in_i64 (balance_of demo_paid 5%N).
Proof.
  split; [by vm_compute|].
  apply (balance_of_exact demo_paid 5%N); [apply demo_paid_wf|by vm_compute].
Defined.
End Demo.
