(* ===== verification/FeePlans.v ===== *)
(** * Fee plans ([src/domain/fee_plan.rs], [src/domain/fee_plan_assignment.rs],
    [src/db/fee_plan.rs], [src/db/fee_plan_assignment.rs],
    [src/service/fee_plan.rs], [src/service/fee_plan_assignment.rs],
    [src/web/payments.rs])

    A plan is a name and a schedule; placing it on a student counts the
    placement on the plan, which freezes it, and appends one charge per
    installment to the fee ledger of [Payments]. The placement row and the
    charges are several statements, so a run may stop between them; every id is
    derived from the pair and the installment's number, so a repeated run fills
    in what is missing. *)

From S2P Require Import Prelude Text Errors Effects Uuid Validate Modules Gates Ledger Payments.
Open Scope Z_scope.

Definition MAX_FEE_PLAN_NAME_LEN : Z := 120.
Definition MAX_FEE_PLAN_INSTALLMENTS : Z := 60.
Definition MAX_FEE_PLAN_ASSIGN_STUDENTS : Z := 200.
Definition MAX_FEE_PLAN_ASSIGN_WRITES : Z := 3000.

(** ** Plans and placements *)

(** [FeePlanName::try_new]. *)
Definition plan_name_try_new (value : str) : result ValidationError str :=
  let value := trim value in
  _ ← validate_required "name" value MAX_FEE_PLAN_NAME_LEN;
  Ok value.

Record Installment := MkInstallment { i_amount : Z; i_due : Z }.

Definition validate_installments (installments : list Installment) : result ValidationError () :=
  if bool_decide (installments = [])
     || (MAX_FEE_PLAN_INSTALLMENTS <? Z.of_nat (length installments))
  then Err (Invalid "installments" "a plan must carry 1 to 60 installments")
  else Ok ().

Record FeePlan := MkFeePlan {
  p_id : uuid;
  p_name : str;
  installments : list Installment;
  p_created_by : uuid;
  p_created_at : Z;
}.

Record FeePlanAssignment := MkFeePlanAssignment {
  of_plan : uuid;
  of_student : uuid;
  assigned_by : uuid;
  placed_at : Z;
}.

#[export] Instance FeePlanAssignmentId_eq_dec : EqDecision FeePlanAssignmentId.
Proof. solve_decision. Defined.
#[export] Instance FeePlanAssignmentId_countable : Countable FeePlanAssignmentId.
Proof.
  refine (inj_countable' (λ a, (plan a, assignee a)) (λ p, MkAssignmentId p.1 p.2) _). by intros [].
Defined.
#[export] Instance Installment_eq_dec : EqDecision Installment.
Proof. solve_decision. Defined.

(** [FeePlanAssignment::get_id]. *)
Definition placement (a : FeePlanAssignment) : FeePlanAssignmentId :=
  MkAssignmentId (of_plan a) (of_student a).

(** The row of [fee_plan]: the plan and the refcount no struct carries. *)
Record PlanRow := MkPlanRow { row_plan : FeePlan; assignment_count : Z }.

Definition on_plan (f : FeePlan → FeePlan) (r : PlanRow) : PlanRow :=
  MkPlanRow (f (row_plan r)) (assignment_count r).
Definition count_one (r : PlanRow) : PlanRow :=
  MkPlanRow (row_plan r) (assignment_count r + 1).

(** ** The tables *)

Record Tables := MkTables {
  users : gmap uuid Role;
  parent_links : gset (uuid * uuid);
  plans : gmap uuid PlanRow;
  assignments : gmap FeePlanAssignmentId FeePlanAssignment;
  lines : table;
}.

Definition set_plans (f : gmap uuid PlanRow → gmap uuid PlanRow) (t : Tables) : Tables :=
  MkTables (users t) (parent_links t) (f (plans t)) (assignments t) (lines t).
Definition set_assignments (f : gmap FeePlanAssignmentId FeePlanAssignment → gmap FeePlanAssignmentId FeePlanAssignment)
    (t : Tables) : Tables :=
  MkTables (users t) (parent_links t) (plans t) (f (assignments t)) (lines t).
Definition set_lines (l : table) (t : Tables) : Tables :=
  MkTables (users t) (parent_links t) (plans t) (assignments t) l.

#[export, refine] Instance tables_ledger : HasLedger Tables := {
  ledger_of := lines;
  set_ledger := set_lines;
}.
Proof. all: by intros []. Defined.

Definition has_user (t : Tables) (u : uuid) : bool := bool_decide (is_Some (users t !! u)).

(** ** The store *)

Definition read_plan (p : uuid) : tx Tables (option FeePlan) := gets (λ t, row_plan <$> plans t !! p).
Definition read_assignment (a : FeePlanAssignmentId) : tx Tables (option FeePlanAssignment) :=
  gets (λ t, assignments t !! a).
Definition read_role (u : uuid) : tx Tables (option Role) := gets (λ t, users t !! u).

Definition insert_plan (row : FeePlan) : tx Tables FeePlan := λ t,
  if bool_decide (is_Some (plans t !! p_id row)) then Err unique_violation else
  if negb (has_user t (p_created_by row)) then Err fk_violation
  else Ok (row, set_plans <[p_id row := MkPlanRow row 0]> t).

(** [db::fee_plan::create]. *)
Definition create (name : str) (ins : list Installment) (created_by : uuid) : io Tables FeePlan :=
  _ ← checked (validate_installments ins);
  i ← fresh;
  t_now ← now;
  atomic (insert_plan (MkFeePlan i name ins created_by t_now)).

(** [SET name = COALESCE($2, name), installments = COALESCE($3, installments)]. *)
Definition coalesced (name : option str) (ins : option (list Installment)) (p : FeePlan) : FeePlan :=
  MkFeePlan (p_id p) (default (p_name p) name) (default (installments p) ins)
    (p_created_by p) (p_created_at p).

(** The guarded [UPDATE … WHERE id = $1 AND assignment_count = 0 RETURNING …]. *)
Definition edit_plan (p : uuid) (name : option str) (ins : option (list Installment))
    : tx Tables (option FeePlan) := λ t,
  match plans t !! p with
  | Some row =>
      if assignment_count row =? 0
      then let row' := on_plan (coalesced name ins) row in
           Ok (Some (row_plan row'), set_plans <[p := row']> t)
      else Ok (None, t)
  | None => Ok (None, t)
  end.

(** [db::fee_plan::update]. *)
Definition update (p : FeePlan) (name : option str) (ins : option (list Installment))
    : io Tables FeePlan :=
  _ ← match ins with Some i => checked (validate_installments i) | None => mret () end;
  match name, ins with
  | None, None =>
      row ← atomic (read_plan (p_id p));
      lift (ok_or row NotFound)
  | _, _ =>
      edited ← atomic (edit_plan (p_id p) name ins);
      match edited with
      | Some p' => mret p'
      | None =>
          row ← atomic (read_plan (p_id p));
          match row with
          | Some _ => raise (Conflict "an assigned plan cannot be edited")
          | None => raise NotFound
          end
      end
  end.

(** [DELETE … WHERE id = $1 AND assignment_count = 0 RETURNING id]: whether a
    row went. The foreign key of the placements refuses the rest. *)
Definition drop_plan (p : uuid) : tx Tables bool := λ t,
  match plans t !! p with
  | Some row =>
      if assignment_count row =? 0 then
        if bool_decide (map_Exists (λ a _, plan a = p) (assignments t)) then Err fk_violation
        else Ok (true, set_plans (delete p) t)
      else Ok (false, t)
  | None => Ok (false, t)
  end.

(** [db::fee_plan::delete]. *)
Definition delete_ (p : FeePlan) : io Tables bool :=
  gone ← atomic (drop_plan (p_id p));
  if gone : bool then mret true else
  row ← atomic (read_plan (p_id p));
  match row with Some _ => mret false | None => raise NotFound end.

(** [db::fee_plan_assignment::create]: the seat on the plan and the row it
    counts, in one statement. *)
Definition claim (p student_ by_ : uuid) (at_ : Z) : tx Tables (Claimed FeePlanAssignment) := λ t,
  match plans t !! p with
  | Some row =>
      if assignment_count row <? UNLIMITED then
        let a := MkAssignmentId p student_ in
        match assignments t !! a with
        | Some _ => Ok (Duplicate, t)
        | None =>
            if negb (has_user t student_ && has_user t by_) then Err fk_violation
            else let made := MkFeePlanAssignment p student_ by_ at_ in
                 Ok (Made made, set_assignments <[a := made]> (set_plans (alter count_one p) t))
        end
      else Ok (Full, t)
  | None => Ok (Full, t)
  end.

Section Texts.
Context `{UuidText}.

(** [FeePlanAssignmentId::from_key]. *)
Definition assignment_from_key (key : str) : FeePlanAssignmentId :=
  let '(p, s) := match split_once 95%N key with Some ps => ps | None => ([], []) end in
  MkAssignmentId (uuid_from_key p) (uuid_from_key s).

(** ** Placing a plan ([src/service/fee_plan_assignment.rs]) *)

(** One turn of the billing loop. *)
Definition bill (a : FeePlanAssignment) (n : Z) (i : Installment) (by_ : uuid) : io Tables () :=
  _ ← charge_for_installment (placement a) n (i_amount i) (i_due i) by_;
  mret ().

Definition require_assignment (a : FeePlanAssignmentId) : io Tables FeePlanAssignment :=
  row ← atomic (read_assignment a);
  lift (ok_or row (Internal (lit "failed to assign the fee plan"))).

(** The schedule with its installment numbers, from 1. *)
Definition numbered (ins : list Installment) : list (Z * Installment) :=
  imap (λ i x, (Z.of_nat i + 1, x)) ins.

Definition assign (p : FeePlan) (student_ by_ : uuid) : io Tables (FeePlanAssignment * bool) :=
  t_now ← now;
  claimed ← atomic (claim (p_id p) student_ by_ t_now);
  '(a, existed) ← match claimed with
    | Made made => mret (made, false)
    | Duplicate =>
        stored ← require_assignment (MkAssignmentId (p_id p) student_);
        mret (stored, true)
    | Full => raise NotFound
    end;
  stored ← atomic (read_plan (p_id p));
  stored ← lift (ok_or stored (Internal (lit "the assigned fee plan vanished")));
  _ ← for_each (numbered (installments stored)) (λ '(n, i), bill a n i by_);
  mret (a, existed : bool).

Inductive Outcome := Assigned | AlreadyAssigned | Rejected (reason : string).

(** One student of a batch. *)
Definition assign_one (p : FeePlan) (assigner : uuid) (student_id : str)
    : io Tables (str * Outcome) :=
  let student_ := uuid_from_key student_id in
  role ← atomic (read_role student_);
  if bool_decide (role = Some Student) then
    r ← attempt (assign p student_ assigner);
    match r with
    | Ok (_, true) => mret (student_id, AlreadyAssigned)
    | Ok (_, false) => mret (student_id, Assigned)
    | Err NotFound => mret (student_id, Rejected "no such plan")
    | Err e => raise e
    end
  else mret (student_id, Rejected "no such student").

Definition usize_saturating_mul (a b : Z) : Z := Z.min u64_max (a * b).

Definition assign_batch (plan_key : str) (assigner : uuid) (student_ids : list str)
    : io Tables (list (str * Outcome)) :=
  if MAX_FEE_PLAN_ASSIGN_STUDENTS <? Z.of_nat (length student_ids)
  then raise (Validation (Invalid "student_ids" "may name at most 200 students")) else
  row ← atomic (read_plan (uuid_from_key plan_key));
  p ← lift (ok_or row NotFound);
  if MAX_FEE_PLAN_ASSIGN_WRITES
     <? usize_saturating_mul (Z.of_nat (length student_ids)) (Z.of_nat (length (installments p)))
  then raise (Validation (Invalid "student_ids"
    "too many charges for one request: students × installments may not exceed 3000, so split the batch"))
  else mapM (assign_one p assigner) student_ids.

(** ** The routes ([src/web/payments.rs]) *)

(** [InstallmentBody::into_domain]: amount and due date as the client sent them. *)
Definition into_domain (body : Z * Z) : result AppError Installment :=
  let '(amount, due) := body in
  if due <? 0 then Err (Validation (Invalid "due_at" "must not be negative"))
  else amount ← Errors.checked (ledger_amount_try_new amount); Ok (MkInstallment amount due).

Definition require_plan (key : str) : io Tables FeePlan :=
  row ← atomic (read_plan (uuid_from_key key));
  lift (ok_or row NotFound).

Definition create_plan (u : User) (name : str) (ins : list (Z * Z)) : io Tables FeePlan :=
  _ ← lift (require_manager u);
  name ← checked (plan_name_try_new name);
  ins ← lift (mapM into_domain ins);
  create name ins (uid u).

Definition update_plan (u : User) (key : str) (name : option str) (ins : option (list (Z * Z)))
    : io Tables FeePlan :=
  _ ← lift (require_manager u);
  p ← require_plan key;
  name ← checked_opt plan_name_try_new name;
  ins ← match ins with
        | Some ins => ins ← lift (mapM into_domain ins); mret (Some ins)
        | None => mret None
        end;
  update p name ins.

Definition delete_plan (u : User) (key : str) : io Tables () :=
  _ ← lift (require_manager u);
  p ← require_plan key;
  gone ← delete_ p;
  if gone : bool then mret () else raise (Conflict "an assigned plan cannot be deleted").

Definition assign_plan (u : User) (key : str) (student_ids : list str)
    : io Tables (list (str * Outcome)) :=
  _ ← lift (require_manager u);
  assign_batch key (uid u) student_ids.

(** *** The ledger's routes *)

Definition require_line (key : str) : io Tables PaymentLedger :=
  row ← atomic (on_lines (read key));
  lift (ok_or row NotFound).

(** [method_of], [note_of]: absent and blank are both none. *)
Definition flat_opt (f : str → result ValidationError (option str)) (raw : option str)
    : io Tables (option str) :=
  x ← checked_opt f raw; mret (mjoin x).

Record RecordPayment := MkRecordPayment {
  pay_target : str;
  pay_amount : Z;
  pay_method : option str;
  pay_note : option str;
  pay_key : option str;
}.

Definition record_with (write : PaymentLedger → Z → option str → option str → option str → uuid → io Tables PaymentLedger)
    (u : User) (req : RecordPayment) : io Tables PaymentLedger :=
  _ ← lift (require_manager u);
  target ← require_line (pay_target req);
  amount ← checked (ledger_amount_try_new (pay_amount req));
  method_ ← flat_opt ledger_method_try_new (pay_method req);
  note_ ← flat_opt ledger_note_try_new (pay_note req);
  request_key ← checked_opt request_key_try_new (pay_key req);
  write target amount method_ note_ request_key (uid u).

Definition record_payment : User → RecordPayment → io Tables PaymentLedger := record_with credit.
Definition record_refund : User → RecordPayment → io Tables PaymentLedger := record_with refund.

Definition record_reversal (u : User) (line : str) (note_ : option str) : io Tables PaymentLedger :=
  _ ← lift (require_manager u);
  target ← require_line line;
  note_ ← flat_opt ledger_note_try_new note_;
  reversal target note_ (uid u).

(** *** Who may read a family's money *)

(** [parent_link::links_live]: the tie is there, and its student is still one. *)
Definition links_live (parent student_ : uuid) : io Tables bool :=
  tied ← atomic (gets (λ t, bool_decide ((parent, student_) ∈ parent_links t)));
  if tied : bool then
    role ← atomic (read_role student_);
    mret (bool_decide (role = Some Student))
  else mret false.

Definition ensure_can_read_payments (caller : User) (target : uuid) : io Tables () :=
  let refused := Forbidden "requires manager role or higher, or a parent link to this student" in
  if bool_decide (uid caller = target) || at_least (get_role caller) Manager then mret () else
  if bool_decide (get_role caller = Parent) then
    live ← links_live (uid caller) target;
    if live : bool then mret () else raise refused
  else raise refused.
End Texts.
