(* ===== verification/Statements.v ===== *)
(** * Statements ([src/web/payments.rs])

    What a family reads of the ledger: one entry per charge, rolled up from the
    lines that hang below it, and the balance folded from the very same lines.
    Nothing of it is stored. Text ids are compared by the collation of the
    database, which is a parameter. *)

From S2P Require Import Prelude Text Errors Effects Uuid Validate Modules Gates Ledger Payments FeePlans.
Open Scope Z_scope.

Record StatementEntry := MkEntry {
  charge_id : str;
  e_plan : option uuid;
  e_plan_name : option str;
  e_amount : Z;
  e_due : option Z;
  credited_minor : Z;
  refunded_minor : Z;
  outstanding_minor : Z;
  is_reversed : bool;
  overdue : bool;
}.

Record Statement := MkStatement {
  entries : list StatementEntry;
  entries_total : Z;
  balance_minor : Z;
}.

(** [Iterator::sum] over [i64]. *)
Definition sum64 (xs : list Z) : Z := foldl (λ s x, i64_wrap (s + x)) 0 xs.

(** ** The rollup of one charge *)

Section Rollup.
Context `{UuidText} (ls : list PaymentLedger).

(** The index [children]: the lines that point at [key]. *)
Definition children (key : str) : list PaymentLedger := filter (λ l, source l = Some key) ls.

Definition reversed (key : str) : bool :=
  existsb (λ kid, bool_decide (kind kid = Reversal)) (children key).

Definition paid (charge : PaymentLedger) : list PaymentLedger :=
  filter (λ kid, kind kid = Credit) (children (id charge)).

(** The refunds that were not undone. *)
Definition handed_back (charge : PaymentLedger) : list PaymentLedger :=
  filter (λ kid, kind kid = Refund ∧ reversed (id kid) = false)
    (paid charge ≫= λ credit, children (id credit)).

Definition entry (names : gmap str (option str)) (plan_of : gmap str uuid) (t_now : Z)
    (charge : PaymentLedger) : StatementEntry :=
  let credited := sum64 (amount_minor <$> paid charge) in
  let refunded := sum64 (amount_minor <$> handed_back charge) in
  let undone := reversed (id charge) in
  let outstanding :=
    if undone then 0 else i64_wrap (i64_wrap (amount_minor charge - credited) + refunded) in
  let plan := plan_of !! default [] (source charge) in
  MkEntry (id charge) plan (plan ≫= λ p, mjoin (names !! uuid_text p)) (amount_minor charge) (due_at charge)
    credited refunded outstanding undone
    ((0 <? outstanding) && match due_at charge with Some due => due <? t_now | None => false end).

Definition charges : list PaymentLedger := filter (λ l, kind l = Charge) ls.
End Rollup.

(** ** The request *)

Section Requests.
Context `{UuidText} (collate : relation str) `{collate_dec : !RelDecision collate}.

(** [ORDER BY created_at DESC, id DESC]. *)
Definition newest (l l' : PaymentLedger) : Prop :=
  created_at l' < created_at l ∨ (created_at l = created_at l' ∧ collate (id l') (id l)).
#[global] Instance newest_dec : RelDecision newest.
Proof using collate_dec. intros l l'. unfold newest. apply _. Defined.

(** [payment_ledger::list_for_student], unpaged. *)
Definition list_for_student (t : Tables) (s : uuid) : list PaymentLedger :=
  merge_sort newest (filter (λ l, student l = s) (rows (lines t))).

(** [fee_plan_assignment::list_for_student], unpaged:
    [ORDER BY created_at DESC, plan DESC, student DESC]. *)
Definition newest_placed (x y : FeePlanAssignment) : Prop :=
  placed_at y < placed_at x ∨ (placed_at x = placed_at y ∧ (of_plan y ≤ of_plan x)%N).
#[global] Instance newest_placed_dec : RelDecision newest_placed.
Proof. intros x y. unfold newest_placed. apply _. Defined.

Definition placements_of (t : Tables) (s : uuid) : list FeePlanAssignment :=
  merge_sort newest_placed (filter (λ x, of_student x = s) (map_to_list (assignments t)).*2).

(** The two maps, plan by plan; a name is read once. *)
Fixpoint read_names (asgs : list FeePlanAssignment) (names : gmap str (option str)) (plan_of : gmap str uuid)
    : io Tables (gmap str (option str) * gmap str uuid) :=
  match asgs with
  | [] => mret (names, plan_of)
  | a :: rest =>
      names ← match names !! uuid_text (of_plan a) with
        | Some _ => mret names
        | None =>
            p ← atomic (read_plan (of_plan a));
            mret (<[uuid_text (of_plan a) := p_name <$> p]> names)
        end;
      read_names rest names (<[assignment_key (placement a) := of_plan a]> plan_of)
  end.

Definition statement_response (s : uuid) (limit : option Z) (offset : Z) : io Tables Statement :=
  ls ← atomic (gets (λ t, list_for_student t s));
  asgs ← atomic (gets (λ t, placements_of t s));
  '(names, plan_of) ← read_names asgs ∅ ∅;
  t_now ← now;
  let billed := charges ls in
  mret (MkStatement (entry ls names plan_of t_now <$> paginate billed limit offset)
    (Z.of_nat (length billed)) (fold_balance (folded <$> ls))).

Definition my_statement (caller : User) (limit offset : option Z) : io Tables Statement :=
  '(limit, offset) ← lift (resolve_page limit offset);
  statement_response (uid caller) limit offset.

Definition user_statement (caller : User) (user : str) (limit offset : option Z) : io Tables Statement :=
  '(limit, offset) ← lift (resolve_page limit offset);
  let target := uuid_from_key user in
  _ ← ensure_can_read_payments caller target;
  statement_response target limit offset.

Definition user_balance (caller : User) (user : str) : io Tables Z :=
  let target := uuid_from_key user in
  _ ← ensure_can_read_payments caller target;
  atomic (gets (λ t, balance_of (lines t) target)).
End Requests.
