(* ===== verification/FeePlanProofs.v ===== *)
(** * What fee plans and the ledger promise each other

    The invariant of [FeePlans.Tables]: the refcount of a plan counts its
    placements, and every charge of the ledger is a copy of the installment its
    id names, of a plan the charged student is on. Nobody removes a line or a
    placement, and a plan somebody is on stays as it is: these are the moves of
    every statement, so they are what a request may rely on between its own. *)

From S2P Require Import Prelude Text Errors Effects Uuid Validate Modules Gates Ledger Tally Answers Payments PaymentProofs FeePlans.
Open Scope Z_scope.

Section Invariant.
Context `{UuidText}.

(** A schedule as the routes let it through. *)
Definition schedule_ok (ins : list Installment) : Prop :=
  validate_installments ins = Ok () ∧ Forall (λ i, amount_ok (i_amount i)) ins.

(** Installment [n] of the plan a placement is on. *)
Definition installment_at (t : Tables) (a : FeePlanAssignmentId) (n : Z) : option Installment :=
  row ← plans t !! plan a;
  if decide (1 ≤ n) then installments (row_plan row) !! Z.to_nat (n - 1) else None.

Definition copied (t : Tables) (a : FeePlanAssignmentId) (n : Z) (l : PaymentLedger) : Prop :=
  kind l = Charge ∧ is_Some (assignments t !! a)
  ∧ student l = assignee a ∧ source l = Some (assignment_key a)
  ∧ ∃ i, installment_at t a n = Some i ∧ amount_minor l = i_amount i ∧ due_at l = Some (i_due i).

Definition origin (t : Tables) (k : key) (l : PaymentLedger) : Prop :=
  match k with KInstallment a n => copied t a n l | _ => kind l ≠ Charge end.

(** The placements of a plan. *)
Definition placed_on (p : FeePlanAssignmentId * FeePlanAssignment) : option uuid := Some (plan p.1).

Record ok (t : Tables) : Prop := {
  ok_wf : wf (lines t);
  ok_users : ∀ u, is_Some (users t !! u) → uuid_ok u;
  ok_plans : ∀ p row, plans t !! p = Some row →
    p_id (row_plan row) = p ∧ uuid_ok p ∧ schedule_ok (installments (row_plan row));
  ok_placed : ∀ a x, assignments t !! a = Some x →
    placement x = a ∧ uuid_ok (assignee a) ∧ is_Some (plans t !! plan a);
  ok_count : tallies placed_on (assignment_count <$> plans t) (assignments t);
  ok_origin : ∀ i l, lines t !! i = Some l →
    ∃ k, key_ok k ∧ base_ok (base k) ∧ spell k = i ∧ origin t k l;
}.

(** What the statements of every request do. *)
Record moves (t t' : Tables) : Prop := {
  mv_users : ∀ u, is_Some (users t !! u) → is_Some (users t' !! u);
  mv_lines : lines t ⊆ lines t';
  mv_placed : assignments t ⊆ assignments t';
  mv_frozen : ∀ p row, plans t !! p = Some row → 0 < assignment_count row →
    ∃ row', plans t' !! p = Some row' ∧ row_plan row' = row_plan row
            ∧ 0 < assignment_count row';
}.

#[export] Instance moves_preorder : PreOrder moves.
Proof.
  split.
  - intros t. split; [done|done|done|]. intros p row Hp Hc. by exists row.
  - intros t1 t2 t3 [Hu1 Hl1 Ha1 Hf1] [Hu2 Hl2 Ha2 Hf2].
    split; [auto|by etrans|by etrans|]. intros p row Hp Hc.
    destruct (Hf1 _ _ Hp Hc) as (row2 & Hp2 & E2 & Hc2).
    destruct (Hf2 _ _ Hp2 Hc2) as (row3 & Hp3 & E3 & Hc3). exists row3. split_and!; congruence.
Qed.

(** ** Consequences *)

(** A plan somebody is on has a positive count. *)
Lemma placed_plan t a x :
  ok t → assignments t !! a = Some x →
  ∃ row, plans t !! plan a = Some row ∧ 0 < assignment_count row.
Proof.
  intros Hok Ha. destruct (ok_placed _ Hok _ _ Ha) as (_ & _ & [row Hp]).
  exists row. split; [done|].
  assert ((assignment_count <$> plans t) !! plan a = Some (assignment_count row)) as Hc
    by by rewrite lookup_fmap, Hp.
  rewrite (ok_count _ Hok _ _ Hc).
  pose proof (tallied_pos placed_on (assignments t) a x (plan a) Ha eq_refl). lia.
Qed.

Lemma copied_moves t t' a n l : ok t → moves t t' → copied t a n l → copied t' a n l.
Proof.
  intros Hok Hmv (Hk & [x Hx] & Hs & Hsrc & i & Hi & Hrest).
  destruct (placed_plan _ _ _ Hok Hx) as (row & Hp & Hc).
  destruct (mv_frozen _ _ Hmv _ _ Hp Hc) as (row' & Hp' & E & _).
  split_and!; [done| |done|done|].
  - exists x. by apply (lookup_weaken _ _ _ _ Hx), mv_placed.
  - exists i. split; [|done]. revert Hi. unfold installment_at. rewrite Hp, Hp'. simpl. by rewrite E.
Qed.

Lemma origin_moves t t' k l : ok t → moves t t' → origin t k l → origin t' k l.
Proof. destruct k; simpl; [done|apply copied_moves|done|done]. Qed.

(** Two spellings of a stored line's id. *)
Lemma origin_of t k l :
  ok t → lines t !! spell k = Some l → key_ok k → base_ok (base k) → origin t k l.
Proof.
  intros Hok Hl Hk Hb. destruct (ok_origin _ Hok _ _ Hl) as (k' & Hk' & Hb' & E & Ho).
  by rewrite <- (spell_inj k' k Hk' Hk Hb' Hb E).
Qed.

Lemma key_of_line t i l :
  ok t → lines t !! i = Some l → ∃ k, key_ok k ∧ base_ok (base k) ∧ spell k = i.
Proof. intros Hok Hl. destruct (ok_origin _ Hok _ _ Hl) as (k & ? & ? & ? & _). by exists k. Qed.

(** A charge is the copy its id names. *)
Lemma charge_copied t i l :
  ok t → lines t !! i = Some l → kind l = Charge →
  ∃ a n, i = for_installment a n ∧ base_ok (inr (a, n)) ∧ copied t a n l.
Proof.
  intros Hok Hl Hk. destruct (ok_origin _ Hok _ _ Hl) as (k & Hko & Hb & <- & Ho).
  destruct k as [u|a n|k|k m r]; simpl in *; try done. by exists a, n.
Qed.

(** ** Writes that leave the ledger alone *)

Lemma same_lines_ok t t' :
  ok t → moves t t' → lines t' = lines t →
  (∀ u, is_Some (users t' !! u) → uuid_ok u) →
  (∀ p row, plans t' !! p = Some row →
    p_id (row_plan row) = p ∧ uuid_ok p ∧ schedule_ok (installments (row_plan row))) →
  (∀ a x, assignments t' !! a = Some x →
    placement x = a ∧ uuid_ok (assignee a) ∧ is_Some (plans t' !! plan a)) →
  tallies placed_on (assignment_count <$> plans t') (assignments t') → ok t'.
Proof.
  intros Hok Hmv El Hu Hp Ha Hc. split; [|done..|].
  - rewrite El. apply Hok.
  - intros i l Hl. rewrite El in Hl. destruct (ok_origin _ Hok _ _ Hl) as (k & ? & ? & ? & Ho).
    exists k. split_and!; [done..|]. by apply (origin_moves t).
Qed.

Lemma schedule_of t p row : ok t → plans t !! p = Some row → schedule_ok (installments (row_plan row)).
Proof. intros Hok Hp. by destruct (ok_plans _ Hok _ _ Hp) as (_ & _ & ?). Qed.

Lemma insert_plan_moves row t x t' :
  uuid_ok (p_id row) → schedule_ok (installments row) → ok t →
  insert_plan row t = Ok (x, t') → ok t' ∧ moves t t' ∧ x = row ∧ plans t' !! p_id row = Some (MkPlanRow row 0).
Proof.
  intros Hid Hs Hok. unfold insert_plan. case_bool_decide as Hnew; [done|].
  destruct (negb _); [done|]. intros [= <- <-].
  assert (plans t !! p_id row = None) as Hno by (destruct (plans t !! p_id row); [by destruct Hnew|done]).
  assert (moves t (set_plans <[p_id row:=MkPlanRow row 0]> t)) as Hmv.
  { split; [done|done|done|]. intros p r Hp Hc. exists r. simpl.
    rewrite lookup_insert_ne by congruence. done. }
  split_and!; [|done|done|by simpl; rewrite lookup_insert_eq].
  apply (same_lines_ok t); [done|done|done|apply Hok|..]; simpl.
  - intros p r [[<- <-]|[_ Hp]]%lookup_insert_Some; [done|by apply (ok_plans _ Hok)].
  - intros a y Ha. destruct (ok_placed _ Hok _ _ Ha) as (? & ? & [r Hr]). split_and!; [done|done|].
    destruct (decide (p_id row = plan a)) as [E|E]; [by rewrite E, lookup_insert_eq|by rewrite lookup_insert_ne].
  - rewrite fmap_insert. apply tallies_born; [|apply Hok]. intros a y Ha [= Hpa].
    destruct (ok_placed _ Hok _ _ Ha) as (_ & _ & [r Hr]). congruence.
Qed.

Lemma edit_plan_moves p name ins t x t' :
  (∀ i, ins = Some i → schedule_ok i) → ok t → edit_plan p name ins t = Ok (x, t') →
  ok t' ∧ moves t t'
  ∧ match x with
    | Some p' => ∃ row, plans t !! p = Some row ∧ assignment_count row = 0
        ∧ p' = coalesced name ins (row_plan row) ∧ plans t' !! p = Some (MkPlanRow p' 0)
    | None => t' = t ∧ (plans t !! p = None ∨ ∃ row, plans t !! p = Some row ∧ 0 < assignment_count row)
    end.
Proof.
  intros Hins Hok. unfold edit_plan. destruct (plans t !! p) as [row|] eqn:Hp; [|naive_solver].
  destruct (_ =? _) eqn:Hc; [apply Z.eqb_eq in Hc|apply Z.eqb_neq in Hc].
  - intros [= <- <-]. set (t' := set_plans _ t).
    assert (moves t t') as Hmv.
    { split; [done|done|done|]. intros q r Hq Hr. exists r. simpl.
      rewrite lookup_insert_ne; [done|]. intros <-. assert (r = row) as -> by congruence. lia. }
    split_and!; [|done|].
    + destruct (ok_plans _ Hok _ _ Hp) as (Hid & Hpu & Hsched).
      apply (same_lines_ok t); [done|done|done|apply Hok|..]; simpl.
      * intros q r [[<- <-]|[_ Hq]]%lookup_insert_Some; [|by apply (ok_plans _ Hok)].
        split_and!; [done|done|]. simpl. destruct ins; simpl; auto.
      * intros a y Ha. destruct (ok_placed _ Hok _ _ Ha) as (? & ? & Hr). split_and!; [done|done|].
        apply lookup_insert_is_Some'. by right.
      * rewrite column_put by (by rewrite Hp). apply Hok.
    + exists row. split_and!; [done|done|done|]. simpl. rewrite lookup_insert_eq. unfold on_plan. by rewrite Hc.
  - intros [= <- <-]. split_and!; [done|done|done|]. right. exists row. split; [done|].
    assert ((assignment_count <$> plans t) !! p = Some (assignment_count row)) as E
      by by rewrite lookup_fmap, Hp.
    pose proof (ok_count _ Hok _ _ E). pose proof (tallied_nonneg placed_on (assignments t) p). lia.
Qed.

Lemma drop_plan_moves p t x t' :
  ok t → drop_plan p t = Ok (x, t') →
  ok t' ∧ moves t t'
  ∧ (if x then plans t' !! p = None
     else t' = t ∧ (plans t !! p = None ∨ ∃ row, plans t !! p = Some row ∧ 0 < assignment_count row)).
Proof.
  intros Hok. unfold drop_plan. destruct (plans t !! p) as [row|] eqn:Hp; [|naive_solver].
  assert ((assignment_count <$> plans t) !! p = Some (assignment_count row)) as E
    by by rewrite lookup_fmap, Hp.
  pose proof (ok_count _ Hok _ _ E) as Ht. pose proof (tallied_nonneg placed_on (assignments t) p).
  destruct (_ =? _) eqn:Hc; [apply Z.eqb_eq in Hc|apply Z.eqb_neq in Hc].
  - case_bool_decide as Hon; [done|]. intros [= <- <-].
    assert (∀ a y, assignments t !! a = Some y → plan a ≠ p) as Hno.
    { intros a y Ha Hpa. apply Hon. by exists a, y. }
    assert (moves t (set_plans (delete p) t)) as Hmv.
    { split; [done|done|done|]. intros q r Hq Hr. exists r. simpl.
      rewrite lookup_delete_ne; [done|]. intros <-. assert (r = row) as -> by congruence. lia. }
    split_and!; [|done|by simpl; rewrite lookup_delete_eq].
    apply (same_lines_ok t); [done|done|done|apply Hok|..]; simpl.
    + intros q r [_ Hq]%lookup_delete_Some. by apply (ok_plans _ Hok).
    + intros a y Ha. destruct (ok_placed _ Hok _ _ Ha) as (? & ? & Hr). split_and!; [done|done|].
      by rewrite lookup_delete_ne by (symmetry; by eapply Hno).
    + rewrite fmap_delete. apply tallies_gone, Hok.
  - intros [= <- <-]. split_and!; [done|done|done|]. right. exists row. split; [done|]. lia.
Qed.

Lemma seat_claim_moves p student_ by_ at_ t x t' :
  ok t → claim p student_ by_ at_ t = Ok (x, t') →
  ok t' ∧ moves t t' ∧
  let a := MkAssignmentId p student_ in
  match x with
  | Made made => assignments t !! a = None ∧ assignments t' !! a = Some made ∧ placement made = a
                 ∧ is_Some (users t !! student_)
  | Duplicate => t' = t ∧ is_Some (assignments t !! a)
  | Full => t' = t
  end.
Proof.
  intros Hok. unfold claim. destruct (plans t !! p) as [row|] eqn:Hp; [|naive_solver].
  destruct (_ <? _); [|naive_solver]. cbn zeta.
  destruct (assignments t !! MkAssignmentId p student_) as [y|] eqn:Ha; [intros [= <- <-]; by eauto|].
  destruct (negb _) eqn:Hu; [done|]. apply negb_false_iff, andb_true_iff in Hu as [Hu _].
  unfold has_user in Hu. apply bool_decide_eq_true in Hu. intros [= <- <-].
  set (made := MkFeePlanAssignment p student_ by_ at_). set (t' := set_assignments _ _).
  assert (moves t t') as Hmv.
  { split; [done|done|by apply insert_subseteq|]. intros q r Hq Hr. simpl.
    destruct (decide (p = q)) as [<-|Hne].
    - rewrite lookup_alter_eq, Hq. simpl. exists (count_one r). split_and!; [done|done|]. simpl. lia.
    - exists r. by rewrite lookup_alter_ne. }
  split_and!; [|done|done|by simpl; rewrite lookup_insert_eq|done|done].
  apply (same_lines_ok t); [done|done|done|apply Hok|..]; simpl.
  - intros q r [(<- & r0 & Hr0 & ->)|[_ Hqr]]%lookup_alter_Some; [simpl|]; by apply (ok_plans _ Hok).
  - intros a y [[<- <-]|[_ Hy]]%lookup_insert_Some.
    + split_and!; [done|by apply (ok_users _ Hok)|]. simpl. by rewrite lookup_alter_eq, Hp.
    + destruct (ok_placed _ Hok _ _ Hy) as (? & ? & Hr). split_and!; [done|done|]. by rewrite lookup_alter_is_Some.
  - rewrite (column_moves assignment_count count_one bumped) by done.
    by apply tallies_bump; [| |apply Hok].
Qed.

(** ** The ledger's own statements *)

(** A line whose id spells a key joins. *)
Lemma new_line_ok t l k :
  ok t → lines t !! id l = None → joins (lines t) l →
  key_ok k → base_ok (base k) → spell k = id l → origin t k l →
  ok (set_lines (<[id l := l]> (lines t)) t) ∧ moves t (set_lines (<[id l := l]> (lines t)) t).
Proof.
  intros Hok Hl Hj Hk Hb Hsp Ho. set (t' := set_lines _ t).
  assert (moves t t') as Hmv.
  { split; [done|by apply insert_subseteq|done|]. intros p r Hp Hc. by exists r. }
  split; [|done]. pose proof Hok as [Hwf Hu Hp Ha Hc Hor]. split; [|done..|].
  - by apply wf_insert.
  - intros i y Hy. change (<[id l := l]> (lines t) !! i = Some y) in Hy.
    apply lookup_insert_Some in Hy as [[<- <-]|[_ Hy]]; [exists k|destruct (Hor _ _ Hy) as (k' & ? & ? & ? & ?); exists k'];
      (split_and!; [done..|]); by apply (origin_moves t).
Qed.

Lemma append_moves t l k x lt :
  ok t → (lines t !! id l = None → joins (lines t) l) →
  key_ok k → base_ok (base k) → spell k = id l → origin t k l →
  append l (lines t) = Ok (x, lt) →
  ok (set_lines lt t) ∧ moves t (set_lines lt t) ∧ lt !! id l = Some x ∧ origin t k x.
Proof.
  intros Hok Hj Hk Hb Hsp Ho E. pose proof (ok_wf _ Hok) as Hwf.
  destruct (append_wf _ _ _ _ Hwf Hj E) as (_ & _ & _ & [[-> Hl]|(-> & Hl & ->)]).
  - split_and!; [by destruct t|by destruct t|done|]. apply (origin_of t); [done|by rewrite Hsp|done|done].
  - destruct (new_line_ok t l k) as [? ?]; [done|done|by apply Hj|done..|].
    split_and!; [done|done|by rewrite lookup_insert_eq|done].
Qed.

(** Billing an installment: its line, or the one that is already there, which
    is the same copy. *)
Lemma bill_moves t a n i by_ now_ x t' :
  ok t → is_Some (assignments t !! a) → installment_at t a n = Some i →
  on_lines (append (installment_line a n (i_amount i) (i_due i) by_ now_)) t = Ok (x, t') →
  ok t' ∧ moves t t' ∧ lines t' !! for_installment a n = Some x ∧ copied t' a n x.
Proof.
  intros Hok [y Hy] Hi (lt & E & ->)%on_lines_ok.
  destruct (ok_placed _ Hok _ _ Hy) as (_ & Hs & [row Hp]).
  destruct (ok_plans _ Hok _ _ Hp) as (_ & Hpu & [_ Hsched]).
  assert (amount_ok (i_amount i)) as Ham.
  { unfold installment_at in Hi. rewrite Hp in Hi. simpl in Hi. case_decide; [|done].
    rewrite Forall_lookup in Hsched. by eapply Hsched. }
  destruct (append_moves t (installment_line a n (i_amount i) (i_due i) by_ now_) (KInstallment a n) x lt Hok)
    as (Hok' & Hmv & Hl & Ho); [|done|by split|done| |done|].
  - intros _. by apply charge_joins.
  - simpl. split_and!; [done|by exists y|done|done|]. by exists i.
  - split_and!; [done|done|done|]. by apply (copied_moves t).
Qed.

(** A line the ledger may append below another one. *)
Lemma below_moves t target k l x lt :
  ok t → lines t !! id target = Some target →
  joins (lines t) l → kind l ≠ Charge →
  key_ok k → base_ok (base k) → spell k = id l → (∀ a n, k ≠ KInstallment a n) →
  append l (lines t) = Ok (x, lt) → ok (set_lines lt t) ∧ moves t (set_lines lt t).
Proof.
  intros Hok Ht Hj Hc Hk Hb Hsp Hni E.
  assert (origin t k l) as Ho by (destruct k; simpl; [done|by edestruct Hni|done|done]).
  destruct (append_moves t l k x lt) as (? & ? & _); [done|auto|done..|]. by split.
Qed.

Lemma payment_moves target kind_ over reversed amount m n mk rk by_ now_ u t x t' :
  ok t → lines t !! id target = Some target → uuid_ok u → amount_ok amount → request_key_ok rk →
  may_target kind_ (kind target) = true → kind_ ≠ Reversal →
  on_lines (against_tx target kind_ over reversed amount m n
    (for_request (id target) (marker mk) <$> rk) by_ now_ u) t = Ok (x, t') →
  ok t' ∧ moves t t'.
Proof.
  intros Hok Ht Hu Ha Hrk Hm Hnr (lt & E & ->)%on_lines_ok. pose proof (ok_wf _ Hok) as Hwf.
  destruct (key_of_line _ _ _ Hok Ht) as (kt & Hkt & Hbt & Hspt).
  apply against_tx_inv in E as [(-> & _)|(_ & Hroom & E)]; [by destruct t| |done..].
  set (k := match rk with Some r => KRequest kt mk r | None => KFresh u end).
  refine (below_moves t target k _ x lt Hok Ht _ _ _ _ _ _ E).
  - by apply payment_joins; try apply keyed_ok_request.
  - simpl. intros ->. by destruct (kind target).
  - unfold k. destruct rk; simpl; [by split|done].
  - unfold k. by destruct rk.
  - unfold k. destruct rk; simpl; [|done]. by rewrite Hspt.
  - unfold k. by destruct rk.
Qed.

Lemma reversal_moves line n by_ now_ t x t' :
  ok t → lines t !! id line = Some line → kind line = Charge ∨ kind line = Refund →
  on_lines (reversal_tx line n by_ now_) t = Ok (x, t') → ok t' ∧ moves t t'.
Proof.
  intros Hok Ht Hk (lt & E & ->)%on_lines_ok.
  destruct (key_of_line _ _ _ Hok Ht) as (kt & Hkt & Hbt & Hspt).
  unfold reversal_tx, lock_for_cap in E. rewrite tx_bind_gets in E.
  refine (below_moves t line (KReversal kt) _ x lt Hok Ht _ _ _ _ _ _ E); try done.
  - apply reversal_joins; [|done]. split; [apply Hok|done].
  - simpl. by rewrite Hspt.
Qed.
End Invariant.
