(* ===== verification/FeePlanRuns.v ===== *)
(** * What a placement bills, and who may still change its plan

    The requests of [FeePlans], whatever the others commit in between. *)

From S2P Require Import Prelude Text Errors Effects Uuid Validate Modules Gates Ledger Tally Answers Payments PaymentProofs FeePlans FeePlanProofs.
Open Scope Z_scope.

Section Runs.
Context `{UuidText}.

Abbreviation promises := (draws ok moves).

(** ** What interference cannot undo *)

Lemma steady_line l : steady ok moves (λ t, lines t !! id l = Some l).
Proof. intros t t' _ _ Hmv Hl. exact (lookup_weaken _ _ _ _ Hl (mv_lines _ _ Hmv)). Qed.

Lemma steady_placed a x : steady ok moves (λ t, assignments t !! a = Some x).
Proof. intros t t' _ _ Hmv Ha. exact (lookup_weaken _ _ _ _ Ha (mv_placed _ _ Hmv)). Qed.

(** A plan somebody is on, as it was when they were placed. *)
Definition frozen (a : FeePlanAssignmentId) (x : FeePlanAssignment) (p : FeePlan) (t : Tables) : Prop :=
  assignments t !! a = Some x ∧ ∃ c, plans t !! plan a = Some (MkPlanRow p c).

Lemma frozen_count a x p t :
  ok t → frozen a x p t → ∃ c, plans t !! plan a = Some (MkPlanRow p c) ∧ 0 < c.
Proof.
  intros Hok [Ha [c Hp]]. destruct (placed_plan _ _ _ Hok Ha) as (row & Hp' & Hc).
  exists c. split; [done|]. rewrite Hp in Hp'. by injection Hp' as <-.
Qed.

Lemma steady_frozen a x p : steady ok moves (frozen a x p).
Proof.
  intros t t' Hok _ Hmv Hf. destruct (frozen_count _ _ _ _ Hok Hf) as (c & Hp & Hc).
  destruct Hf as [Ha _]. split; [exact (lookup_weaken _ _ _ _ Ha (mv_placed _ _ Hmv))|].
  destruct (mv_frozen _ _ Hmv _ _ Hp Hc) as ([q c'] & Hp' & E & _). simpl in E. subst q. by exists c'.
Qed.

Lemma steady_copied a n : steady ok moves (λ t, ∃ l, lines t !! for_installment a n = Some l ∧ copied t a n l).
Proof.
  intros t t' Hok _ Hmv (l & Hl & Hc). exists l.
  split; [exact (lookup_weaken _ _ _ _ Hl (mv_lines _ _ Hmv))|by apply (copied_moves t)].
Qed.

(** ** Billing *)

Definition billed (t : Tables) (a : FeePlanAssignmentId) (n : Z) : Prop :=
  ∃ l, lines t !! for_installment a n = Some l ∧ copied t a n l.

Lemma installment_frozen a x p t n i :
  frozen a x p t → (n, i) ∈ numbered (installments p) → installment_at t a n = Some i.
Proof.
  intros [_ [c Hp]] Hin. unfold numbered in Hin. apply list_elem_of_lookup in Hin as [j Hj].
  apply list_lookup_imap_Some in Hj as (y & Hy & [= -> ->]).
  unfold installment_at. rewrite Hp. simpl. rewrite decide_True by lia.
  by replace (Z.to_nat (Z.of_nat j + 1 - 1)) with j by lia.
Qed.

Lemma numbered_frozen a x p t n i :
  frozen a x p t → installment_at t a n = Some i → (n, i) ∈ numbered (installments p).
Proof.
  intros [_ [c Hp]] Hi. unfold installment_at in Hi. rewrite Hp in Hi. simpl in Hi.
  case_decide; [|done]. apply list_elem_of_lookup. exists (Z.to_nat (n - 1)).
  unfold numbered. rewrite list_lookup_imap, Hi. simpl. do 2 f_equal. lia.
Qed.

(** Billing one installment never fails. *)
Lemma bill_total t a n i by_ now_ e :
  ok t → is_Some (assignments t !! a) →
  on_lines (append (installment_line a n (i_amount i) (i_due i) by_ now_)) t ≠ Err e.
Proof.
  intros Hok [y Hy] E%on_lines_err. unfold append in E. change (ledger_of t) with (lines t) in E.
  cbn [installment_line id] in E.
  destruct (lines t !! for_installment a n) as [l|] eqn:Hl; [|by rewrite decide_True in E].
  destruct (ok_placed _ Hok _ _ Hy) as (_ & Hs & [row Hp]).
  destruct (ok_plans _ Hok _ _ Hp) as (_ & Hpu & _).
  destruct (origin_of t (KInstallment a n) l) as (Hk & _); [done|done|done|done|].
  rewrite decide_True in E; [done|]. by rewrite Hk.
Qed.

Lemma bill_promises a x p n i by_ (P : Tables → Prop) :
  steady ok moves P → placement x = a → (n, i) ∈ numbered (installments p) →
  promises (λ t, frozen a x p t ∧ P t) (bill x n i by_)
    (λ r t, r = Ok () ∧ frozen a x p t ∧ P t ∧ billed t a n).
Proof.
  intros HP Hx Hin. unfold bill, charge_for_installment. rewrite Hx.
  apply (draws_bind _ _ _ _ _ (λ r t, is_ok r = true ∧ frozen a x p t ∧ P t ∧ billed t a n)).
  - apply draws_now; [apply _|]. intros t_now.
    apply draws_commit; [apply _|apply (steady_and ok moves moves); [apply steady_frozen|done]| |].
    + intros t l t' Hok [Hf HPt] E.
      assert (is_Some (assignments t !! a)) as Ha by (destruct Hf; by eexists).
      destruct (bill_moves t a n i by_ t_now l t') as (Hok' & Hmv & Hl & Hc);
        [done|done|by apply (installment_frozen a x p)|done|].
      split_and!; [done|done|done|by apply (steady_frozen _ _ _ t)|by apply (HP t)|by exists l].
    + intros t e Hok [[Ha _] _] E. destruct (bill_total t a n i by_ t_now e Hok); [by exists x|done].
  - intros l. apply draws_done; [apply _|]. naive_solver.
  - naive_solver.
Qed.

(** ** Placing a plan on a student *)

(** Every installment of the plan has its charge. *)
Definition fully_billed (t : Tables) (a : FeePlanAssignmentId) : Prop :=
  ∀ n i, installment_at t a n = Some i → billed t a n.

Lemma bills_promises a x p by_ :
  placement x = a →
  promises (frozen a x p)
    (for_each (numbered (installments p)) (λ '(n, i), bill x n i by_))
    (λ r t, r = Ok () ∧ frozen a x p t ∧ fully_billed t a).
Proof.
  intros Hx. set (done_ (xs : list (Z * Installment)) (t : Tables) := Forall (λ q, billed t a q.1) xs).
  eapply (draws_weaken ok moves (λ t, frozen a x p t ∧ done_ [] t));
    [| |apply (draws_for_each ok moves (frozen a x p) done_ (λ _ _, False))].
  - intros t _ Hf. split; [done|]. apply Forall_nil_2.
  - intros [[]|e] t Hok Hr; [|done]. destruct Hr as [Hf Hb]. split_and!; [done|done|].
    intros n i Hi. unfold done_ in Hb. rewrite Forall_forall in Hb.
    exact (Hb (n, i) (numbered_frozen a x p t n i Hf Hi)).
  - intros before [n i] rest E. eapply (draws_weaken ok moves); [| |apply (bill_promises a x p n i by_ (done_ before))].
    + intros t _ Hp. exact Hp.
    + intros r t _ (-> & Hf & Hb & Hn). split; [done|]. apply Forall_app_2; [done|by constructor].
    + intros t t' Hok Hok' Hmv Hb. unfold done_ in *. eapply Forall_impl; [exact Hb|].
      intros q. by apply (steady_copied a q.1 t).
    + done.
    + rewrite E. set_solver.
Qed.

(** *** The bill *)

(** The charges of a placement. *)
Definition charges_of (t : Tables) (a : FeePlanAssignmentId) : list PaymentLedger :=
  filter (λ l, kind l = Charge ∧ source l = Some (assignment_key a)) (rows (lines t)).

(** What a charge, and an installment, bill. *)
Definition charge_terms (l : PaymentLedger) : Z * option Z := (amount_minor l, due_at l).
Definition installment_terms (i : Installment) : Z * option Z := (i_amount i, Some (i_due i)).

Lemma assignment_key_inj a b :
  uuid_ok (plan a) → uuid_ok (assignee a) → uuid_ok (plan b) → uuid_ok (assignee b) →
  assignment_key a = assignment_key b → a = b.
Proof.
  intros Hpa Hsa Hpb Hsb E. unfold assignment_key, pair_key in E.
  apply plain_split in E as [Ep Es]; [|apply uuid_text_no_underscore..].
  apply uuid_text_inj in Ep, Es; [|done..]. destruct a, b. simpl in *. by subst.
Qed.

Lemma elem_of_charges t a l :
  ok t → is_Some (assignments t !! a) →
  l ∈ charges_of t a ↔ ∃ n, id l = for_installment a n ∧ lines t !! id l = Some l ∧ copied t a n l.
Proof.
  intros Hok [y Hy]. destruct (ok_placed _ Hok _ _ Hy) as (_ & Hs & [row Hp]).
  destruct (ok_plans _ Hok _ _ Hp) as (_ & Hpu & _).
  unfold charges_of. rewrite list_elem_of_filter, elem_of_rows by apply Hok. split.
  - intros [[Hk Hsrc] Hl]. destruct (charge_copied _ _ _ Hok Hl Hk) as (b & n & Hid & [Hpb Hsb] & Hc).
    pose proof Hc as (_ & _ & _ & Hsrc' & _). rewrite Hsrc in Hsrc'. injection Hsrc' as E.
    apply assignment_key_inj in E as ->; [|done..]. by exists n.
  - intros (n & Hid & Hl & Hc). pose proof Hc as (Hk & _ & _ & Hsrc & _). done.
Qed.

(** The charges, in the order of the schedule. *)
Definition by_installment (t : Tables) (a : FeePlanAssignmentId) (ins : list Installment) : list PaymentLedger :=
  omap (λ q, lines t !! for_installment a q.1) (numbered ins).

Lemma for_installment_inj a n m :
  uuid_ok (plan a) → uuid_ok (assignee a) → for_installment a n = for_installment a m → n = m.
Proof.
  intros Hp Hs E. assert (KInstallment a n = KInstallment a m) as [= ->]; [|done].
  by apply spell_inj.
Qed.

Lemma numbered_snd (ins : list Installment) : (numbered ins).*2 = ins.
Proof.
  unfold numbered. rewrite fmap_imap. apply list_eq. intros j. rewrite list_lookup_imap.
  by destruct (ins !! j).
Qed.

Lemma NoDup_numbered (ins : list Installment) : NoDup (numbered ins).*1.
Proof.
  unfold numbered. rewrite fmap_imap. apply NoDup_alt. intros j k n Hj Hk.
  apply list_lookup_imap_Some in Hj as (? & _ & ->), Hk as (? & _ & E). simpl in E. lia.
Qed.

Lemma NoDup_by_installment t a ins :
  ok t → uuid_ok (plan a) → uuid_ok (assignee a) → NoDup (by_installment t a ins).
Proof.
  intros Hok Hp Hs. unfold by_installment. pose proof (NoDup_numbered ins) as Hn.
  induction (numbered ins) as [|[n i] xs IH]; [constructor|]. apply NoDup_cons in Hn as [Hn Hxs].
  simpl. destruct (lines t !! for_installment a n) as [l|] eqn:Hl; [|by apply IH].
  apply NoDup_cons. split; [|by apply IH]. intros ([m j] & Hin & Hm)%list_elem_of_omap. simpl in Hm.
  pose proof (wf_id _ (ok_wf _ Hok) _ _ Hl) as E1. pose proof (wf_id _ (ok_wf _ Hok) _ _ Hm) as E2.
  rewrite E1 in E2. apply for_installment_inj in E2 as ->; [|done..].
  apply Hn, list_elem_of_fmap. by exists (m, j).
Qed.

Lemma charges_perm a x p t : ok t → frozen a x p t → charges_of t a ≡ₚ by_installment t a (installments p).
Proof.
  intros Hok Hf. pose proof Hf as [Ha [c Hp]].
  destruct (ok_placed _ Hok _ _ Ha) as (_ & Hs & _). destruct (ok_plans _ Hok _ _ Hp) as (_ & Hpu & _).
  apply NoDup_Permutation.
  - unfold charges_of. apply NoDup_filter. unfold rows.
    apply NoDup_fmap_2_strong; [|apply NoDup_map_to_list].
    intros [i l] [j m] Hi Hj E. simpl in E. subst m.
    apply elem_of_map_to_list in Hi, Hj. rewrite <- (wf_id _ (ok_wf _ Hok) _ _ Hi) at 1.
    by rewrite <- (wf_id _ (ok_wf _ Hok) _ _ Hj) at 1.
  - by apply NoDup_by_installment.
  - intros l. rewrite elem_of_charges by (try done; by exists x). unfold by_installment. rewrite list_elem_of_omap. split.
    + intros (n & Hid & Hl & Hc). pose proof Hc as (_ & _ & _ & _ & i & Hi & _). exists (n, i).
      split; [by apply (numbered_frozen a x p t)|]. simpl. by rewrite <- Hid.
    + intros ([n i] & Hin & Hl). simpl in Hl. pose proof (wf_id _ (ok_wf _ Hok) _ _ Hl) as Hid. exists n.
      rewrite Hid. split_and!; [done|done|]. by apply (origin_of t (KInstallment a n)).
Qed.

Lemma terms_copied t a n l i :
  installment_at t a n = Some i → copied t a n l → charge_terms l = installment_terms i.
Proof.
  intros Hi (_ & _ & _ & _ & j & Hj & Ham & Hdue). unfold charge_terms, installment_terms. congruence.
Qed.

(** A full bill is the schedule, line for line; any bill is part of it. *)
Lemma bill_is_schedule a x p t :
  ok t → frozen a x p t → fully_billed t a →
  charge_terms <$> charges_of t a ≡ₚ installment_terms <$> installments p.
Proof.
  intros Hok Hf Hb. rewrite (charges_perm a x p t) by done. apply reflexive_eq.
  assert (∀ xs, (∀ n i, (n, i) ∈ xs → (n, i) ∈ numbered (installments p)) →
    charge_terms <$> omap (λ q, lines t !! for_installment a q.1) xs = installment_terms <$> xs.*2) as Hxs.
  { induction xs as [|[n i] xs IH]; intros Hin; [done|].
    assert (installment_at t a n = Some i) as Hi by (apply (installment_frozen a x p); [done|apply Hin; left]).
    destruct (Hb _ _ Hi) as (l & Hl & Hc). simpl. rewrite Hl. simpl.
    f_equal; [by apply (terms_copied t a n)|]. apply IH. intros m j Hm. apply Hin. by right. }
  unfold by_installment. rewrite Hxs by done. by rewrite numbered_snd.
Qed.

Lemma length_omap_le {A B} (f : A → option B) xs : (length (omap f xs) ≤ length xs)%nat.
Proof. induction xs as [|x xs IH]; [done|]. csimpl. destruct (f x); csimpl; lia. Qed.

Lemma omap_full {A B} (f : A → option B) xs :
  length (omap f xs) = length xs → ∀ x, x ∈ xs → is_Some (f x).
Proof.
  induction xs as [|y xs IH]; intros Hl x Hx; [by apply elem_of_nil in Hx|].
  pose proof (length_omap_le f xs). csimpl in *. destruct (f y) as [b|] eqn:Hy; csimpl in *; [|lia].
  apply elem_of_cons in Hx as [->|Hx]; [by eexists|]. apply IH; [lia|done].
Qed.

(** A bill that is the schedule lacks nothing. *)
Lemma schedule_means_billed a x p t :
  ok t → frozen a x p t →
  charge_terms <$> charges_of t a ≡ₚ installment_terms <$> installments p → fully_billed t a.
Proof.
  intros Hok Hf E n i Hi. apply Permutation_length in E. rewrite !length_fmap in E.
  rewrite (charges_perm a x p t) in E by done. unfold by_installment in E.
  assert (length (numbered (installments p)) = length (installments p)) as Hn by (unfold numbered; by rewrite length_imap).
  rewrite <- Hn in E.
  destruct (omap_full _ _ E (n, i)) as [l Hl]; [by apply (numbered_frozen a x p t)|]. simpl in Hl.
  exists l. split; [done|]. pose proof Hf as [Ha [c Hp]].
  destruct (ok_placed _ Hok _ _ Ha) as (_ & Hs & _). destruct (ok_plans _ Hok _ _ Hp) as (_ & Hpu & _).
  by apply (origin_of t (KInstallment a n)).
Qed.

Lemma bill_within_schedule a x p t :
  ok t → frozen a x p t → charge_terms <$> charges_of t a ⊆+ installment_terms <$> installments p.
Proof.
  intros Hok Hf. rewrite (charges_perm a x p t) by done.
  assert (∀ xs, (∀ n i, (n, i) ∈ xs → (n, i) ∈ numbered (installments p)) →
    charge_terms <$> omap (λ q, lines t !! for_installment a q.1) xs ⊆+ installment_terms <$> xs.*2) as Hxs.
  { induction xs as [|[n i] xs IH]; intros Hin; [done|].
    assert (installment_at t a n = Some i) as Hi by (apply (installment_frozen a x p); [done|apply Hin; left]).
    assert (∀ m j, (m, j) ∈ xs → (m, j) ∈ numbered (installments p)) as Hin' by (intros m j Hm; apply Hin; by right).
    simpl. destruct (lines t !! for_installment a n) as [l|] eqn:Hl; [|by apply submseteq_cons, IH].
    simpl. rewrite (terms_copied t a n l i); [by apply submseteq_skip, IH|done|].
    pose proof Hf as [Ha [c Hp]].
    destruct (ok_placed _ Hok _ _ Ha) as (_ & Hs & _). destruct (ok_plans _ Hok _ _ Hp) as (_ & Hpu & _).
    by apply (origin_of t (KInstallment a n)). }
  unfold by_installment. etrans; [by apply Hxs|]. apply reflexive_eq. by rewrite numbered_snd.
Qed.

Lemma claim_refusal p s by_ at_ t e : claim p s by_ at_ t = Err e → e = fk_violation.
Proof. unfold claim. repeat case_match; naive_solver. Qed.

Lemma steady_is_placed a : steady ok moves (λ t, is_Some (assignments t !! a)).
Proof. intros t t' Hok Hok' Hmv [x Hx]. exists x. by apply (steady_placed a x t). Qed.

Lemma require_promises a :
  promises (λ t, is_Some (assignments t !! a)) (require_assignment a)
    (λ r t, ∃ x, r = Ok x ∧ assignments t !! a = Some x).
Proof.
  unfold require_assignment, read_assignment. apply draws_read; [apply _|apply steady_is_placed|].
  intros s0 Hok [x Hx]. rewrite Hx. simpl. apply draws_done; [apply _|]. intros t _ [_ Hmv].
  exists x. split; [done|]. exact (lookup_weaken _ _ _ _ Hx (mv_placed _ _ Hmv)).
Qed.

(** What one placement answers. *)
Definition placed_and_billed (a : FeePlanAssignmentId) (r : result AppError (FeePlanAssignment * bool)) (t : Tables) : Prop :=
  match r with
  | Ok (x, _) => ∃ q, frozen a x q t ∧ fully_billed t a
                      ∧ charge_terms <$> charges_of t a ≡ₚ installment_terms <$> installments q
  | Err e => e = NotFound ∨ e = fk_violation
  end.

Lemma assign_promises p s by_ :
  promises (λ _, True) (assign p s by_) (placed_and_billed (MkAssignmentId (p_id p) s)).
Proof.
  unfold assign. set (a := MkAssignmentId (p_id p) s).
  apply draws_now; [apply _|]. intros t_now.
  apply (draws_bind ok moves _ _ _ (λ r t, match r with
    | Ok (Made x) => assignments t !! a = Some x ∧ placement x = a
    | Ok Duplicate => is_Some (assignments t !! a) | Ok Full => True | Err e => e = fk_violation end)).
  { apply draws_commit; [apply _|done| |].
    - intros t c t' Hok _ E. destruct (seat_claim_moves _ _ _ _ _ _ _ Hok E) as (Hok' & Hmv & Hc).
      split_and!; [done|done|]. destruct c; naive_solver.
    - intros t e _ _ E. by eapply claim_refusal. }
  2: { intros e t _ ->. by right. }
  intros c. apply (draws_bind ok moves _ _ _ (λ r t, match r with
    | Ok (x, _) => assignments t !! a = Some x | Err e => e = NotFound end)).
  { destruct c as [x| |].
    - apply draws_done; [apply _|]. naive_solver.
    - apply draws_done; [apply _|]. done.
    - eapply draws_bind; [apply _|apply require_promises| |].
      + intros x. apply draws_done; [apply _|]. naive_solver.
      + naive_solver. }
  2: { intros e t _ ->. by left. }
  intros [x existed]. unfold read_plan. apply draws_read; [apply _|apply steady_placed|].
  intros s0 Hok Ha. destruct (placed_plan _ _ _ Hok Ha) as ([q c'] & Hq & _).
  change (plan a) with (p_id p) in Hq. rewrite Hq. simpl.
  assert (placement x = a) as Hx by by destruct (ok_placed _ Hok _ _ Ha).
  apply draws_lift; [apply _| |done]. intros q' [= <-].
  eapply (draws_bind ok moves); [|intros []|].
  - eapply (draws_weaken ok moves); [| |apply (bills_promises a x q by_ Hx)]; [|intros r t _ Hr; exact Hr].
    intros t Hok' [_ Hmv]. apply (steady_frozen a x q s0); [done|done|done|]. split; [done|]. by exists c'.
  - apply draws_done; [apply _|]. intros t Hok' (_ & Hf & Hb). exists q. split_and!; [done|done|].
    by apply (bill_is_schedule a x).
  - intros e t _ (? & _). done.
Qed.

(** *** A batch *)

(** Placed, and every installment billed. *)
Definition settled (a : FeePlanAssignmentId) (t : Tables) : Prop :=
  ∃ x q, frozen a x q t ∧ fully_billed t a.

Lemma steady_settled a : steady ok moves (settled a).
Proof.
  intros t t' Hok Hok' Hmv (x & q & Hf & Hb). exists x, q.
  pose proof (steady_frozen a x q t t' Hok Hok' Hmv Hf) as Hf'. split; [done|].
  intros n i Hi. apply (steady_copied a n t); [done..|]. apply (Hb n i).
  apply (installment_frozen a x q); [done|]. by apply (numbered_frozen a x q t').
Qed.

(** What a student's line of the answer promises. *)
Definition outcome_holds (p : uuid) (t : Tables) (so : str * Outcome) : Prop :=
  match so.2 with
  | Assigned | AlreadyAssigned => settled (MkAssignmentId p (uuid_from_key so.1)) t
  | Rejected reason => reason = "no such plan"%string ∨ reason = "no such student"%string
  end.

Lemma steady_outcome p so : steady ok moves (λ t, outcome_holds p t so).
Proof. intros t t' Hok Hok' Hmv. unfold outcome_holds. destruct so.2; [by apply steady_settled..|done]. Qed.

Lemma assign_one_promises p by_ sid :
  promises (λ _, True) (assign_one p by_ sid)
    (λ r t, match r with Ok so => so.1 = sid ∧ outcome_holds (p_id p) t so | Err e => e = fk_violation end).
Proof.
  unfold assign_one, read_role. apply draws_read; [apply _|done|]. intros s0 _ _.
  case_bool_decide; [|apply draws_done; [apply _|]; intros t _ _; split; [done|by right]].
  eapply (draws_attempt ok moves).
  - eapply (draws_weaken ok moves (λ _, True)); [done| |apply assign_promises]. intros r t _ Hr. exact Hr.
  - intros [[x existed]|e]; simpl.
    + destruct existed; (apply draws_done; [apply _|]); intros t _ (q & Hf & Hb & _); (split; [done|by exists x, q]).
    + destruct e; apply draws_done; try apply _; intros t _ [He|He]; try done.
      split; [done|by left].
Qed.

Lemma batch_promises p by_ sids :
  promises (λ _, True) (mapM (assign_one p by_) sids)
    (λ r t, match r with Ok outs => outs.*1 = sids ∧ Forall (outcome_holds (p_id p) t) outs
                       | Err e => e = fk_violation end).
Proof.
  induction sids as [|sid sids IH].
  { simpl. apply draws_done; [apply _|]. by intros t _ _. }
  cbn [mapM]. eapply (draws_bind ok moves); [apply assign_one_promises| |done].
  intros so. eapply (draws_bind ok moves _ _ _ (λ r t, match r with
    | Ok outs => (outs.*1 = sids ∧ Forall (outcome_holds (p_id p) t) outs) ∧ so.1 = sid ∧ outcome_holds (p_id p) t so
    | Err e => e = fk_violation end)).
  - assert (steady ok moves (λ t, so.1 = sid ∧ outcome_holds (p_id p) t so)) as Hst
      by (intros t t' Hok Hok' Hmv [E Hso]; split; [done|by apply (steady_outcome _ _ t)]).
    pose proof (draws_frame ok moves _ _ _ _ Hst IH) as Hm.
    eapply (draws_weaken ok moves); [| |exact Hm].
    + intros t _ Hso. by split.
    + intros [outs|e] t _ [Hr Hso]; done.
  - intros outs. apply draws_done; [apply _|]. intros t _ ([E Ho] & E1 & Hso). split; [|by constructor].
    change (so.1 :: outs.*1 = sid :: sids). by rewrite E, E1.
  - done.
Qed.

Lemma assign_batch_promises key by_ sids :
  promises (λ _, True) (assign_batch key by_ sids)
    (λ r t, match r with
            | Ok outs => outs.*1 = sids ∧ Forall (outcome_holds (uuid_from_key key) t) outs
            | Err e => e = NotFound ∨ e = fk_violation ∨ ∃ reason, e = Validation (Invalid "student_ids" reason)
            end).
Proof.
  unfold assign_batch. destruct (_ <? _); [apply draws_done; [apply _|]; eauto|].
  unfold read_plan. apply draws_read; [apply _|done|]. intros s0 Hok _.
  destruct (plans s0 !! uuid_from_key key) as [row|] eqn:Hp; simpl;
    [|apply draws_lift; [apply _|done|]; intros e t _ _ [= <-]; by left].
  destruct (ok_plans _ Hok _ _ Hp) as (Hid & _).
  apply draws_lift; [apply _| |done]. intros p [= <-].
  destruct (_ <? _); [apply draws_done; [apply _|]; eauto|].
  eapply (draws_weaken ok moves (λ _, True)); [done| |apply batch_promises]. rewrite Hid.
  intros [outs|e] t _ Hr; [done|]. subst. by right; left.
Qed.
End Runs.
