(* ===== verification/StatementProofs.v ===== *)
(** * The statement adds up

    The rollup of [Statements] accounts for every line of the student exactly
    once: what its entries say is still owed, and what was paid on charges that
    were undone, is the balance; both are folded from one read, so they agree
    whatever is committed while the document is assembled. *)

From S2P Require Import Prelude Text Errors Effects Uuid Validate Modules Gates Ledger Tally Answers Payments PaymentProofs FeePlans FeePlanProofs FeePlanRuns Statements.
Open Scope Z_scope.

(** ** Sums that fit *)

Lemma sum64_exact b xs :
  Forall (λ x, 0 ≤ x ≤ b) xs → b * Z.of_nat (length xs) ≤ i64_max → sum64 xs = sumZ xs.
Proof.
  intros Hb Hlen. unfold sum64.
  assert (∀ acc, 0 ≤ acc → acc + b * Z.of_nat (length xs) ≤ i64_max →
    foldl (λ s x, i64_wrap (s + x)) acc xs = acc + sumZ xs) as H; [|rewrite H by lia; lia].
  clear Hlen. induction Hb as [|x xs Hx Hb IH]; intros acc Hacc Hle.
  { unfold sumZ. simpl. lia. }
  cbn [length foldl] in *. rewrite sumZ_cons. rewrite Nat2Z.inj_succ, Z.mul_succ_r in Hle.
  assert (0 ≤ b * Z.of_nat (length xs)) by (apply Z.mul_nonneg_nonneg; lia).
  rewrite i64_wrap_id by (unfold_ints; lia). rewrite IH by lia. lia.
Qed.

Lemma total_sum ls : total ls = sumZ (amount_minor <$> ls).
Proof. done. Qed.

Lemma total_app xs ys : total (xs ++ ys) = total xs + total ys.
Proof. unfold total. by rewrite fmap_app, sumZ_app. Qed.

Lemma total_bind (f : PaymentLedger → list PaymentLedger) xs :
  total (xs ≫= f) = sumZ ((λ x, total (f x)) <$> xs).
Proof. induction xs as [|x xs IH]; [done|]. csimpl. by rewrite total_app, IH, sumZ_cons. Qed.

Lemma sumZ_plus {A} (f g : A → Z) xs :
  sumZ ((λ x, f x + g x) <$> xs) = sumZ (f <$> xs) + sumZ (g <$> xs).
Proof. induction xs as [|x xs IH]; [done|]. csimpl. rewrite !sumZ_cons, IH. lia. Qed.

Lemma sumZ_ext {A} (f g : A → Z) xs : (∀ x, x ∈ xs → f x = g x) → sumZ (f <$> xs) = sumZ (g <$> xs).
Proof.
  induction xs as [|x xs IH]; intros E; [done|]. csimpl. rewrite !sumZ_cons, (E x) by left.
  rewrite IH; [done|]. intros y Hy. apply E. by right.
Qed.

Lemma sumZ_scale {A} (f : A → Z) xs : sumZ ((λ x, - f x) <$> xs) = - sumZ (f <$> xs).
Proof. induction xs as [|x xs IH]; [done|]. csimpl. rewrite !sumZ_cons, IH. lia. Qed.

Lemma total_filter_split (P : PaymentLedger → Prop) `{!∀ l, Decision (P l)} ls :
  total (filter P ls) = total ls - sumZ ((λ l, if decide (P l) then 0 else amount_minor l) <$> ls).
Proof.
  induction ls as [|l ls IH]; [done|]. csimpl. rewrite filter_cons, total_cons, sumZ_cons.
  case_decide; rewrite ?total_cons, IH; lia.
Qed.

Lemma sumZ_bind {A B} (g : B → Z) (f : A → list B) xs :
  sumZ (g <$> (xs ≫= f)) = sumZ ((λ x, sumZ (g <$> f x)) <$> xs).
Proof. induction xs as [|x xs IH]; [done|]. csimpl. by rewrite fmap_app, sumZ_app, sumZ_cons, IH. Qed.

Lemma sumZ_bag xs ys : xs ≡ₚ ys → sumZ xs = sumZ ys.
Proof. by intros ->. Qed.

Lemma filter_bind {A B} (P : B → Prop) `{!∀ y, Decision (P y)} (f : A → list B) xs :
  filter P (xs ≫= f) = xs ≫= λ x, filter P (f x).
Proof. induction xs as [|x xs IH]; [done|]. csimpl. by rewrite filter_app, IH. Qed.

(** ** One student's lines *)

Section Rollups.
Context `{UuidText}.

(** [ls] is everything the ledger holds of one student. *)
Record lines_of_student (t : table) (s : uuid) (ls : list PaymentLedger) : Prop := {
  los_wf : wf t;
  los_nodup : NoDup ls;
  los_elem : ∀ l, l ∈ ls ↔ t !! id l = Some l ∧ student l = s;
}.

Section One.
Context (t : table) (s : uuid) (ls : list PaymentLedger) (Hls : lines_of_student t s ls).
Set Default Proof Using "All".

Let Hwf : wf t := los_wf _ _ _ Hls.

Lemma in_children key l : l ∈ children ls key ↔ l ∈ ls ∧ source l = Some key.
Proof. unfold children. rewrite list_elem_of_filter. tauto. Qed.

Lemma NoDup_children key : NoDup (children ls key).
Proof. unfold children. apply NoDup_filter, Hls. Qed.

Lemma same_id l l' : l ∈ ls → l' ∈ ls → id l = id l' → l = l'.
Proof.
  intros [Hl _]%(los_elem _ _ _ Hls) [Hl' _]%(los_elem _ _ _ Hls) E. congruence.
Qed.

(** The line a non-charge points at is the same student's. *)
Lemma parent_of l : l ∈ ls → kind l ≠ Charge →
  ∃ p, p ∈ ls ∧ source l = Some (id p) ∧ may_target (kind l) (kind p) = true
       ∧ (kind l = Reversal → id l = for_reversal (id p) ∧ amount_minor l = amount_minor p).
Proof.
  intros [Hl Hs]%(los_elem _ _ _ Hls) Hk.
  destruct (wf_source _ Hwf _ _ Hl Hk) as (p & Hsrc & Hp & Hm & Hst & Hrev).
  exists p. split_and!; [|done|done|done]. apply (los_elem _ _ _ Hls). split; [done|congruence].
Qed.

(** The kids of a line of this student are what may target it. *)
Lemma kid_of p l : p ∈ ls → l ∈ children ls (id p) →
  l ∈ ls ∧ kind l ≠ Charge ∧ may_target (kind l) (kind p) = true
  ∧ (kind l = Reversal → id l = for_reversal (id p) ∧ amount_minor l = amount_minor p).
Proof.
  intros Hp [Hl Hsrc]%in_children. split; [done|].
  assert (kind l ≠ Charge) as Hk.
  { intros Hk. pose proof (proj1 (los_elem _ _ _ Hls l) Hl) as [Htl _].
    pose proof (proj1 (los_elem _ _ _ Hls p) Hp) as [Htp _].
    destruct (wf_charge _ Hwf _ _ Htl Hk) as [a Ha]. destruct (wf_key _ Hwf _ _ Htp) as (k & Hko & Hsp).
    apply (spell_not_assignment k a Hko). rewrite Hsp. congruence. }
  split; [done|]. destruct (parent_of l Hl Hk) as (q & Hq & Hsq & Hm & Hrev).
  assert (q = p) as -> by (apply same_id; [done|done|congruence]). done.
Qed.

(** ** Every line is under exactly one charge *)

Definition kids (k : PaymentLedgerKind) (p : PaymentLedger) : list PaymentLedger :=
  filter (λ l, kind l = k) (children ls (id p)).

Lemma in_kids k p l : l ∈ kids k p ↔ l ∈ ls ∧ source l = Some (id p) ∧ kind l = k.
Proof. unfold kids. rewrite list_elem_of_filter, in_children. tauto. Qed.

(** The lines of kind [k] are the [k]-kids of the lines they may target. *)
Lemma kind_by_parents k ps :
  NoDup ps → (∀ p, p ∈ ps → p ∈ ls) →
  (∀ l, l ∈ ls → kind l = k → ∃ p, p ∈ ps ∧ source l = Some (id p)) →
  of_kind k ls ≡ₚ ps ≫= kids k.
Proof.
  intros Hps Hin Hpar. apply NoDup_Permutation.
  - unfold of_kind. apply NoDup_filter, Hls.
  - apply NoDup_bind; [|intros p _; unfold kids; apply NoDup_filter, NoDup_children|done].
    intros p q l Hp Hq (_ & Hlp & _)%in_kids (_ & Hlq & _)%in_kids. apply same_id; [auto..|congruence].
  - intros l. unfold of_kind. rewrite list_elem_of_filter, list_elem_of_bind. split.
    + intros [Hk Hl]. destruct (Hpar l Hl Hk) as (p & Hp & Hsrc). exists p. by rewrite in_kids.
    + intros (p & (Hl & _ & Hk)%in_kids & _). done.
Qed.

Lemma NoDup_kind k : NoDup (of_kind k ls).
Proof. unfold of_kind. apply NoDup_filter, Hls. Qed.
Lemma in_kind k l : l ∈ of_kind k ls ↔ kind l = k ∧ l ∈ ls.
Proof. unfold of_kind. by rewrite list_elem_of_filter. Qed.

Lemma credits_by_charge : of_kind Credit ls ≡ₚ of_kind Charge ls ≫= kids Credit.
Proof.
  apply kind_by_parents; [apply NoDup_kind|by intros p [_ ?]%in_kind|].
  intros l Hl Hk. destruct (parent_of l Hl) as (p & Hp & Hsrc & Hm & _); [congruence|].
  exists p. split; [|done]. apply in_kind. split; [|done]. rewrite Hk in Hm. by destruct (kind p).
Qed.

Lemma refunds_by_credit : of_kind Refund ls ≡ₚ of_kind Credit ls ≫= kids Refund.
Proof.
  apply kind_by_parents; [apply NoDup_kind|by intros p [_ ?]%in_kind|].
  intros l Hl Hk. destruct (parent_of l Hl) as (p & Hp & Hsrc & Hm & _); [congruence|].
  exists p. split; [|done]. apply in_kind. split; [|done]. rewrite Hk in Hm. by destruct (kind p).
Qed.

Lemma reversals_by_line :
  of_kind Reversal ls ≡ₚ (of_kind Charge ls ++ of_kind Refund ls) ≫= kids Reversal.
Proof.
  apply kind_by_parents.
  - apply NoDup_app. split_and!; [apply NoDup_kind| |apply NoDup_kind].
    intros l [Hk _]%in_kind [Hk' _]%in_kind. congruence.
  - intros p [[_ ?]%in_kind|[_ ?]%in_kind]%elem_of_app; done.
  - intros l Hl Hk. destruct (parent_of l Hl) as (p & Hp & Hsrc & Hm & _); [congruence|].
    exists p. split; [|done]. rewrite elem_of_app, !in_kind. rewrite Hk in Hm. destruct (kind p); naive_solver.
Qed.

(** A line has at most one reversal, for its whole amount. *)
Lemma reversal_of p :
  p ∈ ls → total (kids Reversal p) = if reversed ls (id p) then amount_minor p else 0.
Proof.
  intros Hp. unfold reversed.
  assert (∀ l, l ∈ kids Reversal p → id l = for_reversal (id p) ∧ amount_minor l = amount_minor p) as Hkid.
  { intros l (Hl & Hsrc & Hk)%in_kids. destruct (kid_of p l Hp) as (_ & _ & _ & Hrev); [by apply in_children|]. auto. }
  assert (NoDup (kids Reversal p)) as Hnd by (unfold kids; apply NoDup_filter, NoDup_children).
  destruct (existsb _ _) eqn:E.
  - apply existsb_exists in E as (l & Hl & Hk). apply bool_decide_eq_true in Hk. apply list_elem_of_In in Hl.
    assert (l ∈ kids Reversal p) as Hlk by (unfold kids; by apply list_elem_of_filter).
    assert (kids Reversal p ≡ₚ [l]) as ->.
    { apply NoDup_Permutation; [done|apply NoDup_singleton|]. intros m. rewrite list_elem_of_singleton.
      split; [|by intros ->]. intros Hm. apply same_id; [by apply in_kids in Hm as (? & _)|by apply in_kids in Hlk as (? & _)|].
      destruct (Hkid m Hm) as [-> _]. by destruct (Hkid l Hlk) as [-> _]. }
    destruct (Hkid l Hlk) as [_ Ha]. unfold total, sumZ. simpl. lia.
  - destruct (kids Reversal p) as [|l rest] eqn:Ek; [done|].
    assert (l ∈ kids Reversal p) as Hl by (rewrite Ek; left). unfold kids in Hl.
    apply list_elem_of_filter in Hl as [Hk Hl]. rewrite existsb_false_iff, Forall_forall in E.
    specialize (E l Hl). by rewrite bool_decide_eq_true_2 in E.
Qed.

(** ** The account *)

Definition undone (p : PaymentLedger) : Z := if reversed ls (id p) then amount_minor p else 0.

(** What a charge's entry stands for, in integers. *)
Definition entry_money (c : PaymentLedger) : Z :=
  if reversed ls (id c) then total (paid ls c) - total (handed_back ls c)
  else - (amount_minor c - total (paid ls c) + total (handed_back ls c)).

Lemma handed_back_total c :
  total (handed_back ls c)
  = sumZ ((λ k, total (kids Refund k)) <$> paid ls c)
    - sumZ ((λ k, sumZ (undone <$> kids Refund k)) <$> paid ls c).
Proof.
  unfold handed_back. rewrite filter_bind, total_bind.
  rewrite (sumZ_ext _ (λ k, total (kids Refund k) + - sumZ (undone <$> kids Refund k))).
  - rewrite sumZ_plus, sumZ_scale. lia.
  - intros k _. transitivity (total (filter (λ r, reversed ls (id r) = false) (kids Refund k))).
    + f_equal. unfold kids. rewrite list_filter_filter. apply list_filter_iff. tauto.
    + rewrite total_filter_split. rewrite (sumZ_ext _ undone); [lia|]. intros r _. unfold undone.
      destruct (reversed ls (id r)) eqn:E; [by rewrite decide_False by congruence|by rewrite decide_True].
Qed.

Lemma account : net ls = sumZ (entry_money <$> charges ls).
Proof.
  assert (total (of_kind Credit ls) = sumZ ((λ c, total (paid ls c)) <$> charges ls)) as Hcr
    by (rewrite credits_by_charge; apply total_bind).
  assert (∀ g : PaymentLedger → Z, sumZ (g <$> of_kind Refund ls)
    = sumZ ((λ c, sumZ ((λ k, sumZ (g <$> kids Refund k)) <$> paid ls c)) <$> charges ls)) as Hg.
  { intros g. rewrite (sumZ_bag _ (g <$> (of_kind Charge ls ≫= kids Credit) ≫= kids Refund)).
    - by rewrite !sumZ_bind.
    - rewrite refunds_by_credit at 1. by rewrite credits_by_charge. }
  assert (total (of_kind Reversal ls) = sumZ (undone <$> charges ls) + sumZ (undone <$> of_kind Refund ls)) as Hrv.
  { rewrite reversals_by_line, total_bind, fmap_app, sumZ_app. f_equal; apply sumZ_ext; intros p [_ Hp]%in_kind;
      by apply reversal_of. }
  rewrite net_by_kind, Hcr, Hrv, Hg, (total_sum (of_kind Refund ls)), Hg.
  change (of_kind Charge ls) with (charges ls). rewrite total_sum.
  rewrite (sumZ_ext entry_money (λ c, - amount_minor c + (total (paid ls c) + (undone c + - total (handed_back ls c))))).
  - rewrite !sumZ_plus, !sumZ_scale. rewrite (sumZ_ext _ _ _ (λ c _, handed_back_total c)).
    rewrite (sumZ_ext (λ c, sumZ _ - sumZ _) (λ c, sumZ ((λ k, total (kids Refund k)) <$> paid ls c)
      + - sumZ ((λ k, sumZ (undone <$> kids Refund k)) <$> paid ls c))) by (intros; lia).
    rewrite sumZ_plus, sumZ_scale. unfold total. lia.
  - intros c _. unfold entry_money, undone. destruct (reversed ls (id c)); lia.
Qed.

(** ** In [i64] *)

Context (Hlen : Z.of_nat (length ls) ≤ 10 ^ 11).

Lemma amounts_ok l : l ∈ ls → amount_ok (amount_minor l).
Proof. intros [Hl _]%(los_elem _ _ _ Hls). by apply (wf_amount _ Hwf (id l)). Qed.

Lemma part_exact part :
  part ⊆+ ls →
  sum64 (amount_minor <$> part) = total part ∧ 0 ≤ total part ≤ 10 ^ 18.
Proof.
  intros Hsub. pose proof (submseteq_length _ _ Hsub) as Hle.
  assert (Forall (λ l, amount_ok (amount_minor l)) part) as Hok.
  { apply Forall_forall. intros l Hl. apply amounts_ok. by eapply elem_of_submseteq. }
  pose proof (total_bounds _ Hok) as Hb. unfold MAX_LEDGER_AMOUNT_MINOR in Hb. split; [|lia].
  apply (sum64_exact 10000000).
  - apply Forall_fmap. eapply Forall_impl; [exact Hok|]. intros l Hl.
    unfold amount_ok, MAX_LEDGER_AMOUNT_MINOR in Hl. simpl. lia.
  - rewrite length_fmap. unfold i64_max. lia.
Qed.

Lemma paid_part c : paid ls c ⊆+ ls.
Proof.
  apply sublist_submseteq. unfold paid, children. etrans; apply sublist_filter.
Qed.

Lemma handed_back_part c : handed_back ls c ⊆+ ls.
Proof.
  apply NoDup_submseteq.
  - unfold handed_back. apply NoDup_filter, NoDup_bind.
    + intros k k' l Hk Hk' [_ Hl]%in_children [_ Hl']%in_children.
      apply same_id; [by eapply elem_of_submseteq, paid_part..|congruence].
    + intros k _. apply NoDup_children.
    + unfold paid. apply NoDup_filter, NoDup_children.
  - intros l [_ Hl]%list_elem_of_filter. apply list_elem_of_bind in Hl as (k & [Hl _]%in_children & _). done.
Qed.

Lemma entry_exact names plan_of t_now c :
  c ∈ ls →
  let e := entry ls names plan_of t_now c in
  credited_minor e = total (paid ls c) ∧ refunded_minor e = total (handed_back ls c)
  ∧ is_reversed e = reversed ls (id c)
  ∧ outstanding_minor e
    = if reversed ls (id c) then 0 else amount_minor c - total (paid ls c) + total (handed_back ls c).
Proof.
  intros Hc. cbn. destruct (part_exact _ (paid_part c)) as [-> Hp].
  destruct (part_exact _ (handed_back_part c)) as [-> Hh]. split_and!; [done..|].
  destruct (reversed ls (id c)); [done|]. pose proof (amounts_ok c Hc) as Ha.
  unfold amount_ok, MAX_LEDGER_AMOUNT_MINOR in Ha.
  rewrite (i64_wrap_id (_ - _)) by (unfold_ints; lia). rewrite i64_wrap_id by (unfold_ints; lia). done.
Qed.

(** What an entry says of the balance. *)
Definition entry_balance (e : StatementEntry) : Z :=
  if is_reversed e then credited_minor e - refunded_minor e else - outstanding_minor e.

Lemma entries_balance names plan_of t_now :
  sumZ (entry_balance <$> (entry ls names plan_of t_now <$> charges ls)) = net ls.
Proof.
  rewrite account, <- list_fmap_compose. apply sumZ_ext. intros c [_ Hc]%list_elem_of_filter.
  destruct (entry_exact names plan_of t_now c Hc) as (E1 & E2 & E3 & E4).
  unfold compose, entry_balance, entry_money. rewrite E1, E2, E3, E4. by destruct (reversed ls (id c)).
Qed.

Lemma raw_balance : fold_balance (folded <$> ls) = net ls.
Proof.
  rewrite (fold_balance_exact 10000000).
  - unfold signed, net. by rewrite <- list_fmap_compose.
  - apply Forall_fmap, Forall_forall. intros l Hl. pose proof (amounts_ok l Hl) as Ha.
    unfold amount_ok, MAX_LEDGER_AMOUNT_MINOR in Ha. simpl. lia.
  - rewrite length_fmap. unfold i64_max. lia.
Qed.
End One.

(** ** The request *)

Context (collate : relation str) `{collate_dec : !RelDecision collate}.

Lemma student_lines t s :
  ok t → lines_of_student (lines t) s (list_for_student collate t s).
Proof using collate_dec.
  intros Hok. pose proof (ok_wf _ Hok) as Hwf.
  assert (NoDup (rows (lines t))) as Hnd.
  { unfold rows. apply NoDup_fmap_2_strong; [|apply NoDup_map_to_list].
    intros [i l] [j m] Hi Hj E. simpl in E. subst m. apply elem_of_map_to_list in Hi, Hj.
    pose proof (wf_id _ Hwf _ _ Hi). pose proof (wf_id _ Hwf _ _ Hj). congruence. }
  split; [done| |].
  - unfold list_for_student. rewrite merge_sort_Permutation. by apply NoDup_filter.
  - intros l. unfold list_for_student. rewrite merge_sort_Permutation, list_elem_of_filter, elem_of_rows by done.
    tauto.
Qed.

Lemma list_perm t s : list_for_student collate t s ≡ₚ lines_of (lines t) s.
Proof using collate_dec. unfold list_for_student. by rewrite merge_sort_Permutation. Qed.

Lemma list_length t s : (length (list_for_student collate t s) ≤ size (lines t))%nat.
Proof using collate_dec.
  rewrite list_perm. unfold lines_of. etransitivity; [apply length_filter|]. unfold rows.
  by rewrite length_fmap, length_map_to_list.
Qed.

Lemma read_names_answers asgs names plan_of w :
  ∃ n p w', read_names asgs names plan_of w = (Ok (n, p), w').
Proof.
  revert names plan_of w. induction asgs as [|a asgs IH]; intros names plan_of w; [by eexists _, _, _|].
  cbn [read_names]. destruct (names !! uuid_text (of_plan a)) as [x|].
  - unfold mbind at 1, io_bind, mret, io_ret. apply IH.
  - unfold mbind at 1 2, io_bind, atomic, read_plan, gets, mret, io_ret. apply IH.
Qed.

Lemma paginate_fmap {A B} (f : A → B) xs limit offset :
  paginate (f <$> xs) limit offset = f <$> paginate xs limit offset.
Proof. unfold paginate. by rewrite length_fmap, fmap_take, fmap_drop. Qed.

(** C5. The statement adds up. Whatever is committed while it is assembled, it
    answers, and there is one entry per charge of the student as the ledger
    stood at its first read, of which it shows the page asked for; its balance
    is the balance route's for that ledger, on every page; and the entries
    account for it to the unit: what they say is still owed, less what was paid
    (and not handed back) on charges since undone. *)
Theorem statement_adds_up s limit offset w :
  let s0 := w_env w (w_step w) (w_db w) in
  ok s0 → Z.of_nat (size (lines s0)) ≤ 10 ^ 11 →
  ∃ st es w', statement_response collate s limit offset w = (Ok st, w')
    ∧ charge_id <$> es ≡ₚ id <$> filter (λ l, kind l = Charge) (lines_of (lines s0) s)
    ∧ entries st = paginate es limit offset ∧ entries_total st = Z.of_nat (length es)
    ∧ balance_minor st = balance_of (lines s0) s
    ∧ balance_minor st = sumZ (entry_balance <$> es).
Proof using collate_dec.
  intros s0 Hok Hsz. pose proof (student_lines s0 s Hok) as Hls. pose proof (list_length s0 s) as Hlen.
  pose proof (balance_of_net (lines s0) s (ok_wf _ Hok) Hsz) as Hbal. pose proof (list_perm s0 s) as Hperm.
  unfold statement_response. rewrite atomic_bind. cbn [gets]. fold s0. revert Hls Hlen Hperm.
  generalize (list_for_student collate s0 s). intros ls Hls Hlen Hperm.
  rewrite atomic_bind. cbn [gets]. set (w1 := tick s0 w). set (asgs := placements_of _ s).
  unfold mbind at 1, io_bind at 1.
  destruct (read_names_answers asgs ∅ ∅ (tick (w_env w1 (w_step w1) (w_db w1)) w1)) as (n & p & w2 & ->).
  cbv beta iota. rewrite now_bind. set (t_now := w_clock w2 (w_step w2)).
  eexists _, (entry ls n p t_now <$> charges ls), _. split; [done|].
  assert (Z.of_nat (length ls) ≤ 10 ^ 11) as Hle by lia.
  split_and!; simpl.
  - rewrite <- list_fmap_compose.
    change (id <$> charges ls ≡ₚ id <$> filter (λ l, kind l = Charge) (lines_of (lines s0) s)).
    unfold charges. by rewrite Hperm.
  - by rewrite paginate_fmap.
  - by rewrite length_fmap.
  - rewrite (raw_balance _ _ _ Hls Hle), Hbal. by rewrite Hperm.
  - rewrite (raw_balance _ _ _ Hls Hle). by rewrite (entries_balance _ _ _ Hls Hle).
Qed.

(** ** Who may read it *)

Definition may_read (t : Tables) (caller : User) (target : uuid) : bool :=
  bool_decide (uid caller = target) || at_least (get_role caller) Manager
  || (bool_decide (get_role caller = Parent) && bool_decide ((uid caller, target) ∈ parent_links t)
      && bool_decide (users t !! target = Some Student)).

(** A family's money is its own business: the gate before another person's
    statement and balance opens for the person, for a manager or an admin, and
    for a parent with a tie to a student who is still one, and for nobody else;
    a teacher is refused whatever the others commit meanwhile, and a refusal
    reads nothing of the ledger. *)
Theorem money_is_private caller user limit offset w :
  let target := uuid_from_key user in
  (undisturbed w →
     (ensure_can_read_payments caller target w).1
       = if may_read (w_db w) caller target then Ok ()
         else Err (Forbidden "requires manager role or higher, or a parent link to this student"))
  ∧ (get_role caller = Teacher → uid caller ≠ target →
     (user_balance caller user w).1
       = Err (Forbidden "requires manager role or higher, or a parent link to this student")
     ∧ (user_statement collate caller user limit offset w).1
       = (_ ← resolve_page limit offset;
          Err (Forbidden "requires manager role or higher, or a parent link to this student"))).
Proof using collate_dec.
  intros target. split.
  - intros Hw. unfold ensure_can_read_payments, may_read, links_live, read_role.
    destruct (bool_decide (uid caller = target) || at_least (get_role caller) Manager); [done|].
    simpl. destruct (bool_decide (get_role caller = Parent)); [|done]. simpl.
    unfold mbind at 1, io_bind at 1. rewrite atomic_bind_alone by done. cbn [gets].
    destruct (bool_decide ((uid caller, target) ∈ parent_links (w_db w))); [|done].
    rewrite atomic_bind_alone by done. cbn [gets]. simpl.
    by destruct (bool_decide (users (w_db w) !! target = Some Student)).
  - intros Hr Hu. assert (∀ B (k : () → io Tables B), (ensure_can_read_payments caller target ≫= k) w
      = (Err (Forbidden "requires manager role or higher, or a parent link to this student"), w)) as Hgate.
    { intros B k. unfold ensure_can_read_payments. rewrite Hr, (bool_decide_eq_false_2 (uid caller = target)) by done. done. }
    split; [unfold user_balance; by rewrite Hgate|].
    unfold user_statement. rewrite lift_bind. destruct (resolve_page limit offset) as [[l o]|e]; [|done].
    by rewrite Hgate.
Qed.
End Rollups.
