(* ===== verification/FeePlanKeeps.v ===== *)
(** * What every request on the fees keeps

    Whoever calls a route of [src/web/payments.rs], and whatever the others
    commit between two statements of the call: the tables stay as
    [FeePlanProofs.ok] says and move as everybody's do, a success of the assign
    route means the bill is the schedule, and a plan somebody is on refuses
    every edit and the delete. *)

From S2P Require Import Prelude Text Errors Effects Uuid Validate Modules Gates Ledger Tally Answers Payments PaymentProofs FeePlans FeePlanProofs FeePlanRuns.
Open Scope Z_scope.

Section Keeps.
Context `{UuidText}.

Abbreviation promises := (draws ok moves).

Definition fine {A} (m : io Tables A) : Prop := promises (λ _, True) m anything.

Lemma route_weaken {A} P (m : io Tables A) Q : (∀ t, ok t → P t) → promises P m Q → fine m.
Proof. intros HP Hm. eapply (draws_weaken ok moves); [| |exact Hm]; [auto|done]. Qed.
Lemma route_bind {A B} (m : io Tables A) (k : A → io Tables B) : fine m → (∀ a, fine (k a)) → fine (m ≫= k).
Proof.
  intros Hm Hk. eapply (draws_bind ok moves); [exact Hm| |done].
  intros a. eapply (draws_weaken ok moves); [| |exact (Hk a)]; done.
Qed.
Lemma route_done {A} (r : result AppError A) : fine (λ w, (r, w)).
Proof. by apply draws_done; [apply _|]. Qed.
Lemma route_lift {A B} (r : result AppError A) (k : A → io Tables B) :
  (∀ a, r = Ok a → fine (k a)) → fine (lift r ≫= k).
Proof. intros Hk. apply draws_lift; [apply _|exact Hk|done]. Qed.
Lemma route_read {A B} (f : Tables → A) (k : A → io Tables B) :
  (∀ a, fine (k a)) → fine (atomic (gets f) ≫= k).
Proof.
  intros Hk. apply draws_read; [apply _|done|]. intros s0 _ _.
  eapply (draws_weaken ok moves); [| |exact (Hk (f s0))]; done.
Qed.
Lemma route_commit {A} (m : tx Tables A) :
  (∀ t a t', ok t → m t = Ok (a, t') → ok t' ∧ moves t t') → fine (atomic m).
Proof. intros Hm. apply draws_commit; [apply _|done| |done]. intros t a t' Hok _ E. by destruct (Hm _ _ _ Hok E). Qed.

(** ** Schedules and amounts as the routes let them through *)

Lemma into_domain_ok b i : into_domain b = Ok i → amount_ok (i_amount i).
Proof.
  unfold into_domain. destruct b as [amount due]. destruct (_ <? _); [done|].
  destruct (ledger_amount_try_new amount) eqn:E; simpl; [|done]. intros [= <-].
  by destruct (ledger_amount_ok _ _ E).
Qed.

Lemma bodies_ok bs ins : mapM into_domain bs = Ok ins → Forall (λ i, amount_ok (i_amount i)) ins.
Proof.
  revert ins. induction bs as [|b bs IH]; intros ins; cbn [mapM]; [by intros [= <-]|].
  rewrite bind_ok. intros (i & Hi & Hins). apply bind_ok in Hins as (is_ & His & [= <-]).
  constructor; [by eapply into_domain_ok|by apply IH].
Qed.

Lemma checked_ok {A B} (r : result ValidationError A) (k : A → io Tables B) :
  (∀ a, r = Ok a → fine (k a)) → fine (checked r ≫= k).
Proof.
  intros Hk. apply route_lift. intros a Ha. apply Hk. by destruct r; simpl in Ha; congruence.
Qed.

Lemma route_checked {A} (r : result ValidationError A) : fine (checked r).
Proof. apply route_done. Qed.
Lemma route_checked_opt {A B} (f : A → result ValidationError B) x : fine (checked_opt f x).
Proof. destruct x; [|apply route_done]. apply route_bind; [apply route_checked|]. intros b. apply route_done. Qed.
Lemma route_flat_opt f x : fine (flat_opt f x).
Proof. apply route_bind; [apply route_checked_opt|]. intros b. apply route_done. Qed.

(** ** Plans *)

Lemma create_fine name ins by_ :
  Forall (λ i, amount_ok (i_amount i)) ins → fine (create name ins by_).
Proof.
  intros Ha. unfold create. apply checked_ok. intros [] Hv. apply draws_fresh; [apply _|]. intros u Hu.
  apply draws_now; [apply _|]. intros t_now. apply route_commit. intros t x t' Hok E.
  by destruct (insert_plan_moves (MkFeePlan u name ins by_ t_now) t x t' Hu (conj Hv Ha) Hok E) as (? & ? & _).
Qed.

Lemma require_plan_fine key : fine (require_plan key).
Proof. apply route_read. intros row. apply route_done. Qed.

Lemma update_fine p name ins :
  (∀ i, ins = Some i → Forall (λ x, amount_ok (i_amount x)) i) → fine (update p name ins).
Proof.
  intros Ha. unfold update.
  assert (∀ B (k : () → io Tables B), ((∀ i, ins = Some i → schedule_ok i) → fine (k ())) →
    fine ((match ins with Some i => checked (validate_installments i) | None => mret () end) ≫= k)) as Hv.
  { intros B k Hk. destruct ins as [i|]; [|by apply Hk].
    apply checked_ok. intros [] Hi. apply Hk. intros ? [= <-]. by split; auto. }
  apply Hv. clear Hv. intros Hs.
  assert (∀ e : io Tables FeePlan, e = (
      edited ← atomic (edit_plan (p_id p) name ins);
      match edited with
      | Some p' => mret p'
      | None => row ← atomic (read_plan (p_id p));
          match row with
          | Some _ => raise (Conflict "an assigned plan cannot be edited")
          | None => raise NotFound
          end
      end) → fine e) as He.
  { intros e ->. apply route_bind.
    - apply route_commit. intros t x t' Hok E. by destruct (edit_plan_moves _ _ _ _ _ _ Hs Hok E) as (? & ? & _).
    - intros [p'|]; [apply route_done|]. apply route_read. intros []; apply route_done. }
  destruct name, ins; [by apply He..|]. apply route_read. intros row. apply route_done.
Qed.

Lemma delete_fine p : fine (delete_ p).
Proof.
  unfold delete_. apply route_bind.
  - apply route_commit. intros t x t' Hok E. by destruct (drop_plan_moves _ _ _ _ Hok E) as (? & ? & _).
  - intros []; [apply route_done|]. apply route_read. intros []; apply route_done.
Qed.

(** ** The ledger's routes *)

Lemma against_fine target expected kind_ wrong over reversed amount m n mk rk by_ :
  amount_ok amount → request_key_ok rk → may_target kind_ expected = true → kind_ ≠ Reversal →
  promises (λ t, lines t !! id target = Some target)
    (against target expected kind_ wrong over reversed amount m n (for_request (id target) (marker mk) <$> rk) by_) anything.
Proof.
  intros Ha Hrk Hm Hnr. unfold against. case_bool_decide as Hk; cbn [negb]; [|by apply draws_done; [apply _|]].
  apply draws_now; [apply _|]. intros t_now. apply draws_fresh; [apply _|]. intros u Hu.
  apply draws_commit; [apply _|apply steady_line| |done]. intros t l t' Hok Ht E. rewrite <- Hk in Hm.
  by destruct (payment_moves target kind_ over reversed amount m n mk rk by_ t_now u t l t').
Qed.

Lemma reversal_fine line n by_ :
  promises (λ t, lines t !! id line = Some line) (reversal line n by_) anything.
Proof.
  unfold reversal. destruct (kind line) eqn:Hk; try (by apply draws_done; [apply _|]);
    (apply draws_now; [apply _|]; intros t_now; apply draws_commit; [apply _|apply steady_line| |done];
     intros t l t' Hok Ht E; destruct (reversal_moves line n by_ t_now t l t') as [? ?]; [done|done|auto|done|by split_and!]).
Qed.

Lemma require_line_promises key :
  promises (λ _, True) (require_line key)
    (λ r t, match r with Ok l => lines t !! id l = Some l | Err _ => True end).
Proof.
  unfold require_line. apply (draws_bind ok moves _ _ _
    (λ r t, match r with Ok (Some l) => lines t !! id l = Some l | _ => True end)).
  - apply draws_commit; [apply _|done| |done]. intros t x t' Hok _ (lt & E & ->)%on_lines_ok.
    apply gets_ok in E as [-> ->]. rewrite set_ledger_same. split_and!; [done|done|].
    change (ledger_of t) with (lines t). destruct (lines t !! key) as [l|] eqn:Hl; [|done].
    by rewrite (wf_id _ (ok_wf _ Hok) _ _ Hl).
  - intros [l|]; apply draws_done; try apply _; naive_solver.
  - done.
Qed.

(** What a route does with the line it read. *)
Lemma with_line {B} key (k : PaymentLedger → io Tables B) :
  (∀ l, promises (λ t, lines t !! id l = Some l) (k l) anything) → fine (require_line key ≫= k).
Proof.
  intros Hk. eapply (draws_bind ok moves); [apply require_line_promises|exact Hk|done].
Qed.

(** A field between the line and the write. *)
Lemma field_line {A B} (l : PaymentLedger) (m : io Tables A) (k : A → io Tables B) :
  fine m → (∀ a, promises (λ t, lines t !! id l = Some l) (k a) anything) →
  promises (λ t, lines t !! id l = Some l) (m ≫= k) anything.
Proof.
  intros Hm Hk. pose proof (draws_frame ok moves _ _ _ _ (steady_line l) Hm) as Hf.
  eapply (draws_bind ok moves).
  - eapply (draws_weaken ok moves); [| |exact Hf]; [done|]. intros r t _ [_ Hl]. exact Hl.
  - exact Hk.
  - done.
Qed.

Lemma checked_line {A B} (l : PaymentLedger) (r : result ValidationError A) (k : A → io Tables B) :
  (∀ a, r = Ok a → promises (λ t, lines t !! id l = Some l) (k a) anything) →
  promises (λ t, lines t !! id l = Some l) (checked r ≫= k) anything.
Proof.
  intros Hk. apply draws_lift; [apply _| |done]. intros a Ha. apply Hk. by destruct r; simpl in Ha; congruence.
Qed.

Lemma record_with_fine u req write :
  (∀ l a m n rk, amount_ok a → request_key_ok rk →
    promises (λ t, lines t !! id l = Some l) (write l a m n rk (uid u)) anything) →
  fine (record_with write u req).
Proof.
  intros Hw. unfold record_with. apply route_lift. intros [] _. apply with_line. intros l.
  apply checked_line. intros a Ha. destruct (ledger_amount_ok _ _ Ha) as [-> Hok].
  apply field_line; [apply route_flat_opt|]. intros m. apply field_line; [apply route_flat_opt|]. intros n.
  destruct (pay_key req) as [key|]; simpl.
  - apply (draws_bind ok moves _ _ _ (λ r t, match r with Ok rk => request_key_ok rk ∧ lines t !! id l = Some l | _ => True end)).
    + apply draws_lift; [apply _| |done]. intros k Hk. apply draws_done; [apply _|]. intros t _ Hl. split; [|done].
      apply map_err_ok, bind_ok in Hk as ([] & Hv & [= <-]). exact Hv.
    + intros rk. apply draws_pure; [apply _|]. intros Hrk. by apply Hw.
    + done.
  - by apply Hw.
Qed.

(** ** Every route *)

Inductive Request :=
  | CreatePlan (name : str) (ins : list (Z * Z))
  | UpdatePlan (key : str) (name : option str) (ins : option (list (Z * Z)))
  | DeletePlan (key : str)
  | AssignPlan (key : str) (student_ids : list str)
  | Payment (req : RecordPayment) | Refunding (req : RecordPayment)
  | Reversing (line : str) (note : option str).

Definition perform (u : User) (q : Request) : io Tables () :=
  match q with
  | CreatePlan name ins => _ ← create_plan u name ins; mret ()
  | UpdatePlan key name ins => _ ← update_plan u key name ins; mret ()
  | DeletePlan key => delete_plan u key
  | AssignPlan key sids => _ ← assign_plan u key sids; mret ()
  | Payment req => _ ← record_payment u req; mret ()
  | Refunding req => _ ← record_refund u req; mret ()
  | Reversing line note => _ ← record_reversal u line note; mret ()
  end.

Lemma every_route_fine u q : fine (perform u q).
Proof.
  assert (∀ A (m : io Tables A), fine m → fine (_ ← m; mret ())) as Hdone
    by (intros A m Hm; apply route_bind; [done|intros; apply route_done]).
  destruct q as [name ins|key name ins|key|key sids|req|req|line note]; simpl; try apply Hdone.
  - apply route_lift. intros [] _. apply checked_ok. intros name' _. apply route_lift. intros is_ His.
    apply create_fine. by eapply bodies_ok.
  - apply route_lift. intros [] _. apply route_bind; [apply require_plan_fine|]. intros p.
    apply route_bind; [apply route_checked_opt|]. intros name'. destruct ins as [bs|].
    + apply (draws_bind ok moves _ _ _ (λ r t, match r with
        | Ok ins => ∀ i, ins = Some i → Forall (λ x, amount_ok (i_amount x)) i | Err _ => True end)).
      * apply draws_lift; [apply _| |done]. intros is_ His. apply draws_done; [apply _|].
        intros t _ _ i [= <-]. by eapply bodies_ok.
      * intros ins w Hid Hw Hok Hins. by apply (update_fine p name' ins Hins w).
      * done.
    + by apply (update_fine p name' None).
  - apply route_lift. intros [] _. apply route_bind; [apply require_plan_fine|]. intros p.
    apply route_bind; [apply delete_fine|]. intros []; apply route_done.
  - apply route_lift. intros [] _. eapply route_weaken; [|apply assign_batch_promises]. done.
  - apply record_with_fine. intros l a m n rk Ha Hrk. by apply (against_fine l Charge Credit _ _ _ a m n false rk).
  - apply record_with_fine. intros l a m n rk Ha Hrk. by apply (against_fine l Credit Refund _ _ _ a m n true rk).
  - apply route_lift. intros [] _. apply with_line. intros l. apply field_line; [apply route_flat_opt|].
    intros n. apply reversal_fine.
Qed.
End Keeps.
