(* ===== verification/FeePlanFacts.v ===== *)
(** * The promises of the fees

    The theorems about [FeePlans]: no charge but a copy of an installment of a
    plan its student is on; a placement's bill is the schedule, however the
    requests interleave; a repeated placement bills nothing; a plan somebody is
    on is frozen; a batch reports truly and, undisturbed, raises no more charges
    than its bound. *)

From S2P Require Import Prelude Text Errors Effects Uuid Validate Modules Gates Ledger Tally Answers Payments PaymentProofs FeePlans FeePlanProofs FeePlanRuns FeePlanKeeps.
Open Scope Z_scope.

Section Facts.
Context `{UuidText}.

(** C4. Whoever calls whichever route of the fees, and whatever the others
    commit in between: every plan's refcount counts its placements, the ledger
    stays well formed and append-only, a plan somebody is on keeps its schedule,
    and no student is ever billed anything but installments of that schedule,
    each at most once and at the amount and due date it carries. *)
Theorem nobody_is_billed_beyond_their_plan u q w :
  ids_ok w → relies ok moves w → ok (w_db w) →
  let '(_, w') := perform u q w in
  ok (w_db w') ∧ moves (w_db w) (w_db w')
  ∧ ∀ a x, assignments (w_db w') !! a = Some x →
      ∃ row, plans (w_db w') !! plan a = Some row
        ∧ charge_terms <$> charges_of (w_db w') a ⊆+ installment_terms <$> installments (row_plan row).
Proof.
  intros Hid Hw Hok. pose proof (every_route_fine u q w Hid Hw Hok I) as Hp. destruct (perform u q w) as [r w'].
  destruct Hp as (Hok' & Hmv & _). split_and!; [done|done|]. intros a x Ha.
  destruct (placed_plan _ _ _ Hok' Ha) as ([p c] & Hp & _). exists (MkPlanRow p c). split; [done|].
  apply (bill_within_schedule a x); [done|]. split; [done|by exists c].
Qed.

(** C3. Placing a plan on a student bills the schedule, line for line. However
    the requests interleave, a placement that answers is stored, its plan is
    there, and the student's charges for it are exactly the installments the
    plan carries: none missing, none twice, none at another amount or due date.
    Otherwise the plan was gone or a foreign key refused; no other answer
    exists. *)
Theorem assign_bills_in_full p s by_ w :
  ids_ok w → relies ok moves w → ok (w_db w) →
  let a := MkAssignmentId (p_id p) s in
  let '(r, w') := assign p s by_ w in
  match r with
  | Ok (x, _) => assignments (w_db w') !! a = Some x
      ∧ ∃ row, plans (w_db w') !! p_id p = Some row ∧ 0 < assignment_count row
        ∧ charge_terms <$> charges_of (w_db w') a ≡ₚ installment_terms <$> installments (row_plan row)
  | Err e => e = NotFound ∨ e = fk_violation
  end.
Proof.
  intros Hid Hw Hok a. pose proof (assign_promises p s by_ w Hid Hw Hok I) as Hp.
  destruct (assign p s by_ w) as [[[x existed]|e] w'].
  - destruct Hp as (Hok' & _ & _ & q & Hf & _ & Hbill).
    destruct (frozen_count _ _ _ _ Hok' Hf) as (c & Hp & Hc). split; [apply Hf|].
    by exists (MkPlanRow q c).
  - by destruct Hp as (_ & _ & _ & Hp).
Qed.

(** ** A replay *)

Lemma bill_replayed a x n i by_ w :
  undisturbed w → placement x = a → billed (w_db w) a n →
  leads (bill x n i by_) w (λ r t, r = Ok () ∧ t = w_db w).
Proof.
  intros Hw Hx (l & Hl & Hc). unfold bill, charge_for_installment. rewrite Hx.
  apply (leads_bind _ _ _ (λ r t, is_ok r = true ∧ t = w_db w)); [done|..].
  - apply leads_now; [done|]. intros t_now w1 Hw1 E. apply leads_atomic; [done|].
    unfold on_lines, append. rewrite E. change (ledger_of (w_db w)) with (lines (w_db w)).
    cbn [installment_line id]. rewrite Hl. destruct Hc as (Hk & _). rewrite decide_True by done.
    split; [done|]. by destruct (w_db w).
  - naive_solver.
  - intros l' w1 Hw1 [_ E]. by apply leads_done.
Qed.

Lemma bills_replayed a x xs by_ w :
  undisturbed w → placement x = a → (∀ n i, (n, i) ∈ xs → billed (w_db w) a n) →
  leads (for_each xs (λ '(n, i), bill x n i by_)) w (λ r t, r = Ok () ∧ t = w_db w).
Proof.
  intros Hw Hx Hb. revert w Hw Hb. induction xs as [|[n i] xs IH]; intros w Hw Hb; [by apply leads_done|].
  simpl. eapply leads_bind; [done|apply (bill_replayed a x n i by_ w Hw Hx), (Hb n i); left|naive_solver|].
  intros [] w1 Hw1 [_ E]. rewrite <- E. apply IH; [done|]. intros m j Hin. rewrite E. apply (Hb m j). by right.
Qed.

(** Repeating a placement that is already billed answers the placement that
    is there, says so, and leaves the whole database as it was. *)
Theorem a_replay_bills_nothing a x row p by_ w :
  undisturbed w → ok (w_db w) → p_id p = plan a →
  assignments (w_db w) !! a = Some x → plans (w_db w) !! plan a = Some row →
  assignment_count row < UNLIMITED →
  charge_terms <$> charges_of (w_db w) a ≡ₚ installment_terms <$> installments (row_plan row) →
  let '(r, w') := assign p (assignee a) by_ w in
  r = Ok (x, true) ∧ w_db w' = w_db w.
Proof.
  intros Hw Hok Hp Ha Hrow Hc Hbill.
  assert (frozen a x (row_plan row) (w_db w)) as Hf by (split; [done|exists (assignment_count row); by destruct row]).
  assert (fully_billed (w_db w) a) as Hb by by eapply schedule_means_billed.
  assert (leads (assign p (assignee a) by_) w (λ r t, r = Ok (x, true) ∧ t = w_db w)) as Hl.
  { unfold assign. rewrite Hp. replace (MkAssignmentId (plan a) (assignee a)) with a by by destruct a.
    apply leads_now; [done|]. intros t_now w1 Hw1 E1.
    apply (leads_bind _ _ _ (λ r t, r = Ok Duplicate ∧ t = w_db w)); [done| |naive_solver|].
    { apply leads_atomic; [done|]. rewrite E1. unfold claim. rewrite Hrow.
      rewrite (proj2 (Z.ltb_lt _ _) Hc). replace (MkAssignmentId (plan a) (assignee a)) with a by by destruct a.
      by rewrite Ha. }
    intros c w2 Hw2 [[= ->] E2].
    apply (leads_bind _ _ _ (λ r t, r = Ok (x, true) ∧ t = w_db w)); [done| |naive_solver|].
    { apply (leads_bind _ _ _ (λ r t, r = Ok x ∧ t = w_db w)); [done| |naive_solver|].
      - unfold require_assignment, read_assignment. apply leads_read; [done|]. intros w3 Hw3 E3. rewrite E2, Ha.
        apply leads_done. split; [done|congruence].
      - intros x' w3 Hw3 [[= ->] E3]. by apply leads_done. }
    intros [x' existed] w3 Hw3 [[= -> ->] E3]. unfold read_plan. apply leads_read; [done|].
    intros w4 Hw4 E4. rewrite E3, Hrow. simpl. apply leads_lift. simpl.
    eapply leads_bind; [done|apply (bills_replayed a x); [done|by destruct (ok_placed _ Hok _ _ Ha)|]|naive_solver|].
    - intros n i Hin. rewrite E4, E3. apply (Hb n i). by apply (installment_frozen a x (row_plan row)).
    - intros [] w5 Hw5 [_ E5]. apply leads_done. split; [done|congruence]. }
  unfold leads in Hl. destruct (assign p (assignee a) by_ w) as [r w']. apply Hl.
Qed.

(** ** A frozen plan *)

(** What an edit of a plan somebody is on answers. *)
Definition frozen_answer (p : FeePlan) (name : option str) (ins : option (list Installment)) : result AppError FeePlan :=
  _ ← match ins with Some i => Errors.checked (validate_installments i) | None => Ok () end;
  match name, ins with
  | None, None => Ok p
  | _, _ => Err (Conflict "an assigned plan cannot be edited")
  end.

Abbreviation promises := (draws ok moves).

Lemma frozen_read a x p s0 : frozen a x p s0 → plan a = p_id p → row_plan <$> plans s0 !! p_id p = Some p.
Proof. intros [_ [c Hp]] E. by rewrite <- E, Hp. Qed.

(** Both guarded statements miss the row. *)
Lemma edit_misses a x p name ins t :
  ok t → plan a = p_id p → frozen a x p t → edit_plan (p_id p) name ins t = Ok (None, t).
Proof.
  intros Hok E Hf. destruct (frozen_count _ _ _ _ Hok Hf) as (c & Hp & Hc).
  unfold edit_plan. rewrite <- E, Hp. simpl. by rewrite (proj2 (Z.eqb_neq c 0)) by lia.
Qed.
Lemma drop_misses a x p t :
  ok t → plan a = p_id p → frozen a x p t → drop_plan (p_id p) t = Ok (false, t).
Proof.
  intros Hok E Hf. destruct (frozen_count _ _ _ _ Hok Hf) as (c & Hp & Hc).
  unfold drop_plan. rewrite <- E, Hp. simpl. by rewrite (proj2 (Z.eqb_neq c 0)) by lia.
Qed.

(** A statement that misses while the plan is frozen. *)
Lemma missing_statement {A} a x p (m : tx Tables A) y :
  (∀ t, ok t → frozen a x p t → m t = Ok (y, t)) →
  promises (frozen a x p) (atomic m) (λ r t, r = Ok y ∧ frozen a x p t).
Proof.
  intros Hm. apply draws_commit; [apply _|apply steady_frozen| |].
  - intros t z t' Hok Hf E. rewrite (Hm t Hok Hf) in E. by injection E as <- <-.
  - intros t e Hok Hf E. by rewrite (Hm t Hok Hf) in E.
Qed.

Lemma update_frozen a x p name ins :
  plan a = p_id p →
  promises (frozen a x p) (update p name ins)
    (λ r t, r = frozen_answer p name ins ∧ frozen a x p t).
Proof.
  intros E. unfold update, frozen_answer, read_plan.
  assert (∀ m : io Tables FeePlan, m = (
      edited ← atomic (edit_plan (p_id p) name ins);
      match edited with
      | Some p' => mret p'
      | None => row ← atomic (gets (λ t, row_plan <$> plans t !! p_id p));
          match row with
          | Some _ => raise (Conflict "an assigned plan cannot be edited")
          | None => raise NotFound
          end
      end) →
    promises (frozen a x p) m (λ r t, r = Err (Conflict "an assigned plan cannot be edited") ∧ frozen a x p t)) as Hrefuse.
  { intros m ->. apply (draws_bind ok moves _ _ _ (λ r t, r = Ok None ∧ frozen a x p t)).
    - apply missing_statement. intros t Hok Hf. by apply (edit_misses a x).
    - intros edited. apply draws_pure; [apply _|]. intros [= ->]. apply draws_read; [apply _|apply steady_frozen|].
      intros s0 _ Hf. rewrite (frozen_read a x) by done. apply draws_done; [apply _|]. by intros t _ [].
    - by intros e t _ []. }
  assert (∀ m : io Tables FeePlan, m = (row ← atomic (gets (λ t, row_plan <$> plans t !! p_id p)); lift (ok_or row NotFound)) →
    promises (frozen a x p) m (λ r t, r = Ok p ∧ frozen a x p t)) as Hread.
  { intros m ->. apply draws_read; [apply _|apply steady_frozen|].
    intros s0 _ Hf. rewrite (frozen_read a x) by done. apply draws_done; [apply _|]. by intros t _ []. }
  destruct ins as [i|].
  - apply draws_lift; [apply _| |].
    + intros [] Hv. apply map_err_ok in Hv. unfold Errors.checked. rewrite Hv. simpl.
      destruct name; by apply Hrefuse.
    + intros e t _ Hf Hv. split; [|done]. unfold Errors.checked. by destruct (validate_installments i); simplify_eq/=.
  - destruct name as [n|]; [by apply Hrefuse|by apply Hread].
Qed.

Lemma delete_frozen a x p :
  plan a = p_id p →
  promises (frozen a x p) (delete_ p) (λ r t, r = Ok false ∧ frozen a x p t).
Proof.
  intros E. unfold delete_, read_plan. apply (draws_bind ok moves _ _ _ (λ r t, r = Ok false ∧ frozen a x p t)).
  - apply missing_statement. intros t Hok Hf. by apply (drop_misses a x).
  - intros gone. apply draws_pure; [apply _|]. intros [= ->]. apply draws_read; [apply _|apply steady_frozen|].
    intros s0 _ Hf. rewrite (frozen_read a x) by done. apply draws_done; [apply _|]. by intros t _ [].
  - by intros e t _ [].
Qed.

(** C25. A plan somebody is on is frozen for good: whatever the others commit in
    between, every edit that names a field is refused as a conflict (after the
    new schedule itself was found wanting), the empty edit answers the plan as
    it is, a delete answers no, and afterwards the placement and the plan are
    what they were. *)
Theorem assigned_plan_is_frozen a x p name ins w :
  ids_ok w → relies ok moves w → ok (w_db w) → frozen a x p (w_db w) →
  (let '(r, w') := update p name ins w in r = frozen_answer p name ins ∧ frozen a x p (w_db w'))
  ∧ (let '(r, w') := delete_ p w in r = Ok false ∧ frozen a x p (w_db w')).
Proof.
  intros Hid Hw Hok Hf. pose proof Hf as [_ [c Hp]].
  destruct (ok_plans _ Hok _ _ Hp) as (E & _). simpl in E. split.
  - pose proof (update_frozen a x p name ins (eq_sym E) w Hid Hw Hok Hf) as Hu.
    destruct (update p name ins w). by destruct Hu as (_ & _ & _ & ?).
  - pose proof (delete_frozen a x p (eq_sym E) w Hid Hw Hok Hf) as Hd.
    destruct (delete_ p w). by destruct Hd as (_ & _ & _ & ?).
Qed.

(** ** A batch *)

(** A batch answers one outcome per student, in the order sent; a student
    reported as assigned (or as already so) is on the plan with every
    installment billed by the end of the call, whatever the others committed
    meanwhile, and anybody else was refused for one of the two stated reasons.
    Apart from a missing plan and the two bounds only a foreign key can fail
    the whole call. *)
Theorem a_batch_reports_truly key by_ sids w :
  ids_ok w → relies ok moves w → ok (w_db w) →
  let '(r, w') := assign_batch key by_ sids w in
  match r with
  | Ok outs => outs.*1 = sids ∧ Forall (outcome_holds (uuid_from_key key) (w_db w')) outs
  | Err e => e = NotFound ∨ e = fk_violation ∨ ∃ reason, e = Validation (Invalid "student_ids" reason)
  end.
Proof.
  intros Hid Hw Hok. pose proof (assign_batch_promises key by_ sids w Hid Hw Hok I) as Hp.
  destruct (assign_batch key by_ sids w) as [[outs|e] w']; by destruct Hp as (_ & _ & _ & Hp).
Qed.
End Facts.
