(* ===== verification/FeePlanBounds.v ===== *)
(** * How many charges one request may raise, and a small school

    Undisturbed, a batch of placements raises at most as many charges as
    [MAX_FEE_PLAN_ASSIGN_WRITES] allows. The bound is checked against the plan
    as it was read before the first student was placed, though, and an edit that
    lands in between may still lengthen the schedule. The theorems of
    [FeePlanFacts] are then applied at a school with one plan. *)

From S2P Require Import Prelude Text Errors Effects Uuid Validate Modules Gates Ledger Tally Answers Payments PaymentProofs FeePlans FeePlanProofs FeePlanRuns FeePlanKeeps FeePlanFacts.
Open Scope Z_scope.

(** ** Counting the lines a request appends *)

Section Spending.
Context `{UuidText} (p : uuid) (len : nat).

(** The plan, while it is there, carries [len] installments. *)
Definition schedule_len (t : Tables) : Prop :=
  ∀ row, plans t !! p = Some row → length (installments (row_plan row)) = len.

Definition spends {A} (k : nat) (m : io Tables A) : Prop := ∀ w,
  undisturbed w → schedule_len (w_db w) →
  let '(_, w') := m w in
  w_env w' = w_env w ∧ schedule_len (w_db w')
  ∧ (size (lines (w_db w')) ≤ size (lines (w_db w)) + k)%nat.

Lemma spends_done {A} (r : result AppError A) : spends 0 (λ w, (r, w)).
Proof. intros w Hw Hl. split_and!; [done|done|lia]. Qed.

Lemma spends_bind {A B} j k (m : io Tables A) (f : A → io Tables B) :
  spends j m → (∀ a, spends k (f a)) → spends (j + k) (m ≫= f).
Proof.
  intros Hm Hf w Hw Hl. specialize (Hm w Hw Hl). unfold mbind, io_bind.
  destruct (m w) as [[a|e] w1]; destruct Hm as (E & Hl1 & Hs1).
  - specialize (Hf a w1 ltac:(unfold undisturbed; by rewrite E) Hl1). destruct (f a w1) as [r w2].
    destruct Hf as (E2 & Hl2 & Hs2). split_and!; [congruence|done|lia].
  - split_and!; [done|done|lia].
Qed.

Lemma spends_bind0 {A B} k (m : io Tables A) (f : A → io Tables B) :
  spends 0 m → (∀ a, spends k (f a)) → spends k (m ≫= f).
Proof. apply spends_bind. Qed.

Lemma spends_weaken {A} j k (m : io Tables A) : (j ≤ k)%nat → spends j m → spends k m.
Proof.
  intros Hjk Hm w Hw Hl. specialize (Hm w Hw Hl). destruct (m w). destruct Hm as (? & ? & ?).
  split_and!; [done|done|lia].
Qed.

Lemma spends_now : spends 0 now.
Proof. intros w Hw Hl. split_and!; [done|done|simpl; lia]. Qed.

Lemma spends_atomic {A} k (m : tx Tables A) :
  (∀ t a t', schedule_len t → m t = Ok (a, t') →
     schedule_len t' ∧ (size (lines t') ≤ size (lines t) + k)%nat) → spends k (atomic m).
Proof.
  intros Hm w Hw Hl. rewrite atomic_alone by done.
  destruct (m (w_db w)) as [[a t']|e] eqn:E; simpl; [|split_and!; [done|done|lia]].
  destruct (Hm _ _ _ Hl E). by split_and!.
Qed.

Lemma spends_read {A B} k (f : Tables → A) (g : A → io Tables B) :
  (∀ t, schedule_len t → spends k (g (f t))) → spends k (atomic (gets f) ≫= g).
Proof.
  intros Hg w Hw Hl. rewrite atomic_bind_alone by done. unfold gets.
  exact (Hg (w_db w) Hl (tick (w_db w) w) Hw Hl).
Qed.

Lemma spends_lift {A B} k (r : result AppError A) (g : A → io Tables B) :
  (∀ a, r = Ok a → spends k (g a)) → spends k (lift r ≫= g).
Proof.
  intros Hg. destruct r as [a|e]; [exact (Hg a eq_refl)|]. intros w Hw Hl. split_and!; [done|done|simpl; lia].
Qed.

Lemma spends_attempt {A} k (m : io Tables A) : spends k m → spends k (attempt m).
Proof. intros Hm w Hw Hl. unfold attempt. specialize (Hm w Hw Hl). by destruct (m w). Qed.

Lemma size_append l lt x lt' : append l lt = Ok (x, lt') → (size lt' ≤ size lt + 1)%nat.
Proof.
  unfold append. destruct (lt !! id l) eqn:Hl; case_decide; try done; intros [= <- <-]; [lia|].
  rewrite map_size_insert_None by done. lia.
Qed.

Lemma bill_spends a n i by_ : spends 1 (bill a n i by_).
Proof.
  unfold bill, charge_for_installment. apply (spends_bind 1 0); [|intros l; apply spends_done].
  apply spends_bind0; [apply spends_now|]. intros t_now. apply spends_atomic.
  intros t x t' Hl (lt & E & ->)%on_lines_ok. split; [done|]. by eapply size_append.
Qed.

Lemma bills_spend a by_ xs : spends (length xs) (for_each xs (λ '(n, i), bill a n i by_)).
Proof.
  induction xs as [|[n i] xs IH]; [apply spends_done|]. simpl.
  apply (spends_bind 1); [apply bill_spends|]. by intros [].
Qed.

Lemma claim_lines q s by_ at_ t c t' : claim q s by_ at_ t = Ok (c, t') → lines t' = lines t.
Proof. unfold claim. repeat case_match; naive_solver. Qed.

Lemma claim_schedule q s by_ at_ t c t' :
  claim q s by_ at_ t = Ok (c, t') → schedule_len t → schedule_len t'.
Proof.
  unfold claim. intros E Hl. repeat case_match; simplify_eq/=; try done.
  intros row. simpl. intros [(_ & r & Hr & ->)|[_ Hr]]%lookup_alter_Some; [exact (Hl r Hr)|exact (Hl row Hr)].
Qed.

Lemma length_numbered (ins : list Installment) : length (numbered ins) = length ins.
Proof. apply length_imap. Qed.

Lemma assign_spends q s by_ : p_id q = p → spends len (assign q s by_).
Proof.
  intros Hq. unfold assign. rewrite Hq. apply spends_bind0; [apply spends_now|]. intros t_now. apply spends_bind0.
  { apply spends_atomic. intros t c t' Hl E. rewrite (claim_lines _ _ _ _ _ _ _ E). split; [|lia].
    by apply (claim_schedule _ _ _ _ _ _ _ E). }
  intros c. apply spends_bind0.
  { destruct c; try apply spends_done. apply spends_bind0; [|intros x; apply spends_done].
    unfold require_assignment, read_assignment. apply spends_read. intros t _. apply spends_done. }
  intros [x existed]. unfold read_plan. apply spends_read. intros t Hl. apply spends_lift.
  intros stored Hs. apply ok_or_ok in Hs. apply fmap_Some in Hs as (row & Hrow & ->).
  rewrite <- (Hl row Hrow), <- (Nat.add_0_r (length _)). apply spends_bind; [|intros []; apply spends_done].
  rewrite <- (length_numbered (installments (row_plan row))). apply bills_spend.
Qed.

Lemma assign_one_spends q by_ sid : p_id q = p → spends len (assign_one q by_ sid).
Proof.
  intros Hq. unfold assign_one, read_role. apply spends_read. intros t _.
  case_bool_decide; [|apply (spends_weaken 0); [lia|apply spends_done]].
  rewrite <- (Nat.add_0_r len). apply spends_bind; [by apply spends_attempt, assign_spends|].
  intros [[x []]|[]]; apply spends_done.
Qed.

Lemma batch_spends q by_ sids : p_id q = p → spends (length sids * len) (mapM (assign_one q by_) sids).
Proof.
  intros Hq. induction sids as [|sid sids IH]; [apply spends_done|]. cbn [mapM length Nat.mul].
  apply spends_bind; [by apply assign_one_spends|]. intros so.
  rewrite <- (Nat.add_0_r (_ * _)). apply spends_bind; [done|]. intros outs. apply spends_done.
Qed.
End Spending.

Section Bound.
Context `{UuidText}.

(** C35. Undisturbed, one call of the assign route appends at most 3000 lines to
    the ledger, whatever plan it names and however many students: it is refused
    whole, before anything is written, when the students times the installments
    of the plan exceed that, or when it names more than 200 students. *)
Theorem batch_within_bound key by_ sids w :
  undisturbed w → ok (w_db w) →
  let '(r, w') := assign_batch key by_ sids w in
  (size (lines (w_db w')) ≤ size (lines (w_db w)) + 3000)%nat
  ∧ (200 < length sids → w_db w' = w_db w ∧ is_ok r = false)%nat
  ∧ (∀ row, plans (w_db w) !! uuid_from_key key = Some row →
       3000 < length sids * length (installments (row_plan row)) → w_db w' = w_db w ∧ is_ok r = false)%nat.
Proof.
  intros Hw Hok. unfold assign_batch. destruct (_ <? _) eqn:Hmany.
  { split_and!; [simpl; lia|done|done]. }
  apply Z.ltb_ge in Hmany. unfold MAX_FEE_PLAN_ASSIGN_STUDENTS in Hmany.
  unfold read_plan. rewrite atomic_bind_alone by done. unfold gets.
  destruct (plans (w_db w) !! uuid_from_key key) as [row|] eqn:Hp; simpl fmap; [|split_and!; [simpl; lia|lia|done]].
  rewrite lift_bind. simpl ok_or. cbv beta iota.
  destruct (ok_plans _ Hok _ _ Hp) as (Hid & _).
  unfold usize_saturating_mul, MAX_FEE_PLAN_ASSIGN_WRITES, u64_max.
  destruct (_ <? _) eqn:Hbig.
  { split_and!; [simpl; lia|done|done]. }
  apply Z.ltb_ge in Hbig. set (w1 := tick (w_db w) w).
  pose proof (batch_spends (uuid_from_key key) (length (installments (row_plan row))) (row_plan row) by_ sids Hid w1) as Hs.
  destruct (mapM (assign_one (row_plan row) by_) sids w1) as [r w'].
  destruct Hs as (_ & _ & Hs); [done|by intros r' Hr'; simpl in Hr'; congruence|].
  change (w_db w1) with (w_db w) in Hs. split_and!; [lia|lia|]. intros row' [= <-] Hlong. lia.
Qed.
End Bound.
