(* ===== verification/FeePlanDemo.v ===== *)
(** * A small school and its fees

    The theorems of [FeePlanFacts] and [FeePlanBounds] at a school with one
    student and a plan of two installments, and the edit that slips under the
    bound of a batch. *)

From S2P Require Import Prelude Text Errors Effects Uuid Validate Modules Gates Ledger Tally Answers Payments PaymentProofs FeePlans FeePlanProofs FeePlanRuns FeePlanKeeps FeePlanFacts FeePlanBounds Statements StatementProofs.
Open Scope Z_scope.

#[local] Existing Instance hyphenated.

Definition yearly : FeePlan :=
  MkFeePlan 7 (lit "Yearly") [MkInstallment 150000 1000; MkInstallment 250000 2000] 1 0.
Definition pupil : uuid := 5%N.
Definition manager : User := MkUser 1 Manager.

Definition opening : Tables :=
  MkTables {[1%N := Manager; 5%N := Student]} ∅ {[7%N := MkPlanRow yearly 0]} ∅ ∅.

(** An id generator that answers uuids. *)
Definition ids (n : nat) : N := (N.of_nat n mod 2 ^ 128)%N.
Lemma ids_uuid n : uuid_ok (ids n).
Proof. apply N.mod_lt. by vm_compute. Qed.

Definition calm (t : Tables) : World Tables := quiet t (λ n, Z.of_nat n) ids.
Lemma calm_ids t : ids_ok (calm t).
Proof. intros n. apply ids_uuid. Qed.
Lemma calm_relies t : relies ok moves (calm t).
Proof. intros n s Hs. by split. Qed.

Lemma yearly_schedule : schedule_ok (installments yearly).
Proof. split; [by vm_compute|]. repeat constructor; unfold amount_ok, MAX_LEDGER_AMOUNT_MINOR; simpl; lia. Qed.

(** A database with plans and no placement yet. *)
Lemma unplaced_ok us ps :
  (∀ u, is_Some (us !! u) → uuid_ok u) →
  (∀ p row, ps !! p = Some row → p_id (row_plan row) = p ∧ uuid_ok p
     ∧ schedule_ok (installments (row_plan row)) ∧ assignment_count row = 0) →
  ok (MkTables us ∅ ps ∅ ∅).
Proof.
  intros Hu Hp. split; simpl.
  - apply wf_empty.
  - exact Hu.
  - intros p row Hr. by destruct (Hp _ _ Hr) as (? & ? & ? & _).
  - intros a x Ha. by rewrite lookup_empty in Ha.
  - intros p c Hc. rewrite lookup_fmap in Hc. apply fmap_Some in Hc as (row & Hr & ->).
    destruct (Hp _ _ Hr) as (_ & _ & _ & ->). symmetry. apply tallied_0.
    intros a x Ha. by rewrite lookup_empty in Ha.
  - intros i l Hl. by rewrite lookup_empty in Hl.
Qed.

Lemma opening_ok : ok opening.
Proof.
  apply unplaced_ok.
  - intros u Hu. apply elem_of_dom in Hu. rewrite dom_insert, dom_singleton in Hu.
    apply elem_of_union in Hu as [Hu|Hu]; apply elem_of_singleton in Hu as ->; by vm_compute.
  - intros p row [<- <-]%lookup_singleton_Some. split_and!; [done|by vm_compute|apply yearly_schedule|done].
Qed.

(** The placement of the pupil, as the route would leave it. *)
Definition placed_run := assign yearly pupil 1 (calm opening).
Definition enrolled : Tables := w_db placed_run.2.
Definition seat : FeePlanAssignmentId := MkAssignmentId 7 pupil.
Definition pupils_row : FeePlanAssignment := MkFeePlanAssignment 7 pupil 1 0.

Lemma enrolled_bill :
  charge_terms <$> charges_of enrolled seat ≡ₚ installment_terms <$> installments yearly.
Proof. apply (bool_decide_unpack _). by vm_compute. Qed.

Lemma enrolled_ok : ok enrolled.
Proof.
  pose proof (assign_promises yearly pupil 1 (calm opening) (calm_ids _) (calm_relies _) opening_ok I) as Hp.
  unfold enrolled, placed_run. destruct (assign yearly pupil 1 (calm opening)) as [r w']. apply Hp.
Qed.

Lemma enrolled_seat : assignments enrolled !! seat = Some pupils_row.
Proof. by vm_compute. Qed.
Lemma enrolled_plan : plans enrolled !! plan seat = Some (MkPlanRow yearly 1).
Proof. by vm_compute. Qed.

#[local] Opaque enrolled.

Lemma nobody_is_billed_beyond_their_plan_witness :
  let '(_, w') := perform manager (AssignPlan (uuid_text 7) [uuid_text 5]) (calm opening) in
  ok (w_db w') ∧ moves opening (w_db w').
Proof.
  pose proof (nobody_is_billed_beyond_their_plan manager (AssignPlan (uuid_text 7) [uuid_text 5]) (calm opening)
    (calm_ids _) (calm_relies _) opening_ok) as Hp.
  destruct (perform manager _ (calm opening)) as [r w']. destruct Hp as (Hok & Hmv & _). by split.
Defined.

Lemma assign_bills_in_full_witness :
  let '(r, w') := assign yearly pupil 1 (calm opening) in
  is_ok r = true
  ∧ match r with
    | Ok (x, _) => assignments (w_db w') !! seat = Some x
    | Err e => e = NotFound ∨ e = fk_violation
    end.
Proof.
  pose proof (assign_bills_in_full yearly pupil 1 (calm opening) (calm_ids _) (calm_relies _) opening_ok) as Hp.
  assert (is_ok (assign yearly pupil 1 (calm opening)).1 = true) as Hr by by vm_compute.
  destruct (assign yearly pupil 1 (calm opening)) as [[[x e]|e] w']; [|done].
  split; [done|]. exact (proj1 Hp).
Defined.

Lemma a_replay_bills_nothing_witness :
  let '(r, w') := assign yearly pupil 1 (calm enrolled) in
  r = Ok (pupils_row, true) ∧ w_db w' = enrolled.
Proof.
  pose proof (a_replay_bills_nothing seat pupils_row (MkPlanRow yearly 1) yearly 1 (calm enrolled)) as Hp.
  apply Hp; [done|exact enrolled_ok|done|exact enrolled_seat|exact enrolled_plan|done|exact enrolled_bill].
Defined.

Lemma assigned_plan_is_frozen_witness :
  (update yearly (Some (lit "Other")) None (calm enrolled)).1 = Err (Conflict "an assigned plan cannot be edited")
  ∧ (delete_ yearly (calm enrolled)).1 = Ok false.
Proof.
  destruct (assigned_plan_is_frozen seat pupils_row yearly (Some (lit "Other")) None (calm enrolled)
    (calm_ids _) (calm_relies _) enrolled_ok) as [Hu Hd].
  { split; [exact enrolled_seat|]. exists 1. exact enrolled_plan. }
  destruct (update yearly _ _ (calm enrolled)) as [r w1]. destruct (delete_ yearly (calm enrolled)) as [r' w2].
  split; [exact (proj1 Hu)|exact (proj1 Hd)].
Defined.

Lemma a_batch_reports_truly_witness :
  let '(r, w') := assign_batch (uuid_text 7) 1 [uuid_text 5; uuid_text 9] (calm opening) in
  r = Ok [(uuid_text 5, Assigned); (uuid_text 9, Rejected "no such student")]
  ∧ match r with
    | Ok outs => Forall (outcome_holds (uuid_from_key (uuid_text 7)) (w_db w')) outs
    | Err _ => True
    end.
Proof.
  pose proof (a_batch_reports_truly (uuid_text 7) 1 [uuid_text 5; uuid_text 9] (calm opening)
    (calm_ids _) (calm_relies _) opening_ok) as Hp.
  assert ((assign_batch (uuid_text 7) 1 [uuid_text 5; uuid_text 9] (calm opening)).1
    = Ok [(uuid_text 5, Assigned); (uuid_text 9, Rejected "no such student")]) as Hr by by vm_compute.
  destruct (assign_batch _ _ _ (calm opening)) as [[outs|e] w']; [|done].
  split; [exact Hr|exact (proj2 Hp)].
Defined.

Lemma batch_within_bound_witness :
  let '(_, w') := assign_batch (uuid_text 7) 1 [uuid_text 5] (calm opening) in
  (size (lines (w_db w')) ≤ size (lines opening) + 3000)%nat.
Proof.
  pose proof (batch_within_bound (uuid_text 7) 1 [uuid_text 5] (calm opening)) as Hp.
  destruct (assign_batch _ _ _ (calm opening)) as [r w']. apply Hp; [done|exact opening_ok].
Defined.

(** ** The pupil's statement *)

(** A database that compares ids byte by byte. *)
Definition bytewise (a b : str) : Prop := str_le a b = true.
#[local] Instance bytewise_dec : RelDecision bytewise.
Proof. intros a b. unfold bytewise. apply _. Defined.

Lemma statement_adds_up_witness :
  ∃ st es w', statement_response bytewise pupil None 0 (calm enrolled) = (Ok st, w')
    ∧ balance_minor st = balance_of (lines enrolled) pupil ∧ balance_minor st = sumZ (entry_balance <$> es)
    ∧ balance_of (lines enrolled) pupil = -400000.
Proof.
  assert (Z.of_nat (size (lines enrolled)) ≤ 10 ^ 11) as Hsz by by vm_compute.
  destruct (statement_adds_up bytewise pupil None 0 (calm enrolled) enrolled_ok Hsz)
    as (st & es & w' & E & _ & _ & _ & Hb & Hs).
  exists st, es, w'. split_and!; [exact E|exact Hb|exact Hs|by vm_compute].
Defined.

Lemma money_is_private_witness :
  (user_balance (MkUser 4 Teacher) (uuid_text 5) (calm enrolled)).1
    = Err (Forbidden "requires manager role or higher, or a parent link to this student")
  ∧ (ensure_can_read_payments manager (uuid_from_key (uuid_text 5)) (calm enrolled)).1 = Ok ().
Proof.
  split.
  - apply (money_is_private bytewise (MkUser 4 Teacher) (uuid_text 5) None None (calm enrolled)); [done|by vm_compute].
  - rewrite (proj1 (money_is_private bytewise manager (uuid_text 5) None None (calm enrolled))) by done. by vm_compute.
Defined.

(** ** An edit under the bound *)

Definition monthly : FeePlan := MkFeePlan 7 (lit "Monthly") [MkInstallment 100 0] 1 0.
Definition sixty : list Installment := (λ n, MkInstallment 100 (Z.of_nat n)) <$> seq 0 60.
Definition pupils : list uuid := (λ n, N.of_nat (100 + n)) <$> seq 0 51.
Definition year_start : Tables :=
  MkTables (<[1%N := Manager]> (list_to_map ((λ u, (u, Student)) <$> pupils))) ∅
    {[7%N := MkPlanRow monthly 0]} ∅ ∅.

(** A colleague's PATCH of the plan, committed right after the batch read it. *)
Definition late_edit (n : nat) (t : Tables) : Tables :=
  if bool_decide (n = 1%nat) then
    match edit_plan 7 None (Some sixty) t with Ok (_, t') => t' | Err _ => t end
  else t.
Definition racing : World Tables := MkWorld year_start 0 late_edit (λ _, 0) ids.

Lemma sixty_schedule : schedule_ok sixty.
Proof.
  split; [by vm_compute|]. unfold sixty. apply Forall_fmap, Forall_forall. intros n _.
  unfold amount_ok, MAX_LEDGER_AMOUNT_MINOR. simpl. lia.
Qed.

Lemma racing_relies : relies ok moves racing.
Proof.
  intros n t Hok. simpl. unfold late_edit. case_bool_decide; [|by split].
  destruct (edit_plan 7 None (Some sixty) t) as [[x t']|e] eqn:E; [|by split].
  assert (∀ i, Some sixty = Some i → schedule_ok i) as Hs by (intros i [= <-]; apply sixty_schedule).
  by destruct (edit_plan_moves 7 None (Some sixty) t x t' Hs Hok E) as (? & ? & _).
Qed.

Lemma year_start_ok : ok year_start.
Proof.
  apply unplaced_ok.
  - intros u Hu. apply elem_of_dom in Hu. rewrite dom_insert in Hu.
    apply elem_of_union in Hu as [Hu|Hu]; [apply elem_of_singleton in Hu as ->; by vm_compute|].
    rewrite dom_list_to_map in Hu. apply elem_of_list_to_set, list_elem_of_fmap in Hu as ([v r] & -> & Hv).
    apply list_elem_of_fmap in Hv as (v' & [= -> ->] & Hv). unfold pupils in Hv.
    apply list_elem_of_fmap in Hv as (n & -> & Hn%elem_of_seq). simpl. unfold uuid_ok.
    apply (N.lt_trans _ 1000); [lia|by vm_compute].
  - intros p row [<- <-]%lookup_singleton_Some. split_and!; [done|by vm_compute| |done].
    split; [by vm_compute|]. repeat constructor; unfold amount_ok, MAX_LEDGER_AMOUNT_MINOR; simpl; lia.
Qed.

(** The bound on a batch is checked against the plan as it was first read.
    An ordinary edit of the schedule, committed before the first student is
    placed, lets one call raise more charges than the bound allows: 51 students
    on a plan that grew from one installment to sixty are 3060 charges. *)
Theorem late_edit_passes_the_bound :
  ids_ok racing ∧ relies ok moves racing ∧ ok (w_db racing)
  ∧ let '(r, w') := assign_batch (uuid_text 7) 1 (uuid_text <$> pupils) racing in
    is_ok r = true ∧ size (lines (w_db racing)) = 0%nat ∧ size (lines (w_db w')) = 3060%nat
    ∧ MAX_FEE_PLAN_ASSIGN_WRITES < Z.of_nat (size (lines (w_db w'))).
Proof.
  split; [intros n; apply ids_uuid|]. split; [exact racing_relies|]. split; [exact year_start_ok|].
  assert ((λ '(r, w'), (is_ok r, size (lines (w_db w')))) (assign_batch (uuid_text 7) 1 (uuid_text <$> pupils) racing)
    = (true, 3060%nat)) as E by by vm_compute.
  destruct (assign_batch _ _ _ racing) as [r w']. injection E as -> ->. done.
Qed.
