(* ===== verification/Tenant.v ===== *)
(** * Schools: the registry and what reaches a school's database
    ([src/tenant.rs], [src/web/tenant_state.rs], [src/web/builder.rs])

    The control database holds one row per school, its module shelf and its
    memberships; each school's data lives in a database of its own that can be
    created, dialled, migrated and dropped, each of which can fail on its own.
    [resolve] is the door every request passes. *)

From S2P Require Import Prelude Text Errors Effects Uuid Validate Modules.
Open Scope Z_scope.

Definition MAX_SCHOOL_NAME_LEN : Z := 120.

(** ** Names *)

Inductive SchoolStatus : Set := Active | Suspended | Provisioning.

#[export] Instance SchoolStatus_eq_dec : EqDecision SchoolStatus.
Proof. solve_decision. Defined.

Definition status_as_str (s : SchoolStatus) : str :=
  lit match s with
  | Active => "active"
  | Suspended => "suspended"
  | Provisioning => "provisioning"
  end.

Definition status_try_from_str (value : str) : result ValidationError SchoolStatus :=
  if bool_decide (value = lit "active") then Ok Active
  else if bool_decide (value = lit "suspended") then Ok Suspended
  else Err (Invalid "status" "must be one of: active, suspended").

(** [split_cookie]: the school part and the token, at the first dot. *)
Definition split_cookie (value : str) : option (str * str) :=
  '(prefix, token) ← split_once 46%N value;
  if negb (bool_decide (prefix = [])) && negb (bool_decide (token = []))
  then Some (prefix, token) else None.

(** [Uuid::simple]: the hexadecimal digits without the dashes. *)
Section School_ids.
Context `{UuidText}.

Definition simple (id : uuid) : str := filter (λ c, c ≠ 45%N) (uuid_text id).

Definition school_db_name (control_db : str) (id : uuid) : str :=
  control_db ++ lit "_school_" ++ simple id.

(** [SchoolId::try_parse]. *)
Definition school_id_try_parse (value : str) : result ValidationError uuid :=
  if negb (is_hyphenated_uuid value)
  then Err (Invalid "school" "must be a hyphenated uuid")
  else ok_or (uuid_parse value) (Invalid "school" "must be a hyphenated uuid").

Definition path_id (raw : str) : result AppError uuid :=
  match school_id_try_parse raw with Ok id => Ok id | Err _ => Err NotFound end.
End School_ids.

(** [school_name] of the builder routes. *)
Definition school_name (value : str) : result AppError str :=
  checked (_ ← validate_required "name" value MAX_SCHOOL_NAME_LEN; Ok (trim value)).

(** ** State *)

Record School := MkSchool {
  name : str;
  status : SchoolStatus;
  created_at : Z;
}.

(** The control database, the server's school databases (by name, and whether
    the school schema has been applied), and this process's live pools (by
    simple uuid). *)
Record Control := MkControl {
  school : gmap uuid School;
  school_module : gset (uuid * str);
  person_school : gset (uuid * uuid);
  databases : gmap str bool;
  cache : gset str;
}.

Definition shelf (c : Control) (id : uuid) : gset str :=
  set_map snd (filter (λ p : uuid * str, p.1 = id) (school_module c)).

(** [School::modules]: an unknown stored name is dropped. *)
Definition known_modules (stored : gset str) : ModuleSet :=
  list_to_set (filter (λ m, module_as_str m ∈ stored) ALL).
Definition school_modules_of (c : Control) (id : uuid) : ModuleSet :=
  known_modules (shelf c id).

(** [School::read]: the row joined with its shelf. *)
Definition read_school (id : uuid) : tx Control (option (School * ModuleSet)) :=
  gets (λ c, (λ s, (s, school_modules_of c id)) <$> school c !! id).

Definition set_school (id : uuid) (s : School) (c : Control) : Control :=
  MkControl (<[id := s]> (school c)) (school_module c) (person_school c) (databases c) (cache c).
Definition clear_shelf (id : uuid) (c : Control) : Control :=
  MkControl (school c) (filter (λ p : uuid * str, p.1 ≠ id) (school_module c))
    (person_school c) (databases c) (cache c).
Definition add_shelf (id : uuid) (names_ : list str) (c : Control) : Control :=
  MkControl (school c) (school_module c ∪ list_to_set ((id,.) <$> names_))
    (person_school c) (databases c) (cache c).
Definition set_database (db : str) (o : option bool) (c : Control) : Control :=
  MkControl (school c) (school_module c) (person_school c)
    (partial_alter (λ _, o) db (databases c)) (cache c).
Definition set_cache (k : gset str) (c : Control) : Control :=
  MkControl (school c) (school_module c) (person_school c) (databases c) k.

(** What can refuse: every statement of the server, by the step it runs at. *)
Inductive Statement :=
  | SRead | SRegister | SEnsure | SDial | SMigrate | SActivate | SUnshelve
  | SUnregister | SDropDatabase | SUpdate | SSetModules | SDrop | SList.

Section Tenants.
Context `{UuidText}.
Context (control_db : str).
Context (verdict : Statement → nat → option AppError).

Definition stmt {A} (s : Statement) (m : tx Control A) : io Control A :=
  statement (verdict s) m.

(** [Tenants::forget] / [evict]. *)
Definition evict (id : uuid) : io Control () :=
  atomic (writes (λ c, ((), set_cache (cache c ∖ {[simple id]}) c))).

(** [Tenants::handle]: the cached pool, or a freshly dialled one. *)
Definition handle (id : uuid) : io Control () :=
  cached ← atomic (gets (λ c, bool_decide (simple id ∈ cache c)));
  if cached : bool then mret ()
  else
    _ ← stmt SDial (mret ());
    atomic (writes (λ c, ((), set_cache ({[simple id]} ∪ cache c) c))).

(** [Tenants::resolve]: the answer carries the school's id and entitlements, and
    the database handle is that of the same id. *)
Definition resolve (id : uuid) : io Control (uuid * ModuleSet) :=
  row ← stmt SRead (read_school id);
  match row with
  | None => raise Unauthorized
  | Some (s, mods) =>
      match status s with
      | Suspended => _ ← evict id; raise (Forbidden "school is suspended")
      | Provisioning =>
          _ ← evict id; raise (Forbidden "school is still being provisioned")
      | Active => _ ← handle id; mret (id, mods)
      end
  end.

(** [Tenants::get_any_status]. *)
Definition get_any_status (id : uuid) : io Control SchoolStatus :=
  row ← stmt SRead (read_school id);
  match row with
  | None => raise NotFound
  | Some (s, _) =>
      if bool_decide (status s = Provisioning)
      then raise (Conflict "school is still being provisioned")
      else _ ← handle id; mret (status s)
  end.

(** [resolve_tenant]'s path from a cookie to the school. *)
Definition resolve_cookie (cookie : option str) : io Control (uuid * ModuleSet) :=
  value ← lift (ok_or cookie Unauthorized);
  p ← lift (ok_or (split_cookie value) Unauthorized);
  id ← lift (match school_id_try_parse p.1 with Ok id => Ok id | Err _ => Err Unauthorized end);
  resolve id.

(** [Tenants::bring_up]: create or adopt the database, migrate it, and stop
    saying the school is being made. *)
Definition bring_up (id : uuid) : io Control () :=
  let db := school_db_name control_db id in
  _ ← stmt SEnsure (writes (λ c,
        ((), set_database db (Some (default false (databases c !! db))) c)));
  _ ← stmt SDial (mret ());
  _ ← stmt SMigrate (writes (λ c, ((), set_database db (Some true) c)));
  stmt SActivate (writes (λ c, ((),
    match school c !! id with
    | Some s => set_school id (MkSchool (name s) Active (created_at s)) c
    | None => c
    end))).

(** The foreign keys of [school_module] and [person_school] refuse the delete of
    a school they still name. *)
Definition referenced (c : Control) (id : uuid) : bool :=
  bool_decide (shelf c id ≠ ∅) || bool_decide (set_Exists (λ p, p.1 = id) (person_school c)).

Definition delete_school_row (id : uuid) : tx Control () := λ c,
  if referenced c id
  then Err (from_driver (Database (Some "23503"%string) []))
  else Ok ((), MkControl (delete id (school c)) (school_module c) (person_school c)
                 (databases c) (cache c)).

(** The registration transaction of [Tenants::create]: the row and its shelf. *)
Definition register (id : uuid) (name_ : str) (modules_ : ModuleSet) (created : Z)
    : tx Control () := λ c,
  match school c !! id with
  | Some _ => Err (from_driver (Database (Some "23505"%string) []))
  | None =>
      let c := set_school id (MkSchool name_ Provisioning created) c in
      Ok ((), add_shelf id (names modules_) c)
  end.

Definition create (id : uuid) (name_ : str) (modules_ : ModuleSet) : io Control () :=
  _ ← lift (validate modules_);
  created ← now;
  _ ← stmt SRegister (register id name_ modules_ created);
  brought ← attempt (bring_up id);
  match brought with
  | Ok _ => atomic (writes (λ c, ((), set_cache ({[simple id]} ∪ cache c) c)))
  | Err err =>
      _ ← attempt (stmt SUnshelve (writes (λ c, ((), clear_shelf id c))));
      _ ← attempt (stmt SUnregister (delete_school_row id));
      _ ← attempt (stmt SDropDatabase (writes (λ c,
            ((), set_database (school_db_name control_db id) None c))));
      raise err
  end.

(** [School::update]: both fields in one statement, an omitted one kept. *)
Definition update (id : uuid) (name_ : option str) (status_ : option SchoolStatus)
    : io Control School :=
  stmt SUpdate (λ c,
    match school c !! id with
    | None => Err NotFound
    | Some s =>
        let s' := MkSchool (default (name s) name_) (default (status s) status_) (created_at s) in
        Ok (s', set_school id s' c)
    end).

(** The tail [Tenants::set_status] and the builder's [update_school] share. *)
Definition update_school (id : uuid) (name_ : option str) (status_ : option SchoolStatus)
    : io Control School :=
  s ← update id name_ status_;
  _ ← (if bool_decide (status_ = Some Suspended) then evict id else mret ());
  mret s.

Definition set_status (id : uuid) (status_ : SchoolStatus) : io Control () :=
  _ ← update_school id None (Some status_); mret ().

(** [Tenants::set_modules]: the whole shelf is replaced under the row's lock. *)
Definition set_modules (id : uuid) (modules_ : ModuleSet) : io Control () :=
  _ ← lift (validate modules_);
  stmt SSetModules (λ c,
    match school c !! id with
    | None => Err NotFound
    | Some _ => Ok ((), add_shelf id (names modules_) (clear_shelf id c))
    end).

(** [Tenants::drop]. *)
Definition drop_school (id : uuid) : io Control () :=
  row ← stmt SRead (read_school id);
  match row with
  | None => mret ()
  | Some _ =>
      _ ← evict id;
      _ ← stmt SDropDatabase (writes (λ c,
            ((), set_database (school_db_name control_db id) None c)));
      stmt SDrop (λ c,
        let c := MkControl (school c) (school_module c)
          (filter (λ p, p.1 ≠ id) (person_school c)) (databases c) (cache c) in
        delete_school_row id (clear_shelf id c))
  end.

(** [reconcile_provisioning]: a school that fails again stays provisioning. *)
Definition provisioning (c : Control) : list uuid :=
  (filter (λ p, status p.2 = Provisioning) (map_to_list (school c))).*1.

Definition reconcile_provisioning : io Control () :=
  ids ← stmt SList (gets provisioning);
  for_each ids (λ id, _ ← attempt (bring_up id); mret ()).

(** [sweep_school_schemas]: every school to the schema head, failures left as
    they stood. *)
Definition sweep_school (id : uuid) : io Control () :=
  _ ← stmt SDial (mret ());
  stmt SMigrate (writes (λ c, ((),
    let db := school_db_name control_db id in
    match databases c !! db with
    | Some _ => set_database db (Some true) c
    | None => c
    end))).

Definition sweep_school_schemas : io Control () :=
  listed ← attempt (stmt SList (gets (λ c, (map_to_list (school c)).*1)));
  match listed with
  | Err _ => mret ()
  | Ok ids => for_each ids (λ id, _ ← attempt (sweep_school id); mret ())
  end.

(** ** The builder's routes over modules *)

Definition school_modules (id : uuid) : io Control ModuleSet :=
  row ← stmt SRead (read_school id);
  lift (ok_or (snd <$> row) NotFound).

(** [store_modules], or the unchanged set without a write. *)
Definition store (id : uuid) (current : ModuleSet) (decision : result AppError (option ModuleSet))
    : io Control ModuleSet :=
  d ← lift decision;
  match d with
  | None => mret current
  | Some s => _ ← set_modules id s; mret s
  end.

Definition enable_school_module (raw_id raw_module : str) : io Control ModuleSet :=
  id ← lift (path_id raw_id);
  m ← lift (path_module raw_module);
  current ← school_modules id;
  store id current (enable_decision m current).

Definition disable_school_module (raw_id raw_module : str) : io Control ModuleSet :=
  id ← lift (path_id raw_id);
  m ← lift (path_module raw_module);
  current ← school_modules id;
  store id current (disable_decision m current).

Definition patch_school_modules (raw_id : str) (req : PatchModules) : io Control ModuleSet :=
  id ← lift (path_id raw_id);
  sides ← lift (patch_sides req);
  current ← school_modules id;
  store id current (patch_decision sides.1 sides.2 current).

(** [delete_school], up to the removal of the school's uploaded files. *)
Definition delete_school (raw_id : str) : io Control () :=
  id ← lift (path_id raw_id);
  row ← stmt SRead (read_school id);
  _ ← lift (ok_or row NotFound);
  drop_school id.
End Tenants.

(** ** The registry invariant *)

(** The foreign keys of the two tables that name a school, and: whatever a
    school has on its shelf, it has everything that needs. *)
Record reg_ok (c : Control) : Prop := {
  ok_module_fk : ∀ id n, (id, n) ∈ school_module c → is_Some (school c !! id);
  ok_person_fk : ∀ id p, (id, p) ∈ person_school c → is_Some (school c !! id);
  ok_shelf : ∀ id, closed (school_modules_of c id);
}.

Lemma elem_of_shelf c id n : n ∈ shelf c id ↔ (id, n) ∈ school_module c.
Proof.
  unfold shelf. rewrite elem_of_map. setoid_rewrite elem_of_filter. split.
  - intros ([i x] & -> & <- & Hin). done.
  - intros Hin. by exists (id, n).
Qed.

Lemma elem_of_known m stored : m ∈ known_modules stored ↔ module_as_str m ∈ stored.
Proof.
  unfold known_modules. rewrite elem_of_list_to_set, list_elem_of_filter.
  pose proof (elem_of_ALL m). naive_solver.
Qed.

Lemma known_modules_equiv c c' id :
  (∀ n, (id, n) ∈ school_module c ↔ (id, n) ∈ school_module c') →
  school_modules_of c id = school_modules_of c' id.
Proof.
  intros Hn. apply set_eq. intros m. unfold school_modules_of.
  by rewrite !elem_of_known, !elem_of_shelf, Hn.
Qed.

Lemma elem_of_names n s : n ∈ names s ↔ ∃ m, m ∈ s ∧ n = module_as_str m.
Proof.
  unfold names. rewrite merge_sort_Permutation, list_elem_of_fmap.
  setoid_rewrite elem_of_iter. naive_solver.
Qed.

Lemma elem_of_add_shelf id names_ c i n :
  (i, n) ∈ school_module (add_shelf id names_ c) ↔
    (i, n) ∈ school_module c ∨ i = id ∧ n ∈ names_.
Proof.
  simpl. rewrite elem_of_union, elem_of_list_to_set, list_elem_of_fmap. naive_solver.
Qed.

Lemma elem_of_clear_shelf id c i n :
  (i, n) ∈ school_module (clear_shelf id c) ↔ (i, n) ∈ school_module c ∧ i ≠ id.
Proof. simpl. rewrite elem_of_filter. naive_solver. Qed.

(** A school whose shelf was just written has exactly the set that was asked
    for. *)
Lemma shelf_written id s c :
  (∀ n, (id, n) ∉ school_module c) →
  school_modules_of (add_shelf id (names s) c) id = s.
Proof.
  intros Hno. apply set_eq. intros m. unfold school_modules_of.
  rewrite elem_of_known, elem_of_shelf, elem_of_add_shelf, elem_of_names. split.
  - intros [Hin|[_ (m' & Hm & E)]]; [by destruct (Hno _ Hin)|].
    by rewrite (module_as_str_inj _ _ E).
  - intros Hm. right. eauto.
Qed.

Lemma shelf_other id s c i :
  i ≠ id → school_modules_of (add_shelf id s c) i = school_modules_of c i.
Proof.
  intros Hne. apply known_modules_equiv. intros n. rewrite elem_of_add_shelf. naive_solver.
Qed.

Lemma shelf_cleared id c i :
  school_modules_of (clear_shelf id c) i = if decide (i = id) then ∅ else school_modules_of c i.
Proof.
  case_decide as Hi.
  - apply set_eq. intros m. unfold school_modules_of.
    rewrite elem_of_known, elem_of_shelf, elem_of_clear_shelf. set_solver.
  - apply known_modules_equiv. intros n. rewrite elem_of_clear_shelf. naive_solver.
Qed.

Lemma closed_empty : closed ∅.
Proof. intros m n Hm. set_solver. Qed.

Lemma reg_ok_same_tables c c' :
  school c' = school c → school_module c' = school_module c → person_school c' = person_school c →
  reg_ok c → reg_ok c'.
Proof.
  intros Hs Hm Hp [Hfk Hpk Hsh]. split; rewrite ?Hs, ?Hm, ?Hp; try done.
  intros id. rewrite (known_modules_equiv c' c); [done|]. by rewrite Hm.
Qed.

Lemma reg_ok_set_school id s c : reg_ok c → reg_ok (set_school id s c).
Proof.
  intros [Hfk Hpk Hsh]. split; simpl; [| |done];
    intros i x Hin; destruct (decide (i = id)) as [->|Hi];
    rewrite ?lookup_insert_eq, ?lookup_insert_ne by congruence; eauto.
Qed.

Lemma reg_ok_clear id c : reg_ok c → reg_ok (clear_shelf id c).
Proof.
  intros [Hfk Hpk Hsh]. split.
  - intros i n [Hin _]%elem_of_clear_shelf. by eapply Hfk.
  - done.
  - intros i. rewrite shelf_cleared. case_decide; [apply closed_empty|done].
Qed.

Lemma reg_ok_add id s c :
  reg_ok c → is_Some (school c !! id) → closed s → (∀ n, (id, n) ∉ school_module c) →
  reg_ok (add_shelf id (names s) c).
Proof.
  intros [Hfk Hpk Hsh] Hid Hs Hno. split.
  - intros i n [Hin|[-> _]]%elem_of_add_shelf; [by eapply Hfk|done].
  - done.
  - intros i. destruct (decide (i = id)) as [->|Hi]; [by rewrite shelf_written|].
    by rewrite shelf_other.
Qed.

Lemma referenced_false c id :
  referenced c id = false →
  (∀ n, (id, n) ∉ school_module c) ∧ ∀ p, (id, p) ∉ person_school c.
Proof.
  unfold referenced. intros [Hs Hp]%orb_false_iff.
  apply bool_decide_eq_false in Hs, Hp. split.
  - intros n Hin. apply Hs. intros E. apply elem_of_shelf in Hin. rewrite E in Hin. set_solver.
  - intros p Hin. apply Hp. by exists (id, p).
Qed.

Lemma delete_school_row_keeps id : tx_keeps reg_ok (delete_school_row id).
Proof.
  intros c a c' [Hfk Hpk Hsh]. unfold delete_school_row.
  destruct (referenced c id) eqn:E; [done|]. intros [= _ <-].
  apply referenced_false in E as [Hm Hp].
  split; simpl; [| |done]; intros i x Hin; rewrite lookup_delete_ne; eauto;
    intros ->; [by eapply Hm|by eapply Hp].
Qed.

(** ** Every operation keeps it, under any interference that does *)

Section Keeps.
Context `{UuidText} (control_db : str) (verdict : Statement → nat → option AppError).

Local Abbreviation ok := reg_ok.

Lemma keeps_writes (f : Control → () * Control) :
  (∀ c, ok c → ok (f c).2) → tx_keeps ok (writes f).
Proof. intros Hf c a c' Hc. unfold writes. intros E. specialize (Hf c Hc). by injection E as E; rewrite E in Hf. Qed.

Lemma evict_keeps id : keeps ok (evict id).
Proof. apply keeps_atomic, keeps_writes. intros c. by apply (reg_ok_same_tables c). Qed.

Lemma handle_keeps id : keeps ok (handle verdict id).
Proof.
  unfold handle, stmt. keeps_walk. apply keeps_writes. intros c. by apply (reg_ok_same_tables c).
Qed.

Lemma resolve_keeps id : keeps ok (resolve verdict id).
Proof.
  unfold resolve, read_school, stmt. keeps_walk; try apply evict_keeps; apply handle_keeps.
Qed.

Lemma bring_up_keeps id : keeps ok (bring_up control_db verdict id).
Proof.
  unfold bring_up, stmt. keeps_walk; apply keeps_writes;
    intros c Hc; try by apply (reg_ok_same_tables c).
  simpl. destruct (school c !! id); [|done]. by apply reg_ok_set_school.
Qed.

Lemma register_keeps id n s created : closed s → tx_keeps ok (register id n s created).
Proof.
  intros Hs c a c' Hc. unfold register. destruct (school c !! id) eqn:E; [done|].
  intros [= _ <-]. apply reg_ok_add; [by apply reg_ok_set_school| |done|].
  - simpl. rewrite lookup_insert_eq. eauto.
  - intros m Hin. simpl in Hin. destruct (ok_module_fk _ Hc _ _ Hin). congruence.
Qed.

Lemma lift_validate_bind {A} s (k : () → io Control A) :
  (closed s → keeps ok (k ())) → keeps ok (lift (validate s) ≫= k).
Proof.
  intros Hk. destruct (validate s) as [[]|e] eqn:E.
  - apply Hk. by apply validate_ok_closed.
  - intros w Hst Hw. simpl. done.
Qed.

Lemma create_keeps id n s : keeps ok (create control_db verdict id n s).
Proof.
  unfold create, stmt. apply lift_validate_bind. intros Hs.
  keeps_walk; try apply bring_up_keeps; try apply delete_school_row_keeps;
    try (by apply register_keeps); apply keeps_writes; intros c Hc;
    try by apply (reg_ok_same_tables c).
  by apply reg_ok_clear.
Qed.

Lemma update_keeps id n st : keeps ok (update verdict id n st).
Proof.
  unfold update, stmt. keeps_walk. intros c u c' Hc.
  destruct (school c !! id); [|done]. intros [= _ <-]. by apply reg_ok_set_school.
Qed.

Lemma update_school_keeps id n st : keeps ok (update_school verdict id n st).
Proof.
  unfold update_school. keeps_walk; [apply update_keeps|apply evict_keeps].
Qed.

Lemma set_modules_keeps id s : keeps ok (set_modules verdict id s).
Proof.
  unfold set_modules, stmt. apply lift_validate_bind. intros Hs.
  apply keeps_statement. intros c a c' Hc. destruct (school c !! id) eqn:E; [|done].
  intros [= _ <-]. apply reg_ok_add; [by apply reg_ok_clear|by simpl; rewrite E|done|].
  intros n. rewrite elem_of_clear_shelf. naive_solver.
Qed.

Lemma drop_school_keeps id : keeps ok (drop_school control_db verdict id).
Proof.
  unfold drop_school, read_school, stmt. keeps_walk; try apply evict_keeps.
  - apply keeps_writes. intros c Hc. by apply (reg_ok_same_tables c).
  - intros c u c' Hc. apply delete_school_row_keeps, reg_ok_clear.
    destruct Hc as [Hfk Hpk Hsh]. split; [done| |done].
    intros i q. simpl. rewrite elem_of_filter. intros [_ Hin]. by eapply Hpk.
Qed.

Lemma reconcile_keeps : keeps ok (reconcile_provisioning control_db verdict).
Proof.
  unfold reconcile_provisioning, stmt. keeps_walk. apply bring_up_keeps.
Qed.

Lemma sweep_keeps : keeps ok (sweep_school_schemas control_db verdict).
Proof.
  unfold sweep_school_schemas, sweep_school, stmt.
  keeps_walk. apply keeps_writes. intros c Hc. destruct (databases c !! _); [|done].
  by apply (reg_ok_same_tables c).
Qed.

Lemma store_keeps id s d : keeps ok (store verdict id s d).
Proof. unfold store. keeps_walk. apply set_modules_keeps. Qed.

Lemma school_modules_keeps id : keeps ok (school_modules verdict id).
Proof. unfold school_modules, read_school, stmt. keeps_walk. Qed.

(** C32. Whatever requests and boots interleave, and whichever statements fail on
    the way, the registry never loses its foreign keys and no school's shelf ever
    holds a module without everything that module requires: creating (with its
    rollback), updating, re-shelving through any of the three builder routes,
    dropping, reconciling and sweeping all keep it. *)
Theorem registry_keeps_shelves id name_ st s raw_id raw_module req :
  keeps ok (create control_db verdict id name_ s)
  ∧ keeps ok (update_school verdict id (Some name_) st)
  ∧ keeps ok (enable_school_module verdict raw_id raw_module)
  ∧ keeps ok (disable_school_module verdict raw_id raw_module)
  ∧ keeps ok (patch_school_modules verdict raw_id req)
  ∧ keeps ok (delete_school control_db verdict raw_id)
  ∧ keeps ok (reconcile_provisioning control_db verdict)
  ∧ keeps ok (sweep_school_schemas control_db verdict)
  ∧ keeps ok (resolve verdict id).
Proof.
  split_and!; [apply create_keeps|apply update_school_keeps| | | | |apply reconcile_keeps
    |apply sweep_keeps|apply resolve_keeps];
    unfold enable_school_module, disable_school_module, patch_school_modules, delete_school,
      read_school, stmt;
    keeps_walk; try apply store_keeps; try apply school_modules_keeps; apply drop_school_keeps.
Qed.
End Keeps.

(** ** The door *)

Section Door.
Context `{UuidText} (control_db : str) (verdict : Statement → nat → option AppError).

Lemma handle_outcome id w :
  let '(r, w') := handle verdict id w in
  r = Ok () ∨ ∃ n e, verdict SDial n = Some e ∧ r = Err e.
Proof.
  unfold handle, stmt, mbind, io_bind, atomic, statement. simpl.
  case_bool_decide; simpl; [by left|].
  destruct (verdict SDial _) as [e|] eqn:E; simpl; [|by left]. right. eauto.
Qed.

(** The door of every request: an unknown school is a wrong credential, a
    suspended or half-made one is forbidden and loses its live pool, and only an
    active school is let through, with exactly the modules its shelf held at that
    read; the only other answer is the failure to dial its database. *)
Theorem resolve_table id w :
  verdict SRead (w_step w) = None →
  let c := w_env w (w_step w) (w_db w) in
  let '(r, w') := resolve verdict id w in
  match school c !! id with
  | None => r = Err Unauthorized
  | Some s =>
      match status s with
      | Suspended => r = Err (Forbidden "school is suspended") ∧ simple id ∉ cache (w_db w')
      | Provisioning =>
          r = Err (Forbidden "school is still being provisioned") ∧ simple id ∉ cache (w_db w')
      | Active =>
          r = Ok (id, school_modules_of c id)
          ∨ ∃ n e, verdict SDial n = Some e ∧ r = Err e
      end
  end.
Proof.
  intros Hv. unfold resolve, stmt at 1, statement, mbind at 1, io_bind at 1.
  rewrite Hv. unfold read_school, atomic, gets. cbn zeta.
  set (c := w_env w (w_step w) (w_db w)).
  destruct (school c !! id) as [s|] eqn:Es; simpl; rewrite ?Es; simpl; [|done].
  destruct (status s); simpl.
  - unfold mbind, io_bind. pose proof (handle_outcome id (tick c w)) as Hh.
    destruct (handle verdict id (tick c w)) as [[[]|e] w'].
    + by left.
    + right. destruct Hh as [?|(n & e' & ? & [= ->])]; [done|]. eauto.
  - unfold evict, mbind, io_bind, atomic, writes. simpl. split; [done|]. set_solver.
  - unfold evict, mbind, io_bind, atomic, writes. simpl. split; [done|]. set_solver.
Qed.
End Door.

(** ** Creating and dropping a school, nobody else at work *)

Section Lifecycle.
Context `{UuidText} (control_db : str) (verdict : Statement → nat → option AppError).

Definition never (s : Statement) : Prop := ∀ n, verdict s n = None.

Local Abbreviation db_of id := (school_db_name control_db id).

(** Everything but the row of [id], its database and its pool is as it was. *)
Definition same_elsewhere (id : uuid) (c c' : Control) : Prop :=
  delete id (school c') = delete id (school c)
  ∧ school_module c' = school_module c ∧ person_school c' = person_school c
  ∧ delete (db_of id) (databases c') = delete (db_of id) (databases c).

Lemma same_elsewhere_refl id c : same_elsewhere id c c.
Proof. done. Qed.

(** The databases elsewhere, after any writes to one. *)
Ltac elsewhere :=
  unfold same_elsewhere; simpl; split_and!; try done;
  try (apply map_eq; intros ?x;
       match goal with |- delete ?db _ !! ?x = _ => destruct (decide (x = db)) as [->|] end;
       rewrite ?lookup_delete_eq, ?lookup_delete_ne, ?lookup_partial_alter_ne,
         ?lookup_insert_ne by congruence; done).

(** Bringing a school up: the row is activated over a migrated database, or
    nothing but the database has moved. *)
Lemma bring_up_outcome id w :
  undisturbed w →
  let '(r, w') := bring_up control_db verdict id w in
  undisturbed w' ∧ same_elsewhere id (w_db w) (w_db w') ∧ cache (w_db w') = cache (w_db w)
  ∧ match r with
    | Ok _ => school (w_db w') !! id
                = (λ s, MkSchool (name s) Active (created_at s)) <$> school (w_db w) !! id
              ∧ databases (w_db w') !! db_of id = Some true
    | Err e => school (w_db w') = school (w_db w)
               ∧ ∃ s n, s ∈ [SEnsure; SDial; SMigrate; SActivate] ∧ verdict s n = Some e
    end.
Proof.
  intros Hq. unfold bring_up, stmt.
  rewrite statement_bind_alone by done.
  destruct (verdict SEnsure _) as [e|] eqn:E1; [split_and!; [done|elsewhere|done|done|];
    exists SEnsure; eexists; split; [set_solver|done]|]. simpl.
  rewrite statement_bind_alone by done.
  destruct (verdict SDial _) as [e|] eqn:E2; [split_and!; [done|elsewhere|done|done|];
    exists SDial; eexists; split; [set_solver|done]|]. simpl.
  rewrite statement_bind_alone by done.
  destruct (verdict SMigrate _) as [e|] eqn:E3; [split_and!; [done|elsewhere|done|done|];
    exists SMigrate; eexists; split; [set_solver|done]|]. simpl.
  rewrite statement_alone by done.
  destruct (verdict SActivate _) as [e|] eqn:E4; [split_and!; [done|elsewhere|done|done|];
    exists SActivate; eexists; split; [set_solver|done]|]. simpl.
  destruct (school (w_db w) !! id) as [s|] eqn:Es; simpl; rewrite ?Es; simpl.
  - split_and!; [done|elsewhere|done| |].
    + by rewrite lookup_insert_eq.
    + by rewrite lookup_partial_alter_eq.
  - split_and!; [done|elsewhere|done|done|]. by rewrite lookup_partial_alter_eq.
Qed.

Lemma no_shelf_no_rows c id :
  reg_ok c → school c !! id = None →
  (∀ n, (id, n) ∉ school_module c) ∧ ∀ p, (id, p) ∉ person_school c.
Proof.
  intros [Hm Hp _] Hid. split; intros x Hin; [destruct (Hm _ _ Hin)|destruct (Hp _ _ Hin)];
    congruence.
Qed.

Lemma not_referenced c id :
  (∀ n, (id, n) ∉ school_module c) → (∀ p, (id, p) ∉ person_school c) →
  referenced c id = false.
Proof.
  intros Hm Hp. unfold referenced. apply orb_false_iff.
  split; apply bool_decide_eq_false; [intros Hne; apply Hne|intros ([i p] & Hin & Hi)].
  - apply set_eq. intros n. rewrite elem_of_shelf. set_solver.
  - simpl in Hi. subst i. by apply (Hp p).
Qed.

(** The registration's effect on the tables. *)
Lemma register_alone id n s created c :
  school c !! id = None →
  register id n s created c
    = Ok ((), add_shelf id (names s) (set_school id (MkSchool n Provisioning created) c)).
Proof. intros Hid. unfold register. by rewrite Hid. Qed.

(** The rollback of a create that failed past its registry row. *)
Definition roll_back (id : uuid) : io Control () :=
  _ ← attempt (stmt verdict SUnshelve (writes (λ c, ((), clear_shelf id c))));
  _ ← attempt (stmt verdict SUnregister (delete_school_row id));
  _ ← attempt (stmt verdict SDropDatabase (writes (λ c,
        ((), set_database (db_of id) None c))));
  mret ().

Lemma roll_back_alone id w :
  undisturbed w → never SUnshelve → never SUnregister → never SDropDatabase →
  (∀ p, (id, p) ∉ person_school (w_db w)) →
  let '(_, w') := roll_back id w in
  school (w_db w') = delete id (school (w_db w))
  ∧ school_module (w_db w') = filter (λ p, p.1 ≠ id) (school_module (w_db w))
  ∧ person_school (w_db w') = person_school (w_db w)
  ∧ databases (w_db w') = delete (db_of id) (databases (w_db w))
  ∧ cache (w_db w') = cache (w_db w).
Proof.
  intros Hq H1 H2 H3 Hp. unfold roll_back, stmt.
  rewrite attempt_bind, statement_alone, H1 by done. simpl.
  rewrite attempt_bind, statement_alone, H2 by done. simpl.
  unfold delete_school_row. rewrite not_referenced; [simpl|..].
  - rewrite attempt_bind, statement_alone, H3 by done. simpl. split_and!; try done.
  - intros n. rewrite elem_of_clear_shelf. naive_solver.
  - done.
Qed.

(** [create]'s tail is the rollback followed by the error. *)
Lemma create_alone id n s w :
  closed s → undisturbed w → school (w_db w) !! id = None → never SRegister →
  let w1 := tick (add_shelf id (names s)
              (set_school id (MkSchool n Provisioning (w_clock w (w_step w))) (w_db w)))
              (tick (w_db w) w) in
  create control_db verdict id n s w =
    let '(r, w2) := bring_up control_db verdict id w1 in
    match r with
    | Ok _ => atomic (writes (λ c, ((), set_cache ({[simple id]} ∪ cache c) c))) w2
    | Err e => let '(_, w3) := roll_back id w2 in (Err e, w3)
    end.
Proof.
  intros Hs Hq Hid Hreg. unfold create, stmt. apply validate_ok_closed in Hs.
  rewrite lift_bind_alone, Hs, now_bind.
  rewrite statement_bind_alone, Hreg by done. cbn [w_db tick].
  rewrite register_alone, attempt_bind by done.
  match goal with |- context [bring_up _ _ _ ?w1] => destruct (bring_up control_db verdict id w1) as [r w2] end.
  destruct r as [[]|e]; [done|]. unfold roll_back, stmt. rewrite !attempt_bind.
  destruct (statement (verdict SUnshelve) _ w2) as [r3 w3]. rewrite !attempt_bind.
  destruct (statement (verdict SUnregister) _ w3) as [r4 w4]. rewrite !attempt_bind.
  by destruct (statement (verdict SDropDatabase) _ w4) as [r5 w5].
Qed.

(** Creating a school is all or nothing: it ends with an active row, exactly
    the modules asked for, a migrated database and a live pool; or, whatever step
    of bringing the database up failed, with the registry, the shelves and the
    memberships exactly as they were and no database left behind; an
    unsatisfiable set of modules touches nothing at all. *)
Theorem create_all_or_nothing id n s w :
  undisturbed w → reg_ok (w_db w) → school (w_db w) !! id = None →
  never SRegister → never SUnshelve → never SUnregister → never SDropDatabase →
  let '(r, w') := create control_db verdict id n s w in
  match r with
  | Ok _ => (∃ t, school (w_db w') !! id = Some (MkSchool n Active t))
            ∧ school_modules_of (w_db w') id = s ∧ closed s
            ∧ databases (w_db w') !! db_of id = Some true ∧ simple id ∈ cache (w_db w')
  | Err _ => school (w_db w') = school (w_db w)
             ∧ school_module (w_db w') = school_module (w_db w)
             ∧ person_school (w_db w') = person_school (w_db w)
             ∧ (closed s → databases (w_db w') = delete (db_of id) (databases (w_db w)))
             ∧ (¬ closed s → w_db w' = w_db w)
  end.
Proof.
  intros Hq Hok Hid Hreg Hun Hdel Hdrop.
  destruct (decide (validate s = Ok ())) as [Hv|Hv].
  2:{ unfold create. rewrite lift_bind_alone. destruct (validate s) as [[]|e] eqn:E; [done|].
      split_and!; try done. intros Hc. apply validate_ok_closed in Hc. congruence. }
  apply validate_ok_closed in Hv. rewrite create_alone by done.
  destruct (no_shelf_no_rows _ _ Hok Hid) as [Hnm Hnp].
  set (w1 := tick _ _). assert (undisturbed w1) as Hq1 by done.
  pose proof (bring_up_outcome id w1 Hq1) as Hb.
  destruct (bring_up control_db verdict id w1) as [r w2].
  destruct Hb as (Hq2 & (Hs & Hm & Hp & Hd) & Hc & Hr). destruct r as [[]|e].
  - unfold atomic. rewrite Hq2. simpl. destruct Hr as [Hrow Hdb]. split_and!; try done.
    + rewrite Hrow. simpl. rewrite lookup_insert_eq. simpl. eauto.
    + rewrite (known_modules_equiv _ (w_db w1)); [|simpl; by rewrite Hm].
      unfold w1. simpl. by apply shelf_written.
    + set_solver.
  - destruct Hr as [Hrow _].
    pose proof (roll_back_alone id w2 Hq2 Hun Hdel Hdrop) as Hroll.
    destruct (roll_back id w2) as [r3 w3].
    destruct Hroll as (Hs3 & Hm3 & Hp3 & Hd3 & _); [rewrite Hp; apply Hnp|].
    split_and!; try done.
    + rewrite Hs3, Hrow. simpl. by rewrite delete_insert_id.
    + rewrite Hm3, Hm. simpl. apply set_eq. intros [i x].
      rewrite elem_of_filter, elem_of_union, elem_of_list_to_set, list_elem_of_fmap. simpl.
      specialize (Hnm x). destruct (decide (i = id)) as [->|]; naive_solver.
    + by rewrite Hp3, Hp.
    + intros _. by rewrite Hd3, Hd.
Qed.

(** A school's rows gone from every table of the registry. *)
Definition unregistered (id : uuid) (c : Control) : Control :=
  MkControl (delete id (school c)) (filter (λ p, p.1 ≠ id) (school_module c))
    (filter (λ p, p.1 ≠ id) (person_school c)) (databases c) (cache c).

Lemma drop_alone id w s :
  undisturbed w → never SRead → never SDropDatabase → school (w_db w) !! id = Some s →
  let c := set_database (db_of id) None (set_cache (cache (w_db w) ∖ {[simple id]}) (w_db w)) in
  let '(r, w') := drop_school control_db verdict id w in
  undisturbed w' ∧
  match verdict SDrop (3 + w_step w)%nat with
  | Some e => r = Err e ∧ w_db w' = c
  | None => r = Ok () ∧ w_db w' = unregistered id c
  end.
Proof.
  intros Hq Hr Hd Hs. unfold drop_school, read_school, stmt.
  rewrite statement_bind_alone, Hr by done. simpl. rewrite Hs. simpl.
  unfold evict. rewrite atomic_bind_alone by done. simpl.
  rewrite statement_bind_alone, Hd by done. simpl.
  rewrite statement_alone by done. simpl.
  destruct (verdict SDrop _); [done|].
  unfold delete_school_row. rewrite not_referenced; [done| |].
  - intros n. rewrite elem_of_clear_shelf. naive_solver.
  - intros p. simpl. rewrite elem_of_filter. naive_solver.
Qed.

Lemma drop_missing id w :
  undisturbed w → never SRead → school (w_db w) !! id = None →
  drop_school control_db verdict id w = (Ok (), tick (w_db w) w).
Proof.
  intros Hq Hr Hs. unfold drop_school, read_school, stmt.
  rewrite statement_bind_alone, Hr by done. simpl. by rewrite Hs.
Qed.

(** Dropping a school converges: if it fails after the database is gone, the
    registry, the shelf and the memberships still stand untouched, and dropping
    it again completes, leaving no row, no shelf and no membership of it. *)
Theorem drop_retries id w :
  undisturbed w → reg_ok (w_db w) → never SRead → never SDropDatabase →
  let '(r1, w1) := drop_school control_db verdict id w in
  (r1 ≠ Ok () →
     school (w_db w1) = school (w_db w) ∧ school_module (w_db w1) = school_module (w_db w)
     ∧ person_school (w_db w1) = person_school (w_db w))
  ∧ (verdict SDrop (3 + w_step w1)%nat = None ∨ r1 = Ok () →
     let '(r2, w2) := drop_school control_db verdict id w1 in
     r2 = Ok () ∧ school (w_db w2) = delete id (school (w_db w))
     ∧ (∀ n, (id, n) ∉ school_module (w_db w2)) ∧ (∀ p, (id, p) ∉ person_school (w_db w2))).
Proof.
  intros Hq Hok Hr Hd. destruct (school (w_db w) !! id) as [s|] eqn:Es.
  - pose proof (drop_alone id w s Hq Hr Hd Es) as H1.
    destruct (drop_school control_db verdict id w) as [r1 w1]. destruct H1 as [Hq1 H1].
    destruct (verdict SDrop (3 + w_step w)%nat) as [e|] eqn:E1; destruct H1 as [-> Hdb];
      rewrite Hdb; (split; [done|]); intros Hnext.
    + destruct Hnext as [Hnext|]; [|done].
      pose proof (drop_alone id w1 s Hq1 Hr Hd) as H2. rewrite Hnext, Hdb in H2.
      destruct (drop_school control_db verdict id w1) as [r2 w2].
      destruct (H2 Es) as (_ & -> & ->). simpl. split_and!; try done.
      * intros n. rewrite elem_of_filter. naive_solver.
      * intros p. rewrite elem_of_filter. naive_solver.
    + rewrite drop_missing; [|done|done|rewrite Hdb; apply lookup_delete_eq].
      simpl. rewrite Hdb. simpl. split_and!; try done.
      * intros n. rewrite elem_of_filter. naive_solver.
      * intros p. rewrite elem_of_filter. naive_solver.
  - rewrite drop_missing by done. split; [done|]. intros _.
    rewrite drop_missing by done. simpl. destruct (no_shelf_no_rows _ _ Hok Es).
    split_and!; try done. by rewrite delete_id.
Qed.
End Lifecycle.

(** ** Names of databases *)

Section Database_names.
Context `{UuidText}.

(** Cutting the dashes out of a hyphenated text loses nothing. *)
Lemma hyphenated_digits_back (s : str) :
  is_hyphenated_uuid s = true → hyphenate (filter (λ c, c ≠ 45%N) s) = s.
Proof.
  unfold is_hyphenated_uuid. intros [Hlen Hs]%andb_true_iff.
  apply bool_decide_eq_true in Hlen.
  do 36 (destruct s as [|? s]; [done|]). destruct s; [|done]. clear Hlen.
  cbn [length seq zip zip_with forallb] in Hs.
  repeat match goal with H : _ && _ = true |- _ => apply andb_true_iff in H as [? ?] end.
  repeat match goal with
  | H : (if ?b then _ else _) = true |- _ =>
      let b' := eval vm_compute in b in change b with b' in H; cbv iota in H
  end.
  repeat match goal with H : (?c =? 45)%N = true |- _ => apply N.eqb_eq in H; subst c end.
  assert (∀ c : char, is_ascii_hexdigit c = true → c ≠ 45%N) as Hne by (by intros c Hc ->).
  repeat first [rewrite filter_cons_True by (by apply Hne) | rewrite filter_cons_False by (intros Hx; by apply Hx)].
  done.
Qed.

(** Two schools never share a database, whatever the control database is
    called, and a school's wire id parses back to the school it names; anything
    but a hyphenated uuid names none. *)
Theorem school_names_injective control_db id id' :
  uuid_ok id → uuid_ok id' →
  (school_db_name control_db id = school_db_name control_db id' → id = id')
  ∧ school_id_try_parse (uuid_text id) = Ok id
  ∧ ∀ raw, is_hyphenated_uuid raw = false → path_id raw = Err NotFound.
Proof.
  intros Hid Hid'. split_and!.
  - unfold school_db_name. intros E%app_inv_head%app_inv_head. unfold simple in E.
    apply (f_equal hyphenate) in E.
    rewrite !hyphenated_digits_back in E by apply uuid_text_hyphenated.
    by apply uuid_text_inj.
  - unfold school_id_try_parse. rewrite uuid_text_hyphenated. simpl.
    by rewrite uuid_parse_text.
  - intros raw Hraw. unfold path_id, school_id_try_parse. by rewrite Hraw.
Qed.
End Database_names.

(** ** Concrete registries *)

Section Demo.
#[local] Existing Instance hyphenated.

Definition no_refusal (s : Statement) (n : nat) : option AppError := None.
Definition empty_control : Control := MkControl ∅ ∅ ∅ ∅ ∅.
Definition alone (c : Control) : World Control := quiet c (λ _, 7) (λ _, 0%N).

Lemma empty_control_ok : reg_ok empty_control.
Proof.
  split; simpl; [set_solver|set_solver|]. intros id m n Hm.
  unfold school_modules_of in Hm. rewrite elem_of_known, elem_of_shelf in Hm.
  simpl in Hm. set_solver.
Qed.

Lemma school_names_injective_witness : school_id_try_parse (uuid_text 77%N) = Ok 77%N.
Proof. by apply (school_names_injective [] 77%N 77%N). Defined.

Lemma resolve_table_witness :
  (resolve no_refusal 4%N (alone empty_control)).1 = Err Unauthorized.
Proof.
  pose proof (resolve_table no_refusal 4%N (alone empty_control) eq_refl) as Hr.
  destruct (resolve no_refusal 4%N (alone empty_control)) as [r w']. exact Hr.
Defined.

Definition migrate_refused (s : Statement) (n : nat) : option AppError :=
  match s with SMigrate => Some DbUnavailable | _ => None end.

Lemma create_all_or_nothing_witness :
  let '(r, w') := create (lit "hz") migrate_refused 4%N (lit "Okul") {[Notes]} (alone empty_control) in
  r = Err DbUnavailable ∧ school (w_db w') = ∅.
Proof.
  pose proof (create_all_or_nothing (lit "hz") migrate_refused 4%N (lit "Okul") {[Notes]}
    (alone empty_control)) as Hc.
  assert ((create (lit "hz") migrate_refused 4%N (lit "Okul") {[Notes]} (alone empty_control)).1
    = Err DbUnavailable) as Hr by (vm_compute; reflexivity).
  destruct (create _ _ _ _ _ _) as [r w']. simpl in Hr. subst r. split; [reflexivity|].
  apply Hc; [done|apply empty_control_ok|done|done|done|done|done].
Defined.

Definition drop_refused_once (s : Statement) (n : nat) : option AppError :=
  match s with SDrop => if bool_decide (n = 3%nat) then Some DbUnavailable else None | _ => None end.

Definition one_school : Control :=
  MkControl {[4%N := MkSchool (lit "Okul") Active 7]} ∅ ∅ {[school_db_name (lit "hz") 4%N := true]} ∅.

Lemma one_school_ok : reg_ok one_school.
Proof.
  split; simpl; [set_solver|set_solver|]. intros id m n Hm.
  unfold school_modules_of in Hm. rewrite elem_of_known, elem_of_shelf in Hm.
  simpl in Hm. set_solver.
Qed.

Lemma drop_retries_witness :
  let '(r1, w1) := drop_school (lit "hz") drop_refused_once 4%N (alone one_school) in
  r1 = Err DbUnavailable
  ∧ (drop_school (lit "hz") drop_refused_once 4%N w1).1 = Ok ().
Proof.
  pose proof (drop_retries (lit "hz") drop_refused_once 4%N (alone one_school)) as Hd.
  assert ((drop_school (lit "hz") drop_refused_once 4%N (alone one_school)).1
    = Err DbUnavailable) as Hr by (vm_compute; reflexivity).
  assert (w_step (drop_school (lit "hz") drop_refused_once 4%N (alone one_school)).2 = 4%nat)
    as Hs by (vm_compute; reflexivity).
  destruct (drop_school _ _ _ (alone one_school)) as [r1 w1]. simpl in Hr, Hs. subst r1.
  split; [reflexivity|].
  destruct Hd as [_ Hd]; [done|apply one_school_ok|done|done|].
  destruct (drop_school _ _ _ w1) as [r2 w2]. apply Hd. left. by rewrite Hs.
Defined.

(** *** Two things the registry allows *)

(** A builder can patch a half-made school to [active]: the next boot no longer
    finishes it, and the door lets its requests through to a database without
    the schema. *)
Definition half_made : Control :=
  MkControl {[4%N := MkSchool (lit "Okul") Provisioning 7]} ∅ ∅
    {[school_db_name (lit "hz") 4%N := false]} ∅.

Lemma half_made_activated :
  let '(r, w1) := update_school no_refusal 4%N None (Some Active) (alone half_made) in
  (is_ok r, bool_decide (provisioning (w_db w1) = []),
   is_ok (resolve no_refusal 4%N w1).1,
   bool_decide (databases (w_db w1) !! school_db_name (lit "hz") 4%N = Some false))
  = (true, true, true, true).
Proof. vm_compute. reflexivity. Qed.

(** Two builders enabling two modules at once: the second one's write replaces
    the shelf the first one wrote, although both are answered with success. *)
Definition between_read_and_write (n : nat) (c : Control) : Control :=
  if bool_decide (n = 1%nat) then
    w_db (enable_school_module no_refusal (uuid_text 4%N) (lit "meals") (alone c)).2
  else c.

Lemma enable_lost_update :
  let w := MkWorld one_school 0 between_read_and_write (λ _, 7) (λ _, 0%N) in
  let '(r, w') := enable_school_module no_refusal (uuid_text 4%N) (lit "work") w in
  (is_ok r, bool_decide (school_modules_of (between_read_and_write 1 one_school) 4%N = {[Meals]}),
   bool_decide (school_modules_of (w_db w') 4%N = {[Work]})) = (true, true, true).
Proof. vm_compute. reflexivity. Qed.
End Demo.
