(* ===== verification/Appointments.v ===== *)
(** * Appointments ([src/domain/appointment.rs], [src/domain/appointment_slot.rs],
    [src/db/appointment.rs], [src/db/appointment_slot.rs],
    [src/service/appointment.rs], [src/service/appointment_slot.rs])

    A teacher publishes slots; a requester books one, and the booking is
    approved, rejected, cancelled or moved by a counter-proposal. The slot's
    [occupied] counter is the claim, every decision is a compare-and-swap on
    what the decider read, and an approval looks for collisions in the
    serializable transaction that writes it. *)

From S2P Require Import Prelude Text Errors Effects Uuid Validate Modules.
Open Scope Z_scope.

Definition CAS_UPDATE_RETRIES : nat := 3.
Definition MAX_APPOINTMENT_NOTE_LEN : Z := 500.
Definition MAX_APPOINTMENT_REASON_LEN : Z := 1000.
Definition MAX_SLOT_OCCURRENCES : Z := 52.
Definition MILLIS_PER_DAY : Z := 24 * 60 * 60 * 1000.
Definition MILLIS_PER_WEEK : Z := 7 * MILLIS_PER_DAY.

(** ** Data *)

Inductive AppointmentStatus : Set := Pending | Approved | Rejected | Cancelled.

#[export] Instance AppointmentStatus_eq_dec : EqDecision AppointmentStatus.
Proof. solve_decision. Defined.

Definition is_live (s : AppointmentStatus) : bool :=
  match s with Pending | Approved => true | Rejected | Cancelled => false end.

Definition reason_try_new (value : str) : result ValidationError str :=
  _ ← validate_required "reason" value MAX_APPOINTMENT_REASON_LEN; Ok value.

Definition slot_note_try_new (value : str) : result ValidationError str :=
  _ ← validate_optional "note" value MAX_APPOINTMENT_NOTE_LEN; Ok value.

Record Appointment := MkAppointment {
  slot : option uuid;
  requester : uuid;
  status : AppointmentStatus;
  reason : str;
  proposed_starts_at : option Z;
  proposed_ends_at : option Z;
  proposed_by : option uuid;
  decided_by : option uuid;
  cancelled_by : option uuid;
  cancel_reason : option str;
  reject_reason : option str;
  created_at : Z;
}.

(** The row of a slot; [occupied] is the column only the claim touches. *)
Record AppointmentSlot := MkSlot {
  teacher : uuid;
  starts_at : Z;
  ends_at : Z;
  note : option str;
  series : option str;
  slot_created_at : Z;
}.

(** [Appointment::window]. *)
Definition window (a : Appointment) (s : AppointmentSlot) : Z * Z :=
  match proposed_starts_at a, proposed_ends_at a with
  | Some starts, Some ends => (starts, ends)
  | _, _ => (starts_at s, ends_at s)
  end.

(** [Appointment::overlaps], on half-open windows. *)
Definition overlaps (a b : Z * Z) : bool := (a.1 <? b.2) && (b.1 <? a.2).

Definition has_proposal (a : Appointment) : bool :=
  bool_decide (is_Some (proposed_starts_at a)) && bool_decide (is_Some (proposed_ends_at a)).

Definition proposes (a : Appointment) (w : Z * Z) : bool :=
  bool_decide (proposed_starts_at a = Some w.1) && bool_decide (proposed_ends_at a = Some w.2).

(** [AppointmentSlot::check_window]. *)
Definition check_window (starts ends : Z) : result ValidationError () :=
  if ends <=? starts then Err (Invalid "ends_at" "must be after starts_at") else Ok ().

(** [AppointmentSlot::weekly_windows]: the [(0..count).map(...).collect()] stops
    at the first week that fails. *)
Definition shifted (base week : Z) : option Z :=
  shift ← i64_checked_mul week MILLIS_PER_WEEK; i64_checked_add base shift.

Fixpoint weeks_from (starts ends : Z) (week : Z) (n : nat)
    : result ValidationError (list (Z * Z)) :=
  match n with
  | O => Ok []
  | S n =>
      w ← ok_or (s ← shifted starts week; e ← shifted ends week; Some (s, e))
            (Invalid "ends_at" "is too far ahead to repeat weekly");
      _ ← check_window w.1 w.2;
      rest ← weeks_from starts ends (week + 1) n;
      Ok (w :: rest)
  end.

Definition weekly_windows (starts ends until : Z) : result AppError (list (Z * Z)) :=
  _ ← checked (check_window starts ends);
  if until <? starts
  then Err (Validation (Invalid "until" "must not be before the first slot"))
  else
    let count := i64_wrap (Z.quot (i64_wrap (until - starts)) MILLIS_PER_WEEK + 1) in
    if MAX_SLOT_OCCURRENCES <? count
    then Err (Validation (TooLong "until" MAX_SLOT_OCCURRENCES count))
    else checked (weeks_from starts ends 0 (Z.to_nat count)).

(** ** Tables *)

Record Tables := MkTables {
  slots : gmap uuid AppointmentSlot;
  occupied : gmap uuid Z;
  appointments : gmap uuid Appointment;
  (** [app_user.role], as the text it is stored in. *)
  roles : gmap uuid str;
}.

Definition set_appointments (f : gmap uuid Appointment → gmap uuid Appointment) (t : Tables) : Tables :=
  MkTables (slots t) (occupied t) (f (appointments t)) (roles t).
Definition set_occupied (f : gmap uuid Z → gmap uuid Z) (t : Tables) : Tables :=
  MkTables (slots t) (f (occupied t)) (appointments t) (roles t).

(** Rows are read with their id. *)
Abbreviation Booked := (uuid * Appointment)%type.

Definition read (i : uuid) : tx Tables (option Booked) :=
  gets (λ t, (i,.) <$> appointments t !! i).

Definition read_pending (i : uuid) : tx Tables Booked :=
  row ← read i;
  match row with
  | None => refuse NotFound
  | Some b =>
      if bool_decide (status b.2 = Pending) then mret b
      else refuse (Conflict "the appointment is no longer pending")
  end.

Definition read_slot (i : uuid) : tx Tables (option AppointmentSlot) := gets (λ t, slots t !! i).

(** [conflicts_on]: the windows of the approved bookings of this teacher or this
    requester, one of which meets the given one. The inner join drops a booking
    whose slot is gone. *)
Definition booked_window (t : Tables) (a : Appointment) : option (AppointmentSlot * (Z * Z)) :=
  i ← slot a; s ← slots t !! i;
  Some (s, (default (starts_at s) (proposed_starts_at a), default (ends_at s) (proposed_ends_at a))).

Definition collides (t : Tables) (teacher_ requester_ : uuid) (w : Z * Z) (except : option uuid)
    (b : Booked) : bool :=
  bool_decide (status b.2 = Approved)
  && negb (bool_decide (except = Some b.1))
  && match booked_window t b.2 with
     | Some (s, w') =>
         (bool_decide (requester b.2 = requester_) || bool_decide (teacher s = teacher_))
         && overlaps w w'
     | None => false
     end.

Definition conflicts_on (teacher_ requester_ : uuid) (w : Z * Z) (except : option uuid)
    : tx Tables bool :=
  gets (λ t, existsb (collides t teacher_ requester_ w except) (map_to_list (appointments t))).

(** ** Booking *)

(** [claim_slot_and_create]: one statement claims the seat and inserts the row. A
    taken id fails the statement, claim included. *)
Definition claim_slot_and_create (slot_ i requester_ : uuid) (reason_ : str) (created : Z)
    : tx Tables (Claimed Booked) := λ t,
  match slots t !! slot_, occupied t !! slot_ with
  | Some _, Some n =>
      if n <? 1 then
        match appointments t !! i with
        | Some _ => Err (from_driver (Database (Some "23505"%string) []))
        | None =>
            let a := MkAppointment (Some slot_) requester_ Pending reason_
                       None None None None None None None created in
            Ok (Made (i, a),
                set_appointments <[i := a]> (set_occupied <[slot_ := n + 1]> t))
        end
      else Ok (Full, t)
  | _, _ => Ok (Full, t)
  end.

Definition book (slot_ requester_ : uuid) (reason_ : str) : io Tables Booked :=
  row ← atomic (read_slot slot_);
  s ← lift (ok_or row NotFound);
  t_now ← now;
  if starts_at s <=? t_now then raise (Conflict "the slot has already started") else
  clash ← atomic (conflicts_on requester_ requester_ (starts_at s, ends_at s) None);
  if clash : bool then raise (Conflict "you already have an appointment at that time") else
  i ← fresh;
  created ← now;
  claimed ← atomic (claim_slot_and_create slot_ i requester_ reason_ created);
  match claimed with
  | Made b => mret b
  | Full =>
      there ← atomic (read_slot slot_);
      match there with
      | None => raise NotFound
      | Some _ => raise (Conflict "the slot is already booked")
      end
  | Duplicate => raise (Internal (lit "appointment id collided"))
  end.

(** ** Deciding *)

Definition contended : AppError := Conflict "the appointment is being decided elsewhere".

(** The columns the update writes, over the row it finds. *)
Definition decided (row new : Appointment) : Appointment :=
  MkAppointment (slot row) (requester row) (status new) (reason row)
    (proposed_starts_at new) (proposed_ends_at new) (proposed_by new) (decided_by new)
    (cancelled_by new) (cancel_reason new) (reject_reason new) (created_at row).

(** The columns the guard compares. *)
Definition unchanged (row expected : Appointment) : bool :=
  bool_decide (status row = status expected)
  && bool_decide (proposed_starts_at row = proposed_starts_at expected)
  && bool_decide (proposed_ends_at row = proposed_ends_at expected)
  && bool_decide (decided_by row = decided_by expected).

Definition decision_cas (i : uuid) (expected new : Appointment) : tx Tables (option Booked) := λ t,
  match appointments t !! i with
  | Some row =>
      if unchanged row expected then
        let done := decided row new in
        let t := set_appointments <[i := done]> t in
        let t :=
          if is_live (status expected) && negb (is_live (status new)) then
            match slot expected with
            | Some s => set_occupied (alter (λ n, Z.max (n - 1) 0) s) t
            | None => t
            end
          else t in
        Ok (Some (i, done), t)
      else Ok (None, t)
  | None => Ok (None, t)
  end.

Definition with_status (a : Appointment) (s : AppointmentStatus) (decided_ cancelled_ : option uuid)
    (cancel_ reject_ : option str) : Appointment :=
  MkAppointment (slot a) (requester a) s (reason a)
    (proposed_starts_at a) (proposed_ends_at a) (proposed_by a) decided_ cancelled_
    cancel_ reject_ (created_at a).

(** [approve_inner]'s transaction, whose isolation is serializable. *)
Definition approve_tx (i by_ : uuid) (accepting : option (Z * Z)) (t_now : Z) : tx Tables Booked :=
  b ← read_pending i;
  let expected := b.2 in
  _ ← match accepting with
      | None =>
          if has_proposal expected
          then refuse (Conflict "a counter-proposal is standing; only the requester can accept it")
          else mret ()
      | Some w =>
          if negb (has_proposal expected) then refuse (Conflict "no time has been proposed")
          else if negb (proposes expected w)
          then refuse (Conflict "the proposed time has changed; re-read the booking and accept the new one")
          else mret ()
      end;
  slot_ ← decide_tx (ok_or (slot expected) NotFound);
  row ← read_slot slot_;
  s ← decide_tx (ok_or row NotFound);
  let w := window expected s in
  if w.1 <=? t_now then refuse (Conflict "that time has already started") else
  clash ← conflicts_on (teacher s) (requester expected) w (Some i);
  if clash : bool then refuse (Conflict "that time collides with another approved appointment") else
  saved ← decision_cas i expected
    (with_status expected Approved (Some by_) (cancelled_by expected)
       (cancel_reason expected) (reject_reason expected));
  match saved with Some b => mret b | None => refuse contended end.

Definition approve_inner (i by_ : uuid) (accepting : option (Z * Z)) : io Tables Booked :=
  t_now ← now;
  atomic (approve_tx i by_ accepting t_now).

Definition approve (i by_ : uuid) : io Tables Booked := approve_inner i by_ None.
Definition accept_proposal (i by_ : uuid) (starts ends : Z) : io Tables Booked :=
  approve_inner i by_ (Some (starts, ends)).

Definition reject (i by_ : uuid) (reason_ : option str) : io Tables Booked :=
  rounds CAS_UPDATE_RETRIES
    (b ← atomic (read_pending i);
     let expected := b.2 in
     atomic (decision_cas i expected
       (with_status expected Rejected (Some by_) (cancelled_by expected)
          (cancel_reason expected) reason_)))
    (raise contended).

Definition cancel (i by_ : uuid) (reason_ : option str) : io Tables Booked :=
  rounds CAS_UPDATE_RETRIES
    (row ← atomic (read i);
     b ← lift (ok_or row NotFound);
     let expected := b.2 in
     if negb (is_live (status expected))
     then raise (Conflict "the appointment is already settled") else
     slot_ ← lift (ok_or (slot expected) NotFound);
     srow ← atomic (read_slot slot_);
     s ← lift (ok_or srow NotFound);
     t_now ← now;
     if (window expected s).1 <=? t_now
     then raise (Conflict "the appointment has already started") else
     atomic (decision_cas i expected
       (with_status expected Cancelled (decided_by expected) (Some by_)
          reason_ (reject_reason expected))))
    (raise contended).

Definition propose (i : uuid) (starts ends : Z) (by_ : uuid) : io Tables Booked :=
  if ends <=? starts
  then raise (Validation (Invalid "proposed_ends_at" "must be after proposed_starts_at")) else
  rounds CAS_UPDATE_RETRIES
    (row ← atomic (read i);
     b ← lift (ok_or row NotFound);
     let expected := b.2 in
     if negb (is_live (status expected))
     then raise (Conflict "the appointment is already settled") else
     t_now ← now;
     if starts <=? t_now then raise (Conflict "that time has already started") else
     atomic (decision_cas i expected
       (MkAppointment (slot expected) (requester expected) Pending (reason expected)
          (Some starts) (Some ends) (Some by_) None (cancelled_by expected)
          (cancel_reason expected) (reject_reason expected) (created_at expected))))
    (raise contended).

(** ** Publishing slots *)

(** The exclusion constraint [appointment_slot_teacher_span]. *)
Definition span_taken (t : Tables) (s : AppointmentSlot) : bool :=
  existsb (λ p, bool_decide (teacher p.2 = teacher s)
      && overlaps (starts_at s, ends_at s) (starts_at p.2, ends_at p.2))
    (map_to_list (slots t)).

Definition insert_slot (i : uuid) (s : AppointmentSlot) (overlap_refusal : AppError)
    : tx Tables (uuid * AppointmentSlot) := λ t,
  match slots t !! i with
  | Some _ => Err (from_driver (Database (Some "23505"%string) []))
  | None =>
      if span_taken t s then Err overlap_refusal
      else Ok ((i, s), MkTables (<[i := s]> (slots t)) (<[i := 0]> (occupied t))
                         (appointments t) (roles t))
  end.

Fixpoint insert_slots (rows : list (uuid * AppointmentSlot)) (overlap_refusal : AppError)
    : tx Tables (list (uuid * AppointmentSlot)) :=
  match rows with
  | [] => mret []
  | (i, s) :: rows =>
      saved ← insert_slot i s overlap_refusal;
      rest ← insert_slots rows overlap_refusal;
      mret (saved :: rest)
  end.

(** Does the account still hold a teaching role? *)
Definition fit (role : option str) : bool :=
  match role with
  | Some text => match role_try_from_str text with Ok r => at_least r Teacher | Err _ => false end
  | None => false
  end.

Definition insert_claimed (teacher_ : uuid) (rows : list (uuid * AppointmentSlot))
    (overlap_refusal : AppError) : tx Tables (list (uuid * AppointmentSlot)) :=
  held ← gets (λ t, roles t !! teacher_);
  if negb (fit held)
  then refuse (Forbidden "that account no longer holds a teaching role")
  else insert_slots rows overlap_refusal.

Definition create (teacher_ : uuid) (starts ends : Z) (note_ : option str)
    : io Tables (uuid * AppointmentSlot) :=
  _ ← lift (checked (check_window starts ends));
  i ← fresh;
  created ← now;
  saved ← atomic (insert_claimed teacher_ [(i, MkSlot teacher_ starts ends note_ None created)]
    (ConflictOwned (lit "this time overlaps a slot you have already published")));
  match saved with
  | s :: _ => mret s
  | [] => raise (Internal (lit "failed to create appointment slot"))
  end.

Definition windows_in_span (teacher_ : uuid) (from to : Z) : tx Tables (list (Z * Z)) :=
  gets (λ t, (λ p, (starts_at p.2, ends_at p.2)) <$>
    filter (λ p : uuid * AppointmentSlot,
      teacher p.2 = teacher_ ∧ starts_at p.2 < to ∧ from < ends_at p.2)
      (map_to_list (slots t))).

(** The pre-flight of [publish_weekly]: against what is published, then against
    the earlier windows of the same request, window by window. *)
Fixpoint preflight (published before windows : list (Z * Z)) : result AppError () :=
  match windows with
  | [] => Ok ()
  | w :: rest =>
      if existsb (overlaps w) published
      then Err (ConflictOwned (lit "a repeated slot overlaps one you have already published"))
      else if existsb (overlaps w) before
      then Err (ConflictOwned (lit "the repeated slots overlap each other"))
      else preflight published (before ++ [w]) rest
  end.

Section Publishing.
Context `{UuidText}.

(** One fresh id per window. *)
Fixpoint rows_of (teacher_ : uuid) (note_ series_ : option str) (created : Z)
    (windows : list (Z * Z)) : io Tables (list (uuid * AppointmentSlot)) :=
  match windows with
  | [] => mret []
  | w :: rest =>
      i ← fresh;
      rows ← rows_of teacher_ note_ series_ created rest;
      mret ((i, MkSlot teacher_ w.1 w.2 note_ series_ created) :: rows)
  end.

(** [sort_by_key]: a stable sort on the start. *)
Definition by_start (a b : uuid * AppointmentSlot) : Prop := starts_at a.2 ≤ starts_at b.2.
#[local] Instance by_start_dec a b : Decision (by_start a b).
Proof. unfold by_start. apply _. Defined.

Definition publish_weekly (teacher_ : uuid) (starts ends : Z) (note_ : option str) (until : Z)
    : io Tables (list (uuid * AppointmentSlot)) :=
  windows ← lift (weekly_windows starts ends until);
  match windows, last windows with
  | first :: _, Some last_ =>
      published ← atomic (windows_in_span teacher_ first.1 last_.2);
      _ ← lift (preflight published [] windows);
      series_ ← fresh;
      created ← now;
      rows ← rows_of teacher_ note_ (Some (uuid_text series_)) created windows;
      saved ← atomic (insert_claimed teacher_ rows
        (ConflictOwned (lit "a repeated slot overlaps one you have already published")));
      if negb (bool_decide (length saved = length windows))
      then raise (Internal (lit "published " ++ show_int (Z.of_nat (length saved)) ++ lit " of "
             ++ show_int (Z.of_nat (length windows)) ++ lit " appointment slots"))
      else mret (merge_sort by_start saved)
  | _, _ => raise (Internal (lit "index out of bounds"))
  end.
End Publishing.

(** [delete_free]: the free slots of [ids] go, with the settled bookings on them;
    the whole transaction is refused unless every id was free. The foreign key
    unsets the slot of a booking left behind. *)
Definition is_free (t : Tables) (i : uuid) : Prop :=
  is_Some (slots t !! i) ∧ default 0 (occupied t !! i) < 1.
#[export] Instance is_free_dec t i : Decision (is_free t i).
Proof. unfold is_free. apply _. Defined.

Definition unslot (gone : gset uuid) (a : Appointment) : Appointment :=
  match slot a with
  | Some s => if decide (s ∈ gone) then
      MkAppointment None (requester a) (status a) (reason a) (proposed_starts_at a)
        (proposed_ends_at a) (proposed_by a) (decided_by a) (cancelled_by a)
        (cancel_reason a) (reject_reason a) (created_at a)
    else a
  | None => a
  end.

Definition on_slots (gone : gset uuid) (p : uuid * Appointment) : Prop :=
  match slot p.2 with Some s => s ∈ gone | None => False end.
#[export] Instance on_slots_dec gone p : Decision (on_slots gone p).
Proof. unfold on_slots. destruct (slot p.2); apply _. Defined.

Definition delete_free (ids : list uuid) : tx Tables () := λ t,
  let gone : gset uuid := list_to_set (filter (is_free t) ids) in
  let kept := filter (λ p, ¬ on_slots gone p) (appointments t) in
  let t' := MkTables (filter (λ p, p.1 ∉ gone) (slots t)) (filter (λ p, p.1 ∉ gone) (occupied t))
              (unslot gone <$> kept) (roles t) in
  if bool_decide (size gone = length ids) then Ok ((), t')
  else if bool_decide (filter (λ i, is_Some (slots t' !! i)) ids = []) then Err NotFound
  else Err (Conflict "the slot has a pending or approved booking").

Definition delete (i : uuid) : io Tables () := atomic (delete_free [i]).

Definition delete_series (series_ : str) : io Tables () :=
  ids ← atomic (gets (λ t, (filter (λ p : uuid * AppointmentSlot, series p.2 = Some series_)
           (map_to_list (slots t))).*1));
  if bool_decide (ids = []) then raise NotFound else atomic (delete_free ids).
