(* ===== verification/AppointmentProofs.v ===== *)
(** * What the appointment book promises

    One live booking per slot, no two approved meetings of one requester or of
    one teacher at once, decisions that are final, and weekly series within their
    bounds; kept by every operation under any interference that keeps it. *)

From S2P Require Import Prelude Text Errors Effects Uuid Validate Modules Appointments.
Open Scope Z_scope.

(** ** The invariant *)

Definition live_at (s : uuid) (p : Booked) : Prop :=
  is_live (status p.2) = true ∧ slot p.2 = Some s.

#[export] Instance live_at_dec s p : Decision (live_at s p).
Proof. unfold live_at. apply _. Defined.

Definition live_on (t : Tables) (s : uuid) : Z := count (live_at s) (appointments t).

(** The same requester, or the same teacher of their slots: what [conflicts_on]
    compares. *)
Definition share_side (a b : Appointment) (sa sb : AppointmentSlot) : Prop :=
  requester a = requester b ∨ teacher sa = teacher sb.

(** One person sits in both, on whichever side. *)
Definition share_person (a b : Appointment) (sa sb : AppointmentSlot) : Prop :=
  share_side a b sa sb ∨ requester a = teacher sb ∨ teacher sa = requester b.
(** Nobody who requested an appointment teaches a slot: only students and parents
    book and only staff publish, so it takes a change of role to end it. *)
Definition sides_apart (t : Tables) : Prop :=
  ∀ i a j s, appointments t !! i = Some a → slots t !! j = Some s → requester a ≠ teacher s.

Record ok (t : Tables) : Prop := {
  ok_slot : ∀ i a s, appointments t !! i = Some a → slot a = Some s → is_Some (slots t !! s);
  ok_live_slot : ∀ i a, appointments t !! i = Some a → is_live (status a) = true →
    is_Some (slot a);
  ok_occupied : ∀ s, is_Some (slots t !! s) → occupied t !! s = Some (live_on t s);
  ok_one : ∀ s, live_on t s ≤ 1;
  ok_window : ∀ i s, slots t !! i = Some s → starts_at s < ends_at s;
  ok_proposal : ∀ i a, appointments t !! i = Some a →
    match proposed_starts_at a, proposed_ends_at a with
    | Some st, Some en => st < en
    | None, None => True
    | _, _ => False
    end;
  ok_spans : ∀ i j s s', slots t !! i = Some s → slots t !! j = Some s' → i ≠ j →
    teacher s = teacher s' →
    overlaps (starts_at s, ends_at s) (starts_at s', ends_at s') = false;
  ok_approved : ∀ i j a b sa sb ia ib,
    i ≠ j → appointments t !! i = Some a → appointments t !! j = Some b →
    status a = Approved → status b = Approved →
    slot a = Some ia → slots t !! ia = Some sa → slot b = Some ib → slots t !! ib = Some sb →
    share_side a b sa sb → overlaps (window a sa) (window b sb) = false;
}.

Lemma overlaps_sym a b : overlaps a b = overlaps b a.
Proof. unfold overlaps. apply andb_comm. Qed.

Lemma share_side_sym a b sa sb : share_side a b sa sb → share_side b a sb sa.
Proof. unfold share_side. naive_solver. Qed.

(** The window [conflicts_on] reads is the appointment's own, because both ends
    of a proposal are set together. *)
Lemma booked_window_ok t i a si sa :
  ok t → appointments t !! i = Some a → slot a = Some si → slots t !! si = Some sa →
  booked_window t a = Some (sa, window a sa).
Proof.
  intros Hok Hi Hs Hsa. pose proof (ok_proposal _ Hok _ _ Hi) as Hp.
  unfold booked_window, window. rewrite Hs. simpl. rewrite Hsa. simpl.
  by destruct (proposed_starts_at a), (proposed_ends_at a).
Qed.

(** A clear check is a clear calendar. *)
Lemma no_conflict t te re w except t' :
  ok t → conflicts_on te re w except t = Ok (false, t') →
  t' = t ∧ ∀ j b ib sb, appointments t !! j = Some b → status b = Approved → except ≠ Some j →
    slot b = Some ib → slots t !! ib = Some sb → requester b = re ∨ teacher sb = te →
    overlaps w (window b sb) = false.
Proof.
  intros Hok. unfold conflicts_on, gets. intros [= Hex <-]. split; [done|].
  intros j b ib sb Hj Hst Hne Hib Hsb Hshare.
  assert ((j, b) ∈ map_to_list (appointments t)) as Hin by by apply elem_of_map_to_list.
  pose proof (proj1 (existsb_false_iff _ _) Hex) as Hall. rewrite Forall_forall in Hall.
  specialize (Hall _ Hin).
  unfold collides in Hall. simpl in Hall.
  rewrite (bool_decide_eq_true_2 (status b = Approved)) in Hall by done.
  rewrite (bool_decide_eq_false_2 (except = Some j)) in Hall by done. simpl in Hall.
  rewrite (booked_window_ok t j b ib sb) in Hall by done.
  apply andb_false_iff in Hall as [Hall|Hall]; [|done].
  apply orb_false_iff in Hall as [H1 H2]. apply bool_decide_eq_false in H1, H2. naive_solver.
Qed.

(** ** Changing one booking *)

Definition proposal_ok (a : Appointment) : Prop :=
  match proposed_starts_at a, proposed_ends_at a with
  | Some st, Some en => st < en
  | None, None => True
  | _, _ => False
  end.

(** The counter of a slot moves with the booking's liveness. *)
Definition recount (a a' : Appointment) (t : Tables) : Tables :=
  if is_live (status a) && negb (is_live (status a'))
  then match slot a with
       | Some s => set_occupied (alter (λ n, Z.max (n - 1) 0) s) t
       | None => t
       end
  else t.

Lemma slots_recount a a' t : slots (recount a a' t) = slots t.
Proof. unfold recount. destruct (_ && _), (slot a); done. Qed.
Lemma appointments_recount a a' t : appointments (recount a a' t) = appointments t.
Proof. unfold recount. destruct (_ && _), (slot a); done. Qed.

Lemma live_on_change t i a a' s :
  appointments t !! i = Some a → slot a' = slot a →
  (is_live (status a') = true → is_live (status a) = true) →
  live_on (set_appointments <[i := a']> t) s =
    live_on t s - (if decide (live_at s (i, a) ∧ is_live (status a') = false) then 1 else 0).
Proof.
  intros Hi Hs Hl. unfold live_on. simpl. rewrite count_insert, (count_delete _ _ i a Hi).
  repeat case_decide; unfold live_at in *; simpl in *; rewrite ?Hs in *;
    destruct (is_live (status a')), (is_live (status a)); naive_solver lia.
Qed.

Lemma ok_change t i a a' :
  ok t → appointments t !! i = Some a →
  is_live (status a) = true → slot a' = slot a → requester a' = requester a → proposal_ok a' →
  (status a' = Approved → ∀ j b ib sb ia sa, j ≠ i → appointments t !! j = Some b →
     status b = Approved → slot a = Some ia → slots t !! ia = Some sa →
     slot b = Some ib → slots t !! ib = Some sb → share_side a' b sa sb →
     overlaps (window a' sa) (window b sb) = false) →
  ok (recount a a' (set_appointments <[i := a']> t)).
Proof.
  intros Hok Hi Hlive Hs Hreq Hp Happ.
  assert (∀ s, live_on (recount a a' (set_appointments <[i := a']> t)) s
    = live_on t s - (if decide (live_at s (i, a) ∧ is_live (status a') = false) then 1 else 0))
    as Hcount.
  { intros s. rewrite <-(live_on_change t i a a' s) by done.
    unfold live_on. by rewrite appointments_recount. }
  split; rewrite ?slots_recount, ?appointments_recount; simpl.
  - intros j b s. rewrite lookup_insert_Some. intros [[<- <-]|[_ Hj]] Hsl.
    + rewrite Hs in Hsl. by eapply (ok_slot _ Hok).
    + by eapply (ok_slot _ Hok).
  - intros j b. rewrite lookup_insert_Some. intros [[<- <-]|[_ Hj]] Hl.
    + rewrite Hs. by eapply (ok_live_slot _ Hok).
    + by eapply (ok_live_slot _ Hok).
  - intros s Hss. rewrite Hcount. pose proof (ok_occupied _ Hok s Hss) as Hocc.
    pose proof (count_nonneg (live_at s) (appointments t)) as Hnn.
    unfold recount. rewrite Hlive. simpl.
    destruct (is_live (status a')) eqn:El; simpl.
    + rewrite decide_False by naive_solver. rewrite Hocc. f_equal. lia.
    + destruct (slot a) as [sa|] eqn:Ea.
      * simpl. destruct (decide (sa = s)) as [->|Hne].
        -- rewrite lookup_alter_eq, Hocc. simpl. f_equal.
           rewrite decide_True by done.
           assert (1 ≤ live_on t s); [|lia].
           unfold live_on. rewrite (count_delete _ _ i a Hi).
           rewrite decide_True by done.
           pose proof (count_nonneg (live_at s) (base.delete i (appointments t))). lia.
        -- rewrite lookup_alter_ne by done. rewrite Hocc. f_equal.
           rewrite decide_False; [lia|]. unfold live_at. simpl. rewrite Ea. naive_solver.
      * simpl. rewrite Hocc. f_equal. rewrite decide_False; [lia|].
        unfold live_at. simpl. rewrite Ea. naive_solver.
  - intros s. rewrite Hcount. pose proof (ok_one _ Hok s).
    destruct (decide (live_at s (i, a) ∧ is_live (status a') = false)); lia.
  - apply (ok_window _ Hok).
  - intros j b. rewrite lookup_insert_Some. intros [[<- <-]|[_ Hj]]; [done|].
    by eapply (ok_proposal _ Hok).
  - apply (ok_spans _ Hok).
  - intros j k b c sb sc jb kc Hjk. rewrite !lookup_insert_Some.
    intros [[<- <-]|[Hj1 Hj]] [[<- <-]|[Hk1 Hk]] Hb Hc Hsb Hsb' Hsc Hsc' Hsh; [done| | |].
    + rewrite Hs in Hsb. by apply (Happ Hb k c kc sc jb sb).
    + rewrite Hs in Hsc. rewrite overlaps_sym.
      apply (Happ Hc j b jb sb kc sc); try done. by apply share_side_sym.
    + by apply (ok_approved _ Hok j k b c sb sc jb kc).
Qed.

(** ** Deciding *)

(** The interference a decision meets: the book stays well formed, and booking
    [i] stays on its slot while it is live (ids are never reused). *)
Definition rely (i s0 : uuid) (t : Tables) : Prop :=
  ok t ∧ ∀ a, appointments t !! i = Some a → is_live (status a) = true → slot a = Some s0.

Lemma unchanged_status row expected :
  unchanged row expected = true →
  status row = status expected ∧ proposed_starts_at row = proposed_starts_at expected
  ∧ proposed_ends_at row = proposed_ends_at expected ∧ decided_by row = decided_by expected.
Proof.
  unfold unchanged. rewrite !andb_true_iff, !bool_decide_eq_true. naive_solver.
Qed.

(** What the compare-and-swap did: nothing, or one decided row. *)
Lemma decision_cas_inv t i s0 expected new r t' :
  rely i s0 t → is_live (status expected) = true → slot expected = Some s0 →
  decision_cas i expected new t = Ok (r, t') →
  (r = None ∧ t' = t)
  ∨ ∃ row, appointments t !! i = Some row ∧ unchanged row expected = true ∧ slot row = Some s0
      ∧ r = Some (i, decided row new)
      ∧ t' = recount row (decided row new) (set_appointments <[i := decided row new]> t).
Proof.
  intros [Hok Hpin] Hl Hs. unfold decision_cas.
  destruct (appointments t !! i) as [row|] eqn:Ei; [|intros [= <- <-]; by left].
  destruct (unchanged row expected) eqn:Eu; [|intros [= <- <-]; by left].
  intros [= <- <-]. right. exists row.
  destruct (unchanged_status _ _ Eu) as (Hst & _).
  assert (slot row = Some s0) as Hsr by (apply Hpin; [done|by rewrite Hst]).
  split_and!; try done. unfold recount. rewrite Hst, Hl, Hs, Hsr. done.
Qed.

Lemma decision_keeps i s0 expected new :
  is_live (status expected) = true → slot expected = Some s0 → proposal_ok new →
  status new ≠ Approved →
  tx_keeps (rely i s0) (decision_cas i expected new).
Proof.
  intros Hl Hs Hp Hna t r t' Ht Hrun. pose proof Ht as [Hok Hpin].
  destruct (decision_cas_inv t i s0 expected new r t' Ht Hl Hs Hrun)
    as [[_ ->]|(row & Hi & Hu & Hsr & _ & ->)]; [done|].
  destruct (unchanged_status _ _ Hu) as (Hst & _). split.
  - apply ok_change; try done. by rewrite Hst.
  - intros a. rewrite appointments_recount. simpl. rewrite lookup_insert_eq.
    intros [= <-] _. done.
Qed.

(** A read of the booking, as the handlers use it. *)
Lemma read_facts i s0 t b :
  rely i s0 t → (i,.) <$> appointments t !! i = Some b →
  b.1 = i ∧ appointments t !! i = Some b.2 ∧ proposal_ok b.2
  ∧ (is_live (status b.2) = true → slot b.2 = Some s0).
Proof.
  intros [Hok Hpin]. destruct (appointments t !! i) as [a|] eqn:E; [|done].
  intros [= <-]. split_and!; try done.
  - apply (ok_proposal _ Hok _ _ E).
  - by apply Hpin.
Qed.

Definition read_ok (s0 : uuid) (b : Booked) : Prop :=
  proposal_ok b.2 ∧ (is_live (status b.2) = true → slot b.2 = Some s0).

Lemma read_pending_facts i s0 t b t' :
  rely i s0 t → read_pending i t = Ok (b, t') →
  t' = t ∧ appointments t !! i = Some b.2 ∧ status b.2 = Pending ∧ read_ok s0 b.
Proof.
  intros Ht. unfold read_pending, read. rewrite tx_bind_gets.
  destruct ((i,.) <$> appointments t !! i) as [b'|] eqn:E; [|done].
  case_bool_decide as Hp; [|done]. intros [= <- <-].
  destruct (read_facts i s0 t b' Ht E) as (_ & ? & ? & ?). done.
Qed.

Lemma reject_keeps i s0 by_ r : keeps (rely i s0) (reject i by_ r).
Proof.
  unfold reject. apply keeps_rounds; [|apply keeps_raise].
  apply (keeps_read _ _ (λ b, read_ok s0 b ∧ status b.2 = Pending)).
  - intros t b t' Ht Hrun. by destruct (read_pending_facts i s0 t b t' Ht Hrun) as (-> & _).
  - intros t b t' Ht Hrun. destruct (read_pending_facts i s0 t b t' Ht Hrun) as (_ & _ & ? & ?).
    done.
  - intros b [[Hp Hs] Hst]. apply keeps_atomic.
    apply decision_keeps; [by rewrite Hst|apply Hs; by rewrite Hst|exact Hp|done].
Qed.

Lemma read_keeps_facts {B} i s0 (k : option Booked → io Tables B) :
  (∀ row, (∀ b, row = Some b → read_ok s0 b) → keeps (rely i s0) (k row)) →
  keeps (rely i s0) (atomic (read i) ≫= k).
Proof.
  intros Hk. apply (keeps_read _ _ (λ row, ∀ b, row = Some b → read_ok s0 b)); [|  |exact Hk].
  - apply tx_keeps_gets.
  - intros t row t' Ht. unfold read, gets. intros [= <- _] b Hb.
    by destruct (read_facts i s0 t b Ht Hb) as (_ & _ & ? & ?).
Qed.

Lemma cancel_keeps i s0 by_ r : keeps (rely i s0) (cancel i by_ r).
Proof.
  unfold cancel. apply keeps_rounds; [|apply keeps_raise].
  apply read_keeps_facts. intros row Hrow.
  apply keeps_lift_bind. intros b Hb%ok_or_ok. destruct (Hrow b Hb) as [Hp Hs].
  destruct (is_live (status b.2)) eqn:Hl; simpl; [|apply keeps_raise].
  keeps_walk; try apply tx_keeps_gets. apply decision_keeps; auto.
Qed.

Lemma propose_keeps i s0 starts ends by_ : keeps (rely i s0) (propose i starts ends by_).
Proof.
  unfold propose. destruct (ends <=? starts) eqn:Hw; [apply keeps_raise|].
  apply Z.leb_gt in Hw. apply keeps_rounds; [|apply keeps_raise].
  apply read_keeps_facts. intros row Hrow.
  apply keeps_lift_bind. intros b Hb%ok_or_ok. destruct (Hrow b Hb) as [Hp Hs].
  destruct (is_live (status b.2)) eqn:Hl; simpl; [|apply keeps_raise].
  keeps_walk. apply decision_keeps; auto.
Qed.

(** What an approval did. *)
Lemma approve_tx_inv i s0 by_ accepting t_now t b t' :
  rely i s0 t → approve_tx i by_ accepting t_now t = Ok (b, t') →
  ∃ a s, appointments t !! i = Some a ∧ status a = Pending
    ∧ slot a = Some s0 ∧ slots t !! s0 = Some s
    ∧ match accepting with
      | None => proposed_starts_at a = None ∧ proposed_ends_at a = None
      | Some w => proposed_starts_at a = Some w.1 ∧ proposed_ends_at a = Some w.2
      end
    ∧ t_now < (window a s).1
    ∧ (∀ j c ib sb, appointments t !! j = Some c → status c = Approved → j ≠ i →
         slot c = Some ib → slots t !! ib = Some sb →
         requester c = requester a ∨ teacher sb = teacher s →
         overlaps (window a s) (window c sb) = false)
    ∧ let done := decided a (with_status a Approved (Some by_) (cancelled_by a)
                    (cancel_reason a) (reject_reason a)) in
      b = (i, done) ∧ t' = set_appointments <[i := done]> t.
Proof.
  intros Ht. unfold approve_tx. rewrite tx_bind_ok. intros (b0 & t0 & Hread & Hrun).
  destruct (read_pending_facts i s0 t b0 t0 Ht Hread) as (-> & Hi & Hst & Hp & Hs).
  rewrite Hst in Hs. specialize (Hs eq_refl). destruct b0 as [i0 a]. simpl in *.
  apply tx_bind_ok in Hrun as (u & t1 & Hguard & Hrun).
  assert (t1 = t ∧ match accepting with
      | None => proposed_starts_at a = None ∧ proposed_ends_at a = None
      | Some w => proposed_starts_at a = Some w.1 ∧ proposed_ends_at a = Some w.2
      end) as [-> Hacc].
  { clear Hrun. unfold proposal_ok in Hp. unfold has_proposal, proposes in Hguard.
    destruct accepting as [w|], (proposed_starts_at a) as [x|], (proposed_ends_at a) as [y|];
      simpl in Hguard, Hp; try done; [|by injection Hguard as _ ->].
    destruct (decide (Some x = Some w.1)) as [E1|E1];
      [rewrite (bool_decide_eq_true_2 _ E1) in Hguard
      |by rewrite (bool_decide_eq_false_2 _ E1) in Hguard].
    destruct (decide (Some y = Some w.2)) as [E2|E2];
      [rewrite (bool_decide_eq_true_2 _ E2) in Hguard
      |by rewrite (bool_decide_eq_false_2 _ E2) in Hguard].
    by injection Hguard as _ ->. }
  apply tx_bind_ok in Hrun as (s1 & t1 & [Hs1 ->]%decide_ok & Hrun).
  rewrite Hs in Hs1. injection Hs1 as <-.
  unfold read_slot in Hrun. rewrite tx_bind_gets in Hrun.
  apply tx_bind_ok in Hrun as (s & t1 & [Hsl%ok_or_ok ->]%decide_ok & Hrun).
  destruct ((window a s).1 <=? t_now) eqn:Hnow; [done|]. apply Z.leb_gt in Hnow.
  apply tx_bind_ok in Hrun as (clash & t1 & Hcl & Hrun).
  destruct clash; [done|].
  apply no_conflict in Hcl as [-> Hclear]; [|by destruct Ht].
  apply tx_bind_ok in Hrun as (saved & t1 & Hcas & Hrun).
  apply (decision_cas_inv t i s0) in Hcas as [[-> ->]|(row & Hrow & _ & _ & -> & ->)];
    [done| |done|by rewrite Hst|done].
  injection Hrun as <- <-. assert (row = a) as -> by congruence.
  exists a, s. split_and!; try done.
  - intros j c ib sb Hj Hc Hne Hib Hsb Hsh. apply (Hclear j c ib sb); try done. congruence.
  - unfold recount. simpl. by rewrite andb_false_r.
Qed.

Lemma approve_keeps i s0 by_ accepting : keeps (rely i s0) (approve_inner i by_ accepting).
Proof.
  unfold approve_inner. keeps_walk. intros t b t' Ht Hrun.
  destruct (approve_tx_inv _ _ _ _ _ _ _ _ Ht Hrun)
    as (a' & s & Hi & Hst & Hs & Hsl & Hacc & _ & Hclear & _ & ->).
  destruct Ht as [Hok Hpin]. set (done_ := decided _ _). split.
  - assert (recount a' done_ (set_appointments <[i := done_]> t)
      = set_appointments <[i := done_]> t) as <-
      by (unfold recount; simpl; by rewrite andb_false_r).
    apply ok_change; try done; [by rewrite Hst|apply (ok_proposal _ Hok _ _ Hi)|].
    intros _ j c ib sb ia sa Hne Hj Hc Hia Hsa Hib Hsb Hsh.
    rewrite Hs in Hia. injection Hia as <-. rewrite Hsl in Hsa. injection Hsa as <-.
    apply (Hclear j c ib sb); try done. unfold share_side in Hsh. naive_solver.
  - intros c. simpl. rewrite lookup_insert_eq. intros [= <-] _. done.
Qed.

(** ** Booking and publishing *)

Lemma claim_keeps s i r reason_ created : tx_keeps ok (claim_slot_and_create s i r reason_ created).
Proof.
  intros t x t' Hok. unfold claim_slot_and_create.
  destruct (slots t !! s) as [sl|] eqn:Es; [|by intros [= _ <-]].
  pose proof (ok_occupied _ Hok s ltac:(eauto)) as Hocc. rewrite Hocc.
  destruct (live_on t s <? 1) eqn:Hn; [|by intros [= _ <-]]. apply Z.ltb_lt in Hn.
  destruct (appointments t !! i) as [row|] eqn:Ei; [done|]. intros [= _ <-].
  set (a := MkAppointment _ _ _ _ _ _ _ _ _ _ _ _).
  assert (∀ s', live_on (set_appointments <[i := a]> (set_occupied <[s := live_on t s + 1]> t)) s'
    = live_on t s' + (if decide (s' = s) then 1 else 0)) as Hcount.
  { intros s'. unfold live_on. simpl. rewrite count_insert_fresh by done. f_equal.
    unfold live_at. simpl. destruct (decide (s' = s)) as [->|Hne];
      [by rewrite decide_True|rewrite decide_False; [done|naive_solver]]. }
  pose proof (count_nonneg (live_at s) (appointments t)) as Hnn.
  split; simpl.
  - intros j b s'. rewrite lookup_insert_Some. intros [[<- <-]|[_ Hj]] Hsl.
    + injection Hsl as <-. eauto.
    + by eapply (ok_slot _ Hok).
  - intros j b. rewrite lookup_insert_Some. intros [[<- <-]|[_ Hj]] Hl; [by eexists|].
    by eapply (ok_live_slot _ Hok).
  - intros s' Hs'. rewrite Hcount. destruct (decide (s' = s)) as [->|Hne].
    + by rewrite lookup_insert_eq.
    + rewrite lookup_insert_ne by done. rewrite (ok_occupied _ Hok s' Hs'). f_equal. lia.
  - intros s'. rewrite Hcount. pose proof (ok_one _ Hok s').
    destruct (decide (s' = s)) as [->|]; lia.
  - apply (ok_window _ Hok).
  - intros j b. rewrite lookup_insert_Some. intros [[<- <-]|[_ Hj]]; [done|].
    by eapply (ok_proposal _ Hok).
  - apply (ok_spans _ Hok).
  - intros j k b c sb sc jb kc Hjk. rewrite !lookup_insert_Some.
    intros [[<- <-]|[Hj1 Hj]] [[<- <-]|[Hk1 Hk]]; try done.
    by apply (ok_approved _ Hok j k b c sb sc jb kc).
Qed.

Lemma book_keeps s r reason_ : keeps ok (book s r reason_).
Proof.
  unfold book. keeps_walk; try apply tx_keeps_gets. apply claim_keeps.
Qed.

Lemma live_on_unreferenced t s : ok t → slots t !! s = None → live_on t s = 0.
Proof.
  intros Hok Hs. apply count_0. intros i a Hi [Hl Hsl]. simpl in *.
  destruct (ok_slot _ Hok _ _ _ Hi Hsl). congruence.
Qed.

Lemma span_taken_false t s :
  span_taken t s = false →
  ∀ j s', slots t !! j = Some s' → teacher s' = teacher s →
    overlaps (starts_at s, ends_at s) (starts_at s', ends_at s') = false.
Proof.
  unfold span_taken. intros Hex j s' Hj Ht.
  pose proof (proj1 (existsb_false_iff _ _) Hex) as Hall. rewrite Forall_forall in Hall.
  specialize (Hall (j, s') ltac:(by apply elem_of_map_to_list)). simpl in Hall.
  by rewrite bool_decide_eq_true_2 in Hall.
Qed.

Lemma insert_slot_keeps i s e :
  starts_at s < ends_at s → tx_keeps ok (insert_slot i s e).
Proof.
  intros Hw t x t' Hok. unfold insert_slot.
  destruct (slots t !! i) as [old|] eqn:Ei; [done|].
  destruct (span_taken t s) eqn:Esp; [done|]. intros [= _ <-].
  pose proof (live_on_unreferenced t i Hok Ei) as Hno.
  assert (∀ j sj, slots t !! j = Some sj → j ≠ i) as Hnew by (intros j sj Hj ->; congruence).
  split; simpl.
  - intros j a s' Hj Hs. destruct (ok_slot _ Hok _ _ _ Hj Hs) as [x' Hx].
    rewrite lookup_insert_ne by (intros E; apply (Hnew s' x'); congruence). eauto.
  - apply (ok_live_slot _ Hok).
  - intros s' Hs'. destruct (decide (s' = i)) as [->|Hne].
    + rewrite lookup_insert_eq. by rewrite <-Hno.
    + rewrite lookup_insert_ne in Hs' by congruence.
      rewrite lookup_insert_ne by congruence. by apply (ok_occupied _ Hok).
  - apply (ok_one _ Hok).
  - intros j s'. rewrite lookup_insert_Some. intros [[<- <-]|[_ Hj]]; [done|].
    by apply (ok_window _ Hok j).
  - apply (ok_proposal _ Hok).
  - intros j k sj sk. rewrite !lookup_insert_Some.
    intros [[<- <-]|[_ Hj]] [[<- <-]|[_ Hk]] Hne Ht; [done| | |].
    + by apply (span_taken_false t s Esp k).
    + rewrite overlaps_sym. by apply (span_taken_false t s Esp j).
    + by apply (ok_spans _ Hok j k).
  - intros j k a b sa sb ia ib Hne Hj Hk Ha Hb Hsa Hia Hsb Hib.
    destruct (ok_slot _ Hok _ _ _ Hj Hsa) as [x1 Hx1], (ok_slot _ Hok _ _ _ Hk Hsb) as [x2 Hx2].
    rewrite lookup_insert_ne in Hia by (intros E; apply (Hnew ia x1); congruence).
    rewrite lookup_insert_ne in Hib by (intros E; apply (Hnew ib x2); congruence).
    by apply (ok_approved _ Hok j k a b sa sb ia ib).
Qed.

Lemma insert_slots_keeps rows e :
  Forall (λ p, starts_at p.2 < ends_at p.2) rows → tx_keeps ok (insert_slots rows e).
Proof.
  induction 1 as [|[i s] rows Hs _ IH]; simpl; [apply tx_keeps_ret|].
  keeps_walk; [by apply insert_slot_keeps|done].
Qed.

Lemma insert_claimed_keeps te rows e :
  Forall (λ p, starts_at p.2 < ends_at p.2) rows → tx_keeps ok (insert_claimed te rows e).
Proof.
  intros Hrows. unfold insert_claimed. keeps_walk. by apply insert_slots_keeps.
Qed.

Lemma check_window_ok starts ends : check_window starts ends = Ok () ↔ starts < ends.
Proof.
  unfold check_window. destruct (Z.leb_spec ends starts); split; try done; lia.
Qed.

Lemma create_slot_keeps te starts ends n : keeps ok (create te starts ends n).
Proof.
  unfold create. apply keeps_lift_bind. intros [] Hw%map_err_ok%check_window_ok.
  keeps_walk. apply insert_claimed_keeps. by repeat constructor.
Qed.

(** ** Weekly series *)

Lemma shifted_Some base week v :
  shifted base week = Some v →
  v = base + week * MILLIS_PER_WEEK ∧ in_i64 v ∧ in_i64 (week * MILLIS_PER_WEEK).
Proof.
  unfold shifted, mbind, option_bind. destruct (i64_checked_mul week MILLIS_PER_WEEK) eqn:E; [|done].
  apply i64_checked_mul_Some in E as [? ->]. intros [? ->]%i64_checked_add_Some. done.
Qed.

Lemma weeks_from_ok starts ends week n ws :
  weeks_from starts ends week n = Ok ws →
  length ws = n
  ∧ ∀ k w, ws !! k = Some w →
      w = (starts + (week + Z.of_nat k) * MILLIS_PER_WEEK,
           ends + (week + Z.of_nat k) * MILLIS_PER_WEEK)
      ∧ w.1 < w.2 ∧ in_i64 w.1 ∧ in_i64 w.2.
Proof.
  revert week ws. induction n as [|n IH]; intros week ws; simpl.
  { intros [= <-]. split; [done|]. intros k w Hk. by rewrite lookup_nil in Hk. }
  rewrite bind_ok. intros (w & Hw%ok_or_ok & Hrest).
  destruct (shifted starts week) as [s|] eqn:Es; [|done]. simpl in Hw.
  destruct (shifted ends week) as [e|] eqn:Ee; [|done]. injection Hw as <-.
  apply shifted_Some in Es as (-> & Hs & _), Ee as (-> & He & _).
  apply bind_ok in Hrest as ([] & Hc%check_window_ok & Hrest).
  apply bind_ok in Hrest as (rest & Hr & [= <-]). apply IH in Hr as [Hlen Hr].
  split; [simpl; by rewrite Hlen|]. intros [|k] w Hk; simpl in Hk.
  - injection Hk as <-. rewrite Z.add_0_r. simpl in *. done.
  - destruct (Hr k w Hk) as (-> & ? & ? & ?). split; [|done].
    f_equal; f_equal; lia.
Qed.

Lemma publish_windows_valid starts ends until ws :
  weekly_windows starts ends until = Ok ws → Forall (λ w, w.1 < w.2) ws.
Proof.
  unfold weekly_windows. rewrite bind_ok. intros ([] & _ & H).
  destruct (until <? starts); [done|]. destruct (_ <? _); [done|].
  apply map_err_ok, weeks_from_ok in H as [_ H]. apply Forall_lookup. intros k w Hk.
  by destruct (H k w Hk) as (_ & ? & _).
Qed.

Section Publish.
Context `{UuidText}.

(** A handler that only draws ids and reads the clock. *)
Lemma rows_of_windows te n sr created ws w :
  Forall (λ w, w.1 < w.2) ws →
  ∃ rows, rows_of te n sr created ws w = (Ok rows, (rows_of te n sr created ws w).2)
    ∧ Forall (λ p : uuid * AppointmentSlot, starts_at p.2 < ends_at p.2) rows
    ∧ length rows = length ws
    ∧ w_db (rows_of te n sr created ws w).2 = w_db w
    ∧ w_env (rows_of te n sr created ws w).2 = w_env w.
Proof.
  intros Hws. revert w. induction Hws as [|x ws Hx _ IH]; intros w; simpl.
  { exists []. by repeat constructor. }
  rewrite fresh_bind.
  destruct (IH (tick (w_db w) w)) as (rows & E & Hr & Hlen & Hdb & Henv).
  unfold mbind, io_bind. rewrite E. simpl.
  eexists. split; [reflexivity|]. split_and!; [by constructor|simpl; by rewrite Hlen|done|done].
Qed.

Lemma rows_keeps {B} te n sr created ws (k : list (uuid * AppointmentSlot) → io Tables B) :
  Forall (λ w, w.1 < w.2) ws →
  (∀ rows, Forall (λ p : uuid * AppointmentSlot, starts_at p.2 < ends_at p.2) rows →
     keeps ok (k rows)) →
  keeps ok (rows_of te n sr created ws ≫= k).
Proof.
  intros Hws Hk w Hst Hok.
  destruct (rows_of_windows te n sr created ws w Hws) as (rows & E & Hr & _ & Hdb & Henv).
  unfold mbind, io_bind. rewrite E. set (w' := (rows_of te n sr created ws w).2) in *.
  assert (stable ok w') as Hst' by (unfold stable; by rewrite Henv).
  pose proof (Hk rows Hr w' Hst' ltac:(by rewrite Hdb)) as Hkw.
  destruct (k rows w') as [r w'']. by rewrite <-Henv.
Qed.

Lemma publish_keeps te starts ends n until : keeps ok (publish_weekly te starts ends n until).
Proof.
  unfold publish_weekly. apply keeps_lift_bind. intros ws Hws%publish_windows_valid.
  destruct ws as [|w ws]; [apply keeps_raise|]. destruct (last (w :: ws)); [|apply keeps_raise].
  do 4 (apply keeps_bind; [keeps_walk; apply tx_keeps_gets|intros ?]).
  apply rows_keeps; [done|]. intros rows Hrows. keeps_walk. by apply insert_claimed_keeps.
Qed.
End Publish.

(** ** Deleting slots *)

Lemma unslot_kept t gone :
  unslot gone <$> filter (λ p, ¬ on_slots gone p) (appointments t)
    = filter (λ p, ¬ on_slots gone p) (appointments t).
Proof.
  rewrite <-(map_fmap_id (filter _ _)) at 2. apply map_fmap_ext. intros i a.
  rewrite map_lookup_filter_Some. intros [_ Hno]. unfold on_slots in Hno. simpl in Hno.
  unfold unslot. destruct (slot a) as [s|]; [|done]. by rewrite decide_False.
Qed.

Lemma delete_free_keeps ids : tx_keeps ok (delete_free ids).
Proof.
  intros t u t' Hok. unfold delete_free.
  set (gone := list_to_set (filter (is_free t) ids)). rewrite unslot_kept.
  destruct (bool_decide (size gone = length ids)); [|by destruct (bool_decide _)].
  intros [= _ <-].
  assert (∀ i a, filter (λ p, ¬ on_slots gone p) (appointments t) !! i = Some a →
    appointments t !! i = Some a ∧ ∀ s, slot a = Some s → s ∉ gone) as Hkept.
  { intros i a. rewrite map_lookup_filter_Some. intros [Hi Hno]. split; [done|].
    intros s Hs Hin. apply Hno. unfold on_slots. simpl. by rewrite Hs. }
  assert (∀ s, s ∉ gone → count (live_at s) (filter (λ p, ¬ on_slots gone p) (appointments t))
    = live_on t s) as Hcount.
  { intros s Hs. unfold live_on. apply count_ext. rewrite map_filter_filter.
    apply map_filter_ext. intros i a Hi. split; [naive_solver|]. intros [Hl Hsl].
    split; [done|]. unfold on_slots. simpl in *. by rewrite Hsl. }
  split; simpl; unfold live_on; simpl.
  - intros i a s [Hi Hno]%Hkept Hs. destruct (ok_slot _ Hok _ _ _ Hi Hs) as [x Hx].
    exists x. rewrite map_lookup_filter_Some. split; [done|]. by apply Hno.
  - intros i a [Hi _]%Hkept. by apply (ok_live_slot _ Hok i).
  - intros s [x [Hx Hg]%map_lookup_filter_Some]. rewrite Hcount by done.
    rewrite map_lookup_filter_Some_2 with (x := live_on t s); [done| |done].
    apply (ok_occupied _ Hok). eauto.
  - intros s. destruct (decide (s ∈ gone)) as [Hg|Hg].
    + assert (count (live_at s) (filter (λ p, ¬ on_slots gone p) (appointments t)) = 0) as ->; [|done].
      apply count_0. intros i a [Hi Hno]%Hkept [_ Hs]. by apply (Hno s).
    + rewrite Hcount by done. apply (ok_one _ Hok).
  - intros i s [Hi _]%map_lookup_filter_Some. by apply (ok_window _ Hok i).
  - intros i a [Hi _]%Hkept. by apply (ok_proposal _ Hok i).
  - intros i j s s' [Hi _]%map_lookup_filter_Some [Hj _]%map_lookup_filter_Some.
    by apply (ok_spans _ Hok i j).
  - intros i j a b sa sb ia ib Hne [Hi _]%Hkept [Hj _]%Hkept Ha Hb Hia
      Hsa%map_lookup_filter_Some Hib Hsb%map_lookup_filter_Some Hsh.
    destruct Hsa as [Hsa _], Hsb as [Hsb _].
    by apply (ok_approved _ Hok i j a b sa sb ia ib).
Qed.

(** ** The theorems *)

Section Theorems.
Context `{UuidText}.

(** C22. Booking, approving, accepting a counter-proposal, rejecting, cancelling,
    proposing another time, publishing one slot or a weekly series and deleting
    slots all keep the appointment book well formed under any interference that
    does: a slot holds at most one live booking and its counter says so, two
    approved meetings with the same requester, or on slots of the same teacher,
    never overlap, one teacher's slots never overlap, and a proposal is a whole
    window. In such a book no two approved meetings of one person overlap as long
    as nobody is a requester and a teacher of slots at once: the code compares
    requesters with requesters and teachers with teachers, never one with the
    other. *)
Theorem appointment_ops_keep_ok i s0 by_ r starts ends te n until reason_ ser :
  keeps ok (book s0 by_ reason_)
  ∧ keeps (rely i s0) (approve i by_)
  ∧ keeps (rely i s0) (accept_proposal i by_ starts ends)
  ∧ keeps (rely i s0) (reject i by_ r)
  ∧ keeps (rely i s0) (cancel i by_ r)
  ∧ keeps (rely i s0) (propose i starts ends by_)
  ∧ keeps ok (create te starts ends n)
  ∧ keeps ok (publish_weekly te starts ends n until)
  ∧ keeps ok (delete i)
  ∧ keeps ok (delete_series ser)
  ∧ ∀ t k l a b sa sb ia ib,
      ok t → sides_apart t → k ≠ l → appointments t !! k = Some a → appointments t !! l = Some b →
      status a = Approved → status b = Approved →
      slot a = Some ia → slots t !! ia = Some sa → slot b = Some ib → slots t !! ib = Some sb →
      share_person a b sa sb → overlaps (window a sa) (window b sb) = false.
Proof.
  split_and!.
  - apply book_keeps.
  - apply approve_keeps.
  - apply approve_keeps.
  - apply reject_keeps.
  - apply cancel_keeps.
  - apply propose_keeps.
  - apply create_slot_keeps.
  - apply publish_keeps.
  - apply keeps_atomic, delete_free_keeps.
  - unfold delete_series. keeps_walk. apply delete_free_keeps.
  - intros t k l a b sa sb ia ib Hok Hap Hkl Ha Hb Hsa Hsb Hia Hta Hib Htb Hsh.
    apply (ok_approved t Hok k l a b sa sb ia ib); try done. destruct Hsh as [Hsh|[Hsh|Hsh]]; [done|..].
    + by destruct (Hap k a ib sb Ha Htb).
    + by destruct (Hap l b ia sa Hb Hta).
Qed.
End Theorems.

(** *** Settled bookings *)

Definition frozen (i : uuid) (a : Appointment) (t : Tables) : Prop :=
  appointments t !! i = Some a.

Lemma cas_frozen i a expected new t r t' :
  is_live (status a) = false → is_live (status expected) = true → frozen i a t →
  decision_cas i expected new t = Ok (r, t') → r = None ∧ t' = t.
Proof.
  intros Ha He Hf. unfold decision_cas. rewrite Hf.
  destruct (unchanged a expected) eqn:Eu; [|by intros [= <- <-]].
  apply unchanged_status in Eu as (Hst & _). congruence.
Qed.

Definition refused {A} (r : result AppError A) (t : Tables) : Prop := is_ok r = false.

Lemma cas_round_frozen i a expected new :
  is_live (status a) = false → is_live (status expected) = true →
  triple (frozen i a) (atomic (decision_cas i expected new))
    (λ r s, match r with
            | Ok (Some b) => refused (Ok b) s
            | Ok None => True
            | Err e => refused (Err (A := Booked) e) s
            end).
Proof.
  intros Ha He. apply triple_atomic.
  - intros t r t' Hf Hrun. by destruct (cas_frozen _ _ _ _ _ _ _ Ha He Hf Hrun) as [_ ->].
  - intros t r t' Hf Hrun. by destruct (cas_frozen _ _ _ _ _ _ _ Ha He Hf Hrun) as [-> _].
  - done.
Qed.

(** A settled booking is settled for good: once rejected or cancelled, every
    further decision on it (approving, accepting, rejecting, cancelling,
    proposing) is refused and leaves the row exactly as it was, even when the
    decider read it while it was still live. *)
Theorem settled_is_final i a by_ r starts ends acc :
  is_live (status a) = false →
  triple (frozen i a) (approve_inner i by_ acc) refused
  ∧ triple (frozen i a) (reject i by_ r) refused
  ∧ triple (frozen i a) (cancel i by_ r) refused
  ∧ triple (frozen i a) (propose i starts ends by_) refused.
Proof.
  intros Ha.
  assert (∀ t, frozen i a t → read_pending i t
    = Err (Conflict "the appointment is no longer pending")) as Hread.
  { intros t Hf. unfold read_pending, read. rewrite tx_bind_gets, Hf. simpl.
    rewrite bool_decide_eq_false_2; [done|]. intros E. by rewrite E in Ha. }
  assert (∀ t row t', frozen i a t → read i t = Ok (row, t') → row = Some (i, a)) as Hrow.
  { intros t row t' Hf. unfold read, gets. rewrite Hf. by intros [= <- _]. }
  split_and!.
  - unfold approve_inner. apply (triple_bind _ _ _ _ (λ _ _, True)); [by apply triple_now|intros t_now|done].
    apply triple_atomic; try done;
      intros t x t' Hf; unfold approve_tx; rewrite tx_bind_ok; intros (b & t1 & Hb & _);
      by rewrite Hread in Hb.
  - unfold reject. apply triple_rounds; [|by apply triple_raise].
    apply (triple_read _ _ (λ _, False)); try done.
    + intros t x t' Hf. by rewrite Hread.
    + intros t x t' Hf. by rewrite Hread.
  - unfold cancel. apply triple_rounds; [|by apply triple_raise].
    apply (triple_read _ _ (λ row, row = Some (i, a))); [apply tx_keeps_gets|exact Hrow|done|].
    intros row ->. simpl. apply triple_lift_bind; [|done]. intros b [= <-].
    simpl. rewrite Ha. simpl. by apply triple_raise.
  - unfold propose. destruct (ends <=? starts); [by apply triple_raise|].
    apply triple_rounds; [|by apply triple_raise].
    apply (triple_read _ _ (λ row, row = Some (i, a))); [apply tx_keeps_gets|exact Hrow|done|].
    intros row ->. simpl. apply triple_lift_bind; [|done]. intros b [= <-].
    simpl. rewrite Ha. simpl. by apply triple_raise.
Qed.

(** *** Approvals *)

(** An approval is exact: it succeeds only on a pending booking whose time
    has not begun and meets no approved meeting of its requester or its teacher,
    the teacher only when no counter-proposal stands and the requester only for
    the very window proposed; and it changes nothing but that booking's status
    and decider. *)
Theorem approval_exact i s0 by_ accepting w b w' :
  rely i s0 (w_env w (1 + w_step w)%nat (w_db w)) →
  approve_inner i by_ accepting w = (Ok b, w') →
  let t := w_env w (1 + w_step w)%nat (w_db w) in
  ∃ a s, appointments t !! i = Some a ∧ status a = Pending ∧ slots t !! s0 = Some s
    ∧ (accepting = None → window a s = (starts_at s, ends_at s))
    ∧ (∀ v, accepting = Some v → window a s = v)
    ∧ w_clock w (w_step w) < (window a s).1
    ∧ existsb (collides t (teacher s) (requester a) (window a s) (Some i))
        (map_to_list (appointments t)) = false
    ∧ w_db w' = set_appointments (alter (λ a, with_status a Approved (Some by_) (cancelled_by a)
                                     (cancel_reason a) (reject_reason a)) i) t.
Proof.
  intros Ht. unfold approve_inner. rewrite now_bind. unfold atomic. cbn [tick w_env w_step w_db].
  change (S (w_step w)) with (1 + w_step w)%nat.
  set (t := w_env w (1 + w_step w)%nat (w_db w)) in *.
  destruct (approve_tx i by_ accepting (w_clock w (w_step w)) t) as [[b' t']|e] eqn:E; [|done].
  intros [= -> <-]. cbn zeta.
  destruct (approve_tx_inv _ _ _ _ _ _ _ _ Ht E)
    as (a & s & Hi & Hst & Hs & Hsl & Hacc & Hnow & Hclear & -> & ->).
  exists a, s. split_and!; try done.
  - intros ->. destruct Hacc as [H1 H2]. unfold window. by rewrite H1, ?H2.
  - intros [v1 v2] ->. destruct Hacc as [H1 H2]. unfold window. by rewrite H1, ?H2.
  - apply existsb_false_iff, Forall_forall. intros [j c] Hj%elem_of_map_to_list.
    unfold collides. simpl. case_bool_decide as Hc; [|done].
    case_bool_decide as Hne; [done|]. simpl. destruct Ht as [Hok _].
    destruct (ok_live_slot _ Hok j c Hj ltac:(by rewrite Hc)) as [ib Hib].
    destruct (ok_slot _ Hok j c ib Hj Hib) as [sb Hsb].
    rewrite (booked_window_ok t j c ib sb) by done.
    apply andb_false_iff. destruct (decide (requester c = requester a ∨ teacher sb = teacher s)) as [Hd|Hd].
    + right. apply (Hclear j c ib sb); try done. congruence.
    + left. apply orb_false_iff. rewrite !bool_decide_eq_false. naive_solver.
  - simpl. unfold set_appointments. f_equal. by rewrite (alter_as_insert _ _ _ a).
Qed.

(** *** Weekly series, exactly *)

Lemma weeks_from_err starts ends week n e :
  in_i64 starts → in_i64 ends → starts < ends → 0 ≤ week →
  week + Z.of_nat n ≤ MAX_SLOT_OCCURRENCES →
  weeks_from starts ends week n = Err e →
  i64_max < ends + (week + Z.of_nat n - 1) * MILLIS_PER_WEEK.
Proof.
  intros Hs He Hw. revert week. induction n as [|n IH]; intros week Hwk Hn; [done|].
  cbn [weeks_from]. rewrite bind_err. unfold MAX_SLOT_OCCURRENCES in Hn.
  unfold MILLIS_PER_WEEK, MILLIS_PER_DAY in *. unfold_ints.
  assert (∀ base, shifted base week = i64_checked (base + week * MILLIS_PER_WEEK)) as Hsh.
  { intros base. unfold shifted, mbind, option_bind, i64_checked_mul, i64_checked.
    rewrite decide_True; [done|]. unfold MILLIS_PER_WEEK, MILLIS_PER_DAY. unfold_ints. lia. }
  rewrite !Hsh. unfold i64_checked, MILLIS_PER_WEEK, MILLIS_PER_DAY.
  intros Herr. destruct (decide (in_i64 (ends + week * (7 * (24 * 60 * 60 * 1000))))) as [Hin|Hout].
  - assert (in_i64 (starts + week * (7 * (24 * 60 * 60 * 1000)))) as Hin' by (unfold_ints; lia).
    rewrite decide_True in Herr by done. simpl in Herr.
    destruct Herr as [?|(w & [= <-] & Herr)]; [done|]. cbn [fst snd] in Herr.
    apply bind_err in Herr as [Herr|([] & _ & Herr)].
    + unfold check_window in Herr. destruct (Z.leb_spec (ends + week * (7 * (24 * 60 * 60 * 1000)))
        (starts + week * (7 * (24 * 60 * 60 * 1000)))); [lia|done].
    + apply bind_err in Herr as [Herr|(? & _ & ?)]; [|done].
      apply IH in Herr; unfold MAX_SLOT_OCCURRENCES; lia.
  - unfold_ints. lia.
Qed.

(** A weekly series is exactly its weeks: on instants of the present era it
    is accepted iff the window is a window, [until] is not before it, at most 52
    weeks fit and the last one still fits the clock; it then has one window per
    week, the [k]-th shifted by [k] weeks, the last starting at or before [until]
    and within a week of it. In particular it is never empty. *)
Theorem weekly_windows_exact starts ends until :
  in_i64 ends → in_i64 until → 0 ≤ starts →
  match weekly_windows starts ends until with
  | Ok ws =>
      starts < ends ∧ 1 ≤ Z.of_nat (length ws) ≤ MAX_SLOT_OCCURRENCES
      ∧ (Z.of_nat (length ws) - 1) * MILLIS_PER_WEEK ≤ until - starts
          < Z.of_nat (length ws) * MILLIS_PER_WEEK
      ∧ ∀ k w, ws !! k = Some w →
          w = (starts + Z.of_nat k * MILLIS_PER_WEEK, ends + Z.of_nat k * MILLIS_PER_WEEK)
  | Err _ =>
      ends ≤ starts ∨ until < starts
      ∨ MAX_SLOT_OCCURRENCES * MILLIS_PER_WEEK ≤ until - starts
      ∨ i64_max < ends + (MAX_SLOT_OCCURRENCES - 1) * MILLIS_PER_WEEK
  end.
Proof.
  intros He Hu Hs. unfold weekly_windows.
  destruct (check_window starts ends) as [[]|e] eqn:Ew; simpl.
  2:{ left. unfold check_window in Ew. destruct (Z.leb_spec ends starts); [done|by simplify_eq]. }
  apply check_window_ok in Ew.
  destruct (until <? starts) eqn:Eu; [right; left; lia|]. apply Z.ltb_ge in Eu.
  assert (in_i64 starts) as Hs' by (unfold_ints; lia).
  rewrite (i64_wrap_id (until - starts)) by (unfold_ints; lia).
  set (q := Z.quot (until - starts) MILLIS_PER_WEEK).
  assert (0 ≤ q ∧ q * MILLIS_PER_WEEK ≤ until - starts < (q + 1) * MILLIS_PER_WEEK) as Hq.
  { unfold q. rewrite Z.quot_div_nonneg by (unfold MILLIS_PER_WEEK, MILLIS_PER_DAY; lia).
    unfold MILLIS_PER_WEEK, MILLIS_PER_DAY.
    pose proof (Z.div_mod (until - starts) (7 * (24 * 60 * 60 * 1000)) ltac:(lia)).
    pose proof (Z.mod_pos_bound (until - starts) (7 * (24 * 60 * 60 * 1000)) ltac:(lia)). lia. }
  clearbody q. rewrite i64_wrap_id by (unfold MILLIS_PER_WEEK, MILLIS_PER_DAY in Hq; unfold_ints; lia).
  destruct (MAX_SLOT_OCCURRENCES <? q + 1) eqn:Em.
  { right. right. left. unfold MAX_SLOT_OCCURRENCES, MILLIS_PER_WEEK, MILLIS_PER_DAY in *. lia. }
  apply Z.ltb_ge in Em. destruct (weeks_from starts ends 0 (Z.to_nat (q + 1))) as [ws|e] eqn:E; simpl.
  - apply weeks_from_ok in E as [Hlen Hws]. rewrite Hlen.
    split_and!; [done|lia|lia| | |].
    + replace (Z.of_nat (Z.to_nat (q + 1)) - 1) with q by lia. lia.
    + replace (Z.of_nat (Z.to_nat (q + 1))) with (q + 1) by lia. lia.
    + intros k w Hk. by destruct (Hws k w Hk) as (-> & _).
  - right. right. right.
    apply weeks_from_err in E; [|done..|lia|unfold MAX_SLOT_OCCURRENCES in *; lia].
    unfold MAX_SLOT_OCCURRENCES, MILLIS_PER_WEEK, MILLIS_PER_DAY in *. lia.
Qed.

(** ** A concrete book, for the witnesses *)

Definition demo_slot : AppointmentSlot := MkSlot 1%N 1000 2000 None None 0.
Definition demo_booking : Appointment :=
  MkAppointment (Some 7%N) 2%N Pending (lit "veli") None None None None None None None 0.
Definition demo_settled : Appointment :=
  MkAppointment (Some 7%N) 2%N Cancelled (lit "veli") None None None None None None None 0.
Definition demo_book : Tables :=
  MkTables {[7%N := demo_slot]} {[7%N := 1]} {[9%N := demo_booking]} ∅.

Lemma demo_book_ok : rely 9%N 7%N demo_book.
Proof.
  split.
  - assert (∀ i a, appointments demo_book !! i = Some a → i = 9%N ∧ a = demo_booking) as Ha.
    { intros i a Hi. simpl in Hi. apply lookup_singleton_Some in Hi as [<- <-]. done. }
    assert (∀ i s, slots demo_book !! i = Some s → i = 7%N ∧ s = demo_slot) as Hs.
    { intros i s Hi. simpl in Hi. apply lookup_singleton_Some in Hi as [<- <-]. done. }
    split.
    + intros i a s [-> ->]%Ha [= <-]. by eexists.
    + intros i a [-> ->]%Ha _. by eexists.
    + intros s [x [-> ->]%Hs]. by vm_compute.
    + intros s. unfold live_on. simpl. rewrite <-insert_empty, count_insert_fresh by done.
      assert (count (live_at s) ∅ = 0) as -> by (apply count_0; intros ? ? Hx; by rewrite lookup_empty in Hx).
      case_decide; lia.
    + intros i s [-> ->]%Hs. done.
    + intros i a [-> ->]%Ha. done.
    + intros i j s s' [-> ->]%Hs [-> ->]%Hs. done.
    + intros i j a b sa sb ia ib Hne [-> ->]%Ha [-> ->]%Ha. done.
  - intros a Hi. simpl in Hi. apply lookup_singleton_Some in Hi as [_ <-]. done.
Qed.

Lemma settled_is_final_witness :
  triple (frozen 9%N demo_settled) (cancel 9%N 2%N None) refused.
Proof. apply (settled_is_final 9%N demo_settled 2%N None 0 0 None). reflexivity. Defined.

Lemma approval_exact_witness :
  let w := quiet demo_book (λ _, 500) (λ _, 0%N) in
  match approve 9%N 1%N w with
  | (Ok _, w') => w_clock w (w_step w) < 1000
  | (Err _, _) => False
  end.
Proof.
  cbv zeta. destruct (approve 9%N 1%N (quiet demo_book (λ _, 500) (λ _, 0%N))) as [[b|e] w'] eqn:E.
  - destruct (approval_exact 9%N 7%N 1%N None (quiet demo_book (λ _, 500) (λ _, 0%N)) b w'
      demo_book_ok E) as (a & s & _ & _ & Hs & Hw & _ & Hnow & _).
    rewrite (Hw eq_refl) in Hnow. simpl in Hs. apply lookup_singleton_Some in Hs as [_ <-]. exact Hnow.
  - apply (f_equal (λ x, is_ok x.1)) in E. vm_compute in E. discriminate E.
Defined.

Lemma weekly_windows_exact_witness :
  match weekly_windows 1000 2000 (3 * MILLIS_PER_WEEK) with
  | Ok ws => length ws = 3%nat ∧ 1000 < 2000
  | Err _ => False
  end.
Proof.
  pose proof (weekly_windows_exact 1000 2000 (3 * MILLIS_PER_WEEK)) as H.
  destruct (weekly_windows 1000 2000 (3 * MILLIS_PER_WEEK)) as [ws|e] eqn:E.
  - destruct H as (? & _); [by vm_compute|by vm_compute|done|].
    split; [|done]. apply (f_equal (λ r, match r with Ok l => length l | Err _ => 0%nat end)) in E.
    vm_compute in E. by simpl in E.
  - apply (f_equal is_ok) in E. vm_compute in E. discriminate E.
Defined.
