(* ===== verification/Badges.v ===== *)
(** * Badges ([src/domain/badge.rs], [src/db/badge.rs])

    The lifetime counters of an account, the hardcoded catalogue that turns them
    into badges, and the sync every counter-moving write calls afterwards. A
    client of the badges states, through [BadgeStore], where its tables keep the
    counters and the awards. *)

From S2P Require Import Prelude Text Errors Effects Uuid.
Open Scope Z_scope.

Inductive BadgeStat : Set :=
  | HomeworkSubmitted
  | HomeworkOnTime
  | ExamSat
  | PomodoroFinished
  | PomodoroFocusMs
  | MarksGiven
  | LessonsHeld
  | PoolApproved
  | PoolPublished
  | LessonsAttended
  | HighMark
  | StudyStreak.

#[export] Instance BadgeStat_eq_dec : EqDecision BadgeStat.
Proof. solve_decision. Defined.

Definition field (s : BadgeStat) : string :=
  match s with
  | HomeworkSubmitted => "homework_submitted_total"
  | HomeworkOnTime => "homework_on_time_total"
  | ExamSat => "exam_sat_total"
  | PomodoroFinished => "pomodoro_finished_total"
  | PomodoroFocusMs => "pomodoro_focus_ms_total"
  | MarksGiven => "marks_given_total"
  | LessonsHeld => "lessons_held_total"
  | PoolApproved => "pool_approved_total"
  | PoolPublished => "pool_published_total"
  | LessonsAttended => "lessons_attended_total"
  | HighMark => "high_mark_total"
  | StudyStreak => "study_streak_longest"
  end.

Definition as_str (s : BadgeStat) : string :=
  match s with
  | HomeworkSubmitted => "homework_submitted"
  | HomeworkOnTime => "homework_on_time"
  | ExamSat => "exam_sat"
  | PomodoroFinished => "pomodoro_finished"
  | PomodoroFocusMs => "pomodoro_focus_ms"
  | MarksGiven => "marks_given"
  | LessonsHeld => "lessons_held"
  | PoolApproved => "pool_approved"
  | PoolPublished => "pool_published"
  | LessonsAttended => "lessons_attended"
  | HighMark => "high_mark"
  | StudyStreak => "study_streak"
  end.

Definition BADGES : list (string * BadgeStat * Z) :=
  [("homework_submitted_1", HomeworkSubmitted, 1);
   ("homework_submitted_10", HomeworkSubmitted, 10);
   ("homework_submitted_50", HomeworkSubmitted, 50);
   ("homework_on_time_10", HomeworkOnTime, 10);
   ("homework_on_time_25", HomeworkOnTime, 25);
   ("exam_sat_1", ExamSat, 1);
   ("exam_sat_10", ExamSat, 10);
   ("exam_sat_25", ExamSat, 25);
   ("pomodoro_finished_10", PomodoroFinished, 10);
   ("pomodoro_finished_50", PomodoroFinished, 50);
   ("pomodoro_finished_200", PomodoroFinished, 200);
   ("pomodoro_focus_ms_36000000", PomodoroFocusMs, 36000000);
   ("pomodoro_focus_ms_180000000", PomodoroFocusMs, 180000000);
   ("marks_given_10", MarksGiven, 10);
   ("marks_given_50", MarksGiven, 50);
   ("marks_given_250", MarksGiven, 250);
   ("lessons_held_10", LessonsHeld, 10);
   ("lessons_held_50", LessonsHeld, 50);
   ("lessons_held_200", LessonsHeld, 200);
   ("pool_approved_5", PoolApproved, 5);
   ("pool_approved_25", PoolApproved, 25);
   ("pool_approved_100", PoolApproved, 100);
   ("pool_published_1", PoolPublished, 1);
   ("pool_published_10", PoolPublished, 10);
   ("pool_published_50", PoolPublished, 50);
   ("lessons_attended_10", LessonsAttended, 10);
   ("lessons_attended_50", LessonsAttended, 50);
   ("lessons_attended_200", LessonsAttended, 200);
   ("high_mark_1", HighMark, 1);
   ("high_mark_10", HighMark, 10);
   ("high_mark_25", HighMark, 25);
   ("study_streak_3", StudyStreak, 3);
   ("study_streak_7", StudyStreak, 7);
   ("study_streak_30", StudyStreak, 30)]%string.

Record BadgeStats := MkStats {
  homework_submitted : Z;
  homework_on_time : Z;
  exam_sat : Z;
  pomodoro_finished : Z;
  pomodoro_focus_ms : Z;
  marks_given : Z;
  lessons_held : Z;
  pool_approved : Z;
  pool_published : Z;
  lessons_attended : Z;
  high_mark : Z;
  study_streak : Z;
}.

Definition no_stats : BadgeStats := MkStats 0 0 0 0 0 0 0 0 0 0 0 0.

Definition value (stats : BadgeStats) (s : BadgeStat) : Z :=
  match s with
  | HomeworkSubmitted => homework_submitted stats
  | HomeworkOnTime => homework_on_time stats
  | ExamSat => exam_sat stats
  | PomodoroFinished => pomodoro_finished stats
  | PomodoroFocusMs => pomodoro_focus_ms stats
  | MarksGiven => marks_given stats
  | LessonsHeld => lessons_held stats
  | PoolApproved => pool_approved stats
  | PoolPublished => pool_published stats
  | LessonsAttended => lessons_attended stats
  | HighMark => high_mark stats
  | StudyStreak => study_streak stats
  end.

Definition earned (stats : BadgeStats) : list string :=
  (λ b, b.1.1) <$> filter (λ b : string * BadgeStat * Z, b.2 ≤ value stats b.1.2) BADGES.

(** What the tables of a component promise to the badges: a row of counters per
    account, and a table of awards nothing else of that component touches. *)
Class BadgeStore (S : Type) := {
  stats_of : S → uuid → option BadgeStats;
  awards : S → gmap (uuid * string) Z;
  set_awards : gmap (uuid * string) Z → S → S;
  awards_set a s : awards (set_awards a s) = a;
  stats_of_set a s u : stats_of (set_awards a s) u = stats_of s u;
}.

Section Sync.
Context {S : Type} `{BadgeStore S}.

(** A missing account reads as all zeros. *)
Definition load (user : uuid) : tx S BadgeStats :=
  gets (λ s, default no_stats (stats_of s user)).

(** One [INSERT ... ON CONFLICT DO UPDATE ... WHERE earned_at IS NULL]; the
    column is never null, so a held award is left as it stands. *)
Definition award (user : uuid) (badge : string) (at_ : Z) : tx S () := λ s,
  match awards s !! (user, badge) with
  | Some _ => Ok ((), s)
  | None =>
      match stats_of s user with
      | None => Err (from_driver (Database (Some "23503"%string) []))
      | Some _ => Ok ((), set_awards (<[(user, badge) := at_]> (awards s)) s)
      end
  end.

Definition sync (user : uuid) : io S () :=
  stats ← atomic (load user);
  if bool_decide (earned stats = []) then mret () else
  t_now ← now;
  for_each (earned stats) (λ badge, atomic (award user badge t_now)).

(** ** Lemmas *)

Definition holds (k : uuid * string) (at_ : Z) (s : S) : Prop := awards s !! k = Some at_.

Lemma award_keeps k v user badge at_ : tx_keeps (holds k v) (award user badge at_).
Proof.
  unfold holds, award. intros s a s' Hs Ha.
  destruct (awards s !! (user, badge)) as [old|] eqn:E; [by injection Ha as _ <-|].
  destruct (stats_of s user); [|done]. injection Ha as _ <-.
  rewrite awards_set, lookup_insert_ne; [done|]. intros <-. congruence.
Qed.

Lemma sync_keeps k v user : keeps (holds k v) (sync user).
Proof. unfold sync, load. keeps_walk. apply award_keeps. Qed.

Lemma award_awards user badge at_ s a s' :
  award user badge at_ s = Ok (a, s') → is_Some (awards s' !! (user, badge)).
Proof.
  unfold award. destruct (awards s !! (user, badge)) as [old|] eqn:E.
  - intros [= _ <-]. by rewrite E.
  - destruct (stats_of s user); [|done]. intros [= _ <-].
    rewrite awards_set, lookup_insert_eq. by eexists.
Qed.

Lemma keeps_run {A} (I : S → Prop) (m : io S A) w r w' :
  keeps I m → stable I w → I (w_db w) → m w = (r, w') → I (w_db w') ∧ w_env w' = w_env w.
Proof. intros Hk Hst HI E. specialize (Hk w Hst HI). rewrite E in Hk. naive_solver. Qed.

Lemma awards_each user at_ bs w w' :
  (∀ k v, stable (holds k v) w) →
  for_each bs (λ badge, atomic (award user badge at_)) w = (Ok (), w') →
  ∀ b, b ∈ bs → is_Some (awards (w_db w') !! (user, b)).
Proof.
  revert w. induction bs as [|b bs IH]; intros w Hst E b' Hb; [by apply elem_of_nil in Hb|].
  cbn [for_each] in E. rewrite atomic_bind in E.
  destruct (award user b at_ (w_env w (w_step w) (w_db w))) as [[[] s']|e] eqn:Ea; [|done].
  apply elem_of_cons in Hb as [->|Hb]; [|exact (IH (tick s' w) Hst E b' Hb)].
  destruct (award_awards _ _ _ _ _ _ Ea) as [v Hv].
  exists v. set (w1 := tick s' w) in E.
  refine (proj1 (keeps_run (holds (user, b) v) _ w1 _ w' _ (Hst _ _) Hv E)).
  apply keeps_for_each. intros x. apply keeps_atomic, award_keeps.
Qed.

Lemma elem_of_earned stats b :
  b ∈ earned stats ↔ ∃ s n, (b, s, n) ∈ BADGES ∧ n ≤ value stats s.
Proof.
  unfold earned. rewrite list_elem_of_fmap. split.
  - intros ([[b' s] n] & -> & Hf). apply list_elem_of_filter in Hf as [Hn Hb]. eauto.
  - intros (s & n & Hb & Hn). exists (b, s, n). split; [done|].
    by apply list_elem_of_filter.
Qed.

(** A badge is permanent and its stamp is the first crossing: under any
    interference that revokes no award, [sync] revokes and restamps none, and
    when it answers [Ok] every badge of the catalogue whose counter had reached
    its threshold is held. *)
Theorem badges_permanent user w :
  (∀ k v, stable (holds k v) w) →
  let s0 := w_env w (w_step w) (w_db w) in
  let '(r, w') := sync user w in
  (∀ k v, awards (w_db w) !! k = Some v → awards (w_db w') !! k = Some v)
  ∧ (r = Ok () → ∀ b s n, (b, s, n) ∈ BADGES →
       n ≤ value (default no_stats (stats_of s0 user)) s →
       is_Some (awards (w_db w') !! (user, b))).
Proof.
  intros Hst s0. destruct (sync user w) as [r w'] eqn:E. split.
  - intros k v Hk. exact (proj1 (keeps_run _ _ w _ w' (sync_keeps k v user) (Hst k v) Hk E)).
  - intros -> b s n Hb Hn.
    assert (b ∈ earned (default no_stats (stats_of s0 user))) as He
      by (apply elem_of_earned; eauto).
    unfold sync, load in E. rewrite atomic_bind in E. cbn [gets] in E. fold s0 in E.
    case_bool_decide as Hnil; [rewrite Hnil in He; by apply elem_of_nil in He|].
    rewrite now_bind in E.
    exact (awards_each user _ _ (tick (w_db (tick s0 w)) (tick s0 w)) w' Hst E b He).
Qed.
End Sync.

(** The catalogue is consistent: ids are distinct, each is its counter's
    published name joined with its threshold, and no threshold is earned by
    nothing. *)
Theorem catalogue_well_formed :
  NoDup (BADGES.*1.*1)
  ∧ Forall (λ b, b.1.1 = (as_str b.1.2 +:+ "_" +:+ pretty b.2)%string ∧ 0 < b.2) BADGES
  ∧ earned no_stats = [].
Proof.
  split; [|split].
  - apply (bool_decide_unpack _). vm_compute. exact I.
  - apply (bool_decide_unpack _). vm_compute. exact I.
  - vm_compute. reflexivity.
Qed.

(** ** A store of its own, for the witness *)

Definition Shelf : Type := gmap uuid BadgeStats * gmap (uuid * string) Z.

#[export] Instance shelf_store : BadgeStore Shelf := {
  stats_of s u := s.1 !! u;
  awards s := s.2;
  set_awards a s := (s.1, a);
  awards_set _ _ := eq_refl;
  stats_of_set _ _ _ := eq_refl;
}.

Definition demo_shelf : Shelf :=
  ({[5%N := MkStats 0 0 1 0 0 0 0 0 0 0 10 0]}, {[(5%N, "exam_sat_1"%string) := 3]}).

Lemma badges_permanent_witness :
  let w := quiet demo_shelf (λ _, 900) (λ _, 0%N) in
  awards (w_db (sync 5%N w).2) !! (5%N, "exam_sat_1"%string) = Some 3
  ∧ is_Some (awards (w_db (sync 5%N w).2) !! (5%N, "high_mark_10"%string)).
Proof.
  intros w.
  assert (∀ k v, stable (holds k v) w) as Hst by (intros k v n s Hs; exact Hs).
  pose proof (badges_permanent 5%N w Hst) as H. cbv zeta in H.
  assert ((sync 5%N w).1 = Ok ()) as Hr by (vm_compute; reflexivity).
  destruct (sync 5%N w) as [r w'] eqn:E. cbn [fst snd] in Hr |- *. destruct H as [H1 H2]. split.
  - apply H1. vm_compute. reflexivity.
  - apply (H2 Hr _ HighMark 10).
    + apply (bool_decide_unpack _). vm_compute. exact I.
    + vm_compute. discriminate.
Defined.
