(* ===== verification/ExamForms.v ===== *)
(** * The pieces of an exam ([src/domain/exam.rs], [src/domain/exam_question.rs],
    [src/domain/exam_attempt.rs], [src/domain/exam_answer.rs],
    [src/domain/exam_result.rs], [src/domain/key.rs])

    The validated fields, the schedule and the question that are legal only as a
    whole, the deadline and status every read of a sitting recomputes, the score
    the machine suggests, and the mark of record. *)

From S2P Require Import Prelude Text Errors Effects Uuid Validate.
Open Scope Z_scope.

Definition MAX_EXAM_TITLE_LEN : Z := 200.
Definition MAX_EXAM_DESCRIPTION_LEN : Z := 2000.
Definition MAX_QUESTION_TEXT_LEN : Z := 2000.
Definition MIN_QUESTION_CHOICES : Z := 2.
Definition MAX_QUESTION_CHOICES : Z := 10.
Definition MAX_CHOICE_TEXT_LEN : Z := 500.
Definition MAX_ANSWER_TEXT_LEN : Z := 10000.

(** ** Fields *)

Definition exam_title_try_new (value : str) : result ValidationError str :=
  _ ← validate_required "title" value MAX_EXAM_TITLE_LEN; Ok value.

Definition exam_description_try_new (value : str) : result ValidationError str :=
  _ ← validate_optional "description" value MAX_EXAM_DESCRIPTION_LEN; Ok value.

(** [allowed] are the names of the school's kinds. *)
Definition exam_kind_try_new (value : str) (allowed : list str) : result ValidationError str :=
  if negb (existsb (λ kind, bool_decide (kind = value)) allowed)
  then Err (Invalid "kind" "is not one of this school's exam kinds (see GET /settings)")
  else Ok value.

Definition exam_mode_try_new (value : str) : result ValidationError str :=
  _ ← validate_exam_mode value; Ok value.

Definition exam_duration_try_new (value : Z) : result ValidationError Z :=
  _ ← validate_exam_duration value; Ok value.

Definition attempt_limit_try_new (value : Z) : result ValidationError Z :=
  _ ← validate_attempt_limit value; Ok value.

Definition is_unlimited (limit : Z) : bool := limit =? UNLIMITED_EXAM_ATTEMPTS.

(** [used as i64] is exact: a [Vec] is shorter than [i64::MAX]. *)
Definition allows_another (limit : Z) (used : nat) : bool :=
  is_unlimited limit || (Z.of_nat used <? limit).

(** ** The schedule *)

Record ExamSchedule := MkSchedule {
  mode : option str;
  starts_at : option Z;
  ends_at : option Z;
  duration_ms : option Z;
}.

(** [Option]'s derived order: [None] is below everything. *)
Definition option_le (a b : option Z) : bool :=
  match a, b with
  | None, _ => true
  | Some _, None => false
  | Some x, Some y => x <=? y
  end.

Definition is_some {A} (o : option A) : bool := match o with Some _ => true | None => false end.

Definition schedule_try_new (mode_ : option str) (starts ends duration : option Z)
    : result ValidationError ExamSchedule :=
  _ ← match mode_ with
      | None =>
          if is_some starts || is_some ends || is_some duration
          then Err (Invalid "mode"
                 "starts_at, ends_at, and duration_ms require a mode (sync, async, or open)")
          else Ok ()
      | Some m =>
          if bool_decide (m = lit "open") then
            if is_some starts || is_some ends
            then Err (Invalid "starts_at"
                   "an open exam has no window — drop starts_at/ends_at or pick sync/async")
            else Ok ()
          else
            if negb (is_some starts) then Err (Invalid "starts_at" "required for a scheduled exam") else
            if negb (is_some ends) then Err (Invalid "ends_at" "required for a scheduled exam") else
            if option_le ends starts then Err (Invalid "ends_at" "must be after starts_at") else
            if bool_decide (m = lit "async") && negb (is_some duration)
            then Err (Invalid "duration_ms" "required for an async exam") else
            if bool_decide (m = lit "sync") && is_some duration
            then Err (Invalid "duration_ms" "only async and open exams take a duration") else
            match duration, starts, ends with
            | Some d, Some s, Some e =>
                if i64_saturating_sub e s <? d
                then Err (Invalid "duration_ms" "must fit within the starts_at..ends_at window")
                else Ok ()
            | _, _, _ => Ok ()
            end
      end;
  Ok (MkSchedule mode_ starts ends duration).

(** ** The exam row, without the [result_count] column *)

Record Exam := MkExam {
  creator : uuid;
  class_course : uuid;
  term : uuid;
  title : str;
  description : str;
  kind : str;
  schedule : ExamSchedule;
  max_attempts : Z;
  allow_rejoin : bool;
  allow_review : bool;
  draft : bool;
}.

(** ** A sitting *)

Inductive AttemptStatus : Set := InProgress | Submitted | Expired.

#[export] Instance AttemptStatus_eq_dec : EqDecision AttemptStatus.
Proof. solve_decision. Defined.

(** The columns of an attempt row besides its key (exam, user, seq). *)
Record ExamAttempt := MkAttempt {
  started_at : Z;
  finished_at : option Z;
  left_at : option Z;
}.

Definition deadline (a : ExamAttempt) (s : ExamSchedule) : option Z :=
  let by_duration := i64_saturating_add (started_at a) <$> duration_ms s in
  match ends_at s, by_duration with
  | Some ends, Some cap => Some (Z.min ends cap)
  | Some ends, None => Some ends
  | None, Some cap => Some cap
  | None, None => None
  end.

Definition attempt_status (a : ExamAttempt) (s : ExamSchedule) (now : Z) : AttemptStatus :=
  if is_some (finished_at a) then Submitted else
  match deadline a s with
  | Some d => if d <=? now then Expired else InProgress
  | None => InProgress
  end.

(** ** Questions *)

Definition question_text_try_new (value : str) : result ValidationError str :=
  _ ← validate_required "text" value MAX_QUESTION_TEXT_LEN; Ok value.
Definition question_kind_try_new (value : str) : result ValidationError str :=
  _ ← validate_question_kind value; Ok value.
Definition question_points_try_new (value : Z) : result ValidationError Z :=
  _ ← validate_question_points value; Ok value.
Definition choice_text_try_new (value : str) : result ValidationError str :=
  _ ← validate_required "choice" value MAX_CHOICE_TEXT_LEN; Ok value.

Record Choice := MkChoice { choice_id : str; choice_text : str }.
Record ChoiceInput := MkInput { input_id : option str; input_text : str }.
Record QuestionSpec := MkSpec {
  spec_kind : str;
  spec_choices : option (list Choice);
  spec_correct : option str;
}.

#[export] Instance Choice_eq_dec : EqDecision Choice.
Proof. solve_decision. Defined.

Section Spec.
Context `{UuidText} {S : Type}.

(** [ChoiceId::generate]. *)
Definition generate_choice_id : io S str := u ← fresh; mret (uuid_text u).

(** The loop over the inputs; [keys] are the ids the client named so far, with
    the id each choice was given. *)
Fixpoint resolve_inputs (inputs : list ChoiceInput) (existing : list Choice)
    (keys : list (str * str)) : io S (list Choice * list (str * str)) :=
  match inputs with
  | [] => mret ([], keys)
  | input :: rest =>
      named ← match input_id input with
        | Some key =>
            if existsb (λ k, bool_decide (k.1 = key)) keys
            then raise (Validation (Invalid "choices" "duplicate choice id"))
            else
              id ← match List.find (λ c, bool_decide (choice_id c = key)) existing with
                   | Some c => mret (choice_id c)
                   | None => generate_choice_id
                   end;
              mret (id, keys ++ [(key, id)])
        | None => id ← generate_choice_id; mret (id, keys)
        end;
      text ← lift (checked (choice_text_try_new (input_text input)));
      resolved ← resolve_inputs rest existing named.2;
      mret (MkChoice named.1 text :: resolved.1, resolved.2)
  end.

Definition spec_try_new (kind_ : str) (choices : option (list ChoiceInput)) (correct : option str)
    (existing : list Choice) : io S QuestionSpec :=
  let invalid f r := raise (Validation (Invalid f r)) in
  match choices with
  | Some inputs =>
      if bool_decide (kind_ = lit "text")
      then invalid "choices"%string "only choice questions take choices"%string else
      if negb (in_range MIN_QUESTION_CHOICES MAX_QUESTION_CHOICES (Z.of_nat (length inputs)))
      then invalid "choices"%string "must list 2 to 10 choices"%string else
      resolved ← resolve_inputs inputs existing [];
      match correct with
      | None => invalid "correct"%string "required for a choice question"%string
      | Some correct_ =>
          match List.find (λ k, bool_decide (k.1 = correct_)) resolved.2 with
          | None => invalid "correct"%string "must name one of the choices"%string
          | Some k => mret (MkSpec kind_ (Some resolved.1) (Some k.2))
          end
      end
  | None =>
      if bool_decide (kind_ = lit "text") then
        match correct with
        | Some _ => invalid "correct"%string "only choice questions take a correct choice"%string
        | None => mret (MkSpec kind_ None None)
        end
      else invalid "choices"%string "required for a choice question"%string
  end.
End Spec.

Record ExamQuestion := MkQuestion {
  q_exam : uuid;
  q_subject : uuid;
  q_text : str;
  q_kind : str;
  q_points : Z;
  q_choices : option (list Choice);
  q_correct : option str;
  q_from_bank : option uuid;
  q_banked_as : option uuid;
}.

(** ** Answers and marks *)

Definition answer_text_try_new (value : str) : result ValidationError str :=
  _ ← validate_optional "text" value MAX_ANSWER_TEXT_LEN; Ok value.

(** The columns of an answer row besides its key (question, user, seq). *)
Record ExamAnswer := MkAnswer {
  a_exam : uuid;
  a_selected : option str;
  a_text : option str;
  a_updated_at : Z;
}.

Definition is_correct (a : ExamAnswer) (q : ExamQuestion) : option bool :=
  correct ← q_correct q; Some (bool_decide (a_selected a = Some correct)).

(** [auto_score], over answers given with the question they answer. *)
Definition hits (q : uuid) (correct : str) (a : uuid * ExamAnswer) : bool :=
  bool_decide (a.1 = q) && bool_decide (a_selected a.2 = Some correct).

Fixpoint auto_score (questions : list (uuid * ExamQuestion)) (answers : list (uuid * ExamAnswer))
    (earned possible : Z) : Z * Z :=
  match questions with
  | [] => (earned, possible)
  | (i, q) :: rest =>
      match q_correct q with
      | None => auto_score rest answers earned possible
      | Some correct =>
          let possible := i64_wrap (possible + q_points q) in
          let earned := if existsb (hits i correct) answers
                        then i64_wrap (earned + q_points q) else earned in
          auto_score rest answers earned possible
      end
  end.

Definition mark_try_new (value : Z) : result ValidationError Z :=
  _ ← validate_mark value; Ok value.

(** The columns of a mark row besides its key (exam, user, seq). *)
Record ExamResult := MkResult { r_mark : Z; r_graded_by : uuid }.

(** A mark row as the reports read it. *)
Record MarkRow := MkRow { row_exam : uuid; row_user : uuid; row_seq : Z; row_result : ExamResult }.

Definition pair_of (r : MarkRow) : uuid * uuid := (row_exam r, row_user r).

(** The loop of [latest_per_pair]: the pairs in first-appearance order, and the
    best row of each so far. *)
Fixpoint latest_loop (rows : list MarkRow) (order : list (uuid * uuid))
    (best : gmap (uuid * uuid) MarkRow) : list (uuid * uuid) * gmap (uuid * uuid) MarkRow :=
  match rows with
  | [] => (order, best)
  | row :: rest =>
      match best !! pair_of row with
      | Some existing =>
          if row_seq row <=? row_seq existing then latest_loop rest order best
          else latest_loop rest order (<[pair_of row := row]> best)
      | None => latest_loop rest (order ++ [pair_of row]) (<[pair_of row := row]> best)
      end
  end.

(** [best.remove(&key).expect(..)] for each key, in order. *)
Fixpoint drain (order : list (uuid * uuid)) (best : gmap (uuid * uuid) MarkRow)
    : option (list MarkRow) :=
  match order with
  | [] => Some []
  | k :: order =>
      row ← best !! k;
      rest ← drain order (delete k best);
      Some (row :: rest)
  end.

Definition latest_per_pair (rows : list MarkRow) : option (list MarkRow) :=
  let '(order, best) := latest_loop rows [] ∅ in drain order best.

(** ** Wire keys *)

Definition sitting_key (scope user : str) (seq : Z) : str :=
  if seq =? 1 then scope ++ lit "_" ++ user
  else scope ++ lit "_" ++ user ++ lit "_" ++ show_int seq.

Definition slot_key (owner : str) (slot : option str) : str :=
  owner ++ lit "_" ++ default (lit "q") slot.

(** ** Schedules *)

(** What the four kinds of exam look like on the clock. *)
Definition legal (mode_ : option str) (starts ends duration : option Z) : Prop :=
  match mode_ with
  | None => starts = None ∧ ends = None ∧ duration = None
  | Some m =>
      (m = lit "open" ∧ starts = None ∧ ends = None)
      ∨ (∃ s e, starts = Some s ∧ ends = Some e ∧ s < e ∧ m = lit "sync" ∧ duration = None)
      ∨ (∃ s e d, starts = Some s ∧ ends = Some e ∧ s < e ∧ m = lit "async"
           ∧ duration = Some d ∧ d ≤ e - s)
  end.

Lemma exam_mode_cases m :
  exam_mode_try_new m = Ok m ↔ m = lit "sync" ∨ m = lit "async" ∨ m = lit "open".
Proof.
  unfold exam_mode_try_new, validate_exam_mode, one_of, EXAM_MODES. cbn [existsb].
  split.
  - destruct (_ || _) eqn:E; [|done]. intros _.
    rewrite !orb_true_iff, !bool_decide_eq_true in E. naive_solver.
  - intros [-> | [-> | ->]]; vm_compute; reflexivity.
Qed.

Lemma modes_apart :
  lit "sync" ≠ lit "open" ∧ lit "async" ≠ lit "open" ∧ lit "sync" ≠ lit "async".
Proof. split; [|split]; apply (bool_decide_eq_false_1 (_ = _)); vm_compute; reflexivity. Qed.

Definition validated_times (starts ends duration : option Z) : Prop :=
  (∀ z, starts = Some z → in_i64 z) ∧ (∀ z, ends = Some z → in_i64 z)
  ∧ (∀ d, duration = Some d → exam_duration_try_new d = Ok d).

Lemma exam_duration_range d :
  exam_duration_try_new d = Ok d ↔ MIN_EXAM_DURATION_MS ≤ d ≤ MAX_EXAM_DURATION_MS.
Proof.
  unfold exam_duration_try_new, validate_exam_duration.
  destruct (in_range _ _ d) eqn:E.
  - apply in_range_spec in E. naive_solver.
  - apply in_range_false in E. naive_solver.
Qed.

Lemma window_fits s e d :
  in_i64 s → in_i64 e → s < e → exam_duration_try_new d = Ok d →
  (i64_saturating_sub e s <? d) = negb (d <=? e - s).
Proof.
  rewrite exam_duration_range. unfold MIN_EXAM_DURATION_MS, MAX_EXAM_DURATION_MS.
  unfold_ints. intros. destruct (Z.leb_spec d (e - s)); simpl; lia.
Qed.

(** A schedule is accepted exactly when it is one of the four legal kinds, and
    is stored as it was given: no mode and no times; open with at most a
    duration; sync with a window and no duration; async with a window and a
    duration that fits in it. *)
Theorem schedule_exact mode_ starts ends duration s :
  (∀ m, mode_ = Some m → exam_mode_try_new m = Ok m) →
  validated_times starts ends duration →
  schedule_try_new mode_ starts ends duration = Ok s ↔
  legal mode_ starts ends duration ∧ s = MkSchedule mode_ starts ends duration.
Proof.
  intros Hm (Hs & He & Hd).
  destruct modes_apart as (Hso & Hao & Hsa).
  unfold schedule_try_new. destruct mode_ as [m|].
  - assert (m = lit "sync" ∨ m = lit "async" ∨ m = lit "open") as Hc
      by (apply exam_mode_cases; eauto).
    unfold legal. clear Hm. revert Hso Hao Hsa Hc.
    generalize (lit "sync"), (lit "async"), (lit "open"). intros sync async open_ Hso Hao Hsa Hc.
    destruct Hc as [-> | [-> | ->]].
    + rewrite (bool_decide_eq_false_2 _ Hso), (bool_decide_eq_false_2 _ Hsa), bool_decide_true by done.
      destruct starts as [st|], ends as [en|], duration as [d|]; simpl;
        try (split; [done|]; naive_solver).
      * destruct (Z.leb_spec en st); split; naive_solver lia.
      * destruct (Z.leb_spec en st); split; naive_solver lia.
    + rewrite (bool_decide_eq_false_2 _ Hao),
        (bool_decide_eq_false_2 (async = sync)), bool_decide_true by congruence.
      destruct starts as [st|], ends as [en|], duration as [d|]; simpl;
        try (split; [done|]; naive_solver).
      * destruct (Z.leb_spec en st) as [Hle|Hlt]; [split; naive_solver lia|].
        rewrite window_fits by eauto.
        destruct (Z.leb_spec d (en - st)); simpl; split; naive_solver lia.
      * destruct (Z.leb_spec en st); split; naive_solver lia.
    + rewrite bool_decide_true by done.
      destruct starts as [st|], ends as [en|], duration as [d|]; simpl; split; naive_solver.
  - unfold legal. destruct starts as [st|], ends as [en|], duration as [d|]; simpl; split; naive_solver.
Qed.

(** ** Sittings *)

Lemma deadline_passed a s now :
  (∀ d, deadline a s = Some d → now < d) ↔
  (∀ ends, ends_at s = Some ends → now < ends)
  ∧ (∀ d, duration_ms s = Some d → now < i64_saturating_add (started_at a) d).
Proof.
  unfold deadline. destruct (ends_at s) as [e|], (duration_ms s) as [d|]; simpl.
  - split.
    + intros H. specialize (H _ eq_refl). split; intros ? [= <-]; lia.
    + intros [H1 H2] d' [= <-]. specialize (H1 _ eq_refl). specialize (H2 _ eq_refl). lia.
  - naive_solver.
  - naive_solver.
  - naive_solver.
Qed.

(** A sitting is submitted exactly when a submission is recorded; otherwise it
    is in progress exactly while the clock is before the window's end and before
    its own allowance, whichever of the two the schedule sets, and expired from
    the first of them on. *)
Theorem status_exact a s now :
  (attempt_status a s now = Submitted ↔ finished_at a ≠ None)
  ∧ (attempt_status a s now = InProgress ↔
       finished_at a = None
       ∧ (∀ ends, ends_at s = Some ends → now < ends)
       ∧ (∀ d, duration_ms s = Some d → now < i64_saturating_add (started_at a) d))
  ∧ (attempt_status a s now = Expired ↔
       finished_at a = None
       ∧ ((∃ ends, ends_at s = Some ends ∧ ends ≤ now)
          ∨ (∃ d, duration_ms s = Some d ∧ i64_saturating_add (started_at a) d ≤ now))).
Proof.
  rewrite <-(deadline_passed a s now). unfold attempt_status.
  destruct (finished_at a); simpl; [naive_solver|].
  split; [destruct (deadline a s); [case_match|]; naive_solver|]. split.
  - destruct (deadline a s) as [d|]; [|naive_solver].
    destruct (Z.leb_spec d now); naive_solver lia.
  - unfold deadline. destruct (ends_at s) as [e|], (duration_ms s) as [d|]; simpl.
    + destruct (Z.leb_spec (Z.min e (i64_saturating_add (started_at a) d)) now) as [Hl|Hl].
      * split; [|done]. intros _. split; [done|].
        destruct (Z.le_gt_cases e now); [left; eauto|right; exists d; split; [done|lia]].
      * naive_solver lia.
    + destruct (Z.leb_spec e now); naive_solver lia.
    + destruct (Z.leb_spec (i64_saturating_add (started_at a) d) now); naive_solver lia.
    + naive_solver.
Qed.

(** ** Questions *)

Section SpecProofs.
Context `{UuidText} {S : Type}.

(** The id supply gives ids never given before, and none already on a question,
    for as long as the ids of 128 bits last. *)
Definition SUPPLY : Z := 2 ^ 127.
Definition supply_ok (f : nat → N) (existing : list Choice) : Prop :=
  (∀ n, Z.of_nat n < SUPPLY → uuid_ok (f n))
  ∧ (∀ m n, Z.of_nat m < SUPPLY → Z.of_nat n < SUPPLY → f m = f n → m = n)
  ∧ (∀ n, Z.of_nat n < SUPPLY → uuid_text (f n) ∉ choice_id <$> existing).

(** The loop of [resolve_inputs] before step [n]: [taken] are the ids given so
    far, each of the question's own or of the supply's first [n]. *)
Record loop_ok (f : nat → N) (n : nat) (existing : list Choice) (keys : list (str * str))
    (taken : list str) : Prop := {
  lo_nodup : NoDup taken;
  lo_known i : i ∈ taken → i ∈ choice_id <$> existing ∨ ∃ m, (m < n)%nat ∧ i = uuid_text (f m);
  lo_old i : i ∈ taken → i ∈ choice_id <$> existing → (i, i) ∈ keys;
  lo_keys k : k ∈ keys → k.2 ∈ taken;
}.

Lemma find_id_some key existing c :
  List.find (λ c, bool_decide (choice_id c = key)) existing = Some c →
  choice_id c = key ∧ key ∈ choice_id <$> existing.
Proof.
  intros [Hin Hb]%List.find_some. apply bool_decide_eq_true in Hb.
  split; [done|]. subst. apply list_elem_of_fmap_2. by apply list_elem_of_In.
Qed.

Lemma find_id_none key existing :
  List.find (λ c, bool_decide (choice_id c = key)) existing = None →
  key ∉ choice_id <$> existing.
Proof.
  intros Hn (c & -> & Hc)%list_elem_of_fmap. apply list_elem_of_In in Hc.
  pose proof (List.find_none _ _ Hn _ Hc) as Hb. by apply bool_decide_eq_false in Hb.
Qed.

Lemma seen_false key (keys : list (str * str)) :
  existsb (λ k, bool_decide (k.1 = key)) keys = false → ∀ i, (key, i) ∉ keys.
Proof.
  intros Hf i Hin. apply not_true_iff_false in Hf. apply Hf. apply existsb_exists.
  exists (key, i). split; [by apply list_elem_of_In|by apply bool_decide_eq_true].
Qed.

Lemma loop_fresh f n existing keys taken :
  supply_ok f existing → Z.of_nat n < SUPPLY → loop_ok f n existing keys taken →
  loop_ok f (Datatypes.S n) existing keys (taken ++ [uuid_text (f n)]).
Proof.
  intros (Hok & Hinj & Hnew) Hn L. split.
  - apply NoDup_app. split; [apply L|]. split; [|apply NoDup_singleton].
    intros i Hi ->%list_elem_of_singleton.
    destruct (lo_known _ _ _ _ _ L _ Hi) as [Hold|(m & Hm & E)]; [by apply (Hnew n)|].
    apply uuid_text_inj in E; [|apply Hok; lia..]. apply Hinj in E; lia.
  - intros i [Hi| ->%list_elem_of_singleton]%elem_of_app; [|right; exists n; split; [lia|done]].
    destruct (lo_known _ _ _ _ _ L _ Hi) as [?|(m & Hm & E)]; [by left|].
    right. exists m. split; [lia|done].
  - intros i [Hi| ->%list_elem_of_singleton]%elem_of_app Ho; [by eapply lo_old|].
    by destruct (Hnew n).
  - intros k Hk. apply elem_of_app. left. by eapply lo_keys.
Qed.

Lemma loop_key f n existing keys taken key i :
  loop_ok f n existing keys taken → i ∈ taken → loop_ok f n existing (keys ++ [(key, i)]) taken.
Proof.
  intros L Hi. split; [apply L|apply L| |].
  - intros j Hj Ho. apply elem_of_app. left. by eapply lo_old.
  - intros k [Hk| ->%list_elem_of_singleton]%elem_of_app; [by eapply lo_keys|done].
Qed.

Lemma loop_kept f n existing keys taken key :
  loop_ok f n existing keys taken → (∀ i, (key, i) ∉ keys) → key ∈ choice_id <$> existing →
  loop_ok f n existing (keys ++ [(key, key)]) (taken ++ [key]).
Proof.
  intros L Hseen Hold. split.
  - apply NoDup_app. split; [apply L|]. split; [|apply NoDup_singleton].
    intros i Hi ->%list_elem_of_singleton. apply (Hseen key). by eapply lo_old.
  - intros i [Hi| ->%list_elem_of_singleton]%elem_of_app; [by eapply lo_known|by left].
  - intros i [Hi| ->%list_elem_of_singleton]%elem_of_app Ho; apply elem_of_app.
    + left. by eapply lo_old.
    + right. by apply list_elem_of_singleton.
  - intros k [Hk| ->%list_elem_of_singleton]%elem_of_app; apply elem_of_app.
    + left. by eapply lo_keys.
    + right. by apply list_elem_of_singleton.
Qed.

(** What one input became: its text, and the id the question already knew it by. *)
Definition resolved_as (existing : list Choice) (keys : list (str * str))
    (input : ChoiceInput) (c : Choice) : Prop :=
  choice_text_try_new (input_text input) = Ok (choice_text c)
  ∧ ∀ key, input_id input = Some key →
      (key, choice_id c) ∈ keys ∧ (key ∈ choice_id <$> existing → choice_id c = key).

(** The choice an input of that key became. *)
Definition became (inputs : list ChoiceInput) (cs : list Choice) (k : str * str) : Prop :=
  ∃ n input c, inputs !! n = Some input ∧ cs !! n = Some c ∧ input_id input = Some k.1 ∧ choice_id c = k.2.

(** One round of the loop, from [w] to [w1]. *)
Lemma resolve_cons input rest existing keys w cs keys' w' taken :
  supply_ok (w_fresh w) existing → Z.of_nat (w_step w) < SUPPLY →
  loop_ok (w_fresh w) (w_step w) existing keys taken →
  resolve_inputs (S := S) (input :: rest) existing keys w = (Ok (cs, keys'), w') →
  ∃ i keys1 w1 text cs1,
    cs = MkChoice i text :: cs1
    ∧ w_fresh w1 = w_fresh w ∧ (w_step w1 ≤ Datatypes.S (w_step w))%nat
    ∧ loop_ok (w_fresh w) (w_step w1) existing keys1 (taken ++ [i])
    ∧ choice_text_try_new (input_text input) = Ok text
    ∧ resolve_inputs rest existing keys1 w1 = (Ok (cs1, keys'), w')
    ∧ keys1 = keys ++ match input_id input with Some key => [(key, i)] | None => [] end
    ∧ ∀ key, input_id input = Some key →
        (key, i) ∈ keys1 ∧ (key ∈ choice_id <$> existing → i = key).
Proof.
  intros Hs Hn L E. cbn [resolve_inputs] in E.
  assert (∀ i keys1 w1,
    ((text ← lift (checked (choice_text_try_new (input_text input)));
      resolved ← resolve_inputs rest existing keys1;
      mret (MkChoice i text :: resolved.1, resolved.2)) : io S _) w1 = (Ok (cs, keys'), w') →
    ∃ text cs1, cs = MkChoice i text :: cs1
      ∧ choice_text_try_new (input_text input) = Ok text
      ∧ resolve_inputs rest existing keys1 w1 = (Ok (cs1, keys'), w')) as Htail.
  { intros i keys1 w1. rewrite lift_bind. unfold checked.
    destruct (choice_text_try_new (input_text input)) as [text|e]; simpl; [|done].
    unfold mbind at 1, io_bind at 1.
    destruct (resolve_inputs rest existing keys1 w1) as [[[cs1 k1]|e] w2]; [|done].
    intros [= <- <- <-]. eauto. }
  destruct (input_id input) as [key|].
  - destruct (existsb _ keys) eqn:Hseen; [done|]. pose proof (seen_false _ _ Hseen) as Hs'.
    destruct (List.find _ existing) as [c|] eqn:Hf.
    + apply find_id_some in Hf as [Hc Hold].
      destruct (Htail (choice_id c) (keys ++ [(key, choice_id c)]) w E) as (text & cs1 & ? & ? & ?).
      rewrite Hc in *. exists key, (keys ++ [(key, key)]), w, text, cs1.
      split_and!; try done.
      * lia.
      * by apply loop_kept.
      * intros ? [= <-]. split; [|done]. apply elem_of_app. right. by apply list_elem_of_singleton.
    + apply find_id_none in Hf. unfold generate_choice_id in E.
      destruct (Htail (uuid_text (w_fresh w (w_step w)))
                  (keys ++ [(key, uuid_text (w_fresh w (w_step w)))]) (tick (w_db w) w) E)
        as (text & cs1 & ? & ? & ?).
      eexists _, _, (tick (w_db w) w), text, cs1. split_and!; try done.
      * apply loop_key; [by apply loop_fresh|]. apply elem_of_app. right.
        by apply list_elem_of_singleton.
      * intros ? [= <-]. split; [|done]. apply elem_of_app. right. by apply list_elem_of_singleton.
  - unfold generate_choice_id in E.
    destruct (Htail (uuid_text (w_fresh w (w_step w))) keys (tick (w_db w) w) E)
      as (text & cs1 & ? & ? & ?).
    eexists _, _, (tick (w_db w) w), text, cs1. split_and!; try done.
    + by apply loop_fresh.
    + by rewrite app_nil_r.
Qed.

Lemma resolve_sound inputs existing : ∀ keys w cs keys' w' taken,
  supply_ok (w_fresh w) existing →
  Z.of_nat (w_step w) + Z.of_nat (length inputs) ≤ SUPPLY →
  loop_ok (w_fresh w) (w_step w) existing keys taken →
  resolve_inputs (S := S) inputs existing keys w = (Ok (cs, keys'), w') →
  NoDup (taken ++ (choice_id <$> cs))
  ∧ (∀ k, k ∈ keys' → k.2 ∈ taken ++ (choice_id <$> cs))
  ∧ Forall2 (resolved_as existing keys') inputs cs
  ∧ ∃ more, keys' = keys ++ more ∧ ∀ k, k ∈ more → became inputs cs k.
Proof.
  induction inputs as [|input rest IH]; intros keys w cs keys' w' taken Hs Hn L E.
  - injection E as <- <- <-. rewrite app_nil_r.
    split; [apply L|]. split; [apply L|]. split; [done|]. exists []. rewrite app_nil_r.
    split; [done|]. by intros k ?%elem_of_nil.
  - cbn [length] in Hn.
    destruct (resolve_cons _ _ _ _ _ _ _ _ _ Hs ltac:(lia) L E)
      as (i & keys1 & w1 & text & cs1 & -> & Hf & Hst & L1 & Ht & E1 & Hm & Hk).
    rewrite <-Hf in Hs, L1.
    assert (Z.of_nat (w_step w1) + Z.of_nat (length rest) ≤ SUPPLY) as Hn1 by lia.
    destruct (IH _ _ _ _ _ _ Hs Hn1 L1 E1) as (Hnd & Hkeys & Hall & more' & -> & Hmore).
    rewrite <-app_assoc in Hnd, Hkeys. simpl in *.
    split; [done|]. split; [done|]. split; [|eexists; rewrite Hm, <-app_assoc; split; [done|]].
    2: { intros k [Hin|Hin]%elem_of_app.
      - destruct (input_id input) as [key|] eqn:Hid; [|by apply elem_of_nil in Hin].
        apply list_elem_of_singleton in Hin as ->. by exists 0%nat, input, (MkChoice i text).
      - destruct (Hmore k Hin) as (n & x & c & ?). by exists (Datatypes.S n), x, c. }
    constructor; [|done]. split; [done|]. intros key Hkey.
    destruct (Hk _ Hkey) as [Hin Hold]. split; [|done]. apply elem_of_app. by left.
Qed.

(** C40. A question is legal as a whole. A text question has neither choices nor a
    correct one. A choice question has 2 to 10 choices with distinct ids, one
    per input and in order, each text valid; a choice the client named by an id
    the question already had keeps it (so a reorder repoints nothing); and the
    correct choice is the one the input of the given key became, which is one of
    them. *)
Theorem spec_sound kind_ choices correct existing w spec w' :
  supply_ok (w_fresh w) existing → Z.of_nat (w_step w) + 10 ≤ SUPPLY →
  spec_try_new (S := S) kind_ choices correct existing w = (Ok spec, w') →
  spec_kind spec = kind_ ∧
  ((kind_ = lit "text" ∧ choices = None ∧ correct = None
      ∧ spec_choices spec = None ∧ spec_correct spec = None)
   ∨ ∃ inputs cs key i keys,
      kind_ ≠ lit "text" ∧ choices = Some inputs ∧ correct = Some key
      ∧ spec_choices spec = Some cs ∧ spec_correct spec = Some i
      ∧ 2 ≤ Z.of_nat (length cs) ≤ 10
      ∧ NoDup (choice_id <$> cs)
      ∧ Forall2 (resolved_as existing keys) inputs cs
      ∧ (key, i) ∈ keys ∧ became inputs cs (key, i) ∧ i ∈ choice_id <$> cs).
Proof.
  intros Hs Hn E. unfold spec_try_new in E. destruct choices as [inputs|].
  - case_bool_decide as Hk; [done|].
    destruct (in_range _ _ _) eqn:Hr; [|done]. apply in_range_spec in Hr.
    cbn [negb] in E. unfold mbind at 1, io_bind at 1 in E.
    destruct (resolve_inputs inputs existing [] w) as [[[cs keys]|e] w1] eqn:Er; [|done].
    assert (loop_ok (w_fresh w) (w_step w) existing [] []) as L0
      by (split; [apply NoDup_nil_2|intros ? ?%elem_of_nil; done..]).
    unfold MIN_QUESTION_CHOICES, MAX_QUESTION_CHOICES in Hr.
    assert (Z.of_nat (w_step w) + Z.of_nat (length inputs) ≤ SUPPLY) as Hb10 by lia.
    destruct (resolve_sound _ _ _ _ _ _ _ _ Hs Hb10 L0 Er) as (Hnd & Hkeys & Hall & more & -> & Hmore).
    destruct correct as [key|]; [|done]. cbn [fst snd app] in E, Hkeys, Hall.
    destruct (List.find _ more) as [[k i]|] eqn:Hf; [|done].
    apply List.find_some in Hf as [Hin Hb]. apply bool_decide_eq_true in Hb.
    apply list_elem_of_In in Hin. simpl in Hb. subst k.
    injection E as <- <-. split; [done|]. right.
    exists inputs, cs, key, i, more. simpl.
    apply Forall2_length in Hall as Hlen. rewrite Hlen in Hr.
    split_and!; try done; try lia; [by apply Hmore|by apply (Hkeys (key, i))].
  - case_bool_decide as Hk; [|done]. destruct correct; [done|].
    injection E as <- <-. split; [done|]. left. done.
Qed.
End SpecProofs.

(** ** The suggested score *)

Definition has_correct (p : uuid * ExamQuestion) : Prop := is_Some (q_correct p.2).
#[local] Instance has_correct_dec p : Decision (has_correct p).
Proof. unfold has_correct. apply _. Defined.

Definition is_hit (answers : list (uuid * ExamAnswer)) (p : uuid * ExamQuestion) : Prop :=
  ∃ correct a, q_correct p.2 = Some correct ∧ a ∈ answers ∧ hits p.1 correct a = true.
#[local] Instance is_hit_dec answers p : Decision (is_hit answers p).
Proof.
  destruct (q_correct p.2) as [c|] eqn:E; [|right; intros (? & ? & ? & _); congruence].
  destruct (existsb (hits p.1 c) answers) eqn:F.
  - left. apply existsb_exists in F as (a & Ha & Hh). exists c, a.
    split; [done|]. split; [by apply list_elem_of_In|done].
  - right. intros (c' & a & Hc & Ha & Hh). apply not_true_iff_false in F. apply F.
    apply existsb_exists. exists a. split; [by apply list_elem_of_In|congruence].
Defined.

Definition points_total (qs : list (uuid * ExamQuestion)) : Z := sumZ ((λ p, q_points p.2) <$> qs).

Lemma points_total_bounds qs :
  Forall (λ p : uuid * ExamQuestion, question_points_try_new (q_points p.2) = Ok (q_points p.2)) qs →
  0 ≤ points_total qs ≤ 100 * Z.of_nat (length qs).
Proof.
  unfold points_total. induction 1 as [|[i q] qs Hq _ IH]; [done|]. rewrite fmap_cons, sumZ_cons.
  assert (1 ≤ q_points q ≤ 100) as Hp.
  { unfold question_points_try_new, validate_question_points in Hq. simpl in Hq.
    destruct (in_range _ _ _) eqn:E; [|done]. by apply in_range_spec in E. }
  cbn [length snd]. lia.
Qed.

Lemma existsb_hits answers (i : uuid) q c :
  q_correct q = Some c → existsb (hits i c) answers = bool_decide (is_hit answers (i, q)).
Proof.
  intros Hc. apply eq_true_iff_eq. rewrite bool_decide_eq_true, existsb_exists. split.
  - intros (a & Ha & Hh). exists c, a. split; [done|]. split; [by apply list_elem_of_In|done].
  - intros (c' & a & Hc' & Ha & Hh). exists a. split; [by apply list_elem_of_In|].
    simpl in *. congruence.
Qed.

Lemma auto_score_from answers : ∀ qs earned possible,
  Forall (λ p : uuid * ExamQuestion, question_points_try_new (q_points p.2) = Ok (q_points p.2)) qs →
  0 ≤ earned ≤ possible → possible + 100 * Z.of_nat (length qs) ≤ i64_max →
  auto_score qs answers earned possible =
    (earned + points_total (filter (is_hit answers) qs),
     possible + points_total (filter has_correct qs)).
Proof.
  induction qs as [|[i q] qs IH]; intros earned possible Hv He Hp.
  - simpl. unfold points_total. simpl. unfold sumZ. simpl. f_equal; lia.
  - cbn [auto_score]. apply Forall_cons in Hv as [Hq Hv].
    pose proof (points_total_bounds [(i, q)] (Forall_cons_2 _ _ _ Hq (Forall_nil_2 _))) as Hb.
    unfold points_total in Hb. rewrite fmap_cons, sumZ_cons in Hb. cbn in Hb.
    change (sumZ []) with 0 in Hb.
    cbn [length] in Hp. rewrite !filter_cons.
    destruct (q_correct q) as [c|] eqn:Hc.
    + rewrite (existsb_hits _ _ _ _ Hc), (decide_True (P := has_correct (i, q))) by (by exists c).
      rewrite (i64_wrap_id (possible + _)) by (unfold_ints; lia).
      rewrite (i64_wrap_id (earned + _)) by (unfold_ints; lia).
      destruct (decide (is_hit answers (i, q))) as [Hh|Hh];
        [rewrite bool_decide_true by done|rewrite bool_decide_false by done];
        rewrite IH by (try done; unfold_ints; lia);
        unfold points_total; rewrite ?fmap_cons, ?sumZ_cons; cbn [snd]; f_equal; lia.
    + rewrite !decide_False; [apply IH; [done|done|lia]| |].
      * unfold has_correct. simpl. rewrite Hc. by intros [? ?].
      * intros (c & a & Hc' & _). simpl in Hc'. congruence.
Qed.

Lemma hit_has_correct answers p : is_hit answers p → has_correct p.
Proof. intros (c & a & Hc & _). by exists c. Qed.

Lemma points_total_filter_le answers qs :
  Forall (λ p : uuid * ExamQuestion, question_points_try_new (q_points p.2) = Ok (q_points p.2)) qs →
  points_total (filter (is_hit answers) qs) ≤ points_total (filter has_correct qs).
Proof.
  unfold points_total. induction 1 as [|p qs Hp _ IH]; [done|]. rewrite !filter_cons.
  pose proof (points_total_bounds [p] (Forall_cons_2 _ _ _ Hp (Forall_nil_2 _))) as Hb.
  unfold points_total in Hb. rewrite fmap_cons, sumZ_cons in Hb. cbn in Hb.
  change (sumZ []) with 0 in Hb.
  destruct (decide (is_hit answers p)) as [Hh|]; [rewrite decide_True by (by eapply hit_has_correct)|];
    [|destruct (decide (has_correct p))]; rewrite ?fmap_cons, ?sumZ_cons; lia.
Qed.

(** The suggested score never overflows and is what it says: the points of the
    questions with a correct choice that some answer hits, out of the points of
    all questions with one; a text question counts on neither side. *)
Theorem auto_score_exact qs answers :
  Forall (λ p : uuid * ExamQuestion, question_points_try_new (q_points p.2) = Ok (q_points p.2)) qs →
  Z.of_nat (length qs) ≤ 2 ^ 53 →
  let '(earned, possible) := auto_score qs answers 0 0 in
  earned = points_total (filter (is_hit answers) qs)
  ∧ possible = points_total (filter has_correct qs)
  ∧ 0 ≤ earned ≤ possible.
Proof.
  intros Hv Hl. rewrite auto_score_from by (try done; unfold_ints; lia).
  split; [done|]. split; [done|]. split; [|by apply Z.add_le_mono_l, points_total_filter_le].
  assert (0 ≤ points_total (filter (is_hit answers) qs)); [|lia].
  apply points_total_bounds. rewrite Forall_forall in Hv |- *.
  intros p [_ Hp]%list_elem_of_filter. by apply Hv.
Qed.

(** ** The mark of record *)

(** The pairs of [rows] in the order they first appear. *)
Definition see (order : list (uuid * uuid)) (r : MarkRow) : list (uuid * uuid) :=
  if decide (pair_of r ∈ order) then order else order ++ [pair_of r].
Definition first_seen (rows : list MarkRow) : list (uuid * uuid) := foldl see [] rows.

(** [r] is the mark of record of its pair. *)
Definition of_record (rows : list MarkRow) (r : MarkRow) : Prop :=
  r ∈ rows ∧ ∀ r', r' ∈ rows → pair_of r' = pair_of r → row_seq r' ≤ row_seq r.

(** The loop after the rows [past]. *)
Record best_ok (past : list MarkRow) (order : list (uuid * uuid))
    (best : gmap (uuid * uuid) MarkRow) : Prop := {
  bo_order : order = first_seen past;
  bo_nodup : NoDup order;
  bo_dom k : k ∈ order ↔ is_Some (best !! k);
  bo_best k r : best !! k = Some r → pair_of r = k ∧ of_record past r;
  bo_all r : r ∈ past → pair_of r ∈ order;
}.

Lemma of_record_old past r row :
  of_record past r → (pair_of row = pair_of r → row_seq row ≤ row_seq r) →
  of_record (past ++ [row]) r.
Proof.
  intros [Hin Hmax] Hrow. split; [apply elem_of_app; by left|].
  intros r' [Hr'| ->%list_elem_of_singleton]%elem_of_app; auto.
Qed.

Lemma of_record_new past row :
  (∀ r, r ∈ past → pair_of r = pair_of row → row_seq r ≤ row_seq row) →
  of_record (past ++ [row]) row.
Proof.
  intros Hmax. split; [apply elem_of_app; right; by apply list_elem_of_singleton|].
  intros r' [Hr'| ->%list_elem_of_singleton]%elem_of_app; [auto|done].
Qed.

Lemma best_ok_step past order best row :
  best_ok past order best →
  match best !! pair_of row with
  | Some existing =>
      if row_seq row <=? row_seq existing then best_ok (past ++ [row]) order best
      else best_ok (past ++ [row]) order (<[pair_of row := row]> best)
  | None => best_ok (past ++ [row]) (order ++ [pair_of row]) (<[pair_of row := row]> best)
  end.
Proof.
  intros B. pose proof (bo_order _ _ _ B) as Ho.
  assert (first_seen (past ++ [row]) = see order row) as Hsee
    by (unfold first_seen in *; rewrite foldl_snoc; by rewrite <-Ho).
  destruct (best !! pair_of row) as [ex|] eqn:E.
  - assert (pair_of row ∈ order) as Hin by (apply (bo_dom _ _ _ B); by eexists).
    destruct (bo_best _ _ _ B _ _ E) as [Hpe He].
    assert (see order row = order) as Hs by (unfold see; by rewrite decide_True).
    destruct (Z.leb_spec (row_seq row) (row_seq ex)) as [Hle|Hlt]; split.
    + congruence.
    + apply B.
    + apply B.
    + intros k r Hk. destruct (bo_best _ _ _ B _ _ Hk) as [<- Hr]. split; [done|].
      apply of_record_old; [done|]. intros Heq. rewrite Heq in E. naive_solver.
    + intros r [Hr| ->%list_elem_of_singleton]%elem_of_app; [by apply (bo_all _ _ _ B)|done].
    + congruence.
    + apply B.
    + intros k. rewrite (bo_dom _ _ _ B). destruct (decide (k = pair_of row)) as [->|Hne].
      * rewrite lookup_insert_eq, E. split; intros; by eexists.
      * by rewrite lookup_insert_ne.
    + intros k r. destruct (decide (k = pair_of row)) as [->|Hne].
      * rewrite lookup_insert_eq. intros [= <-]. split; [done|]. apply of_record_new.
        intros r Hr Heq. pose proof (proj2 He r Hr) as Hm. rewrite Hpe in Hm.
        specialize (Hm Heq). lia.
      * rewrite lookup_insert_ne by done. intros Hk.
        destruct (bo_best _ _ _ B _ _ Hk) as [<- Hr]. split; [done|].
        apply of_record_old; [done|]. intros Heq. by rewrite Heq in Hne.
    + intros r [Hr| ->%list_elem_of_singleton]%elem_of_app; [by apply (bo_all _ _ _ B)|done].
  - assert (pair_of row ∉ order) as Hin by (rewrite (bo_dom _ _ _ B), E; by intros [? ?]).
    assert (see order row = order ++ [pair_of row]) as Hs by (unfold see; by rewrite decide_False).
    split.
    + congruence.
    + apply NoDup_app. split; [apply B|]. split; [|apply NoDup_singleton].
      by intros k Hk ->%list_elem_of_singleton.
    + intros k. rewrite elem_of_app, list_elem_of_singleton, (bo_dom _ _ _ B).
      destruct (decide (k = pair_of row)) as [->|Hne].
      * rewrite lookup_insert_eq. naive_solver.
      * rewrite lookup_insert_ne by done. naive_solver.
    + intros k r. destruct (decide (k = pair_of row)) as [->|Hne].
      * rewrite lookup_insert_eq. intros [= <-]. split; [done|]. apply of_record_new.
        intros r Hr Heq. destruct Hin. rewrite <-Heq. by apply (bo_all _ _ _ B).
      * rewrite lookup_insert_ne by done. intros Hk.
        destruct (bo_best _ _ _ B _ _ Hk) as [<- Hr]. split; [done|].
        apply of_record_old; [done|]. intros Heq. by rewrite Heq in Hne.
    + intros r [Hr| ->%list_elem_of_singleton]%elem_of_app; apply elem_of_app;
        [left; by apply (bo_all _ _ _ B)|right; by apply list_elem_of_singleton].
Qed.

Lemma latest_loop_ok : ∀ rows past order best,
  best_ok past order best →
  let '(order', best') := latest_loop rows order best in
  best_ok (past ++ rows) order' best'.
Proof.
  induction rows as [|row rows IH]; intros past order best B; [by rewrite app_nil_r|].
  cbn [latest_loop]. pose proof (best_ok_step past order best row B) as Hs.
  rewrite (cons_middle row past rows), app_assoc.
  destruct (best !! pair_of row); [destruct (_ <=? _)|]; by apply IH.
Qed.

Lemma drain_ok : ∀ order best,
  NoDup order → (∀ k, k ∈ order → ∃ r, best !! k = Some r ∧ pair_of r = k) →
  ∃ out, drain order best = Some out ∧ pair_of <$> out = order
    ∧ ∀ r, r ∈ out → best !! pair_of r = Some r.
Proof.
  induction order as [|k order IH]; intros best Hnd Hall.
  - exists []. split; [done|]. split; [done|]. by intros r ?%elem_of_nil.
  - apply NoDup_cons in Hnd as [Hk Hnd].
    destruct (Hall k ltac:(left)) as (r & Hr & Hp).
    destruct (IH (delete k best)) as (out & Hd & Hf & Hin); [done| |].
    { intros k' Hk'. destruct (Hall k' ltac:(by right)) as (r' & Hr' & Hp').
      exists r'. rewrite lookup_delete_ne; [done|]. by intros ->. }
    exists (r :: out). split; [cbn [drain]; rewrite Hr; simpl; by rewrite Hd|]. split; [by rewrite fmap_cons, Hp, Hf|].
    intros r' [->|Hr']%elem_of_cons; [by rewrite Hp|]. specialize (Hin _ Hr').
    apply lookup_delete_Some in Hin. tauto.
Qed.

(** The marks report collapses retakes: it never fails, has exactly one row per
    (exam, user) pair, in the order the pairs first appear, and each is the
    pair's row with the highest sitting number. *)
Theorem latest_per_pair_exact rows :
  ∃ out, latest_per_pair rows = Some out
    ∧ pair_of <$> out = first_seen rows
    ∧ NoDup (pair_of <$> out)
    ∧ (∀ r, r ∈ rows → pair_of r ∈ pair_of <$> out)
    ∧ Forall (of_record rows) out.
Proof.
  unfold latest_per_pair.
  assert (best_ok [] [] ∅) as B0.
  { split; [done|apply NoDup_nil_2| | |].
    - intros k. rewrite elem_of_nil, lookup_empty. split; [done|by intros [? ?]].
    - intros k r. by rewrite lookup_empty.
    - by intros r ?%elem_of_nil. }
  pose proof (latest_loop_ok rows [] [] ∅ B0) as B. rewrite app_nil_l in B.
  destruct (latest_loop rows [] ∅) as [order best].
  destruct (drain_ok order best) as (out & Hd & Hf & Hin).
  - apply B.
  - intros k Hk. apply (bo_dom _ _ _ B) in Hk as [r Hr]. exists r. split; [done|].
    by destruct (bo_best _ _ _ B _ _ Hr).
  - exists out. split; [done|]. rewrite Hf. split; [by apply B|]. split; [apply B|].
    split; [apply B|]. apply Forall_forall. intros r Hr.
    by destruct (bo_best _ _ _ B _ _ (Hin _ Hr)).
Qed.

(** ** Wire keys *)

Section KeyProofs.
Context `{UuidText}.

(** The wire key of a sitting names it: two sittings of well-formed ids with
    the same key are the same sitting, the bare key of a first sitting included. *)
Theorem sitting_key_injective scope user seq scope' user' seq' :
  uuid_ok scope → uuid_ok user → uuid_ok scope' → uuid_ok user' →
  sitting_key (uuid_text scope) (uuid_text user) seq
    = sitting_key (uuid_text scope') (uuid_text user') seq' →
  scope = scope' ∧ user = user' ∧ seq = seq'.
Proof.
  intros Hs Hu Hs' Hu' E.
  set (tail z := if z =? 1 then [] else lit "_" ++ show_int z).
  assert (∀ s u z, sitting_key s u z = s ++ lit "_" ++ u ++ tail z) as Hk.
  { intros s u z. unfold sitting_key, tail. destruct (z =? 1); [by rewrite app_nil_r|done]. }
  rewrite !Hk in E.
  apply app_inj_1 in E as [E1 E]; [|by rewrite !uuid_text_length].
  apply app_inv_head in E.
  apply app_inj_1 in E as [E2 E]; [|by rewrite !uuid_text_length].
  apply uuid_text_inj in E1; [|done..]. apply uuid_text_inj in E2; [|done..].
  split; [done|]. split; [done|]. unfold tail in E.
  destruct (Z.eqb_spec seq 1), (Z.eqb_spec seq' 1); try done; [congruence|].
  apply app_inv_head in E. by apply (inj show_int).
Qed.
End KeyProofs.

(** ** Witnesses *)

Lemma schedule_exact_witness :
  schedule_try_new (Some (lit "async")) (Some 0) (Some 3600000) (Some 600000)
    = Ok (MkSchedule (Some (lit "async")) (Some 0) (Some 3600000) (Some 600000)).
Proof.
  apply (schedule_exact (Some (lit "async")) (Some 0) (Some 3600000) (Some 600000)).
  - intros m [= <-]. vm_compute. reflexivity.
  - split; [|split].
    + intros z [= <-]. unfold_ints. lia.
    + intros z [= <-]. unfold_ints. lia.
    + intros d [= <-]. vm_compute. reflexivity.
  - split; [|reflexivity]. right. right. exists 0, 3600000, 600000.
    split_and!; solve [reflexivity | lia].
Defined.

Definition demo_inputs : list ChoiceInput :=
  [MkInput (Some (lit "b")) (lit "Ankara"); MkInput (Some (lit "new")) (lit "Izmir");
   MkInput None (lit "Bursa")].
Definition demo_existing : list Choice := [MkChoice (lit "a") (lit "old"); MkChoice (lit "b") (lit "old")].

Definition demo_ids (n : nat) : N := N.of_nat n.
Definition demo_world : World () := quiet () (λ _, 0) demo_ids.

Lemma demo_supply : supply_ok (H := hyphenated) demo_ids demo_existing.
Proof.
  unfold SUPPLY, demo_ids. split_and!.
  - intros n Hn. unfold SUPPLY, uuid_ok in *. lia.
  - intros m n _ _ E. lia.
  - intros n _ Hin.
    pose proof (uuid_text_length (UuidText := hyphenated) (N.of_nat n)) as Hl.
    apply list_elem_of_fmap in Hin as (c & E & Hc). rewrite E in Hl.
    unfold demo_existing in Hc.
    apply elem_of_cons in Hc as [->|Hc]; [discriminate Hl|].
    apply elem_of_cons in Hc as [->|Hc]; [discriminate Hl|]. by apply elem_of_nil in Hc.
Qed.

Lemma spec_sound_witness :
  ∃ spec, (spec_try_new (H := hyphenated) (lit "choice") (Some demo_inputs) (Some (lit "b"))
             demo_existing demo_world).1 = Ok spec
    ∧ spec_correct spec = Some (lit "b")
    ∧ spec_kind spec = lit "choice".
Proof.
  destruct (spec_try_new (H := hyphenated) (lit "choice") (Some demo_inputs) (Some (lit "b"))
             demo_existing demo_world) as [r w'] eqn:E.
  assert (option_map spec_correct (match r with Ok s => Some s | Err _ => None end)
            = Some (Some (lit "b"))) as Hc.
  { change r with (fst (r, w')). rewrite <-E. vm_compute. reflexivity. }
  destruct r as [spec|e]; [|discriminate Hc]. exists spec. injection Hc as Hc.
  split; [reflexivity|]. split; [exact Hc|].
  exact (proj1 (spec_sound (H := hyphenated) _ _ _ demo_existing demo_world spec w' demo_supply
    ltac:(unfold SUPPLY; cbn; lia) E)).
Defined.

Definition demo_question (points : Z) (correct : option str) : ExamQuestion :=
  MkQuestion 1%N 2%N [] (lit "choice") points None correct None None.
Definition demo_questions : list (uuid * ExamQuestion) :=
  [(1%N, demo_question 10 (Some (lit "a"))); (2%N, demo_question 30 (Some (lit "b")));
   (3%N, demo_question 50 None)].
Definition demo_answers : list (uuid * ExamAnswer) :=
  [(1%N, MkAnswer 1%N (Some (lit "a")) None 0); (2%N, MkAnswer 1%N (Some (lit "c")) None 0)].

Lemma auto_score_exact_witness :
  auto_score demo_questions demo_answers 0 0 = (10, 40)
  ∧ 0 ≤ 10 ≤ 40.
Proof.
  split; [vm_compute; reflexivity|].
  pose proof (auto_score_exact demo_questions demo_answers
    ltac:(repeat constructor) ltac:(cbn; lia)) as H.
  exact (proj2 (proj2 H)).
Defined.

Lemma sitting_key_injective_witness :
  sitting_key (uuid_text (UuidText := hyphenated) 7%N) (uuid_text (UuidText := hyphenated) 9%N) 2
    = lit "00000000-0000-0000-0000-000000000007_00000000-0000-0000-0000-000000000009_2"
  ∧ 7%N = 7%N.
Proof.
  split; [vm_compute; reflexivity|].
  exact (proj1 (sitting_key_injective (H := hyphenated) 7%N 9%N 2 7%N 9%N 2
    ltac:(unfold uuid_ok; lia) ltac:(unfold uuid_ok; lia) ltac:(unfold uuid_ok; lia)
    ltac:(unfold uuid_ok; lia) eq_refl)).
Defined.
