(* ===== verification/Exams.v ===== *)
(** * Exams ([src/db/exam.rs], [src/db/exam_attempt.rs], [src/db/exam_answer.rs],
    [src/db/exam_question.rs], [src/db/exam_result.rs], [src/service/exam.rs],
    [src/service/exam_attempt.rs], [src/service/exam_question.rs],
    [src/service/exam_result.rs])

    The tables of an exam and every operation on them: a sitting started,
    walked out of and submitted; answers saved into it; questions frozen once
    anyone sat; marks given and taken back with the counters that ride on them;
    the exam itself merged, compare-and-swapped and deleted. A transaction whose
    first statement locks the exam row is one step. *)

From S2P Require Import Prelude Text Errors Effects Uuid Validate Modules Badges ExamForms.
Open Scope Z_scope.

Definition CAS_UPDATE_RETRIES : nat := 3.
Definition HIGH_MARK_MIN : Z := 90.

(** ** Tables *)

Record ExamRow := MkExamRow { exam : Exam; result_count : Z }.

(** An [app_user] row: the role and the lifetime counters. *)
Record Account := MkAccount { role : Role; stats : BadgeStats }.

(** What the rest of the school says of an exam's class, and these operations
    only read. *)
Record School := MkSchool {
  instance_class : gmap uuid uuid;
  instance_course : gmap uuid uuid;
  class_delivered : gmap uuid bool;
  class_year : gmap uuid (option uuid);
  year_archived : gmap uuid bool;
  term_year : gmap uuid uuid;
  enrolled_in : gset (uuid * uuid);
  offered_kinds : list str;
}.

Record Tables := MkTables {
  school : School;
  exams : gmap uuid ExamRow;
  (** Keyed (exam, user, seq). *)
  attempts : gmap (uuid * uuid * Z) ExamAttempt;
  (** Keyed (question, user, seq). *)
  answers : gmap (uuid * uuid * Z) ExamAnswer;
  (** Keyed (exam, user, seq). *)
  results : gmap (uuid * uuid * Z) ExamResult;
  questions : gmap uuid ExamQuestion;
  (** (exam, question, file). *)
  question_images : list (uuid * uuid * str);
  answer_images : list (uuid * uuid * str);
  (** [kind_ref]: count and retired. *)
  kind_refs : gmap str (Z * bool);
  (** [subject.exam_question_count]. *)
  subject_refs : gmap uuid Z;
  (** [term.exam_count]. *)
  term_refs : gmap uuid Z;
  (** [bank_question.source_exam]. *)
  bank_sources : gmap uuid (option uuid);
  (** (exam, class_course). *)
  audience : gset (uuid * uuid);
  accounts : gmap uuid Account;
  award_rows : gmap (uuid * string) Z;
}.

Definition set_exams f t : Tables := MkTables (school t) (f (exams t)) (attempts t) (answers t)
  (results t) (questions t) (question_images t) (answer_images t) (kind_refs t) (subject_refs t)
  (term_refs t) (bank_sources t) (audience t) (accounts t) (award_rows t).
Definition set_attempts f t : Tables := MkTables (school t) (exams t) (f (attempts t)) (answers t)
  (results t) (questions t) (question_images t) (answer_images t) (kind_refs t) (subject_refs t)
  (term_refs t) (bank_sources t) (audience t) (accounts t) (award_rows t).
Definition set_answers f t : Tables := MkTables (school t) (exams t) (attempts t) (f (answers t))
  (results t) (questions t) (question_images t) (answer_images t) (kind_refs t) (subject_refs t)
  (term_refs t) (bank_sources t) (audience t) (accounts t) (award_rows t).
Definition set_results f t : Tables := MkTables (school t) (exams t) (attempts t) (answers t)
  (f (results t)) (questions t) (question_images t) (answer_images t) (kind_refs t)
  (subject_refs t) (term_refs t) (bank_sources t) (audience t) (accounts t) (award_rows t).
Definition set_questions f t : Tables := MkTables (school t) (exams t) (attempts t) (answers t)
  (results t) (f (questions t)) (question_images t) (answer_images t) (kind_refs t)
  (subject_refs t) (term_refs t) (bank_sources t) (audience t) (accounts t) (award_rows t).
Definition set_images f g t : Tables := MkTables (school t) (exams t) (attempts t) (answers t)
  (results t) (questions t) (f (question_images t)) (g (answer_images t)) (kind_refs t)
  (subject_refs t) (term_refs t) (bank_sources t) (audience t) (accounts t) (award_rows t).
Definition set_kind_refs f t : Tables := MkTables (school t) (exams t) (attempts t) (answers t)
  (results t) (questions t) (question_images t) (answer_images t) (f (kind_refs t))
  (subject_refs t) (term_refs t) (bank_sources t) (audience t) (accounts t) (award_rows t).
Definition set_subject_refs f t : Tables := MkTables (school t) (exams t) (attempts t) (answers t)
  (results t) (questions t) (question_images t) (answer_images t) (kind_refs t)
  (f (subject_refs t)) (term_refs t) (bank_sources t) (audience t) (accounts t) (award_rows t).
Definition set_links f g h t : Tables := MkTables (school t) (exams t) (attempts t) (answers t)
  (results t) (questions t) (question_images t) (answer_images t) (kind_refs t) (subject_refs t)
  (f (term_refs t)) (g (bank_sources t)) (h (audience t)) (accounts t) (award_rows t).
Definition set_accounts f t : Tables := MkTables (school t) (exams t) (attempts t) (answers t)
  (results t) (questions t) (question_images t) (answer_images t) (kind_refs t) (subject_refs t)
  (term_refs t) (bank_sources t) (audience t) (f (accounts t)) (award_rows t).

#[export] Instance exam_badges : BadgeStore Tables := {
  stats_of t u := stats <$> accounts t !! u;
  awards := award_rows;
  set_awards a t := MkTables (school t) (exams t) (attempts t) (answers t) (results t)
    (questions t) (question_images t) (answer_images t) (kind_refs t) (subject_refs t)
    (term_refs t) (bank_sources t) (audience t) (accounts t) a;
  awards_set _ _ := eq_refl;
  stats_of_set _ _ _ := eq_refl;
}.

(** One statement, with its own verdict. *)
Definition sql {A} (f : Tables → result AppError (A * Tables)) : tx Tables A := f.

(** ** Gates every exam route shares *)

Definition read_exam (e : uuid) : tx Tables (option Exam) := gets (λ t, exam <$> exams t !! e).

Definition archived_error : AppError :=
  ConflictCoded "academic_year_archived"
    (lit "this academic year is archived — past years are read-only").

(** [class_course::require_open]: the instance's class, its year, its archived bit. *)
Definition instance_open (cc : uuid) : io Tables () :=
  class ← atomic (gets (λ t, instance_class (school t) !! cc));
  match class with
  | None => mret ()
  | Some c =>
      year ← atomic (gets (λ t, mjoin (class_year (school t) !! c)));
      match year with
      | None => mret ()
      | Some y =>
          archived ← atomic (gets (λ t, year_archived (school t) !! y));
          match archived with
          | Some true => raise archived_error
          | _ => mret ()
          end
      end
  end.

(** [exam_attempt::require_open]. *)
Definition require_open (ex : Exam) : io Tables () :=
  instance ← atomic (gets (λ t, instance_class (school t) !! class_course ex));
  match instance with
  | None => raise (Internal (lit "exam references a missing class instance"))
  | Some _ => instance_open (class_course ex)
  end.

(** [exam_audience::enrolled]. *)
Definition enrolled (t : Tables) (e u : uuid) : bool :=
  bool_decide (filter (λ p : uuid * uuid, p.1 = e ∧ (p.2, u) ∈ enrolled_in (school t))
                 (audience t) ≠ ∅).

Definition ensure_enrolled (e u : uuid) : io Tables () :=
  there ← atomic (gets (λ t, enrolled t e u));
  if there : bool then mret () else raise (Forbidden "you are not enrolled in this exam's course").

Definition ensure_sittable (ex : Exam) : result AppError () :=
  if draft ex then Err NotFound else
  match mode (schedule ex) with
  | None => Err (Conflict "this exam is not scheduled — there is nothing to sit (give it a mode: sync, async, or open)")
  | Some _ => Ok ()
  end.

Definition ensure_student (r : Role) : result AppError () :=
  if bool_decide (r = Student) then Ok () else Err (Forbidden "only students can sit exams").

Definition ensure_student_now (u : uuid) : io Tables () :=
  row ← atomic (gets (λ t, accounts t !! u));
  account ← lift (ok_or row Unauthorized);
  lift (ensure_student (role account)).

(** ** Sittings *)

Abbreviation Sitting := (Z * ExamAttempt)%type.

Definition newer (a b : Sitting) : Prop := b.1 ≤ a.1.
#[export] Instance newer_dec a b : Decision (newer a b).
Proof. unfold newer. apply _. Defined.

(** The sittings of a pair, [ORDER BY seq DESC]. *)
Definition sittings (t : Tables) (e u : uuid) : list Sitting :=
  merge_sort newer ((λ p : uuid * uuid * Z * ExamAttempt, (p.1.2, p.2)) <$>
    filter (λ p : uuid * uuid * Z * ExamAttempt, p.1.1 = (e, u)) (map_to_list (attempts t))).

Definition list_for_user (e u : uuid) : tx Tables (list Sitting) := gets (λ t, sittings t e u).
Definition read_latest_for_user (e u : uuid) : tx Tables (option Sitting) :=
  gets (λ t, head (sittings t e u)).

Definition sat (t : Tables) (e : uuid) : bool :=
  existsb (λ p, bool_decide (p.1.1.1 = e)) (map_to_list (attempts t)).
Definition any_for_exam (e : uuid) : tx Tables bool := gets (λ t, sat t e).

Definition guard_start (e : uuid) (t_now : Z) : tx Tables () :=
  row ← read_exam e;
  match row with
  | None => refuse NotFound
  | Some ex =>
      if draft ex then refuse NotFound else
      match mode (schedule ex) with
      | None => refuse (Conflict "this exam is not scheduled — there is nothing to sit (give it a mode: sync, async, or open)")
      | Some _ =>
          if match starts_at (schedule ex) with Some s => t_now <? s | None => false end
          then refuse (Conflict "the exam has not started yet") else
          if match ends_at (schedule ex) with Some s => s <=? t_now | None => false end
          then refuse (Conflict "the exam has already ended") else mret ()
      end
  end.

(** One column of an account's counters. *)
Definition bump_exam_sat (n : Z) (a : Account) : Account :=
  let s := stats a in
  MkAccount (role a) (MkStats (homework_submitted s) (homework_on_time s) (exam_sat s + n)
    (pomodoro_finished s) (pomodoro_focus_ms s) (marks_given s) (lessons_held s)
    (pool_approved s) (pool_published s) (lessons_attended s) (high_mark s) (study_streak s)).
Definition with_marks_given (f : Z → Z) (a : Account) : Account :=
  let s := stats a in
  MkAccount (role a) (MkStats (homework_submitted s) (homework_on_time s) (exam_sat s)
    (pomodoro_finished s) (pomodoro_focus_ms s) (f (marks_given s)) (lessons_held s)
    (pool_approved s) (pool_published s) (lessons_attended s) (high_mark s) (study_streak s)).
Definition with_high_mark (f : Z → Z) (a : Account) : Account :=
  let s := stats a in
  MkAccount (role a) (MkStats (homework_submitted s) (homework_on_time s) (exam_sat s)
    (pomodoro_finished s) (pomodoro_focus_ms s) (marks_given s) (lessons_held s)
    (pool_approved s) (pool_published s) (lessons_attended s) (f (high_mark s)) (study_streak s)).

(** [create_in]: the seat and the row in one statement. A taken number aborts the
    transaction, whose commit then applies nothing. *)
Definition create_in (e u : uuid) (seq started : Z) (count_sitting : bool)
    : tx Tables (Claimed Sitting) := λ t,
  match accounts t !! u with
  | None => Ok (Full, t)
  | Some _ =>
      match attempts t !! (e, u, seq) with
      | Some _ => Ok (Duplicate, t)
      | None =>
          let a := MkAttempt started None None in
          Ok (Made (seq, a),
              set_attempts <[(e, u, seq) := a]>
                (set_accounts (alter (bump_exam_sat (if count_sitting then 1 else 0)) u) t))
      end
  end.

Definition create_attempt (e u : uuid) (seq started : Z) (count_sitting : bool) (t_now : Z)
    : tx Tables (Claimed Sitting) :=
  _ ← guard_start e t_now;
  create_in e u seq started count_sitting.

(** The second half of [start], once the number is chosen. *)
Definition open_sitting (e : uuid) (ex : Exam) (u : uuid) (next_seq : Z)
    : io Tables (Sitting * bool) :=
  started ← now;
  let first := next_seq =? 1 in
  t_now ← now;
  claimed ← atomic (create_attempt e u next_seq started first t_now);
  match claimed with
  | Made created =>
      _ ← (if first then attempt (sync u) else mret (Ok ()));
      mret (created, true)
  | Duplicate =>
      row ← atomic (read_latest_for_user e u);
      match row with
      | Some existing =>
          t_now ← now;
          if bool_decide (attempt_status existing.2 (schedule ex) t_now = InProgress)
          then mret (existing, false)
          else raise (Internal (lit "failed to start exam attempt"))
      | None => raise (Internal (lit "failed to start exam attempt"))
      end
  | Full => raise (Internal
      (lit "cannot start an exam attempt: the student's account row is missing"))
  end.

Definition start (e : uuid) (ex : Exam) (u : uuid) : io Tables (Sitting * bool) :=
  attempts ← atomic (list_for_user e u);
  match attempts with
  | [] => open_sitting e ex u 1
  | latest :: _ =>
      t_now ← now;
      if bool_decide (attempt_status latest.2 (schedule ex) t_now = InProgress)
      then mret (latest, false) else
      if negb (allows_another (max_attempts ex) (length attempts))
      then raise (Conflict "no attempts remaining — this exam's attempt limit is used up")
      else open_sitting e ex u (i64_wrap (latest.1 + 1))
  end.

Definition start_attempt (e u : uuid) (caller : Role) : io Tables (Exam * Sitting * bool) :=
  row ← atomic (read_exam e);
  ex ← lift (ok_or row NotFound);
  _ ← lift (ensure_sittable ex);
  _ ← lift (ensure_student caller);
  _ ← ensure_enrolled e u;
  _ ← require_open ex;
  t_now ← now;
  if match starts_at (schedule ex) with Some s => t_now <? s | None => false end
  then raise (Conflict "the exam has not started yet") else
  if match ends_at (schedule ex) with Some s => s <=? t_now | None => false end
  then raise (Conflict "the exam has already ended") else
  r ← start e ex u;
  mret (ex, r.1, r.2).

Definition update_attempt (e u : uuid) (seq : Z) (f : ExamAttempt → ExamAttempt)
    : tx Tables Sitting := λ t,
  match attempts t !! (e, u, seq) with
  | None => Err NotFound
  | Some a => Ok ((seq, f a), set_attempts <[(e, u, seq) := f a]> t)
  end.

(** [finish] and [set_left] each write their own column. *)
Definition finish (e u : uuid) (seq : Z) : io Tables Sitting :=
  t_now ← now;
  atomic (update_attempt e u seq (λ a, MkAttempt (started_at a) (Some t_now) (left_at a))).

Definition set_left (e u : uuid) (seq : Z) (left : option Z) : io Tables Sitting :=
  atomic (update_attempt e u seq (λ a, MkAttempt (started_at a) (finished_at a) left)).

(** The guard of [stamp_left_if_running], on the sitting and its exam. *)
Definition still_running (a : ExamAttempt) (s : ExamSchedule) (t_now : Z) : bool :=
  negb (is_some (left_at a)) && negb (is_some (finished_at a))
  && match duration_ms s with Some d => t_now <? started_at a + d | None => true end
  && (is_some (duration_ms s)
      || match ends_at s with Some ends => t_now <? ends | None => true end).

Definition stamp_left_if_running (e u : uuid) (seq t_now : Z) : tx Tables () := λ t,
  match exams t !! e, attempts t !! (e, u, seq) with
  | Some row, Some a =>
      if still_running a (schedule (exam row)) t_now
      then Ok ((), set_attempts <[(e, u, seq) := MkAttempt (started_at a) (finished_at a) (Some t_now)]> t)
      else Ok ((), t)
  | _, _ => Ok ((), t)
  end.

Definition finish_attempt (e : uuid) (ex : Exam) (u : uuid) : io Tables Sitting :=
  row ← atomic (read_latest_for_user e u);
  latest ← lift (ok_or row NotFound);
  if is_some (finished_at latest.2) then raise (Conflict "the attempt is already submitted") else
  t_now ← now;
  if match deadline latest.2 (schedule ex) with Some d => d <=? t_now | None => false end
  then raise (Conflict "time is up — the attempt has expired") else
  _ ← require_open ex;
  finish e u latest.1.

Definition writable_attempt (e : uuid) (ex : Exam) (u : uuid) : io Tables Sitting :=
  row ← atomic (read_latest_for_user e u);
  latest ← lift (ok_or row NotFound);
  t_now ← now;
  match attempt_status latest.2 (schedule ex) t_now with
  | Submitted => raise (Conflict "the attempt is already submitted")
  | Expired => raise (Conflict "time is up — the attempt has expired")
  | InProgress => mret latest
  end.

Definition check_rejoin (ex : Exam) (a : ExamAttempt) : result AppError () :=
  if is_some (left_at a) && negb (allow_rejoin ex)
  then Err (Conflict "you left the exam and rejoin is closed — ask your teacher to reopen it")
  else Ok ().

(** ** Answers *)

(** The payload rules of [exam_answer::save]. *)
Definition check_answer (q : ExamQuestion) (selected text : option str)
    : result AppError (option str * option str) :=
  let invalid f r := Err (Validation (Invalid f r)) in
  if bool_decide (q_kind q = lit "choice") then
    if is_some text
    then invalid "text"%string "a choice question takes selected, not text"%string else
    match selected with
    | None => invalid "selected"%string "required for a choice question"%string
    | Some s =>
        match List.find (λ c, bool_decide (choice_id c = s)) (default [] (q_choices q)) with
        | None => invalid "selected"%string "must name one of the question's choices"%string
        | Some c => Ok (Some (choice_id c), None)
        end
    end
  else
    if is_some selected
    then invalid "selected"%string "a text question takes text, not selected"%string else
    match text with
    | None => invalid "text"%string "required for a text question"%string
    | Some s => s ← checked (answer_text_try_new s); Ok (None, Some s)
    end.

(** [save_in]: the exam row is locked, then the answer upserted; the foreign key
    refuses an answer to a question that is gone. The clock is read between the
    two statements, with the row locked. *)
Definition save_in (q : uuid) (e u : uuid) (seq : Z) (selected text : option str) (t_now : Z)
    : tx Tables ExamAnswer := λ t,
  match exams t !! e with
  | None => Err NotFound
  | Some _ =>
      match questions t !! q, accounts t !! u with
      | Some row, Some _ =>
          if bool_decide (q_exam row = e) then
            let a := MkAnswer e selected text t_now in
            Ok (a, set_answers <[(q, u, seq) := a]> t)
          else Err fk_violation
      | _, _ => Err fk_violation
      end
  end.

Definition save (q : uuid) (question : ExamQuestion) (u : uuid) (seq : Z) (selected text : option str)
    : io Tables ExamAnswer :=
  payload ← lift (check_answer question selected text);
  t_now ← now;
  atomic (save_in q (q_exam question) u seq payload.1 payload.2 t_now).

(** [question_of_exam], over an id already parsed. *)
Definition question_of_exam (e q : uuid) : io Tables ExamQuestion :=
  row ← atomic (gets (λ t, questions t !! q));
  question ← lift (ok_or row NotFound);
  if negb (bool_decide (q_exam question = e)) then raise NotFound else mret question.

Definition save_answer_in (e : uuid) (ex : Exam) (u : uuid) (sitting : Sitting) (q : uuid)
    (selected text : option str) : io Tables ExamAnswer :=
  _ ← ensure_student_now u;
  _ ← ensure_enrolled e u;
  _ ← lift (check_rejoin ex sitting.2);
  _ ← require_open ex;
  question ← question_of_exam e q;
  save q question u sitting.1 selected text.

Definition save_answer_checked (e : uuid) (ex : Exam) (u : uuid) (caller : Role) (q : uuid)
    (selected text : option str) : io Tables ExamAnswer :=
  _ ← lift (ensure_student caller);
  sitting ← writable_attempt e ex u;
  save_answer_in e ex u sitting q selected text.

(** ** Questions *)

Definition frozen_error : AppError :=
  Conflict "cannot change questions after attempts have started".

Definition ensure_questions_editable (e : uuid) : io Tables () :=
  any ← atomic (any_for_exam e);
  if any : bool then raise frozen_error else mret ().

(** [freeze_gate]: the exam row is locked, and nobody has sat. *)
Definition freeze_gate (e : uuid) : tx Tables () :=
  row ← read_exam e;
  match row with
  | None => refuse NotFound
  | Some _ => any ← any_for_exam e; if any : bool then refuse frozen_error else mret ()
  end.

Definition dead_subject : AppError :=
  Validation (Invalid "subject_id" "subject does not exist").

(** [UPDATE subject SET exam_question_count = exam_question_count + 1]. *)
Definition claim_subject (s : uuid) : tx Tables () := λ t,
  match subject_refs t !! s with
  | None => Err dead_subject
  | Some n => Ok ((), set_subject_refs <[s := n + 1]> t)
  end.
Definition release_subject (s : uuid) (n : Z) (t : Tables) : Tables :=
  set_subject_refs (alter (λ c, Z.max (c - n) 0) s) t.

Definition insert_question (i : uuid) (q : ExamQuestion) : tx Tables (uuid * ExamQuestion) :=
  _ ← freeze_gate (q_exam q);
  _ ← claim_subject (q_subject q);
  sql (λ t, match questions t !! i with
       | Some _ => Err (from_driver (Database (Some "23505"%string) []))
       | None => Ok ((i, q), set_questions <[i := q]> t)
       end).

Definition insert (e subject : uuid) (text : str) (points : Z) (spec : QuestionSpec)
    (from_bank : option uuid) : io Tables (uuid * ExamQuestion) :=
  i ← fresh;
  atomic (insert_question i
    (MkQuestion e subject text (spec_kind spec) points (spec_choices spec) (spec_correct spec)
       from_bank None)).

Definition create_question (e subject : uuid) (text : str) (points : Z) (spec : QuestionSpec) :=
  insert e subject text points spec None.
Definition create_from_bank (e subject : uuid) (text : str) (points : Z) (spec : QuestionSpec)
    (source : uuid) :=
  insert e subject text points spec (Some source).

(** [update]'s transaction, from the row the handler read. *)
Definition update_question_tx (i : uuid) (read : ExamQuestion) (subject : uuid) (text : str)
    (points : Z) (spec : QuestionSpec) : tx Tables (uuid * ExamQuestion) :=
  _ ← freeze_gate (q_exam read);
  _ ← (if bool_decide (subject = q_subject read) then mret () else
         _ ← writes (λ t, ((), release_subject (q_subject read) 1 t));
         claim_subject subject);
  sql (λ t, match questions t !! i with
       | None => Err NotFound
       | Some row =>
           if bool_decide (q_subject row = q_subject read) then
             let q := MkQuestion (q_exam row) subject text (spec_kind spec) points
                        (spec_choices spec) (spec_correct spec) (q_from_bank row) (q_banked_as row) in
             Ok ((i, q), set_questions <[i := q]> t)
           else Err (Conflict "the subject this question was read on changed since; re-read and retry")
       end).

Definition update_question (i : uuid) (read : ExamQuestion) (subject : uuid) (text : str)
    (points : Z) (spec : QuestionSpec) : io Tables (uuid * ExamQuestion) :=
  atomic (update_question_tx i read subject text points spec).

Definition link_banked_as (i template : uuid) : io Tables (uuid * ExamQuestion) :=
  atomic (λ t, match questions t !! i with
    | None => Err NotFound
    | Some row =>
        let q := MkQuestion (q_exam row) (q_subject row) (q_text row) (q_kind row) (q_points row)
                   (q_choices row) (q_correct row) (q_from_bank row) (Some template) in
        Ok ((i, q), set_questions <[i := q]> t)
    end).

(** The share of [bank_question::delete] that reaches the questions: the links to
    the template clear, in both directions, on whatever exam. *)
Definition unlink_template (template : uuid) (q : ExamQuestion) : ExamQuestion :=
  let cleared x := if bool_decide (x = Some template) then None else x in
  MkQuestion (q_exam q) (q_subject q) (q_text q) (q_kind q) (q_points q) (q_choices q) (q_correct q)
    (cleared (q_from_bank q)) (cleared (q_banked_as q)).
Definition unlink_template_tx (template : uuid) : tx Tables () :=
  writes (λ t, ((), set_questions (fmap (unlink_template template)) t)).

(** The deletes answer the rows they removed; a picture of an answer still holds
    its question by the foreign key. *)
Definition delete_question_tx (i : uuid) (read : ExamQuestion) : tx Tables (uuid * ExamQuestion) :=
  _ ← freeze_gate (q_exam read);
  _ ← writes (λ t, ((), set_answers (filter (λ p, p.1.1.1 ≠ i)) t));
  _ ← writes (λ t, ((), set_images (filter (λ p : uuid * uuid * str, p.1.2 ≠ i)) id t));
  sql (λ t, match questions t !! i with
       | None => Err NotFound
       | Some row =>
           if existsb (λ p : uuid * uuid * str, bool_decide (p.1.2 = i)) (answer_images t)
           then Err fk_violation
           else Ok ((i, row), release_subject (q_subject row) 1 (set_questions (delete i) t))
       end).

Definition delete_question (i : uuid) (read : ExamQuestion) : io Tables (uuid * ExamQuestion) :=
  atomic (delete_question_tx i read).

(** ** Marks *)

Definition draft_error : AppError :=
  Conflict "this exam is a draft — publish it before grading".
Definition retired_kind_error (k : str) : AppError :=
  ConflictOwned (lit "the '" ++ k ++ lit "' exam kind has been removed from the school's settings — add it back before grading this exam").

(** The claim of [kind_ref]: minted absent, refused retired. *)
Definition claim_kind (k : str) : tx Tables () := λ t,
  match kind_refs t !! k with
  | None => Ok ((), set_kind_refs <[k := (1, false)]> t)
  | Some (n, retired) =>
      if retired : bool then Err (retired_kind_error k)
      else Ok ((), set_kind_refs <[k := (n + 1, retired)]> t)
  end.

Definition with_results (f : Z → Z) (row : ExamRow) : ExamRow :=
  MkExamRow (exam row) (f (result_count row)).

Definition is_high (m : Z) : Z := if HIGH_MARK_MIN <=? m then 1 else 0.

Definition grade_tx (e u : uuid) (seq mark : Z) (graded_by : uuid) (kind_ : str)
    : tx Tables ExamResult :=
  row ← read_exam e;
  ex ← decide_tx (ok_or row NotFound);
  if draft ex then refuse draft_error else
  before ← gets (λ t, r_mark <$> results t !! (e, u, seq));
  _ ← match before with
      | Some _ => mret ()
      | None =>
          _ ← claim_kind kind_;
          writes (λ t, ((),
            set_accounts (alter (with_marks_given (Z.add 1)) graded_by)
              (set_exams (alter (with_results (Z.add 1)) e) t)))
      end;
  let high := is_high mark - is_high (default (-1) before) in
  _ ← writes (λ t, ((),
        if high =? 0 then t
        else set_accounts (alter (with_high_mark (λ n, Z.max (n + high) 0)) u) t));
  sql (λ t, match accounts t !! u, accounts t !! graded_by with
       | Some _, Some _ =>
           let r := MkResult mark graded_by in
           Ok (r, set_results <[(e, u, seq) := r]> t)
       | _, _ => Err fk_violation
       end).

(** The service's gates, then the sitting the mark lands on. *)
Definition grade (e grader target : uuid) (mark : Z) : io Tables ExamResult :=
  row ← atomic (read_exam e);
  ex ← lift (ok_or row NotFound);
  _ ← require_open ex;
  if draft ex then raise draft_error else
  offered ← atomic (gets (λ t, offered_kinds (school t)));
  if negb (bool_decide (kind ex ∈ offered)) then raise (retired_kind_error (kind ex)) else
  mark ← lift (checked (mark_try_new mark));
  if bool_decide (target = grader) then raise (Forbidden "grading yourself is not allowed") else
  row ← atomic (gets (λ t, accounts t !! target));
  account ← lift (ok_or row (Validation (Invalid "user_id" "target user does not exist")));
  if negb (bool_decide (role account = Student))
  then raise (Validation (Invalid "user_id" "only students can be graded")) else
  there ← atomic (gets (λ t, enrolled t e target));
  if negb there
  then raise (Validation (Invalid "user_id" "target user is not enrolled in this course")) else
  latest ← atomic (read_latest_for_user e target);
  let seq := match latest with Some a => a.1 | None => 1 end in
  result ← atomic (grade_tx e target seq mark grader (kind ex));
  _ ← attempt (sync grader);
  _ ← attempt (sync target);
  mret result.

(** The marks of one pair, by number. *)
Definition marks_of (t : Tables) (e u : uuid) : list (Z * ExamResult) :=
  (λ p : uuid * uuid * Z * ExamResult, (p.1.2, p.2)) <$>
    filter (λ p : uuid * uuid * Z * ExamResult, p.1.1 = (e, u)) (map_to_list (results t)).

(** The grouping loop over the deleted rows, and the refunds it drives. *)
Fixpoint tally (grader : uuid) (groups : list (uuid * Z)) : list (uuid * Z) :=
  match groups with
  | [] => [(grader, 1)]
  | (g, n) :: rest =>
      if bool_decide (g = grader) then (g, n + 1) :: rest else (g, n) :: tally grader rest
  end.
Definition per_grader (gone : list (Z * ExamResult)) : list (uuid * Z) :=
  foldl (λ groups r, tally (r_graded_by r.2) groups) [] gone.

Fixpoint refund (groups : list (uuid * Z)) (t : Tables) : Tables :=
  match groups with
  | [] => t
  | (g, n) :: rest =>
      refund rest (set_accounts (alter (with_marks_given (λ m, Z.max (m - n) 0)) g) t)
  end.

Definition high_marks (gone : list (Z * ExamResult)) : Z :=
  Z.of_nat (length (filter (λ r : Z * ExamResult, HIGH_MARK_MIN ≤ r_mark r.2) gone)).

Definition by_seq (a b : Z * ExamResult) : Prop := a.1 ≤ b.1.
#[export] Instance by_seq_dec a b : Decision (by_seq a b).
Proof. unfold by_seq. apply _. Defined.

Definition remove_marks (e u : uuid) (kind_ : str) : tx Tables (option (Z * ExamResult)) := λ t,
  let gone := merge_sort by_seq (marks_of t e u) in
  if bool_decide (gone = []) then Ok (None, t) else
  let n := Z.of_nat (length gone) in
  let t := set_results (filter (λ p, p.1.1 ≠ (e, u))) t in
  let t := set_kind_refs (alter (λ k, (Z.max (k.1 - n) 0, k.2)) kind_) t in
  let t := set_exams (alter (with_results (λ c, Z.max (c - n) 0)) e) t in
  let high := high_marks gone in
  let t := if 0 <? high
           then set_accounts (alter (with_high_mark (λ c, Z.max (c - high) 0)) u) t else t in
  Ok (head gone, refund (per_grader gone) t).

Definition remove (e : uuid) (ex : Exam) (target : uuid) : io Tables (option (Z * ExamResult)) :=
  _ ← require_open ex;
  atomic (remove_marks e target (kind ex)).

(** ** The exam itself *)

Definition term_gone_error : AppError := Validation (Invalid "term_id" "term does not exist").

(** [insert_in]: the term's claim and the row in one statement, then the owner's
    audience row. A missing instance is refused by its foreign key. *)
Definition insert_exam (i : uuid) (ex : Exam) : tx Tables (uuid * Exam) := λ t,
  match term_refs t !! term ex with
  | None => Err term_gone_error
  | Some n =>
      match exams t !! i, instance_class (school t) !! class_course ex, accounts t !! creator ex with
      | Some _, _, _ => Err (from_driver (Database (Some "23505"%string) []))
      | None, Some _, Some _ =>
          Ok ((i, ex), set_links <[term ex := n + 1]> id (union {[(i, class_course ex)]})
                         (set_exams <[i := MkExamRow ex 0]> t))
      | _, _, _ => Err NotFound
      end
  end.

Definition year_of (cc : uuid) : io Tables (option uuid) :=
  class ← atomic (gets (λ t, instance_class (school t) !! cc));
  match class with
  | None => mret None
  | Some c => atomic (gets (λ t, mjoin (class_year (school t) !! c)))
  end.

Definition create (ex : Exam) : io Tables (uuid * Exam) :=
  row ← atomic (gets (λ t, instance_course (school t) !! class_course ex));
  course ← lift (ok_or row NotFound);
  row ← atomic (gets (λ t, class_delivered (school t) !! course));
  delivered ← lift (ok_or row (Internal (lit "the instance references a missing course")));
  if negb delivered
  then raise (Validation (Invalid "course" "only a ders can carry exams — a club or etüt is joined, not sat"))
  else
  row ← atomic (gets (λ t, term_year (school t) !! term ex));
  year ← lift (ok_or row term_gone_error);
  instance_year ← year_of (class_course ex);
  if negb (bool_decide (instance_year = Some year))
  then raise (Validation (Invalid "term" "the term belongs to another academic year than this class"))
  else
  _ ← instance_open (class_course ex);
  i ← fresh;
  atomic (insert_exam i ex).

Definition redraft_error : AppError :=
  Conflict "cannot turn a published exam back into a draft after attempts or results exist".

Definition graded (t : Tables) (e : uuid) : bool :=
  existsb (λ p, bool_decide (p.1.1.1 = e)) (map_to_list (results t)).

(** The columns the guarded [UPDATE] compares, and those it writes. *)
Definition same_editable (a b : Exam) : bool :=
  bool_decide (title a = title b) && bool_decide (description a = description b)
  && bool_decide (kind a = kind b) && bool_decide (mode (schedule a) = mode (schedule b))
  && bool_decide (starts_at (schedule a) = starts_at (schedule b))
  && bool_decide (ends_at (schedule a) = ends_at (schedule b))
  && bool_decide (duration_ms (schedule a) = duration_ms (schedule b))
  && bool_decide (max_attempts a = max_attempts b)
  && Bool.eqb (allow_rejoin a) (allow_rejoin b) && Bool.eqb (allow_review a) (allow_review b)
  && Bool.eqb (draft a) (draft b).

Definition edited (row new : Exam) : Exam :=
  MkExam (creator row) (class_course row) (term row) (title new) (description new) (kind new)
    (schedule new) (max_attempts new) (allow_rejoin new) (allow_review new) (draft new).

(** [update_if_unchanged]'s transaction: [new] is the merge over [expected]. *)
Definition update_if_unchanged (e : uuid) (expected new : Exam) : tx Tables (option Exam) := λ t,
  if draft new && negb (draft expected) && (sat t e || graded t e) then Err redraft_error else
  let was_results := match exams t !! e with Some row => result_count row | None => 0 end in
  match exams t !! e with
  | None => Ok (None, t)
  | Some row =>
      if same_editable (exam row) expected && (result_count row =? was_results) then
        let saved := edited (exam row) new in
        Ok (Some saved, set_exams <[e := MkExamRow saved (result_count row)]> t)
      else Ok (None, t)
  end.

Record ExamPatch := MkPatch {
  p_title : option str;
  p_description : option str;
  p_kind : option str;
  p_mode : option (option str);
  p_starts_at : option (option Z);
  p_ends_at : option (option Z);
  p_duration_ms : option (option Z);
  p_max_attempts : option Z;
  p_allow_rejoin : option bool;
  p_allow_review : option bool;
  p_draft : option bool;
}.

(** The merge of a patch over the row just read, re-validated as a unit. *)
Definition merge_patch (current : Exam) (p : ExamPatch) : result ValidationError Exam :=
  let s := schedule current in
  merged ← schedule_try_new (default (mode s) (p_mode p)) (default (starts_at s) (p_starts_at p))
             (default (ends_at s) (p_ends_at p)) (default (duration_ms s) (p_duration_ms p));
  Ok (MkExam (creator current) (class_course current) (term current)
    (default (title current) (p_title p)) (default (description current) (p_description p))
    (default (kind current) (p_kind p)) merged (default (max_attempts current) (p_max_attempts p))
    (default (allow_rejoin current) (p_allow_rejoin p))
    (default (allow_review current) (p_allow_review p)) (default (draft current) (p_draft p))).

Definition mode_changed (current new : Exam) : bool :=
  negb (bool_decide (mode (schedule new) = mode (schedule current))).

(** One round of [update]. *)
Definition update_round (e : uuid) (p : ExamPatch) : io Tables (option Exam) :=
  row ← atomic (read_exam e);
  current ← lift (ok_or row NotFound);
  _ ← require_open current;
  new ← lift (checked (merge_patch current p));
  _ ← (if mode_changed current new then
         any ← atomic (any_for_exam e);
         if any : bool
         then raise (Conflict "cannot change the exam mode after attempts have started")
         else mret ()
       else mret ());
  _ ← (if draft new && negb (draft current) then
         any ← atomic (any_for_exam e);
         marked ← atomic (gets (λ t, graded t e));
         if any || marked then raise redraft_error else mret ()
       else mret ());
  _ ← (if negb (bool_decide (kind new = kind current)) then
         count ← atomic (gets (λ t, match exams t !! e with Some row => result_count row | None => 0 end));
         if 0 <? count
         then raise (Conflict "cannot change the kind of an exam that already has marks")
         else mret ()
       else mret ());
  atomic (update_if_unchanged e current new).

Definition update (e : uuid) (p : ExamPatch) : io Tables Exam :=
  rounds CAS_UPDATE_RETRIES (update_round e p)
    (raise (Conflict "the exam kept changing underneath this update — try again")).

Record Deleted := MkDeleted {
  deleted_exam : Exam;
  question_image_files : list str;
  answer_image_files : list str;
}.

Definition results_of (t : Tables) (e : uuid) : Z :=
  Z.of_nat (size (filter (λ p : uuid * uuid * Z * ExamResult, p.1.1.1 = e) (results t))).

(** The references of the exam's questions go back, subject by subject. *)
Definition release_questions (t : Tables) (e : uuid) : gmap uuid Z :=
  map_imap (λ s c, Some
    (let n := Z.of_nat (size (filter (λ p : uuid * ExamQuestion, q_exam p.2 = e ∧ q_subject p.2 = s)
                               (questions t))) in
     if n =? 0 then c else Z.max (c - n) 0)) (subject_refs t).

Definition of_exam (e : uuid) (p : uuid * uuid * str) : Prop := p.1.1 = e.
#[export] Instance of_exam_dec e p : Decision (of_exam e p).
Proof. unfold of_exam. apply _. Defined.

(** [delete]: the cascade, row set by row set. *)
Definition delete_tx (e : uuid) : tx Tables Deleted := λ t,
  match exams t !! e with
  | None => Err NotFound
  | Some row =>
      let files l := (λ p : uuid * uuid * str, p.2) <$> filter (of_exam e) l in
      let out := MkDeleted (exam row) (files (question_images t)) (files (answer_images t)) in
      let marks := results_of t e in
      let t := set_kind_refs (λ refs, if marks =? 0 then refs
                 else alter (λ k, (Z.max (k.1 - marks) 0, k.2)) (kind (exam row)) refs) t in
      let t := set_results (filter (λ p, p.1.1.1 ≠ e)) t in
      let t := set_attempts (filter (λ p, p.1.1.1 ≠ e)) t in
      let t := set_answers (filter (λ p, a_exam p.2 ≠ e)) t in
      let t := set_images (filter (λ p, ¬ of_exam e p)) (filter (λ p, ¬ of_exam e p)) t in
      let t := set_subject_refs (λ _, release_questions t e) t in
      let t := set_questions (filter (λ p, q_exam p.2 ≠ e)) t in
      let t := set_links (alter (λ c, Z.max (c - 1) 0) (term (exam row)))
                 (fmap (λ s, if bool_decide (s = Some e) then None else s))
                 (filter (λ p, p.1 ≠ e)) t in
      Ok (out, set_exams (base.delete e) t)
  end.

Definition delete (e : uuid) (ex : Exam) : io Tables Deleted :=
  _ ← require_open ex;
  atomic (delete_tx e).
