(* ===== verification/ExamProofs.v ===== *)
(** * What the exams promise

    Proofs over [Exams]: sittings are numbered without gaps and stay within the
    limit, and a submission and a walk-out are separate columns. *)

From S2P Require Import Prelude Text Errors Effects Uuid Validate Modules Badges ExamForms Exams.
Open Scope Z_scope.

(** ** Sittings of a pair *)

Definition in_sitting (t : Tables) (e u : uuid) (p : Sitting) : Prop :=
  attempts t !! (e, u, p.1) = Some p.2.

Lemma elem_of_sittings t e u p : p ∈ sittings t e u ↔ in_sitting t e u p.
Proof.
  unfold sittings, in_sitting. rewrite merge_sort_Permutation, list_elem_of_fmap. split.
  - intros ([[[e' u'] s] a] & -> & Hf). apply list_elem_of_filter in Hf as [[= -> ->] Hin].
    by apply elem_of_map_to_list in Hin.
  - destruct p as [s a]. intros Ha. exists (e, u, s, a). split; [done|].
    apply list_elem_of_filter. split; [done|]. by apply elem_of_map_to_list.
Qed.

Lemma sittings_nodup t e u : NoDup (sittings t e u).*1.
Proof.
  unfold sittings. rewrite merge_sort_Permutation, <-list_fmap_compose.
  assert (∀ l : list (uuid * uuid * Z * ExamAttempt), NoDup l.*1 → Forall (λ p, p.1.1 = (e, u)) l →
    NoDup ((λ p : uuid * uuid * Z * ExamAttempt, p.1.2) <$> l)) as Hl.
  { intros l Hnd Hall. induction l as [|[[[e' u'] s] a] l IH]; [apply NoDup_nil_2|].
    apply Forall_cons in Hall as [[= -> ->] Hall]. rewrite fmap_cons in Hnd.
    apply NoDup_cons in Hnd as [Hs Hnd]. rewrite fmap_cons. apply NoDup_cons.
    split; [|by apply IH]. intros ([[[e' u'] s'] a'] & Heq & Hin)%list_elem_of_fmap.
    simpl in Heq. subst s'. apply Hs. apply list_elem_of_fmap.
    rewrite Forall_forall in Hall. pose proof (Hall _ Hin) as [= -> ->]. by exists (e, u, s, a'). }
  apply Hl.
  - apply NoDup_fmap_fst.
    + intros k x y Hx Hy. apply list_elem_of_filter in Hx as [_ Hx], Hy as [_ Hy].
      apply elem_of_map_to_list in Hx, Hy. congruence.
    + apply NoDup_filter, NoDup_map_to_list.
  - apply Forall_forall. by intros p [Hp _]%list_elem_of_filter.
Qed.

Lemma sittings_sorted t e u : StronglySorted newer (sittings t e u).
Proof.
  apply StronglySorted_merge_sort.
  - intros x y z. unfold newer. lia.
  - intros x y. unfold newer. lia.
Qed.

(** The sittings of the pair are numbered 1 to [n]. *)
Definition numbered (t : Tables) (e u : uuid) (n : Z) : Prop :=
  0 ≤ n ∧ ∀ seq, is_Some (attempts t !! (e, u, seq)) ↔ 1 ≤ seq ≤ n.

Lemma numbered_list t e u n :
  numbered t e u n →
  Z.of_nat (length (sittings t e u)) = n
  ∧ match sittings t e u with
    | [] => n = 0
    | p :: _ => p.1 = n
    end.
Proof.
  intros [Hn Hd].
  assert ((sittings t e u).*1 ≡ₚ seqZ 1 n) as Hp.
  { apply NoDup_Permutation; [apply sittings_nodup|apply NoDup_seqZ|].
    intros s. rewrite elem_of_seqZ, list_elem_of_fmap. split.
    - intros ([s' a] & -> & Hin%elem_of_sittings). unfold in_sitting in Hin. simpl in *.
      assert (1 ≤ s' ≤ n) by (apply Hd; by eexists). lia.
    - intros Hs. assert (is_Some (attempts t !! (e, u, s))) as [a Ha] by (apply Hd; lia).
      exists (s, a). split; [done|]. by apply elem_of_sittings. }
  assert (Z.of_nat (length (sittings t e u)) = n) as Hlen.
  { rewrite <-(length_fmap fst), Hp, length_seqZ. lia. }
  split; [done|]. pose proof (sittings_sorted t e u) as Hs.
  destruct (sittings t e u) as [|[s a] l] eqn:E; [simpl in Hlen; lia|]. simpl.
  assert (s ∈ seqZ 1 n) as Hin by (rewrite <-Hp; left).
  apply elem_of_seqZ in Hin.
  assert (n ∈ ((s, a) :: l).*1) as Hn' by (rewrite Hp; apply elem_of_seqZ; lia).
  apply list_elem_of_fmap in Hn' as ([s' a'] & Heq & Hin'). simpl in Heq. subst s'.
  apply elem_of_cons in Hin' as [[= <- <-]|Hin']; [done|].
  apply StronglySorted_inv in Hs as [_ Hs]. rewrite Forall_forall in Hs.
  specialize (Hs _ Hin'). unfold newer in Hs. simpl in Hs. lia.
Qed.

(** ** The sittings stay well numbered *)

Definition first_of (u : uuid) (p : uuid * uuid * Z * ExamAttempt) : Prop :=
  p.1.1.2 = u ∧ p.1.2 = 1.
#[export] Instance first_of_dec u p : Decision (first_of u p).
Proof. unfold first_of. apply _. Defined.

(** Every pair's sittings are numbered 1 to some [n]; an account's counter covers
    the exams it sat; a sitting's exam exists. *)
Record sat_ok (t : Tables) : Prop := {
  so_numbered e u : ∃ n, numbered t e u n;
  so_counted u a : accounts t !! u = Some a → count (first_of u) (attempts t) ≤ exam_sat (stats a);
  so_exam k a : attempts t !! k = Some a → is_Some (exams t !! k.1.1);
}.

(** While its exam stands, the pair keeps its first [k] sittings. *)
Definition reached (e u : uuid) (k : Z) (t : Tables) : Prop :=
  is_Some (exams t !! e) → ∀ seq, 1 ≤ seq ≤ k → is_Some (attempts t !! (e, u, seq)).

(** No sitting has the last number there is. *)
Definition room (t : Tables) : Prop := ∀ k a, attempts t !! k = Some a → k.2 < i64_max.

(** What the other requests keep. *)
Definition sitting_rely (w : World Tables) : Prop :=
  stable sat_ok w ∧ stable room w ∧ ∀ e u k, stable (reached e u k) w.

Lemma numbered_reached t e u n k :
  numbered t e u n → k ≤ n → reached e u k t.
Proof. intros [_ Hd] Hk _ seq Hseq. apply Hd. lia. Qed.

Lemma accounts_update t f : accounts (set_accounts f t) = f (accounts t).
Proof. done. Qed.

Lemma guard_start_inv e t_now t r t' :
  guard_start e t_now t = Ok (r, t') →
  t' = t ∧ ∃ row, exams t !! e = Some row ∧ draft (exam row) = false
    ∧ (∃ m, mode (schedule (exam row)) = Some m)
    ∧ (∀ s, starts_at (schedule (exam row)) = Some s → s ≤ t_now)
    ∧ (∀ s, ends_at (schedule (exam row)) = Some s → t_now < s).
Proof.
  unfold guard_start, read_exam. rewrite tx_bind_gets.
  destruct (exams t !! e) as [row|]; simpl; [|done].
  destruct (draft (exam row)) eqn:Hd; [done|].
  destruct (mode (schedule (exam row))) as [m|] eqn:Em; [|done].
  destruct (starts_at (schedule (exam row))) as [s|] eqn:Es;
    destruct (ends_at (schedule (exam row))) as [en|] eqn:Ee;
    try destruct (Z.ltb_spec t_now s); try destruct (Z.leb_spec en t_now); try done;
    intros [= _ <-]; split; try done; exists row; split_and!; try done;
    try (by exists m); intros x Hx; simplify_eq; lia.
Qed.

Lemma create_attempt_keeps e u k started first t_now :
  0 ≤ k → first = (k + 1 =? 1) →
  ∀ t a t', (sat_ok t ∧ reached e u k t) →
    create_attempt e u (k + 1) started first t_now t = Ok (a, t') →
    (sat_ok t' ∧ reached e u k t')
    ∧ match a with Made p => p = (k + 1, MkAttempt started None None) | _ => True end.
Proof.
  intros Hk Hfirst t a t' [Hok Hr]. unfold create_attempt. rewrite tx_bind_ok.
  intros ([] & t1 & Hg & Hc). apply guard_start_inv in Hg as (-> & row & Hrow & _).
  pose proof (Hr ltac:(by eexists)) as Hr'.
  unfold create_in in Hc. destruct (accounts t !! u) as [acc|] eqn:Hacc.
  2:{ injection Hc as <- <-. done. }
  destruct (attempts t !! (e, u, k + 1)) eqn:Hseq.
  1:{ injection Hc as <- <-. done. }
  injection Hc as <- <-. split; [|done].
  destruct (so_numbered t Hok e u) as (n & Hn & Hd).
  assert (n = k) as ->.
  { assert (¬ 1 ≤ k + 1 ≤ n) by (rewrite <-Hd, Hseq; by intros [? ?]).
    destruct (decide (k = 0)); [lia|].
    assert (1 ≤ k ≤ n) by (apply Hd, Hr'; lia). lia. }
  split.
  - split.
    + intros e' u'. destruct (decide ((e', u') = (e, u))) as [[= -> ->]|Hne].
      * exists (k + 1). split; [lia|]. intros s. cbn [set_attempts attempts set_accounts].
        destruct (decide (s = k + 1)) as [->|Hs].
        { rewrite lookup_insert_eq. split; [lia|intros _; by eexists]. }
        { rewrite lookup_insert_ne by congruence. rewrite Hd. lia. }
      * destruct (so_numbered t Hok e' u') as (n' & Hn' & Hd').
        exists n'. split; [done|]. intros s. cbn [set_attempts attempts set_accounts].
        rewrite lookup_insert_ne by congruence. apply Hd'.
    + intros u' a'. cbn [set_attempts attempts set_accounts accounts].
      rewrite count_insert_fresh by done. destruct (decide (u' = u)) as [->|Hu].
      * rewrite lookup_alter_eq, Hacc. intros [= <-].
        pose proof (so_counted t Hok u acc Hacc).
        unfold bump_exam_sat. cbn [stats exam_sat].
        destruct (decide (first_of u _)) as [[_ H1]|H1]; simpl in H1.
        { rewrite Hfirst. destruct (Z.eqb_spec (k + 1) 1); lia. }
        { destruct first; lia. }
      * rewrite lookup_alter_ne by done. intros Ha'. pose proof (so_counted t Hok u' a' Ha').
        destruct (decide (first_of u' _)) as [[H1 _]|]; [|lia]. simpl in H1. congruence.
    + intros k' a'. cbn [set_attempts attempts set_accounts exams].
      destruct (decide (k' = (e, u, k + 1))) as [->|Hne]; [intros _; by eexists|].
      rewrite lookup_insert_ne by done. apply (so_exam t Hok).
  - intros _ s Hs. cbn [set_attempts attempts set_accounts].
    rewrite lookup_insert_ne by (intros [=]; lia). by apply Hr'.
Qed.

Lemma award_sat_ok e u k user badge at_ :
  tx_keeps (λ t, sat_ok t ∧ reached e u k t) (award user badge at_).
Proof.
  intros t a t' [Hok Hr]. unfold award.
  destruct (awards t !! (user, badge)); [by intros [= _ <-]|].
  destruct (stats_of t user); [|done]. intros [= _ <-]. split; [|exact Hr].
  split; apply Hok.
Qed.

Lemma sync_sat_ok e u k user : keeps (λ t, sat_ok t ∧ reached e u k t) (sync user).
Proof. unfold sync, load. keeps_walk. apply award_sat_ok. Qed.

(** What a started sitting's answer says. *)
Definition numbered_at (e u : uuid) (k : Z) (r : result AppError (Sitting * bool)) : Prop :=
  match r with
  | Ok (p, true) => p.1 = k + 1
  | Ok (p, false) => finished_at p.2 = None
  | Err _ => True
  end.

Lemma open_sitting_keeps e ex u k :
  0 ≤ k →
  triple (λ t, sat_ok t ∧ reached e u k t) (open_sitting e ex u (k + 1))
    (λ r _, numbered_at e u k r).
Proof.
  intros Hk. unfold open_sitting.
  eapply triple_bind; [apply keeps_now| |done]. intros started. cbv zeta.
  eapply triple_bind; [apply keeps_now| |done]. intros t_now.
  apply (triple_read _ _ (λ a, match a with Made p => p = (k + 1, MkAttempt started None None) | _ => True end)).
  - intros t a t' HI E. by destruct (create_attempt_keeps e u k started _ t_now Hk eq_refl t a t' HI E).
  - intros t a t' HI E. by destruct (create_attempt_keeps e u k started _ t_now Hk eq_refl t a t' HI E).
  - done.
  - intros [p| |] Hp.
    + subst p. eapply triple_bind; [| |done].
      * destruct (k + 1 =? 1); [apply keeps_attempt, sync_sat_ok|apply keeps_ret].
      * intros _. by apply triple_ret.
    + by apply triple_raise.
    + eapply triple_bind; [apply keeps_atomic, tx_keeps_gets| |done]. intros [existing|].
      * eapply triple_bind; [apply keeps_now| |done]. intros t2.
        case_bool_decide as Hs; [|by apply triple_raise]. apply triple_ret. intros _ _. simpl.
        unfold attempt_status in Hs. by destruct (finished_at existing.2).
      * by apply triple_raise.
Qed.

Lemma sitting_rely_stable e u k w :
  sitting_rely w → stable (λ t, sat_ok t ∧ reached e u k t) w.
Proof. intros (Hok & _ & Hr) n t [H1 H2]. split; [by apply Hok|by apply Hr]. Qed.

(** A handler that keeps [sat_ok] whatever is reached keeps it under the rely. *)
Lemma start_keeps e ex u w :
  sitting_rely w → sat_ok (w_db w) → room (w_db w) →
  let '(r, w') := start e ex u w in
  sat_ok (w_db w') ∧ w_env w' = w_env w
  ∧ match r with
    | Ok (p, true) => p.1 = 1 ∨ max_attempts ex = 0 ∨ p.1 ≤ max_attempts ex
    | Ok (p, false) => finished_at p.2 = None
    | Err _ => True
    end.
Proof.
  intros Hrely Hok Hroom. pose proof Hrely as (Hst & Hro & Hre).
  pose proof (Hst (w_step w) _ Hok) as Hok0. apply (Hro (w_step w)) in Hroom. set (t0 := w_env w (w_step w) (w_db w)) in *.
  destruct (so_numbered t0 Hok0 e u) as (n & Hn).
  assert (n < i64_max) as Hmax.
  { destruct (decide (n = 0)) as [->|]; [by unfold i64_max|]. destruct Hn as [Hn0 Hd].
    assert (is_Some (attempts t0 !! (e, u, n))) as [a Ha] by (apply Hd; lia).
    by apply (Hroom _ _ Ha). }
  destruct (numbered_list t0 e u n Hn) as [Hlen Hhead].
  unfold start, list_for_user. rewrite atomic_bind. cbn [gets]. fold t0.
  assert (∀ w1 k, k ≤ n → 0 ≤ k → w_db w1 = t0 → w_env w1 = w_env w →
    let '(r, w') := open_sitting e ex u (k + 1) w1 in
    sat_ok (w_db w') ∧ w_env w' = w_env w1 ∧ numbered_at e u k r) as Hopen.
  { intros w1 k Hkn Hk Hdb Henv. pose proof (open_sitting_keeps e ex u k Hk w1) as Ho.
    destruct (open_sitting e ex u (k + 1) w1) as [r w'].
    destruct Ho as ([? _] & ? & ?); [| |done].
    - apply sitting_rely_stable. unfold sitting_rely, stable. by rewrite Henv.
    - rewrite Hdb. split; [done|]. by eapply numbered_reached. }
  destruct (sittings t0 e u) as [|[s a] l] eqn:E.
  - specialize (Hopen (tick t0 w) 0 ltac:(lia) ltac:(lia) eq_refl eq_refl).
    change (0 + 1) with 1 in Hopen. destruct (open_sitting e ex u 1 _) as [r w'].
    destruct Hopen as (? & ? & Hr). split; [done|]. split; [done|].
    destruct r as [[p []]|]; simpl in *; [left; lia|done|done].
  - simpl in Hhead. subst s. rewrite now_bind. cbn [snd fst].
    case_bool_decide as Hstat.
    + simpl. split; [done|]. split; [done|]. unfold attempt_status in Hstat.
      by destruct (finished_at a).
    + destruct (allows_another _ _) eqn:Ha; simpl; [|done].
      assert (0 ≤ n) as Hn0 by exact (proj1 Hn).
      rewrite i64_wrap_id by (unfold in_i64, i64_min; lia).
      specialize (Hopen (tick (w_db (tick t0 w)) (tick t0 w)) n ltac:(lia) Hn0 eq_refl eq_refl).
      destruct (open_sitting e ex u (n + 1) _) as [r w'].
      destruct Hopen as (? & ? & Hr). split; [done|]. split; [done|].
      destruct r as [[p []]|]; simpl in *; [|done|done]. right.
      unfold allows_another, is_unlimited, UNLIMITED_EXAM_ATTEMPTS in Ha.
      cbn [length] in Hlen. lia.
Qed.

(** ** Transactions that leave the sittings alone *)

(** No sitting moves, no exam goes, no account's count of exams sat moves. *)
Record same_sittings (t t' : Tables) : Prop := {
  ss_attempts : attempts t' = attempts t;
  ss_exams e : is_Some (exams t !! e) → is_Some (exams t' !! e);
  ss_accounts u a' : accounts t' !! u = Some a' →
    ∃ a, accounts t !! u = Some a ∧ exam_sat (stats a) = exam_sat (stats a');
}.

#[export] Instance same_sittings_preorder : PreOrder same_sittings.
Proof.
  split.
  - intros t. split; eauto.
  - intros t1 t2 t3 H12 H23. split.
    + by rewrite (ss_attempts _ _ H23), (ss_attempts _ _ H12).
    + intros e He. by apply (ss_exams _ _ H23), (ss_exams _ _ H12).
    + intros u a3 H3. destruct (ss_accounts _ _ H23 u a3 H3) as (a2 & H2 & E2).
      destruct (ss_accounts _ _ H12 u a2 H2) as (a1 & H1 & E1). exists a1. split; congruence.
Qed.

Lemma same_sittings_keep t t' : same_sittings t t' → sat_ok t → sat_ok t'.
Proof.
  intros [Ha He Hu] Hok. split.
  - intros e u. destruct (so_numbered t Hok e u) as (n & Hn). exists n.
    unfold numbered in *. by rewrite Ha.
  - intros u a' Hacc. destruct (Hu u a' Hacc) as (a & Hacc' & <-). rewrite Ha.
    by apply (so_counted t Hok).
  - intros k a. rewrite Ha. intros Hk. by apply He, (so_exam t Hok k a).
Qed.

Lemma same_accounts f g i t :
  (∀ a, exam_sat (stats (f a)) = exam_sat (stats a)) → (∀ t, set_accounts (alter f i) t = g t) →
  same_sittings t (g t).
Proof.
  intros Hf <-. split; [done|done|]. intros u a'. cbn [set_accounts accounts].
  destruct (decide (u = i)) as [->|Hu].
  - rewrite lookup_alter_eq. destruct (accounts t !! i) as [a|]; [|done].
    intros [= <-]. exists a. by rewrite Hf.
  - rewrite lookup_alter_ne by done. eauto.
Qed.

Lemma same_marks_given f i t : same_sittings t (set_accounts (alter (with_marks_given f) i) t).
Proof. by eapply (same_accounts (with_marks_given f)). Qed.
Lemma same_high_mark f i t : same_sittings t (set_accounts (alter (with_high_mark f) i) t).
Proof. by eapply (same_accounts (with_high_mark f)). Qed.

Lemma same_alter_exam f e t : same_sittings t (set_exams (alter f e) t).
Proof.
  split; [done| |by eauto]. intros e' He. cbn [set_exams exams].
  destruct (decide (e' = e)) as [->|Hne].
  - rewrite lookup_alter_eq. destruct (exams t !! e); [by eexists|by destruct He].
  - by rewrite lookup_alter_ne.
Qed.

Lemma same_insert_exam e row t : same_sittings t (set_exams <[e := row]> t).
Proof.
  split; [done| |by eauto]. intros e' He. cbn [set_exams exams].
  destruct (decide (e' = e)) as [->|Hne];
    [rewrite lookup_insert_eq; by eexists|by rewrite lookup_insert_ne].
Qed.

(** Writes to the other tables. *)
Lemma same_other t t' :
  attempts t' = attempts t → exams t' = exams t → accounts t' = accounts t → same_sittings t t'.
Proof. intros Ha He Hu. split; [done|by rewrite He|rewrite Hu; eauto]. Qed.

Create HintDb sittings.
#[export] Hint Resolve same_marks_given same_high_mark same_alter_exam same_insert_exam : sittings.
#[export] Hint Extern 1 (same_sittings _ _) => (apply same_other; reflexivity) : sittings.

(** A transaction all of whose commits are related by [R]. *)
Section Framed.
Context (R : Tables → Tables → Prop) `{!PreOrder R}.

Definition framed {A} (m : tx Tables A) : Prop := ∀ t a t', m t = Ok (a, t') → R t t'.

Lemma framed_keeps {A} (I : Tables → Prop) (m : tx Tables A) :
  (∀ t t', R t t' → I t → I t') → framed m → tx_keeps I m.
Proof using Type. intros HI Hm t a t' Ht E. eapply HI; [by eapply Hm|done]. Qed.
Lemma framed_bind {A B} (m : tx Tables A) (f : A → tx Tables B) :
  framed m → (∀ a, framed (f a)) → framed (m ≫= f).
Proof using All.
  intros Hm Hf t b t'. rewrite tx_bind_ok. intros (a & t1 & E1 & E2).
  etransitivity; [by eapply Hm|by eapply Hf].
Qed.
Lemma framed_ret {A} (a : A) : framed (mret a).
Proof using All. by intros t a' t' [= _ <-]. Qed.
Lemma framed_gets {A} (f : Tables → A) : framed (gets f).
Proof using All. by intros t a' t' [= _ <-]. Qed.
Lemma framed_refuse {A} e : framed (refuse (A := A) e).
Proof using Type. by intros t a t'. Qed.
Lemma framed_decide {A} (r : result AppError A) : framed (decide_tx r).
Proof using All. intros t a t'. unfold decide_tx. destruct r; by intros [= _ <-]. Qed.
Lemma framed_writes {A} (f : Tables → A * Tables) : (∀ t, R t (f t).2) → framed (writes f).
Proof using Type. intros Hf t a t' [= E]. specialize (Hf t). by rewrite E in Hf. Qed.
End Framed.

Abbreviation frames := (framed same_sittings).

Lemma frames_keeps {A} (m : tx Tables A) : frames m → tx_keeps sat_ok m.
Proof. apply framed_keeps. apply same_sittings_keep. Qed.

Ltac frames_walk :=
  repeat lazymatch goal with
  | |- ∀ _, _ => intro
  | |- framed _ (mbind _ _) => apply framed_bind
  | |- framed _ (mret _) => apply framed_ret
  | |- framed _ (gets _) => apply framed_gets
  | |- framed _ (refuse _) => apply framed_refuse
  | |- framed _ (decide_tx _) => apply framed_decide
  | |- framed _ (writes _) => apply framed_writes; intro; cbn [snd]; eauto with sittings
  | |- framed _ (match _ with _ => _ end) => case_match
  | |- framed _ (let _ := _ in _) => cbv zeta
  end; try apply _.

(** The statements that decide for themselves. *)
Ltac frames_sql :=
  intros ? ? ?; cbv beta delta [sql];
  repeat case_match; try done; intros [= _ <-]; eauto with sittings.

Lemma freeze_gate_frames e : frames (freeze_gate e).
Proof. unfold freeze_gate, read_exam, any_for_exam. frames_walk. Qed.
Lemma claim_subject_frames s : frames (claim_subject s).
Proof. unfold claim_subject. frames_sql. Qed.
Lemma insert_question_frames i q : frames (insert_question i q).
Proof.
  unfold insert_question. apply framed_bind; [apply _|apply freeze_gate_frames|intros _].
  apply framed_bind; [apply _|apply claim_subject_frames|intros _]. frames_sql.
Qed.
Lemma update_question_frames i read subject text points spec :
  frames (update_question_tx i read subject text points spec).
Proof.
  unfold update_question_tx. apply framed_bind; [apply _|apply freeze_gate_frames|intros _].
  apply framed_bind; [apply _|..].
  - frames_walk. apply claim_subject_frames.
  - intros _. frames_sql.
Qed.
Lemma delete_question_frames i read : frames (delete_question_tx i read).
Proof.
  unfold delete_question_tx. apply framed_bind; [apply _|apply freeze_gate_frames|intros _].
  frames_walk. frames_sql.
Qed.
Lemma save_in_frames q e u seq selected text t_now : frames (save_in q e u seq selected text t_now).
Proof. unfold save_in. frames_sql. Qed.
Lemma claim_kind_frames k : frames (claim_kind k).
Proof. unfold claim_kind. frames_sql. Qed.

Lemma grade_frames e u seq mark g k : frames (grade_tx e u seq mark g k).
Proof.
  unfold grade_tx, read_exam. apply framed_bind; [apply _|frames_walk|intros row].
  apply framed_bind; [apply _|frames_walk|intros ex]. case_match; [apply framed_refuse|].
  apply framed_bind; [apply _|frames_walk|intros before]. apply framed_bind; [apply _|..].
  - destruct before; [frames_walk|]. apply framed_bind; [apply _|apply claim_kind_frames|intros _].
    apply framed_writes. intros t. cbn [snd].
    etransitivity; [apply same_alter_exam|apply same_marks_given].
  - intros _. cbv zeta. apply framed_bind; [apply _| |intros _; frames_sql].
    apply framed_writes. intros t. cbn [snd]. case_match; [done|apply same_high_mark].
Qed.

Lemma refund_same groups t : same_sittings t (refund groups t).
Proof.
  revert t. induction groups as [|[g n] groups IH]; intros t; [done|]. cbn [refund].
  etransitivity; [apply same_marks_given|apply IH].
Qed.

Lemma remove_frames e u k : frames (remove_marks e u k).
Proof.
  intros t a t'. unfold remove_marks. case_bool_decide; [by intros [= _ <-]|].
  intros [= _ <-]. etransitivity; [|apply refund_same].
  set (t1 := set_kind_refs _ (set_results _ t)).
  assert (same_sittings t t1) as H1 by (apply same_other; reflexivity).
  etransitivity; [exact H1|]. case_match; [|apply same_alter_exam].
  etransitivity; [apply same_alter_exam|apply same_high_mark].
Qed.

Lemma insert_exam_frames i ex : frames (insert_exam i ex).
Proof.
  intros t a t'. unfold insert_exam. repeat case_match; try done. intros [= _ <-].
  etransitivity; [apply same_insert_exam|eauto with sittings].
Qed.

Lemma update_exam_frames e expected new : frames (update_if_unchanged e expected new).
Proof. unfold update_if_unchanged. frames_sql. Qed.

(** ** Transactions that touch one sitting, or drop an exam's *)

Lemma touch_sat_ok t k a a' :
  attempts t !! k = Some a → sat_ok t → sat_ok (set_attempts <[k := a']> t).
Proof.
  intros Hk Hok.
  assert (∀ j, is_Some (<[k := a']> (attempts t) !! j) ↔ is_Some (attempts t !! j)) as Hdom.
  { intros j. destruct (decide (j = k)) as [->|Hj]; [|by rewrite lookup_insert_ne].
    rewrite lookup_insert_eq, Hk. split; intros _; by eexists. }
  split.
  - intros e u. destruct (so_numbered t Hok e u) as (n & Hn & Hd). exists n. split; [done|].
    intros s. cbn [set_attempts attempts]. by rewrite Hdom.
  - intros u acc Hacc. cbn [set_attempts attempts].
    rewrite (count_replace _ _ _ _ _ Hk); [by apply (so_counted t Hok)|done].
  - intros j b Hj. cbn [set_attempts attempts exams] in *.
    assert (is_Some (attempts t !! j)) as [b' Hb] by (apply Hdom; by eexists).
    by apply (so_exam t Hok j b').
Qed.

Lemma update_attempt_sat_ok e u seq f : tx_keeps sat_ok (update_attempt e u seq f).
Proof.
  intros t a t' Hok. unfold update_attempt.
  destruct (attempts t !! (e, u, seq)) as [b|] eqn:E; [|done]. intros [= _ <-].
  by eapply touch_sat_ok.
Qed.

Lemma stamp_sat_ok e u seq t_now : tx_keeps sat_ok (stamp_left_if_running e u seq t_now).
Proof.
  intros t a t' Hok. unfold stamp_left_if_running.
  destruct (exams t !! e); [|by intros [= _ <-]].
  destruct (attempts t !! (e, u, seq)) as [b|] eqn:E; [|by intros [= _ <-]].
  destruct (still_running _ _ _); intros [= _ <-]; [by eapply touch_sat_ok|done].
Qed.

Lemma count_filter_le {A} (P Q : uuid * uuid * Z * A → Prop) `{!∀ p, Decision (P p)}
    `{!∀ p, Decision (Q p)} (m : gmap (uuid * uuid * Z) A) :
  count P (filter Q m) ≤ count P m.
Proof.
  unfold count. apply Nat2Z.inj_le, map_subseteq_size, map_subseteq_spec.
  intros k x. rewrite !map_lookup_filter_Some. tauto.
Qed.

Lemma delete_tx_inv e t a t' :
  delete_tx e t = Ok (a, t') →
  ∃ row, exams t !! e = Some row ∧ deleted_exam a = exam row
    ∧ exams t' = base.delete e (exams t)
    ∧ attempts t' = filter (λ p : uuid * uuid * Z * ExamAttempt, p.1.1.1 ≠ e) (attempts t)
    ∧ results t' = filter (λ p : uuid * uuid * Z * ExamResult, p.1.1.1 ≠ e) (results t)
    ∧ answers t' = filter (λ p : uuid * uuid * Z * ExamAnswer, a_exam p.2 ≠ e) (answers t)
    ∧ questions t' = filter (λ p : uuid * ExamQuestion, q_exam p.2 ≠ e) (questions t)
    ∧ accounts t' = accounts t
    ∧ kind_refs t' = (if results_of t e =? 0 then kind_refs t
         else alter (λ k, (Z.max (k.1 - results_of t e) 0, k.2)) (kind (exam row)) (kind_refs t)).
Proof.
  unfold delete_tx. destruct (exams t !! e) as [row|]; [|done]. intros [= <- <-].
  exists row. split_and!; done.
Qed.

Lemma delete_sat_ok e : tx_keeps sat_ok (delete_tx e).
Proof.
  intros t a t' Hok Hd.
  destruct (delete_tx_inv _ _ _ _ Hd) as (row & _ & _ & He & Ha & _ & _ & _ & Hu & _).
  split.
  - intros e' u. destruct (so_numbered t Hok e' u) as (n & Hn & Hd').
    destruct (decide (e' = e)) as [->|Hne].
    + exists 0. split; [done|]. intros s. rewrite Ha. split; [|lia].
      intros [b Hb]. by apply map_lookup_filter_Some in Hb as [_ ?].
    + exists n. split; [done|]. intros s. rewrite Ha, <-Hd'. split; intros [b Hb].
      * apply map_lookup_filter_Some in Hb as [? _]. by eexists.
      * exists b. by apply map_lookup_filter_Some.
  - intros u acc. rewrite Hu, Ha. intros Hacc. etransitivity; [apply count_filter_le|].
    by apply (so_counted t Hok).
  - intros k b. rewrite Ha, He. intros [Hb Hk]%map_lookup_filter_Some. simpl in Hk.
    rewrite lookup_delete_ne by done. by apply (so_exam t Hok k b).
Qed.

(** ** The handlers *)

Section Gates.
Context (I : Tables → Prop).

Lemma instance_open_keeps cc : keeps I (instance_open cc).
Proof. unfold instance_open. keeps_walk. Qed.
Lemma require_open_keeps ex : keeps I (require_open ex).
Proof. unfold require_open. keeps_walk. apply instance_open_keeps. Qed.
Lemma ensure_enrolled_keeps e u : keeps I (ensure_enrolled e u).
Proof. unfold ensure_enrolled. keeps_walk. Qed.
Lemma ensure_student_now_keeps u : keeps I (ensure_student_now u).
Proof. unfold ensure_student_now. keeps_walk. Qed.
Lemma question_of_exam_keeps e q : keeps I (question_of_exam e q).
Proof. unfold question_of_exam. keeps_walk. Qed.
Lemma year_of_keeps cc : keeps I (year_of cc).
Proof. unfold year_of. keeps_walk. Qed.
Lemma writable_attempt_keeps e ex u : keeps I (writable_attempt e ex u).
Proof. unfold writable_attempt, read_latest_for_user. keeps_walk. Qed.
End Gates.

#[export] Hint Resolve instance_open_keeps require_open_keeps ensure_enrolled_keeps
  ensure_student_now_keeps question_of_exam_keeps year_of_keeps writable_attempt_keeps : effects.

Lemma sync_keeps_sat_ok user : keeps sat_ok (sync user).
Proof.
  unfold sync, load. keeps_walk. intros t b t' Hok. unfold award.
  destruct (awards t !! (user, _)); [by intros [= _ <-]|].
  destruct (stats_of t user); [|done]. intros [= _ <-]. split; apply Hok.
Qed.

Lemma finish_attempt_sat_ok e ex u : keeps sat_ok (finish_attempt e ex u).
Proof.
  unfold finish_attempt, finish, read_latest_for_user. keeps_walk; eauto with effects.
  apply update_attempt_sat_ok.
Qed.

Lemma set_left_sat_ok e u seq l : keeps sat_ok (set_left e u seq l).
Proof. apply keeps_atomic, update_attempt_sat_ok. Qed.

Lemma save_answer_sat_ok e ex u caller q selected text :
  keeps sat_ok (save_answer_checked e ex u caller q selected text).
Proof.
  unfold save_answer_checked, save_answer_in, save. keeps_walk; eauto with effects.
  apply frames_keeps, save_in_frames.
Qed.

Lemma grade_sat_ok e grader target mark : keeps sat_ok (grade e grader target mark).
Proof.
  unfold grade, read_exam, read_latest_for_user. keeps_walk; eauto using sync_keeps_sat_ok with effects.
  apply frames_keeps, grade_frames.
Qed.

Lemma remove_sat_ok e ex target : keeps sat_ok (remove e ex target).
Proof. unfold remove. keeps_walk; eauto with effects. apply frames_keeps, remove_frames. Qed.

Lemma create_sat_ok ex : keeps sat_ok (create ex).
Proof.
  unfold create. keeps_walk; eauto with effects. apply frames_keeps, insert_exam_frames.
Qed.

Lemma update_sat_ok e p : keeps sat_ok (update e p).
Proof.
  unfold update, update_round, read_exam, any_for_exam. keeps_walk; eauto with effects.
  apply frames_keeps, update_exam_frames.
Qed.

Lemma delete_exam_sat_ok e ex : keeps sat_ok (delete e ex).
Proof. unfold delete. keeps_walk; eauto with effects. apply delete_sat_ok. Qed.

Lemma question_ops_sat_ok i e subject text points spec src read template :
  keeps sat_ok (insert e subject text points spec src)
  ∧ keeps sat_ok (update_question i read subject text points spec)
  ∧ keeps sat_ok (delete_question i read) ∧ keeps sat_ok (link_banked_as i template).
Proof.
  split_and!.
  - unfold insert. keeps_walk. apply frames_keeps, insert_question_frames.
  - apply keeps_atomic, frames_keeps, update_question_frames.
  - apply keeps_atomic, frames_keeps, delete_question_frames.
  - apply keeps_atomic, frames_keeps. frames_sql.
Qed.

(** A bind whose first part keeps [sat_ok], under the rely. *)
Definition under_rely {A} (m : io Tables A) (Q : result AppError A → Prop) : Prop :=
  ∀ w, sitting_rely w → sat_ok (w_db w) → room (w_db w) →
    let '(r, w') := m w in sat_ok (w_db w') ∧ Q r.

Lemma under_rely_bind {A B} (m : io Tables A) (k : A → io Tables B) (Q : result AppError B → Prop) :
  keeps (λ t, sat_ok t ∧ room t) m → (∀ e, Q (Err e)) → (∀ a, under_rely (k a) Q) →
  under_rely (m ≫= k) Q.
Proof.
  intros Hm He Hk w Hrely Hok Hroom. pose proof Hrely as (Hst & Hro & _).
  specialize (Hm w (λ n t Ht, conj (Hst n t (proj1 Ht)) (Hro n t (proj2 Ht))) (conj Hok Hroom)).
  unfold mbind, io_bind. destruct (m w) as [[a|e] w'].
  - destruct Hm as ([? ?] & Henv & _). apply Hk; [|done..]. unfold sitting_rely, stable.
    by rewrite Henv.
  - by destruct Hm as ([? ?] & _).
Qed.

Lemma under_rely_lift {A B} (r : result AppError A) (k : A → io Tables B) (Q : result AppError B → Prop) :
  (∀ e, Q (Err e)) → (∀ a, r = Ok a → under_rely (k a) Q) → under_rely (lift r ≫= k) Q.
Proof. intros He Hk. destruct r as [a|e]; [by apply Hk|]. intros w _ Hok _. simpl. auto. Qed.

(** C8. Sittings. Whatever the other requests do, as long as they keep it too,
    every pair's sittings are numbered 1, 2, 3, ... without a gap, each under an
    exam that exists, and an account's lifetime count covers every exam it sat:
    no operation breaks that. A request to start answers only a student, on a
    published and scheduled exam; it either returns the standing sitting,
    unsubmitted, or opens one whose number the exam's limit allows. *)
Theorem sittings_numbered :
  (∀ e u caller w, sitting_rely w → sat_ok (w_db w) → room (w_db w) →
     let '(r, w') := start_attempt e u caller w in
     sat_ok (w_db w') ∧
     match r with
     | Ok (ex, p, created) =>
         caller = Student ∧ draft ex = false ∧ mode (schedule ex) ≠ None ∧
         (if created : bool
          then p.1 = 1 ∨ max_attempts ex = 0 ∨ p.1 ≤ max_attempts ex
          else finished_at p.2 = None)
     | Err _ => True
     end)
  ∧ (∀ e ex u, keeps sat_ok (finish_attempt e ex u))
  ∧ (∀ e u seq l, keeps sat_ok (set_left e u seq l))
  ∧ (∀ e u seq t_now, tx_keeps sat_ok (stamp_left_if_running e u seq t_now))
  ∧ (∀ e ex u caller q s x, keeps sat_ok (save_answer_checked e ex u caller q s x))
  ∧ (∀ e g u m, keeps sat_ok (grade e g u m)) ∧ (∀ e ex u, keeps sat_ok (remove e ex u))
  ∧ (∀ ex, keeps sat_ok (create ex)) ∧ (∀ e p, keeps sat_ok (update e p))
  ∧ (∀ e ex, keeps sat_ok (delete e ex)).
Proof.
  split_and!; try eauto using finish_attempt_sat_ok, set_left_sat_ok, stamp_sat_ok,
    save_answer_sat_ok, grade_sat_ok, remove_sat_ok, create_sat_ok, update_sat_ok,
    delete_exam_sat_ok.
  intros e u caller. set (Q := λ r : result AppError (Exam * Sitting * bool), match r with
    | Ok (ex, p, created) => caller = Student ∧ draft ex = false ∧ mode (schedule ex) ≠ None ∧
        (if created : bool then p.1 = 1 ∨ max_attempts ex = 0 ∨ p.1 ≤ max_attempts ex
         else finished_at p.2 = None)
    | Err _ => True end).
  change (under_rely (start_attempt e u caller) Q). unfold start_attempt.
  assert (∀ err, Q (Err err)) as He by done.
  apply under_rely_bind; [apply keeps_atomic, tx_keeps_gets|done|intros row].
  apply under_rely_lift; [done|intros ex _].
  apply under_rely_lift; [done|intros [] Hsit].
  apply under_rely_lift; [done|intros [] Hst].
  apply under_rely_bind; [apply ensure_enrolled_keeps|done|intros []].
  apply under_rely_bind; [apply require_open_keeps|done|intros []].
  apply under_rely_bind; [apply keeps_now|done|intros t_now].
  assert (∀ err, under_rely (raise (A := Exam * Sitting * bool) err) Q) as Hraise
    by (intros err w _ Hok _; simpl; auto).
  do 2 (match goal with |- under_rely (if ?b then _ else _) _ => destruct b end;
    [apply Hraise|]).
  intros w Hrely Hok Hroom. pose proof (start_keeps e ex u w Hrely Hok Hroom) as Hs.
  unfold mbind, io_bind. destruct (start e ex u w) as [[[p created]|err] w']; simpl.
  - destruct Hs as (? & _ & Hp). split; [done|].
    unfold ensure_student in Hst. case_bool_decide; [|done]. unfold ensure_sittable in Hsit.
    destruct (draft ex); [done|]. destruct (mode (schedule ex)); [|done].
    split_and!; done.
  - by destruct Hs.
Qed.

(** ** Two columns, two writers *)

(** The sitting [k] stands, and its row satisfies [P]. *)
Definition sitting_with (k : uuid * uuid * Z) (P : ExamAttempt → Prop) (t : Tables) : Prop :=
  ∃ a, attempts t !! k = Some a ∧ P a.

Lemma frames_sitting_with {A} k P (m : tx Tables A) : frames m → tx_keeps (sitting_with k P) m.
Proof.
  intros Hm t a t' (b & Hb & HP) E. exists b. by rewrite (ss_attempts _ _ (Hm _ _ _ E)).
Qed.

Lemma insert_sitting_with k P t k' a' :
  (k' = k → P a') → sitting_with k P t → sitting_with k P (set_attempts <[k' := a']> t).
Proof.
  intros Ha (b & Hb & HP). destruct (decide (k' = k)) as [->|Hk].
  - exists a'. split; [apply lookup_insert_eq|by apply Ha].
  - exists b. split; [|done]. cbn [set_attempts attempts]. by rewrite lookup_insert_ne.
Qed.

Lemma update_attempt_with k P e u seq f :
  (∀ a, P a → P (f a)) → tx_keeps (sitting_with k P) (update_attempt e u seq f).
Proof.
  intros Hf t a t' HI. unfold update_attempt.
  destruct (attempts t !! (e, u, seq)) as [b|] eqn:E; [|done]. intros [= _ <-].
  apply insert_sitting_with; [|done]. intros <-. destruct HI as (b' & Hb' & HP).
  assert (b' = b) as -> by congruence. auto.
Qed.

Lemma stamp_with k P e u seq t_now :
  (∀ a l, P a → P (MkAttempt (started_at a) (finished_at a) l)) →
  tx_keeps (sitting_with k P) (stamp_left_if_running e u seq t_now).
Proof.
  intros Hf t a t' HI. unfold stamp_left_if_running.
  destruct (exams t !! e); [|by intros [= _ <-]].
  destruct (attempts t !! (e, u, seq)) as [b|] eqn:E; [|by intros [= _ <-]].
  destruct (still_running _ _ _); intros [= _ <-]; [|done].
  apply insert_sitting_with; [|done]. intros <-. destruct HI as (b' & Hb' & HP).
  assert (b' = b) as -> by congruence. auto.
Qed.

Lemma create_attempt_with k P e u seq started first t_now :
  tx_keeps (sitting_with k P) (create_attempt e u seq started first t_now).
Proof.
  intros t a t' HI. unfold create_attempt. rewrite tx_bind_ok.
  intros ([] & t1 & Hg & Hc). apply guard_start_inv in Hg as (-> & _).
  unfold create_in in Hc. destruct (accounts t !! u); [|by injection Hc as _ <-].
  destruct (attempts t !! (e, u, seq)) eqn:E; [by injection Hc as _ <-|].
  injection Hc as _ <-. destruct HI as (b & Hb & HP). exists b. split; [|done].
  cbn [set_attempts attempts]. rewrite lookup_insert_ne; [done|]. congruence.
Qed.

Lemma sync_with k P user : keeps (sitting_with k P) (sync user).
Proof.
  unfold sync, load. keeps_walk. intros t b t' HI. unfold award.
  destruct (awards t !! (user, _)); [by intros [= _ <-]|].
  destruct (stats_of t user); [|done]. by intros [= _ <-].
Qed.

Lemma start_attempt_with k P e u caller : keeps (sitting_with k P) (start_attempt e u caller).
Proof.
  unfold start_attempt, start, open_sitting, read_exam, list_for_user, read_latest_for_user.
  keeps_walk; eauto using create_attempt_with, sync_with with effects.
Qed.

Lemma finish_attempt_with k P e ex u :
  (∀ a n, P a → P (MkAttempt (started_at a) (Some n) (left_at a))) →
  keeps (sitting_with k P) (finish_attempt e ex u).
Proof.
  intros HP. unfold finish_attempt, finish, read_latest_for_user.
  keeps_walk; eauto using update_attempt_with with effects.
Qed.

Lemma other_handlers_with k P e ex u caller q s x g m p :
  keeps (sitting_with k P) (save_answer_checked e ex u caller q s x)
  ∧ keeps (sitting_with k P) (grade e g u m) ∧ keeps (sitting_with k P) (remove e ex u)
  ∧ keeps (sitting_with k P) (update e p).
Proof.
  split_and!.
  - unfold save_answer_checked, save_answer_in, save. keeps_walk; eauto with effects.
    apply frames_sitting_with, save_in_frames.
  - unfold grade, read_exam, read_latest_for_user. keeps_walk; eauto using sync_with with effects.
    apply frames_sitting_with, grade_frames.
  - unfold remove. keeps_walk; eauto with effects. apply frames_sitting_with, remove_frames.
  - unfold update, update_round, read_exam, any_for_exam. keeps_walk; eauto with effects.
    apply frames_sitting_with, update_exam_frames.
Qed.

(** A submission and a walk-out never erase each other. A submit writes the
    submission and leaves the start and whatever walk-out is recorded; the room
    writes the walk-out and leaves the start and the submission; and once
    submitted, a sitting stays submitted under every operation that does not
    delete its exam, whatever is interleaved with it. *)
Theorem columns_stay_apart k e ex u caller :
  (∀ s l, keeps (sitting_with k (λ a, started_at a = s ∧ left_at a = l)) (finish_attempt e ex u))
  ∧ (∀ s f seq l t_now,
       keeps (sitting_with k (λ a, started_at a = s ∧ finished_at a = f)) (set_left e u seq l)
       ∧ tx_keeps (sitting_with k (λ a, started_at a = s ∧ finished_at a = f))
           (stamp_left_if_running e u seq t_now))
  ∧ let submitted := sitting_with k (λ a, finished_at a ≠ None) in
    keeps submitted (start_attempt e u caller) ∧ keeps submitted (finish_attempt e ex u)
    ∧ (∀ seq l, keeps submitted (set_left e u seq l))
    ∧ (∀ seq t_now, tx_keeps submitted (stamp_left_if_running e u seq t_now))
    ∧ ∀ q s x g m p,
        keeps submitted (save_answer_checked e ex u caller q s x)
        ∧ keeps submitted (grade e g u m) ∧ keeps submitted (remove e ex u)
        ∧ keeps submitted (update e p).
Proof.
  split; [|split].
  - intros s l. apply finish_attempt_with. by intros a n [<- <-].
  - intros s f seq l t_now. split.
    + apply keeps_atomic, update_attempt_with. by intros a [<- <-].
    + apply stamp_with. by intros a l' [<- <-].
  - split_and!.
    + apply start_attempt_with.
    + by apply finish_attempt_with.
    + intros seq l. by apply keeps_atomic, update_attempt_with.
    + intros seq t_now. by apply stamp_with.
    + intros. apply other_handlers_with.
Qed.
