(* ===== verification/MarkProofs.v ===== *)
(** * Marks and their counters

    The counters that ride on a mark ([exam.result_count], [kind_ref.count],
    [app_user.high_mark_total]) balance against the marks stored, over [Exams]:
    what one grading and one removal did, counted row by row. *)

From S2P Require Import Prelude Text Errors Effects Uuid Validate Modules Badges ExamForms Exams ExamProofs.
Open Scope Z_scope.

(** ** Counting over the rows as a list *)

Lemma count_list {A} (P : uuid * uuid * Z * A → Prop) `{!∀ p, Decision (P p)}
    (m : gmap (uuid * uuid * Z) A) :
  count P m = Z.of_nat (length (filter P (map_to_list m))).
Proof.
  unfold count. f_equal. rewrite <-length_map_to_list. apply Permutation_length.
  apply NoDup_Permutation; [apply NoDup_map_to_list|apply NoDup_filter, NoDup_map_to_list|].
  intros [k a]. rewrite elem_of_map_to_list, map_lookup_filter_Some, list_elem_of_filter,
    elem_of_map_to_list. tauto.
Qed.

Lemma count_split {A} (P Q : uuid * uuid * Z * A → Prop) `{!∀ p, Decision (P p)}
    `{!∀ p, Decision (Q p)} (m : gmap (uuid * uuid * Z) A) :
  count P m = count P (filter (λ p, ¬ Q p) m) + count (λ p, Q p ∧ P p) m.
Proof.
  induction m as [|k a m Hk IH] using map_ind.
  - unfold count. rewrite !map_filter_empty. done.
  - rewrite !count_insert_fresh by done. rewrite IH.
    rewrite map_filter_insert. destruct (decide (¬ Q (k, a))) as [HQ|HQ].
    + rewrite count_insert_fresh by (apply map_lookup_filter_None; by left).
      destruct (decide (P (k, a))), (decide (Q (k, a) ∧ P (k, a))); lia || tauto.
    + rewrite (delete_id m k) by done.
      destruct (decide (P (k, a))), (decide (Q (k, a) ∧ P (k, a))); try lia; tauto.
Qed.

Lemma count_iff {A} (P Q : uuid * uuid * Z * A → Prop) `{!∀ p, Decision (P p)}
    `{!∀ p, Decision (Q p)} (m : gmap (uuid * uuid * Z) A) :
  (∀ k a, m !! k = Some a → P (k, a) ↔ Q (k, a)) → count P m = count Q m.
Proof.
  intros HPQ. apply count_ext. apply map_eq. intros k. apply option_eq. intros a.
  rewrite !map_lookup_filter_Some. naive_solver.
Qed.

(** ** The books *)

Definition rows_of (e : uuid) (p : uuid * uuid * Z * ExamResult) : Prop := p.1.1.1 = e.
Definition high_of (u : uuid) (p : uuid * uuid * Z * ExamResult) : Prop :=
  p.1.1.2 = u ∧ HIGH_MARK_MIN ≤ r_mark p.2.
Definition kind_in (t : Tables) (e : uuid) : option str := (λ row, kind (exam row)) <$> exams t !! e.
Definition of_kind (t : Tables) (k : str) (p : uuid * uuid * Z * ExamResult) : Prop :=
  kind_in t p.1.1.1 = Some k.
Definition of_pair (e u : uuid) (p : uuid * uuid * Z * ExamResult) : Prop := p.1.1 = (e, u).

#[export] Instance rows_of_dec e p : Decision (rows_of e p).
Proof. unfold rows_of. apply _. Defined.
#[export] Instance high_of_dec u p : Decision (high_of u p).
Proof. unfold high_of. apply _. Defined.
#[export] Instance of_kind_dec t k p : Decision (of_kind t k p).
Proof. unfold of_kind. apply _. Defined.
#[export] Instance of_pair_dec e u p : Decision (of_pair e u p).
Proof. unfold of_pair. apply _. Defined.

Definition kind_count (t : Tables) (k : str) : Z := default 0 (fst <$> kind_refs t !! k).

(** An exam's count is its marks, and an account's high marks those stored plus
    [slack], what deleted exams left it. *)
Record marks_ok (slack : uuid → Z) (t : Tables) : Prop := {
  bk_exam k r : results t !! k = Some r → is_Some (exams t !! k.1.1);
  bk_rows e row : exams t !! e = Some row → result_count row = count (rows_of e) (results t);
  bk_high u a : accounts t !! u = Some a →
    high_mark (stats a) = count (high_of u) (results t) + slack u;
}.
(** How far a kind's reference count is from the marks of its exams. *)
Definition kind_drift (t : Tables) (k : str) : Z := kind_count t k - count (of_kind t k) (results t).
Definition kinds_ok (t : Tables) : Prop := ∀ k, kind_drift t k = 0.
Definition books (slack : uuid → Z) (t : Tables) : Prop := marks_ok slack t ∧ kinds_ok t.
(** One at [k]. *)
Definition one_at (k k' : str) : Z := if decide (k' = k) then 1 else 0.

(** What one committed grading did. *)
Lemma grade_tx_inv e u seq mark g k t r t' :
  grade_tx e u seq mark g k t = Ok (r, t') →
  ∃ row, exams t !! e = Some row ∧ draft (exam row) = false ∧ r = MkResult mark g
    ∧ results t' = <[(e, u, seq) := r]> (results t)
    ∧ let credit := is_high mark - is_high (default (-1) (r_mark <$> results t !! (e, u, seq))) in
      let high m := if credit =? 0 then m else alter (with_high_mark (λ n, Z.max (n + credit) 0)) u m in
      match results t !! (e, u, seq) with
      | Some old => exams t' = exams t ∧ kind_refs t' = kind_refs t ∧ accounts t' = high (accounts t)
      | None =>
          exams t' = alter (with_results (Z.add 1)) e (exams t)
          ∧ (∃ b, kind_refs t' = <[k := (kind_count t k + 1, b)]> (kind_refs t))
          ∧ accounts t' = high (alter (with_marks_given (Z.add 1)) g (accounts t))
      end.
Proof.
  unfold grade_tx, read_exam. rewrite tx_bind_gets.
  destruct (exams t !! e) as [row|] eqn:Hrow; [|done]. cbn [fmap option_fmap option_map].
  rewrite tx_bind_ok. intros (ex & t1 & Hd & H). apply decide_ok in Hd as [[= <-] ->].
  destruct (draft (exam row)) eqn:Hdraft; [done|]. rewrite tx_bind_gets in H.
  rewrite tx_bind_ok in H. destruct H as ([] & t2 & H1 & H2). cbv zeta in H2.
  rewrite tx_bind_ok in H2. destruct H2 as ([] & t3 & H3 & H4). injection H3 as <-.
  assert (r = MkResult mark g ∧ ∃ t4, t' = set_results <[(e, u, seq) := MkResult mark g]> t4
    ∧ t4 = (if is_high mark - is_high (default (-1) (r_mark <$> results t !! (e, u, seq))) =? 0
            then t2 else set_accounts (alter (with_high_mark (λ n, Z.max (n
              + (is_high mark - is_high (default (-1) (r_mark <$> results t !! (e, u, seq))))) 0)) u) t2))
    as (-> & t4 & -> & ->).
  { unfold sql in H4. repeat case_match; try done; injection H4 as <- <-; split; try done;
      eexists; split; done. }
  exists row. split; [done|]. split; [done|]. split; [done|].
  destruct (results t !! (e, u, seq)) as [old|] eqn:Hold; cbn [fmap option_fmap option_map default] in *.
  - injection H1 as <-. case_match; split_and!; done.
  - rewrite tx_bind_ok in H1. destruct H1 as ([] & t5 & Hk & Hw). injection Hw as <-.
    unfold claim_kind in Hk. unfold kind_count.
    destruct (kind_refs t !! k) as [[n retired]|]; [destruct retired; [done|]|];
      injection Hk as <-; case_match; split_and!; try done; by eexists.
Qed.

Lemma is_high_count u u' e seq m g :
  is_high m = (if decide (HIGH_MARK_MIN ≤ m) then 1 else 0)
  ∧ (if decide (high_of u' (e, u, seq, MkResult m g)) then 1 else 0)
    = (if decide (u' = u) then is_high m else 0).
Proof.
  unfold is_high, high_of, HIGH_MARK_MIN. simpl. split.
  - destruct (Z.leb_spec 90 m), (decide (90 ≤ m)); lia.
  - destruct (decide (u' = u)) as [->|Hne]; destruct (Z.leb_spec 90 m);
      repeat case_decide; naive_solver lia.
Qed.

(** The count of high marks after one mark is stored. *)
Lemma high_stored (m : gmap (uuid * uuid * Z) ExamResult) e u seq mark g u' :
  count (high_of u') (<[(e, u, seq) := MkResult mark g]> m)
    = count (high_of u') m
      + (if decide (u' = u) then is_high mark - is_high (default (-1) (r_mark <$> m !! (e, u, seq)))
         else 0).
Proof.
  rewrite count_insert. destruct (m !! (e, u, seq)) as [[old g']|] eqn:E.
  - rewrite (count_delete _ m _ _ E).
    rewrite (proj2 (is_high_count u u' e seq mark g)), (proj2 (is_high_count u u' e seq old g')).
    simpl. destruct (decide (u' = u)); lia.
  - rewrite delete_id by done. rewrite (proj2 (is_high_count u u' e seq mark g)).
    simpl. change (is_high (-1)) with 0. destruct (decide (u' = u)); lia.
Qed.

Lemma kind_in_alter t t' e f :
  exams t' = alter (with_results f) e (exams t) → ∀ e', kind_in t' e' = kind_in t e'.
Proof.
  intros He e'. unfold kind_in. rewrite He. destruct (decide (e' = e)) as [->|Hne].
  - rewrite lookup_alter_eq. by destruct (exams t !! e).
  - by rewrite lookup_alter_ne.
Qed.

Lemma high_mark_accounts (f : Z → Z) u (m : gmap uuid Account) u' a' :
  alter (with_high_mark f) u m !! u' = Some a' →
  ∃ a, m !! u' = Some a ∧ high_mark (stats a') = (if decide (u' = u) then f (high_mark (stats a))
                                                   else high_mark (stats a)).
Proof.
  destruct (decide (u' = u)) as [->|Hne].
  - rewrite lookup_alter_eq. destruct (m !! u) as [a|]; [|done]. intros [= <-]. by exists a.
  - rewrite lookup_alter_ne by done. eauto.
Qed.

Lemma marks_given_accounts (f : Z → Z) u (m : gmap uuid Account) u' a' :
  alter (with_marks_given f) u m !! u' = Some a' →
  ∃ a, m !! u' = Some a ∧ high_mark (stats a') = high_mark (stats a).
Proof.
  destruct (decide (u' = u)) as [->|Hne].
  - rewrite lookup_alter_eq. destruct (m !! u) as [a|]; [|done]. intros [= <-]. by exists a.
  - rewrite lookup_alter_ne by done. eauto.
Qed.

(** ** Marks taken back *)

Lemma refund_others groups t :
  exams (refund groups t) = exams t ∧ results (refund groups t) = results t
  ∧ kind_refs (refund groups t) = kind_refs t
  ∧ ∀ u a', accounts (refund groups t) !! u = Some a' →
      ∃ a, accounts t !! u = Some a ∧ high_mark (stats a') = high_mark (stats a).
Proof.
  revert t. induction groups as [|[g n] groups IH]; intros t; [split_and!; eauto|]. cbn [refund].
  destruct (IH (set_accounts (alter (with_marks_given (λ m, Z.max (m - n) 0)) g) t))
    as (-> & -> & -> & Ha).
  split_and!; try done. intros u a' Ha'. destruct (Ha u a' Ha') as (a1 & Ha1 & ->).
  by apply marks_given_accounts in Ha1.
Qed.

Lemma gone_length t e u :
  Z.of_nat (length (marks_of t e u)) = count (of_pair e u) (results t).
Proof. unfold marks_of. by rewrite length_fmap, count_list. Qed.

Lemma gone_high t e u :
  high_marks (merge_sort by_seq (marks_of t e u))
    = count (λ p, of_pair e u p ∧ high_of u p) (results t).
Proof.
  rewrite count_list. unfold high_marks. f_equal. rewrite merge_sort_Permutation.
  unfold marks_of. induction (map_to_list (results t)) as [|[[[e' u'] s] r] l IH]; [done|].
  rewrite !filter_cons. unfold of_pair, high_of in *. cbn [fst snd] in *.
  destruct (decide ((e', u') = (e, u))) as [[= -> ->]|Hne].
  - rewrite fmap_cons, filter_cons. cbn [fst snd].
    rewrite (decide_ext ((e, u) = (e, u) ∧ u = u ∧ HIGH_MARK_MIN ≤ r_mark r)
               (HIGH_MARK_MIN ≤ r_mark r)) by tauto.
    destruct (decide (HIGH_MARK_MIN ≤ r_mark r)); cbn [length]; by rewrite IH.
  - rewrite decide_False by tauto. exact IH.
Qed.

Lemma remove_marks_inv e u k t r t' :
  remove_marks e u k t = Ok (r, t') →
  (count (of_pair e u) (results t) = 0 ∧ t' = t)
  ∨ (let n := count (of_pair e u) (results t) in
     let high := count (λ p, of_pair e u p ∧ high_of u p) (results t) in
     results t' = filter (λ p, ¬ of_pair e u p) (results t)
     ∧ kind_refs t' = alter (λ k, (Z.max (k.1 - n) 0, k.2)) k (kind_refs t)
     ∧ exams t' = alter (with_results (λ c, Z.max (c - n) 0)) e (exams t)
     ∧ ∀ u' a', accounts t' !! u' = Some a' → ∃ a, accounts t !! u' = Some a
         ∧ high_mark (stats a') = (if decide (u' = u ∧ 0 < high)
              then Z.max (high_mark (stats a) - high) 0 else high_mark (stats a))).
Proof.
  unfold remove_marks. case_bool_decide as Hnil.
  - intros [= _ <-]. left. split; [|done]. rewrite <-gone_length.
    apply (f_equal length) in Hnil. rewrite merge_sort_Permutation in Hnil. simpl in Hnil. lia.
  - assert (Z.of_nat (length (merge_sort by_seq (marks_of t e u))) = count (of_pair e u) (results t))
      as Hlen by (rewrite <-gone_length; f_equal; apply Permutation_length, merge_sort_Permutation).
    cbv zeta. rewrite gone_high, Hlen. intros [= _ <-]. right.
    match goal with |- context [refund ?g ?x] => destruct (refund_others g x) as (-> & -> & -> & Ha) end.
    split_and!; try (by destruct (0 <? _)). intros u' a' Ha'.
    destruct (Ha u' a' Ha') as (a1 & Ha1 & ->).
    destruct (Z.ltb_spec 0 (count (λ p, of_pair e u p ∧ high_of u p) (results t))) as [Hp|Hp].
    + apply high_mark_accounts in Ha1 as (a & Ha1 & ->). exists a. split; [done|].
      destruct (decide (u' = u)), (decide (u' = u ∧ _)); tauto || done.
    + exists a1. split; [exact Ha1|]. rewrite decide_False; [done|lia].
Qed.

Section Balance.
Context (slack : uuid → Z) (Hslack : ∀ u, 0 ≤ slack u).

(** The graded student's counter, over accounts whose high marks have not moved. *)
Lemma credited_high t e u seq mark g (accs : gmap uuid Account) before
    (credit := is_high mark - is_high (default (-1) (r_mark <$> before))) u' a' :
  marks_ok slack t → results t !! (e, u, seq) = before →
  (∀ u' a', accs !! u' = Some a' →
     ∃ a, accounts t !! u' = Some a ∧ high_mark (stats a') = high_mark (stats a)) →
  (if credit =? 0 then accs
   else alter (with_high_mark (λ n, Z.max (n + credit) 0)) u accs) !! u' = Some a' →
  high_mark (stats a')
    = count (high_of u') (<[(e, u, seq) := MkResult mark g]> (results t)) + slack u'.
Proof using Hslack.
  intros B Hb Haccs Ha'. rewrite high_stored, Hb. fold credit.
  pose proof (count_nonneg (high_of u') (<[(e, u, seq) := MkResult mark g]> (results t))) as Hpos.
  rewrite high_stored, Hb in Hpos. fold credit in Hpos. specialize (Hslack u').
  destruct (Z.eqb_spec credit 0) as [Hz|Hz].
  - destruct (Haccs _ _ Ha') as (a & Ha & ->). rewrite (bk_high _ _ B _ _ Ha).
    destruct (decide (u' = u)); lia.
  - apply high_mark_accounts in Ha' as (a1 & Ha1 & ->).
    destruct (Haccs _ _ Ha1) as (a & Ha & ->). rewrite (bk_high _ _ B _ _ Ha).
    destruct (decide (u' = u)); lia.
Qed.

Lemma grade_marks e u seq mark g k t r t' :
  marks_ok slack t → grade_tx e u seq mark g k t = Ok (r, t') → marks_ok slack t'.
Proof using Hslack.
  intros B Hg. destruct (grade_tx_inv _ _ _ _ _ _ _ _ _ Hg) as (row & Hrow & _ & -> & Hr & H). cbv zeta in H.
  destruct (results t !! (e, u, seq)) as [old|] eqn:Hold.
  - destruct H as (He & Hk & Hu). split.
    + intros j r. rewrite Hr, He. destruct (decide (j = (e, u, seq))) as [->|Hne].
      * intros _. by eexists.
      * rewrite lookup_insert_ne by done. apply (bk_exam _ _ B).
    + intros e' row'. rewrite He, Hr. intros Hrow2.
      rewrite (count_replace _ _ _ _ _ Hold) by done. by apply (bk_rows _ _ B).
    + intros u' a'. rewrite Hu, Hr. by apply credited_high; eauto.
  - destruct H as (He & _ & Hu). split.
    + intros j r. rewrite Hr, He. intros Hres.
      assert (is_Some (exams t !! j.1.1)) as [x Hx].
      { destruct (decide (j = (e, u, seq))) as [->|Hne]; [by eexists|].
        rewrite lookup_insert_ne in Hres by done. by apply (bk_exam _ _ B j r). }
      destruct (decide (j.1.1 = e)) as [Heq|Hne].
      * rewrite Heq in Hx |- *. rewrite lookup_alter_eq, Hx. by eexists.
      * rewrite lookup_alter_ne by done. by eexists.
    + intros e' row'. rewrite He, Hr, count_insert_fresh by done.
      destruct (decide (e' = e)) as [->|Hne].
      * rewrite lookup_alter_eq, Hrow. intros [= <-]. unfold with_results. cbn [result_count].
        rewrite (bk_rows _ _ B _ _ Hrow). rewrite decide_True by done. lia.
      * rewrite lookup_alter_ne by done. intros Hrow2. rewrite (bk_rows _ _ B _ _ Hrow2).
        rewrite decide_False; [lia|]. unfold rows_of. simpl. congruence.
    + intros u' a'. rewrite Hu, Hr. apply credited_high; [done..|].
      intros u2 a2. apply marks_given_accounts.
Qed.

(** A mark newly stored is counted where the grader's reading of the exam put it,
    and stands where the exam is. *)
Lemma grade_drift e u seq mark g k row t r t' :
  exams t !! e = Some row → grade_tx e u seq mark g k t = Ok (r, t') →
  ∀ k', kind_drift t' k' = kind_drift t k'
    + match results t !! (e, u, seq) with Some _ => 0 | None => one_at k k' - one_at (kind (exam row)) k' end.
Proof using Type.
  intros Hrow Hg k'. destruct (grade_tx_inv _ _ _ _ _ _ _ _ _ Hg) as (row' & Hrow' & _ & -> & Hr & H).
  assert (row' = row) as -> by congruence. cbv zeta in H. unfold kind_drift.
  destruct (results t !! (e, u, seq)) as [old|] eqn:Hold.
  - destruct H as (He & Hk & _). unfold kind_count. rewrite Hk, Hr. rewrite (count_replace _ _ _ _ _ Hold) by done.
    rewrite (count_iff (of_kind t' k') (of_kind t k')); [lia|]. intros j x _. unfold of_kind, kind_in. by rewrite He.
  - destruct H as (He & (b & Hk) & _). pose proof (kind_in_alter t t' e _ He) as Hkind.
    rewrite Hr, count_insert_fresh by done.
    rewrite (count_iff (of_kind t' k') (of_kind t k')) by (intros j x _; unfold of_kind; by rewrite Hkind).
    rewrite (decide_ext (of_kind t' k' (e, u, seq, MkResult mark g)) (k' = kind (exam row))).
    2:{ unfold of_kind. cbn [fst]. rewrite Hkind. unfold kind_in. rewrite Hrow. cbn. naive_solver. }
    assert (kind_count t' k' = kind_count t k' + one_at k k') as ->; [|unfold one_at; lia].
    unfold one_at, kind_count at 1. rewrite Hk. case_decide as E.
    + subst. by rewrite lookup_insert_eq.
    + rewrite lookup_insert_ne by congruence. unfold kind_count. lia.
Qed.

(** The counts over what a removal leaves. *)
Lemma count_pair_gone (m : gmap (uuid * uuid * Z) ExamResult) e u
    (P : uuid * uuid * Z * ExamResult → Prop) `{!∀ p, Decision (P p)} (b : bool) :
  (∀ p, of_pair e u p → if b then P p else ¬ P p) →
  count P (filter (λ p, ¬ of_pair e u p) m)
    = count P m - (if b then count (of_pair e u) m else 0).
Proof.
  intros Hp. rewrite (count_split P (of_pair e u) m). destruct b.
  - rewrite (count_iff (λ p, of_pair e u p ∧ P p) (of_pair e u) m); [lia|].
    intros k a _. split; [tauto|]. intros Hx. split; [done|by apply Hp].
  - assert (count (λ p, of_pair e u p ∧ P p) m = 0) as ->; [|lia].
    apply count_0. intros k a _ [H1 H2]. by apply (Hp _ H1).
Qed.

Lemma remove_books e u k0 t row r t' :
  exams t !! e = Some row → marks_ok slack t → remove_marks e u k0 t = Ok (r, t') →
  marks_ok slack t' ∧ (∀ s, results t' !! (e, u, s) = None)
  ∧ (k0 = kind (exam row) → kinds_ok t → kinds_ok t').
Proof using Hslack.
  intros Hrow B Hg.
  destruct (remove_marks_inv _ _ _ _ _ _ Hg) as [[Hz ->]|(Hr & Hk & He & Hu)].
  { split; [done|]. split; [|done]. intros s. destruct (results t !! (e, u, s)) as [x|] eqn:E; [|done].
    destruct (proj1 (count_0 _ _) Hz _ _ E). done. }
  set (n := count (of_pair e u) (results t)) in *.
  set (high := count (λ p, of_pair e u p ∧ high_of u p) (results t)) in *.
  pose proof (kind_in_alter t t' e _ He) as Hkind.
  assert (0 ≤ n) as Hn by apply count_nonneg.
  split_and!.
  2:{ intros s. rewrite Hr. apply map_lookup_filter_None. right. intros x _ Hx. by apply Hx. }
  2:{ intros -> Bk k. pose proof (Bk k) as Hbk. unfold kind_drift in *. unfold kind_count in *. rewrite Hk, Hr.
    rewrite (count_iff (of_kind t' k) (of_kind t k)) by (intros k' r' _; unfold of_kind; by rewrite Hkind).
    assert (∀ p, of_pair e u p → kind_in t p.1.1.1 = Some (kind (exam row))) as Hkp.
    { intros [[[e1 u1] s1] x]. unfold of_pair, kind_in. cbn. intros [= -> ->]. by rewrite Hrow. }
    destruct (decide (k = kind (exam row))) as [->|Hne].
    - pose proof (count_pair_gone (results t) e u (of_kind t (kind (exam row))) true Hkp) as Hc.
      cbv iota in Hc. fold n in Hc. rewrite Hc, lookup_alter_eq.
      pose proof (count_nonneg (of_kind t (kind (exam row))) (filter (λ p, ¬ of_pair e u p) (results t))).
      destruct (kind_refs t !! kind (exam row)) as [[c b]|]; cbn in *; lia.
    - rewrite lookup_alter_ne by done.
      rewrite (count_pair_gone (results t) e u (of_kind t k) false); [lia|].
      intros p Hp. unfold of_kind. rewrite (Hkp p Hp). congruence. }
  split.
  - intros k x. rewrite Hr, He. intros [Hx _]%map_lookup_filter_Some.
    apply (bk_exam _ _ B) in Hx as [y Hy].
    destruct (decide (k.1.1 = e)) as [Heq|Hne].
    + rewrite Heq in Hy |- *. rewrite lookup_alter_eq, Hy. by eexists.
    + rewrite lookup_alter_ne by done. by eexists.
  - intros e' row'. rewrite He, Hr. destruct (decide (e' = e)) as [->|Hne].
    + rewrite lookup_alter_eq, Hrow. intros [= <-]. cbn [with_results result_count].
      rewrite (bk_rows _ _ B _ _ Hrow).
      assert (∀ p, of_pair e u p → rows_of e p) as Hall
        by (intros [[[e1 u1] s1] x]; unfold of_pair, rows_of; cbn; congruence).
      pose proof (count_pair_gone (results t) e u (rows_of e) true Hall) as Hc.
      rewrite Hc. fold n. pose proof (count_nonneg (rows_of e) (filter (λ p, ¬ of_pair e u p) (results t))).
      cbv iota in Hc. fold n in Hc. lia.
    + rewrite lookup_alter_ne by done. intros Hrow'. rewrite (bk_rows _ _ B _ _ Hrow').
      rewrite (count_pair_gone (results t) e u (rows_of e') false); [lia|].
      intros [[[e1 u1] s1] x]. unfold of_pair, rows_of. cbn. congruence.
  - intros u' a' Ha'. rewrite Hr. destruct (Hu _ _ Ha') as (a & Ha & ->).
    rewrite (bk_high _ _ B _ _ Ha). specialize (Hslack u').
    pose proof (count_split (high_of u') (of_pair e u) (results t)) as Hs.
    pose proof (count_nonneg (high_of u') (filter (λ p, ¬ of_pair e u p) (results t))).
    pose proof (count_nonneg (λ p, of_pair e u p ∧ high_of u' p) (results t)).
    destruct (decide (u' = u)) as [->|Hne].
    + fold high in Hs. assert (0 ≤ high) by apply count_nonneg. destruct (decide (u = u ∧ 0 < high)); lia.
    + rewrite decide_False by tauto.
      assert (count (λ p, of_pair e u p ∧ high_of u' p) (results t) = 0) as Hz; [|lia].
      apply count_0. intros [[e1 u1] s1] x _ [H1 [H2 _]]. unfold of_pair in H1. cbn in *. congruence.
Qed.

Lemma count_exam_gone (m : gmap (uuid * uuid * Z) ExamResult) e
    (P : uuid * uuid * Z * ExamResult → Prop) `{!∀ p, Decision (P p)} :
  count P (filter (λ p, ¬ rows_of e p) m) = count P m - count (λ p, rows_of e p ∧ P p) m.
Proof. rewrite (count_split P (rows_of e) m). lia. Qed.

Lemma delete_books e t row r t' :
  exams t !! e = Some row → books slack t → delete_tx e t = Ok (r, t') →
  books (λ u, slack u + count (λ p, rows_of e p ∧ high_of u p) (results t)) t'
  ∧ ∀ k x, results t' !! k = Some x → k.1.1 ≠ e.
Proof using Type.
  intros Hrow [B Bk] Hd.
  destruct (delete_tx_inv _ _ _ _ Hd) as (row' & Hrow' & _ & He & _ & Hr & _ & _ & Hu & Hk).
  assert (row' = row) as -> by congruence. clear Hrow'.
  assert (results_of t e = count (rows_of e) (results t)) as Hn.
  { reflexivity. }
  assert (results t' = filter (λ p, ¬ rows_of e p) (results t)) as Hr'.
  { rewrite Hr. by apply map_filter_ext. }
  assert (∀ k x, results t' !! k = Some x → k.1.1 ≠ e) as Hgone.
  { intros k x. rewrite Hr'. intros [_ Hx]%map_lookup_filter_Some. exact Hx. }
  split; [|done]. split; [split|].
  - intros k x Hx. pose proof (Hgone _ _ Hx) as Hne. rewrite He, lookup_delete_ne by done.
    rewrite Hr' in Hx. apply map_lookup_filter_Some in Hx as [Hx _]. by apply (bk_exam _ _ B) in Hx.
  - intros e' row'. rewrite He, Hr'. destruct (decide (e' = e)) as [->|Hne];
      [by rewrite lookup_delete_eq|]. rewrite lookup_delete_ne by done. intros Hrow'.
    rewrite (bk_rows _ _ B _ _ Hrow'), count_exam_gone.
    assert (count (λ p, rows_of e p ∧ rows_of e' p) (results t) = 0) as ->; [|lia].
    apply count_0. intros k x _ [H1 H2]. unfold rows_of in *. congruence.
  - intros u a. rewrite Hu, Hr', count_exam_gone. intros Ha. rewrite (bk_high _ _ B _ _ Ha). lia.
  - intros k. pose proof (Bk k) as Hbk. unfold kind_drift in *. rewrite (count_iff (of_kind t' k) (of_kind t k)).
    2:{ intros j x Hx. unfold of_kind, kind_in. cbn [fst]. rewrite He, lookup_delete_ne; [done|].
        intros E. by apply (Hgone _ _ Hx). }
    rewrite Hr', count_exam_gone. unfold kind_count in *. rewrite Hk, Hn.
    assert (count (λ p, rows_of e p ∧ of_kind t k p) (results t)
      = if decide (k = kind (exam row)) then count (rows_of e) (results t) else 0) as ->.
    { destruct (decide (k = kind (exam row))) as [->|Hne].
      - apply count_iff. intros j x _. unfold rows_of, of_kind, kind_in. cbn [fst snd].
        split; [tauto|]. intros E. split; [done|]. by rewrite E, Hrow.
      - apply count_0. intros j x _ [H1 H2]. unfold rows_of, of_kind, kind_in in *. cbn [fst snd] in *.
        rewrite H1, Hrow in H2. cbn in H2. congruence. }
    pose proof (count_nonneg (rows_of e) (results t)).
    destruct (Z.eqb_spec (count (rows_of e) (results t)) 0) as [Hz|Hz].
    + destruct (decide _); lia.
    + destruct (decide (k = kind (exam row))) as [->|Hne].
      * rewrite lookup_alter_eq.
        pose proof (count_split (of_kind t (kind (exam row))) (rows_of e) (results t)) as Hs.
        pose proof (count_nonneg (of_kind t (kind (exam row))) (filter (λ p, ¬ rows_of e p) (results t))).
        rewrite (count_iff (λ p, rows_of e p ∧ of_kind t (kind (exam row)) p) (rows_of e)) in Hs.
        2:{ intros j x _. unfold rows_of, of_kind, kind_in. cbn [fst snd].
            split; [tauto|]. intros E. split; [done|]. by rewrite E, Hrow. }
        destruct (kind_refs t !! kind (exam row)) as [[c b]|]; cbn in *; lia.
      * rewrite lookup_alter_ne by done. lia.
Qed.

(** An edit leaves the marks where they are, and moves them with the exam's kind
    under the counts of the two kinds. *)
Lemma update_marks e expected new t r t' :
  marks_ok slack t → update_if_unchanged e expected new t = Ok (r, t') →
  marks_ok slack t'
  ∧ ∀ row, exams t !! e = Some row → ∀ k, kind_drift t' k = kind_drift t k
      + match r with Some saved => result_count row * (one_at (kind (exam row)) k - one_at (kind saved) k) | None => 0 end.
Proof using Type.
  intros B. unfold update_if_unchanged. destruct (_ && (sat t e || graded t e)); [done|].
  destruct (exams t !! e) as [row|] eqn:Hrow; [|intros [= <- <-]; split; [done|intros; lia]].
  destruct (same_editable _ _ && _) eqn:Hsame; [|intros [= <- <-]; split; [done|intros; lia]]. intros [= <- <-].
  set (t1 := set_exams _ t). split.
  - split; cbn [t1 set_exams exams results accounts].
    + intros k x Hx. destruct (decide (k.1.1 = e)) as [Heq|Hne].
      * rewrite Heq, lookup_insert_eq. by eexists.
      * rewrite lookup_insert_ne by done. by apply (bk_exam _ _ B) in Hx.
    + intros e' row'. destruct (decide (e' = e)) as [->|Hne].
      * rewrite lookup_insert_eq. intros [= <-]. cbn. by apply (bk_rows _ _ B).
      * rewrite lookup_insert_ne by done. apply (bk_rows _ _ B).
    + apply (bk_high _ _ B).
  - intros ? [= <-] k. unfold kind_drift. change (kind_count t1 k) with (kind_count t k). change (results t1) with (results t).
    rewrite (bk_rows _ _ B _ _ Hrow).
    pose proof (count_split (of_kind t k) (rows_of e) (results t)) as H0.
    pose proof (count_split (of_kind t1 k) (rows_of e) (results t)) as H1.
    assert (∀ t2 x, kind_in t2 e = Some x →
      count (λ p, rows_of e p ∧ of_kind t2 k p) (results t) = count (rows_of e) (results t) * one_at x k) as Hon.
    { intros t2 x Hx. unfold one_at. case_decide as E.
      - subst x. rewrite Z.mul_1_r. apply count_iff. intros j y _. unfold rows_of, of_kind. cbn [fst snd]. naive_solver congruence.
      - rewrite Z.mul_0_r. apply count_0. intros j y _ [Hj Hy]. unfold rows_of, of_kind in *. cbn [fst snd] in *. congruence. }
    rewrite (Hon t (kind (exam row))) in H0 by (unfold kind_in; by rewrite Hrow).
    rewrite (Hon t1 (kind (edited (exam row) new))) in H1 by (unfold kind_in, t1; cbn; by rewrite lookup_insert_eq).
    rewrite (count_iff (of_kind t1 k) (of_kind t k) (filter _ _)) in H1; [lia|].
    intros j y [_ Hj]%map_lookup_filter_Some. unfold of_kind, kind_in, t1, rows_of in *. cbn [fst set_exams exams] in *.
    by rewrite lookup_insert_ne by congruence.
Qed.
End Balance.

(** C9. The counters that ride on a mark move as the marks do. When every exam's
    [result_count] is the number of its marks and every student's high-mark total
    the number of their high marks (plus what deleted exams left), a grading under
    any claimed kind, a regrading across the line in either direction, the removal
    of a pair's marks and an edit of the exam leave it so, and a removal leaves no
    mark of the pair. The reference count of a kind drifts from its marks exactly
    so: a mark newly stored adds one at the kind the grader had read and takes one
    at the exam's, so nothing when they agree; an edit that lands moves the exam's
    marks from its old kind to the new one, so nothing when the kind stays or the
    exam has none; a removal under the exam's own kind keeps balanced counts
    balanced. Deleting an exam keeps everything balanced, and leaves each student
    the high marks they had on it. *)
Theorem marks_balance slack t e row :
  (∀ u, 0 ≤ slack u) → marks_ok slack t → exams t !! e = Some row →
  (∀ u seq mark g k r t', grade_tx e u seq mark g k t = Ok (r, t') →
     marks_ok slack t' ∧ ∀ k', kind_drift t' k' = kind_drift t k'
       + match results t !! (e, u, seq) with Some _ => 0 | None => one_at k k' - one_at (kind (exam row)) k' end)
  ∧ (∀ u k r t', remove_marks e u k t = Ok (r, t') →
       marks_ok slack t' ∧ (∀ s, results t' !! (e, u, s) = None)
       ∧ (k = kind (exam row) → kinds_ok t → kinds_ok t'))
  ∧ (∀ r t', kinds_ok t → delete_tx e t = Ok (r, t') →
       marks_ok (λ u, slack u + count (λ p, rows_of e p ∧ high_of u p) (results t)) t' ∧ kinds_ok t'
       ∧ ∀ k x, results t' !! k = Some x → k.1.1 ≠ e)
  ∧ (∀ expected new r t', update_if_unchanged e expected new t = Ok (r, t') →
       marks_ok slack t' ∧ ∀ k, kind_drift t' k = kind_drift t k
         + match r with Some saved => result_count row * (one_at (kind (exam row)) k - one_at (kind saved) k) | None => 0 end).
Proof.
  intros Hslack B Hrow. split_and!.
  - intros. split; [by eapply grade_marks|by eapply grade_drift].
  - intros. by eapply remove_books.
  - intros r t' Bk Hd. destruct (delete_books slack e t row r t' Hrow (conj B Bk) Hd) as ((? & ?) & ?). by split_and!.
  - intros expected new r t' Hu. destruct (update_marks slack e expected new t r t' B Hu) as [? Hk]. split; [done|]. by apply Hk.
Qed.
