(* ===== verification/QuestionProofs.v ===== *)
(** * Frozen questions and the answers to them

    Once an exam has a sitting its questions never change, under any
    interleaving, and so every stored answer keeps naming a choice its question
    has: over [Exams]. *)

From S2P Require Import Prelude Text Errors Effects Uuid Validate Modules Badges ExamForms Exams ExamProofs.
Open Scope Z_scope.

(** ** Transactions that leave the questions alone *)

(** No question moves, no exam goes, no sitting goes. *)
Record calm (t t' : Tables) : Prop := {
  ca_questions : questions t' = questions t;
  ca_exams e : is_Some (exams t !! e) → is_Some (exams t' !! e);
  ca_attempts k : is_Some (attempts t !! k) → is_Some (attempts t' !! k);
}.

#[export] Instance calm_preorder : PreOrder calm.
Proof.
  split.
  - intros t. split; eauto.
  - intros t1 t2 t3 [Q1 E1 A1] [Q2 E2 A2]. split; [congruence|eauto..].
Qed.

Lemma same_sittings_calm t t' : same_sittings t t' → questions t' = questions t → calm t t'.
Proof. intros [Ha He _] Hq. split; [done|done|]. intros k. by rewrite Ha. Qed.

Lemma calm_attempt k a t : calm t (set_attempts <[k := a]> t).
Proof.
  split; [done|done|]. intros k' Hk'. cbn [set_attempts attempts].
  destruct (decide (k' = k)) as [->|Hne];
    [rewrite lookup_insert_eq; by eexists|by rewrite lookup_insert_ne].
Qed.

(** No question moves. *)
Definition same_questions (t t' : Tables) : Prop := questions t' = questions t.
#[export] Instance same_questions_preorder : PreOrder same_questions.
Proof. unfold same_questions. split; [done|]. intros t1 t2 t3 ? ?. congruence. Qed.

Lemma framed_calm {A} (m : tx Tables A) : frames m → framed same_questions m → framed calm m.
Proof.
  intros Hs Hq t a t' E. apply same_sittings_calm; [by eapply Hs|by eapply (Hq _ _ _ E)].
Qed.

#[export] Hint Extern 1 (same_questions _ _) => (unfold same_questions; reflexivity) : sittings.

Lemma grade_same_questions e u seq mark g k : framed same_questions (grade_tx e u seq mark g k).
Proof.
  unfold grade_tx, read_exam. apply framed_bind; [apply _|frames_walk|intros row].
  apply framed_bind; [apply _|frames_walk|intros ex]. case_match; [apply framed_refuse|].
  apply framed_bind; [apply _|frames_walk|intros before]. apply framed_bind; [apply _|..].
  - destruct before; [frames_walk|]. apply framed_bind; [apply _| |intros _; frames_walk].
    unfold claim_kind. frames_sql.
  - intros _. cbv zeta. apply framed_bind; [apply _| |intros _; frames_sql].
    apply framed_writes. intros t. cbn [snd]. by case_match.
Qed.

Lemma remove_same_questions e u k : framed same_questions (remove_marks e u k).
Proof.
  intros t a t'. unfold remove_marks. case_bool_decide; [by intros [= _ <-]|].
  intros [= _ <-]. assert (∀ gs t, questions (refund gs t) = questions t) as Hr.
  { induction gs as [|[g n] gs IH]; intros t0; [done|]. cbn [refund]. by rewrite IH. }
  unfold same_questions. rewrite Hr. by case_match.
Qed.

Lemma grade_calm e u seq mark g k : framed calm (grade_tx e u seq mark g k).
Proof. apply framed_calm; [apply grade_frames|apply grade_same_questions]. Qed.
Lemma remove_calm e u k : framed calm (remove_marks e u k).
Proof. apply framed_calm; [apply remove_frames|apply remove_same_questions]. Qed.
Lemma save_in_calm q e u seq s x n : framed calm (save_in q e u seq s x n).
Proof. apply framed_calm; [apply save_in_frames|]. unfold save_in. frames_sql. Qed.
Lemma update_exam_calm e expected new : framed calm (update_if_unchanged e expected new).
Proof. apply framed_calm; [apply update_exam_frames|]. unfold update_if_unchanged. frames_sql. Qed.
Lemma insert_exam_calm i ex : framed calm (insert_exam i ex).
Proof. apply framed_calm; [apply insert_exam_frames|]. unfold insert_exam. frames_sql. Qed.

Lemma award_calm user badge at_ : framed calm (award (S := Tables) user badge at_).
Proof.
  intros t a t'. unfold award. destruct (awards t !! (user, badge)); [by intros [= _ <-]|].
  destruct (stats_of t user); [|done]. intros [= _ <-]. split; eauto.
Qed.

Lemma create_attempt_calm e u seq started first t_now :
  framed calm (create_attempt e u seq started first t_now).
Proof.
  intros t a t'. unfold create_attempt. rewrite tx_bind_ok.
  intros ([] & t1 & Hg & Hc). apply guard_start_inv in Hg as (-> & _). unfold create_in in Hc.
  destruct (accounts t !! u); [|by injection Hc as _ <-].
  destruct (attempts t !! (e, u, seq)); [by injection Hc as _ <-|]. injection Hc as _ <-.
  etransitivity; [|apply calm_attempt]. split; eauto.
Qed.

Lemma update_attempt_calm e u seq f : framed calm (update_attempt e u seq f).
Proof.
  intros t a t'. unfold update_attempt. destruct (attempts t !! _); [|done].
  intros [= _ <-]. apply calm_attempt.
Qed.

Lemma stamp_calm e u seq n : framed calm (stamp_left_if_running e u seq n).
Proof.
  intros t a t'. unfold stamp_left_if_running. destruct (exams t !! e); [|by intros [= _ <-]].
  destruct (attempts t !! _); [|by intros [= _ <-]].
  destruct (still_running _ _ _); intros [= _ <-]; [apply calm_attempt|done].
Qed.

(** ** The handlers, for any invariant their transactions keep *)

Record tx_all_keep (I : Tables → Prop) : Prop := {
  ta_award user badge at_ : tx_keeps I (award user badge at_);
  ta_create e u seq started first n : tx_keeps I (create_attempt e u seq started first n);
  ta_update e u seq f : tx_keeps I (update_attempt e u seq f);
  ta_stamp e u seq n : tx_keeps I (stamp_left_if_running e u seq n);
  ta_grade e u seq mark g k : tx_keeps I (grade_tx e u seq mark g k);
  ta_remove e u k : tx_keeps I (remove_marks e u k);
  ta_save e expected new : tx_keeps I (update_if_unchanged e expected new);
  ta_insert i ex : tx_keeps I (insert_exam i ex);
}.

Section Handlers.
Context (I : Tables → Prop) (HI : tx_all_keep I).
#[local] Hint Resolve ta_award ta_create ta_update ta_stamp ta_grade ta_remove ta_save ta_insert
  : effects.

Lemma sync_all user : keeps I (sync user).
Proof using HI. unfold sync, load. keeps_walk. eauto with effects. Qed.
#[local] Hint Resolve sync_all : effects.

Lemma all_handlers e ex u caller g mk p seq l :
  keeps I (start_attempt e u caller) ∧ keeps I (finish_attempt e ex u)
  ∧ keeps I (set_left e u seq l) ∧ tx_keeps I (stamp_left_if_running e u seq mk)
  ∧ keeps I (grade e g u mk) ∧ keeps I (remove e ex u) ∧ keeps I (update e p) ∧ keeps I (create ex).
Proof using HI.
  split_and!.
  - unfold start_attempt, start, open_sitting, read_exam, list_for_user, read_latest_for_user.
    keeps_walk; eauto with effects.
  - unfold finish_attempt, finish, read_latest_for_user. keeps_walk; eauto with effects.
  - unfold set_left. keeps_walk; eauto with effects.
  - eauto with effects.
  - unfold grade, read_exam, read_latest_for_user. keeps_walk; eauto with effects.
  - unfold remove. keeps_walk; eauto with effects.
  - unfold update, update_round, read_exam, any_for_exam. keeps_walk; eauto with effects.
  - unfold create. keeps_walk; eauto with effects.
Qed.
End Handlers.

(** What a calm transaction keeps, they keep. *)
Lemma calm_all_keep I : (∀ t t', calm t t' → I t → I t') → tx_all_keep I.
Proof.
  intros HI. split; intros; eapply framed_keeps; eauto using award_calm, create_attempt_calm,
    update_attempt_calm, stamp_calm, grade_calm, remove_calm, update_exam_calm, insert_exam_calm.
Qed.

Lemma calm_save I e ex u caller q s x :
  (∀ t t', calm t t' → I t → I t') → keeps I (save_answer_checked e ex u caller q s x).
Proof.
  intros HI. unfold save_answer_checked, save_answer_in, save. keeps_walk; eauto with effects.
  eapply framed_keeps; [done|apply save_in_calm].
Qed.

(** ** Frozen papers *)

Lemma sat_spec t e : sat t e = true ↔ ∃ u s a, attempts t !! (e, u, s) = Some a.
Proof.
  unfold sat. rewrite existsb_exists. split.
  - intros ([[[e' u] s] a] & Hin & Hb). apply bool_decide_eq_true in Hb. cbn in Hb. subst e'.
    exists u, s, a. apply list_elem_of_In in Hin. by apply elem_of_map_to_list in Hin.
  - intros (u & s & a & Ha). exists ((e, u, s), a). split; [|by apply bool_decide_eq_true].
    apply list_elem_of_In. by apply elem_of_map_to_list.
Qed.

(** A question without its two links to the bank, which a save to the bank and the
    deletion of a template rewrite whether or not the exam was sat. *)
Definition asked (q : ExamQuestion) : ExamQuestion :=
  MkQuestion (q_exam q) (q_subject q) (q_text q) (q_kind q) (q_points q) (q_choices q)
    (q_correct q) None None.

(** The paper of an exam: its questions, as a student is asked them. *)
Definition paper (t : Tables) (e : uuid) : gmap uuid ExamQuestion :=
  asked <$> filter (λ p : uuid * ExamQuestion, q_exam p.2 = e) (questions t).

Definition frozen (e : uuid) (Q : gmap uuid ExamQuestion) (t : Tables) : Prop :=
  is_Some (exams t !! e) ∧ sat t e = true ∧ paper t e = Q.

(** The exam column of a question is never written: a row read once tells it. *)
Definition question_under (i e : uuid) (t : Tables) : Prop :=
  ∀ row, questions t !! i = Some row → q_exam row = e.

Lemma calm_frozen e Q t t' : calm t t' → frozen e Q t → frozen e Q t'.
Proof.
  intros [Hq He Ha] (Hex & Hsat & Hp). split; [by apply He|]. split.
  - apply sat_spec in Hsat as (u & s & a & Hs).
    destruct (Ha (e, u, s) ltac:(by eexists)) as [a' Ha']. apply sat_spec. eauto.
  - unfold paper. by rewrite Hq.
Qed.

Lemma calm_question_under i e t t' : calm t t' → question_under i e t → question_under i e t'.
Proof. intros [Hq _ _] Hu row. rewrite Hq. apply Hu. Qed.

Lemma freeze_gate_run e t :
  freeze_gate e t = (if decide (is_Some (exams t !! e))
                     then if sat t e then Err frozen_error else Ok ((), t)
                     else Err NotFound).
Proof.
  unfold freeze_gate, read_exam, any_for_exam. rewrite tx_bind_gets.
  destruct (exams t !! e) as [row|]; cbn [fmap option_fmap option_map];
    destruct (decide _) as [Hs|Hs].
  - unfold mbind, tx_bind, gets. by destruct (sat t e).
  - destruct Hs. by eexists.
  - by destruct Hs.
  - done.
Qed.

Lemma gated_frozen {A} e Q (k : () → tx Tables A) t :
  frozen e Q t → (freeze_gate e ≫= k) t = Err frozen_error.
Proof.
  intros (He & Hs & _). unfold mbind, tx_bind. rewrite freeze_gate_run.
  by rewrite decide_True, Hs.
Qed.

(** A gate that passed changed nothing. *)
Lemma freeze_gate_inv e t a t' : freeze_gate e t = Ok (a, t') → t' = t ∧ sat t e = false.
Proof.
  rewrite freeze_gate_run. case_decide; [|done]. destruct (sat t e); [done|]. by intros [= _ <-].
Qed.

(** Changing the questions of another exam leaves the paper. *)
Lemma paper_insert e i q (m : gmap uuid ExamQuestion) :
  q_exam q ≠ e → (∀ row, m !! i = Some row → q_exam row ≠ e) →
  asked <$> filter (λ p : uuid * ExamQuestion, q_exam p.2 = e) (<[i := q]> m)
    = asked <$> filter (λ p : uuid * ExamQuestion, q_exam p.2 = e) m.
Proof.
  intros Hq Hm. f_equal. rewrite map_filter_insert_False by done.
  apply map_eq. intros j. apply option_eq. intros x. rewrite !map_lookup_filter_Some.
  destruct (decide (j = i)) as [->|Hj].
  - rewrite lookup_delete_eq. naive_solver.
  - by rewrite lookup_delete_ne.
Qed.

Lemma claim_subject_inv s t a t' :
  claim_subject s t = Ok (a, t') →
  questions t' = questions t ∧ exams t' = exams t ∧ attempts t' = attempts t
  ∧ answers t' = answers t.
Proof. unfold claim_subject. destruct (subject_refs t !! s); [|done]. by intros [= _ <-]. Qed.

Lemma insert_question_frozen e Q i q : tx_keeps (frozen e Q) (insert_question i q).
Proof.
  intros t a t' HI. unfold insert_question.
  destruct (decide (q_exam q = e)) as [Heq|Hne].
  { rewrite Heq. by rewrite (gated_frozen e Q). }
  rewrite tx_bind_ok. intros ([] & t1 & [-> _]%freeze_gate_inv & H).
  rewrite tx_bind_ok in H. destruct H as ([] & t2 & Hc%claim_subject_inv & H).
  unfold sql in H. destruct (questions t2 !! i) eqn:E; [done|]. injection H as _ <-.
  destruct Hc as (Hq & He & Ha & _). destruct HI as (Hex & Hs & Hp).
  unfold frozen, sat, paper. cbn [set_questions exams attempts questions].
  rewrite He, Ha, Hq in *. split; [done|]. split; [done|].
  rewrite paper_insert; [done|done|]. intros row. congruence.
Qed.

Lemma link_frozen e Q i template : keeps (frozen e Q) (link_banked_as i template).
Proof.
  apply keeps_atomic. intros t a t' (Hex & Hs & Hp).
  destruct (questions t !! i) as [row|] eqn:E; [|done]. intros [= _ <-].
  unfold frozen, sat, paper. cbn [set_questions exams attempts questions].
  split; [done|]. split; [done|]. rewrite <-Hp. unfold paper.
  apply map_eq. intros j. rewrite !lookup_fmap. apply option_eq. intros x.
  rewrite !fmap_Some. setoid_rewrite map_lookup_filter_Some.
  destruct (decide (j = i)) as [->|Hj]; [|by rewrite lookup_insert_ne].
  rewrite lookup_insert_eq, E. split; intros (y & [[= <-] Hy] & ->); eauto.
Qed.

Lemma unlink_frozen e Q template : tx_keeps (frozen e Q) (unlink_template_tx template).
Proof.
  intros t a t' (Hex & Hs & Hp) E. injection E as _ <-. split; [done|]. split; [done|]. rewrite <- Hp. unfold paper.
  cbn [set_questions questions]. apply map_eq. intros j. rewrite !lookup_fmap, !map_lookup_filter, lookup_fmap.
  destruct (questions t !! j) as [row|]; simpl; [|done]. by destruct (guard (q_exam row = e)).
Qed.

Definition owned (e : uuid) (Q : gmap uuid ExamQuestion) (i : uuid) (read : ExamQuestion)
    (t : Tables) : Prop := frozen e Q t ∧ question_under i (q_exam read) t.

Lemma update_question_frozen e Q i read subject text points spec :
  tx_keeps (owned e Q i read) (update_question_tx i read subject text points spec).
Proof.
  intros t a t' [HI Hu]. unfold update_question_tx.
  destruct (decide (q_exam read = e)) as [Heq|Hne].
  { rewrite Heq. by rewrite (gated_frozen e Q). }
  rewrite tx_bind_ok. intros ([] & t1 & [-> _]%freeze_gate_inv & H).
  rewrite tx_bind_ok in H. destruct H as ([] & t2 & Hc & H).
  assert (questions t2 = questions t ∧ exams t2 = exams t ∧ attempts t2 = attempts t)
    as (Hq & He & Ha).
  { case_bool_decide; [by injection Hc as <-|]. rewrite tx_bind_ok in Hc.
    destruct Hc as ([] & t3 & [= <-] & Hc%claim_subject_inv). by destruct Hc as (-> & -> & -> & _). }
  unfold sql in H. rewrite Hq in H. destruct (questions t !! i) as [row|] eqn:E; [|done].
  case_bool_decide; [|done]. injection H as _ <-. specialize (Hu row E).
  destruct HI as (Hex & Hs & Hp). split.
  - unfold frozen, sat, paper. cbn [set_questions exams attempts questions]. rewrite He, Ha, Hq.
    split; [done|]. split; [done|]. rewrite paper_insert; [done|simpl; congruence|].
    intros row'. congruence.
  - intros row'. cbn [set_questions questions]. rewrite lookup_insert_eq. intros [= <-]. done.
Qed.

Lemma delete_question_frozen e Q i read : tx_keeps (owned e Q i read) (delete_question_tx i read).
Proof.
  intros t a t' [HI Hu]. unfold delete_question_tx.
  destruct (decide (q_exam read = e)) as [Heq|Hne].
  { rewrite Heq. by rewrite (gated_frozen e Q). }
  rewrite tx_bind_ok. intros ([] & t1 & [-> _]%freeze_gate_inv & H).
  rewrite tx_bind_ok in H. destruct H as ([] & t2 & [= <-] & H).
  rewrite tx_bind_ok in H. destruct H as ([] & t3 & [= <-] & H).
  unfold sql in H. cbn [set_answers set_images questions] in H.
  destruct (questions t !! i) as [row|] eqn:E; [|done]. specialize (Hu row E).
  destruct (existsb _ _); [done|]. injection H as _ <-. destruct HI as (Hex & Hs & Hp). split.
  - unfold frozen, sat, paper.
    cbn [release_subject set_subject_refs set_questions set_answers set_images exams attempts questions].
    split; [done|]. split; [done|]. rewrite <-Hp. unfold paper. f_equal.
    apply map_eq. intros j. apply option_eq. intros x. rewrite !map_lookup_filter_Some.
    destruct (decide (j = i)) as [->|Hj].
    + rewrite lookup_delete_eq, E. split; [naive_solver|]. intros [[= <-] Hx]. simpl in Hx. congruence.
    + by rewrite lookup_delete_ne.
  - intros row'. cbn [release_subject set_subject_refs set_questions questions].
    by rewrite lookup_delete_eq.
Qed.

Lemma delete_other_frozen e Q e' ex : e' ≠ e → keeps (frozen e Q) (delete e' ex).
Proof.
  intros Hne. unfold delete. keeps_walk; eauto with effects. intros t d t' (Hex & Hs & Hp) Hd.
  destruct (delete_tx_inv _ _ _ _ Hd) as (row & _ & _ & He & Ha & _ & _ & Hq & _).
  split; [|split].
  - by rewrite He, lookup_delete_ne.
  - apply sat_spec in Hs as (u & s & b & Hb). apply sat_spec. exists u, s, b. rewrite Ha.
    apply map_lookup_filter_Some. split; [done|]. simpl. congruence.
  - rewrite <-Hp. unfold paper. rewrite Hq. f_equal. apply map_eq. intros j. apply option_eq.
    intros x. rewrite !map_lookup_filter_Some. naive_solver.
Qed.

(** C33. Once an exam has a sitting its paper is frozen: the questions it asks, with
    the subject, text, kind, points, choices and correct choice of each. No
    operation changes one, adds one or takes one away, whatever else is
    interleaved: creating, editing and deleting a question answer a conflict, and
    only the exam's own deletion ends it. The two links of a question to the bank
    are not part of the paper: saving it to the bank and deleting a template
    rewrite them on a sat exam too, and leave the paper as it was. *)
Theorem paper_frozen e Q :
  (∀ t i q k subject text points spec, frozen e Q t → q_exam q = e →
     insert_question i q t = Err frozen_error
     ∧ update_question_tx k q subject text points spec t = Err frozen_error
     ∧ delete_question_tx k q t = Err frozen_error)
  ∧ (∀ e' subject text points spec src, keeps (frozen e Q) (insert e' subject text points spec src))
  ∧ (∀ i read subject text points spec,
       keeps (owned e Q i read) (update_question i read subject text points spec)
       ∧ keeps (owned e Q i read) (delete_question i read))
  ∧ (∀ i template, keeps (frozen e Q) (link_banked_as i template)
       ∧ keeps (frozen e Q) (atomic (unlink_template_tx template)))
  ∧ (∀ e' ex, e' ≠ e → keeps (frozen e Q) (delete e' ex))
  ∧ (∀ e' ex u caller q s x g mk p seq l,
       keeps (frozen e Q) (start_attempt e' u caller) ∧ keeps (frozen e Q) (finish_attempt e' ex u)
       ∧ keeps (frozen e Q) (set_left e' u seq l)
       ∧ tx_keeps (frozen e Q) (stamp_left_if_running e' u seq mk)
       ∧ keeps (frozen e Q) (save_answer_checked e' ex u caller q s x)
       ∧ keeps (frozen e Q) (grade e' g u mk) ∧ keeps (frozen e Q) (remove e' ex u)
       ∧ keeps (frozen e Q) (update e' p) ∧ keeps (frozen e Q) (create ex)).
Proof.
  split_and!.
  - intros t i q k subject text points spec HI <-. unfold insert_question, update_question_tx,
      delete_question_tx. split_and!; by eapply gated_frozen.
  - intros. unfold insert. keeps_walk. apply insert_question_frozen.
  - intros. split; apply keeps_atomic; [apply update_question_frozen|apply delete_question_frozen].
  - intros. split; [apply link_frozen|apply keeps_atomic, unlink_frozen].
  - intros. by apply delete_other_frozen.
  - intros e' ex u caller q s x g mk p seq l.
    pose proof (calm_all_keep (frozen e Q) (calm_frozen e Q)) as Hall.
    destruct (all_handlers _ Hall e' ex u caller g mk p seq l) as (? & ? & ? & ? & ? & ? & ? & ?).
    split_and!; try done. by apply calm_save, calm_frozen.
Qed.

(** ** Stored answers fit their question *)

(** What a saved payload is, against the question it answers. *)
Definition fits (row : ExamQuestion) (selected text : option str) : Prop :=
  if decide (q_kind row = lit "choice")
  then text = None ∧ ∃ c, c ∈ default [] (q_choices row) ∧ selected = Some (choice_id c)
  else selected = None ∧ ∃ x, text = Some x ∧ answer_text_try_new x = Ok x.

Lemma check_answer_fits q selected text s x :
  check_answer q selected text = Ok (s, x) → fits q s x.
Proof.
  unfold check_answer, fits. case_bool_decide as Hk.
  - rewrite decide_True by done. destruct (is_some text); [done|]. destruct selected as [sel|]; [|done].
    destruct (List.find _ _) as [c|] eqn:Hf; [|done]. intros [= <- <-]. split; [done|].
    apply List.find_some in Hf as [Hin _]. exists c. split; [by apply list_elem_of_In|done].
  - rewrite decide_False by done. destruct (is_some selected); [done|].
    destruct text as [txt|]; [|done]. unfold checked, map_err.
    destruct (answer_text_try_new txt) as [y|] eqn:Hy; [|done]. intros [= <- <-].
    split; [done|]. exists y. split; [done|]. unfold answer_text_try_new in *.
    apply bind_ok in Hy as ([] & Hv & [= <-]). by rewrite Hv.
Qed.

Lemma fits_asked row row' s x : asked row' = asked row → fits row s x → fits row' s x.
Proof.
  unfold asked, fits. intros [= _ _ _ Hk _ Hc _]. rewrite Hk. by rewrite Hc.
Qed.

(** Every stored answer is to a question of its exam, which exists and was sat,
    and fits it. *)
Definition answers_ok (t : Tables) : Prop := ∀ k a, answers t !! k = Some a →
  ∃ row, questions t !! k.1.1 = Some row ∧ q_exam row = a_exam a ∧ is_Some (exams t !! a_exam a)
    ∧ sat t (a_exam a) = true ∧ fits row (a_selected a) (a_text a).

(** What the other requests keep of an exam while it stands: it stays sat, and
    its questions stay as they were asked. *)
Definition still_sat (e : uuid) (t : Tables) : Prop := is_Some (exams t !! e) → sat t e = true.
Definition still_asked (e q : uuid) (row : ExamQuestion) (t : Tables) : Prop :=
  is_Some (exams t !! e) →
  sat t e = true ∧ ∃ row', questions t !! q = Some row' ∧ asked row' = asked row.

Definition answer_rely (w : World Tables) : Prop :=
  stable answers_ok w ∧ (∀ e, stable (still_sat e) w) ∧ ∀ e q row, stable (still_asked e q row) w.

(** Under that rely. *)
Definition answering {A} (J : Tables → Prop) (m : io Tables A) : Prop :=
  ∀ w, answer_rely w → answers_ok (w_db w) → J (w_db w) →
    let '(r, w') := m w in answers_ok (w_db w').

Lemma answering_bind {A B} (J K : Tables → Prop) (m : io Tables A) (k : A → io Tables B) :
  (∀ w, answer_rely w → stable J w) →
  triple (λ t, answers_ok t ∧ J t) m (λ _ _, True) → (∀ a, answering J (k a)) →
  answering J (m ≫= k).
Proof.
  intros HJ Hm Hk w Hr Hok Hj. pose proof Hr as (Ha & _).
  specialize (Hm w (λ n t Ht, conj (Ha n t (proj1 Ht)) (HJ w Hr n t (proj2 Ht))) (conj Hok Hj)).
  unfold mbind, io_bind. destruct (m w) as [[a|e] w'].
  - destruct Hm as ([? ?] & Henv & _). apply Hk; [|done..]. unfold answer_rely, stable. by rewrite Henv.
  - by destruct Hm as ([? ?] & _).
Qed.

Lemma answering_lift {A B} J (r : result AppError A) (k : A → io Tables B) :
  (∀ a, r = Ok a → answering J (k a)) → answering J (lift r ≫= k).
Proof. intros Hk. destruct r as [a|e]; [by apply Hk|]. by intros w _ Hok _. Qed.
Lemma answering_raise {A} J e : answering J (raise (A := A) e).
Proof. by intros w _ Hok _. Qed.
Lemma answering_weaken {A} (J K : Tables → Prop) (m : io Tables A) :
  (∀ t, J t → K t) → answering K m → answering J m.
Proof. intros HJK Hm w Hr Hok Hj. apply Hm; auto. Qed.

(** A read that establishes [K] of the state it read. *)
Lemma answering_read {A B} (J : Tables → Prop) (K : A → Tables → Prop) (f : Tables → A)
    (k : A → io Tables B) :
  (∀ w, answer_rely w → stable J w) → (∀ t, J t → K (f t) t) →
  (∀ a, answering (K a) (k a)) → answering J (atomic (gets f) ≫= k).
Proof.
  intros HJ HK Hk w Hr Hok Hj. rewrite atomic_bind. cbn [gets].
  pose proof (proj1 Hr (w_step w) _ Hok) as Hok'.
  pose proof (HJ w Hr (w_step w) _ Hj) as Hj'. by apply (Hk _ (tick _ w) Hr Hok'), HK.
Qed.

Lemma save_in_answers e q row u seq s x n :
  q_exam row = e → fits row s x →
  answering (still_asked e q row) (atomic (save_in q e u seq s x n)).
Proof.
  intros He Hf w Hr Hok Hj. unfold atomic.
  set (t := w_env w (w_step w) (w_db w)).
  assert (answers_ok t) as Hok' by (by apply (proj1 Hr)).
  assert (still_asked e q row t) as Hj' by (by apply (proj2 (proj2 Hr))).
  destruct (save_in q e u seq s x n t) as [[a t']|err] eqn:E; [|done]. cbn [tick w_db].
  unfold save_in in E. destruct (exams t !! e) as [ex|] eqn:Hex; [|done].
  destruct (Hj' ltac:(rewrite Hex; by eexists)) as (Hs & row' & Hrow' & Hask). rewrite Hrow' in E.
  destruct (accounts t !! u); [|done]. case_bool_decide as Hq; [|done]. injection E as _ <-.
  intros k b. cbn [set_answers answers questions exams].
  destruct (decide (k = (q, u, seq))) as [->|Hne].
  - rewrite lookup_insert_eq. intros [= <-]. exists row'. cbn [fst snd a_exam a_selected a_text].
    split_and!; try done. by eapply fits_asked.
  - rewrite lookup_insert_ne by done. apply Hok'.
Qed.

Definition pinned_sat (e : uuid) (p : option Sitting) (t : Tables) : Prop :=
  match p with Some _ => still_sat e t | None => True end.

Lemma latest_sat t e u : pinned_sat e (head (sittings t e u)) t.
Proof.
  destruct (sittings t e u) as [|p l] eqn:E; [done|]. intros _.
  assert (p ∈ sittings t e u) as Hin%elem_of_sittings by (rewrite E; left).
  apply sat_spec. eauto.
Qed.

Lemma answering_assoc {A B C} J (m : io Tables A) (f : A → io Tables B) (g : B → io Tables C) :
  answering J (m ≫= λ a, f a ≫= g) → answering J ((m ≫= f) ≫= g).
Proof.
  intros Hm w Hr Hok Hj. specialize (Hm w Hr Hok Hj). revert Hm. unfold mbind, io_bind.
  by destruct (m w) as [[a|e] w'].
Qed.
Lemma answering_raise_bind {A B} J e (k : A → io Tables B) : answering J (raise e ≫= k).
Proof. by intros w _ Hok _. Qed.

Lemma answering_writable {B} J e ex u (k : Sitting → io Tables B) :
  (∀ w, answer_rely w → stable J w) → (∀ p, answering (still_sat e) (k p)) →
  answering J (writable_attempt e ex u ≫= k).
Proof.
  intros HJ Hk. unfold writable_attempt, read_latest_for_user. apply answering_assoc.
  apply (answering_read J (pinned_sat e)); [done|intros; apply latest_sat|]. intros p.
  apply answering_assoc, answering_lift. intros p' Hp. destruct p as [p2|]; [|done].
  injection Hp as ->. apply answering_assoc.
  apply (answering_bind (still_sat e) (still_sat e)); [intros w Hr; apply Hr|apply keeps_now|].
  intros n. destruct (attempt_status _ _ _);
    [exact (Hk p')|apply answering_raise_bind|apply answering_raise_bind].
Qed.

Lemma answering_question {B} e q (k : ExamQuestion → io Tables B) :
  (∀ row, q_exam row = e → answering (still_asked e q row) (k row)) →
  answering (still_sat e) (question_of_exam e q ≫= k).
Proof.
  intros Hk. unfold question_of_exam. apply answering_assoc.
  apply (answering_read (still_sat e)
    (λ o t, match o with Some row => still_asked e q row t | None => True end)).
  - intros w Hr. apply Hr.
  - intros t Hs. destruct (questions t !! q) as [row|] eqn:E; [|done]. intros Hex.
    split; [by apply Hs|eauto].
  - intros o. apply answering_assoc, answering_lift. intros row Ho. destruct o as [row'|]; [|done].
    injection Ho as ->. case_bool_decide as Hq; [exact (Hk row Hq)|apply answering_raise_bind].
Qed.

Lemma save_answer_answers e ex u caller q s x :
  answering (λ _, True) (save_answer_checked e ex u caller q s x).
Proof.
  assert (∀ w, answer_rely w → stable (still_sat e) w) as Hst by (intros w Hr; apply Hr).
  unfold save_answer_checked. apply answering_lift. intros [] _.
  apply answering_writable; [done|]. intros p. unfold save_answer_in.
  apply (answering_bind _ (still_sat e)); [done|apply ensure_student_now_keeps|intros []].
  apply (answering_bind _ (still_sat e)); [done|apply ensure_enrolled_keeps|intros []].
  apply answering_lift. intros [] _.
  apply (answering_bind _ (still_sat e)); [done|apply require_open_keeps|intros []].
  apply answering_question. intros row Hq. unfold save. apply answering_lift. intros [s' x'] Hc.
  apply (answering_bind _ (still_asked e q row)); [intros w Hr; apply Hr|apply keeps_now|].
  intros n. rewrite Hq. apply save_in_answers; [done|]. apply check_answer_fits in Hc.
  by unfold checked in Hc.
Qed.

Lemma calm_answers t t' :
  calm t t' → answers t' = answers t → answers_ok t → answers_ok t'.
Proof.
  intros [Hq He Ha] Hans Hok k a. rewrite Hans. intros Hk.
  destruct (Hok k a Hk) as (row & Hrow & Hex & Hin & Hs & Hf). exists row. rewrite Hq.
  split_and!; try done; [by apply He|]. apply sat_spec in Hs as (u & s & b & Hb).
  destruct (Ha (a_exam a, u, s) ltac:(by eexists)) as [b' Hb']. apply sat_spec. eauto.
Qed.

Definition same_answers (t t' : Tables) : Prop := answers t' = answers t.
#[export] Instance same_answers_preorder : PreOrder same_answers.
Proof. unfold same_answers. split; [done|]. intros t1 t2 t3 ? ?. congruence. Qed.
#[export] Hint Extern 1 (same_answers _ _) => (unfold same_answers; reflexivity) : sittings.

Lemma grade_same_answers e u seq mark g k : framed same_answers (grade_tx e u seq mark g k).
Proof.
  unfold grade_tx, read_exam. apply framed_bind; [apply _|frames_walk|intros row].
  apply framed_bind; [apply _|frames_walk|intros ex]. case_match; [apply framed_refuse|].
  apply framed_bind; [apply _|frames_walk|intros before]. apply framed_bind; [apply _|..].
  - destruct before; [frames_walk|]. apply framed_bind; [apply _| |intros _; frames_walk].
    unfold claim_kind. frames_sql.
  - intros _. cbv zeta. apply framed_bind; [apply _| |intros _; frames_sql].
    apply framed_writes. intros t. cbn [snd]. by case_match.
Qed.

Lemma remove_same_answers e u k : framed same_answers (remove_marks e u k).
Proof.
  intros t a t'. unfold remove_marks. case_bool_decide; [by intros [= _ <-]|].
  intros [= _ <-]. assert (∀ gs t, answers (refund gs t) = answers t) as Hr.
  { induction gs as [|[g n] gs IH]; intros t0; [done|]. cbn [refund]. by rewrite IH. }
  unfold same_answers. rewrite Hr. by case_match.
Qed.

Lemma create_attempt_same_answers e u seq started first n :
  framed same_answers (create_attempt e u seq started first n).
Proof.
  intros t a t'. unfold create_attempt. rewrite tx_bind_ok.
  intros ([] & t1 & Hg & Hc). apply guard_start_inv in Hg as (-> & _). unfold create_in in Hc.
  repeat case_match; by injection Hc as _ <-.
Qed.

Lemma answers_all_keep : tx_all_keep answers_ok.
Proof.
  assert (∀ A (m : tx Tables A), framed calm m → framed same_answers m → tx_keeps answers_ok m) as Hk.
  { intros A m Hc Hs t a t' Hok E. eapply calm_answers; [by eapply Hc|by eapply (Hs _ _ _ E)|done]. }
  split; intros; apply Hk; eauto using award_calm, create_attempt_calm, update_attempt_calm,
    stamp_calm, grade_calm, remove_calm, update_exam_calm, insert_exam_calm, grade_same_answers,
    remove_same_answers, create_attempt_same_answers.
  - unfold award. frames_sql.
  - unfold update_attempt. frames_sql.
  - unfold stamp_left_if_running. frames_sql.
  - unfold update_if_unchanged. frames_sql.
  - unfold insert_exam. frames_sql.
Qed.

(** A change of one unsat question, or of a link. *)
Lemma answers_touch_question t i row q :
  questions t !! i = Some row → q_exam q = q_exam row →
  (sat t (q_exam row) = true → asked q = asked row) →
  answers_ok t → answers_ok (set_questions <[i := q]> t).
Proof.
  intros Hi He Hask Hok k a Hk. destruct (Hok k a Hk) as (r & Hr & Hex & Hin & Hs & Hf).
  cbn [set_questions questions exams]. destruct (decide (k.1.1 = i)) as [Heq|Hne].
  - rewrite Heq in Hr |- *. rewrite lookup_insert_eq. exists q.
    assert (r = row) as -> by congruence. split_and!; try done; [congruence|].
    eapply fits_asked; [|done]. apply Hask. by rewrite Hex.
  - rewrite lookup_insert_ne by done. by exists r.
Qed.

Lemma insert_question_answers i q : tx_keeps answers_ok (insert_question i q).
Proof.
  intros t a t' Hok. unfold insert_question.
  rewrite tx_bind_ok. intros ([] & t1 & [-> _]%freeze_gate_inv & H).
  rewrite tx_bind_ok in H. destruct H as ([] & t2 & Hc & H).
  assert (answers_ok t2) as Hok2.
  { apply claim_subject_inv in Hc as (Hq & He & Ha & Han).
    eapply calm_answers; [|exact Han|exact Hok]. split; [done|by rewrite He|by rewrite Ha]. }
  unfold sql in H. destruct (questions t2 !! i) eqn:E; [done|]. injection H as _ <-.
  intros k b Hk. destruct (Hok2 k b Hk) as (r & Hr & Hex & Hin & Hs & Hf). exists r.
  cbn [set_questions questions exams]. rewrite lookup_insert_ne by congruence. done.
Qed.

Lemma update_question_answers i read subject text points spec :
  tx_keeps (λ t, answers_ok t ∧ question_under i (q_exam read) t)
    (update_question_tx i read subject text points spec).
Proof.
  intros t a t' [Hok Hu]. unfold update_question_tx.
  rewrite tx_bind_ok. intros ([] & t1 & [-> Hsat]%freeze_gate_inv & H).
  rewrite tx_bind_ok in H. destruct H as ([] & t2 & Hc & H).
  assert (questions t2 = questions t ∧ exams t2 = exams t ∧ attempts t2 = attempts t
    ∧ answers t2 = answers t) as (Hq & He & Ha & Han).
  { case_bool_decide; [by injection Hc as <-|]. rewrite tx_bind_ok in Hc.
    destruct Hc as ([] & t3 & [= <-] & Hc%claim_subject_inv). by destruct Hc as (-> & -> & -> & ->). }
  unfold sql in H. destruct (questions t2 !! i) as [row|] eqn:E; [|done].
  case_bool_decide; [|done]. injection H as _ <-. rewrite Hq in E. specialize (Hu row E). split.
  - eapply answers_touch_question; [by rewrite Hq|done| |].
    + intros Hs. unfold sat in *. rewrite Ha, Hu, Hsat in Hs. done.
    + eapply calm_answers; [|exact Han|exact Hok]. split; [done|by rewrite He|by rewrite Ha].
  - intros row'. cbn [set_questions questions]. rewrite lookup_insert_eq. by intros [= <-].
Qed.

Lemma delete_question_answers i read : tx_keeps answers_ok (delete_question_tx i read).
Proof.
  intros t a t' Hok. unfold delete_question_tx.
  rewrite tx_bind_ok. intros ([] & t1 & [-> _]%freeze_gate_inv & H).
  rewrite tx_bind_ok in H. destruct H as ([] & t2 & [= <-] & H).
  rewrite tx_bind_ok in H. destruct H as ([] & t3 & [= <-] & H).
  unfold sql in H. cbn [set_answers set_images questions] in H.
  destruct (questions t !! i) as [row|] eqn:E; [|done].
  destruct (existsb _ _); [done|]. injection H as _ <-. intros k b.
  cbn [release_subject set_subject_refs set_questions set_answers set_images answers questions exams].
  intros [Hk Hne]%map_lookup_filter_Some. destruct (Hok k b Hk) as (r & Hr & Hrest).
  exists r. cbn [fst] in Hne. rewrite lookup_delete_ne by done. split; [done|]. exact Hrest.
Qed.

Lemma link_answers i template : keeps answers_ok (link_banked_as i template).
Proof.
  apply keeps_atomic. intros t a t' Hok. destruct (questions t !! i) as [row|] eqn:E; [|done].
  intros [= _ <-]. by eapply answers_touch_question.
Qed.

Lemma delete_exam_answers e ex : keeps answers_ok (delete e ex).
Proof.
  unfold delete. keeps_walk; eauto with effects. intros t d t' Hok Hd.
  destruct (delete_tx_inv _ _ _ _ Hd) as (row & _ & _ & He & Ha & _ & Han & Hq & _).
  intros k b. rewrite Han, He, Hq. intros [Hk Hne]%map_lookup_filter_Some. cbn [snd] in Hne.
  destruct (Hok k b Hk) as (r & Hr & Hex & Hin & Hs & Hf). exists r.
  rewrite lookup_delete_ne by done. split_and!; try done.
  - apply map_lookup_filter_Some. split; [done|]. cbn. congruence.
  - apply sat_spec in Hs as (u & s & c & Hc). apply sat_spec. exists u, s, c. rewrite Ha.
    by apply map_lookup_filter_Some.
Qed.

(** A stored answer always fits: it answers a question of an exam that exists
    and was sat, and names a choice that question has, or is a text within
    bounds for a text question. Saving keeps that under any interference that
    does and that leaves a sat exam's questions alone; so does every other
    operation, the deletes included, so no answer is ever left orphaned. *)
Theorem answers_fit :
  (∀ e ex u caller q s x w, answer_rely w → answers_ok (w_db w) →
     let '(r, w') := save_answer_checked e ex u caller q s x w in answers_ok (w_db w'))
  ∧ (∀ e ex u caller g mk p seq l,
       keeps answers_ok (start_attempt e u caller) ∧ keeps answers_ok (finish_attempt e ex u)
       ∧ keeps answers_ok (set_left e u seq l) ∧ tx_keeps answers_ok (stamp_left_if_running e u seq mk)
       ∧ keeps answers_ok (grade e g u mk) ∧ keeps answers_ok (remove e ex u)
       ∧ keeps answers_ok (update e p) ∧ keeps answers_ok (create ex))
  ∧ (∀ e ex, keeps answers_ok (delete e ex))
  ∧ (∀ e subject text points spec src, keeps answers_ok (insert e subject text points spec src))
  ∧ (∀ i read subject text points spec,
       keeps (λ t, answers_ok t ∧ question_under i (q_exam read) t)
         (update_question i read subject text points spec))
  ∧ (∀ i read, keeps answers_ok (delete_question i read))
  ∧ (∀ i template, keeps answers_ok (link_banked_as i template)).
Proof.
  split_and!.
  - intros e ex u caller q s x w Hr Hok. by apply save_answer_answers.
  - intros. apply all_handlers. apply answers_all_keep.
  - intros. apply delete_exam_answers.
  - intros. unfold insert. keeps_walk. apply insert_question_answers.
  - intros. apply keeps_atomic, update_question_answers.
  - intros. apply keeps_atomic, delete_question_answers.
  - intros. apply link_answers.
Qed.
