(* ===== verification/ExamRaces.v ===== *)
(** * Where the exam paths fall short of their comments

    The sequences and interleavings, each run to its outcome on [Exams], in
    which a walk-out is stamped on an expired sitting, a grader's lifetime
    counter grows with no mark behind it, the kind of a graded exam moves, and
    the mode of a sat exam flips. *)

From S2P Require Import Prelude Text Errors Effects Uuid Validate Modules Badges ExamForms Exams ExamProofs MarkProofs QuestionProofs.
Open Scope Z_scope.

(** The walk-out stamp agrees with the sitting's status only while the
    schedule sets at most one of the two bounds: with a window and a duration
    it looks at the duration alone, so a sitting that began late is stamped
    after the window, and the status, has expired. *)
Theorem stamp_ignores_the_window t e u seq t_now row a s ends d :
  exams t !! e = Some row → attempts t !! (e, u, seq) = Some a →
  schedule (exam row) = MkSchedule s None (Some ends) (Some d) ∨
    (∃ starts, schedule (exam row) = MkSchedule s (Some starts) (Some ends) (Some d)) →
  finished_at a = None → left_at a = None →
  ends ≤ t_now < started_at a + d →
  attempt_status a (schedule (exam row)) t_now = Expired
  ∧ ∃ t', stamp_left_if_running e u seq t_now t = Ok ((), t')
      ∧ attempts t' !! (e, u, seq) = Some (MkAttempt (started_at a) None (Some t_now)).
Proof.
  intros Hrow Ha Hs Hf Hl Ht.
  assert (ends_at (schedule (exam row)) = Some ends ∧ duration_ms (schedule (exam row)) = Some d)
    as [He Hd] by (by destruct Hs as [-> | [? ->]]).
  split.
  - unfold attempt_status, deadline. rewrite Hf, He, Hd. cbn.
    destruct (Z.leb_spec (Z.min ends (i64_saturating_add (started_at a) d)) t_now); [done|lia].
  - unfold stamp_left_if_running. rewrite Hrow, Ha. unfold still_running. rewrite Hl, Hf, Hd. cbn.
    destruct (Z.ltb_spec t_now (started_at a + d)); [|lia]. cbn.
    eexists. split; [done|]. cbn [set_attempts attempts]. by rewrite lookup_insert_eq.
Qed.

(** ** A school with one exam *)

Definition EXAM : uuid := 1%N.
Definition INSTANCE : uuid := 2%N.
Definition STUDENT : uuid := 10%N.
Definition TEACHER : uuid := 20%N.
Definition COLLEAGUE : uuid := 21%N.

Definition demo_exam (mode_ : option str) : Exam :=
  MkExam TEACHER INSTANCE 3%N (lit "Algebra") [] (lit "quiz")
    (MkSchedule mode_ None None None) 1 true true false.

Definition demo_school : School :=
  MkSchool {[INSTANCE := 4%N]} {[INSTANCE := 5%N]} {[5%N := true]} {[4%N := Some 6%N]}
    {[6%N := false]} {[3%N := 6%N]} {[(INSTANCE, STUDENT)]} [lit "quiz"; lit "final"].

Definition demo_tables (mode_ : option str) : Tables :=
  MkTables demo_school {[EXAM := MkExamRow (demo_exam mode_) 0]} ∅ ∅ ∅ ∅ [] []
    {[lit "quiz" := (0, false); lit "final" := (0, false)]} ∅ {[3%N := 1]} ∅
    {[(EXAM, INSTANCE)]}
    {[STUDENT := MkAccount Student no_stats; TEACHER := MkAccount Teacher no_stats;
      COLLEAGUE := MkAccount Teacher no_stats]} ∅.

Definition committed {A} (m : tx Tables A) (t : Tables) : Tables :=
  match m t with Ok (_, t') => t' | Err _ => t end.

(** ** A colleague's regrade *)

(** One teacher grades, a colleague regrades, the mark is removed. *)
Definition regrade_round (t : Tables) : Tables :=
  let t := committed (grade_tx EXAM STUDENT 1 50 TEACHER (lit "quiz")) t in
  let t := committed (grade_tx EXAM STUDENT 1 60 COLLEAGUE (lit "quiz")) t in
  committed (remove_marks EXAM STUDENT (lit "quiz")) t.

Definition given (t : Tables) (u : uuid) : Z :=
  match accounts t !! u with Some a => marks_given (stats a) | None => 0 end.

(** The demo school once the teacher has been credited [n] marks. *)
Definition credited (n : Z) : Tables :=
  set_kind_refs (λ _, {[lit "quiz" := (0, false); lit "final" := (0, false)]})
    (set_accounts (λ _, {[STUDENT := MkAccount Student no_stats;
       TEACHER := MkAccount Teacher (MkStats 0 0 0 0 0 n 0 0 0 0 0 0);
       COLLEAGUE := MkAccount Teacher no_stats]}) (demo_tables None)).

Lemma regrade_step n : regrade_round (credited n) = credited (1 + n).
Proof. vm_compute. reflexivity. Qed.

(** A regrade by a colleague moves the name on a mark and not the credit for
    it, and the removal refunds the name: after [n] rounds of grade, colleague's
    regrade and removal no mark is stored, and the first teacher's lifetime count
    of marks given is [n]; ten rounds earn a badge. *)
Theorem regrade_mints_credit (n : nat) :
  let t := Nat.iter n regrade_round (demo_tables None) in
  results t = ∅ ∧ given t TEACHER = Z.of_nat n
  ∧ (10 ≤ Z.of_nat n → "marks_given_10"%string ∈ earned (default no_stats (stats_of t TEACHER))).
Proof.
  assert (Nat.iter n regrade_round (demo_tables None) = credited (Z.of_nat n)) as ->.
  { induction n as [|n IH]; [vm_compute; reflexivity|]. cbn [Nat.iter nat_rect].
    change (nat_rect _ _ _ n) with (Nat.iter n regrade_round (demo_tables None)).
    rewrite IH, regrade_step. f_equal. lia. }
  split; [vm_compute; reflexivity|]. split; [vm_compute; reflexivity|]. intros Hn.
  apply elem_of_earned. exists MarksGiven, 10. split.
  - apply (bool_decide_unpack _). vm_compute. exact I.
  - assert (stats_of (credited (Z.of_nat n)) TEACHER = Some (MkStats 0 0 0 0 0 (Z.of_nat n) 0 0 0 0 0 0))
      as -> by (vm_compute; reflexivity). exact Hn.
Qed.

(** ** A mark under a kind that moves *)

(** The world in which another request commits [m] just before effect [k]. *)
Definition racing {A} (t : Tables) (k : nat) (m : tx Tables A) : World Tables :=
  MkWorld t 0 (λ n s, if Nat.eqb n k then committed m s else s) (λ _, 1000) (λ _, 0%N).

Definition no_patch : ExamPatch :=
  MkPatch None None None None None None None None None None None.
Definition kind_patch : ExamPatch :=
  MkPatch None None (Some (lit "final")) None None None None None None None None.

(** The kind gate reads the mark counter before the transaction, and the
    transaction pins the counter it reads itself: a mark that lands in between
    does not refuse the save. The mark then stands under [final], which counts
    no reference, and [quiz] keeps one for nobody. *)
Theorem kind_moves_under_a_mark :
  let '(r, w) := update EXAM kind_patch
    (racing (demo_tables None) 6 (grade_tx EXAM STUDENT 1 50 TEACHER (lit "quiz"))) in
  let t := w_db w in
  (is_ok r, kind_in t EXAM, map_size (results t), kind_count t (lit "final"), kind_count t (lit "quiz"))
  = (true, Some (lit "final"), 1%nat, 0, 1).
Proof. vm_compute. reflexivity. Qed.

(** The grading's own half of the same race: it claims the kind it read before
    its transaction, which does not read it again. *)
Theorem grade_claims_a_stale_kind :
  let new := MkExam TEACHER INSTANCE 3%N (lit "Algebra") [] (lit "final")
    (MkSchedule None None None None) 1 true true false in
  let '(r, w) := grade EXAM TEACHER STUDENT 50
    (racing (demo_tables None) 9 (update_if_unchanged EXAM (demo_exam None) new)) in
  let t := w_db w in
  (is_ok r, kind_in t EXAM, map_size (results t), kind_count t (lit "final"), kind_count t (lit "quiz"))
  = (true, Some (lit "final"), 1%nat, 0, 1).
Proof. vm_compute. reflexivity. Qed.

(** ** A sitting under a mode that flips *)

Definition mode_patch : ExamPatch :=
  MkPatch None None None (Some None) None None None None None None None.

(** The mode gate reads the sittings before the transaction, and a sitting
    changes no column the compare-and-set pins: a first sitting that lands in
    between is left under an exam nobody may sit. *)
Theorem mode_flips_under_a_sitting :
  let '(r, w) := update EXAM mode_patch
    (racing (demo_tables (Some (lit "open"))) 6 (create_attempt EXAM STUDENT 1 500 true 500)) in
  let t := w_db w in
  (is_ok r, sat t EXAM, match exams t !! EXAM with Some row => mode (schedule (exam row)) | None => None end)
  = (true, true, None).
Proof. vm_compute. reflexivity. Qed.

(** ** Witness *)

Definition late_tables : Tables :=
  set_attempts <[(EXAM, STUDENT, 1) := MkAttempt 800 None None]>
    (set_exams <[EXAM := MkExamRow
       (MkExam TEACHER INSTANCE 3%N (lit "Algebra") [] (lit "quiz")
          (MkSchedule (Some (lit "async")) (Some 0) (Some 1000) (Some 600)) 1 true true false) 0]>
       (demo_tables None)).

Lemma stamp_ignores_the_window_witness :
  attempt_status (MkAttempt 800 None None) (MkSchedule (Some (lit "async")) (Some 0) (Some 1000) (Some 600)) 1100
    = Expired
  ∧ ∃ t', stamp_left_if_running EXAM STUDENT 1 1100 late_tables = Ok ((), t')
      ∧ attempts t' !! (EXAM, STUDENT, 1) = Some (MkAttempt 800 None (Some 1100)).
Proof.
  assert (attempts late_tables !! (EXAM, STUDENT, 1) = Some (MkAttempt 800 None None)) as Ha
    by (vm_compute; reflexivity).
  destruct (exams late_tables !! EXAM) as [row|] eqn:Hrow; [|vm_compute in Hrow; discriminate Hrow].
  assert (schedule (exam row) = MkSchedule (Some (lit "async")) (Some 0) (Some 1000) (Some 600)) as Hs
    by (vm_compute in Hrow; injection Hrow as <-; vm_compute; reflexivity).
  pose proof (stamp_ignores_the_window late_tables EXAM STUDENT 1 1100 row (MkAttempt 800 None None)
    (Some (lit "async")) 1000 600 Hrow Ha (or_intror (ex_intro _ 0 Hs)) eq_refl eq_refl
    ltac:(cbn; lia)) as H.
  rewrite Hs in H. exact H.
Defined.

Lemma demo_sat_ok mode_ : sat_ok (demo_tables mode_) ∧ room (demo_tables mode_).
Proof.
  split; [split|].
  - intros e u. exists 0. split; [done|]. intros s. cbn [demo_tables attempts].
    rewrite lookup_empty. split; [by intros [? ?]|lia].
  - intros u a. cbn [demo_tables attempts accounts]. intros Ha.
    assert (exam_sat (stats a) = 0) as ->; [|by rewrite (proj2 (count_0 _ _))].
    revert Ha. unfold STUDENT, TEACHER, COLLEAGUE.
    do 2 (rewrite lookup_insert_Some; intros [[_ <-]|[_ Ha]]; [done|revert Ha]).
    rewrite lookup_singleton_Some. by intros [_ <-].
  - intros k a. cbn [demo_tables attempts]. by rewrite lookup_empty.
  - intros k a. cbn [demo_tables attempts]. by rewrite lookup_empty.
Qed.

Definition demo_world : World Tables := quiet (demo_tables (Some (lit "open"))) (λ _, 500) (λ _, 0%N).

Lemma sittings_numbered_witness :
  sat_ok (w_db (start_attempt EXAM STUDENT Student demo_world).2)
  ∧ is_ok (start_attempt EXAM STUDENT Student demo_world).1 = true.
Proof.
  split; [|vm_compute; reflexivity].
  assert (sitting_rely demo_world) as Hr
    by (split; [intros n t Ht; exact Ht|split; [intros n t Ht; exact Ht|intros e u k n t Ht; exact Ht]]).
  destruct (demo_sat_ok (Some (lit "open"))) as [Hok Hroom].
  pose proof (proj1 sittings_numbered EXAM STUDENT Student demo_world Hr Hok Hroom) as H.
  destruct (start_attempt EXAM STUDENT Student demo_world) as [r w']. exact (proj1 H).
Defined.

Lemma demo_books : books (λ _, 0) (demo_tables None).
Proof.
  split; [split|].
  - intros k r. cbn [demo_tables results]. by rewrite lookup_empty.
  - intros e row. cbn [demo_tables results exams]. rewrite lookup_singleton_Some.
    intros [_ <-]. by rewrite (proj2 (count_0 _ _)).
  - intros u a. cbn [demo_tables results accounts]. intros Ha.
    assert (high_mark (stats a) = 0) as ->; [|by rewrite (proj2 (count_0 _ _))].
    revert Ha. unfold STUDENT, TEACHER, COLLEAGUE.
    do 2 (rewrite lookup_insert_Some; intros [[_ <-]|[_ Ha]]; [done|revert Ha]).
    rewrite lookup_singleton_Some. by intros [_ <-].
  - intros k. unfold kind_drift. rewrite (proj2 (count_0 _ _)) by (intros i a; cbn [demo_tables results]; by rewrite lookup_empty).
    rewrite Z.sub_0_r. unfold kind_count. cbn [demo_tables kind_refs].
    destruct (decide (k = lit "quiz")) as [->|H1]; [by rewrite lookup_insert_eq|].
    rewrite lookup_insert_ne by done.
    destruct (decide (k = lit "final")) as [->|H2]; [by rewrite lookup_singleton_eq|].
    by rewrite lookup_singleton_ne by done.
Qed.

(** What a grading of the demo school answers. *)
Lemma demo_grades k :
  k = lit "quiz" ∨ k = lit "final" →
  ∃ r t', grade_tx EXAM STUDENT 1 95 TEACHER k (demo_tables None) = Ok (r, t') ∧ r_mark r = 95.
Proof.
  intros Hk. destruct (grade_tx EXAM STUDENT 1 95 TEACHER k (demo_tables None)) as [[r t']|e] eqn:E.
  - exists r, t'. split; [done|]. destruct (grade_tx_inv _ _ _ _ _ _ _ _ _ E) as (_ & _ & _ & -> & _). done.
  - exfalso. assert (is_ok (grade_tx EXAM STUDENT 1 95 TEACHER k (demo_tables None)) = true) as Hm.
    { destruct Hk as [-> | ->]; by vm_compute. }
    rewrite E in Hm. discriminate Hm.
Qed.

(** A mark under the exam's kind, and one whose grader had read another. *)
Lemma marks_balance_witness :
  (∃ r t', grade_tx EXAM STUDENT 1 95 TEACHER (lit "quiz") (demo_tables None) = Ok (r, t')
     ∧ books (λ _, 0) t' ∧ r_mark r = 95)
  ∧ (∃ r t', grade_tx EXAM STUDENT 1 95 TEACHER (lit "final") (demo_tables None) = Ok (r, t')
     ∧ marks_ok (λ _, 0) t' ∧ kind_drift t' (lit "final") = 1 ∧ kind_drift t' (lit "quiz") = -1).
Proof.
  pose proof (proj1 (marks_balance (λ _, 0) (demo_tables None) EXAM (MkExamRow (demo_exam None) 0)
    (λ _, Z.le_refl 0) (proj1 demo_books) eq_refl)) as Hgrade.
  split.
  - destruct (demo_grades (lit "quiz") (or_introl eq_refl)) as (r & t' & E & Hr). exists r, t'.
    split; [exact E|]. split; [|exact Hr]. destruct (Hgrade _ _ _ _ _ _ _ E) as [Hm Hd]. split; [exact Hm|].
    intros k. rewrite Hd, (proj2 demo_books k).
    change (0 + (one_at (lit "quiz") k - one_at (lit "quiz") k) = 0). lia.
  - destruct (demo_grades (lit "final") (or_intror eq_refl)) as (r & t' & E & Hr). exists r, t'.
    split; [exact E|]. destruct (Hgrade _ _ _ _ _ _ _ E) as [Hm Hd]. split; [exact Hm|].
    split; rewrite Hd, (proj2 demo_books _); by vm_compute.
Defined.

Definition sat_tables : Tables :=
  set_attempts <[(EXAM, STUDENT, 1) := MkAttempt 800 None None]> (demo_tables None).

Lemma paper_frozen_witness :
  let q := MkQuestion EXAM 7%N (lit "?") (lit "text") 5 None None None None in
  frozen EXAM (paper sat_tables EXAM) sat_tables
  ∧ insert_question 30%N q sat_tables = Err frozen_error.
Proof.
  intros q.
  assert (frozen EXAM (paper sat_tables EXAM) sat_tables) as Hf.
  { split; [exists (MkExamRow (demo_exam None) 0); vm_compute; reflexivity|].
    split; [vm_compute; reflexivity|reflexivity]. }
  split; [exact Hf|].
  exact (proj1 (proj1 (paper_frozen EXAM (paper sat_tables EXAM)) sat_tables 30%N q 30%N 7%N []
    5 (MkSpec [] None None) Hf eq_refl)).
Defined.

Definition QUESTION : uuid := 30%N.
Definition answer_tables : Tables :=
  set_questions <[QUESTION := MkQuestion EXAM 7%N (lit "?") (lit "text") 5 None None None None]>
    (set_attempts <[(EXAM, STUDENT, 1) := MkAttempt 800 None None]> (demo_tables (Some (lit "open")))).

Lemma answers_fit_witness :
  let w := quiet answer_tables (λ _, 900) (λ _, 0%N) in
  let '(r, w') := save_answer_checked EXAM (demo_exam (Some (lit "open"))) STUDENT Student QUESTION
                    None (Some (lit "42")) w in
  is_ok r = true ∧ answers_ok (w_db w') ∧ map_size (answers (w_db w')) = 1%nat.
Proof.
  intros w.
  assert (answer_rely w) as Hr
    by (split; [intros n t Ht; exact Ht|split; [intros e n t Ht; exact Ht|intros e q row n t Ht; exact Ht]]).
  assert (answers_ok (w_db w)) as Hok.
  { intros k a Hk. cbn in Hk. rewrite lookup_empty in Hk. discriminate Hk. }
  pose proof (proj1 answers_fit EXAM (demo_exam (Some (lit "open"))) STUDENT Student QUESTION
    None (Some (lit "42")) w Hr Hok) as H.
  assert (let '(r, w') := save_answer_checked EXAM (demo_exam (Some (lit "open"))) STUDENT Student
      QUESTION None (Some (lit "42")) w in
    (is_ok r, map_size (answers (w_db w'))) = (true, 1%nat)) as Hc by (vm_compute; reflexivity).
  destruct (save_answer_checked _ _ _ _ _ _ _ w) as [r w'].
  split; [exact (f_equal fst Hc)|]. split; [exact H|exact (f_equal snd Hc)].
Defined.
