(* ===== verification/Meals.v ===== *)
(** * Meals ([src/domain/menu.rs], [src/domain/menu_dish.rs],
    [src/domain/meal_booking.rs], [src/domain/meal_ledger.rs],
    [src/domain/meal_attendance.rs], [src/db/menu.rs], [src/db/menu_dish.rs],
    [src/db/meal_booking.rs], [src/db/meal_ledger.rs],
    [src/db/meal_attendance.rs], [src/service/menu.rs],
    [src/service/meal_booking.rs], [src/service/meal_ledger.rs])

    A menu is published for a day and a slot and carries dishes; a student books
    a seat on it, which is counted on the menu row and billed in the same
    transaction, at the revision its price was read at; cancelling frees the
    seat and reverses the charge. The money is an append-only ledger keyed by
    seat and attempt. *)

From S2P Require Import Prelude Text Errors Effects Uuid Validate Ledger.

Open Scope Z_scope.

Definition MAX_DISH_NAME_LEN : Z := 100.
Definition MAX_DISH_DESCRIPTION_LEN : Z := 500.
Definition MAX_DISHES_PER_MENU : Z := 50.
Definition MAX_DISH_TAGS : Z := 10.
Definition MAX_MENU_CAPACITY : Z := 10000.
Definition MAX_DISH_PRICE_MINOR : Z := 1000000.
Definition MAX_MEAL_BOOKING_ATTEMPTS : Z := 10.
Definition MILLIS_PER_DAY : Z := 24 * 60 * 60 * 1000.

(** The [chrono] crate, as far as the source asks it: a day read from
    [YYYY-MM-DD] text (in days since 1970-01-01), written back, and followed by
    the next one. *)
Class Calendar := {
  parse_day : str → option Z;
  day_text : Z → str;
  succ_day : Z → option Z;
}.

(** [MealSlotDef]. *)
Record MealSlotDef := MkSlotDef { slot_name : str; slot_serving_minute : option Z }.

(** ** Menus and dishes *)

Section Fields.
Context `{UuidText, Calendar}.

(** [MenuDate::try_new]. *)
Definition menu_date_try_new (value : str) : result ValidationError str :=
  let value := trim value in
  let bytes := utf8_encode value in
  let invalid := Err (Invalid "date" "must be a calendar day as YYYY-MM-DD") in
  if negb (bool_decide (length bytes = 10%nat))
     || negb (bool_decide (bytes !! 4%nat = Some 45%N)) || negb (bool_decide (bytes !! 7%nat = Some 45%N))
  then invalid else
  match parse_day value with
  | None => invalid
  | Some day => if negb (bool_decide (day_text day = value)) then invalid else Ok value
  end.

(** [MenuDate::day_end]. *)
Definition day_end (date : str) : option Z :=
  day ← parse_day date;
  next ← succ_day day;
  Some (next * MILLIS_PER_DAY).

(** [MenuSlot::try_new]. *)
Definition menu_slot_try_new (value : str) (allowed : list MealSlotDef) : result ValidationError str :=
  let value := trim value in
  if negb (existsb (λ slot, bool_decide (slot_name slot = value)) allowed)
  then Err (Invalid "slot" "not one of the school's meal slots (see GET /settings)")
  else if existsb (λ c, bool_decide (c ∈ [47; 92; 63; 35; 37]%N)) value
  then Err (Invalid "slot" "meal slot names used for menus must not contain / \ ? # or %")
  else Ok value.

(** [MenuId::for_slot]. *)
Definition menu_id (date slot : str) : str := date ++ lit "_" ++ slot.

Definition validate_capacity (value : option Z) : result ValidationError () :=
  match value with
  | Some capacity => if negb (in_range 0 MAX_MENU_CAPACITY capacity)
      then Err (Invalid "capacity" "must be between 0 and 10000") else Ok ()
  | None => Ok ()
  end.

Definition dish_name_try_new (value : str) : result ValidationError str :=
  _ ← validate_required "name" value MAX_DISH_NAME_LEN; Ok value.

Definition dish_description_try_new (value : str) : result ValidationError (option str) :=
  _ ← validate_optional "description" value MAX_DISH_DESCRIPTION_LEN;
  let value := trim value in
  Ok (if bool_decide (value = []) then None else Some value).

Definition dish_price_try_new (value : Z) : result ValidationError Z :=
  if negb (in_range 0 MAX_DISH_PRICE_MINOR value)
  then Err (Invalid "price_minor" "must be between 0 and 1000000 minor units") else Ok value.

(** [DishTags::try_new]: the loop over the values, then the cap. *)
Fixpoint dish_tags_loop (allowed values tags : list str) : result ValidationError (list str) :=
  match values with
  | [] => Ok tags
  | value :: rest =>
      let value := trim value in
      if negb (bool_decide (value ∈ allowed))
      then Err (Invalid "tags" "not one of the school's dietary tags (see GET /settings)")
      else dish_tags_loop allowed rest
             (if bool_decide (value ∈ tags) then tags else tags ++ [value])
  end.

Definition dish_tags_try_new (values allowed : list str) : result ValidationError (list str) :=
  tags ← dish_tags_loop allowed values [];
  if MAX_DISH_TAGS <? Z.of_nat (length tags)
  then Err (Invalid "tags" "at most 10 tags per dish") else Ok tags.
End Fields.

Record Menu := MkMenu {
  date : str;
  slot : str;
  capacity : option Z;
  seats_booked : Z;
  version : option Z;
  created_by : uuid;
  created_at : Z;
}.

(** [Menu::get_version], and [COALESCE(version, 0)]. *)
Definition get_version (m : Menu) : Z := default 0 (version m).

Record MenuDish := MkDish {
  d_menu : str;
  d_name : str;
  d_description : option str;
  price : Z;
  tags : list str;
  d_created_at : Z;
}.

(** ** Bookings and the ledger *)

Inductive MealBookingStatus : Set := Booked | Cancelled.
#[export] Instance MealBookingStatus_eq_dec : EqDecision MealBookingStatus.
Proof. solve_decision. Defined.

(** The row under its key: the menu and the student. *)
Definition Seat : Type := str * uuid.

Record MealBooking := MkBooking {
  booked_by : uuid;
  status : MealBookingStatus;
  attempt : Z;
  price_minor : option Z;
  cancelled_at : option Z;
  b_created_at : Z;
}.

Inductive MealLedgerKind : Set := Charge | Credit | Reversal.
#[export] Instance MealLedgerKind_eq_dec : EqDecision MealLedgerKind.
Proof. solve_decision. Defined.

Definition sign (k : MealLedgerKind) : Z :=
  match k with Charge => -1 | Credit | Reversal => 1 end.

Record MealLedger := MkLine {
  line_id : str;
  student : uuid;
  kind : MealLedgerKind;
  amount_minor : Z;
  source : option str;
  method : option str;
  note : option str;
  recorded_by : uuid;
  l_created_at : Z;
}.

Record Mark := MkMark { mark_status : str; marked_by : uuid; marked_at : Z }.

(** ** The tables *)

Record Tables := MkTables {
  menus : gmap str Menu;
  dishes : gmap uuid MenuDish;
  bookings : gmap Seat MealBooking;
  ledger : gmap str MealLedger;
  slot_refs : gmap str (Z * bool);
  marks : gmap Seat Mark;
  users : gset uuid;
}.

Definition set_menus (f : gmap str Menu → gmap str Menu) (t : Tables) : Tables :=
  MkTables (f (menus t)) (dishes t) (bookings t) (ledger t) (slot_refs t) (marks t) (users t).
Definition set_dishes (f : gmap uuid MenuDish → gmap uuid MenuDish) (t : Tables) : Tables :=
  MkTables (menus t) (f (dishes t)) (bookings t) (ledger t) (slot_refs t) (marks t) (users t).
Definition set_bookings (f : gmap Seat MealBooking → gmap Seat MealBooking) (t : Tables) : Tables :=
  MkTables (menus t) (dishes t) (f (bookings t)) (ledger t) (slot_refs t) (marks t) (users t).
Definition set_ledger (f : gmap str MealLedger → gmap str MealLedger) (t : Tables) : Tables :=
  MkTables (menus t) (dishes t) (bookings t) (f (ledger t)) (slot_refs t) (marks t) (users t).
Definition set_slot_refs (f : gmap str (Z * bool) → gmap str (Z * bool)) (t : Tables) : Tables :=
  MkTables (menus t) (dishes t) (bookings t) (ledger t) (f (slot_refs t)) (marks t) (users t).
Definition set_marks (f : gmap Seat Mark → gmap Seat Mark) (t : Tables) : Tables :=
  MkTables (menus t) (dishes t) (bookings t) (ledger t) (slot_refs t) (f (marks t)) (users t).

Definition with_seats (f : Z → Z) (m : Menu) : Menu :=
  MkMenu (date m) (slot m) (capacity m) (f (seats_booked m)) (version m) (created_by m) (created_at m).
Definition with_capacity (c : option Z) (m : Menu) : Menu :=
  MkMenu (date m) (slot m) c (seats_booked m) (version m) (created_by m) (created_at m).
(** [version = COALESCE(version, 0) + 1]. *)
Definition bump (m : Menu) : Menu :=
  MkMenu (date m) (slot m) (capacity m) (seats_booked m) (Some (get_version m + 1)) (created_by m) (created_at m).

(** One statement of a transaction, with its own verdict. *)
Definition sql {A} (f : Tables → result AppError (A * Tables)) : tx Tables A := f.

Definition read_menu (m : str) : tx Tables (option Menu) := gets (λ t, menus t !! m).
Definition read_booking (s : Seat) : tx Tables (option MealBooking) := gets (λ t, bookings t !! s).
Definition read_line (i : str) : tx Tables (option MealLedger) := gets (λ t, ledger t !! i).
Definition read_dish (i : uuid) : tx Tables (option MenuDish) := gets (λ t, dishes t !! i).

(** ** Publishing and cooking ([src/db/menu.rs], [src/db/menu_dish.rs]) *)

(** [menu::create]: the duplicate gate, the slot's reference, the row. *)
Definition create_menu_tx (date_ slot_ : str) (capacity_ : option Z) (by_ : uuid) (t_now : Z)
    : tx Tables (str * Menu) := λ t,
  let i := menu_id date_ slot_ in
  match menus t !! i with
  | Some _ => Err (Conflict "a menu is already published for that date and slot")
  | None =>
      if bool_decide ((slot_refs t !! slot_) = None) || bool_decide ((snd <$> slot_refs t !! slot_) = Some false)
      then
        if existsb (λ p, bool_decide (date p.2 = date_ ∧ slot p.2 = slot_)) (map_to_list (menus t))
        then Err (Conflict "a menu is already published for that date and slot") else
        if negb (bool_decide (by_ ∈ users t)) then Err fk_violation else
        let row := MkMenu date_ slot_ capacity_ 0 (Some 0) by_ t_now in
        Ok ((i, row),
            set_menus <[i := row]>
              (set_slot_refs (partial_alter (λ r, Some (default 0 (fst <$> r) + 1, false)) slot_) t))
      else Err (ConflictOwned (lit "the '" ++ slot_
             ++ lit "' meal slot has been removed from the school's settings"))
  end.

Definition create_menu (date_ slot_ : str) (capacity_ : option Z) (by_ : uuid) : io Tables (str * Menu) :=
  t_now ← now;
  atomic (create_menu_tx date_ slot_ capacity_ by_ t_now).

(** [menu::update]: an absent capacity writes nothing. *)
Definition update_menu (i : str) (capacity_ : option (option Z)) : io Tables Menu :=
  match capacity_ with
  | None => row ← atomic (read_menu i); lift (ok_or row NotFound)
  | Some c =>
      row ← atomic (λ t, Ok (with_capacity c ∘ bump <$> menus t !! i,
        set_menus (alter (with_capacity c ∘ bump) i) t));
      lift (ok_or row NotFound)
  end.

Definition dishes_of (t : Tables) (i : str) : list MenuDish :=
  filter (λ d, d_menu d = i) (map_to_list (dishes t)).*2.

(** [menu::delete]: refused while a seat is held; dishes and marks go first, and
    the slot gets its reference back. Bookings stay. *)
Definition delete_menu_tx (i : str) (slot_ : str) : tx Tables (option Menu) := λ t,
  match menus t !! i with
  | Some row =>
      if seats_booked row =? 0 then
        Ok (Some row,
          set_slot_refs (alter (λ r, (Z.max (r.1 - 1) 0, r.2)) slot_)
            (set_menus (delete i)
              (set_dishes (filter (λ p, d_menu p.2 ≠ i))
                (set_marks (filter (λ p, p.1.1 ≠ i)) t))))
      else Ok (None, t)
  | None => Ok (None, t)
  end.

Definition delete_menu (i : str) (menu : Menu) : io Tables Menu :=
  deleted ← atomic (delete_menu_tx i (slot menu));
  match deleted with
  | Some row => mret row
  | None =>
      row ← atomic (read_menu i);
      match row with
      | Some _ => raise (Conflict "the menu still has live bookings")
      | None => raise NotFound
      end
  end.

(** [UPDATE menu SET version = ... WHERE id = $1 RETURNING 1]. *)
Definition bump_menu (i : str) : tx Tables () := λ t,
  match menus t !! i with
  | Some _ => Ok ((), set_menus (alter bump i) t)
  | None => Err NotFound
  end.

(** [menu_dish::create], under the cap. *)
Definition create_dish_tx (menu name_ : str) (description_ : option str) (price_ : Z)
    (tags_ : list str) (cap : Z) (u : uuid) (t_now : Z) : tx Tables (uuid * MenuDish) :=
  _ ← bump_menu menu;
  sql (λ t,
    if negb (Z.of_nat (length (dishes_of t menu)) <? cap)
    then Err (Conflict "the menu already carries the maximum number of dishes") else
    match dishes t !! u with
    | Some _ => Err unique_violation
    | None =>
        let row := MkDish menu name_ description_ price_ tags_ t_now in
        Ok ((u, row), set_dishes <[u := row]> t)
    end).

Definition add_dish (menu name_ : str) (description_ : option str) (price_ : Z)
    (tags_ : list str) : io Tables (uuid * MenuDish) :=
  u ← fresh;
  t_now ← now;
  atomic (create_dish_tx menu name_ description_ price_ tags_ MAX_DISHES_PER_MENU u t_now).

(** [menu_dish::update]: an absent field is kept. *)
Definition patched (name_ : option str) (description_ : option (option str)) (price_ : option Z)
    (tags_ : option (list str)) (d : MenuDish) : MenuDish :=
  MkDish (d_menu d) (default (d_name d) name_) (default (d_description d) description_)
    (default (price d) price_) (default (tags d) tags_) (d_created_at d).

Definition update_dish_tx (i : uuid) (menu : str) name_ description_ price_ tags_ : tx Tables MenuDish :=
  _ ← bump_menu menu;
  sql (λ t,
    match dishes t !! i with
    | None => Err NotFound
    | Some d => let d' := patched name_ description_ price_ tags_ d in
        Ok (d', set_dishes <[i := d']> t)
    end).

Definition update_dish (i : uuid) (dish : MenuDish) name_ description_ price_ tags_ : io Tables MenuDish :=
  atomic (update_dish_tx i (d_menu dish) name_ description_ price_ tags_).

Definition delete_dish_tx (i : uuid) (menu : str) : tx Tables MenuDish :=
  _ ← bump_menu menu;
  sql (λ t,
    match dishes t !! i with
    | None => Err NotFound
    | Some d => Ok (d, set_dishes (delete i) t)
    end).

Definition delete_dish (i : uuid) (dish : MenuDish) : io Tables MenuDish :=
  atomic (delete_dish_tx i (d_menu dish)).

(** ** Who ate ([src/db/meal_attendance.rs]) *)

Definition mark_tx (menu : str) (student_ : uuid) (status_ : str) (by_ : uuid) (t_now : Z)
    : tx Tables Mark :=
  _ ← bump_menu menu;
  sql (λ t,
    if bool_decide (student_ ∈ users t) && bool_decide (by_ ∈ users t) then
      let row := MkMark status_ by_ t_now in
      Ok (row, set_marks <[(menu, student_) := row]> t)
    else Err fk_violation).

Definition mark (menu : str) (student_ : uuid) (status_ : str) (by_ : uuid) : io Tables Mark :=
  t_now ← now;
  atomic (mark_tx menu student_ status_ by_ t_now).

(** ** The ledger ([src/db/meal_ledger.rs], [src/service/meal_ledger.rs]) *)

Section Money.
Context `{UuidText, Calendar}.

(** [MealBookingId::key]. *)
Definition seat_key (s : Seat) : str := pair_key s.1 (uuid_text s.2).

(** [MealLedgerId]. *)
Definition marker (k : MealLedgerKind) : str :=
  match k with Charge => lit "c" | Reversal => lit "r" | Credit => lit "k" end.
Definition for_attempt (s : Seat) (n : Z) (k : MealLedgerKind) : str :=
  seat_key s ++ lit "_" ++ marker k ++ show_int n.
Definition for_request (student_ : uuid) (key : str) : str :=
  uuid_text student_ ++ lit "_k_" ++ key.

(** [MealLedger::charge_for] and [MealLedger::reversal_for]: nothing for a seat
    taken while the menu was free. *)
Definition charge_for (s : Seat) (b : MealBooking) (by_ : uuid) (t_now : Z) : option MealLedger :=
  amount ← price_minor b;
  Some (MkLine (for_attempt s (attempt b) Charge) s.2 Charge amount (Some (seat_key s))
    None None by_ t_now).
Definition reversal_for (s : Seat) (b : MealBooking) (by_ : uuid) (t_now : Z)
    : option (str * MealLedger) :=
  amount ← price_minor b;
  let charge := for_attempt s (attempt b) Charge in
  Some (charge, MkLine (for_attempt s (attempt b) Reversal) s.2 Reversal amount (Some charge)
    None None by_ t_now).

(** [INSERT ... ON CONFLICT (id) DO NOTHING RETURNING ...]. *)
Definition insert_line (row : MealLedger) : tx Tables (option MealLedger) := λ t,
  match ledger t !! line_id row with
  | Some _ => Ok (None, t)
  | None =>
      if bool_decide (student row ∈ users t) && bool_decide (recorded_by row ∈ users t)
      then Ok (Some row, set_ledger <[line_id row := row]> t)
      else Err fk_violation
  end.

Definition append (row : MealLedger) : io Tables MealLedger :=
  there ← atomic (read_line (line_id row));
  match there with
  | Some existing => mret existing
  | None =>
      inserted ← atomic (insert_line row);
      match inserted with
      | Some created => mret created
      | None =>
          there ← atomic (read_line (line_id row));
          lift (ok_or there (Internal (lit "failed to write the ledger line")))
      end
  end.

(** [price_snapshot]: [CAST(sum AS BIGINT)] refuses what a [bigint] cannot hold. *)
Definition menu_total (t : Tables) (i : str) : Z := sumZ (price <$> dishes_of t i).
Definition price_snapshot (i : str) : tx Tables (option Z) := λ t,
  let total := menu_total t i in
  if negb (bool_decide (in_i64 total)) then Err (from_driver (Database (Some "22003"%string) [])) else
  if total =? 0 then Ok (None, t) else
  match ledger_amount_try_new total with
  | Ok a => Ok (Some a, t)
  | Err e => Err (Validation e)
  end.

Definition lines_of (t : Tables) (s : uuid) : list MealLedger :=
  filter (λ l, student l = s) (map_to_list (ledger t)).*2.
(** [GROUP BY kind]: one total for each kind that occurs. *)
Definition totals (ls : list MealLedger) : list (MealLedgerKind * Z) :=
  (λ k, (k, sumZ (amount_minor <$> filter (λ l, kind l = k) ls))) <$>
    filter (λ k, filter (λ l, kind l = k) ls ≠ []) [Charge; Credit; Reversal].
Definition balance_of (s : uuid) : tx Tables Z := λ t,
  let rows := totals (lines_of t s) in
  if forallb (λ row, bool_decide (in_i64 row.2)) rows
  then Ok (foldl (λ sum row, i64_wrap (sum + i64_wrap (sign row.1 * row.2))) 0 rows, t)
  else Err (from_driver (Database (Some "22003"%string) [])).

Definition charge_booking (s : Seat) (b : MealBooking) (by_ : uuid) : io Tables () :=
  match price_minor b with
  | None => mret ()
  | Some _ =>
      t_now ← now;
      match charge_for s b by_ t_now with
      | None => mret ()
      | Some line => _ ← append line; mret ()
      end
  end.

Definition reverse_booking (s : Seat) (b : MealBooking) (by_ : uuid) : io Tables () :=
  match price_minor b with
  | None => mret ()
  | Some _ =>
      t_now ← now;
      match reversal_for s b by_ t_now with
      | None => mret ()
      | Some (charge, line) =>
          there ← atomic (read_line charge);
          match there with
          | None => mret ()
          | Some _ => _ ← append line; mret ()
          end
      end
  end.

Definition credit (student_ : uuid) (amount : Z) (method_ note_ : option str)
    (request_key : option str) (by_ : uuid) : io Tables MealLedger :=
  i ← match request_key with
      | Some key => mret (for_request student_ key)
      | None => u ← fresh; mret (uuid_text u)
      end;
  t_now ← now;
  line ← append (MkLine i student_ Credit amount None method_ note_ by_ t_now);
  if bool_decide (is_Some request_key) && negb (bool_decide (amount_minor line = amount))
  then raise (Conflict "this request_key was already used for a different amount")
  else mret line.

(** ** Deadlines ([src/domain/meal_booking.rs]) *)

Record MealCutoff := MkCutoff { minutes : option Z; slots : list MealSlotDef }.

Definition serving_minute (c : MealCutoff) (slot_ : str) : option Z :=
  def ← List.find (λ def, bool_decide (slot_name def = slot_)) (slots c);
  slot_serving_minute def.

Definition served_at (date_ : str) (minute : option Z) : option Z :=
  day ← parse_day date_;
  Some (i64_wrap (day * MILLIS_PER_DAY + i64_saturating_mul (default 0 minute) 60000)).

Definition check_day_not_past (date_ : str) : io Tables () :=
  match day_end date_ with
  | None => mret ()
  | Some over =>
      t_now ← now;
      if over <=? t_now
      then raise (Conflict "that meal's day has passed, so its menu takes no more bookings")
      else mret ()
  end.

Definition check_cutoff (date_ slot_ : str) (cutoff : MealCutoff) : io Tables () :=
  match minutes cutoff with
  | None => mret ()
  | Some m =>
      let minute := serving_minute cutoff slot_ in
      match served_at date_ minute with
      | None => raise (Conflict
          "the menu's date is not a real calendar day, so its cutoff cannot be worked out")
      | Some serving =>
          match minute with
          | None => mret ()
          | Some _ =>
              t_now ← now;
              if i64_saturating_sub serving (i64_saturating_mul m 60000) <=? t_now
              then raise (Conflict "the menu's booking cutoff has passed")
              else mret ()
          end
      end
  end.

(** ** Taking and giving back a seat ([src/db/meal_booking.rs]) *)

Definition held (t : Tables) (s : Seat) : bool :=
  match bookings t !! s with
  | Some b => bool_decide (status b = Booked)
  | None => false
  end.

(** Where the row goes: a cancelled one is revived at the attempt it was read
    at, an absent one is inserted, any other stands. *)
Definition place (s : Seat) (row : MealBooking) (t : Tables) : option MealBooking :=
  match bookings t !! s with
  | Some prior =>
      if bool_decide (status prior = Cancelled) && (attempt prior =? attempt row - 1)
      then Some (MkBooking (booked_by prior) Booked (attempt row) (price_minor row) None (b_created_at prior))
      else None
  | None => Some row
  end.

(** The statements of [claim_and_place] from the one that takes the menu row's
    lock on: the seat at the revision seen, the row, the charge. A row that
    cannot be placed answers [Duplicate] from a closure that succeeds, so the
    seat taken before it is committed. *)
Definition claim_tx (s : Seat) (cap seen : Z) (row : MealBooking) (charge : option MealLedger)
    : tx Tables (Claimed (Seat * MealBooking)) := λ t,
  let refused := if held t s then Duplicate else Full in
  match menus t !! s.1 with
  | Some m =>
      if (seats_booked m <? cap) && (get_version m =? seen) then
        let t := set_menus <[s.1 := with_seats (Z.add 1) m]> t in
        match place s row t with
        | None => Ok (Duplicate, t)
        | Some placed =>
            if negb (bool_decide (s.2 ∈ users t) && bool_decide (booked_by placed ∈ users t))
            then Err fk_violation else
            let t := set_bookings <[s := placed]> t in
            match charge with
            | None => Ok (Made (s, placed), t)
            | Some line =>
                '(_, t) ← insert_line line t;
                Ok (Made (s, placed), t)
            end
        end
      else Ok (refused, t)
  | None => Ok (refused, t)
  end.

(** [claim_and_place]: its first statement reads a snapshot of its own, before
    any row is locked (the isolation is READ COMMITTED). *)
Definition claim_and_place (s : Seat) (cap seen : Z) (row : MealBooking) (charge : option MealLedger)
    : io Tables (Claimed (Seat * MealBooking)) :=
  taken ← atomic (gets (λ t, held t s));
  if taken : bool then mret Duplicate else atomic (claim_tx s cap seen row charge).

(** [release_seat]: the flip fenced on the attempt read, the counter, and the
    reversal of a charge that is there. *)
Definition release_seat_tx (s : Seat) (b : MealBooking) (by_ : uuid) (t_now t_line : Z)
    : tx Tables (option MealBooking) := λ t,
  match bookings t !! s with
  | Some row =>
      if bool_decide (status row = Booked) && (attempt row =? attempt b) then
        let row := MkBooking (booked_by row) Cancelled (attempt row) (price_minor row) (Some t_now) (b_created_at row) in
        let t := set_menus (alter (with_seats (λ n, Z.max (n - 1) 0)) s.1)
                   (set_bookings <[s := row]> t) in
        match reversal_for s b by_ t_line with
        | Some (charge, line) =>
            if bool_decide (is_Some (ledger t !! charge)) && negb (bool_decide (is_Some (ledger t !! line_id line)))
            then '(_, t) ← insert_line line t; Ok (Some row, t)
            else Ok (Some row, t)
        | None => Ok (Some row, t)
        end
      else Ok (None, t)
  | None => Ok (None, t)
  end.

Definition release_seat (s : Seat) (b : MealBooking) (by_ : uuid) : io Tables (option MealBooking) :=
  t_line ← match price_minor b with Some _ => now | None => mret 0 end;
  t_now ← now;
  atomic (release_seat_tx s b by_ t_now t_line).

(** ** The workflows ([src/service/meal_booking.rs]) *)

(** [existing.filter(|row| row.status == Booked)]. *)
Definition live (existing : option MealBooking) : option MealBooking :=
  b ← existing; if bool_decide (status b = Booked) then Some b else None.

(** One round of [book]'s loop; [None] makes the decision again. *)
Definition book_round (menu : str) (student_ by_ : uuid) (cutoff : MealCutoff)
    : io Tables (option (Seat * MealBooking)) :=
  let s := (menu, student_) in
  row ← atomic (read_menu menu);
  fresh ← lift (ok_or row NotFound);
  _ ← check_day_not_past (date fresh);
  _ ← check_cutoff (date fresh) (slot fresh) cutoff;
  existing ← atomic (read_booking s);
  match live existing with
  | Some b =>
      _ ← charge_booking s b by_;
      again ← atomic (read_booking s);
      mret (pair s <$> live again)
  | None =>
      let n := match existing with Some prior => i64_wrap (attempt prior + 1) | None => 1 end in
      if MAX_MEAL_BOOKING_ATTEMPTS <? n
      then raise (Conflict "this seat has been booked and cancelled its maximum number of times") else
      price ← atomic (price_snapshot menu);
      created ← now;
      let fresh_row := MkBooking by_ Booked n price None created in
      t_line ← match price with Some _ => now | None => mret 0 end;
      claimed ← claim_and_place s (default UNLIMITED (capacity fresh)) (get_version fresh)
                  fresh_row (charge_for s fresh_row by_ t_line);
      match claimed with
      | Made booking => mret (Some booking)
      | Duplicate => mret None
      | Full =>
          again ← atomic (read_menu menu);
          match again with
          | None => raise NotFound
          | Some m => if negb (get_version m =? get_version fresh) then mret None
                      else raise (Conflict "the menu is fully booked")
          end
      end
  end.

Definition CAP_WRITE_TRIES : nat := 8.

Definition book (menu : str) (student_ by_ : uuid) (cutoff : MealCutoff)
    : io Tables (Seat * MealBooking) :=
  rounds CAP_WRITE_TRIES (book_round menu student_ by_ cutoff)
    (raise (Conflict "the menu kept changing underneath this booking")).

Definition refundable_after_lost_flip (seen found : MealBooking) : result AppError bool :=
  if bool_decide (status found = Booked)
  then Err (Conflict "the seat was booked again while this cancellation ran")
  else Ok (attempt found =? attempt seen).

Definition cancel (s : Seat) (cutoff : MealCutoff) (by_ : uuid) : io Tables MealBooking :=
  row ← atomic (read_booking s);
  fresh ← lift (ok_or row NotFound);
  if bool_decide (status fresh = Cancelled) then _ ← reverse_booking s fresh by_; mret fresh else
  row ← atomic (read_menu s.1);
  menu ← lift (ok_or row NotFound);
  _ ← check_cutoff (date menu) (slot menu) cutoff;
  released ← release_seat s fresh by_;
  match released with
  | Some saved => _ ← reverse_booking s saved by_; mret saved
  | None =>
      row ← atomic (read_booking s);
      found ← lift (ok_or row NotFound);
      ours ← lift (refundable_after_lost_flip fresh found);
      if ours : bool then _ ← reverse_booking s found by_; mret found else mret found
  end.
End Money.
