(* ===== verification/MealProofs.v ===== *)
(** * What the meals promise

    Over [Meals]: an id of the ledger names its seat and attempt; and the
    invariant [meals_ok] (no menu holds more seats than it counts, a held seat is
    billed exactly once, a seat given back is refunded in full), which every
    single transaction keeps. *)

From S2P Require Import Prelude Text Errors Effects Uuid Validate Ledger Meals.

Open Scope Z_scope.

Section Promises.
Context `{UuidText, Calendar}.
Implicit Types (t : Tables) (s : Seat) (b : MealBooking) (l : MealLedger).

(** ** Ids *)

Lemma show_int_inj (x y : Z) : show_int x = show_int y → x = y.
Proof.
  unfold show_int, bytes_of. intros E. apply (inj pretty).
  apply (f_equal (fmap Ascii.ascii_of_N)) in E.
  assert (∀ z : string, Ascii.ascii_of_N <$> (Ascii.N_of_ascii <$> String.list_ascii_of_string z)
    = String.list_ascii_of_string z) as Hback.
  { intros z. rewrite <- list_fmap_compose. etrans; [|apply list_fmap_id].
    apply list_fmap_ext. intros i c _. simpl. by rewrite Ascii.ascii_N_embedding. }
  rewrite !Hback in E. rewrite <- (String.string_of_list_ascii_of_string (pretty x)), E.
  apply String.string_of_list_ascii_of_string.
Qed.

Lemma tail_plain k n : (95%N : char) ∉ marker k ++ show_int n.
Proof.
  rewrite elem_of_app. intros [Hin|Hin].
  - destruct k; apply list_elem_of_In in Hin; simpl in Hin; naive_solver.
  - revert Hin. by apply show_int_no.
Qed.

Lemma for_attempt_split s n k :
  rsplit_once 95%N (for_attempt s n k) = Some (seat_key s, marker k ++ show_int n).
Proof. unfold for_attempt. apply rsplit_once_app, tail_plain. Qed.

Lemma seat_key_split s : rsplit_once 95%N (seat_key s) = Some (s.1, uuid_text s.2).
Proof. unfold seat_key, pair_key. apply rsplit_once_app, uuid_text_no_underscore. Qed.

Lemma seat_key_inj s s' : uuid_ok s.2 → uuid_ok s'.2 → seat_key s = seat_key s' → s = s'.
Proof.
  intros Hs Hs' E. apply (f_equal (rsplit_once 95%N)) in E. rewrite !seat_key_split in E.
  injection E as E1 E2. apply uuid_text_inj in E2; [|done..]. destruct s, s'; simpl in *. by subst.
Qed.

Lemma for_attempt_inj s n k s' n' k' :
  uuid_ok s.2 → uuid_ok s'.2 → for_attempt s n k = for_attempt s' n' k' → s = s' ∧ n = n' ∧ k = k'.
Proof.
  intros Hs Hs' E. apply (f_equal (rsplit_once 95%N)) in E. rewrite !for_attempt_split in E.
  injection E as E1 E2. apply seat_key_inj in E1; [|done..].
  destruct k, k'; simpl in E2; try discriminate E2; injection E2 as E2;
    by apply show_int_inj in E2.
Qed.

Lemma request_not_attempt u key s n k : (95%N : char) ∉ key → for_request u key ≠ for_attempt s n k.
Proof.
  intros Hkey E. apply (f_equal (rsplit_once 95%N)) in E. rewrite for_attempt_split in E.
  unfold for_request in E. change (lit "_k_" ++ key) with ([95%N; 107%N] ++ 95%N :: key) in E.
  rewrite (app_assoc (uuid_text u)), rsplit_once_app in E by done. injection E as E _.
  apply (f_equal (rsplit_once 95%N)) in E. rewrite seat_key_split in E.
  change (uuid_text u ++ [95%N; 107%N]) with (uuid_text u ++ 95%N :: [107%N]) in E.
  rewrite rsplit_once_app in E; [|by apply not_elem_of_cons; split; [|apply not_elem_of_nil]].
  injection E as _ E. apply (f_equal length) in E. by rewrite uuid_text_length in E.
Qed.

Lemma minted_not_attempt u s n k : uuid_text u ≠ for_attempt s n k.
Proof.
  intros E. apply (uuid_text_no_underscore u). rewrite E. unfold for_attempt.
  rewrite elem_of_app, elem_of_app. right. left. constructor.
Qed.

(** ** The invariant *)

Definition charge_at t s n : option MealLedger := ledger t !! for_attempt s n Charge.
Definition reversal_at t s n : option MealLedger := ledger t !! for_attempt s n Reversal.

(** A seat held now, at its attempt. *)
Definition held_at t s n : Prop :=
  ∃ b, bookings t !! s = Some b ∧ status b = Booked ∧ attempt b = n.

Definition line_of s (k : MealLedgerKind) (a : Z) l : Prop :=
  kind l = k ∧ student l = s.2 ∧ amount_minor l = a.

(** Money that came and went: no line, or a charge and its reversal. *)
Definition settled t s n : Prop :=
  (charge_at t s n = None ∧ reversal_at t s n = None)
  ∨ ∃ c r a, charge_at t s n = Some c ∧ reversal_at t s n = Some r
      ∧ line_of s Charge a c ∧ line_of s Reversal a r.

(** Money that stands: the charge of a held seat, at the price it was taken at. *)
Definition stands t s b : Prop :=
  reversal_at t s (attempt b) = None ∧
  match price_minor b with
  | None => charge_at t s (attempt b) = None
  | Some a => ∃ c, charge_at t s (attempt b) = Some c ∧ line_of s Charge a c
  end.

Definition held_on (m : str) (p : Seat * MealBooking) : Prop := p.1.1 = m ∧ status p.2 = Booked.
#[export] Instance held_on_dec m p : Decision (held_on m p).
Proof. unfold held_on. apply _. Defined.

Record meals_ok t : Prop := {
  mo_users : ∀ u, u ∈ users t → uuid_ok u;
  mo_rows : ∀ s b, bookings t !! s = Some b → s.2 ∈ users t ∧ 1 ≤ attempt b < i64_max;
  mo_seats : ∀ m row, menus t !! m = Some row → count (held_on m) (bookings t) ≤ seats_booked row;
  mo_menu : ∀ s b, bookings t !! s = Some b → status b = Booked → is_Some (menus t !! s.1);
  mo_lines : ∀ i l, ledger t !! i = Some l → kind l ≠ Credit →
    ∃ s n, uuid_ok s.2 ∧ i = for_attempt s n (kind l);
  mo_future : ∀ s n, uuid_ok s.2 → (∀ b, bookings t !! s = Some b → attempt b < n) →
    charge_at t s n = None ∧ reversal_at t s n = None;
  mo_stands : ∀ s b, bookings t !! s = Some b → status b = Booked → stands t s b;
  mo_settled : ∀ s n, uuid_ok s.2 → ¬ held_at t s n → settled t s n;
}.

(** What one step may do to the seats and the money: lines are never changed,
    and a seat's row only moves on to later attempts. *)
Definition row_moves b b' : Prop :=
  attempt b ≤ attempt b' ∧
  (attempt b' = attempt b → price_minor b' = price_minor b ∧ (status b = Cancelled → status b' = Cancelled)).

Record meal_moves t t' : Prop := {
  mm_ledger : ledger t ⊆ ledger t';
  mm_rows : ∀ s b, bookings t !! s = Some b → ∃ b', bookings t' !! s = Some b' ∧ row_moves b b';
}.

#[export] Instance meal_moves_preorder : PreOrder meal_moves.
Proof.
  split.
  - intros t. split; [done|]. intros s b Hb. exists b. by repeat split.
  - intros t1 t2 t3 [Hl1 Hr1] [Hl2 Hr2]. split; [by etrans|]. intros s b Hb.
    destruct (Hr1 s b Hb) as (b' & Hb' & Ha & Hp). destruct (Hr2 s b' Hb') as (b2 & Hb2 & Ha2 & Hp2).
    exists b2. split; [done|]. split; [lia|]. intros Heq.
    destruct Hp as [Hp Hc]; [lia|]. destruct Hp2 as [Hp2 Hc2]; [lia|]. split; [congruence|auto].
Qed.

(** ** One step keeps the invariant *)

Implicit Types (m : str) (row : Menu).

(** A step that leaves seats and money alone. *)
Lemma menus_step t t' :
  bookings t' = bookings t → ledger t' = ledger t → users t' = users t →
  (∀ m row, menus t' !! m = Some row → count (held_on m) (bookings t) ≤ seats_booked row) →
  (∀ s b, bookings t !! s = Some b → status b = Booked → is_Some (menus t' !! s.1)) →
  meals_ok t → meals_ok t' ∧ meal_moves t t'.
Proof.
  intros Eb El Eu Hm Hs []. split.
  - split; unfold settled, stands, held_at, charge_at, reversal_at in *; rewrite ?Eb, ?El, ?Eu; done.
  - split; [by rewrite El|]. rewrite Eb. intros s b Hb. exists b. by repeat split.
Qed.

(** A menu row rewritten without touching its seats. *)
Lemma alter_menu_step t m (f : Menu → Menu) :
  (∀ row, seats_booked (f row) = seats_booked row) →
  meals_ok t → meals_ok (set_menus (alter f m) t) ∧ meal_moves t (set_menus (alter f m) t).
Proof.
  intros Hf Hok. apply menus_step; [done..| | |done]; simpl.
  - intros m' row. rewrite lookup_alter. case_decide as Heq.
    + subst. rewrite fmap_Some. intros (r & Hr & ->). rewrite Hf. by apply Hok.
    + apply Hok.
  - intros s b Hb Hst. pose proof (mo_menu t Hok s b Hb Hst) as [r Hr].
    rewrite lookup_alter. case_decide; subst; rewrite Hr; by eexists.
Qed.

(** A seat's row replaced, with the lines of its own attempt alone. *)
Lemma seat_step t t' s b :
  meals_ok t → users t' = users t → s.2 ∈ users t →
  bookings t' = <[s := b]> (bookings t) → ledger t ⊆ ledger t' →
  (∀ i l, ledger t' !! i = Some l → ledger t !! i = Some l
    ∨ kind l ≠ Credit ∧ i = for_attempt s (attempt b) (kind l)) →
  1 ≤ attempt b < i64_max →
  (∀ p, bookings t !! s = Some p → row_moves p b ∧ (status p = Booked → attempt p = attempt b)) →
  match status b with Booked => stands t' s b | Cancelled => settled t' s (attempt b) end →
  (∀ m row, menus t' !! m = Some row → count (held_on m) (bookings t') ≤ seats_booked row) →
  (∀ m, is_Some (menus t !! m) → is_Some (menus t' !! m)) →
  (status b = Booked → is_Some (menus t' !! s.1)) →
  meals_ok t' ∧ meal_moves t t'.
Proof.
  intros Hok Eu Hin Eb Hsub Hnew Ha Hp Hst Hm Hdom Hhere. assert (uuid_ok s.2) as Hu by by apply Hok.
  assert (∀ s' n k, uuid_ok s'.2 → k ≠ Credit → (s' = s → n ≠ attempt b) →
    ledger t' !! for_attempt s' n k = ledger t !! for_attempt s' n k) as Hother.
  { intros s' n k Hu' Hk Hne. destruct (ledger t !! for_attempt s' n k) as [l|] eqn:E.
    - exact (lookup_weaken _ _ _ _ E Hsub).
    - destruct (ledger t' !! _) as [l|] eqn:E'; [|done]. exfalso.
      destruct (Hnew _ _ E') as [|[_ Hid]]; [congruence|].
      apply for_attempt_inj in Hid as (-> & -> & _); [|done..]. by apply Hne. }
  split; [split|split; [done|]].
  - rewrite Eu. apply Hok.
  - rewrite Eb, Eu. intros s' b' [[<- <-]|[_ Hb']]%lookup_insert_Some; [done|by apply Hok].
  - done.
  - rewrite Eb. intros s' b' [[<- <-]|[_ Hb']]%lookup_insert_Some Hs'; [auto|].
    apply Hdom. by eapply Hok.
  - intros i l Hl Hk. destruct (Hnew _ _ Hl) as [Hold|[_ ->]]; [by eapply Hok|by exists s, (attempt b)].
  - rewrite Eb. intros s' n Hu' Hlt. unfold charge_at, reversal_at.
    assert (s' = s → n ≠ attempt b) as Hne.
    { intros ->. specialize (Hlt b (lookup_insert_eq _ _ _)). lia. }
    rewrite !Hother by done. apply (mo_future t Hok); [done|]. intros b' Hb'.
    destruct (decide (s' = s)) as [->|Hs']; [|apply Hlt; by rewrite lookup_insert_ne].
    specialize (Hlt b (lookup_insert_eq _ _ _)). destruct (Hp b' Hb') as [[Hle _] _]. lia.
  - rewrite Eb. intros s' b' [[<- <-]|[Hs' Hb']]%lookup_insert_Some Hb2; [by rewrite Hb2 in Hst|].
    destruct (mo_rows t Hok _ _ Hb') as [Hu'%(mo_users t Hok) _].
    pose proof (mo_stands t Hok s' b' Hb' Hb2) as Hold. unfold stands, charge_at, reversal_at in *.
    rewrite !Hother by (done || congruence). exact Hold.
  - intros s' n Hu' Hno. destruct (decide (s' = s ∧ n = attempt b)) as [[-> ->]|Hne].
    + destruct (status b) eqn:Hsb; [|done]. exfalso. apply Hno. exists b.
      by rewrite Eb, lookup_insert_eq.
    + assert (settled t s' n) as Hold.
      { apply (mo_settled t Hok); [done|]. intros (b' & Hb' & Hb2 & <-). destruct (decide (s' = s)) as [->|Hs'].
        - destruct (Hp b' Hb') as [_ Hbk]. naive_solver.
        - apply Hno. exists b'. by rewrite Eb, lookup_insert_ne. }
      unfold settled, charge_at, reversal_at in *. rewrite !Hother by naive_solver. exact Hold.
  - rewrite Eb. intros s' b' Hb'. destruct (decide (s' = s)) as [->|Hs'].
    + exists b. rewrite lookup_insert_eq. split; [done|by apply Hp].
    + exists b'. rewrite lookup_insert_ne by done. by repeat split.
Qed.

(** ** The statements *)

Lemma seats_claimed m s b (bk : gmap Seat MealBooking) :
  count (held_on m) (<[s := b]> bk) ≤ count (held_on m) bk + (if decide (s.1 = m) then 1 else 0).
Proof.
  rewrite count_insert. destruct (bk !! s) as [p|] eqn:E.
  - rewrite (count_delete (held_on m) bk s p) by done. unfold held_on; simpl.
    repeat case_decide; naive_solver lia.
  - rewrite delete_id by done. unfold held_on; simpl. repeat case_decide; naive_solver lia.
Qed.

Lemma seats_released m s (p b : MealBooking) (bk : gmap Seat MealBooking) :
  bk !! s = Some p → status p = Booked → status b = Cancelled →
  count (held_on m) (<[s := b]> bk) = count (held_on m) bk - (if decide (s.1 = m) then 1 else 0).
Proof.
  intros E Hp Hb. rewrite count_insert, (count_delete (held_on m) bk s p) by done.
  unfold held_on; simpl. repeat case_decide; naive_solver (congruence || lia).
Qed.

Lemma insert_line_ok l t o t' :
  insert_line l t = Ok (o, t') →
  (o = None ∧ t' = t ∧ is_Some (ledger t !! line_id l))
  ∨ (o = Some l ∧ ledger t !! line_id l = None ∧ t' = set_ledger <[line_id l := l]> t).
Proof. unfold insert_line. destruct (ledger t !! line_id l) eqn:E; [naive_solver|]. case_match; naive_solver. Qed.

Lemma place_ok s r t b :
  status r = Booked → place s r t = Some b →
  status b = Booked ∧ attempt b = attempt r ∧ price_minor b = price_minor r ∧
  (∀ p, bookings t !! s = Some p → status p = Cancelled ∧ attempt p = attempt r - 1).
Proof.
  unfold place. intros Hr. destruct (bookings t !! s) as [p|]; [|naive_solver].
  case_match eqn:E; [|done]. apply andb_true_iff in E as [Hc Ha]. apply bool_decide_eq_true in Hc.
  intros [= <-]. simpl. split_and!; [done..|]. intros ? [= <-]. split; [done|lia].
Qed.

(** The seat on the menu row, committed even when the row cannot be placed. *)
Lemma seat_taken_step t m row :
  menus t !! m = Some row → meals_ok t →
  meals_ok (set_menus <[m := with_seats (Z.add 1) row]> t)
  ∧ meal_moves t (set_menus <[m := with_seats (Z.add 1) row]> t).
Proof.
  intros Hrow Hok. apply menus_step; [done..| | |done]; simpl.
  - intros m' r [[<- <-]|[_ Hr]]%lookup_insert_Some; [|by apply Hok].
    pose proof (mo_seats t Hok _ _ Hrow). simpl. lia.
  - intros s b Hb Hs. destruct (mo_menu t Hok s b Hb Hs) as [r Hr]. rewrite lookup_insert.
    case_decide; [by eexists|by rewrite Hr; eexists].
Qed.

Lemma claim_moves s cap seen r by_ t_now :
  status r = Booked → 1 ≤ attempt r < i64_max →
  tx_moves meals_ok meal_moves (claim_tx s cap seen r (charge_for s r by_ t_now)).
Proof.
  intros Hr Ha t c t' Hok. unfold claim_tx.
  destruct (menus t !! s.1) as [row|] eqn:Hrow; [|by intros [= <- <-]].
  case_match; [|by intros [= <- <-]].
  destruct (place s r _) as [b|] eqn:Hplace; [|intros [= <- <-]; by apply seat_taken_step].
  apply place_ok in Hplace as (Hb & Hba & Hbp & Hprior); [|done]. simpl in Hprior.
  destruct (negb _) eqn:Hin; [done|].
  apply negb_false_iff, andb_true_iff in Hin as [Hin _]. apply bool_decide_eq_true in Hin. simpl in Hin.
  intros Hend. assert (uuid_ok s.2) as Hu by by apply Hok.
  destruct (mo_future t Hok s (attempt b) Hu) as [Hc0 Hr0].
  { intros p Hp. destruct (Hprior p Hp). lia. }
  assert (ledger t' = from_option (λ l, <[line_id l := l]>) id (charge_for s r by_ t_now) (ledger t)
    ∧ bookings t' = <[s := b]> (bookings t) ∧ users t' = users t
    ∧ menus t' = <[s.1 := with_seats (Z.add 1) row]> (menus t)) as (El & Eb & Eu & Em).
  { unfold charge_for in *. destruct (price_minor r) as [a|] eqn:Ep; simpl in *; [|by injection Hend as <- <-].
    destruct (insert_line _ _) as [[o t2]|] eqn:Ei; [|done]. injection Hend as <- <-.
    apply insert_line_ok in Ei as [(_ & _ & [l Hl])|(_ & _ & ->)]; [|done].
    exfalso. simpl in Hl. unfold charge_at in Hc0. by rewrite <- Hba, Hc0 in Hl. }
  apply (seat_step t t' s b); try done.
  - rewrite El. unfold charge_for. destruct (price_minor r); simpl; [|done].
    apply insert_subseteq. by rewrite <- Hba.
  - intros i l. rewrite El. unfold charge_for. destruct (price_minor r); simpl; [|by left].
    intros [[<- <-]|[_ Hl]]%lookup_insert_Some; [right; simpl; by rewrite Hba|by left].
  - by rewrite Hba.
  - intros p Hp. destruct (Hprior p Hp) as [Hc Hpa]. split; [split; lia|]. by rewrite Hc.
  - rewrite Hb. unfold stands, charge_at, reversal_at in *. rewrite El, Hbp. unfold charge_for.
    destruct (price_minor r) as [a|] eqn:Ep; simpl; [|done]. rewrite Hba in *.
    rewrite lookup_insert_eq, lookup_insert_ne by (intros (_ & _ & E)%for_attempt_inj; done).
    split; [done|]. by eexists.
  - intros m r'. rewrite Em, Eb. pose proof (seats_claimed m s b (bookings t)).
    intros [[<- <-]|[Hne Hr']]%lookup_insert_Some.
    + pose proof (mo_seats t Hok _ _ Hrow). simpl. case_decide; [lia|done].
    + pose proof (mo_seats t Hok _ _ Hr'). case_decide; [done|lia].
  - intros m [r' Hr']. rewrite Em, lookup_insert. case_decide; [by eexists|by rewrite Hr'; eexists].
  - rewrite Em, lookup_insert_eq. by eexists.
Qed.

(** What a row read some steps ago still says of the one there now. *)
Definition was t s b : Prop := ∃ b', bookings t !! s = Some b' ∧ row_moves b b'.

Lemma was_steady s b : steady meals_ok meal_moves (λ t, was t s b).
Proof.
  intros t t' _ _ HR (b1 & H1 & Hm1). destruct (mm_rows _ _ HR s b1 H1) as (b2 & H2 & Hm2).
  exists b2. split; [done|]. destruct Hm1 as [Ha1 Hp1], Hm2 as [Ha2 Hp2]. split; [lia|].
  intros E. destruct Hp1; [lia|]. destruct Hp2; [lia|]. split; [congruence|auto].
Qed.

Lemma reversal_line s b by_ t_now c l :
  reversal_for s b by_ t_now = Some (c, l) →
  ∃ a, price_minor b = Some a ∧ c = for_attempt s (attempt b) Charge
    ∧ line_id l = for_attempt s (attempt b) Reversal ∧ line_of s Reversal a l.
Proof. unfold reversal_for. destruct (price_minor b) as [a|]; [|done]. intros [= <- <-]. by exists a. Qed.

Lemma release_moves s b by_ t_now t_line t o t' :
  meals_ok t → was t s b → release_seat_tx s b by_ t_now t_line t = Ok (o, t') →
  meals_ok t' ∧ meal_moves t t'.
Proof.
  intros Hok (p & Hp & Hle & Hm). unfold release_seat_tx. rewrite Hp.
  case_match eqn:E; [|by intros [= <- <-]]. apply andb_true_iff in E as [Hbk Ha].
  apply bool_decide_eq_true in Hbk. apply Z.eqb_eq in Ha. destruct Hm as [Hprice _]; [done|].
  destruct (mo_rows t Hok _ _ Hp) as [Hin Hb]. assert (uuid_ok s.2) as Hu by by apply Hok.
  set (b' := MkBooking _ Cancelled _ _ _ _). intros Hend.
  pose proof (mo_stands t Hok _ _ Hp Hbk) as [Hr0 Hc0].
  assert (bookings t' = <[s := b']> (bookings t) ∧ users t' = users t
    ∧ menus t' = alter (with_seats (λ n, Z.max (n - 1) 0)) s.1 (menus t)
    ∧ ledger t' = from_option (λ p, <[line_id p.2 := p.2]>) id (reversal_for s b by_ t_line) (ledger t))
    as (Eb & Eu & Em & El).
  { destruct (reversal_for s b by_ t_line) as [[c l]|] eqn:Er; [|by injection Hend as <- <-].
    apply reversal_line in Er as (a & Ep & -> & Hid & _).
    rewrite Hprice, Ep in Hc0. destruct Hc0 as (c & Hc & _).
    unfold charge_at, reversal_at in *. rewrite Ha in *. simpl in Hend. rewrite Hid, Hr0, Hc in Hend. simpl in Hend.
    destruct (insert_line _ _) as [[o2 t2]|] eqn:Ei; [|done]. injection Hend as <- <-.
    apply insert_line_ok in Ei as [(_ & _ & [l' Hl])|(_ & _ & ->)]; [|done].
    exfalso. simpl in Hl. congruence. }
  apply (seat_step t t' s b'); try done.
  - rewrite El. destruct (reversal_for s b by_ t_line) as [[c l]|] eqn:Er; [|done].
    apply reversal_line in Er as (a & Ep & -> & Hid & _). simpl. apply insert_subseteq.
    rewrite Hid, <- Ha. exact Hr0.
  - intros i l. rewrite El. destruct (reversal_for s b by_ t_line) as [[c l0]|] eqn:Er; [|by left].
    apply reversal_line in Er as (a & Ep & -> & Hid & Hk & _). simpl.
    intros [[<- <-]|[_ Hl]]%lookup_insert_Some; [right|by left]. by rewrite Hk, Hid, Ha.
  - intros p' Hp'. rewrite Hp in Hp'. injection Hp' as <-. by repeat split.
  - simpl. unfold settled, charge_at, reversal_at in *. rewrite El. unfold reversal_for.
    rewrite Hprice in Hc0. rewrite Ha in *. destruct (price_minor b) as [a|]; simpl; [|by left]. right.
    destruct Hc0 as (c & Hc & Hl). exists c. eexists _, a.
    rewrite lookup_insert_eq, lookup_insert_ne by (intros (_ & _ & E)%for_attempt_inj; done).
    split_and!; done.
  - intros m row. rewrite Em, Eb, (seats_released m s p b') by done.
    intros [(<- & r & Hr & ->)|[Hne Hr]]%lookup_alter_Some; pose proof (mo_seats t Hok _ _ Hr);
      simpl; case_decide; (done || lia).
  - intros m Hm. by rewrite Em, lookup_alter_is_Some.
Qed.

Definition same_books t t' : Prop :=
  bookings t' = bookings t ∧ ledger t' = ledger t ∧ users t' = users t ∧ menus t' = menus t.

Lemma same_books_step t t' :
  same_books t t' → meals_ok t → meals_ok t' ∧ meal_moves t t'.
Proof.
  intros (Eb & El & Eu & Em) Hok. apply menus_step; rewrite ?Eb, ?Em; [done..| | |done]; apply Hok.
Qed.

Lemma same_books_moves {A} (m : tx Tables A) :
  (∀ t a t', m t = Ok (a, t') → same_books t t') → tx_moves meals_ok meal_moves m.
Proof. intros Hm t a t' Hok E. apply same_books_step; eauto. Qed.

Lemma bump_moves m : tx_moves meals_ok meal_moves (bump_menu m).
Proof. intros t a t' Hok. unfold bump_menu. case_match; [|done]. intros [= <- <-]. by apply alter_menu_step. Qed.

Lemma create_menu_moves d sl cp by_ t_now :
  tx_moves meals_ok meal_moves (create_menu_tx d sl cp by_ t_now).
Proof.
  intros t a t' Hok. unfold create_menu_tx. repeat case_match; try done. intros [= <- <-].
  rename select (menus t !! _ = None) into Hno. apply menus_step; [done..| | |done]; simpl.
  - intros m row [[<- <-]|[_ Hr]]%lookup_insert_Some; [|by apply Hok]. simpl.
    enough (count (held_on (menu_id d sl)) (bookings t) = 0) by lia. apply count_0.
    intros s b Hb [E Hst]. simpl in *. destruct (mo_menu t Hok s b Hb Hst). congruence.
  - intros s b Hb Hst. rewrite lookup_insert.
    destruct (decide _); [by eexists|by apply (mo_menu t Hok s b)].
Qed.

Lemma update_menu_moves i c :
  tx_moves meals_ok meal_moves (λ t, Ok (with_capacity c ∘ bump <$> menus t !! i,
    set_menus (alter (with_capacity c ∘ bump) i) t)).
Proof. intros t a t' Hok [= <- <-]. by apply alter_menu_step. Qed.

Lemma delete_menu_moves i sl : tx_moves meals_ok meal_moves (delete_menu_tx i sl).
Proof.
  intros t a t' Hok. unfold delete_menu_tx. destruct (menus t !! i) as [row|] eqn:Hrow; [|by intros [= <- <-]].
  destruct (seats_booked row =? 0) eqn:Hz; [|by intros [= <- <-]]. intros [= <- <-].
  apply Z.eqb_eq in Hz. apply menus_step; [done..| | |done]; simpl.
  - intros m r [_ Hr]%lookup_delete_Some. by apply Hok.
  - intros s b Hb Hst. rewrite lookup_delete.
    destruct (decide _) as [E|]; [|by apply (mo_menu t Hok s b)]. exfalso.
    pose proof (mo_seats t Hok _ _ Hrow). pose proof (count_nonneg (held_on i) (bookings t)).
    assert (count (held_on i) (bookings t) = 0) as Hc by lia. rewrite count_0 in Hc.
    by apply (Hc s b).
Qed.

Lemma after_bump {A} m (k : () → tx Tables A) :
  (∀ t a t', k () t = Ok (a, t') → same_books t t') →
  tx_moves meals_ok meal_moves (bump_menu m ≫= k).
Proof.
  intros Hk. apply (tx_moves_bind meals_ok meal_moves meal_moves); [apply bump_moves|].
  intros []. by apply same_books_moves.
Qed.

Lemma create_dish_moves m n d p g c u t_now :
  tx_moves meals_ok meal_moves (create_dish_tx m n d p g c u t_now).
Proof.
  apply after_bump. unfold sql. intros t a t'. repeat case_match; try done. by intros [= <- <-].
Qed.

Lemma update_dish_moves i m n d p g : tx_moves meals_ok meal_moves (update_dish_tx i m n d p g).
Proof.
  apply after_bump. unfold sql. intros t a t'. case_match; try done. by intros [= <- <-].
Qed.

Lemma delete_dish_moves i m : tx_moves meals_ok meal_moves (delete_dish_tx i m).
Proof.
  apply after_bump. unfold sql. intros t a t'. case_match; try done. by intros [= <- <-].
Qed.

Lemma mark_moves m u st by_ t_now : tx_moves meals_ok meal_moves (mark_tx m u st by_ t_now).
Proof.
  apply after_bump. unfold sql. intros t a t'. case_match; try done. by intros [= <- <-].
Qed.

(** A credit line's id is no booking line's. *)
Definition credit_line l : Prop := kind l = Credit ∧ ∀ s n k, line_id l ≠ for_attempt s n k.

Lemma credit_moves l : credit_line l → tx_moves meals_ok meal_moves (insert_line l).
Proof.
  intros [Hk Hid] t o t' Hok [(_ & -> & _)|(_ & Hno & ->)]%insert_line_ok; [done|].
  set (t' := set_ledger _ t).
  assert (∀ s n, charge_at t' s n = charge_at t s n ∧ reversal_at t' s n = reversal_at t s n) as Hsame
    by by intros; split; apply lookup_insert_ne.
  split; [|split; simpl; [by apply insert_subseteq|]].
  - destruct Hok. split; [done..| | | |].
    + simpl. intros i l' [[<- <-]|[_ Hl]]%lookup_insert_Some; [done|eauto].
    + intros s n Hu Hlt. destruct (Hsame s n) as [-> ->]. eauto.
    + intros s b Hb Hs. unfold stands. destruct (Hsame s (attempt b)) as [-> ->]. by apply mo_stands0.
    + intros s n Hu Hnot. unfold settled. destruct (Hsame s n) as [-> ->]. by apply mo_settled0.
  - intros s b Hb. exists b. by repeat split.
Qed.

End Promises.
