(* ===== verification/MealBooks.v ===== *)
(** * The meal workflows, under interference

    Every request of the meal program, run while others commit between its
    statements, keeps [meals_ok] and moves by [meal_moves]; a booking it answers
    is held and billed, and a cancellation it answers is refunded. *)

From S2P Require Import Prelude Text Errors Effects Uuid Validate Ledger Meals MealProofs.

Open Scope Z_scope.

(** ** The deadlines write nothing *)

Section Deadlines.
Context `{UuidText, Calendar}.
Context (I : Tables → Prop) (R T : Tables → Tables → Prop) `{!PreOrder T, !subrelation R T}.
Set Default Proof Using "All".

Lemma day_keeps (P : Tables → Prop) d : outline I R T P (check_day_not_past d) (λ _ t, P t).
Proof.
  unfold check_day_not_past. case_match; [|by apply (outline_ret I R T)].
  apply outline_now; [apply _..|]. intros t_now. case_match; by apply (outline_done I R T).
Qed.

Lemma cutoff_keeps (P : Tables → Prop) d sl c : outline I R T P (check_cutoff d sl c) (λ _ t, P t).
Proof.
  unfold check_cutoff. repeat case_match; try by apply (outline_done I R T).
  apply outline_now; [apply _..|]. intros t_now. case_match; by apply (outline_done I R T).
Qed.

Lemma day_then {A} (P : Tables → Prop) d (k : () → io Tables A) Q :
  (∀ e t, Q (Err e) t) → outline I R T P (k ()) Q → outline I R T P (check_day_not_past d ≫= k) Q.
Proof. intros He Hk. apply (outline_bind I R T _ _ _ _ _ (day_keeps P d)); [by intros []|auto]. Qed.

Lemma cutoff_then {A} (P : Tables → Prop) d sl c (k : () → io Tables A) Q :
  (∀ e t, Q (Err e) t) → outline I R T P (k ()) Q → outline I R T P (check_cutoff d sl c ≫= k) Q.
Proof. intros He Hk. apply (outline_bind I R T _ _ _ _ _ (cutoff_keeps P d sl c)); [by intros []|auto]. Qed.
End Deadlines.

Section Books.
Context `{UuidText, Calendar}.
Implicit Types (t : Tables) (s : Seat) (b : MealBooking) (l : MealLedger).

Abbreviation promises := (outline meals_ok meal_moves meal_moves).
Abbreviation lasting := (steady meals_ok meal_moves).

(** ** What lasts *)

Lemma there_steady i : lasting (λ t, is_Some (ledger t !! i)).
Proof. intros t t' _ _ HR [l Hl]. exists l. exact (lookup_weaken _ _ _ _ Hl (mm_ledger _ _ HR)). Qed.

Definition charged t s b : Prop :=
  is_Some (price_minor b) → is_Some (charge_at t s (attempt b)).
Definition read_of t s b : Prop :=
  was t s b ∧ (status b = Booked → charged t s b).
Definition given_back t s b : Prop := was t s b ∧ status b = Cancelled.

Lemma charged_steady s b : lasting (λ t, charged t s b).
Proof. intros t t' HI HI' HR Hc Hp. exact (there_steady _ t t' HI HI' HR (Hc Hp)). Qed.

Lemma read_of_steady s b : lasting (λ t, read_of t s b).
Proof.
  apply (steady_and meals_ok meal_moves meal_moves); [apply was_steady|]. intros t t' HI HI' HR Hc Hb.
  exact (charged_steady s b t t' HI HI' HR (Hc Hb)).
Qed.

Lemma given_back_steady s b : lasting (λ t, given_back t s b).
Proof. apply (steady_and meals_ok meal_moves meal_moves); [apply was_steady|apply (steady_const meals_ok meal_moves meal_moves)]. Qed.

Lemma just_read t s b : meals_ok t → bookings t !! s = Some b → read_of t s b.
Proof.
  intros Hok Hb. split; [by exists b; repeat split|]. intros Hs [a Ha].
  destruct (mo_stands t Hok s b Hb Hs) as [_ Hc]. rewrite Ha in Hc. destruct Hc as (c & Hc & _). by exists c.
Qed.

Lemma refunded t s b : meals_ok t → given_back t s b → settled t s (attempt b).
Proof.
  intros Hok [(b' & Hb' & Hle & Hm) Hc]. apply (mo_settled t Hok).
  - by eapply (mo_users t Hok), (mo_rows t Hok).
  - intros (b2 & Hb2 & Hs & Ha). rewrite Hb' in Hb2. injection Hb2 as <-.
    destruct Hm as [_ Hm]; [done|]. rewrite (Hm Hc) in Hs. done.
Qed.

(** ** The ledger's calls *)

Lemma append_there P l (Q : result AppError MealLedger → Tables → Prop) :
  lasting P → (∀ t, P t → is_Some (ledger t !! line_id l)) →
  (∀ r t, P t → Q r t) → promises P (append l) Q.
Proof.
  intros HP Hl HQ. unfold append.
  apply (outline_step meals_ok meal_moves meal_moves _ _ (λ a t, P t ∧ is_Some a)); [done|apply (tx_moves_gets meals_ok meal_moves meal_moves)| | |].
  - intros t a t' Hok HPt [= <- <-]. auto.
  - auto.
  - intros [line|].
    + apply (outline_ret meals_ok meal_moves meal_moves). intros t _ [HPt _]. by apply HQ.
    + intros w _ _ [_ [? ?]]. done.
Qed.

Lemma append_credit l :
  credit_line l →
  promises (λ _, True) (append l) (λ r t, ∀ line, r = Ok line → ledger t !! line_id l = Some line).
Proof.
  intros Hl. unfold append.
  apply (outline_step meals_ok meal_moves meal_moves _ _ (λ a t, ∀ line, a = Some line → ledger t !! line_id l = Some line));
    [done|apply (tx_moves_gets meals_ok meal_moves meal_moves)| | |].
  - by intros t a t' _ _ [= <- <-].
  - done.
  - intros [line|]; [apply (outline_ret meals_ok meal_moves meal_moves); naive_solver|].
    apply (outline_step meals_ok meal_moves meal_moves _ _ (λ a t, ∀ line, a = Some line → ledger t !! line_id l = Some line)).
    + intros ? ? _ _ _ _. done.
    + by apply credit_moves.
    + intros t a t' _ _ [(-> & -> & _)|(-> & _ & ->)]%insert_line_ok; [done|].
      intros ? [= <-]. apply lookup_insert_eq.
    + done.
    + intros [line|]; [apply (outline_ret meals_ok meal_moves meal_moves); naive_solver|].
      apply (outline_step meals_ok meal_moves meal_moves _ _ (λ a t, ∀ line, a = Some line → ledger t !! line_id l = Some line));
        [intros ? ? _ _ _ _; done|apply (tx_moves_gets meals_ok meal_moves meal_moves)| | |].
      * by intros t a t' _ _ [= <- <-].
      * done.
      * intros [line|]; apply (outline_done meals_ok meal_moves meal_moves); naive_solver.
Qed.
(** On a seat read as held, whose charge is there, the charge is not repeated. *)
Lemma charge_booking_there s b by_ :
  promises (λ t, read_of t s b ∧ status b = Booked) (charge_booking s b by_) (λ _ t, read_of t s b).
Proof.
  unfold charge_booking. destruct (price_minor b) as [a|] eqn:Ep;
    [|apply (outline_ret meals_ok meal_moves meal_moves); naive_solver].
  apply outline_now; [apply _..|]. intros t_now. unfold charge_for. rewrite Ep. simpl.
  apply (outline_bind meals_ok meal_moves meal_moves _ _ _ (λ _ t, read_of t s b)).
  - apply append_there.
    + apply (steady_and meals_ok meal_moves meal_moves); [apply read_of_steady|].
      apply (steady_const meals_ok meal_moves meal_moves).
    + intros t [[_ Hc] Hb]. apply (Hc Hb). by exists a.
    + naive_solver.
  - intros l. apply (outline_ret meals_ok meal_moves meal_moves). naive_solver.
  - done.
Qed.

(** A seat known to be given back has its reversal already. *)
Lemma reverse_booking_there s b by_ :
  promises (λ t, given_back t s b) (reverse_booking s b by_) (λ _ t, given_back t s b).
Proof.
  unfold reverse_booking. destruct (price_minor b) as [a|] eqn:Ep;
    [|apply (outline_ret meals_ok meal_moves meal_moves); naive_solver].
  apply outline_now; [apply _..|]. intros t_now. unfold reversal_for. rewrite Ep. simpl.
  apply (outline_step meals_ok meal_moves meal_moves _ _ (λ there t, given_back t s b ∧
    (is_Some there → is_Some (ledger t !! for_attempt s (attempt b) Reversal)))).
  - apply given_back_steady.
  - apply (tx_moves_gets meals_ok meal_moves meal_moves).
  - intros t there t' Hok Hg [= <- <-]. split; [done|]. intros [c Hc].
    destruct (refunded _ _ _ Hok Hg) as [[Hno _]|(c' & r & a' & _ & Hr & _)]; [|by exists r].
    unfold charge_at in Hno. congruence.
  - done.
  - intros [c|]; [|apply (outline_ret meals_ok meal_moves meal_moves); naive_solver].
    apply (outline_bind meals_ok meal_moves meal_moves _ _ _ (λ _ t, given_back t s b)).
    + apply append_there; [|naive_solver..].
      apply (steady_and meals_ok meal_moves meal_moves); [apply given_back_steady|].
      intros t t' HI HI' HR Hl Hs. exact (there_steady _ t t' HI HI' HR (Hl Hs)).
    + intros l. apply (outline_ret meals_ok meal_moves meal_moves). naive_solver.
    + done.
Qed.

(** ** Booking *)

(** What [book] answers is held at its last statement, and billed. *)
Definition answers_seat (s : Seat) (r : result AppError (Seat * MealBooking)) t : Prop :=
  match r with
  | Ok (s', b) => s' = s ∧ bookings t !! s = Some b ∧ status b = Booked
  | Err _ => True
  end.

Definition round_answer (s : Seat) (r : result AppError (option (Seat * MealBooking))) t : Prop :=
  match r with
  | Ok (Some p) => answers_seat s (Ok p) t
  | _ => True
  end.

Lemma claim_answer s cap seen r charge t c t' :
  status r = Booked → claim_tx s cap seen r charge t = Ok (c, t') →
  match c with Made (s', b) => s' = s ∧ bookings t' !! s = Some b ∧ status b = Booked | _ => True end.
Proof.
  intros Hr. unfold claim_tx. destruct (menus t !! s.1); [|intros [= <- <-]; by destruct (held t s)].
  case_match; [|intros [= <- <-]; by destruct (held t s)].
  destruct (place s r _) as [b|] eqn:Hp; [|by intros [= <- <-]].
  apply place_ok in Hp as (Hb & _); [|done]. case_match; [done|]. destruct charge as [l|].
  - destruct (insert_line _ _) as [[o t2]|] eqn:Ei; [|done]. intros [= <- <-].
    apply insert_line_ok in Ei as [(_ & -> & _)|(_ & _ & ->)]; simpl; by rewrite lookup_insert_eq.
  - intros [= <- <-]. simpl. by rewrite lookup_insert_eq.
Qed.

Lemma claim_promises s cap seen r by_ t_now :
  status r = Booked → 1 ≤ attempt r < i64_max →
  promises (λ _, True) (claim_and_place s cap seen r (charge_for s r by_ t_now))
    (λ c t, match c with Ok (Made p) => answers_seat s (Ok p) t | _ => True end).
Proof.
  intros Hr Ha. unfold claim_and_place.
  apply (outline_step meals_ok meal_moves meal_moves _ _ (λ _ _, True)); [done| |done..|].
  { apply (tx_moves_gets meals_ok meal_moves meal_moves). }
  intros [|]; [by apply (outline_ret meals_ok meal_moves meal_moves)|].
  apply outline_atomic; [apply _..|done|by apply claim_moves| |done].
  intros t c t' _ _ Hc. apply claim_answer in Hc; [|done]. by destruct c as [[]| |].
Qed.

(** One read, whatever it finds. *)
Lemma read_anything {A B} (f : Tables → A) (k : A → io Tables B) Q :
  (∀ e t, Q (Err e) t) → (∀ a, promises (λ _, True) (k a) Q) →
  promises (λ _, True) (atomic (gets f) ≫= k) Q.
Proof.
  intros He Hk. apply (outline_step meals_ok meal_moves meal_moves _ _ (λ _ _, True)); [done| |done|done|done].
  apply (tx_moves_gets meals_ok meal_moves meal_moves).
Qed.

Lemma price_moves m : tx_moves meals_ok meal_moves (price_snapshot m).
Proof. intros t a t' Hok. unfold price_snapshot. repeat case_match; try done; by intros [= <- <-]. Qed.

Lemma price_anything {B} m (k : option Z → io Tables B) Q :
  (∀ e t, Q (Err e) t) → (∀ a, promises (λ _, True) (k a) Q) →
  promises (λ _, True) (atomic (price_snapshot m) ≫= k) Q.
Proof.
  intros He Hk. apply (outline_step meals_ok meal_moves meal_moves _ _ (λ _ _, True)); [done| |done|done|done].
  apply price_moves.
Qed.

Lemma next_attempt p :
  1 ≤ p < i64_max → ¬ MAX_MEAL_BOOKING_ATTEMPTS < i64_wrap (p + 1) → 1 ≤ i64_wrap (p + 1) < i64_max.
Proof. unfold MAX_MEAL_BOOKING_ATTEMPTS. intros Hp. rewrite i64_wrap_id; unfold_ints; lia. Qed.

Lemma round_promises m u by_ cutoff :
  promises (λ _, True) (book_round m u by_ cutoff) (round_answer (m, u)).
Proof.
  set (s := (m, u) : Seat). unfold book_round. apply read_anything; [done|]. intros row.
  apply outline_lift; [apply _..| |done]. intros fresh _.
  apply day_then; [apply _..|done|].
  apply cutoff_then; [apply _..|done|].
  apply (outline_step meals_ok meal_moves meal_moves _ _ (λ existing t, match existing with
    | Some b => read_of t s b ∧ 1 ≤ attempt b < i64_max | None => True end));
    [done|apply (tx_moves_gets meals_ok meal_moves meal_moves)| |done|].
  { intros t a t' Hok _ [= <- <-]. destruct (bookings t !! _) as [b|] eqn:Hb; [|done].
    split; [by apply just_read|]. by eapply mo_rows. }
  intros existing. destruct (live existing) as [b|] eqn:Hlive.
  - unfold live in Hlive. destruct existing as [b0|]; [|done]. simpl in Hlive.
    case_bool_decide as Hb; [|done]. injection Hlive as ->.
    apply (outline_bind meals_ok meal_moves meal_moves _ _ _ (λ _ t, read_of t s b)).
    { eapply (outline_weaken meals_ok meal_moves meal_moves); [..|apply charge_booking_there]; naive_solver. }
    { intros []. apply (outline_step meals_ok meal_moves meal_moves _ _ (λ again t, again = bookings t !! s));
        [apply read_of_steady|apply (tx_moves_gets meals_ok meal_moves meal_moves)| |done|].
      { by intros t a t' _ _ [= <- <-]. }
      intros again. apply (outline_ret meals_ok meal_moves meal_moves). intros t _ ->.
      unfold live, round_answer. destruct (bookings t !! s) as [b2|] eqn:Hb2; [|done]. simpl.
      case_bool_decide; simpl; [|done]. split_and!; done. }
    done.
  - set (n := match existing with Some prior => _ | None => 1 end).
    destruct (MAX_MEAL_BOOKING_ATTEMPTS <? n) eqn:Hcap;
      [by apply (outline_raise meals_ok meal_moves meal_moves)|]. apply Z.ltb_ge in Hcap.
    destruct (decide (1 ≤ n < i64_max)) as [Hn|Hn]; cycle 1.
    { intros w Hw HI HP. exfalso. apply Hn. destruct existing as [p|]; [|done].
      destruct HP as [_ HP]. apply next_attempt; unfold n in *; lia. }
    apply (outline_weaken meals_ok meal_moves meal_moves (λ _, True) _ _ (round_answer s) _); [done..|].
    apply price_anything; [done|]. intros price. apply outline_now; [apply _..|]. intros created.
    apply (outline_bind meals_ok meal_moves meal_moves _ _ _ (λ _ _, True)); [|intros t_line|done].
    { destruct price; [|by apply (outline_ret meals_ok meal_moves meal_moves)].
      by intros w Hw HI HP. }
    eapply (outline_bind meals_ok meal_moves meal_moves); [apply claim_promises; [done|exact Hn]| |done].
    intros [p| |].
    + by apply (outline_ret meals_ok meal_moves meal_moves).
    + apply (outline_weaken meals_ok meal_moves meal_moves (λ _, True) _ _ (round_answer s) _); [done..|].
      apply read_anything; [done|]. intros [again|]; [case_match|];
        by apply (outline_done meals_ok meal_moves meal_moves).
    + by apply (outline_ret meals_ok meal_moves meal_moves).
Qed.

Lemma book_promises m u by_ cutoff :
  promises (λ _, True) (book m u by_ cutoff) (answers_seat (m, u)).
Proof.
  unfold book. apply outline_rounds; [apply _..| |by apply (outline_raise meals_ok meal_moves meal_moves)].
  apply (outline_weaken meals_ok meal_moves meal_moves (λ _, True) _ _ (round_answer (m, u)) _);
    [done| |apply round_promises].
  intros [[p|]|e] t; simpl; auto.
Qed.

(** ** Cancelling *)

(** What [cancel] answers is given back: the seat is not held at that attempt
    and its money came and went. *)
Definition answers_back s (r : result AppError MealBooking) t : Prop :=
  match r with Ok b => given_back t s b | Err _ => True end.

Lemma release_answer s b by_ t_now t_line t o t' :
  release_seat_tx s b by_ t_now t_line t = Ok (o, t') →
  match o with Some saved => bookings t' !! s = Some saved ∧ status saved = Cancelled | None => True end.
Proof.
  unfold release_seat_tx. destruct (bookings t !! s) as [row|]; [|by intros [= <- <-]].
  case_match; [|by intros [= <- <-]]. set (row' := MkBooking _ _ _ _ _ _).
  assert (∀ x, <[s := row']> x !! s = Some row') as Hhere by (intros; apply lookup_insert_eq).
  destruct (reversal_for s b by_ t_line) as [[c l]|]; [|intros [= <- <-]; split; [apply Hhere|done]].
  case_match; [|intros [= <- <-]; split; [apply Hhere|done]].
  destruct (insert_line _ _) as [[x t2]|] eqn:Ei; [|done]. intros [= <- <-].
  apply insert_line_ok in Ei as [(_ & -> & _)|(_ & _ & ->)]; (split; [apply Hhere|done]).
Qed.

Lemma row_given_back t s b : bookings t !! s = Some b → status b = Cancelled → given_back t s b.
Proof. intros Hb Hc. split; [by exists b; repeat split|done]. Qed.

Lemma release_promises s b by_ :
  promises (λ t, was t s b) (release_seat s b by_)
    (λ r t, match r with Ok (Some saved) => given_back t s saved | _ => True end).
Proof.
  unfold release_seat.
  apply (outline_bind meals_ok meal_moves meal_moves _ _ _ (λ _ t, was t s b)); [|intros t_line|done].
  { destruct (price_minor b); [by intros w Hw HI HP|by apply (outline_ret meals_ok meal_moves meal_moves)]. }
  apply outline_now; [apply _..|]. intros t_now.
  apply (outline_commit meals_ok meal_moves meal_moves); [apply was_steady| |done].
  intros t o t' Hok Hwas E. pose proof (release_answer _ _ _ _ _ _ _ _ E) as Ho.
  destruct (release_moves _ _ _ _ _ _ _ _ Hok Hwas E). split_and!; [done..|].
  destruct o; [|done]. destruct Ho. by apply row_given_back.
Qed.

Lemma reverse_then s b by_ : promises (λ t, given_back t s b)
  (_ ← reverse_booking s b by_; mret b) (answers_back s).
Proof.
  apply (outline_bind meals_ok meal_moves meal_moves _ _ _ _ _ (reverse_booking_there _ _ _)); [|done].
  intros []. by apply (outline_ret meals_ok meal_moves meal_moves).
Qed.

Lemma cancel_promises s cutoff by_ :
  promises (λ _, True) (cancel s cutoff by_) (answers_back s).
Proof.
  unfold cancel.
  assert (∀ t a t', meals_ok t → read_booking s t = Ok (a, t') →
    match a with Some b => was t' s b ∧ (status b = Cancelled → given_back t' s b) | None => True end) as Hread.
  { intros t a t' Hok [= <- <-]. destruct (bookings t !! s) as [b|] eqn:Hb; [|done].
    split; [by exists b; repeat split|]. by apply row_given_back. }
  apply (outline_step meals_ok meal_moves meal_moves _ _ (λ a t, match a with
    | Some b => was t s b ∧ (status b = Cancelled → given_back t s b) | None => True end));
    [done|apply (tx_moves_gets meals_ok meal_moves meal_moves)|intros t a t' Hok _; apply Hread, Hok|done|].
  intros row. apply outline_lift; [apply _..| |done]. intros b ->%ok_or_ok.
  case_bool_decide as Hc.
  { eapply (outline_weaken meals_ok meal_moves meal_moves); [..|apply reverse_then]; [naive_solver|done]. }
  apply (outline_weaken meals_ok meal_moves meal_moves (λ t, was t s b) _ _ (answers_back s) _);
    [naive_solver|done|].
  apply (outline_step meals_ok meal_moves meal_moves _ _ (λ _ t, was t s b));
    [apply was_steady|apply (tx_moves_gets meals_ok meal_moves meal_moves)| |done|].
  { by intros t a t' _ ? [= <- <-]. }
  intros row. apply outline_lift; [apply _..| |done]. intros menu _.
  apply cutoff_then; [apply _..|done|].
  apply (outline_bind meals_ok meal_moves meal_moves _ _ _ _ _ (release_promises _ _ _)); [|done].
  intros [saved|]; [apply reverse_then|].
  apply (outline_step meals_ok meal_moves meal_moves _ _ (λ a t, match a with
    | Some b => was t s b ∧ (status b = Cancelled → given_back t s b) | None => True end));
    [done|apply (tx_moves_gets meals_ok meal_moves meal_moves)|intros t a t' Hok _; apply Hread, Hok|done|].
  intros again. apply outline_lift; [apply _..| |done]. intros found ->%ok_or_ok.
  apply outline_lift; [apply _..| |done]. unfold refundable_after_lost_flip. intros ours Hours.
  case_bool_decide as Hf; [done|]. injection Hours as <-.
  destruct (status found) eqn:Hst; [done|].
  destruct (_ =? _).
  - eapply (outline_weaken meals_ok meal_moves meal_moves); [..|apply reverse_then]; [naive_solver|done].
  - apply (outline_ret meals_ok meal_moves meal_moves). naive_solver.
Qed.

(** ** Paying in *)

Definition request_ok (rk : option str) : Prop :=
  match rk with Some r => validate_request_key r = Ok () | None => True end.

(** What [credit] answers is on the ledger, for that amount if it was keyed. *)
Definition credited (u : uuid) (amount : Z) (rk : option str) (r : result AppError MealLedger) t : Prop :=
  match r, rk with
  | Ok l, Some key => ledger t !! for_request u key = Some l ∧ amount_minor l = amount
  | Ok l, None => ∃ i, ledger t !! i = Some l
  | Err _, _ => True
  end.

Lemma credit_as i u amount me nt by_ (rk : option str) :
  (∀ s n k, i ≠ for_attempt s n k) → from_option (λ key, i = for_request u key) True rk →
  promises (λ _, True)
    (t_now ← now; line ← append (MkLine i u Credit amount None me nt by_ t_now);
     if bool_decide (is_Some rk) && negb (bool_decide (amount_minor line = amount))
     then raise (Conflict "this request_key was already used for a different amount")
     else mret line)
    (credited u amount rk).
Proof.
  intros Hi Hrk. apply outline_now; [apply _..|]. intros t_now. set (l := MkLine _ _ _ _ _ _ _ _ _).
  assert (credit_line l) as Hl by done.
  apply (outline_bind meals_ok meal_moves meal_moves _ _ _ _ _ (append_credit l Hl)); [|done].
  intros line. destruct rk as [key|]; simpl in *.
  - case_bool_decide as Ha; simpl; apply (outline_done meals_ok meal_moves meal_moves); [|done].
    intros t _ Hline. split; [|done]. rewrite <- Hrk. by apply Hline.
  - apply (outline_ret meals_ok meal_moves meal_moves). intros t _ Hline. exists i. by apply Hline.
Qed.

Lemma credit_promises u amount me nt rk by_ :
  request_ok rk → promises (λ _, True) (credit u amount me nt rk by_) (credited u amount rk).
Proof.
  intros Hrk. unfold credit. destruct rk as [key|].
  - apply (credit_as (for_request u key) u amount me nt by_ (Some key)); [|done].
    intros s n k. by apply request_not_attempt, request_key_no_underscore.
  - apply (outline_bind meals_ok meal_moves meal_moves _ _ _
      (λ r _, match r with Ok i => ∃ x, i = uuid_text x | Err _ => True end)).
    + apply outline_fresh; [apply _..|]. intros x. apply (outline_ret meals_ok meal_moves meal_moves). eauto.
    + intros i w Hw HI [x ->]. refine (credit_as _ u amount me nt by_ None _ I w Hw HI I).
      intros s n k. apply minted_not_attempt.
    + done.
Qed.

End Books.

(** ** The requests *)

Inductive MealCall :=
  | CreateMenu (date_ slot_ : str) (capacity_ : option Z) (by_ : uuid)
  | UpdateMenu (m : str) (capacity_ : option (option Z))
  | DeleteMenu (m : str) (row : Menu)
  | AddDish (m name_ : str) (description_ : option str) (price_ : Z) (tags_ : list str)
  | UpdateDish (i : uuid) (dish : MenuDish) (name_ : option str) (description_ : option (option str))
      (price_ : option Z) (tags_ : option (list str))
  | DeleteDish (i : uuid) (dish : MenuDish)
  | MarkMeal (m : str) (u : uuid) (status_ : str) (by_ : uuid)
  | Credit_ (u : uuid) (amount : Z) (method_ note_ request_key : option str) (by_ : uuid)
  | Book (m : str) (u by_ : uuid) (cutoff : MealCutoff)
  | Cancel (s : Seat) (cutoff : MealCutoff) (by_ : uuid).

(** A request key has passed its validator. *)
Definition call_ok (c : MealCall) : Prop :=
  match c with Credit_ _ _ _ _ rk _ => request_ok rk | _ => True end.

Section Serve.
Context `{UuidText, Calendar}.

Definition ignore {A} (m : io Tables A) : io Tables () := _ ← m; mret ().

Definition serve (c : MealCall) : io Tables () :=
  match c with
  | CreateMenu d sl cp by_ => ignore (create_menu d sl cp by_)
  | UpdateMenu m cp => ignore (update_menu m cp)
  | DeleteMenu m row => ignore (delete_menu m row)
  | AddDish m n d p g => ignore (add_dish m n d p g)
  | UpdateDish i dish n d p g => ignore (update_dish i dish n d p g)
  | DeleteDish i dish => ignore (delete_dish i dish)
  | MarkMeal m u st by_ => ignore (mark m u st by_)
  | Credit_ u a me nt rk by_ => ignore (credit u a me nt rk by_)
  | Book m u by_ cutoff => ignore (book m u by_ cutoff)
  | Cancel s cutoff by_ => ignore (cancel s cutoff by_)
  end.

Abbreviation promises := (outline meals_ok meal_moves meal_moves).

Lemma ignore_promises {A} (m : io Tables A) Q :
  promises (λ _, True) m Q → promises (λ _, True) (ignore m) anything.
Proof.
  intros Hm. apply (outline_bind meals_ok meal_moves meal_moves _ _ _ anything);
    [|intros a; by apply (outline_ret meals_ok meal_moves meal_moves)|done].
  by eapply (outline_weaken meals_ok meal_moves meal_moves); [..|exact Hm].
Qed.

Lemma one_statement {A} (m : tx Tables A) :
  tx_moves meals_ok meal_moves m → promises (λ _, True) (atomic m) anything.
Proof. intros Hm. by apply outline_atomic; [apply _..| | | |]. Qed.

Lemma statement_then {A B} (m : tx Tables A) (k : A → io Tables B) :
  tx_moves meals_ok meal_moves m → (∀ a, promises (λ _, True) (k a) anything) →
  promises (λ _, True) (atomic m ≫= k) anything.
Proof.
  intros Hm Hk.
  by apply (outline_step meals_ok meal_moves meal_moves _ _ (λ _ _, True)).
Qed.

(** C2. Whatever the others commit between its statements, as long as they keep the
    books too, a request of the meal program keeps them: no menu holds more seats
    than it counts, a seat held is billed once and a seat given back is refunded
    in full; and no ledger line is ever changed. *)
Theorem meals_keep_books c :
  call_ok c → promises (λ _, True) (serve c) anything.
Proof.
  intros Hc. destruct c; simpl in *; eapply ignore_promises.
  - apply outline_now; [apply _..|]. intros. apply one_statement, create_menu_moves.
  - unfold update_menu. destruct capacity_; apply statement_then;
      [apply update_menu_moves| |apply (tx_moves_gets meals_ok meal_moves meal_moves)|];
      intros; by apply (outline_done meals_ok meal_moves meal_moves).
  - apply statement_then; [apply delete_menu_moves|]. intros [r|];
      [by apply (outline_ret meals_ok meal_moves meal_moves)|].
    apply statement_then; [apply (tx_moves_gets meals_ok meal_moves meal_moves)|].
    intros [r|]; by apply (outline_raise meals_ok meal_moves meal_moves).
  - apply outline_fresh; [apply _..|]. intros x. apply outline_now; [apply _..|]. intros t_now.
    apply one_statement, create_dish_moves.
  - apply one_statement, update_dish_moves.
  - apply one_statement, delete_dish_moves.
  - apply outline_now; [apply _..|]. intros. apply one_statement, mark_moves.
  - by apply credit_promises.
  - apply book_promises.
  - apply cancel_promises.
Qed.

(** A booking answered is, at its last statement, held and billed exactly once:
    one charge for the price frozen on the row, no reversal; and the menu counts
    at least the seats held on it. *)
Theorem booked_seat_is_billed m u by_ cutoff :
  promises (λ _, True) (book m u by_ cutoff) (λ r t, ∀ s b, r = Ok (s, b) →
    s = (m, u) ∧ bookings t !! (m, u) = Some b ∧ status b = Booked ∧ stands t (m, u) b ∧
    ∃ row, menus t !! m = Some row ∧ count (held_on m) (bookings t) ≤ seats_booked row).
Proof.
  intros w Hw HI _. pose proof (book_promises m u by_ cutoff w Hw HI I) as Hb.
  destruct (book m u by_ cutoff w) as [r w']. destruct Hb as (HI' & HT & Henv & Ha).
  split_and!; [done..|]. intros s b ->. simpl in Ha. destruct Ha as (-> & Hb & Hs).
  split_and!; [done..|by apply (mo_stands _ HI')|].
  destruct (mo_menu _ HI' _ _ Hb Hs) as [row Hrow]. exists row. split; [done|]. by apply HI'.
Qed.

(** A cancellation answered is refunded: the attempt it answers is held no more,
    and either was free and never billed or has its charge and the reversal for
    the same amount. *)
Theorem cancelled_seat_is_refunded s cutoff by_ :
  promises (λ _, True) (cancel s cutoff by_) (λ r t, ∀ b, r = Ok b →
    status b = Cancelled ∧ ¬ held_at t s (attempt b) ∧ settled t s (attempt b)).
Proof.
  intros w Hw HI _. pose proof (cancel_promises s cutoff by_ w Hw HI I) as Hc.
  destruct (cancel s cutoff by_ w) as [r w']. destruct Hc as (HI' & HT & Henv & Ha).
  split_and!; [done..|]. intros b ->. simpl in Ha. pose proof (refunded _ _ _ HI' Ha) as Hs.
  destruct Ha as [(b' & Hb' & Hle & Hm) Hc]. split_and!; [done| |done].
  intros (b2 & Hb2 & Hbk & Hat). rewrite Hb' in Hb2. injection Hb2 as <-. destruct Hm as [_ Hm]; [done|].
  rewrite (Hm Hc) in Hbk. done.
Qed.

(** A credit sent with a request key is written once, whatever is retried or
    raced: what is answered is the ledger's own line for that key, for that
    amount, and everything that was on the ledger is still there. *)
Theorem keyed_credit_once u amount me nt key by_ :
  validate_request_key key = Ok () →
  promises (λ _, True) (credit u amount me nt (Some key) by_) (λ r t, ∀ l, r = Ok l →
    ledger t !! for_request u key = Some l ∧ amount_minor l = amount).
Proof.
  intros Hk w Hw HI _. pose proof (credit_promises u amount me nt (Some key) by_ Hk w Hw HI I) as Hc.
  destruct (credit u amount me nt (Some key) by_ w) as [r w']. destruct Hc as (HI' & HT & Henv & Ha).
  split_and!; [done..|]. by intros l ->.
Qed.
End Serve.
