(* ===== verification/MealBalance.v ===== *)
(** * What a student's meal balance is

    Over [meals_ok]: reversed charges cancel out, and what is left of the ledger
    is the money paid in less the prices frozen on the seats held now. *)

From S2P Require Import Prelude Text Errors Effects Uuid Validate Ledger Meals MealProofs.

Open Scope Z_scope.

Section Balance.
Context `{UuidText, Calendar}.
Implicit Types (t : Tables) (s : Seat) (b : MealBooking) (l : MealLedger) (u : uuid)
  (ls : gmap str MealLedger) (bs : gmap Seat MealBooking).

(** What one line adds to [u]'s balance, and what one row takes from it. *)
Definition signed u (_ : str) l : Z := if decide (student l = u) then sign (kind l) * amount_minor l else 0.
Definition paid u (_ : str) l : Z :=
  if decide (student l = u ∧ kind l = Credit) then amount_minor l else 0.
Definition owed u s b : Z :=
  if decide (s.2 = u ∧ status b = Booked) then default 0 (price_minor b) else 0.

Definition charge_in ls s n := ls !! for_attempt s n Charge.
Definition reversal_in ls s n := ls !! for_attempt s n Reversal.

Definition paired ls s n : Prop :=
  ∃ c r a, charge_in ls s n = Some c ∧ reversal_in ls s n = Some r
    ∧ line_of s Charge a c ∧ line_of s Reversal a r.

(** Every line that is no credit is half of a pair, or bills a seat held now;
    and every seat held now is billed. *)
Record accounted ls bs : Prop := {
  ac_lines : ∀ i l, ls !! i = Some l → kind l ≠ Credit → ∃ s n, uuid_ok s.2 ∧ i = for_attempt s n (kind l) ∧
    (paired ls s n ∨ ∃ b, bs !! s = Some b ∧ status b = Booked ∧ attempt b = n ∧ is_Some (price_minor b)
      ∧ kind l = Charge);
  ac_seats : ∀ s b a, bs !! s = Some b → status b = Booked → price_minor b = Some a →
    uuid_ok s.2 ∧ reversal_in ls s (attempt b) = None
    ∧ ∃ c, charge_in ls s (attempt b) = Some c ∧ line_of s Charge a c;
}.

Lemma books_accounted t : meals_ok t → accounted (ledger t) (bookings t).
Proof.
  intros Hok. split.
  - intros i l Hl Hk. destruct (mo_lines t Hok i l Hl Hk) as (s & n & Hu & Hi). exists s, n.
    split; [done|]. split; [done|].
    destruct (bookings t !! s) as [b|] eqn:Hb; [destruct (decide (status b = Booked ∧ attempt b = n)) as [[Hs Ha]|Hno]|].
    + right. exists b. destruct (mo_stands t Hok s b Hb Hs) as [Hr Hc].
      destruct (kind l) eqn:Ek; [|done|].
      * split_and!; try done. destruct (price_minor b); [by eexists|]. rewrite Ha in Hc. subst i.
        unfold charge_at in Hc. congruence.
      * subst. unfold reversal_at in Hr. congruence.
    + left. destruct (mo_settled t Hok s n Hu) as [[Hc Hr]|?]; [|subst i|done].
      { intros (b' & Hb' & Hs' & Ha'). naive_solver. }
      unfold charge_at, reversal_at in *. destruct (kind l); congruence.
    + left. destruct (mo_settled t Hok s n Hu) as [[Hc Hr]|?]; [|subst i|done].
      { intros (b' & Hb' & _). congruence. }
      unfold charge_at, reversal_at in *. destruct (kind l); congruence.
  - intros s b a Hb Hs Ha. destruct (mo_stands t Hok s b Hb Hs) as [Hr Hc]. rewrite Ha in Hc.
    split; [|done]. by eapply (mo_users t Hok), (mo_rows t Hok).
Qed.

(** Deleting the lines of one attempt leaves the others' where they were. *)
Lemma lines_apart s n s' n' k k' ls :
  uuid_ok s.2 → uuid_ok s'.2 → (s, n) ≠ (s', n') →
  delete (for_attempt s n k) ls !! for_attempt s' n' k' = ls !! for_attempt s' n' k'.
Proof. intros Hu Hu' Hne. apply lookup_delete_ne. intros (-> & -> & _)%for_attempt_inj; done. Qed.

Lemma pairs_sum_zero u ls :
  accounted ls ∅ → total (signed u) ls = total (paid u) ls.
Proof.
  remember (size ls) as n eqn:Hn. revert ls Hn. induction n as [n IH] using lt_wf_ind. intros ls -> [Hl _].
  destruct (decide (filter (λ p : str * MealLedger, kind p.2 ≠ Credit) ls = ∅)) as [Hno|Hsome].
  - apply total_ext. intros i l Hi. unfold signed, paid.
    destruct (decide (kind l = Credit)) as [Hk|Hk].
    + rewrite Hk. simpl. repeat case_decide; naive_solver lia.
    + exfalso. assert (filter (λ p : str * MealLedger, kind p.2 ≠ Credit) ls !! i = Some l) as Hf
        by by apply map_lookup_filter_Some.
      by rewrite Hno, lookup_empty in Hf.
  - apply map_choose in Hsome as (i & l & [Hi Hk]%map_lookup_filter_Some). simpl in Hk.
    destruct (Hl i l Hi Hk) as (s & m & Hu & -> & [(c & r & a & Hc & Hr & Lc & Lr)|(b & Hb & _)]);
      [|by rewrite lookup_empty in Hb].
    set (ls' := delete (for_attempt s m Reversal) (delete (for_attempt s m Charge) ls)).
    assert (delete (for_attempt s m Charge) ls !! for_attempt s m Reversal = Some r) as Hr'.
    { rewrite lookup_delete_ne; [done|]. by intros (_ & _ & E)%for_attempt_inj. }
    assert (∀ f, total f ls = f (for_attempt s m Charge) c + f (for_attempt s m Reversal) r + total f ls') as Hsum.
    { intros f. rewrite (total_delete f ls _ c) by done. unfold ls'.
      rewrite (total_delete f (delete _ ls) _ r) by done. lia. }
    rewrite !Hsum. assert (total (signed u) ls' = total (paid u) ls') as ->.
    { apply (IH (size ls')); [|done|].
      - unfold ls'. rewrite !map_size_delete, Hr'. unfold charge_in in Hc. rewrite Hc. simpl.
        assert (size ls ≠ 0%nat); [|lia]. intros Hz%map_size_empty_inv. by rewrite Hz, lookup_empty in Hc.
      - split; [|by intros s' b a' Hb; rewrite lookup_empty in Hb].
        intros i' l' [Hne1 [Hne2 Hi']%lookup_delete_Some]%lookup_delete_Some Hk'.
        destruct (Hl i' l' Hi' Hk') as (s' & m' & Hu' & -> & [Hp|(b & Hb & _)]); [|by rewrite lookup_empty in Hb].
        exists s', m'. split; [done|]. split; [done|]. left.
        assert ((s, m) ≠ (s', m')) as Hne.
        { intros [= <- <-]. destruct (kind l'); done. }
        unfold paired, charge_in, reversal_in, ls'. by rewrite !lines_apart. }
    destruct Lc as (Kc & Sc & Ac), Lr as (Kr & Sr & Ar).
    unfold signed, paid. rewrite Kc, Kr, Sc, Sr, Ac, Ar. simpl. repeat case_decide; naive_solver lia.
Qed.
Lemma seats_sum u ls bs :
  accounted ls bs → total (signed u) ls = total (paid u) ls - total (owed u) bs.
Proof.
  revert ls. induction bs as [|s b bs Hfresh IH] using map_ind; intros ls Hac.
  { rewrite total_empty, Z.sub_0_r. by apply pairs_sum_zero. }
  rewrite total_insert_fresh by done.
  destruct (decide (status b = Booked ∧ is_Some (price_minor b))) as [[Hs [a Ha]]|Hno].
  - destruct (ac_seats _ _ Hac s b a) as (Hu & Hr & c & Hc & Lc); [apply lookup_insert_eq|done..|].
    set (ls' := delete (for_attempt s (attempt b) Charge) ls).
    rewrite (total_delete (signed u) ls _ c), (total_delete (paid u) ls _ c) by done.
    assert (accounted ls' bs) as Hac'.
    { split.
      - intros i l [Hne Hi]%lookup_delete_Some Hk.
        destruct (ac_lines _ _ Hac i l Hi Hk) as (s' & n & Hu' & -> & Hor). exists s', n.
        split; [done|]. split; [done|].
        assert ((s, attempt b) ≠ (s', n)) as Hapart.
        { intros [= <- <-]. unfold reversal_in in Hr. destruct (kind l); [done..|congruence]. }
        destruct Hor as [Hp|(b' & Hb' & Hrest)].
        + left. unfold paired, charge_in, reversal_in, ls'. by rewrite !lines_apart.
        + right. exists b'. split; [|done]. destruct (decide (s = s')) as [->|Hs'];
            [|by rewrite lookup_insert_ne in Hb'].
          rewrite lookup_insert_eq in Hb'. naive_solver.
      - intros s' b' a' Hb' Hs' Ha'. assert (s ≠ s') as Hne by (intros ->; congruence).
        destruct (ac_seats _ _ Hac s' b' a') as (Hu' & Hr' & c' & Hc' & Lc');
          [by rewrite lookup_insert_ne|done..|].
        split; [done|]. unfold charge_in, reversal_in, ls'.
        rewrite !lines_apart by (done || congruence). split; [done|]. by exists c'. }
    fold ls'. rewrite (IH ls' Hac'). destruct Lc as (Kc & Sc & Ac).
    unfold signed at 1, paid at 2, owed at 2. rewrite Kc, Sc, Ac, Hs, Ha. simpl.
    repeat case_decide; naive_solver lia.
  - rewrite (IH ls).
    + unfold owed at 2. case_decide as Ho; [|lia]. destruct (price_minor b) eqn:Hp; [|simpl; lia].
      exfalso. apply Hno. split; [by apply Ho|by eexists].
    + split.
      * intros i l Hi Hk. destruct (ac_lines _ _ Hac i l Hi Hk) as (s' & n & Hu' & -> & Hor). exists s', n.
        split; [done|]. split; [done|]. destruct Hor as [Hp|(b' & Hb' & Hrest)]; [by left|right].
        exists b'. split; [|done]. destruct (decide (s = s')) as [->|Hs'];
          [|by rewrite lookup_insert_ne in Hb'].
        rewrite lookup_insert_eq in Hb'. naive_solver.
      * intros s' b' a' Hb'. assert (s ≠ s') as Hne by (intros ->; congruence).
        apply (ac_seats _ _ Hac). by rewrite lookup_insert_ne.
Qed.

(** ** The query *)

Definition of_kind u (k : MealLedgerKind) (_ : str) l : Z :=
  if decide (student l = u ∧ kind l = k) then amount_minor l else 0.

Lemma kind_sum t u k :
  sumZ (amount_minor <$> filter (λ l, kind l = k) (lines_of t u)) = total (of_kind u k) (ledger t).
Proof.
  unfold lines_of, total. generalize (map_to_list (ledger t)) as ps.
  induction ps as [|[i l] ps IH]; [done|]. cbn [fmap list_fmap]. rewrite sumZ_cons, <- IH.
  rewrite (filter_cons _ l). unfold of_kind at 1. simpl.
  destruct (decide (student l = u)) as [Hu|Hu].
  - rewrite filter_cons. repeat case_decide; try (exfalso; naive_solver); [|lia].
    cbn [fmap list_fmap]. by rewrite sumZ_cons.
  - case_decide as Hd; [by destruct Hd|]. lia.
Qed.

Lemma kinds_sum u ls :
  total (signed u) ls
  = total (of_kind u Credit) ls + total (of_kind u Reversal) ls - total (of_kind u Charge) ls.
Proof.
  induction ls as [|i l ls Hi IH] using map_ind; [by rewrite !total_empty|].
  rewrite !total_insert_fresh by done. rewrite IH.
  enough (signed u i l = of_kind u Credit i l + of_kind u Reversal i l - of_kind u Charge i l) by lia.
  unfold signed, of_kind. destruct (kind l); repeat case_decide; simpl; try lia; exfalso; naive_solver.
Qed.

Lemma i64_wrap_add_l x y : i64_wrap (i64_wrap x + y) = i64_wrap (x + y).
Proof.
  unfold i64_wrap. f_equal. replace (((x + 2 ^ 63) `mod` 2 ^ 64 - 2 ^ 63 + y + 2 ^ 63))
    with ((x + 2 ^ 63) `mod` 2 ^ 64 + y) by lia.
  rewrite Zplus_mod_idemp_l. f_equal. lia.
Qed.

Lemma i64_wrap_add_r x y : i64_wrap (x + i64_wrap y) = i64_wrap (x + y).
Proof. rewrite Z.add_comm, i64_wrap_add_l. f_equal. lia. Qed.

Lemma fold_wraps (rows : list (MealLedgerKind * Z)) x :
  foldl (λ sum row, i64_wrap (sum + i64_wrap (sign row.1 * row.2))) (i64_wrap x) rows
  = i64_wrap (x + sumZ ((λ row, sign row.1 * row.2) <$> rows)).
Proof.
  revert x. induction rows as [|[k a] rows IH]; intros x; [simpl; by rewrite Z.add_0_r|].
  cbn [foldl fmap list_fmap]. rewrite sumZ_cons, i64_wrap_add_r, i64_wrap_add_l, IH. f_equal. lia.
Qed.

Lemma totals_sum (ls : list MealLedger) :
  sumZ ((λ row, sign row.1 * row.2) <$> totals ls)
  = sumZ ((λ k, sign k * sumZ (amount_minor <$> filter (λ l, kind l = k) ls)) <$> [Charge; Credit; Reversal]).
Proof.
  unfold totals. generalize [Charge; Credit; Reversal] as ks. induction ks as [|k ks IH]; [done|].
  rewrite filter_cons. case_decide as Hk; cbn [fmap list_fmap]; rewrite ?sumZ_cons, IH; [done|].
  rewrite Hk. change (amount_minor <$> []) with (@nil Z).
  change (sumZ []) with 0. lia.
Qed.

(** A balance the query can answer is the money paid in less the price of every
    seat held now, in the [i64] it is returned in; charges given back do not
    count. It is refused only when the total of one kind is no [bigint]. *)
Theorem balance_is_paid_less_held t u :
  meals_ok t →
  match balance_of u t with
  | Ok (v, t') => t' = t ∧ v = i64_wrap (total (paid u) (ledger t) - total (owed u) (bookings t))
  | Err _ => ∃ k, ¬ in_i64 (total (of_kind u k) (ledger t))
  end.
Proof.
  intros Hok. unfold balance_of. destruct (forallb _ _) eqn:E.
  - split; [done|]. change 0 with (i64_wrap 0) at 1. rewrite fold_wraps, totals_sum. f_equal.
    cbn [fmap list_fmap]. rewrite !sumZ_cons, !kind_sum. change (sumZ []) with 0.
    rewrite <- (seats_sum u _ _ (books_accounted t Hok)), kinds_sum. cbn [sign]. lia.
  - apply not_true_iff_false in E. rewrite forallb_forall in E.
    assert (Exists (λ row : MealLedgerKind * Z, ¬ in_i64 row.2) (totals (lines_of t u))) as Hex.
    { apply not_Forall_Exists; [apply _|]. intros Hall. apply E. intros row Hrow.
      apply bool_decide_eq_true. rewrite Forall_forall in Hall. by apply Hall, list_elem_of_In. }
    apply Exists_exists in Hex as ([k a] & Hin & Hbig). simpl in Hbig.
    apply list_elem_of_fmap in Hin as (k' & [= -> ->] & _). exists k'. by rewrite kind_sum in Hbig.
Qed.
End Balance.
