(* ===== verification/MealPrices.v ===== *)
(** * The price a seat is taken at

    Every write to a menu's dishes or capacity moves its revision on, and a seat
    is taken only at the revision its price was read at: so, as long as the menu
    is not unpublished meanwhile, the price frozen on a seat is the sum of the
    dishes the menu carries at that instant, and the seat is within its
    capacity. *)

From S2P Require Import Prelude Text Errors Effects Uuid Validate Ledger Meals MealProofs MealBooks.

Open Scope Z_scope.

(** ** Revisions *)

(** What may become of menu [m]: its revision only grows, and at the same
    revision it is the same menu. *)
Definition revised (m : str) (t t' : Tables) : Prop :=
  ∀ row, menus t !! m = Some row → ∃ row', menus t' !! m = Some row' ∧
    get_version row ≤ get_version row' ∧
    (get_version row' = get_version row → capacity row' = capacity row ∧ menu_total t' m = menu_total t m).

#[export] Instance revised_preorder m : PreOrder (revised m).
Proof.
  split.
  - intros t row Hrow. exists row. by split_and!.
  - intros t1 t2 t3 H12 H23 row Hrow. destruct (H12 row Hrow) as (r2 & Hr2 & Hle2 & Hs2).
    destruct (H23 r2 Hr2) as (r3 & Hr3 & Hle3 & Hs3). exists r3. split; [done|]. split; [lia|].
    intros Heq. destruct Hs2 as [? ?]; [lia|]. destruct Hs3 as [? ?]; [lia|]. split; congruence.
Qed.

Section Steps.
Context `{UuidText, Calendar}.

(** The transactions of the meal program, but for unpublishing. *)
Inductive meal_step (t t' : Tables) : Prop :=
  | Published d sl c by_ n a : create_menu_tx d sl c by_ n t = Ok (a, t') → meal_step t t'
  | Resized i c : t' = set_menus (alter (with_capacity c ∘ bump) i) t → meal_step t t'
  | DishAdded m n d p g cap u now_ a : create_dish_tx m n d p g cap u now_ t = Ok (a, t') → meal_step t t'
  | DishChanged i dish n d p g a : d_menu <$> dishes t !! i = Some (d_menu dish) →
      update_dish_tx i (d_menu dish) n d p g t = Ok (a, t') → meal_step t t'
  | DishDeleted i dish a : d_menu <$> dishes t !! i = Some (d_menu dish) →
      delete_dish_tx i (d_menu dish) t = Ok (a, t') → meal_step t t'
  | Marked m u st by_ n a : mark_tx m u st by_ n t = Ok (a, t') → meal_step t t'
  | Claimed_ s cap seen r l c : status r = Booked → claim_tx s cap seen r l t = Ok (c, t') → meal_step t t'
  | Released s b by_ n n' o : release_seat_tx s b by_ n n' t = Ok (o, t') → meal_step t t'
  | Written l o : insert_line l t = Ok (o, t') → meal_step t t'.

(** Rows kept, dishes kept. *)
Lemma revised_same m t t' :
  dishes t' = dishes t →
  (∀ row, menus t !! m = Some row → ∃ row', menus t' !! m = Some row' ∧
    get_version row ≤ get_version row' ∧ (get_version row' = get_version row → capacity row' = capacity row)) →
  revised m t t'.
Proof.
  intros Hd Hm row Hrow. destruct (Hm row Hrow) as (row' & Hr & Hle & Hc). exists row'.
  split_and!; [done..|]. intros Heq. split; [auto|]. unfold menu_total, dishes_of. by rewrite Hd.
Qed.

Lemma revised_rows m t t' :
  dishes t' = dishes t → menus t' = menus t → revised m t t'.
Proof. intros Hd Hm. apply revised_same; [done|]. intros row Hrow. rewrite Hm. by exists row. Qed.

Lemma alter_revised m i f t :
  (∀ row, get_version row ≤ get_version (f row) ∧
    (get_version (f row) = get_version row → capacity (f row) = capacity row)) →
  revised m t (set_menus (alter f i) t).
Proof.
  intros Hf. apply revised_same; [done|]. intros row Hrow. simpl.
  destruct (decide (i = m)) as [->|Hne].
  - exists (f row). rewrite lookup_alter_eq, Hrow. split_and!; [done|apply Hf..].
  - exists row. rewrite lookup_alter_ne by done. by split_and!.
Qed.

(** A bumped menu has moved on; any other keeps its dishes. *)
Lemma bumped_revised {A} m i (k : () → tx Tables A) t a t' :
  (bump_menu i ≫= k) t = Ok (a, t') →
  (∀ t1, dishes t1 = dishes t → k () t1 = Ok (a, t') →
    menus t' = menus t1 ∧ (m ≠ i → dishes_of t' m ≡ₚ dishes_of t1 m)) →
  revised m t t'.
Proof.
  intros ([] & t1 & Hb & Hs)%tx_bind_ok Hk. unfold bump_menu in Hb. case_match eqn:Hi; [|done].
  injection Hb as <-. destruct (Hk (set_menus (alter bump i) t) eq_refl Hs) as [Hm Hd]. intros row Hrow. rewrite Hm. simpl.
  destruct (decide (i = m)) as [->|Hne].
  - exists (bump row). rewrite lookup_alter_eq, Hrow. split_and!; [done|..]; unfold bump, get_version; simpl; lia.
  - exists row. rewrite lookup_alter_ne by done. split_and!; [done..|]. intros _. split; [done|].
    unfold menu_total. by rewrite Hd.
Qed.

Lemma dishes_insert t m i d :
  dishes t !! i = None → d_menu d ≠ m → dishes_of (set_dishes <[i := d]> t) m ≡ₚ dishes_of t m.
Proof.
  intros Hi Hd. unfold dishes_of. simpl. rewrite map_to_list_insert by done. simpl.
  by rewrite filter_cons_False.
Qed.

Lemma dishes_delete t m i d :
  dishes t !! i = Some d → d_menu d ≠ m → dishes_of (set_dishes (delete i) t) m ≡ₚ dishes_of t m.
Proof.
  intros Hi Hd. unfold dishes_of. simpl. rewrite <- (map_to_list_delete (dishes t) i d) by done. simpl.
  by rewrite filter_cons_False.
Qed.

Lemma dishes_replace t m i d d' :
  dishes t !! i = Some d → d_menu d ≠ m → d_menu d' ≠ m →
  dishes_of (set_dishes <[i := d']> t) m ≡ₚ dishes_of t m.
Proof.
  intros Hi Hd Hd'. rewrite <- (dishes_delete t m i d) by done.
  rewrite <- (dishes_delete (set_dishes <[i := d']> t) m i d') by (done || apply lookup_insert_eq).
  unfold dishes_of. simpl. by rewrite delete_insert_eq.
Qed.

Lemma seats_revised m t t' i f :
  dishes t' = dishes t → menus t' = alter (with_seats f) i (menus t) → revised m t t'.
Proof.
  intros Hd Hm. apply revised_same; [done|]. intros row Hrow. rewrite Hm.
  destruct (decide (i = m)) as [->|Hne].
  - exists (with_seats f row). by rewrite lookup_alter_eq, Hrow.
  - exists row. by rewrite lookup_alter_ne.
Qed.

(** What a claim that commits did. *)
Lemma claim_frame s cap seen r l t c t' :
  status r = Booked → claim_tx s cap seen r l t = Ok (c, t') →
  (t' = t ∧ (c = Duplicate ∨ c = Full)) ∨
  ∃ row, menus t !! s.1 = Some row ∧ seats_booked row < cap ∧ get_version row = seen ∧
    menus t' = <[s.1 := with_seats (Z.add 1) row]> (menus t) ∧ dishes t' = dishes t ∧
    ((c = Duplicate ∧ bookings t' = bookings t)
     ∨ ∃ b, c = Made (s, b) ∧ price_minor b = price_minor r).
Proof.
  intros Hr. unfold claim_tx. destruct (menus t !! s.1) as [row|] eqn:Hrow;
    [|intros [= <- <-]; left; destruct (held t s); naive_solver].
  case_match eqn:E; [|intros [= <- <-]; left; destruct (held t s); naive_solver].
  apply andb_true_iff in E as [Hcap%Z.ltb_lt Hv%Z.eqb_eq]. intros Hend. right. exists row.
  do 3 (split; [done|]). destruct (place s r _) as [b|] eqn:Hp.
  - apply place_ok in Hp as (_ & _ & Hprice & _); [|done]. case_match; [done|].
    destruct l as [l|].
    + destruct (insert_line _ _) as [[o t2]|] eqn:Ei; [|done]. injection Hend as <- <-.
      apply insert_line_ok in Ei as [(_ & -> & _)|(_ & _ & ->)]; naive_solver.
    + injection Hend as <- <-. naive_solver.
  - injection Hend as <- <-. naive_solver.
Qed.

Lemma release_frame s b by_ n n' t o t' :
  release_seat_tx s b by_ n n' t = Ok (o, t') →
  t' = t ∨ (dishes t' = dishes t ∧
    menus t' = alter (with_seats (λ n, Z.max (n - 1) 0)) s.1 (menus t)).
Proof.
  unfold release_seat_tx. destruct (bookings t !! s) as [row|]; [|intros [= <- <-]; by left].
  case_match; [|intros [= <- <-]; by left].
  destruct (reversal_for s b by_ n') as [[c l]|]; [|intros [= <- <-]; by right].
  case_match; [|intros [= <- <-]; by right].
  destruct (insert_line _ _) as [[x t2]|] eqn:Ei; [|done]. intros [= <- <-]. right.
  by apply insert_line_ok in Ei as [(_ & -> & _)|(_ & _ & ->)].
Qed.

(** Every transaction but an unpublishing moves each menu's revision on when it
    changes the menu's dishes or capacity, and never back. *)
Theorem changes_move_the_revision m t t' : meal_step t t' → revised m t t'.
Proof.
  intros [d sl c by_ n a Hs|i c ->|m' n d p g cap u now_ a Hs|i dish n d p g a Hi Hs|i dish a Hi Hs
    |m' u st by_ n a Hs|s cap seen r l c Hr Hs|s b by_ n n' o Hs|l o Hs].
  - unfold create_menu_tx in Hs. repeat case_match; try done. injection Hs as <- <-.
    apply revised_same; [done|]. intros row Hrow. exists row. simpl. split_and!; [|done..].
    rewrite lookup_insert_ne; [done|]. intros E. subst. congruence.
  - apply alter_revised. intros row. unfold bump, get_version; simpl. lia.
  - eapply bumped_revised; [exact Hs|]. unfold sql. intros t1 Ht1 E. repeat case_match; try done.
    injection E as <- <-. split; [done|]. intros Hne. by apply dishes_insert.
  - eapply bumped_revised; [exact Hs|]. unfold sql. intros t1 Ht1 E.
    destruct (dishes t1 !! i) as [d0|] eqn:Hd0; [|done]. injection E as <- <-. split; [done|].
    rewrite <- Ht1, Hd0 in Hi. injection Hi as Hi. intros Hne.
    eapply dishes_replace; [exact Hd0|simpl; congruence..].
  - eapply bumped_revised; [exact Hs|]. unfold sql. intros t1 Ht1 E.
    destruct (dishes t1 !! i) as [d0|] eqn:Hd0; [|done]. injection E as <- <-. split; [done|].
    rewrite <- Ht1, Hd0 in Hi. injection Hi as Hi. intros Hne.
    eapply dishes_delete; [exact Hd0|congruence].
  - eapply bumped_revised; [exact Hs|]. unfold sql. intros t1 Ht1 E. case_match; [|done].
    by injection E as <- <-.
  - apply claim_frame in Hs as [[-> _]|(row & Hrow & _ & _ & Hm & Hd & _)]; [done| |done].
    apply (seats_revised m t t' s.1 (Z.add 1)); [done|]. by rewrite (alter_as_insert _ _ _ row).
  - apply release_frame in Hs as [->|[Hd Hm]]; [done|]. by eapply seats_revised.
  - apply insert_line_ok in Hs as [(_ & -> & _)|(_ & _ & ->)]; by apply revised_rows.
Qed.
End Steps.

(** ** Booking while the menu stays published *)

Section Pricing.
Context `{UuidText, Calendar} (m : str) (u : uuid).
Implicit Types (t : Tables) (row : Menu) (b : MealBooking).

Abbreviation seat := ((m, u) : Seat).

(** The others revise the menu but do not unpublish it, and leave this student's
    seat on it alone. *)
Definition leaves_seat t t' : Prop :=
  meal_moves t t' ∧ revised m t t' ∧ bookings t' !! seat = bookings t !! seat.

#[local] Instance leaves_total : subrelation leaves_seat meal_moves.
Proof. by intros t t' [? _]. Qed.

Abbreviation prices := (outline meals_ok leaves_seat meal_moves).

Definition price_of t : option Z := if menu_total t m =? 0 then None else Some (menu_total t m).

Definition free_seat t : Prop := ∀ b, bookings t !! seat = Some b → status b = Cancelled.

(** A menu read some steps ago: if its revision has not moved, it is the same. *)
Definition seen_menu (row : Menu) t : Prop :=
  ∃ row', menus t !! m = Some row' ∧ get_version row ≤ get_version row' ∧
    (get_version row' = get_version row → capacity row' = capacity row).
Definition seen_price (row : Menu) (p : option Z) t : Prop :=
  ∃ row', menus t !! m = Some row' ∧ get_version row ≤ get_version row' ∧
    (get_version row' = get_version row → capacity row' = capacity row ∧ p = price_of t).

Lemma free_steady : steady meals_ok leaves_seat free_seat.
Proof. intros t t' _ _ (_ & _ & E) Hf b. rewrite E. apply Hf. Qed.

Lemma seen_menu_steady row : steady meals_ok leaves_seat (seen_menu row).
Proof.
  intros t t' _ _ (_ & Hr & _) (r1 & H1 & Hle & Hc). destruct (Hr r1 H1) as (r2 & H2 & Hle2 & Hc2).
  exists r2. split; [done|]. split; [lia|]. intros Heq.
  destruct Hc2 as [-> _]; [lia|]. apply Hc. lia.
Qed.

Lemma seen_price_steady row p : steady meals_ok leaves_seat (seen_price row p).
Proof.
  intros t t' _ _ (_ & Hr & _) (r1 & H1 & Hle & Hc). destruct (Hr r1 H1) as (r2 & H2 & Hle2 & Hc2).
  exists r2. split; [done|]. split; [lia|]. intros Heq.
  destruct Hc2 as [-> Ht]; [lia|]. unfold price_of. rewrite Ht. apply Hc. lia.
Qed.

(** The seat as the claim leaves it. *)
Definition fairly_sold t b : Prop :=
  ∃ row, menus t !! m = Some row ∧ price_minor b = price_of t ∧
    seats_booked row ≤ default UNLIMITED (capacity row).

Lemma price_snapshot_ok t p t' : price_snapshot m t = Ok (p, t') → t' = t ∧ p = price_of t.
Proof.
  unfold price_snapshot, price_of. case_match; [done|]. case_match; [by intros [= <- <-]|].
  destruct (ledger_amount_try_new _) as [a|e] eqn:E; [|done]. intros [= <- <-].
  by apply ledger_amount_ok in E as [-> _].
Qed.

Lemma claim_fair row r by_ t_line t c t' p :
  status r = Booked → price_minor r = p → seen_price row p t →
  claim_tx seat (default UNLIMITED (capacity row)) (get_version row) r (charge_for seat r by_ t_line) t = Ok (c, t') →
  match c with Made (_, b) => fairly_sold t' b | _ => free_seat t → free_seat t' end.
Proof.
  intros Hr Hp (row' & Hrow & Hle & Hsame) E.
  apply claim_frame in E as [[-> [-> | ->]]|(r1 & Hr1 & Hcap & Hv & Hm & Hd & Hc)]; [done..| |done].
  simpl in Hr1. rewrite Hrow in Hr1. injection Hr1 as <-. destruct (Hsame Hv) as [Hcapacity Hprice].
  destruct Hc as [[-> Hb]|(b & -> & Hb)].
  - intros Hf b. rewrite Hb. apply Hf.
  - exists (with_seats (Z.add 1) row'). rewrite Hm, lookup_insert_eq. split; [done|]. split.
    + rewrite Hb, Hp, Hprice. unfold price_of, menu_total, dishes_of. by rewrite Hd.
    + simpl. rewrite Hcapacity. lia.
Qed.

Lemma claim_prices row r by_ t_line :
  status r = Booked → 1 ≤ attempt r < i64_max →
  prices (λ t, free_seat t ∧ seen_price row (price_minor r) t)
    (claim_and_place seat (default UNLIMITED (capacity row)) (get_version row) r (charge_for seat r by_ t_line))
    (λ c t, match c with Ok (Made (_, b)) => fairly_sold t b | Ok _ => free_seat t | Err _ => True end).
Proof.
  intros Hr Ha. unfold claim_and_place.
  apply (outline_step meals_ok leaves_seat meal_moves _ _
    (λ _ t, free_seat t ∧ seen_price row (price_minor r) t)).
  - apply (steady_and meals_ok leaves_seat meal_moves); [apply free_steady|apply seen_price_steady].
  - apply (tx_moves_gets meals_ok leaves_seat meal_moves).
  - by intros t a t' _ ? [= <- <-].
  - done.
  - intros [|]; [by apply (outline_ret meals_ok leaves_seat meal_moves); intros t _ []|].
    apply outline_atomic; [apply _..| |by apply claim_moves| |done].
    + apply (steady_and meals_ok leaves_seat meal_moves); [apply free_steady|apply seen_price_steady].
    + intros t c t' _ [Hf Hs] E. eapply claim_fair in E; [|done..]. destruct c as [[s b]| |]; auto.
Qed.

(** A round that finds the seat free answers a seat fairly sold. *)
Definition round_fair (r : result AppError (option (Seat * MealBooking))) t : Prop :=
  match r with
  | Ok (Some (_, b)) => fairly_sold t b
  | Ok None => free_seat t
  | Err _ => True
  end.

Lemma free_and P : steady meals_ok leaves_seat P → steady meals_ok leaves_seat (λ t, free_seat t ∧ P t).
Proof. intros HP. by apply (steady_and meals_ok leaves_seat meal_moves); [apply free_steady|]. Qed.

Lemma round_prices by_ cutoff : prices free_seat (book_round m u by_ cutoff) round_fair.
Proof.
  unfold book_round.
  apply (outline_step meals_ok leaves_seat meal_moves _ _
    (λ orow t, free_seat t ∧ from_option seen_menu (λ _, True) orow t)); [apply free_steady| | |done|].
  { apply (tx_moves_gets meals_ok leaves_seat meal_moves). }
  { intros t row t' _ Hf [= <- <-]. split; [done|]. destruct (menus t !! m) as [row|] eqn:E; [|done].
    exists row. by split_and!. }
  intros orow. apply outline_lift; [apply _..| |done]. intros row ->%ok_or_ok. simpl.
  apply day_then; [apply _..|done|]. apply cutoff_then; [apply _..|done|].
  apply (outline_step meals_ok leaves_seat meal_moves _ _ (λ existing t, (free_seat t ∧ seen_menu row t) ∧
    ∀ b, existing = Some b → status b = Cancelled ∧ 1 ≤ attempt b < i64_max));
    [by apply free_and, seen_menu_steady|apply (tx_moves_gets meals_ok leaves_seat meal_moves)| |done|].
  { intros t a t' Hok Hf [= <- <-]. split; [done|]. intros b Hb. split; [by apply Hf|]. by eapply mo_rows. }
  intros existing. apply outline_pure; [apply _..|]. intros Hex.
  assert (live existing = None) as ->.
  { destruct existing as [b|]; [|done]. unfold live. simpl. destruct (Hex b) as [-> _]; done. }
  set (n := match existing with Some prior => _ | None => 1 end).
  destruct (MAX_MEAL_BOOKING_ATTEMPTS <? n) eqn:Hcap;
    [by apply (outline_raise meals_ok leaves_seat meal_moves)|]. apply Z.ltb_ge in Hcap.
  assert (1 ≤ n < i64_max) as Hn.
  { destruct existing as [b|]; [|done]. destruct (Hex b) as [_ Hb]; [done|]. apply next_attempt; lia. }
  apply (outline_step meals_ok leaves_seat meal_moves _ _ (λ p t, free_seat t ∧ seen_price row p t));
    [apply free_and, seen_menu_steady|apply price_moves| |done|].
  { intros t p t' _ [Hf Hs] [-> ->]%price_snapshot_ok. split; [done|].
    destruct Hs as (r & Hr & Hle & Hc). exists r. by repeat (split; auto). }
  intros p. apply outline_now; [apply _..|]. intros created.
  apply (outline_bind meals_ok leaves_seat meal_moves _ _ _ (λ _ t, free_seat t ∧ seen_price row p t));
    [|intros t_line|done].
  { destruct p; [by intros w Hw HI HP|by apply (outline_ret meals_ok leaves_seat meal_moves)]. }
  apply (outline_bind meals_ok leaves_seat meal_moves _ _ _ _ _
    (claim_prices row (MkBooking by_ Booked n p None created) by_ t_line eq_refl Hn)); [|done].
  intros [[s b]| |]; [by apply (outline_ret meals_ok leaves_seat meal_moves)| |
    by apply (outline_ret meals_ok leaves_seat meal_moves)].
  apply (outline_step meals_ok leaves_seat meal_moves _ _ (λ _ t, free_seat t));
    [apply free_steady|apply (tx_moves_gets meals_ok leaves_seat meal_moves)| |done|].
  { by intros t a t' _ ? [= <- <-]. }
  intros [again|]; [case_match|]; by apply (outline_done meals_ok leaves_seat meal_moves).
Qed.

(** While the menu stays published and nobody else touches the seat, a student
    who does not hold it and books it gets it at the sum of the dishes the menu
    carries at that instant, whoever edits the menu meanwhile, and within the
    capacity the menu has then. *)
Theorem booked_at_the_price_carried by_ cutoff :
  prices free_seat (book m u by_ cutoff) (λ r t, ∀ s b, r = Ok (s, b) → fairly_sold t b).
Proof.
  apply outline_rounds; [apply _..| |by apply (outline_raise meals_ok leaves_seat meal_moves)].
  apply (outline_weaken meals_ok leaves_seat meal_moves free_seat _ _ round_fair _);
    [done| |apply round_prices].
  intros [[[s b]|]|e] t Hr; simpl in *; [|done..]. by intros s' b' [= <- <-].
Qed.
End Pricing.
