(* ===== verification/MealRuns.v ===== *)
(** * Runs of the meal program

    Two races of [book], each with one other request committing between two of
    its statements: a doubled request that leaks a seat of the menu, and a menu
    unpublished and published again under a booking in flight. And the tables the
    theorems of the other files are applied to. *)

From S2P Require Import Prelude Text Errors Effects Uuid Validate Ledger Meals MealProofs MealBooks MealBalance MealPrices.

Open Scope Z_scope.

#[local] Existing Instance hyphenated.

(** A calendar of one day, 2030-01-01. *)
Definition new_year : str := lit "2030-01-01".
Definition one_day : Calendar := {|
  parse_day v := if bool_decide (v = new_year) then Some 21915 else None;
  day_text _ := new_year;
  succ_day d := Some (d + 1);
|}.
#[local] Existing Instance one_day.

Definition admin : uuid := 1%N.
Definition ayse : uuid := 7%N.
Definition can : uuid := 8%N.
Definition lunch : str := menu_id new_year (lit "lunch").
Definition no_cutoff : MealCutoff := MkCutoff None [].

Definition empty_tables : Tables := MkTables ∅ ∅ ∅ ∅ ∅ ∅ {[admin; ayse; can]}.

(** What is left by a request served alone, at noon of the day before. *)
Definition noon : Z := 1893412800000.
Definition served {A} (m : io Tables A) (t : Tables) : Tables :=
  w_db (snd (m (quiet t (λ _, noon) (λ n, N.of_nat n)))).
Definition answer {A} (m : io Tables A) (t : Tables) : result AppError A :=
  fst (m (quiet t (λ _, noon) (λ n, N.of_nat n))).

(** A request served while [other] commits just before its [k]-th effect. *)
Definition raced {A B} (k : nat) (other : io Tables B) (m : io Tables A) (t : Tables)
    : result AppError A * Tables :=
  let '(r, w) := m (MkWorld t 0 (λ n s, if bool_decide (n = k) then served other s else s)
                      (λ _, noon) (λ n, N.of_nat n)) in
  (r, w_db w).

Definition publish (price_ : Z) (t : Tables) : Tables :=
  served (add_dish lunch (lit "soup") None price_ [])
    (served (create_menu new_year (lit "lunch") (Some 2) admin) t).
Definition published : Tables := publish 500 empty_tables.

Definition seats (t : Tables) : option Z := seats_booked <$> menus t !! lunch.
Definition held_seats (t : Tables) : Z := count (held_on lunch) (bookings t).

Definition book_for (u : uuid) : io Tables (Seat * MealBooking) := book lunch u admin no_cutoff.

(** The same seat requested twice: the second request's first look finds no row,
    the first request commits, the second takes a seat on the menu, cannot place
    the row, and commits the seat. One student holds one of the two places and
    the other is answered "the menu is fully booked"; after the one cancellation
    nobody holds a seat, and the menu still cannot be unpublished. *)
Theorem doubled_request_leaks_a_seat :
  let '(r, t) := raced 7 (book_for ayse) (book_for ayse) published in
  is_ok r = true ∧ held_seats t = 1 ∧ seats t = Some 2 ∧
  answer (book_for can) t = Err (Conflict "the menu is fully booked") ∧
  let t' := served (cancel (lunch, ayse) no_cutoff admin) t in
  held_seats t' = 0 ∧ seats t' = Some 1 ∧
  match menus t' !! lunch with
  | Some row => answer (delete_menu lunch row) t' = Err (Conflict "the menu still has live bookings")
  | None => False
  end.
Proof. vm_compute. by repeat split. Qed.

(** The unpublication and the new publication, one after the other. *)
Definition republish (price_ : Z) : io Tables () := λ w,
  match menus (w_db w) !! lunch with
  | Some row => (Ok (), tick (publish price_ (served (delete_menu lunch row) (w_db w))) w)
  | None => (Err NotFound, w)
  end.

(** A menu unpublished and published again at another price, while a booking is
    in flight: its revision is back where it was, so the claim passes at the
    price the old menu carried. *)
Theorem republished_menu_sold_at_the_old_price :
  let '(r, t) := raced 7 (republish 900) (book_for ayse) published in
  match r with
  | Ok (s, b) => s = (lunch, ayse) ∧ price_minor b = Some 500 ∧ price_of lunch t = Some 900
  | Err _ => False
  end.
Proof. vm_compute. by repeat split. Qed.

(** ** The tables the theorems are applied to *)

Lemma served_ok {A} (m : io Tables A) Q t :
  outline meals_ok meal_moves meal_moves (λ _, True) m Q → meals_ok t → meals_ok (served m t).
Proof.
  intros Hm Hok. unfold served. specialize (Hm (quiet t (λ _, noon) (λ n, N.of_nat n))).
  destruct (m _) as [r w']. by apply Hm.
Qed.

Lemma empty_ok : meals_ok empty_tables.
Proof.
  split; unfold settled, held_at; simpl; try (intros; by rewrite lookup_empty in *); try done.
  - intros u Hu. unfold uuid_ok. revert Hu. unfold admin, ayse, can. set_unfold. intros [[-> | ->]| ->]; lia.
  - intros s n _ _. by left.
Qed.

Lemma published_ok : meals_ok published.
Proof.
  unfold published, publish. eapply served_ok; [|eapply served_ok; [|apply empty_ok]].
  - apply outline_fresh; [apply _..|]. intros x. apply outline_now; [apply _..|]. intros t_now.
    apply one_statement, create_dish_moves.
  - apply outline_now; [apply _..|]. intros. apply one_statement, create_menu_moves.
Qed.

Definition booked : Tables := served (book_for ayse) published.
Definition paid_up : Tables := served (credit ayse 300 None None (Some (lit "receipt-1")) admin) booked.

Lemma booked_ok : meals_ok booked.
Proof. exact (served_ok _ _ _ (book_promises lunch ayse admin no_cutoff) published_ok). Qed.

Lemma receipt_ok : request_ok (Some (lit "receipt-1")).
Proof. reflexivity. Qed.

Lemma paid_up_ok : meals_ok paid_up.
Proof. exact (served_ok _ _ _ (credit_promises ayse 300 None None _ admin receipt_ok) booked_ok). Qed.

Lemma meals_keep_books_witness :
  call_ok (Credit_ ayse 300 None None (Some (lit "receipt-1")) admin) ∧
  outline meals_ok meal_moves meal_moves (λ _, True)
    (serve (Credit_ ayse 300 None None (Some (lit "receipt-1")) admin)) anything.
Proof. split; [reflexivity|apply meals_keep_books; reflexivity]. Defined.

Lemma keyed_credit_once_witness :
  validate_request_key (lit "receipt-1") = Ok () ∧
  outline meals_ok meal_moves meal_moves (λ _, True)
    (credit ayse 300 None None (Some (lit "receipt-1")) admin) (λ r t, ∀ l, r = Ok l →
      ledger t !! for_request ayse (lit "receipt-1") = Some l ∧ amount_minor l = 300).
Proof. split; [reflexivity|apply keyed_credit_once; reflexivity]. Defined.

(** One seat at 500, 300 paid in: 200 owed. *)
Lemma balance_is_paid_less_held_witness :
  meals_ok paid_up ∧ balance_of ayse paid_up = Ok (-200, paid_up) ∧
  -200 = i64_wrap (total (paid ayse) (ledger paid_up) - total (owed ayse) (bookings paid_up)).
Proof.
  pose proof (balance_is_paid_less_held paid_up ayse paid_up_ok) as Hb.
  assert (balance_of ayse paid_up = Ok (-200, paid_up)) as E by (vm_compute; reflexivity).
  rewrite E in Hb. split; [apply paid_up_ok|]. split; [exact E|apply Hb].
Defined.

Lemma changes_move_the_revision_witness :
  let t' := set_menus (alter (with_capacity (Some 3) ∘ bump) lunch) published in
  meal_step published t' ∧ revised lunch published t' ∧ seats t' = Some 0.
Proof.
  split; [by eapply (Resized _ _ lunch (Some 3))|]. split; [|reflexivity].
  apply changes_move_the_revision. by eapply (Resized _ _ lunch (Some 3)).
Defined.
