(* ===== verification/Timetable.v ===== *)
(** * The timetable ([src/domain/weekly_slot.rs], [src/domain/calendar.rs],
    [src/domain/holiday.rs], [src/domain/course_session.rs],
    [src/db/weekly_slot.rs], [src/db/holiday.rs], [src/db/course_session.rs],
    [src/service/weekly_slot.rs], [src/service/course_session.rs])

    A grade's offering carries a template week; a section follows it or keeps a
    week of its own. The materializer expands the week a section follows into
    dated lessons over a range, around the school's holidays. A date is its day
    number; what [chrono] answers about dates is the interface [Dates]. *)

From S2P Require Import Prelude Text Errors Effects Uuid Validate Modules Gates Badges.

Open Scope Z_scope.

Definition MAX_WEEKLY_SLOTS : Z := 40.
Definition MIN_SLOT_MINUTE : Z := 0.
Definition MAX_SLOT_MINUTE : Z := 24 * 60 - 1.
Definition MAX_SESSION_TOPIC_LEN : Z := 200.
Definition MAX_HOLIDAY_NAME_LEN : Z := 100.
Definition HOLIDAY_KINDS : list str := [lit "resmi"; lit "dini"; lit "idari"; lit "ara"].
Definition MAX_MATERIALIZE_DAYS : Z := 366.
Definition MAX_MATERIALIZE_SESSIONS : Z := 500.
Definition MILLIS_PER_DAY : Z := 24 * 60 * 60 * 1000.

(** ** The week ([src/domain/weekly_slot.rs]) *)

Definition weekday_new (raw : Z) : result ValidationError Z :=
  if negb (in_range 1 7 raw)
  then Err (Invalid "weekday" "must be 1 (Monday) through 7 (Sunday)") else Ok raw.

Definition slot_minute_new (raw : Z) : result ValidationError Z :=
  if negb (in_range MIN_SLOT_MINUTE MAX_SLOT_MINUTE raw)
  then Err (Invalid "slot time" "must be minutes past midnight, 0 (00:00) through 1439 (23:59)")
  else Ok raw.

Definition session_topic_try_new (value : str) : result ValidationError str :=
  _ ← validate_optional "topic" value MAX_SESSION_TOPIC_LEN; Ok value.

Record WeeklySlot := MkSlot {
  slot_id : uuid;
  weekday : Z;
  slot_starts : Z;
  slot_ends : Z;
  slot_topic : option str;
}.

Definition weekly_slot_new (i : uuid) (day starts ends : Z) (topic : option str)
    : result ValidationError WeeklySlot :=
  if ends <=? starts
  then Err (Invalid "ends_at" "must be after starts_at — a slot needs a non-empty window")
  else Ok (MkSlot i day starts ends topic).

Definition overlaps (a b : WeeklySlot) : bool :=
  (weekday a =? weekday b) && (slot_starts a <? slot_ends b) && (slot_starts b <? slot_ends a).

Inductive SlotAddError : Set := Overlap | PlanFull.

Definition check_add (existing : list WeeklySlot) (candidate : WeeklySlot) : result SlotAddError () :=
  if existsb (λ s, overlaps s candidate) existing then Err Overlap else
  if MAX_WEEKLY_SLOTS <=? Z.of_nat (length existing) then Err PlanFull else Ok ().

Definition slot_add_conflict (e : SlotAddError) : AppError :=
  match e with
  | Overlap => ConflictCoded "slot_overlap"
      (lit "another slot already occupies an intersecting time on this weekday")
  | PlanFull => ConflictCoded "slot_cap"
      (lit "this weekly plan already holds the maximum of " ++ show_int MAX_WEEKLY_SLOTS ++ lit " slots")
  end.

(** ** Days ([src/domain/calendar.rs]) *)

(** The [chrono] crate, as far as the source asks it. A [NaiveDate] is its day
    number; what is relied on is that a day holds the instants from its midnight
    to the next, that days follow each other, and that nothing between two dates
    is missing. *)
Class Dates := {
  date_of_millis : Z → option Z;
  millis_of_date : Z → Z;
  succ_opt : Z → option Z;
  num_days_from_monday : Z → Z;
  date_holds m d : date_of_millis m = Some d →
    millis_of_date d ≤ m < millis_of_date d + MILLIS_PER_DAY;
  date_next d d' : succ_opt d = Some d' →
    d' = d + 1 ∧ millis_of_date d' = millis_of_date d + MILLIS_PER_DAY;
  date_between m n a b d : date_of_millis m = Some a → date_of_millis n = Some b →
    a ≤ d < b → is_Some (succ_opt d);
}.

Definition zone_offset_minutes (timezone : str) : Z :=
  if bool_decide (timezone = lit "UTC") then 0 else 3 * 60.

(** The [expect] on a date [chrono] cannot hold: the request dies. *)
Definition panicked : AppError := Internal (lit "panic").

Section Days.
Context `{Dates}.

Definition zoned_day (millis offset : Z) : option Z :=
  date_of_millis (i64_wrap (millis + offset * 60000)).

Definition day_start_millis (day offset : Z) : Z := millis_of_date day - offset * 60000.

Definition iso_weekday (day : Z) : Z := num_days_from_monday day + 1.

(** The loop of [days_between]; one round per day of the range. *)
Fixpoint days_loop (fuel : nat) (day to : Z) : list Z :=
  match fuel with
  | O => []
  | S fuel =>
      if day <=? to then
        day :: match succ_opt day with Some next => days_loop fuel next to | None => [] end
      else []
  end.
Definition days_between (from to : Z) : list Z := days_loop (Z.to_nat (to - from + 1)) from to.
End Days.

(** ** Holidays and lessons *)

Record Holiday := MkHoliday {
  h_name : str;
  h_starts : Z;
  h_ends : Z;
  h_kind : str;
  h_creator : uuid;
  h_created_at : Z;
}.

Definition holiday_name_try_new (value : str) : result ValidationError str :=
  _ ← validate_required "name" value MAX_HOLIDAY_NAME_LEN; Ok value.
Definition holiday_kind_try_new (value : str) : result ValidationError str :=
  if negb (bool_decide (value ∈ HOLIDAY_KINDS)) then Err (Unknown "kind" value) else Ok value.

(** [Holiday::overlaps]. *)
Definition reaches (h : Holiday) (from to : Z) : bool := (from <=? h_ends h) && (h_starts h <=? to).

(** A [course_session] row: [held_counted_at] is read by the roll call alone. *)
Record Session := MkSession {
  class_course : uuid;
  teacher : uuid;
  topic : str;
  starts_at : Z;
  ends_at : option Z;
  held_counted_at : option Z;
}.

Record RollCallRow := MkRow { r_instance : uuid; r_status : str; r_marked_by : uuid; r_marked_at : Z }.

(** A [class_course] row, as far as the timetable reads it. *)
Record Instance := MkInstance {
  i_class : uuid;
  i_course : uuid;
  i_offering : uuid;
  i_title : option str;
  weekly_plan_inherited : bool;
}.

Record Account := MkAccount { role : Role; stats : BadgeStats }.

(** What the rest of the school says of a section, and the timetable only reads. *)
Record School := MkSchool {
  class_year : gmap uuid (option uuid);
  year_archived : gmap uuid bool;
  course_title : gmap uuid str;
  (** [class_group.teacher]. *)
  homeroom : gmap uuid (option uuid);
  (** [class_course_teacher] and [enrollment], keyed (instance, user). *)
  assigned : gset (uuid * uuid);
  enrolled : gset (uuid * uuid);
  (** The settings row. *)
  timezone : str;
  attendance_statuses : list str;
}.

Record Tables := MkTables {
  school : School;
  instances : gmap uuid Instance;
  (** [course_offering], with its title. *)
  offerings : gmap uuid (option str);
  (** Each slot under its id, with its owner. *)
  offering_slots : gmap uuid (uuid * WeeklySlot);
  class_slots : gmap uuid (uuid * WeeklySlot);
  holidays : gmap uuid Holiday;
  sessions : gmap uuid Session;
  (** Keyed (session, user). *)
  roll_call : gmap (uuid * uuid) RollCallRow;
  accounts : gmap uuid Account;
  award_rows : gmap (uuid * string) Z;
}.

Definition set_instances (f : gmap uuid Instance → gmap uuid Instance) (t : Tables) : Tables :=
  MkTables (school t) (f (instances t)) (offerings t) (offering_slots t) (class_slots t) (holidays t)
    (sessions t) (roll_call t) (accounts t) (award_rows t).
Definition set_offering_slots (f : gmap uuid (uuid * WeeklySlot) → gmap uuid (uuid * WeeklySlot))
    (t : Tables) : Tables :=
  MkTables (school t) (instances t) (offerings t) (f (offering_slots t)) (class_slots t) (holidays t)
    (sessions t) (roll_call t) (accounts t) (award_rows t).
Definition set_class_slots (f : gmap uuid (uuid * WeeklySlot) → gmap uuid (uuid * WeeklySlot))
    (t : Tables) : Tables :=
  MkTables (school t) (instances t) (offerings t) (offering_slots t) (f (class_slots t)) (holidays t)
    (sessions t) (roll_call t) (accounts t) (award_rows t).
Definition set_holidays (f : gmap uuid Holiday → gmap uuid Holiday) (t : Tables) : Tables :=
  MkTables (school t) (instances t) (offerings t) (offering_slots t) (class_slots t) (f (holidays t))
    (sessions t) (roll_call t) (accounts t) (award_rows t).
Definition set_sessions (f : gmap uuid Session → gmap uuid Session) (t : Tables) : Tables :=
  MkTables (school t) (instances t) (offerings t) (offering_slots t) (class_slots t) (holidays t)
    (f (sessions t)) (roll_call t) (accounts t) (award_rows t).
Definition set_roll_call (f : gmap (uuid * uuid) RollCallRow → gmap (uuid * uuid) RollCallRow)
    (t : Tables) : Tables :=
  MkTables (school t) (instances t) (offerings t) (offering_slots t) (class_slots t) (holidays t)
    (sessions t) (f (roll_call t)) (accounts t) (award_rows t).
Definition set_accounts (f : gmap uuid Account → gmap uuid Account) (t : Tables) : Tables :=
  MkTables (school t) (instances t) (offerings t) (offering_slots t) (class_slots t) (holidays t)
    (sessions t) (roll_call t) (f (accounts t)) (award_rows t).

#[export] Instance timetable_badges : BadgeStore Tables := {
  stats_of t u := stats <$> accounts t !! u;
  awards := award_rows;
  set_awards a t := MkTables (school t) (instances t) (offerings t) (offering_slots t) (class_slots t)
    (holidays t) (sessions t) (roll_call t) (accounts t) a;
  awards_set _ _ := eq_refl;
  stats_of_set _ _ _ := eq_refl;
}.

Definition sql {A} (f : Tables → result AppError (A * Tables)) : tx Tables A := f.

(** ** The plan's rows ([src/db/weekly_slot.rs]) *)

(** [ORDER BY weekday, starts_at]. *)
Definition earlier (a b : WeeklySlot) : Prop :=
  weekday a < weekday b ∨ weekday a = weekday b ∧ slot_starts a ≤ slot_starts b.
#[export] Instance earlier_dec a b : Decision (earlier a b).
Proof. unfold earlier. apply _. Defined.

Definition owned (slots : gmap uuid (uuid * WeeklySlot)) (owner : uuid) : list WeeklySlot :=
  merge_sort earlier (filter (λ p : uuid * WeeklySlot, p.1 = owner) (map_to_list slots).*2).*2.

Definition list_for_offering (o : uuid) : tx Tables (list WeeklySlot) := gets (λ t, owned (offering_slots t) o).
Definition list_for_class (i : uuid) : tx Tables (list WeeklySlot) := gets (λ t, owned (class_slots t) i).

Definition lock_offering_tx (o : uuid) : tx Tables () := λ t,
  match offerings t !! o with Some _ => Ok ((), t) | None => Err NotFound end.
Definition lock_class_tx (i : uuid) : tx Tables () := λ t,
  match instances t !! i with Some _ => Ok ((), t) | None => Err NotFound end.

(** A taken id or a taken (owner, weekday, start). *)
Definition slot_clash (slots : gmap uuid (uuid * WeeklySlot)) (owner : uuid) (s : WeeklySlot) : bool :=
  bool_decide (is_Some (slots !! slot_id s))
  || existsb (λ x, (weekday x =? weekday s) && (slot_starts x =? slot_starts s)) (owned slots owner).

Definition add_for_offering_tx (s : WeeklySlot) (o : uuid) : tx Tables WeeklySlot := λ t,
  if slot_clash (offering_slots t) o s
  then Err (ConflictCoded "slot_overlap" (lit "a slot already occupies this weekday and start time"))
  else Ok (s, set_offering_slots <[slot_id s := (o, s)]> t).

Definition own_plan (b : bool) (x : Instance) : Instance :=
  MkInstance (i_class x) (i_course x) (i_offering x) (i_title x) b.

(** The insert and the flip, one statement. *)
Definition add_for_class_tx (s : WeeklySlot) (i : uuid) : tx Tables WeeklySlot := λ t,
  if slot_clash (class_slots t) i s then Err unique_violation else
  match instances t !! i with
  | None => Err NotFound
  | Some _ => Ok (s, set_instances (alter (own_plan false) i) (set_class_slots <[slot_id s := (i, s)]> t))
  end.

Definition remove_for_offering (o s : uuid) : io Tables () :=
  atomic (λ t, match offering_slots t !! s with
    | Some (owner, _) => if bool_decide (owner = o) then Ok ((), set_offering_slots (delete s) t) else Err NotFound
    | None => Err NotFound
    end).

Definition remove_for_class (i s : uuid) : io Tables () :=
  atomic (λ t, match class_slots t !! s, instances t !! i with
    | Some (owner, _), Some _ =>
        if bool_decide (owner = i)
        then Ok ((), set_instances (alter (own_plan false) i) (set_class_slots (delete s) t))
        else Err NotFound
    | _, _ => Err NotFound
    end).

Definition reset_for_class (i : uuid) : io Tables () :=
  atomic (λ t, match instances t !! i with
    | Some _ => Ok ((), set_instances (alter (own_plan true) i)
        (set_class_slots (filter (λ p : uuid * (uuid * WeeklySlot), p.2.1 ≠ i)) t))
    | None => Err NotFound
    end).

(** ** The plan's workflows ([src/service/weekly_slot.rs]) *)

Definition resolved_for_instance (i : uuid) (row : Instance) : io Tables (list WeeklySlot) :=
  if weekly_plan_inherited row then atomic (list_for_offering (i_offering row))
  else atomic (list_for_class i).

(** The owner's lock makes the check and the insert one step. *)
Definition add_for_offering (o : uuid) (day starts ends : Z) (topic : option str) : io Tables WeeklySlot :=
  u ← fresh;
  s ← lift (map_err Validation (weekly_slot_new u day starts ends topic));
  atomic (
    _ ← lock_offering_tx o;
    existing ← list_for_offering o;
    _ ← decide_tx (map_err slot_add_conflict (check_add existing s));
    add_for_offering_tx s o).

Definition add_for_class (i : uuid) (day starts ends : Z) (topic : option str) : io Tables WeeklySlot :=
  u ← fresh;
  s ← lift (map_err Validation (weekly_slot_new u day starts ends topic));
  atomic (
    _ ← lock_class_tx i;
    existing ← list_for_class i;
    _ ← decide_tx (map_err slot_add_conflict (check_add existing s));
    add_for_class_tx s i).

(** ** Holidays ([src/db/holiday.rs]) *)


Definition create_holiday (name : str) (from to : Z) (kind : str) (by_ : uuid) : io Tables (uuid * Holiday) :=
  u ← fresh;
  t_now ← now;
  atomic (λ t,
    match holidays t !! u with
    | Some _ => Err unique_violation
    | None =>
        if negb (bool_decide (is_Some (accounts t !! by_))) then Err fk_violation else
        let h := MkHoliday name from to kind by_ t_now in Ok ((u, h), set_holidays <[u := h]> t)
    end).

(** [FieldUpdate] with its ordered guard: on the merged row, and only when the
    patch moves an end. *)
Definition update_holiday (i : uuid) (name : option str) (from to : option Z) (kind : option str)
    : io Tables Holiday :=
  atomic (λ t,
    match holidays t !! i with
    | None => Err (if bool_decide (is_Some from ∨ is_Some to) then range_error else NotFound)
    | Some h =>
        let h' := MkHoliday (default (h_name h) name) (default (h_starts h) from) (default (h_ends h) to)
                    (default (h_kind h) kind) (h_creator h) (h_created_at h) in
        if bool_decide (is_Some from ∨ is_Some to) && (h_ends h' <? h_starts h') then Err range_error
        else Ok (h', set_holidays <[i := h']> t)
    end).

Definition delete_holiday (i : uuid) : io Tables Holiday :=
  atomic (λ t, match holidays t !! i with
    | Some h => Ok (h, set_holidays (delete i) t)
    | None => Err NotFound
    end).

(** [list_between], earliest first. *)
Definition sooner (a b : Holiday) : Prop := h_starts a ≤ h_starts b.
#[export] Instance sooner_dec a b : Decision (sooner a b).
Proof. unfold sooner. apply _. Defined.
Definition holidays_between (from to : Z) : tx Tables (list Holiday) := gets (λ t,
  merge_sort sooner (filter (λ h, reaches h from to = true) (map_to_list (holidays t)).*2)).

(** ** Lessons ([src/db/course_session.rs]) *)

Definition taken_at (ss : gmap uuid Session) (i : uuid) (at_ : Z) : Prop :=
  map_Exists (λ _ s, class_course s = i ∧ starts_at s = at_) ss.
#[export] Instance taken_at_dec ss i at_ : Decision (taken_at ss i at_).
Proof. unfold taken_at. apply _. Defined.

Definition time_taken : AppError :=
  ConflictCoded "session_time_taken" (lit "this section already has a lesson starting then").

Definition create_session (i by_ : uuid) (topic_ : str) (from : Z) (to : option Z)
    : io Tables (uuid * Session) :=
  u ← fresh;
  atomic (λ t,
    if bool_decide (is_Some (sessions t !! u)) || bool_decide (taken_at (sessions t) i from)
    then Err time_taken else
    if negb (bool_decide (is_Some (instances t !! i)) && bool_decide (is_Some (accounts t !! by_)))
    then Err NotFound else
    let s := MkSession i by_ topic_ from to None in Ok ((u, s), set_sessions <[u := s]> t)).

Definition update_session (i : uuid) (by_ : option uuid) (topic_ : option str) (from : option Z)
    (to : option (option Z)) : io Tables Session :=
  atomic (λ t,
    let moved := bool_decide (is_Some from) || bool_decide (is_Some to) in
    match sessions t !! i with
    | None => Err (if moved then range_error else NotFound)
    | Some s =>
        let s' := MkSession (class_course s) (default (teacher s) by_) (default (topic s) topic_)
                    (default (starts_at s) from) (default (ends_at s) to) (held_counted_at s) in
        if moved && match ends_at s' with Some e => e <? starts_at s' | None => false end then Err range_error else
        if bool_decide (is_Some from) && bool_decide (taken_at (delete i (sessions t)) (class_course s') (starts_at s'))
        then Err time_taken else
        if bool_decide (is_Some by_) && negb (bool_decide (is_Some (accounts t !! teacher s')))
        then Err fk_violation else
        Ok (s', set_sessions <[i := s']> t)
    end).

(** The roll call goes first. *)
Definition delete_session (i : uuid) : io Tables Session :=
  atomic (λ t, match sessions t !! i with
    | Some s => Ok (s, set_sessions (delete i) (set_roll_call (filter (λ p : (uuid * uuid) * RollCallRow, p.1.1 ≠ i)) t))
    | None => Err NotFound
    end).

(** [insert_many_tx]: [ON CONFLICT (class_course, starts_at) DO NOTHING], row by
    row; what landed. *)
Fixpoint insert_many_tx (rows : list (uuid * Session)) : tx Tables (list (uuid * Session)) :=
  match rows with
  | [] => mret []
  | (u, s) :: rows =>
      here ← sql (λ t,
        if bool_decide (taken_at (sessions t) (class_course s) (starts_at s)) then Ok ([], t) else
        if bool_decide (is_Some (sessions t !! u)) then Err unique_violation else
        if negb (bool_decide (is_Some (instances t !! class_course s)) && bool_decide (is_Some (accounts t !! teacher s)))
        then Err fk_violation
        else Ok ([(u, s)], set_sessions <[u := s]> t));
      rest ← insert_many_tx rows;
      mret (here ++ rest)
  end.

(** ** The materializer ([src/service/course_session.rs]) *)

Record BlockedDay := MkBlocked { day : Z; holiday : str }.

Record MaterializeOutcome := MkOutcome {
  applied : bool;
  slots : Z;
  candidates : Z;
  created : list (uuid * Session);
  skipped_existing : Z;
  skipped_holiday : Z;
  blocked : list BlockedDay;
  range_days : Z;
}.

Definition archived_error : AppError :=
  ConflictCoded "academic_year_archived"
    (lit "this academic year is archived — past years are read-only").

(** [class_course::require_open]. *)
Definition require_open (i : uuid) : io Tables () :=
  class ← atomic (gets (λ t, i_class <$> instances t !! i));
  match class with
  | None => mret ()
  | Some c =>
      year ← atomic (gets (λ t, mjoin (class_year (school t) !! c)));
      match year with
      | None => mret ()
      | Some y =>
          archived ← atomic (gets (λ t, year_archived (school t) !! y));
          match archived with Some true => raise archived_error | _ => mret () end
      end
  end.

(** [class_course_teacher::list_for_instance], [ORDER BY teacher]. *)
Definition teachers_of (t : Tables) (i : uuid) : list uuid :=
  merge_sort N.le (filter (λ p : uuid * uuid, p.1 = i) (elements (assigned (school t)))).*2.

(** The title of [resolved_content] for one instance: two reads. *)
Definition resolved_title (row : Instance) : io Tables str :=
  template ← atomic (gets (λ t, mjoin (offerings t !! i_offering row)));
  catalog ← atomic (gets (λ t, course_title (school t) !! i_course row));
  mret (default [] (match i_title row with Some x => Some x | None =>
          match template with Some x => Some x | None => catalog end end)).

Definition fallback_topic (title : str) : str :=
  if bool_decide (title = []) then lit "Ders" else
  match session_topic_try_new title with Ok x => x | Err _ => lit "Ders" end.

Section Materialize.
Context `{Dates}.

(** One lesson the range asks for. *)
Record Lesson := MkLesson { l_topic : str; l_starts : Z; l_ends : Z }.

(** The slots of one day: what to mint, and how many stand already. *)
Definition expand_slot (fallback : str) (existing : gset Z) (day_start : Z) (s : WeeklySlot)
    (acc : list Lesson * Z) : list Lesson * Z :=
  let from := day_start + slot_starts s * 60000 in
  if bool_decide (from ∈ existing) then (acc.1, acc.2 + 1)
  else (acc.1 ++ [MkLesson (default fallback (slot_topic s)) from (day_start + slot_ends s * 60000)], acc.2).

Record Expansion := MkExpansion { x_rows : list Lesson; x_blocked : list BlockedDay; x_skipped : Z }.

(** One round of the loop over the days. *)
Definition expand_day (plan : list WeeklySlot) (fallback : str) (hs : list Holiday) (existing : gset Z)
    (offset : Z) (x : Expansion) (d : Z) : Expansion :=
  let start := day_start_millis d offset in
  match List.find (λ h, reaches h start (start + MILLIS_PER_DAY - 1)) hs with
  | Some h => MkExpansion (x_rows x) (x_blocked x ++ [MkBlocked d (h_name h)]) (x_skipped x)
  | None =>
      let '(rows, skipped) := foldl (λ acc s, expand_slot fallback existing start s acc)
        (x_rows x, x_skipped x) (filter (λ s, weekday s = iso_weekday d) plan) in
      MkExpansion rows (x_blocked x) skipped
  end.

Definition expand (plan : list WeeklySlot) (fallback : str) (hs : list Holiday) (existing : gset Z)
    (offset : Z) (days : list Z) : Expansion :=
  foldl (expand_day plan fallback hs existing offset) (MkExpansion [] [] 0) days.

(** [existing_starts]. *)
Definition existing_starts (i : uuid) : tx Tables (gset Z) := gets (λ t,
  list_to_set (starts_at <$> filter (λ s, class_course s = i) (map_to_list (sessions t)).*2)).

(** An id for each row. *)
Fixpoint mint (i by_ : uuid) (rows : list Lesson) : io Tables (list (uuid * Session)) :=
  match rows with
  | [] => mret []
  | l :: rows =>
      u ← fresh;
      rest ← mint i by_ rows;
      mret ((u, MkSession i by_ (l_topic l) (l_starts l) (Some (l_ends l)) None) :: rest)
  end.

(** [materialize]. Its reads go over the pool, each its own statement; the one
    write comes last. *)
Definition materialize (i : uuid) (row : Instance) (from to : Z) (apply_ : bool) (offset : Z)
    : io Tables MaterializeOutcome :=
  first ← lift (ok_or (zoned_day from offset) panicked);
  last ← lift (ok_or (zoned_day to offset) panicked);
  let days := days_between first last in
  let range_days := Z.of_nat (length days) in
  if MAX_MATERIALIZE_DAYS <? range_days
  then raise (Validation (Invalid "to" "the range must not span more than a year")) else
  _ ← require_open i;
  _ ← atomic (lock_class_tx i);
  plan ← resolved_for_instance i row;
  if bool_decide (plan = [])
  then raise (ConflictCoded "instance_has_no_weekly_plan"
    (lit "this section's weekly plan is empty — add a slot first")) else
  teachers ← atomic (gets (λ t, teachers_of t i));
  match teachers with
  | [] => raise (ConflictCoded "instance_has_no_teacher"
      (lit "assign a teacher to this section before generating lessons"))
  | by_ :: _ =>
      title ← resolved_title row;
      hs ← atomic (holidays_between from to);
      existing ← atomic (existing_starts i);
      let x := expand plan (fallback_topic title) hs existing offset days in
      rows ← mint i by_ (x_rows x);
      if MAX_MATERIALIZE_SESSIONS <? Z.of_nat (length rows)
      then raise (Validation (Invalid "to" "this range would create more than 500 lessons — narrow it")) else
      made ← (if apply_ then atomic (insert_many_tx rows) else mret []);
      mret (MkOutcome apply_ (Z.of_nat (length plan)) (Z.of_nat (length rows)) made (x_skipped x)
              (Z.of_nat (length (x_blocked x))) (x_blocked x) range_days)
  end.
End Materialize.
