(* ===== verification/TimetableProofs.v ===== *)
(** * What the timetable promises

    Over [Timetable]: every write keeps the weeks free of collisions, a section
    without two lessons at one instant and the roll call on lessons that stand,
    whatever is interleaved; and the materializer's loop over the days is the list
    of the slots of its unblocked days. *)

From S2P Require Import Prelude Text Errors Effects Uuid Validate Modules Badges Timetable.

Open Scope Z_scope.

Implicit Types (t : Tables) (s : WeeklySlot) (m : gmap uuid (uuid * WeeklySlot)) (o u : uuid).

(** ** The rows of one owner *)

Definition belongs (o : uuid) (p : uuid * (uuid * WeeklySlot)) : Prop := p.2.1 = o.
#[export] Instance belongs_dec o p : Decision (belongs o p).
Proof. unfold belongs. apply _. Defined.

Lemma owned_perm m o : owned m o ≡ₚ (λ p, p.2.2) <$> map_to_list (filter (belongs o) m).
Proof.
  unfold owned. rewrite merge_sort_Permutation, map_filter_alt.
  assert (∀ ps, (filter (λ p : uuid * WeeklySlot, p.1 = o) ps.*2).*2
    = (λ p : uuid * (uuid * WeeklySlot), p.2.2) <$> filter (belongs o) ps) as ->.
  { induction ps as [|[u [x s]] ps IH]; [done|]. csimpl. unfold belongs.
    destruct (decide (x = o)); [rewrite !filter_cons_True by done|rewrite !filter_cons_False by done];
      csimpl; by rewrite IH. }
  rewrite map_to_list_to_map; [done|]. apply NoDup_fmap_fst; [|apply NoDup_filter, NoDup_map_to_list].
  intros k x y [_ Hx]%list_elem_of_filter [_ Hy]%list_elem_of_filter.
  apply elem_of_map_to_list in Hx, Hy. congruence.
Qed.

Lemma elem_of_owned m o s : s ∈ owned m o ↔ ∃ u, m !! u = Some (o, s).
Proof.
  rewrite owned_perm, list_elem_of_fmap. split.
  - intros ([u [x s']] & -> & [Hm Hx]%elem_of_map_to_list%map_lookup_filter_Some).
    unfold belongs in Hx. simpl in *. subst. by exists u.
  - intros [u Hu]. exists (u, (o, s)). split; [done|]. apply elem_of_map_to_list.
    by apply map_lookup_filter_Some.
Qed.

Lemma length_owned m o : Z.of_nat (length (owned m o)) = count (belongs o) m.
Proof. rewrite owned_perm, length_fmap, length_map_to_list. reflexivity. Qed.

(** ** Well-formed weeks and lessons *)

(** A window of one day of the week. *)
Definition in_day s : Prop :=
  1 ≤ weekday s ≤ 7 ∧ MIN_SLOT_MINUTE ≤ slot_starts s < slot_ends s ∧ slot_ends s ≤ MAX_SLOT_MINUTE.

Record week_ok m : Prop := {
  wk_window : ∀ u o s, m !! u = Some (o, s) → in_day s;
  wk_apart : ∀ u v o s s', m !! u = Some (o, s) → m !! v = Some (o, s') → u ≠ v → overlaps s s' = false;
  wk_size : ∀ o, count (belongs o) m ≤ MAX_WEEKLY_SLOTS;
}.

(** One lesson of a section at an instant. *)
Definition lessons_apart (ss : gmap uuid Session) : Prop :=
  ∀ u v a b, ss !! u = Some a → ss !! v = Some b →
    class_course a = class_course b → starts_at a = starts_at b → u = v.

Definition lessons_ordered (ss : gmap uuid Session) : Prop :=
  map_Forall (λ _ x, match ends_at x with Some e => starts_at x ≤ e | None => True end) ss.

Record timetable_ok t : Prop := {
  tt_template : week_ok (offering_slots t);
  tt_own : week_ok (class_slots t);
  tt_lessons : lessons_apart (sessions t);
  tt_ordered : lessons_ordered (sessions t);
  tt_holidays : map_Forall (λ _ h, h_starts h ≤ h_ends h) (holidays t);
  (** A roll-call row is of a lesson that stands. *)
  tt_rows : map_Forall (λ k _, is_Some (sessions t !! k.1)) (roll_call t);
}.

Lemma overlaps_comm a b : overlaps a b = overlaps b a.
Proof. unfold overlaps. rewrite (Z.eqb_sym (weekday a)). lia. Qed.

Lemma week_add m o s :
  week_ok m → in_day s → check_add (owned m o) s = Ok () →
  slot_clash m o s = false → week_ok (<[slot_id s := (o, s)]> m).
Proof.
  intros [Hw Ha Hn] Hs Hc Hk. unfold slot_clash in Hk. apply orb_false_iff in Hk as [Hid _].
  apply bool_decide_eq_false in Hid. assert (m !! slot_id s = None) as Hnone by (by apply eq_None_not_Some).
  unfold check_add in Hc. destruct (existsb _ _) eqn:He; [done|]. case_match eqn:Hl; [done|].
  assert (∀ u s', m !! u = Some (o, s') → overlaps s' s = false) as Hfree.
  { intros u s' Hu. apply not_true_iff_false. intros Ho.
    apply not_true_iff_false in He. apply He. apply existsb_exists. exists s'. split; [|done].
    apply list_elem_of_In, elem_of_owned. by exists u. }
  split.
  - intros u o' s' [[<- [= <- <-]]|[_ Hu]]%lookup_insert_Some; eauto.
  - intros u v o' s1 s2 [[<- [= <- <-]]|[Hu1 Hu]]%lookup_insert_Some [[<- E]|[Hv1 Hv]]%lookup_insert_Some Hne;
      try done.
    + rewrite overlaps_comm. eauto.
    + injection E as <- <-. eauto.
    + eauto.
  - intros o'. rewrite count_insert_fresh by done. unfold belongs at 2. simpl.
    case_decide as Hd; [subst o'|specialize (Hn o'); lia].
    rewrite length_owned in Hl. unfold MAX_WEEKLY_SLOTS in *. lia.
Qed.

Lemma week_sub m m' : m' ⊆ m → week_ok m → week_ok m'.
Proof.
  intros Hsub [Hw Ha Hn]. split.
  - intros u o s Hu. eapply Hw. by eapply lookup_weaken.
  - intros u v o s s' Hu Hv. apply (Ha u v o); by eapply lookup_weaken.
  - intros o. etrans; [|apply (Hn o)]. unfold count. apply Nat2Z.inj_le, map_subseteq_size.
    by apply map_filter_subseteq_mono.
Qed.

Lemma taken_at_spec (ss : gmap uuid Session) i at_ :
  taken_at ss i at_ ↔ ∃ u x, ss !! u = Some x ∧ class_course x = i ∧ starts_at x = at_.
Proof. apply map_Exists_lookup. Qed.

Lemma taken_mono (ss ss' : gmap uuid Session) i at_ : ss ⊆ ss' → taken_at ss i at_ → taken_at ss' i at_.
Proof.
  rewrite !taken_at_spec. intros Hsub (u & x & Hu & Hx). exists u, x. split; [|done].
  by eapply lookup_weaken.
Qed.

Lemma lessons_add (ss : gmap uuid Session) u x :
  lessons_apart ss → ¬ taken_at (delete u ss) (class_course x) (starts_at x) → lessons_apart (<[u := x]> ss).
Proof.
  intros Hap Hfree. assert (∀ v b, v ≠ u → ss !! v = Some b → class_course b = class_course x →
    starts_at b = starts_at x → False) as Hno.
  { intros v b Hne Hb Hc Hs. apply Hfree, taken_at_spec. exists v, b.
    by rewrite lookup_delete_ne. }
  intros v w a b [[<- <-]|[Hv Ha]]%lookup_insert_Some [[<- <-]|[Hw Hb]]%lookup_insert_Some Hc Hs; [done|..].
  - exfalso. eapply (Hno w b); by eauto.
  - exfalso. eapply (Hno v a); by eauto.
  - by eapply Hap.
Qed.

Lemma lessons_sub (ss ss' : gmap uuid Session) : ss' ⊆ ss → lessons_apart ss → lessons_apart ss'.
Proof. intros Hsub Hap u v a b Hu Hv. apply (Hap u v a b); by eapply lookup_weaken. Qed.

(** ** Every write keeps it *)

(** A step on one table leaves what is said of the others. *)
Lemma ok_offering_slots t f :
  (week_ok (offering_slots t) → week_ok (f (offering_slots t))) → timetable_ok t → timetable_ok (set_offering_slots f t).
Proof. intros Hf []. split; simpl; auto. Qed.
Lemma ok_class_slots t f g :
  (week_ok (class_slots t) → week_ok (f (class_slots t))) →
  timetable_ok t → timetable_ok (set_instances g (set_class_slots f t)).
Proof. intros Hf []. split; simpl; auto. Qed.
Lemma ok_holidays t f :
  (map_Forall (λ _ h, h_starts h ≤ h_ends h) (holidays t) → map_Forall (λ _ h, h_starts h ≤ h_ends h) (f (holidays t))) →
  timetable_ok t → timetable_ok (set_holidays f t).
Proof. intros Hf []. split; simpl; auto. Qed.
Lemma ok_sessions t f :
  (lessons_apart (sessions t) → lessons_apart (f (sessions t))) →
  (lessons_ordered (sessions t) → lessons_ordered (f (sessions t))) →
  (∀ u, is_Some (sessions t !! u) → is_Some (f (sessions t) !! u)) →
  timetable_ok t → timetable_ok (set_sessions f t).
Proof. intros Hf Hg Hk [? ? ? ? ? Hrows]. split; simpl; auto. intros k r Hr. by eapply Hk, Hrows. Qed.

Lemma stands_insert (ss : gmap uuid Session) u x v : is_Some (ss !! v) → is_Some (<[u := x]> ss !! v).
Proof. intros Hv. destruct (decide (u = v)) as [->|]; [rewrite lookup_insert_eq; eauto|by rewrite lookup_insert_ne]. Qed.

(** What [parse_slot] has checked. *)
Definition parsed (d a b : Z) : Prop := 1 ≤ d ≤ 7 ∧ MIN_SLOT_MINUTE ≤ a ≤ MAX_SLOT_MINUTE ∧ MIN_SLOT_MINUTE ≤ b ≤ MAX_SLOT_MINUTE.

Lemma slot_new_window u d a b tp s : parsed d a b → weekly_slot_new u d a b tp = Ok s → in_day s.
Proof. unfold weekly_slot_new, in_day, parsed. intros Hp. case_match; [done|]. intros [= <-]. simpl. lia. Qed.

Lemma add_for_offering_keeps o d a b tp :
  parsed d a b → keeps timetable_ok (add_for_offering o d a b tp).
Proof.
  intros Hp.
  unfold add_for_offering. apply keeps_bind; [apply keeps_fresh|]. intros u.
  apply keeps_lift_bind. intros s Hs%map_err_ok%(slot_new_window _ _ _ _ _ _ Hp). apply keeps_atomic.
  intros t r t' Hok ([] & t1 & Hl & Ht)%tx_bind_ok. unfold lock_offering_tx in Hl. case_match; [|done].
  injection Hl as <-. apply tx_bind_ok in Ht as (ls & t1 & [-> ->]%gets_ok & Ht).
  apply tx_bind_ok in Ht as ([] & t1 & [Hc ->]%decide_ok & Ht). unfold add_for_offering_tx in Ht.
  case_match eqn:Hk; [done|]. injection Ht as <- <-. apply ok_offering_slots; [|done].
  intros Hw. apply week_add; [done..| |done]. by destruct (check_add _ _) as [[]|].
Qed.

Lemma add_for_class_keeps i d a b tp :
  parsed d a b → keeps timetable_ok (add_for_class i d a b tp).
Proof.
  intros Hp.
  unfold add_for_class. apply keeps_bind; [apply keeps_fresh|]. intros u.
  apply keeps_lift_bind. intros s Hs%map_err_ok%(slot_new_window _ _ _ _ _ _ Hp). apply keeps_atomic.
  intros t r t' Hok ([] & t1 & Hl & Ht)%tx_bind_ok. unfold lock_class_tx in Hl. case_match; [|done].
  injection Hl as <-. apply tx_bind_ok in Ht as (ls & t1 & [-> ->]%gets_ok & Ht).
  apply tx_bind_ok in Ht as ([] & t1 & [Hc ->]%decide_ok & Ht). unfold add_for_class_tx in Ht.
  case_match eqn:Hk; [done|]. case_match; [|done]. injection Ht as <- <-. apply ok_class_slots; [|done].
  intros Hw. apply week_add; [done..| |done]. by destruct (check_add _ _) as [[]|].
Qed.

Lemma remove_for_offering_keeps o x : keeps timetable_ok (remove_for_offering o x).
Proof.
  apply keeps_atomic. intros t r t' Hok. repeat case_match; try done. intros [= <- <-].
  apply ok_offering_slots; [|done]. apply week_sub, delete_subseteq.
Qed.

Lemma remove_for_class_keeps i x : keeps timetable_ok (remove_for_class i x).
Proof.
  apply keeps_atomic. intros t r t' Hok. repeat case_match; try done. intros [= <- <-].
  apply ok_class_slots; [|done]. apply week_sub, delete_subseteq.
Qed.

Lemma reset_for_class_keeps i : keeps timetable_ok (reset_for_class i).
Proof.
  apply keeps_atomic. intros t r t' Hok. case_match; [|done]. intros [= <- <-].
  apply ok_class_slots; [|done]. apply week_sub, map_filter_subseteq.
Qed.

Lemma create_holiday_keeps n from to k by_ :
  from ≤ to → keeps timetable_ok (create_holiday n from to k by_).
Proof.
  intros Hle. unfold create_holiday. keeps_walk. intros t r t' Hok. repeat case_match; try done.
  intros [= <- <-]. apply ok_holidays; [|done]. by apply map_Forall_insert_2.
Qed.

Lemma update_holiday_keeps i n from to k : keeps timetable_ok (update_holiday i n from to k).
Proof.
  apply keeps_atomic. intros t r t' Hok. destruct (holidays t !! i) as [h|] eqn:Hh; [|done].
  cbv zeta. destruct (_ && _) eqn:Hg; [done|]. intros [= <- <-]. apply ok_holidays; [|done]. intros Hall.
  apply map_Forall_insert_2; [|done]. simpl. apply andb_false_iff in Hg as [Hg|Hg]; [|simpl in Hg; lia].
  apply bool_decide_eq_false in Hg. destruct from as [x|], to as [y|]; simpl;
    [exfalso; apply Hg; eauto..|]. exact (Hall i h Hh).
Qed.

Lemma delete_holiday_keeps i : keeps timetable_ok (delete_holiday i).
Proof.
  apply keeps_atomic. intros t r t' Hok. case_match; [|done]. intros [= <- <-].
  apply ok_holidays; [|done]. intros Hall. by apply map_Forall_delete.
Qed.

Definition ordered (x : Session) : Prop := match ends_at x with Some e => starts_at x ≤ e | None => True end.

Lemma create_session_keeps i by_ tp from to :
  (∀ e, to = Some e → from ≤ e) → keeps timetable_ok (create_session i by_ tp from to).
Proof.
  intros Hle. unfold create_session. keeps_walk. intros t r t' Hok. destruct (_ || _) eqn:Ht; [done|].
  case_match; [done|]. cbv zeta. intros [= <- <-]. apply orb_false_iff in Ht as [Hu Ht].
  apply bool_decide_eq_false in Ht. apply ok_sessions; [| |intros v; apply stands_insert|done].
  - intros Hap. apply lessons_add; [done|]. intros Htk. apply Ht.
    eapply taken_mono; [|exact Htk]. apply delete_subseteq.
  - intros Hord. apply map_Forall_insert_2; [|done]. simpl. destruct to; eauto.
Qed.

Lemma update_session_keeps i by_ tp from to : keeps timetable_ok (update_session i by_ tp from to).
Proof.
  apply keeps_atomic. intros t r t' Hok. cbv zeta. destruct (sessions t !! i) as [x|] eqn:Hx; [|done].
  set (x' := MkSession _ _ _ _ _ _). destruct (_ && match ends_at x' with _ => _ end) eqn:Hord; [done|].
  destruct (bool_decide (is_Some from) && _) eqn:Htk; [done|]. destruct (bool_decide (is_Some by_) && _); [done|]. intros [= <- <-].
  apply ok_sessions; [| |intros v; apply stands_insert|done].
  - intros Hap. apply lessons_add; [done|]. apply andb_false_iff in Htk as [Hf|Htk].
    + apply bool_decide_eq_false in Hf. destruct from; [by destruct Hf|]. simpl.
      intros (v & y & [Hne Hv]%lookup_delete_Some & Hc & Hs)%taken_at_spec.
      apply Hne. symmetry. by apply (Hap v i y x).
    + by apply bool_decide_eq_false in Htk.
  - intros Hall. apply map_Forall_insert_2; [|done]. apply andb_false_iff in Hord as [Hm|Hord].
    + apply orb_false_iff in Hm as [Hf%bool_decide_eq_false Ht%bool_decide_eq_false].
      destruct from, to; simpl; [by destruct Hf|by destruct Hf|by destruct Ht|]. exact (Hall i x Hx).
    + destruct (ends_at x'); [lia|done].
Qed.

Lemma delete_session_keeps i : keeps timetable_ok (delete_session i).
Proof.
  apply keeps_atomic. intros t r t' [H1 H2 Hap Hord H5 Hrows]. case_match; [|done]. intros [= <- <-].
  split; simpl; [done|done|..|done|].
  - eapply lessons_sub; [apply delete_subseteq|done].
  - by apply map_Forall_delete.
  - intros k r [Hr Hk]%map_lookup_filter_Some. rewrite lookup_delete_ne by done. by eapply Hrows.
Qed.

Lemma insert_many_keeps rows : Forall (λ p, ordered p.2) rows → tx_keeps timetable_ok (insert_many_tx rows).
Proof.
  induction rows as [|[u x] rows IH]; intros Hall; [apply tx_keeps_ret|].
  apply Forall_cons in Hall as [Hx Hall]. simpl. apply tx_keeps_bind.
  - intros t r t' Hok. unfold sql. destruct (bool_decide (taken_at _ _ _)) eqn:Ht; [by intros [= <- <-]|].
    destruct (bool_decide (is_Some _)); [done|]. destruct (negb _); [done|]. intros [= <- <-].
    apply bool_decide_eq_false in Ht. apply ok_sessions; [| |intros v; apply stands_insert|done].
    + intros Hap. apply lessons_add; [done|]. intros Htk. apply Ht.
      eapply taken_mono; [|exact Htk]. apply delete_subseteq.
    + intros Hord. by apply map_Forall_insert_2.
  - intros here. apply tx_keeps_bind; [by apply IH|]. intros rest. apply tx_keeps_ret.
Qed.

(** ** The loops of the materializer *)

Section Expansion.
Context `{Dates}.

Lemma days_loop_seq n d to :
  (∀ x, d ≤ x < to → is_Some (succ_opt x)) → n = Z.to_nat (to - d + 1) → days_loop n d to = seqZ d (to - d + 1).
Proof.
  revert d. induction n as [|n IH]; intros d Hs Hn; simpl.
  - rewrite seqZ_nil by lia. done.
  - destruct (d <=? to) eqn:Hle; [|rewrite seqZ_nil by lia; done].
    rewrite seqZ_cons by lia. f_equal. destruct (decide (d = to)) as [->|Hne].
    + replace (Z.pred (to - to + 1)) with 0 by lia. rewrite seqZ_nil by lia.
      destruct (succ_opt to) as [x|] eqn:Hx; [|done]. apply date_next in Hx as [-> _].
      destruct n; simpl; [done|]. by rewrite (proj2 (Z.leb_gt _ _)) by lia.
    + destruct (Hs d) as [x Hx]; [lia|]. rewrite Hx. apply date_next in Hx as [-> _].
      rewrite IH; [f_equal; lia|intros x Hx; apply Hs; lia|lia].
Qed.

Lemma days_between_seq (x y a b : Z) :
  date_of_millis x = Some a → date_of_millis y = Some b → days_between a b = seqZ a (b - a + 1).
Proof. intros Ha Hb. apply days_loop_seq; [|done]. intros z Hz. by apply (date_between x y a b). Qed.

Definition blocks (hs : list Holiday) (offset d : Z) : option Holiday :=
  List.find (λ h, reaches h (day_start_millis d offset) (day_start_millis d offset + MILLIS_PER_DAY - 1)) hs.

Definition lesson (fallback : str) (offset d : Z) s : Lesson :=
  MkLesson (default fallback (slot_topic s)) (day_start_millis d offset + slot_starts s * 60000)
    (day_start_millis d offset + slot_ends s * 60000).

(** The pairs of a day and a slot the range asks for. *)
Definition asked (plan : list WeeklySlot) (hs : list Holiday) (offset : Z) (days : list Z) : list (Z * WeeklySlot) :=
  days ≫= λ d, match blocks hs offset d with
               | Some _ => []
               | None => (λ s, (d, s)) <$> filter (λ s, weekday s = iso_weekday d) plan
               end.

Lemma expand_slots fb existing offset d ss acc :
  foldl (λ acc s, expand_slot fb existing (day_start_millis d offset) s acc) acc ss
  = (acc.1 ++ (lesson fb offset d <$> filter (λ s, l_starts (lesson fb offset d s) ∉ existing) ss),
     acc.2 + Z.of_nat (length (filter (λ s, l_starts (lesson fb offset d s) ∈ existing) ss))).
Proof.
  revert acc. induction ss as [|s ss IH]; intros [rows k]; simpl; [by rewrite app_nil_r, Z.add_0_r|].
  rewrite IH. unfold expand_slot. rewrite !filter_cons. simpl.
  destruct (decide (day_start_millis d offset + slot_starts s * 60000 ∈ existing)) as [Hin|Hin].
  - rewrite bool_decide_true by done. simpl. destruct (decide (_ ∉ _)) as [|]; [done|]. f_equal. lia.
  - rewrite bool_decide_false by done. simpl. destruct (decide (_ ∉ _)) as [|]; [|done].
    csimpl. by rewrite <- app_assoc.
Qed.

Lemma asked_cons plan hs offset d days :
  asked plan hs offset (d :: days)
  = match blocks hs offset d with
    | Some _ => []
    | None => (λ s, (d, s)) <$> filter (λ s, weekday s = iso_weekday d) plan
    end ++ asked plan hs offset days.
Proof. done. Qed.

(** The loop is the comprehension: one lesson for each pair asked whose instant
    is free, in order; one entry for each blocked day. *)
Lemma expand_comprehension plan fb hs existing offset days :
  let x := expand plan fb hs existing offset days in
  x_rows x = (λ p, lesson fb offset p.1 p.2) <$>
      filter (λ p, l_starts (lesson fb offset p.1 p.2) ∉ existing) (asked plan hs offset days)
  ∧ x_blocked x = omap (λ d, MkBlocked d ∘ h_name <$> blocks hs offset d) days
  ∧ x_skipped x = Z.of_nat (length
      (filter (λ p, l_starts (lesson fb offset p.1 p.2) ∈ existing) (asked plan hs offset days))).
Proof.
  unfold expand.
  assert (∀ x0, let x := foldl (expand_day plan fb hs existing offset) x0 days in
    x_rows x = x_rows x0 ++ ((λ p, lesson fb offset p.1 p.2) <$>
      filter (λ p, l_starts (lesson fb offset p.1 p.2) ∉ existing) (asked plan hs offset days))
    ∧ x_blocked x = x_blocked x0 ++ omap (λ d, MkBlocked d ∘ h_name <$> blocks hs offset d) days
    ∧ x_skipped x = x_skipped x0 + Z.of_nat (length
        (filter (λ p, l_starts (lesson fb offset p.1 p.2) ∈ existing) (asked plan hs offset days)))) as Hgen.
  { induction days as [|d days IH]; intros x0; cbn [foldl omap list_omap]; [simpl; by rewrite !app_nil_r, Z.add_0_r|].
    destruct (IH (expand_day plan fb hs existing offset x0 d)) as (-> & -> & ->).
    rewrite asked_cons. unfold expand_day. fold (blocks hs offset d). rewrite !filter_app, fmap_app, length_app.
    destruct (blocks hs offset d) as [h|]; simpl; [by rewrite <- app_assoc|].
    rewrite expand_slots. simpl. rewrite <- app_assoc. split; [|split; [done|]].
    - f_equal. f_equal. rewrite filter_of_fmap. simpl. by rewrite <- list_fmap_compose.
    - rewrite filter_of_fmap, length_fmap. simpl. lia. }
  apply (Hgen (MkExpansion [] [] 0)).
Qed.
End Expansion.

(** ** Under interference *)

Section Materializing.
Context `{Dates}.

(** Nothing is asked of the others but that they keep the timetable. *)
Definition whatever (_ _ : Tables) : Prop := True.
#[local] Instance whatever_preorder : PreOrder whatever.
Proof. by split. Qed.

Abbreviation sound := (outline timetable_ok whatever whatever).

Lemma whatever_steady (P : Prop) : steady timetable_ok whatever (λ _, P).
Proof. by intros t t' _ _ _. Qed.

Lemma read_sound {A B} (f : Tables → A) (P : A → Prop) (k : A → io Tables B) :
  (∀ t, timetable_ok t → P (f t)) → (∀ a, P a → sound (λ _, True) (k a) anything) →
  sound (λ _, True) (atomic (gets f) ≫= k) anything.
Proof.
  intros HP Hk. apply (outline_step timetable_ok whatever whatever _ _ (λ a _, True ∧ P a)); [done| | |done|].
  - apply (tx_moves_gets timetable_ok whatever whatever).
  - intros t a t' Hok _ [= <- <-]. split; [done|]. by apply HP.
  - intros a. apply outline_pure; [apply _..|]. apply Hk.
Qed.

Lemma sound_done {A} (r : result AppError A) : sound (λ _, True) (λ w, (r, w)) anything.
Proof. by apply (outline_done timetable_ok whatever whatever). Qed.

Lemma sound_bind {A B} (m : io Tables A) (k : A → io Tables B) :
  sound (λ _, True) m anything → (∀ a, sound (λ _, True) (k a) anything) → sound (λ _, True) (m ≫= k) anything.
Proof. intros Hm Hk. by apply (outline_bind timetable_ok whatever whatever _ _ _ anything). Qed.

Lemma require_open_sound i : sound (λ _, True) (require_open i) anything.
Proof.
  unfold require_open. apply (read_sound _ (λ _, True)); [done|]. intros [c|] _; [|apply sound_done].
  apply (read_sound _ (λ _, True)); [done|]. intros [y|] _; [|apply sound_done].
  apply (read_sound _ (λ _, True)); [done|]. intros [[]|] _; apply sound_done.
Qed.

Definition plan_windows (plan : list WeeklySlot) : Prop := ∀ s, s ∈ plan → in_day s.

Lemma owned_windows m o : week_ok m → plan_windows (owned m o).
Proof. intros Hw s [u Hu]%elem_of_owned. by eapply wk_window. Qed.

Lemma plan_sound {B} i row (k : list WeeklySlot → io Tables B) :
  (∀ plan, plan_windows plan → sound (λ _, True) (k plan) anything) →
  sound (λ _, True) (resolved_for_instance i row ≫= k) anything.
Proof.
  intros Hk. unfold resolved_for_instance, list_for_offering, list_for_class.
  destruct (weekly_plan_inherited row); apply (read_sound _ plan_windows); try done;
    intros t Hok; apply owned_windows, Hok.
Qed.

Definition session_of (i by_ : uuid) (l : Lesson) : Session :=
  MkSession i by_ (l_topic l) (l_starts l) (Some (l_ends l)) None.

Lemma mint_run i by_ rows w :
  ∃ ids w', mint i by_ rows w = (Ok ids, w') ∧ ids.*2 = session_of i by_ <$> rows
    ∧ w_db w' = w_db w ∧ w_env w' = w_env w.
Proof.
  revert w. induction rows as [|l rows IH]; intros w; simpl; [by exists [], w|].
  rewrite fresh_bind. destruct (IH (tick (w_db w) w)) as (ids & w' & Hm & Hids & Hdb & Henv).
  unfold mbind, io_bind. rewrite Hm. eexists _, w'. split; [done|]. csimpl. by rewrite Hids.
Qed.

Lemma mint_sound {B} i by_ rows (k : list (uuid * Session) → io Tables B) :
  (∀ ids, ids.*2 = session_of i by_ <$> rows → sound (λ _, True) (k ids) anything) →
  sound (λ _, True) (mint i by_ rows ≫= k) anything.
Proof.
  intros Hk w Hw HI HP. destruct (mint_run i by_ rows w) as (ids & w' & Hm & Hids & Hdb & Henv).
  unfold mbind, io_bind. rewrite Hm. assert (relies timetable_ok whatever w') as Hw' by (unfold relies; by rewrite Henv).
  rewrite <- Hdb in HI. specialize (Hk ids Hids w' Hw' HI I). destruct (k ids w') as [r w2].
  rewrite <- Henv. exact Hk.
Qed.

Lemma rows_ordered plan fb hs existing offset days i by_ :
  plan_windows plan →
  Forall ordered (session_of i by_ <$> x_rows (expand plan fb hs existing offset days)).
Proof.
  intros Hp. apply Forall_fmap, Forall_forall. intros l Hl.
  destruct (expand_comprehension plan fb hs existing offset days) as (Hr & _ & _). rewrite Hr in Hl.
  apply list_elem_of_fmap in Hl as ([d s] & -> & [_ Hin]%list_elem_of_filter).
  apply list_elem_of_bind in Hin as (d' & Hin & _). unfold ordered, session_of, lesson; simpl.
  destruct (blocks hs offset d'); [by apply not_elem_of_nil in Hin|].
  apply list_elem_of_fmap in Hin as (s' & [= -> ->] & [_ Hs]%list_elem_of_filter).
  specialize (Hp s' Hs). unfold in_day in Hp. lia.
Qed.

Lemma materialize_sound i row from to ap off :
  sound (λ _, True) (materialize i row from to ap off) anything.
Proof.
  unfold materialize. apply outline_lift; [apply _..| |done]. intros first _.
  apply outline_lift; [apply _..| |done]. intros last _. case_match; [apply sound_done|].
  apply sound_bind; [apply require_open_sound|]. intros [].
  apply sound_bind.
  { apply (outline_atomic timetable_ok whatever whatever); [done| |done|done].
    intros t a t' Hok. unfold lock_class_tx. case_match; [|done]. by intros [= <- <-]. }
  intros []. apply plan_sound. intros plan Hplan. case_match; [apply sound_done|].
  apply (read_sound _ (λ _, True)); [done|]. intros [|by_ ts] _; [apply sound_done|].
  apply sound_bind; [unfold resolved_title; do 2 (apply (read_sound _ (λ _, True)); [done|]; intros ? _); apply sound_done|].
  intros title. apply (read_sound _ (λ _, True)); [done|]. intros hs _.
  apply (read_sound _ (λ _, True)); [done|]. intros existing _.
  apply mint_sound. intros ids Hids. case_match; [apply sound_done|].
  apply sound_bind; [|intros made; apply sound_done]. destruct ap; [|apply sound_done].
  apply (outline_atomic timetable_ok whatever whatever); [done| |done|done].
  intros t a t' Hok E. split; [|done]. eapply insert_many_keeps; [|exact Hok|exact E].
  assert (Forall ordered ids.*2) as Hall by (rewrite Hids; by apply rows_ordered).
  exact (proj1 (Forall_fmap _ _ _) Hall).
Qed.
End Materializing.
