(* ===== verification/MaterializeProofs.v ===== *)
(** * What the materializer writes

    Over [Timetable]: with nobody else writing, [materialize] answers what the
    state says of the range — every refusal is a property of the state, and
    refuses without a trace — adds a lesson at exactly the free instants the
    plan asks for, removes none, and run again adds nothing. *)

From S2P Require Import Prelude Text Errors Effects Uuid Validate Modules Badges Timetable TimetableProofs.

Open Scope Z_scope.

Implicit Types (t : Tables) (s : WeeklySlot) (o u : uuid).

(** ** The batch insert *)

Definition same_but_sessions t t' : Prop := t' = set_sessions (λ _, sessions t') t.

Lemma same_trans t1 t2 t3 : same_but_sessions t1 t2 → same_but_sessions t2 t3 → same_but_sessions t1 t3.
Proof. unfold same_but_sessions. intros -> ->. done. Qed.

Lemma taken_insert (ss : gmap uuid Session) u x i a :
  ss !! u = None → taken_at (<[u := x]> ss) i a ↔ taken_at ss i a ∨ class_course x = i ∧ starts_at x = a.
Proof.
  intros Hu. rewrite !taken_at_spec. split.
  - intros (v & y & [[<- <-]|[Hne Hv]]%lookup_insert_Some & Hy); [by right|]. left. eauto.
  - intros [(v & y & Hv & Hy)|Hx]; [|exists u, x; split; [by rewrite lookup_insert_eq|done]].
    exists v, y. split; [|done]. rewrite lookup_insert_ne by congruence. done.
Qed.

(** What lands: nothing stood under those ids, everything else stands, and
    every instant asked for is taken. *)
Lemma insert_many_lands rows t made t' :
  insert_many_tx rows t = Ok (made, t') →
  same_but_sessions t t'
  ∧ sessions t ⊆ sessions t'
  ∧ (∀ u x, (u, x) ∈ made ↔ sessions t !! u = None ∧ sessions t' !! u = Some x)
  ∧ (∀ i a, taken_at (sessions t') i a ↔
       taken_at (sessions t) i a ∨ ∃ x, x ∈ rows.*2 ∧ class_course x = i ∧ starts_at x = a)
  ∧ made `sublist_of` rows.
Proof.
  revert t made t'. induction rows as [|[u x] rows IH]; intros t made t'; simpl.
  { intros [= <- <-]. split_and!; [by destruct t|done|set_solver by congruence| |done].
    intros i a. split; [auto|]. intros [?|(x & Hx & _)]; [done|by apply elem_of_nil in Hx]. }
  intros (here & t1 & Hhere & (rest & t2 & Hrest & [= <- <-])%tx_bind_ok)%tx_bind_ok.
  destruct (IH _ _ _ Hrest) as (Hsame & Hsub & Hmade & Htaken & Hlist). clear IH.
  unfold sql in Hhere. destruct (bool_decide (taken_at _ _ _)) eqn:Ht.
  - injection Hhere as <- <-. apply bool_decide_eq_true in Ht. split_and!; [done..| |by apply sublist_cons].
    intros i a. rewrite Htaken. csimpl. setoid_rewrite elem_of_cons. naive_solver.
  - destruct (bool_decide (is_Some _)) eqn:Hu; [done|]. destruct (negb _); [done|]. injection Hhere as <- <-.
    apply bool_decide_eq_false, eq_None_not_Some in Hu. simpl in *. split_and!.
    + eapply same_trans; [|exact Hsame]. done.
    + etrans; [|exact Hsub]. by apply insert_subseteq.
    + intros v y. simpl. rewrite elem_of_cons, Hmade. destruct (decide (v = u)) as [->|Hne].
      * rewrite lookup_insert_eq. assert (sessions t2 !! u = Some x) as Hux.
        { eapply lookup_weaken; [|exact Hsub]. by rewrite lookup_insert_eq. }
        rewrite Hux. naive_solver.
      * rewrite lookup_insert_ne by done. naive_solver.
    + intros i a. rewrite Htaken, taken_insert by done. csimpl. setoid_rewrite elem_of_cons. naive_solver.
    + simpl. by apply sublist_skip.
Qed.

(** Rows whose instants are all taken: nothing happens. *)
Lemma insert_many_nothing t : insert_many_tx [] t = Ok ([], t).
Proof. done. Qed.

(** ** What the state says of a range *)

Section Alone.
Context `{Dates}.

Definition week_of t (i : uuid) (row : Instance) : list WeeklySlot :=
  if weekly_plan_inherited row then owned (offering_slots t) (i_offering row) else owned (class_slots t) i.

(** The section hangs off an archived year. *)
Definition archived t (i : uuid) : bool :=
  match (x ← instances t !! i; y ← mjoin (class_year (school t) !! i_class x); year_archived (school t) !! y) with
  | Some b => b
  | None => false
  end.

Definition title_of t (row : Instance) : str :=
  default [] (match i_title row with Some x => Some x | None =>
    match mjoin (offerings t !! i_offering row) with Some x => Some x | None => course_title (school t) !! i_course row end end).

Definition holidays_in t (from to : Z) : list Holiday :=
  merge_sort sooner (filter (λ h, reaches h from to = true) (map_to_list (holidays t)).*2).

Definition starts_of t (i : uuid) : gset Z :=
  list_to_set (starts_at <$> filter (λ x, class_course x = i) (map_to_list (sessions t)).*2).

Record Asked := MkAsked { a_plan : list WeeklySlot; a_teacher : uuid; a_days : list Z; a_expansion : Expansion }.

(** The answer before anything is written. *)
Definition planned t (i : uuid) (row : Instance) (from to off : Z) : result AppError Asked :=
  match zoned_day from off, zoned_day to off with
  | Some first, Some last =>
      let days := days_between first last in
      if MAX_MATERIALIZE_DAYS <? Z.of_nat (length days)
      then Err (Validation (Invalid "to" "the range must not span more than a year")) else
      if archived t i then Err archived_error else
      if bool_decide (instances t !! i = None) then Err NotFound else
      if bool_decide (week_of t i row = [])
      then Err (ConflictCoded "instance_has_no_weekly_plan"
        (lit "this section's weekly plan is empty — add a slot first")) else
      match teachers_of t i with
      | [] => Err (ConflictCoded "instance_has_no_teacher"
          (lit "assign a teacher to this section before generating lessons"))
      | by_ :: _ =>
          let x := expand (week_of t i row) (fallback_topic (title_of t row)) (holidays_in t from to) (starts_of t i) off days in
          if MAX_MATERIALIZE_SESSIONS <? Z.of_nat (length (x_rows x))
          then Err (Validation (Invalid "to" "this range would create more than 500 lessons — narrow it"))
          else Ok (MkAsked (week_of t i row) by_ days x)
      end
  | _, _ => Err panicked
  end.

Definition outcome (ap : bool) (a : Asked) (made : list (uuid * Session)) : MaterializeOutcome :=
  MkOutcome ap (Z.of_nat (length (a_plan a))) (Z.of_nat (length (x_rows (a_expansion a)))) made
    (x_skipped (a_expansion a)) (Z.of_nat (length (x_blocked (a_expansion a)))) (x_blocked (a_expansion a))
    (Z.of_nat (length (a_days a))).

(** The rows under the ids drawn for them. *)
Definition rows_for (i : uuid) (a : Asked) (ids : list (uuid * Session)) : Prop :=
  ids.*2 = session_of i (a_teacher a) <$> x_rows (a_expansion a).

Lemma require_open_alone i w :
  undisturbed w →
  leads (require_open i) w (λ r t, t = w_db w ∧ r = if archived (w_db w) i then Err archived_error else Ok ()).
Proof.
  intros Hw. unfold require_open, archived. apply leads_read; [done|]. intros w1 Hw1 <-.
  destruct (instances (w_db w1) !! i) as [x|]; [|by apply leads_done]. simpl.
  apply leads_read; [done|]. intros w2 Hw2 <-.
  destruct (mjoin (class_year (school (w_db w2)) !! i_class x)) as [y|]; [|by apply leads_done]. simpl.
  apply leads_read; [done|]. intros w3 Hw3 <-.
  destruct (year_archived (school (w_db w3)) !! y) as [[]|]; by apply leads_done.
Qed.

Lemma resolved_alone i row w :
  undisturbed w →
  leads (resolved_for_instance i row) w (λ r t, t = w_db w ∧ r = Ok (week_of (w_db w) i row)).
Proof.
  intros Hw. unfold resolved_for_instance, week_of.
  destruct (weekly_plan_inherited row); by apply leads_atomic.
Qed.

Lemma title_alone row w :
  undisturbed w → leads (resolved_title row) w (λ r t, t = w_db w ∧ r = Ok (title_of (w_db w) row)).
Proof.
  intros Hw. unfold resolved_title. apply leads_read; [done|]. intros w1 Hw1 <-.
  apply leads_read; [done|]. intros w2 Hw2 <-. by apply leads_done.
Qed.

Lemma lock_class_alone i w :
  undisturbed w →
  leads (atomic (lock_class_tx i)) w (λ r t, t = w_db w ∧
    r = if bool_decide (instances (w_db w) !! i = None) then Err NotFound else Ok ()).
Proof.
  intros Hw. apply leads_atomic; [done|]. unfold lock_class_tx. by destruct (instances (w_db w) !! i).
Qed.

Lemma mint_alone i by_ rows w :
  leads (mint i by_ rows) w (λ r t, t = w_db w ∧ ∃ ids, r = Ok ids ∧ ids.*2 = session_of i by_ <$> rows).
Proof.
  destruct (mint_run i by_ rows w) as (ids & w1 & Hm & Hids & Hdb & Henv). unfold leads. rewrite Hm. eauto.
Qed.

(** With nobody else writing, [materialize] answers [planned]: a refusal leaves
    the state as it was, a dry run too, and an application runs one batch insert
    of the lessons planned. *)
Definition answers (i : uuid) (row : Instance) (from to off : Z) (ap : bool) t (r : result AppError MaterializeOutcome) t' : Prop :=
  match planned t i row from to off with
  | Err e => r = Err e ∧ t' = t
  | Ok a => ∃ ids, rows_for i a ids ∧
      if ap then match insert_many_tx ids t with
                 | Ok (made, t1) => r = Ok (outcome ap a made) ∧ t' = t1
                 | Err e => r = Err e ∧ t' = t
                 end
      else r = Ok (outcome ap a []) ∧ t' = t
  end.

Lemma materialize_answers i row from to ap off w :
  undisturbed w → leads (materialize i row from to ap off) w (answers i row from to off ap (w_db w)).
Proof.
  intros Hw. unfold materialize, answers, planned. apply leads_lift.
  destruct (zoned_day from off) as [first|]; [|by split]. simpl. apply leads_lift.
  destruct (zoned_day to off) as [last|]; [|by split]. simpl. destruct (_ <? _); [by apply leads_done|].
  eapply leads_bind; [done|by apply require_open_alone|..].
  { intros e t [-> He]. destruct (archived _ _); [by simplify_eq|done]. }
  intros [] w1 Hw1 [<- Hr]. destruct (archived _ _); [done|]. clear Hr.
  eapply leads_bind; [done|by apply lock_class_alone|..].
  { intros e t [-> He]. destruct (bool_decide (_ = None)); [by simplify_eq|done]. }
  intros [] w2 Hw2 [<- Hr]. destruct (bool_decide (_ = None)); [done|]. clear Hr.
  eapply leads_bind; [done|by apply resolved_alone|by intros ? ? [_ [=]]|].
  intros plan w3 Hw3 [<- [= ->]]. destruct (bool_decide _); [by apply leads_done|].
  apply leads_read; [done|]. intros w4 Hw4 <-. destruct (teachers_of _ _) as [|by_ ts]; [by apply leads_done|].
  eapply leads_bind; [done|by apply title_alone|by intros ? ? [_ [=]]|].
  intros title w5 Hw5 [<- [= ->]]. apply leads_read; [done|]. intros w6 Hw6 <-.
  apply leads_read; [done|]. intros w7 Hw7 <-.
  eapply leads_bind; [done|apply mint_alone|by intros ? ? (_ & ? & [=] & _)|].
  intros ids w8 Hw8 (Hdb & ids' & [= <-] & Hids). rewrite <- Hdb in *. clear Hdb w7 Hw7.
  change (merge_sort _ _) with (holidays_in (w_db w8) from to) in *.
  change (list_to_set _) with (starts_of (w_db w8) i) in *.
  set (x := expand _ _ _ _ _ _) in *.
  assert (length ids = length (x_rows x)) as Hlen by (rewrite <- (length_fmap snd ids), Hids; apply length_fmap).
  rewrite Hlen. destruct (_ <? _); [by apply leads_done|]. destruct ap.
  - eapply leads_bind; [done|apply leads_atomic; [done|]|..].
    + instantiate (1 := λ r t, match insert_many_tx ids (w_db w8) with
        | Ok (made, t1) => r = Ok made ∧ t = t1 | Err e => r = Err e ∧ t = w_db w8 end).
      by destruct (insert_many_tx ids (w_db w8)) as [[made t1]|e].
    + intros e t He. exists ids. split; [done|].
      destruct (insert_many_tx ids (w_db w8)) as [[made t1]|e']; destruct He as [[=] ?]; by subst.
    + intros made w9 Hw9 He. apply leads_done. exists ids. split; [done|].
      destruct (insert_many_tx ids (w_db w8)) as [[made' t1]|e']; destruct He as [[=] ?]; by subst.
  - apply leads_done. by exists ids.
Qed.

(** ** The instants a range asks for *)

Lemma elem_of_asked plan hs off days d s :
  (d, s) ∈ asked plan hs off days ↔ d ∈ days ∧ blocks hs off d = None ∧ s ∈ plan ∧ weekday s = iso_weekday d.
Proof.
  unfold asked. rewrite list_elem_of_bind. split.
  - intros (d' & Hin & Hd'). destruct (blocks hs off d') eqn:Hb; [by apply not_elem_of_nil in Hin|].
    apply list_elem_of_fmap in Hin as (s' & [= -> ->] & [Hs Hin]%list_elem_of_filter). done.
  - intros (Hd & Hb & Hin & Hs). exists d. split; [|done]. rewrite Hb.
    apply list_elem_of_fmap. exists s. split; [done|]. by apply list_elem_of_filter.
Qed.

Lemma elem_of_starts t i a : a ∈ starts_of t i ↔ taken_at (sessions t) i a.
Proof.
  unfold starts_of. rewrite elem_of_list_to_set, list_elem_of_fmap, taken_at_spec. split.
  - intros (x & -> & [Hc ([u y] & -> & Hu%elem_of_map_to_list)%list_elem_of_fmap]%list_elem_of_filter). by exists u, y.
  - intros (u & x & Hu & Hc & <-). exists x. split; [done|]. apply list_elem_of_filter. split; [done|].
    apply list_elem_of_fmap. exists (u, x). split; [done|]. by apply elem_of_map_to_list.
Qed.

(** A day no holiday reaches, of those the code loads: the ones that overlap the
    instants asked for. *)
Definition open_day t (from to off d : Z) : Prop :=
  ∀ u h, holidays t !! u = Some h → reaches h from to = true →
    reaches h (day_start_millis d off) (day_start_millis d off + MILLIS_PER_DAY - 1) = false.

Lemma blocks_none t from to off d : blocks (holidays_in t from to) off d = None ↔ open_day t from to off d.
Proof.
  unfold blocks, open_day, holidays_in. split.
  - intros Hf u h Hu Hr. eapply (find_none _ _ Hf), list_elem_of_In. rewrite merge_sort_Permutation.
    apply list_elem_of_filter. split; [done|]. apply list_elem_of_fmap. exists (u, h). split; [done|].
    by apply elem_of_map_to_list.
  - intros Ho. destruct (List.find _ _) as [h|] eqn:Hf; [|done].
    apply find_some in Hf as [Hin%list_elem_of_In Hr]. rewrite merge_sort_Permutation in Hin.
    apply list_elem_of_filter in Hin as [Hft ([u h'] & -> & Hu%elem_of_map_to_list)%list_elem_of_fmap].
    simpl in *. by rewrite (Ho u h' Hu Hft) in Hr.
Qed.

(** The plan asks for a lesson at [a]: a slot of the section's week, on its
    weekday, on an open day of the range. *)
Definition due t (i : uuid) (row : Instance) (from to off a : Z) : Prop :=
  ∃ first last d s, zoned_day from off = Some first ∧ zoned_day to off = Some last ∧ first ≤ d ≤ last
    ∧ open_day t from to off d ∧ s ∈ week_of t i row ∧ weekday s = iso_weekday d
    ∧ a = day_start_millis d off + slot_starts s * 60000.

Lemma planned_ok t i row from to off a :
  planned t i row from to off = Ok a →
  ∃ first last, zoned_day from off = Some first ∧ zoned_day to off = Some last
    ∧ a_plan a = week_of t i row ∧ a_days a = days_between first last
    ∧ a_teacher a ∈ teachers_of t i
    ∧ a_expansion a = expand (week_of t i row) (fallback_topic (title_of t row)) (holidays_in t from to) (starts_of t i) off (a_days a)
    ∧ Z.of_nat (length (a_days a)) ≤ MAX_MATERIALIZE_DAYS
    ∧ Z.of_nat (length (x_rows (a_expansion a))) ≤ MAX_MATERIALIZE_SESSIONS.
Proof.
  unfold planned. destruct (zoned_day from off) as [first|]; [|done]. destruct (zoned_day to off) as [last|]; [|done].
  destruct (_ <? _) eqn:Hd; [done|]. destruct (archived t i); [done|]. do 2 (destruct (bool_decide _); [done|]).
  destruct (teachers_of t i) as [|by_ ts] eqn:Ht; [done|]. destruct (MAX_MATERIALIZE_SESSIONS <? _) eqn:Hs; [done|].
  intros [= <-]. exists first, last. simpl. split_and!; try done; [by left|lia|lia].
Qed.

Lemma due_asked t i row from to off first last a :
  zoned_day from off = Some first → zoned_day to off = Some last →
  due t i row from to off a ↔ ∃ p, p ∈ asked (week_of t i row) (holidays_in t from to) off (days_between first last)
    ∧ l_starts (lesson (fallback_topic (title_of t row)) off p.1 p.2) = a.
Proof.
  intros Hf Hl. assert (∀ d, d ∈ days_between first last ↔ first ≤ d ≤ last) as Hdays.
  { intros d. rewrite (days_between_seq _ _ _ _ Hf Hl), elem_of_seqZ. lia. }
  split.
  - intros (f & l & d & s & Hf' & Hl' & Hd & Ho & Hs & Hw & ->). rewrite Hf in Hf'. rewrite Hl in Hl'. simplify_eq.
    exists (d, s). split; [|done]. apply elem_of_asked. by rewrite Hdays, blocks_none.
  - intros ([d s] & (Hd & Hb & Hs & Hw)%elem_of_asked & <-). exists first, last, d, s.
    apply Hdays in Hd. apply blocks_none in Hb. done.
Qed.

Lemma rows_due t i row from to off a ids at_ :
  planned t i row from to off = Ok a → rows_for i a ids →
  (∃ x, x ∈ ids.*2 ∧ class_course x = i ∧ starts_at x = at_) ↔ due t i row from to off at_ ∧ ¬ taken_at (sessions t) i at_.
Proof.
  intros (first & last & Hf & Hl & _ & Hdays & _ & Hx & _)%planned_ok Hids. rewrite Hids, (due_asked _ _ _ _ _ _ _ _ _ Hf Hl).
  destruct (expand_comprehension (week_of t i row) (fallback_topic (title_of t row)) (holidays_in t from to) (starts_of t i)
    off (a_days a)) as (Hrows & _). rewrite Hx. rewrite Hdays in *. split.
  - intros (x & (l & -> & Hin)%list_elem_of_fmap & _ & <-). rewrite Hrows in Hin.
    apply list_elem_of_fmap in Hin as (p & -> & [Hfree Hin]%list_elem_of_filter). simpl.
    rewrite elem_of_starts in Hfree. split; [|done]. by exists p.
  - intros ((p & Hin & <-) & Hfree).
    exists (session_of i (a_teacher a) (lesson (fallback_topic (title_of t row)) off p.1 p.2)). split; [|done].
    apply list_elem_of_fmap. eexists. split; [done|]. rewrite Hrows. apply list_elem_of_fmap. eexists. split; [done|].
    apply list_elem_of_filter. by rewrite elem_of_starts.
Qed.

(** A day no declared holiday reaches, as the service's doc puts it. *)
Definition holiday_free t (off d : Z) : Prop :=
  ∀ u h, holidays t !! u = Some h → reaches h (day_start_millis d off) (day_start_millis d off + MILLIS_PER_DAY - 1) = false.
(** A day the instants asked for do not cut. *)
Definition whole_day (from to off d : Z) : Prop :=
  from ≤ day_start_millis d off ∧ day_start_millis d off + MILLIS_PER_DAY - 1 ≤ to.

Lemma whole_day_open t from to off d : whole_day from to off d → (open_day t from to off d ↔ holiday_free t off d).
Proof.
  intros [Hf Ht]. unfold open_day, holiday_free. split; [|eauto]. intros Ho u h Hh.
  destruct (reaches h (day_start_millis d off) _) eqn:E; [|done]. rewrite <- E. apply (Ho u h Hh).
  unfold reaches in *. apply andb_true_iff in E as [E1%Z.leb_le E2%Z.leb_le]. apply andb_true_iff. split; apply Z.leb_le; lia.
Qed.

(** C30. With nobody else writing, generating lessons over a range either refuses and
    leaves the school as it was, or only adds lessons of this section: those it
    answers, under the section's teacher, and afterwards the section has a
    lesson at an instant exactly when it had one before or its week puts one
    there on a day of the range that is open. A day that lies whole within the
    instants asked for is open exactly when no declared holiday reaches it, which
    is the rule the service documents. On a first or last day those instants cut,
    the code consults only the holidays that overlap them: a day whose holiday
    lies wholly outside counts as open there, against that rule. *)
Theorem materialize_fills_the_range i row from to off w :
  undisturbed w →
  leads (materialize i row from to true off) w (λ r t', let t := w_db w in
    match r with
    | Err e => t' = t
    | Ok out =>
        same_but_sessions t t' ∧ sessions t ⊆ sessions t'
        ∧ (∀ u x, (u, x) ∈ created out ↔ sessions t !! u = None ∧ sessions t' !! u = Some x)
        ∧ (∀ u x, (u, x) ∈ created out → class_course x = i ∧ teacher x ∈ teachers_of t i)
        ∧ (∀ a, taken_at (sessions t') i a ↔ taken_at (sessions t) i a ∨ due t i row from to off a)
        ∧ (∀ d, whole_day from to off d → (open_day t from to off d ↔ holiday_free t off d))
        ∧ (∀ d, (∀ u h, holidays t !! u = Some h → reaches h from to = false) → open_day t from to off d)
        ∧ Z.of_nat (length (created out)) ≤ candidates out ≤ MAX_MATERIALIZE_SESSIONS
    end).
Proof.
  intros Hw. eapply leads_weaken; [by apply materialize_answers|]. unfold answers. intros r t'.
  destruct (planned _ _ _ _ _ _) as [a|e] eqn:Hp; [|by intros [-> ->]]. intros (ids & Hids & Hr).
  destruct (insert_many_tx ids (w_db w)) as [[made t1]|e] eqn:Hi; destruct Hr as [-> ->]; [|done].
  apply insert_many_lands in Hi as (Hsame & Hsub & Hmade & Htaken & Hlist). simpl.
  destruct (planned_ok _ _ _ _ _ _ _ Hp) as (_ & _ & _ & _ & _ & _ & Hby & _ & _ & Hsmall).
  assert (length ids = length (x_rows (a_expansion a))) as Hlen.
  { rewrite <- (length_fmap snd ids). rewrite Hids. apply length_fmap. }
  split_and!; [done|done|done| | |by apply whole_day_open|intros d Hno u h Hh; by rewrite (Hno u h Hh)
    |rewrite <- Hlen; apply Nat2Z.inj_le; by apply sublist_length|done].
  - intros u x Hin. apply (sublist_subseteq _ _ Hlist) in Hin.
    apply (list_elem_of_fmap_2 snd) in Hin. rewrite Hids in Hin.
    apply list_elem_of_fmap in Hin as (l & Hx & _). simpl in Hx. by subst x.
  - intros at_. rewrite Htaken, (rows_due _ _ _ _ _ _ _ _ _ Hp Hids).
    destruct (decide (taken_at (sessions (w_db w)) i at_)); naive_solver.
Qed.

Lemma filter_parts {A} (P Q : A → Prop) `{!∀ x, Decision (P x)} `{!∀ x, Decision (Q x)} (l : list A) :
  (∀ x, Q x ↔ ¬ P x) → length l = (length (filter P l) + length (filter Q l))%nat.
Proof.
  intros HQ. induction l as [|x l IH]; [done|]. rewrite !filter_cons.
  destruct (decide (P x)), (decide (Q x)); simpl; rewrite ?IH; [naive_solver|lia|lia|naive_solver].
Qed.

(** What the second run is asked: the same, with every instant taken. *)
Lemma planned_again t t' i row from to off a :
  planned t i row from to off = Ok a → same_but_sessions t t' →
  (∀ at_, taken_at (sessions t') i at_ ↔ taken_at (sessions t) i at_ ∨ due t i row from to off at_) →
  ∃ x, planned t' i row from to off = Ok (MkAsked (a_plan a) (a_teacher a) (a_days a) x)
    ∧ x_rows x = [] ∧ x_blocked x = x_blocked (a_expansion a)
    ∧ x_skipped x = x_skipped (a_expansion a) + Z.of_nat (length (x_rows (a_expansion a))).
Proof.
  intros Hp Hsame Htaken.
  assert (holidays_in t' from to = holidays_in t from to) as Hhs by (by rewrite Hsame).
  destruct (planned_ok _ _ _ _ _ _ _ Hp) as (first & last & Hf & Hl & _ & Hdays & _ & Hx & _). revert Hp.
  unfold planned. rewrite Hhs, Hf, Hl.
  assert (archived t' i = archived t i) as -> by (by rewrite Hsame).
  assert (instances t' = instances t) as -> by (by rewrite Hsame).
  assert (week_of t' i row = week_of t i row) as -> by (by rewrite Hsame).
  assert (teachers_of t' i = teachers_of t i) as -> by (by rewrite Hsame).
  assert (title_of t' row = title_of t row) as -> by (by rewrite Hsame).
  set (x := expand _ _ _ (starts_of t' i) _ _).
  destruct (_ <? _); [done|]. destruct (archived t i); [done|]. do 2 (destruct (bool_decide _); [done|]).
  destruct (teachers_of t i) as [|by_ ts]; [done|]. destruct (_ <? _); [done|]. intros [= <-].
  set (hs := holidays_in t from to) in *. set (fb := fallback_topic (title_of t row)) in *.
  assert (∀ p, p ∈ asked (week_of t i row) hs off (days_between first last) →
    l_starts (lesson fb off p.1 p.2) ∈ starts_of t' i) as Hall.
  { intros p Hp. apply elem_of_starts, Htaken. right. apply (due_asked _ _ _ _ _ _ _ _ _ Hf Hl). by exists p. }
  destruct (expand_comprehension (week_of t i row) fb hs (starts_of t' i) off (days_between first last)) as (Hr & Hb & Hs).
  destruct (expand_comprehension (week_of t i row) fb hs (starts_of t i) off (days_between first last)) as (Hr0 & Hb0 & Hs0).
  fold x in Hr, Hb, Hs. simpl. clear Hx Hdays.
  assert (x_rows x = []) as Hnil by (rewrite Hr, filter_none by (intros p Hp Hno; by apply Hno, Hall); done).
  exists x. rewrite Hnil. split_and!; [done|done|by rewrite Hb, Hb0|].
  rewrite Hs, Hs0, Hr0, length_fmap, <- Nat2Z.inj_add. f_equal.
  rewrite <- filter_parts by done.
  rewrite (filter_parts (λ p, l_starts (lesson fb off p.1 p.2) ∈ starts_of t' i)
    (λ p, l_starts (lesson fb off p.1 p.2) ∉ starts_of t' i) (asked _ _ _ _)) by done.
  rewrite (filter_none (λ p, l_starts (lesson fb off p.1 p.2) ∉ starts_of t' i)); [simpl; lia|].
  intros p Hp Hno. by apply Hno, Hall.
Qed.

(** Run again over the same range, the generator writes nothing: it answers
    no lesson created and none wanted, and every instant the first run found
    taken or asked for is counted as already standing. *)
Theorem materialize_twice_is_once i row from to off w :
  undisturbed w →
  leads (materialize i row from to true off) w (λ r t', ∀ out, r = Ok out →
    ∀ w1, undisturbed w1 → w_db w1 = t' →
    leads (materialize i row from to true off) w1 (λ r' t'', t'' = t' ∧ ∃ again, r' = Ok again
      ∧ created again = [] ∧ candidates again = 0 ∧ blocked again = blocked out
      ∧ skipped_existing again = skipped_existing out + candidates out)).
Proof.
  intros Hw. eapply leads_weaken; [by apply materialize_answers|]. unfold answers. intros r t' Ha out -> w1 Hw1 <-.
  destruct (planned (w_db w) i row from to off) as [a|e] eqn:Hp; [|by destruct Ha as [[=] _]].
  destruct Ha as (ids & Hids & Ha).
  destruct (insert_many_tx ids (w_db w)) as [[made t1]|e] eqn:Hi; destruct Ha as [[=] Ht1]; subst out t1.
  apply insert_many_lands in Hi as (Hsame & _ & _ & Htaken & _).
  destruct (planned_again (w_db w) (w_db w1) i row from to off a Hp Hsame) as (x & Hp1 & Hnil & Hblk & Hsk).
  { intros at_. rewrite Htaken, (rows_due _ _ _ _ _ _ _ _ _ Hp Hids).
    destruct (decide (taken_at (sessions (w_db w)) i at_)); naive_solver. }
  eapply leads_weaken; [by apply materialize_answers|]. unfold answers. rewrite Hp1. intros r t (ids1 & Hids1 & Hr).
  unfold rows_for in Hids1. simpl in Hids1. rewrite Hnil in Hids1. apply fmap_nil_inv in Hids1. subst ids1.
  destruct Hr as [-> ->]. split; [done|]. eexists. split; [done|]. simpl. rewrite Hnil, Hblk, Hsk. done.
Qed.
End Alone.
