(* ===== verification/TimetableRoutes.v ===== *)
(** * The timetable's requests ([src/web/weekly_plan.rs],
    [src/web/sessions.rs], [src/web/instances.rs], [src/web/holidays.rs],
    [src/service/class_course.rs], [src/service/session_attendance.rs],
    [src/db/session_attendance.rs])

    Who may change a section's week, its lessons and its roll call, what each
    request checks before it writes, and the roll call with the two counters
    it moves. A caller is the account the session cookie named, as it was read
    when the request came in. *)

From S2P Require Import Prelude Text Errors Effects Uuid Validate Modules Gates Badges Timetable.

Open Scope Z_scope.

Definition MAX_ZONE_OFFSET_MINUTES : Z := 3 * 60.

(** ** Gates *)

Definition instance_or_404 (i : uuid) : io Tables Instance :=
  row ← atomic (gets (λ t, instances t !! i));
  lift (ok_or row NotFound).
Definition offering_or_404 (o : uuid) : io Tables () :=
  row ← atomic (gets (λ t, offerings t !! o));
  lift (_ ← ok_or row NotFound; Ok ()).

(** The homeroom teacher of a class, if the class is there. *)
Definition homeroom_of (t : Tables) (c : uuid) : option uuid := mjoin (homeroom (school t) !! c).

Definition ensure_instance_teacher (u : User) (i : uuid) : io Tables () :=
  if at_least (get_role u) Manager then mret () else
  class ← atomic (gets (λ t, i_class <$> instances t !! i));
  class ← lift (ok_or class NotFound);
  let refused := Forbidden "only this instance's teachers, its class's homeroom teacher, or a manager may act here" in
  if negb (at_least (get_role u) Teacher) then raise refused else
  teaches ← atomic (gets (λ t, bool_decide (uid u ∈ teachers_of t i)));
  if teaches : bool then mret () else
  room ← atomic (gets (λ t, homeroom_of t class));
  if bool_decide (room = Some (uid u)) then mret () else raise refused.

(** Any refusal, a failed read included, reads as no. *)
Definition can_manage_instance (u : User) (i : uuid) : io Tables bool :=
  r ← attempt (ensure_instance_teacher u i);
  mret (is_ok r).

(** ** The weekly plan ([src/web/weekly_plan.rs]) *)

Record CreateSlot := MkCreateSlot { req_weekday : Z; req_starts : Z; req_ends : Z; req_topic : option str }.

Definition parse_slot (req : CreateSlot) : io Tables (Z * Z * Z * option str) :=
  day ← checked (weekday_new (req_weekday req));
  starts ← checked (slot_minute_new (req_starts req));
  ends ← checked (slot_minute_new (req_ends req));
  topic_ ← checked_opt session_topic_try_new (req_topic req);
  mret (day, starts, ends, topic_).

Definition add_offering_slot (u : User) (o : uuid) (req : CreateSlot) : io Tables WeeklySlot :=
  _ ← lift (require_manager u);
  _ ← offering_or_404 o;
  '(day, starts, ends, topic_) ← parse_slot req;
  add_for_offering o day starts ends topic_.

Definition remove_offering_slot (u : User) (o slot : uuid) : io Tables () :=
  _ ← lift (require_manager u);
  _ ← offering_or_404 o;
  remove_for_offering o slot.

(** What every write on a section passes first. *)
Definition open_instance (u : User) (i : uuid) : io Tables () :=
  _ ← lift (require_teacher u);
  _ ← instance_or_404 i;
  _ ← ensure_instance_teacher u i;
  require_open i.

Definition add_instance_slot (u : User) (i : uuid) (req : CreateSlot) : io Tables WeeklySlot :=
  _ ← open_instance u i;
  '(day, starts, ends, topic_) ← parse_slot req;
  add_for_class i day starts ends topic_.

Definition remove_instance_slot (u : User) (i slot : uuid) : io Tables () :=
  _ ← open_instance u i;
  remove_for_class i slot.

Definition reset_instance_weekly_plan (u : User) (i : uuid) : io Tables () :=
  _ ← open_instance u i;
  reset_for_class i.

Section Materialize.
Context `{Dates}.

(** Shifted by the widest offset, the instant still has a date. *)
Definition representable (field : string) (millis : Z) : result AppError () :=
  let shifted := millis + MAX_ZONE_OFFSET_MINUTES * 60000 in
  if bool_decide (i64_wrap shifted = shifted) && bool_decide (is_Some (date_of_millis shifted)) then Ok ()
  else Err (Validation (Invalid field "is outside the representable calendar range")).

Definition materialize_weekly_plan (u : User) (i : uuid) (from to : Z) (apply_ : bool)
    : io Tables MaterializeOutcome :=
  _ ← lift (require_teacher u);
  row ← instance_or_404 i;
  _ ← ensure_instance_teacher u i;
  _ ← lift (representable "from" from);
  _ ← lift (representable "to" to);
  _ ← lift (check_time_range (Some from) (Some to));
  _ ← check_not_past "from" (Some from);
  zone ← atomic (gets (λ t, timezone (school t)));
  materialize i row from to apply_ (zone_offset_minutes zone).
End Materialize.

(** ** Holidays ([src/web/holidays.rs]) *)

Definition declare_holiday (u : User) (name kind : str) (from to : Z) : io Tables (uuid * Holiday) :=
  _ ← lift (require_manager u);
  name ← checked (holiday_name_try_new name);
  kind ← checked (holiday_kind_try_new kind);
  _ ← lift (check_time_range (Some from) (Some to));
  create_holiday name from to kind (uid u).

Definition patch_holiday (u : User) (i : uuid) (name kind : option str) (from to : option Z)
    : io Tables Holiday :=
  _ ← lift (require_manager u);
  name ← checked_opt holiday_name_try_new name;
  kind ← checked_opt holiday_kind_try_new kind;
  _ ← lift (check_time_range from to);
  update_holiday i name from to kind.

Definition drop_holiday (u : User) (i : uuid) : io Tables () :=
  _ ← lift (require_manager u);
  _ ← delete_holiday i;
  mret ().

(** ** Lessons ([src/web/sessions.rs], [src/web/instances.rs]) *)

Section Lessons.
Context `{UuidText}.

Definition resolve_session_teacher (teacher_id : option str) (caller : User) : io Tables User :=
  match teacher_id with
  | None => mret caller
  | Some key =>
      if bool_decide (key = uuid_text (uid caller)) then mret caller else
      let target := uuid_from_key key in
      user ← atomic (gets (λ t, accounts t !! target));
      match user with
      | None => raise (Validation (Invalid "teacher_id" "session teacher does not exist"))
      | Some a =>
          if negb (at_least (role a) Teacher)
          then raise (Validation (Invalid "teacher_id" "session teacher must hold the teacher role or higher"))
          else mret (MkUser target (role a))
      end
  end.

Definition create_session_in_instance (u : User) (i : uuid) (topic_ teacher_id : option str) (from : Z)
    (to : option Z) : io Tables (uuid * Session) :=
  _ ← open_instance u i;
  topic_ ← checked (session_topic_try_new (default [] topic_));
  by_ ← resolve_session_teacher teacher_id u;
  _ ← check_not_past "starts_at" (Some from);
  _ ← check_not_past "ends_at" to;
  _ ← lift (check_time_range (Some from) to);
  create_session i (uid by_) topic_ from to.

Definition session_with_instance (s : uuid) : io Tables (Session * Instance) :=
  session ← atomic (gets (λ t, sessions t !! s));
  session ← lift (ok_or session NotFound);
  row ← atomic (gets (λ t, instances t !! class_course session));
  row ← lift (ok_or row NotFound);
  mret (session, row).

(** The route's [update_session]; [to] is [None] when omitted, [Some None] to
    clear. *)
Definition patch_session (u : User) (s : uuid) (topic_ teacher_id : option str) (from : option Z)
    (to : option (option Z)) : io Tables Session :=
  _ ← lift (require_teacher u);
  _ ← check_not_past "starts_at" from;
  _ ← match to with Some e => check_not_past "ends_at" e | None => mret () end;
  '(session, _) ← session_with_instance s;
  manages ← can_manage_instance u (class_course session);
  if negb manages
  then raise (Forbidden "only the instance's teachers, its şube's homeroom teacher, or a manager/admin can edit this session")
  else
  _ ← require_open (class_course session);
  topic_ ← checked_opt session_topic_try_new topic_;
  by_ ← match teacher_id with
        | Some key => x ← resolve_session_teacher (Some key) u; mret (Some (uid x))
        | None => mret None
        end;
  _ ← lift (check_time_range (Some (default (starts_at session) from)) (default (ends_at session) to));
  update_session s by_ topic_ from to.

Definition drop_session (u : User) (s : uuid) : io Tables () :=
  _ ← lift (require_teacher u);
  '(session, _) ← session_with_instance s;
  manages ← can_manage_instance u (class_course session);
  if negb manages
  then raise (Forbidden "only the instance's teachers, its şube's homeroom teacher, or a manager/admin can delete this session")
  else
  _ ← require_open (class_course session);
  _ ← delete_session s;
  mret ().
End Lessons.

(** ** The roll call ([src/db/session_attendance.rs],
    [src/service/session_attendance.rs]) *)

Definition counts_as_attended (status : str) : bool :=
  bool_decide (status = lit "present") || bool_decide (status = lit "late").

(** [GREATEST(lessons_attended_total + d, 0)]. *)
Definition add_attended (d : Z) (a : Account) : Account :=
  let s := stats a in
  MkAccount (role a) (MkStats (homework_submitted s) (homework_on_time s) (exam_sat s) (pomodoro_finished s)
    (pomodoro_focus_ms s) (marks_given s) (lessons_held s) (pool_approved s) (pool_published s)
    (Z.max (lessons_attended s + d) 0) (high_mark s) (study_streak s)).
(** [lessons_held_total + 1]. *)
Definition add_held (a : Account) : Account :=
  let s := stats a in
  MkAccount (role a) (MkStats (homework_submitted s) (homework_on_time s) (exam_sat s) (pomodoro_finished s)
    (pomodoro_focus_ms s) (marks_given s) (lessons_held s + 1) (pool_approved s) (pool_published s)
    (lessons_attended s) (high_mark s) (study_streak s)).

Definition is_student (t : Tables) (u : uuid) : bool :=
  match accounts t !! u with Some a => bool_decide (role a = Student) | None => false end.

Definition stamp (at_ : Z) (s : Session) : Session :=
  MkSession (class_course s) (teacher s) (topic s) (starts_at s) (ends_at s) (Some at_).

(** The locks and reads of [mark]: the session row, held to the end, and the
    status the pair had. *)
Definition mark_reads (s u : uuid) : tx Tables (option str) := λ t,
  match sessions t !! s with
  | None => Err NotFound
  | Some _ => Ok (r_status <$> roll_call t !! (s, u), t)
  end.

(** Its writes: the upsert, the attended counter on a crossing, the stamp and
    the held counter once the lesson has begun. *)
Definition mark_writes (s u : uuid) (status : str) (by_ : uuid) (t_now : Z) (was : option str)
    : tx Tables RollCallRow := λ t,
  match sessions t !! s with
  | None => Err NotFound
  | Some sess =>
      if negb (bool_decide (is_Some (accounts t !! u)) && bool_decide (is_Some (accounts t !! by_)))
      then Err fk_violation else
      let attended := counts_as_attended status in
      let i := match roll_call t !! (s, u) with Some r => r_instance r | None => class_course sess end in
      let row := MkRow i status by_ t_now in
      let t1 := set_roll_call <[(s, u) := row]> t in
      let was_attended := match was with Some w => counts_as_attended w | None => false end in
      let t2 := if is_student t u && negb (Bool.eqb was_attended attended)
                then set_accounts (alter (add_attended (if attended then 1 else -1)) u) t1 else t1 in
      let t3 := if bool_decide (held_counted_at sess = None) && (starts_at sess <=? t_now)
                then set_accounts (alter add_held (teacher sess)) (set_sessions (alter (stamp t_now) s) t2)
                else t2 in
      Ok (row, t3)
  end.

(** [mark]: the pair's old status is read without a lock of its own, a
    statement before the upsert. *)
Definition mark_row (s u : uuid) (status : str) (by_ : uuid) : io Tables RollCallRow :=
  t_now ← now;
  was ← atomic (mark_reads s u);
  atomic (mark_writes s u status by_ t_now was).

(** [remove]: the row is locked from its read on. *)
Definition remove_row (s u : uuid) : io Tables (option RollCallRow) :=
  atomic (λ t, match roll_call t !! (s, u) with
    | None => Ok (None, t)
    | Some gone =>
        let t1 := if counts_as_attended (r_status gone) && is_student t u
                  then set_accounts (alter (add_attended (-1)) u) t else t in
        Ok (Some gone, set_roll_call (delete (s, u)) t1)
    end).

Definition mark (s : uuid) (session : Session) (marker : User) (target : uuid) (status : str)
    : io Tables (RollCallRow * User) :=
  user ← atomic (gets (λ t, accounts t !! target));
  match user with
  | None => raise (Validation (Invalid "user_id" "target user does not exist"))
  | Some a =>
      _ ← (if bool_decide (teacher session = target) then
             if negb (at_least (get_role marker) Manager)
             then raise (Forbidden "marking the session's teacher requires manager role or higher") else mret ()
           else
             if negb (bool_decide (role a = Student))
             then raise (Validation (Invalid "user_id" "only students can be marked present in a lesson")) else
             on_roster ← atomic (gets (λ t, bool_decide ((class_course session, target) ∈ enrolled (school t))));
             if on_roster : bool then mret ()
             else raise (Validation (Invalid "user_id" "target user is not enrolled in this course")));
      row ← mark_row s target status (uid marker);
      _ ← for_each [target; teacher session] (λ who, _ ← attempt (sync who); mret ());
      mret (row, MkUser target (role a))
  end.

Definition remove (s : uuid) (remover : User) (target : uuid) : io Tables RollCallRow :=
  user ← atomic (gets (λ t, accounts t !! target));
  let staff_row := match user with Some a => at_least (role a) Teacher | None => false end in
  if staff_row && negb (at_least (get_role remover) Manager)
  then raise (Forbidden "removing a staff roll-call row requires manager role or higher") else
  gone ← remove_row s target;
  lift (ok_or gone NotFound).

(** The routes ([src/web/sessions.rs]). *)
Definition is_live_session_teacher (session : Session) (u : User) : bool :=
  at_least (get_role u) Teacher && bool_decide (teacher session = uid u).

Definition can_roll_call (session : Session) (u : User) : io Tables bool :=
  if is_live_session_teacher session u then mret true else can_manage_instance u (class_course session).

Definition roll_call_door (u : User) (s : uuid) : io Tables Session :=
  _ ← lift (require_teacher u);
  '(session, _) ← session_with_instance s;
  may ← can_roll_call session u;
  if negb may then raise (Forbidden "only the session's teacher or a manager of its instance can take roll call") else
  _ ← require_open (class_course session);
  mret session.

Definition mark_roll_call (u : User) (s : uuid) (status : str) (target : uuid) : io Tables (RollCallRow * User) :=
  session ← roll_call_door u s;
  allowed ← atomic (gets (λ t, attendance_statuses (school t)));
  status ← checked (attendance_status_try_new status allowed);
  mark s session u target status.

Definition remove_roll_call (u : User) (s target : uuid) : io Tables () :=
  _ ← roll_call_door u s;
  _ ← remove s u target;
  mret ().
