(* ===== verification/LessonProofs.v ===== *)
(** * What the timetable's requests keep

    Over [TimetableRoutes]: whatever is interleaved, every request keeps the
    weeks, the lessons and the roll call well-formed; what taking and clearing
    a roll call does to the two counters, exactly; and the race in which a
    correction loses a lesson attended. *)

From S2P Require Import Prelude Text Errors Effects Uuid Validate Modules Gates Badges Timetable TimetableProofs TimetableRoutes.

Open Scope Z_scope.

Implicit Types (t : Tables) (s u : uuid).

(** ** Every request keeps the timetable *)

Section Keeping.
Context `{Dates, UuidText}.

Abbreviation fine := (keeps timetable_ok).

(** One step of a handler, whose answer does not matter. *)
Ltac step_on := apply keeps_bind; [solve [keeps_walk]|intros ?].
Ltac past H := apply keeps_bind; [apply H|intros ?].

Lemma sound_fine {A} (m : io Tables A) : outline timetable_ok whatever whatever (λ _, True) m anything → fine m.
Proof.
  intros Hm w Hst Hok. specialize (Hm w). destruct (m w) as [r w'].
  destruct Hm as (? & _ & ? & _); [intros n t Ht; split; [by apply Hst|done]|done..].
Qed.

Lemma materialize_fine i row from to ap off : fine (materialize i row from to ap off).
Proof. apply sound_fine, materialize_sound. Qed.
Lemma require_open_fine i : fine (require_open i).
Proof. apply sound_fine, require_open_sound. Qed.

Lemma ensure_fine (v : User) i : fine (ensure_instance_teacher v i).
Proof. unfold ensure_instance_teacher. cbv zeta. keeps_walk. Qed.

Lemma can_manage_fine (v : User) i : fine (can_manage_instance v i).
Proof. apply keeps_bind; [apply keeps_attempt, ensure_fine|]. intros; apply keeps_ret. Qed.

Lemma open_instance_fine (v : User) i : fine (open_instance v i).
Proof.
  unfold open_instance, instance_or_404. keeps_walk; [apply ensure_fine|apply require_open_fine].
Qed.

Lemma checked_fine {A} (r : result ValidationError A) : fine (checked r).
Proof. apply keeps_lift. Qed.
Lemma checked_opt_fine {A B} (f : A → result ValidationError B) x : fine (checked_opt f x).
Proof. unfold checked_opt, checked. keeps_walk. Qed.
Lemma check_not_past_fine f v : fine (check_not_past f v).
Proof. unfold check_not_past. keeps_walk. Qed.

(** [parse_slot] reads nothing, and what it answers is a slot of one day. *)
Lemma parse_slot_pure req :
  ∃ r, (∀ w, parse_slot req w = (r, w)) ∧ match r with Ok (d, a, b, _) => parsed d a b | Err _ => True end.
Proof.
  unfold parse_slot, checked, checked_opt, weekday_new, slot_minute_new, parsed.
  destruct (in_range 1 7 _) eqn:Hd; [|by eexists]. destruct (in_range _ _ (req_starts req)) eqn:Ha; [|by eexists].
  destruct (in_range _ _ (req_ends req)) eqn:Hb; [|by eexists]. rewrite in_range_spec in Hd, Ha, Hb.
  destruct (req_topic req) as [x|]; [destruct (session_topic_try_new x)|]; eexists; (split; [done|]); done.
Qed.

Lemma parse_slot_bind {B} req (k : Z * Z * Z * option str → io Tables B) :
  (∀ d a b tp, parsed d a b → fine (k (d, a, b, tp))) → fine (parse_slot req ≫= k).
Proof.
  intros Hk. destruct (parse_slot_pure req) as (r & Hr & Hp). intros w Hst Hok.
  unfold mbind, io_bind. rewrite Hr. destruct r as [[[[d a] b] tp]|e]; [by apply Hk|done].
Qed.

Lemma offering_slot_fine (v : User) o req : fine (add_offering_slot v o req).
Proof.
  unfold add_offering_slot, offering_or_404. do 2 step_on. apply parse_slot_bind. intros. by apply add_for_offering_keeps.
Qed.

Lemma instance_slot_fine (v : User) i req : fine (add_instance_slot v i req).
Proof.
  unfold add_instance_slot. apply keeps_bind; [apply open_instance_fine|]. intros _.
  apply parse_slot_bind. intros. by apply add_for_class_keeps.
Qed.

Lemma range_ordered e x : check_time_range (Some x) (Some e) = Ok () → x ≤ e.
Proof. simpl. case_match; [done|lia]. Qed.

Lemma declare_holiday_fine (v : User) n k a b : fine (declare_holiday v n k a b).
Proof.
  unfold declare_holiday, checked. do 3 step_on. apply keeps_lift_bind. intros [] Hr.
  apply create_holiday_keeps. by apply range_ordered.
Qed.

Lemma patch_holiday_fine (v : User) i n k a b : fine (patch_holiday v i n k a b).
Proof.
  unfold patch_holiday. keeps_walk; [apply checked_opt_fine..|]. apply update_holiday_keeps.
Qed.

Lemma resolve_fine key (v : User) : fine (resolve_session_teacher key v).
Proof. unfold resolve_session_teacher. keeps_walk. Qed.

Lemma create_session_fine (v : User) i tp key a b : fine (create_session_in_instance v i tp key a b).
Proof.
  unfold create_session_in_instance, checked. past open_instance_fine. step_on. past resolve_fine.
  do 2 past check_not_past_fine. apply keeps_lift_bind. intros [] Hr. apply create_session_keeps. intros e ->. by apply range_ordered.
Qed.

Lemma session_with_fine s : fine (session_with_instance s).
Proof. unfold session_with_instance. keeps_walk. Qed.

Lemma patch_session_fine (v : User) s tp key a b : fine (patch_session v s tp key a b).
Proof.
  unfold patch_session. keeps_walk;
    solve [apply check_not_past_fine|apply session_with_fine|apply can_manage_fine|apply require_open_fine
          |apply checked_opt_fine|apply resolve_fine|apply update_session_keeps].
Qed.

Lemma drop_session_fine (v : User) s : fine (drop_session v s).
Proof.
  unfold drop_session. keeps_walk;
    solve [apply session_with_fine|apply can_manage_fine|apply require_open_fine|apply delete_session_keeps].
Qed.

(** ** The roll call *)

Lemma ok_set_accounts f t : timetable_ok t → timetable_ok (set_accounts f t).
Proof. intros []. by split. Qed.
Lemma ok_set_awards a t : timetable_ok t → timetable_ok (set_awards a t).
Proof. intros []. by split. Qed.

Lemma ok_row s v r t :
  is_Some (sessions t !! s) → timetable_ok t → timetable_ok (set_roll_call <[(s, v) := r]> t).
Proof. intros Hs []. split; simpl; try done. by apply map_Forall_insert_2. Qed.

Lemma ok_rows_sub f t :
  (∀ m : gmap (uuid * uuid) RollCallRow, f m ⊆ m) → timetable_ok t → timetable_ok (set_roll_call f t).
Proof.
  intros Hf [? ? ? ? ? Hrows]. split; simpl; try done. intros k r Hr. eapply Hrows. by eapply lookup_weaken.
Qed.

Lemma ok_stamp at_ s t : timetable_ok t → timetable_ok (set_sessions (alter (stamp at_) s) t).
Proof.
  assert (∀ u x, alter (stamp at_) s (sessions t) !! u = Some x →
    ∃ y, sessions t !! u = Some y ∧ class_course x = class_course y ∧ starts_at x = starts_at y ∧ ends_at x = ends_at y) as Hsame.
  { intros u x. rewrite lookup_alter. destruct (decide (s = u)) as [->|]; [|eauto]. intros (y & Hy & ->)%fmap_Some. eauto. }
  intros Hok. apply ok_sessions; [..|done]; intros Hss.
  - intros u v a b (a' & Ha & -> & -> & _)%Hsame (b' & Hb & -> & -> & _)%Hsame. by apply Hss.
  - intros u x (y & Hy & _ & Hst & He)%Hsame. specialize (Hss u y Hy). simpl in *. by rewrite Hst, He.
  - rewrite lookup_alter. destruct (decide (s = Hss)) as [->|]; [|done]. intros [x ->]. by eexists.
Qed.

Lemma mark_writes_keeps s v st by_ t_now was : tx_keeps timetable_ok (mark_writes s v st by_ t_now was).
Proof.
  intros t r t' Hok. unfold mark_writes. destruct (sessions t !! s) as [sess|] eqn:Hs; [|done].
  destruct (negb _); [done|]. cbv zeta. intros [= <- <-].
  assert (timetable_ok (set_roll_call <[(s, v) := MkRow (match roll_call t !! (s, v) with
    | Some r => r_instance r | None => class_course sess end) st by_ t_now]> t)) as H1 by (apply ok_row; eauto).
  destruct (is_student t v && _), (bool_decide _ && _); eauto using ok_set_accounts, ok_stamp.
Qed.

Lemma sync_fine who : fine (sync who).
Proof.
  apply keeps_bind; [apply keeps_atomic, tx_keeps_gets|]. intros st. case_match; [apply keeps_ret|].
  keeps_walk. intros t q t' Hok. unfold award. case_match; [by intros [= _ <-]|]. case_match; [|done].
  intros [= _ <-]. by apply ok_set_awards.
Qed.

Lemma mark_fine s sess (v : User) target st : fine (mark s sess v target st).
Proof.
  unfold mark. step_on. destruct a as [a|]; [|apply keeps_raise].
  apply keeps_bind; [keeps_walk|intros _]. apply keeps_bind.
  - unfold mark_row. keeps_walk; [|apply mark_writes_keeps]. intros t r t' Hok. unfold mark_reads.
    case_match; [|done]. by intros [= _ <-].
  - intros row. apply keeps_bind; [|intros; apply keeps_ret]. apply keeps_for_each. intros who.
    apply keeps_bind; [apply keeps_attempt, sync_fine|intros; apply keeps_ret].
Qed.

Lemma remove_fine s (v : User) target : fine (remove s v target).
Proof.
  unfold remove. step_on. cbv zeta. case_match; [apply keeps_raise|]. apply keeps_bind; [|intros; apply keeps_lift].
  apply keeps_atomic. intros t r t' Hok. destruct (roll_call t !! _) as [gone|]; cbv zeta; intros [= <- <-]; [|done].
  apply ok_rows_sub; [intros; apply delete_subseteq|]. destruct (counts_as_attended _ && _); [by apply ok_set_accounts|done].
Qed.

Lemma door_fine (v : User) s : fine (roll_call_door v s).
Proof.
  unfold roll_call_door, can_roll_call. keeps_walk;
    solve [apply session_with_fine|apply can_manage_fine|apply require_open_fine].
Qed.
End Keeping.

(** ** The requests *)

Inductive TimetableCall :=
  | AddOfferingSlot (o : uuid) (req : CreateSlot)
  | RemoveOfferingSlot (o slot : uuid)
  | AddInstanceSlot (i : uuid) (req : CreateSlot)
  | RemoveInstanceSlot (i slot : uuid)
  | ResetWeek (i : uuid)
  | Materialize (i : uuid) (from to : Z) (apply_ : bool)
  | DeclareHoliday (name kind : str) (from to : Z)
  | PatchHoliday (h : uuid) (name kind : option str) (from to : option Z)
  | DropHoliday (h : uuid)
  | CreateSession (i : uuid) (topic_ teacher_id : option str) (from : Z) (to : option Z)
  | PatchSession (s : uuid) (topic_ teacher_id : option str) (from : option Z) (to : option (option Z))
  | DropSession (s : uuid)
  | MarkRollCall (s : uuid) (status : str) (target : uuid)
  | RemoveRollCall (s target : uuid).

Section Serving.
Context `{Dates, UuidText}.

Definition forget {A} (m : io Tables A) : io Tables () := _ ← m; mret ().

Definition serve (v : User) (c : TimetableCall) : io Tables () :=
  match c with
  | AddOfferingSlot o req => forget (add_offering_slot v o req)
  | RemoveOfferingSlot o slot => remove_offering_slot v o slot
  | AddInstanceSlot i req => forget (add_instance_slot v i req)
  | RemoveInstanceSlot i slot => remove_instance_slot v i slot
  | ResetWeek i => reset_instance_weekly_plan v i
  | Materialize i from to ap => forget (materialize_weekly_plan v i from to ap)
  | DeclareHoliday n k a b => forget (declare_holiday v n k a b)
  | PatchHoliday h n k a b => forget (patch_holiday v h n k a b)
  | DropHoliday h => drop_holiday v h
  | CreateSession i tp key a b => forget (create_session_in_instance v i tp key a b)
  | PatchSession s tp key a b => forget (patch_session v s tp key a b)
  | DropSession s => drop_session v s
  | MarkRollCall s st who => forget (mark_roll_call v s st who)
  | RemoveRollCall s who => remove_roll_call v s who
  end.

Lemma forget_fine {A} (m : io Tables A) : keeps timetable_ok m → keeps timetable_ok (forget m).
Proof. intros Hm. apply keeps_bind; [done|]. intros; apply keeps_ret. Qed.

(** C23. Whoever calls, with whatever arguments, and whatever the others commit
    in between as long as they keep it too: every request of the timetable keeps
    the weeks free of overlaps and within their size, a section without two
    lessons at one instant, lessons and holidays ordered, and every roll-call
    row on a lesson that stands. *)
Theorem timetable_keeps v c : keeps timetable_ok (serve v c).
Proof.
  destruct c; simpl; try apply forget_fine.
  - apply offering_slot_fine.
  - unfold remove_offering_slot, offering_or_404. keeps_walk. apply remove_for_offering_keeps.
  - apply instance_slot_fine.
  - apply keeps_bind; [apply open_instance_fine|]. intros. apply remove_for_class_keeps.
  - apply keeps_bind; [apply open_instance_fine|]. intros. apply reset_for_class_keeps.
  - unfold materialize_weekly_plan, instance_or_404. keeps_walk;
      [apply ensure_fine|apply check_not_past_fine|apply materialize_fine].
  - apply declare_holiday_fine.
  - apply patch_holiday_fine.
  - unfold drop_holiday. keeps_walk. apply delete_holiday_keeps.
  - apply create_session_fine.
  - apply patch_session_fine.
  - apply drop_session_fine.
  - apply keeps_bind; [apply door_fine|]. intros session. unfold checked. keeps_walk. apply mark_fine.
  - apply keeps_bind; [apply door_fine|]. intros session. keeps_walk. apply remove_fine.
Qed.
End Serving.

(** ** What a mark does, exactly *)

Definition attended_of t v : Z := lessons_attended (default no_stats (stats_of t v)).
Definition held_of t v : Z := lessons_held (default no_stats (stats_of t v)).

(** +1 when the new status crosses into attended, -1 when it crosses out. *)
Definition crossing (was : option str) (status : str) : Z :=
  Z.b2z (counts_as_attended status) - Z.b2z (match was with Some x => counts_as_attended x | None => false end).

(** The lesson has begun and nobody was credited for it yet. *)
Definition credits (sess : Session) (t_now : Z) : bool :=
  bool_decide (held_counted_at sess = None) && (starts_at sess <=? t_now).

Lemma attended_alter f t v x :
  attended_of (set_accounts (alter f v) t) x =
    match accounts t !! x with
    | Some a => lessons_attended (stats (if bool_decide (x = v) then f a else a))
    | None => 0
    end.
Proof.
  unfold attended_of. simpl. rewrite lookup_alter. destruct (decide (v = x)) as [->|Hne].
  - rewrite bool_decide_true by done. by destruct (accounts t !! x).
  - rewrite bool_decide_false by done. by destruct (accounts t !! x).
Qed.

Lemma held_alter f t v x :
  held_of (set_accounts (alter f v) t) x =
    match accounts t !! x with
    | Some a => lessons_held (stats (if bool_decide (x = v) then f a else a))
    | None => 0
    end.
Proof.
  unfold held_of. simpl. rewrite lookup_alter. destruct (decide (v = x)) as [->|Hne].
  - rewrite bool_decide_true by done. by destruct (accounts t !! x).
  - rewrite bool_decide_false by done. by destruct (accounts t !! x).
Qed.

Lemma attended_def t x : attended_of t x = match accounts t !! x with Some a => lessons_attended (stats a) | None => 0 end.
Proof. unfold attended_of. simpl. by destruct (accounts t !! x). Qed.
Lemma held_def t x : held_of t x = match accounts t !! x with Some a => lessons_held (stats a) | None => 0 end.
Proof. unfold held_of. simpl. by destruct (accounts t !! x). Qed.

(** The two counters do not touch each other. *)
Lemma attend_step d v t x :
  attended_of (set_accounts (alter (add_attended d) v) t) x =
    (if bool_decide (x = v) && bool_decide (is_Some (accounts t !! x)) then Z.max (attended_of t x + d) 0 else attended_of t x)
  ∧ held_of (set_accounts (alter (add_attended d) v) t) x = held_of t x.
Proof.
  rewrite attended_alter, held_alter, attended_def, held_def.
  destruct (accounts t !! x) as [a|]; simpl; [|by rewrite andb_false_r].
  destruct (bool_decide (x = v)); done.
Qed.

Lemma hold_step v t x :
  attended_of (set_accounts (alter add_held v) t) x = attended_of t x
  ∧ (is_Some (accounts t !! x) →
     held_of (set_accounts (alter add_held v) t) x = held_of t x + Z.b2z (bool_decide (x = v))).
Proof.
  rewrite attended_alter, held_alter, attended_def, held_def.
  destruct (accounts t !! x) as [a|]; [|split; [done|by intros []]]. destruct (bool_decide (x = v)); simpl; split; intros; lia.
Qed.

Lemma student_alter f v t x :
  (∀ a, role (f a) = role a) → is_student (set_accounts (alter f v) t) x = is_student t x.
Proof.
  intros Hf. unfold is_student. simpl. rewrite lookup_alter. destruct (decide (v = x)) as [->|]; [|done].
  destruct (accounts t !! x) as [a|]; simpl; [by rewrite Hf|done].
Qed.

Lemma alter_known (f : Session → Session) (ss : gmap uuid Session) s x :
  ss !! s = Some x → alter f s ss = <[s := f x]> ss.
Proof.
  intros Hx. apply map_eq. intros j. rewrite lookup_alter, lookup_insert.
  destruct (decide (s = j)) as [->|]; [by rewrite Hx|done].
Qed.

Lemma mark_writes_exact s v st by_ t_now was sess t :
  sessions t !! s = Some sess → is_Some (accounts t !! v) → is_Some (accounts t !! by_) →
  ∃ row t', mark_writes s v st by_ t_now was t = Ok (row, t')
    ∧ r_status row = st ∧ roll_call t' = <[(s, v) := row]> (roll_call t)
    ∧ (∀ x, attended_of t' x =
         if bool_decide (x = v) && is_student t v && negb (crossing was st =? 0)
         then Z.max (attended_of t x + crossing was st) 0 else attended_of t x)
    ∧ (∀ x, is_Some (accounts t !! x) →
         held_of t' x = held_of t x + Z.b2z (bool_decide (x = teacher sess) && credits sess t_now))
    ∧ sessions t' = (if credits sess t_now then <[s := stamp t_now sess]> (sessions t) else sessions t)
    ∧ (∀ x, is_student t' x = is_student t x).
Proof.
  intros Hs Hv Hby. unfold mark_writes. rewrite Hs, !bool_decide_true by done. simpl.
  fold (credits sess t_now). set (row := MkRow _ st by_ t_now).
  set (w := match was with Some x => counts_as_attended x | None => false end).
  assert ((crossing was st =? 0) = Bool.eqb w (counts_as_attended st)) as Hz.
  { unfold crossing. fold w. by destruct w, (counts_as_attended st). }
  assert (crossing was st ≠ 0 → crossing was st = if counts_as_attended st then 1 else -1) as Hc.
  { unfold crossing. fold w. by destruct w, (counts_as_attended st). }
  rewrite Hz. eexists row, _. split; [done|]. split; [done|].
  set (t1 := set_roll_call _ t).
  set (t2 := if is_student t v && _ then _ else t1).
  assert (∀ x, attended_of t2 x = (if bool_decide (x = v) && is_student t v && negb (Bool.eqb w (counts_as_attended st))
    then Z.max (attended_of t x + crossing was st) 0 else attended_of t x) ∧ held_of t2 x = held_of t x) as H2.
  { intros x. unfold t2. destruct (is_student t v); simpl; [|by rewrite andb_false_r].
    rewrite andb_true_r. destruct (Bool.eqb w _) eqn:He; simpl; [by rewrite andb_false_r|].
    rewrite andb_true_r. rewrite Hc by lia. destruct (attend_step (if counts_as_attended st then 1 else -1) v t1 x) as [-> ->].
    change (attended_of t1) with (attended_of t). change (accounts t1) with (accounts t).
    destruct (decide (x = v)) as [->|]; [by rewrite !bool_decide_true|by rewrite !(bool_decide_false (x = v))]. }
  assert (roll_call t2 = <[(s, v) := row]> (roll_call t)) as Hr2 by (unfold t2; by destruct (_ && _)).
  assert (sessions t2 = sessions t) as Hs2 by (unfold t2; by destruct (_ && _)).
  assert (∀ x, is_student t2 x = is_student t x) as Hst2.
  { intros x. unfold t2. destruct (_ && _); [|done]. etrans; [by apply student_alter|done]. }
  assert (∀ x, is_Some (accounts t !! x) → is_Some (accounts t2 !! x)) as Ha2.
  { intros x Hx. unfold t2. destruct (_ && _); [|done]. simpl. by apply lookup_alter_is_Some. }
  destruct (credits sess t_now).
  - split_and!; [done| | | |].
    + intros x. destruct (hold_step (teacher sess) (set_sessions (alter (stamp t_now) s) t2) x) as [-> _]. apply H2.
    + intros x Hx. destruct (hold_step (teacher sess) (set_sessions (alter (stamp t_now) s) t2) x) as [_ ->]; [|by apply Ha2].
      change (held_of (set_sessions _ t2)) with (held_of t2). rewrite (proj2 (H2 x)), andb_true_r. done.
    + simpl. rewrite Hs2. by apply alter_known.
    + intros x. rewrite <- Hst2. etrans; [by apply student_alter|done].
  - split_and!; [done|apply H2| |done|done]. intros x _. by rewrite (proj2 (H2 x)), andb_false_r, Z.add_0_r.
Qed.

Definition status_of t s v : option str := r_status <$> roll_call t !! (s, v).

(** What a mark left. *)
Record marked t s v st (sess : Session) t_now (r : result AppError RollCallRow) t' : Prop := {
  md_row : ∃ row, r = Ok row ∧ r_status row = st ∧ roll_call t' = <[(s, v) := row]> (roll_call t);
  md_attended : ∀ x, attended_of t' x =
    if bool_decide (x = v) && is_student t v && negb (crossing (status_of t s v) st =? 0)
    then Z.max (attended_of t x + crossing (status_of t s v) st) 0 else attended_of t x;
  md_held : ∀ x, is_Some (accounts t !! x) →
    held_of t' x = held_of t x + Z.b2z (bool_decide (x = teacher sess) && credits sess t_now);
  md_stamp : sessions t' = if credits sess t_now then <[s := stamp t_now sess]> (sessions t) else sessions t;
  md_student : ∀ x, is_student t' x = is_student t x;
}.

(** C34. Taking roll call, undisturbed: the row holds the new status; the attended
    counter of the person marked moves by one when a student crosses into or out
    of attended and no other counter does; the lesson's teacher is credited, and
    the lesson stamped, exactly when it has begun and was never stamped. And
    withdrawing a student's first mark leaves the roll call and every attended
    counter as they were before it, without taking the teacher's credit back. *)
Theorem roll_call_exact s v st by_ w sess :
  undisturbed w → sessions (w_db w) !! s = Some sess →
  is_Some (accounts (w_db w) !! v) → is_Some (accounts (w_db w) !! by_) →
  let t := w_db w in let at_ := w_clock w (w_step w) in
  leads (mark_row s v st by_) w (marked t s v st sess at_)
  ∧ (is_student t v = true → roll_call t !! (s, v) = None → 0 ≤ attended_of t v →
     leads (_ ← mark_row s v st by_; remove_row s v) w (λ r t', ∃ gone, r = Ok (Some gone)
       ∧ roll_call t' = roll_call t
       ∧ (∀ x, attended_of t' x = attended_of t x)
       ∧ (∀ x, is_Some (accounts t !! x) →
            held_of t' x = held_of t x + Z.b2z (bool_decide (x = teacher sess) && credits sess at_)))).
Proof.
  intros Hw Hs Hv Hby t at_. change (sessions t !! s = Some sess) in Hs.
  assert (leads (mark_row s v st by_) w (marked t s v st sess at_)) as Hmark.
  { unfold leads, mark_row. destruct (mark_writes_exact s v st by_ at_ (status_of t s v) sess t Hs Hv Hby)
      as (row & t' & Hm & Hrow & Hroll & Hatt & Hheld & Hstamp & Hst).
    rewrite now_bind, atomic_bind_alone by done. unfold mark_reads. simpl. fold t. rewrite Hs.
    rewrite atomic_alone by done. simpl. fold (status_of t s v) at_. rewrite Hm. split; [done|]. simpl. split; eauto. }
  split; [done|]. intros Hst Hno Hpos.
  eapply leads_bind; [done|exact Hmark|intros e t' Hmd; by destruct (md_row _ _ _ _ _ _ _ _ Hmd) as (? & [=] & _)|].
  intros row w1 Hw1 [(row' & [= <-] & Hrow & Hroll) Hatt Hheld _ Hst1]. apply leads_atomic; [done|].
  rewrite Hroll, lookup_insert_eq. cbv zeta. exists row. split; [done|].
  rewrite Hst1, Hst, andb_true_r, Hrow. unfold status_of in Hatt. rewrite Hno in Hatt. simpl in Hatt.
  unfold crossing in Hatt. rewrite Z.sub_0_r in Hatt.
  set (t2 := if counts_as_attended st then _ else _).
  assert (roll_call t2 = roll_call (w_db w1)) as Hr2 by (unfold t2; by destruct (counts_as_attended st)).
  assert (∀ x, attended_of t2 x = attended_of t x ∧ held_of t2 x = held_of (w_db w1) x) as H2.
  { intros x. unfold t2. specialize (Hatt x). rewrite Hst, andb_true_r in Hatt. destruct (counts_as_attended st).
    - destruct (attend_step (-1) v (w_db w1) x) as [-> ->]. split; [|done]. rewrite Hatt. simpl.
      destruct (decide (x = v)) as [->|]; [|by rewrite !(bool_decide_false (x = v))].
      assert (is_Some (accounts (w_db w1) !! v)) as Hv1.
      { specialize (Hst1 v). rewrite Hst in Hst1. unfold is_student in Hst1. destruct (accounts (w_db w1) !! v); [eauto|done]. }
      rewrite !bool_decide_true by done. simpl. lia.
    - split; [|done]. rewrite Hatt. by rewrite andb_false_r. }
  split_and!.
  - simpl. rewrite Hr2, Hroll. rewrite delete_insert_eq. by apply delete_id.
  - intros x. apply H2.
  - intros x Hx. transitivity (held_of t2 x); [done|]. rewrite (proj2 (H2 x)). by apply Hheld.
Qed.
