(* ===== verification/TimetableRuns.v ===== *)
(** * Runs of the timetable

    A school small enough to compute with: the lesson the generator puts on a
    holiday it did not load, the week it reads before it takes the lock, the
    lesson attended that a correction loses; and the tables the theorems of
    [MaterializeProofs] and [LessonProofs] are applied to. *)

From S2P Require Import Prelude Text Errors Effects Uuid Validate Modules Gates Badges Timetable TimetableProofs MaterializeProofs TimetableRoutes LessonProofs.

Open Scope Z_scope.

#[local] Existing Instance hyphenated.

(** Days counted from 1970-01-01, a Thursday, without an end. *)
#[local] Program Instance civil : Dates := {|
  date_of_millis m := Some (m / MILLIS_PER_DAY);
  millis_of_date d := d * MILLIS_PER_DAY;
  succ_opt d := Some (d + 1);
  num_days_from_monday d := (d + 3) mod 7;
|}.
Next Obligation.
  intros m d [= <-]. change MILLIS_PER_DAY with 86400000. pose proof (Z.div_mod m 86400000). 
  pose proof (Z.mod_pos_bound m 86400000). lia.
Qed.
Next Obligation. intros d d' [= <-]. lia. Qed.
Next Obligation. eauto. Qed.

(** Monday 2026-09-28 and its hours, in UTC. *)
Definition monday : Z := 20724.
Definition hour (h : Z) : Z := monday * MILLIS_PER_DAY + h * 3600000.

Definition manager : User := MkUser 1%N Manager.
Definition ogretmen : User := MkUser 2%N Teacher.
Definition ogrenci : uuid := 3%N.
Definition section_9a : uuid := 10%N.
Definition maths : uuid := 11%N.

Definition account (r : Role) : Account := MkAccount r no_stats.

(** One section following its offering's week: mathematics, Mondays from nine
    to ten, with one teacher and one student. *)
Definition small_school : Tables :=
  MkTables
    (MkSchool ∅ ∅ {[maths := lit "Matematik"]} ∅ {[(section_9a, uid ogretmen)]} {[(section_9a, ogrenci)]}
       (lit "UTC") [lit "present"; lit "absent"; lit "late"; lit "excused"])
    {[section_9a := MkInstance 20%N maths 12%N None true]}
    {[12%N := None]}
    {[30%N := (12%N, MkSlot 30%N 1 540 600 None)]}
    ∅ ∅ ∅ ∅
    {[uid manager := account Manager; uid ogretmen := account Teacher; ogrenci := account Student]}
    ∅.

(** A request served alone at [at_], drawing ids from 100. *)
Definition alone_at (at_ : Z) (t : Tables) : World Tables := quiet t (λ _, at_) (λ n, N.of_nat (100 + n)).
Definition served {A} (at_ : Z) (m : io Tables A) (t : Tables) : Tables := w_db (snd (m (alone_at at_ t))).
Definition answer {A} (at_ : Z) (m : io Tables A) (t : Tables) : result AppError A := fst (m (alone_at at_ t)).

(** A request served while [other] commits just before its [k]-th effect. *)
Definition raced {A B} (at_ : Z) (k : nat) (other : io Tables B) (m : io Tables A) (t : Tables)
    : result AppError A * Tables :=
  let '(r, w) := m (MkWorld t 0 (λ n s, if bool_decide (n = k) then served at_ other s else s)
                      (λ _, at_) (λ n, N.of_nat (200 + n))) in
  (r, w_db w).

Definition lessons (r : result AppError MaterializeOutcome) : option (list Z * Z) :=
  match r with Ok o => Some (starts_at <$> (created o).*2, skipped_holiday o) | Err _ => None end.

(** A morning without heating: the school is closed from seven to eleven. *)
Definition no_heating : io Tables (uuid * Holiday) :=
  declare_holiday manager (lit "kalorifer arizasi") (lit "idari") (hour 7) (hour 11).

(** The generator loads only the holidays that reach into the instants of the
    range, but fills the whole of its first day. Asked at noon for the rest of a
    Monday whose morning was a holiday, it names no day as blocked and puts a
    lesson at nine: on the holiday, and three hours in the past, where no lesson
    may be scheduled by hand. Asked the day before for the whole Monday it blocks
    the day. *)
Theorem first_day_ignores_its_holiday :
  let t := served (hour 6) no_heating small_school in
  let noon := materialize_weekly_plan ogretmen section_9a (hour 12) (hour 18) true in
  lessons (answer (hour 12) noon t) = Some ([hour 9], 0)
  ∧ answer (hour 12) (create_session_in_instance ogretmen section_9a None None (hour 9) None) t
      = Err (Validation (Invalid "starts_at" "must not be in the past"))
  ∧ lessons (answer (hour (-6)) (materialize_weekly_plan ogretmen section_9a (hour 0) (hour 18) true) t) = Some ([], 1).
Proof. vm_compute. by repeat split. Qed.

(** The section's week is read off the row the request came in with, not under
    the lock: an override that commits in between is not seen, and the lessons of
    a week the section no longer follows are written. *)
Theorem week_read_before_the_lock :
  let tuesday := add_instance_slot ogretmen section_9a (MkCreateSlot 2 540 600 None) in
  let generate := materialize_weekly_plan ogretmen section_9a (hour 0) (hour 47) true in
  let '(r, t) := raced (hour (-6)) 3 tuesday generate small_school in
  lessons r = Some ([hour 9], 0)
  ∧ lessons (answer (hour (-6)) generate (served (hour (-6)) tuesday small_school)) = Some ([hour 33], 0).
Proof. vm_compute. by repeat split. Qed.

(** ** Roll call *)

Definition a_lesson : uuid := 40%N.
Definition with_lesson : Tables := set_sessions (λ _, {[a_lesson := MkSession section_9a (uid ogretmen) (lit "Ders") (hour 9) None None]}) small_school.

Definition mark_as (st : str) : io Tables (RollCallRow * User) := mark_roll_call ogretmen a_lesson st ogrenci.
Definition withdraw : io Tables () := remove_roll_call ogretmen a_lesson ogrenci.

(** What the student's row says, and what the counter says. *)
Definition standing (t : Tables) : option str * Z := (status_of t a_lesson ogrenci, attended_of t ogrenci).

(** A mark sent again while its withdrawal commits between the read of the old
    status and the write of the new: the row stands, present, and the lesson is
    not counted. Neither order of the two requests ends so. *)
Theorem withdrawal_loses_a_lesson :
  let t := served (hour 10) (mark_as (lit "present")) with_lesson in
  standing t = (Some (lit "present"), 1)
  ∧ standing (snd (raced (hour 10) 9 withdraw (mark_as (lit "present")) t)) = (Some (lit "present"), 0)
  ∧ standing (served (hour 10) (mark_as (lit "present")) (served (hour 10) withdraw t)) = (Some (lit "present"), 1)
  ∧ standing (served (hour 10) withdraw (served (hour 10) (mark_as (lit "present")) t)) = (None, 0).
Proof. vm_compute. by repeat split. Qed.

(** ** Applications *)

Definition row_9a : Instance := MkInstance 20%N maths 12%N None true.

Lemma materialize_fills_the_range_witness :
  ∃ r w', materialize section_9a row_9a (hour 0) (hour 18) true 0 (alone_at (hour (-6)) small_school) = (Ok r, w')
    ∧ taken_at (sessions (w_db w')) section_9a (hour 9) ∧ Z.of_nat (length (created r)) ≤ candidates r.
Proof.
  pose proof (materialize_fills_the_range section_9a row_9a (hour 0) (hour 18) 0
    (alone_at (hour (-6)) small_school) (λ _ _, eq_refl)) as H. unfold leads in H.
  destruct (materialize _ _ _ _ _ _ _) as [r w'] eqn:E.
  assert (is_ok r = true) as Hr by (transitivity (is_ok (fst (r, w'))); [done|rewrite <- E; vm_compute; done]).
  destruct r as [out|e]; [|done]. destruct H as (_ & _ & _ & _ & _ & Ht & _ & _ & Hl & _).
  exists out, w'. split; [done|]. split; [|done]. apply Ht. right. 
  exists monday, monday, monday, (MkSlot 30%N 1 540 600 None).
  split; [done|]. split; [done|]. split; [lia|]. split; [|split; [|done]].
  - intros u h Hu. exfalso. revert Hu. simpl. by rewrite lookup_empty.
  - apply elem_of_owned. by exists 30%N.
Defined.

Lemma materialize_twice_is_once_witness :
  ∃ out w1 again, materialize section_9a row_9a (hour 0) (hour 18) true 0 (alone_at (hour (-6)) small_school) = (Ok out, w1)
    ∧ fst (materialize section_9a row_9a (hour 0) (hour 18) true 0 w1) = Ok again
    ∧ created again = [] ∧ skipped_existing again = skipped_existing out + candidates out.
Proof.
  pose proof (materialize_twice_is_once section_9a row_9a (hour 0) (hour 18) 0
    (alone_at (hour (-6)) small_school) (λ _ _, eq_refl)) as H. unfold leads in H.
  destruct (materialize _ _ _ _ _ _ (alone_at _ _)) as [r w1] eqn:E.
  assert (is_ok r = true) as Hr by (transitivity (is_ok (fst (r, w1))); [done|rewrite <- E; vm_compute; done]).
  destruct r as [out|e]; [|done]. destruct H as [Henv H].
  specialize (H out eq_refl w1 ltac:(unfold undisturbed; by rewrite Henv) eq_refl).
  destruct (materialize _ _ _ _ _ _ w1) as [r2 w2] eqn:E2. destruct H as (_ & _ & again & -> & Hc & _ & _ & Hs).
  exists out, w1, again. split; [done|]. split; [by rewrite E2|]. by split.
Defined.

Lemma roll_call_exact_witness :
  let w := alone_at (hour 10) with_lesson in
  let t' := w_db (snd (mark_row a_lesson ogrenci (lit "late") 2%N w)) in
  attended_of t' ogrenci = 1 ∧ held_of t' 2%N = 1
  ∧ w_env (snd ((_ ← mark_row a_lesson ogrenci (lit "late") 2%N; remove_row a_lesson ogrenci) w)) = w_env w.
Proof.
  destruct (roll_call_exact a_lesson ogrenci (lit "late") 2%N (alone_at (hour 10) with_lesson)
    (MkSession section_9a (uid ogretmen) (lit "Ders") (hour 9) None None) (λ _ _, eq_refl) eq_refl
    ltac:(by eexists) ltac:(by eexists)) as [Hm Hr].
  cbv zeta. unfold leads in Hm. destruct (mark_row _ _ _ _ (alone_at _ _)) as [r w'] eqn:E.
  destruct Hm as [_ [_ Ha Hh _ _]]. cbn [snd].
  split; [by rewrite Ha|]. split; [rewrite Hh; [done|by eexists]|].
  specialize (Hr eq_refl eq_refl ltac:(done)). unfold leads in Hr. destruct (_ ≫= _) as [q w2] in Hr |- *. apply Hr.
Defined.
