(* ===== verification/RateLimit.v ===== *)
(** * The rate limiter ([src/rate_limit.rs])

    A fixed-window counter per client, kept in a map of bounded size, and the
    background round that folds what each process admitted into one shared row
    per tier, client and wall window. Instants are nanoseconds of a monotonic
    clock. A [HashMap] iterates in no promised order: [HashOrder] is any order,
    and every operation that iterates takes one. *)

From S2P Require Import Prelude Text Errors Effects Uuid.

Open Scope Z_scope.

(** [count += 1] on a [u32] in a release build. *)
Definition u32_wrapping_add (a b : Z) : Z := (a + b) mod 2 ^ 32.

Definition PURGE_AT : Z := 10000.
Definition RATE_LIMIT_OVERFLOW_MAX : Z := 60000.
Definition RATE_SYNC_MAX_KEYS : Z := 512.

(** One second of the monotonic clock, and the limiter's window of 60. *)
Definition SECOND : Z := 10 ^ 9.
Definition window : Z := 60 * SECOND.

(** [Instant::duration_since], which saturates at zero. *)
Definition duration_since (now earlier : Z) : Z := Z.max 0 (now - earlier).

Record Bucket := MkBucket {
  window_start : Z;
  count : Z;
  pushed : Z;
  remote : Z;
  epoch : option Z;
}.

#[export] Instance Bucket_eq_dec : EqDecision Bucket.
Proof. solve_decision. Defined.

Definition opened_at (now : Z) : Bucket := MkBucket now 0 0 0 None.

Definition spent (b : Bucket) : Z :=
  Z.max (count b) (u32_saturating_add (remote b) (u32_wrapping_sub (count b) (pushed b))).

(** A window that has run out, judged at [now]. *)
Definition lapsed (now : Z) (b : Bucket) : bool := window <=? duration_since now (window_start b).

(** The [Retry-After] of a refusal: whole seconds, rounded up, at least one. *)
Definition retry_after (now : Z) (b : Bucket) : Z :=
  Z.max ((window - duration_since now (window_start b) + SECOND - 1) / SECOND) 1.

Definition admit_one (b : Bucket) : Bucket :=
  MkBucket (window_start b) (u32_wrapping_add (count b) 1) (pushed b) (remote b) (epoch b).

Section Limiter.
Context {K : Type} `{Countable K}.

(** The order one traversal of a map happens to take. *)
Record HashOrder := MkHashOrder {
  iter : gmap K Bucket → list (K * Bucket);
  iter_perm : ∀ m, iter m ≡ₚ map_to_list m;
}.

Record RateLimiter := MkRateLimiter {
  max_per_window : Z;
  buckets : gmap K Bucket;
  overflow : Bucket;
}.

(** [RateLimiter::new], at the instant [now]. *)
Definition new (max : Z) (now : Z) : RateLimiter := MkRateLimiter max ∅ (opened_at now).

Definition with_buckets (m : gmap K Bucket) (l : RateLimiter) : RateLimiter :=
  MkRateLimiter (max_per_window l) m (overflow l).

Definition check_overflow (now : Z) (l : RateLimiter) : result Z () * RateLimiter :=
  let b := if lapsed now (overflow l) then opened_at now else overflow l in
  if count b <? RATE_LIMIT_OVERFLOW_MAX
  then (Ok (), MkRateLimiter (max_per_window l) (buckets l) (admit_one b))
  else (Err (retry_after now b), MkRateLimiter (max_per_window l) (buckets l) b).

(** The budgeted [retain] of [evict_cheapest], in iteration order. *)
Fixpoint retain_dearer (max cutoff budget : Z) (xs : list (K * Bucket)) : list (K * Bucket) :=
  match xs with
  | [] => []
  | x :: rest =>
      if (0 <? budget) && (spent x.2 <? max) && (spent x.2 <=? cutoff)
      then retain_dearer max cutoff (budget - 1) rest
      else x :: retain_dearer max cutoff budget rest
  end.

Definition evict_cheapest (o : HashOrder) (m : gmap K Bucket) (target max : Z) : gmap K Bucket :=
  if Z.of_nat (size m) <=? target then m else
  let spents := filter (λ s, s < max) ((λ x, spent x.2) <$> iter o m) in
  let excess := Z.min (Z.of_nat (size m) - target) (Z.of_nat (length spents)) in
  if excess <=? 0 then m else
  let cutoff := nth (Z.to_nat (excess - 1)) (merge_sort Z.le spents) 0 in
  list_to_map (retain_dearer max cutoff excess (iter o m)).

(** The tail of [check_key]: the key's own bucket, opened or rolled as needed. *)
Definition enter (now : Z) (key : K) (l : RateLimiter) : result Z () * RateLimiter :=
  let b := default (opened_at now) (buckets l !! key) in
  let b := if lapsed now b then opened_at now else b in
  if spent b <? max_per_window l
  then (Ok (), with_buckets (<[key := admit_one b]> (buckets l)) l)
  else (Err (retry_after now b), with_buckets (<[key := b]> (buckets l)) l).

Definition check_key (o : HashOrder) (now : Z) (key : K) (l : RateLimiter)
    : result Z () * RateLimiter :=
  if max_per_window l =? 0 then (Ok (), l) else
  if (PURGE_AT <=? Z.of_nat (size (buckets l))) && negb (bool_decide (is_Some (buckets l !! key))) then
    let m := filter (λ x, lapsed now x.2 = false) (buckets l) in
    let m := if PURGE_AT <=? Z.of_nat (size m)
             then evict_cheapest o m (PURGE_AT - PURGE_AT / 4) (max_per_window l) else m in
    let l := with_buckets m l in
    if PURGE_AT <=? Z.of_nat (size m) then check_overflow now l else enter now key l
  else enter now key l.

(** [UserRateLimiter::enforce_user] and the middleware's [enforce]: a refusal
    is a 429 carrying the seconds to wait. *)
Definition enforce (o : HashOrder) (now : Z) (key : K) (l : RateLimiter)
    : result AppError () * RateLimiter :=
  let '(r, l') := check_key o now key l in (map_err TooManyRequests r, l').

(** ** The shared window *)

Record Pending := MkPending {
  p_key : K;
  delta : Z;
  counted : Z;
  p_window_start : Z;
}.

(** What a round does to a bucket before reporting it: a bucket last synced in
    another wall window starts a new row. *)
Definition roll (e : Z) (b : Bucket) : Bucket :=
  if bool_decide (epoch b = Some e) then b
  else MkBucket (window_start b) (count b)
         (if bool_decide (is_Some (epoch b)) then count b else pushed b) 0 (Some e).

Definition pending_of (key : K) (b : Bucket) : Pending :=
  MkPending key (u32_wrapping_sub (count b) (pushed b)) (count b) (window_start b).

(** The buckets one round reports. *)
Definition reported (o : HashOrder) (now : Z) (m : gmap K Bucket) : list (K * Bucket) :=
  take (Z.to_nat RATE_SYNC_MAX_KEYS)
    (filter (λ x, 0 < count x.2 ∧ lapsed now x.2 = false) (iter o m)).

(** The first half of [sync_once], under the lock. *)
Definition take_pending (o : HashOrder) (now e : Z) (m : gmap K Bucket)
    : list Pending * gmap K Bucket :=
  let rolled := (λ x, (x.1, roll e x.2)) <$> reported o now m in
  ((λ x, pending_of x.1 x.2) <$> rolled, list_to_map rolled ∪ m).

(** Rendering a key and hashing it: [Display] of the key type, and the [sha2]
    crate. *)
Context (show_key : K → str) (sha256 : str → list N).

(** [ByteSlice]'s [LowerHex]: two digits a byte. *)
Definition byte_slice (bytes : list N) : str :=
  bytes ≫= λ byte, [hex_digit (byte / 16); hex_digit (byte mod 16)].

Definition client_tag (tier : str) (key : K) : str :=
  tier ++ lit "_" ++ byte_slice (take 8 (sha256 (show_key key))).

Definition row_key (tier : str) (key : K) (e : Z) : str :=
  client_tag tier key ++ lit "_" ++ show_int e.

(** [current_epoch], of the wall clock in milliseconds. *)
Definition current_epoch (wall_ms : Z) : Z := wall_ms / 60000 * 60000.

(** The table [rate_limit]: id to [hits] and [window_start]. *)
Definition SharedRows : Type := gmap str (Z * Z).

(** [INSERT … ON CONFLICT (id) DO UPDATE SET hits = hits + EXCLUDED.hits
    RETURNING id, hits], row by row; [None] is a [bigint] out of range. *)
Fixpoint upsert (tier : str) (e : Z) (ps : list Pending) (t : SharedRows)
    : option (SharedRows * list (str * Z)) :=
  match ps with
  | [] => Some (t, [])
  | p :: rest =>
      let id := row_key tier (p_key p) e in
      let row := match t !! id with
                 | Some (hits, start) => (hits + delta p, start)
                 | None => (delta p, e)
                 end in
      if decide (in_i64 row.1) then
        '(t', rows) ← upsert tier e rest (<[id := row]> t);
        Some (t', (id, row.1) :: rows)
      else None
  end.

(** The whole statement; the server refuses one that would touch a row twice. *)
Definition fold_statement (tier : str) (e : Z) (ps : list Pending) : tx SharedRows (list (str * Z)) :=
  λ t,
    if decide (NoDup ((λ p, row_key tier (p_key p) e) <$> ps)) then
      match upsert tier e ps t with
      | Some (t', rows) => Ok (rows, t')
      | None => Err (from_driver (Database (Some "22003"%string) []))
      end
    else Err (from_driver (Database (Some "21000"%string) [])).

(** The last half of [sync_once]: the totals come back to the buckets. *)
Definition land_one (tier : str) (e : Z) (totals : gmap str Z) (m : gmap K Bucket) (p : Pending)
    : gmap K Bucket :=
  match totals !! row_key tier (p_key p) e with
  | None => m
  | Some total =>
      match m !! p_key p with
      | None => m
      | Some b =>
          if bool_decide (epoch b = Some e) && bool_decide (window_start b = p_window_start p)
          then <[p_key p := MkBucket (window_start b) (count b) (counted p)
                   (Z.max 0 (Z.min u32_max total)) (epoch b)]> m
          else m
      end
  end.

Definition land (tier : str) (e : Z) (ps : list Pending) (rows : list (str * Z))
    (m : gmap K Bucket) : gmap K Bucket :=
  foldl (land_one tier e (list_to_map (reverse rows))) m ps.

(** [DELETE FROM rate_limit WHERE window_start < $1]. *)
Definition sweep (e : Z) (t : SharedRows) : SharedRows := filter (λ x, ¬ x.2.2 < e) t.

(** ** Several processes sharing one table

    Each process checks requests at any time, its round's lock released while
    the statement is on its way. *)

Inductive Round :=
  | Sleeping
  | Asked (e : Z) (ps : list Pending)
  | Answered (e : Z) (ps : list Pending) (rows : list (str * Z)).

Record Process := MkProcess {
  tier : str;
  limiter : RateLimiter;
  round : Round;
}.

Record Fleet := MkFleet {
  procs : gmap nat Process;
  shared : SharedRows;
}.

Definition with_process (i : nat) (p : Process) (f : Fleet) : Fleet :=
  MkFleet (<[i := p]> (procs f)) (shared f).

(** What one step shows: a request let in or refused for a client of a tier, a
    fold whose answer came too late with the hits it reported by client, or
    nothing. *)
Inductive Label :=
  | Allowed (client : str)
  | Refused (client : str)
  | Late (unheard : list (str * Z))
  | Silent.

#[export] Instance Label_eq_dec : EqDecision Label.
Proof. solve_decision. Defined.

Inductive step : Fleet → Label → Fleet → Prop :=
  (** A process starts, or starts again, with nothing in memory. *)
  | step_boot f i tier_ max now :
      0 ≤ max ≤ u32_max →
      step f Silent (with_process i (MkProcess tier_ (new max now) Sleeping) f)
  (** A request: [check_key]. *)
  | step_check f i p o now key r l' :
      procs f !! i = Some p → check_key o now key (limiter p) = (r, l') →
      step f (if is_ok r then Allowed (client_tag (tier p) key) else Refused (client_tag (tier p) key))
        (with_process i (MkProcess (tier p) l' (round p)) f)
  (** A round wakes and takes its report; an empty one sleeps on. *)
  | step_ask f i p o now wall_ms ps m :
      procs f !! i = Some p → round p = Sleeping → max_per_window (limiter p) ≠ 0 →
      take_pending o now (current_epoch wall_ms) (buckets (limiter p)) = (ps, m) →
      step f Silent (with_process i (MkProcess (tier p) (with_buckets m (limiter p))
        (match ps with [] => Sleeping | _ => Asked (current_epoch wall_ms) ps end)) f)
  (** Its statement commits and answers in time. *)
  | step_fold f i p e ps rows t :
      procs f !! i = Some p → round p = Asked e ps →
      fold_statement (tier p) e ps (shared f) = Ok (rows, t) →
      step f Silent
        (MkFleet (<[i := MkProcess (tier p) (limiter p) (Answered e ps rows)]> (procs f)) t)
  (** It fails, or the deadline drops it before the server ran it. *)
  | step_fail f i p e ps :
      procs f !! i = Some p → round p = Asked e ps →
      step f Silent (with_process i (MkProcess (tier p) (limiter p) Sleeping) f)
  (** The deadline drops it after the server committed it. *)
  | step_late f i p e ps rows t :
      procs f !! i = Some p → round p = Asked e ps →
      fold_statement (tier p) e ps (shared f) = Ok (rows, t) →
      step f (Late ((λ q, (client_tag (tier p) (p_key q), delta q)) <$> ps)) (MkFleet (<[i := MkProcess (tier p) (limiter p) Sleeping]> (procs f)) t)
  (** The totals land in the buckets. *)
  | step_land f i p e ps rows :
      procs f !! i = Some p → round p = Answered e ps rows →
      step f Silent (with_process i (MkProcess (tier p)
        (with_buckets (land (tier p) e ps rows (buckets (limiter p))) (limiter p)) Sleeping) f)
  (** Rows of a window that has passed are deleted. *)
  | step_sweep f wall_ms :
      step f Silent (MkFleet (procs f) (sweep (current_epoch wall_ms) (shared f))).

Inductive run : Fleet → list Label → Fleet → Prop :=
  | run_nil f : run f [] f
  | run_snoc f ls g l h : run f ls g → step g l h → run f (ls ++ [l]) h.

End Limiter.
Arguments HashOrder K {_ _}.
Arguments RateLimiter K {_ _}.
Arguments Pending K : clear implicits.
Arguments Fleet K {_ _}.
Arguments Process K {_ _}.
