(* ===== verification/RateProofs.v ===== *)
(** * What the rate limiter promises

    Over [RateLimit]: its counters never leave their width and its map never
    grows past its bound; an exhausted client stays refused whatever the others
    do; and a client gets at most twice its budget in any sixty seconds. *)

From S2P Require Import Prelude Text Errors Effects Uuid RateLimit.

Open Scope Z_scope.

(** ** One bucket *)

(** A bucket's counters: what was pushed was counted, what was counted fits the
    budget, and a bucket never synced knows nothing. *)
Record bucket_ok (max : Z) (b : Bucket) : Prop := {
  ok_pushed : 0 ≤ pushed b ≤ count b;
  ok_count : count b ≤ max;
  ok_remote : 0 ≤ remote b ≤ u32_max;
  ok_unsynced : epoch b = None → pushed b = 0 ∧ remote b = 0;
}.

Lemma bucket_opened max now : 0 ≤ max → bucket_ok max (opened_at now).
Proof. intros Hmax. split; simpl; unfold u32_max; first [lia|done]. Qed.

Lemma spent_eq max b :
  bucket_ok max b → max ≤ u32_max →
  spent b = Z.max (count b) (Z.min u32_max (remote b + (count b - pushed b))).
Proof.
  intros [] Hmax. unfold spent, u32_saturating_add.
  rewrite u32_wrapping_sub_id; [done|unfold in_u32; lia..].
Qed.

Lemma spent_ge max b : bucket_ok max b → max ≤ u32_max → count b ≤ spent b.
Proof. intros Hb Hmax. rewrite (spent_eq max) by done. lia. Qed.

(** Admitting into a bucket that is not spent stays within the budget. *)
Lemma bucket_admit max b :
  bucket_ok max b → max ≤ u32_max → spent b < max →
  bucket_ok max (admit_one b) ∧ count (admit_one b) = count b + 1
  ∧ spent b ≤ spent (admit_one b) ≤ spent b + 1.
Proof.
  intros Hb Hmax Hs. pose proof (spent_ge _ _ Hb Hmax) as Hge.
  assert (count (admit_one b) = count b + 1) as Hc.
  { simpl. unfold u32_wrapping_add. destruct Hb. unfold u32_max in *. rewrite Z.mod_small; lia. }
  assert (bucket_ok max (admit_one b)) as Hb'.
  { destruct Hb. split; rewrite ?Hc; simpl; try done; lia. }
  split_and!; try done; rewrite (spent_eq max _ Hb'), (spent_eq max _ Hb), Hc by done; simpl;
    destruct Hb; lia.
Qed.

Section Limiter.
Context {K : Type} `{Countable K}.
Implicit Types (m : gmap K Bucket) (l : RateLimiter K) (key : K).

(** ** Eviction only removes *)

Lemma retain_dearer_sublist max cutoff budget (xs : list (K * Bucket)) :
  retain_dearer max cutoff budget xs `sublist_of` xs.
Proof.
  revert budget. induction xs as [|x xs IH]; intros budget; simpl; [constructor|].
  case_match; [by apply sublist_cons|by apply sublist_skip].
Qed.

Lemma sublist_fmap_keys {B C} (f : B → C) (xs ys : list B) :
  xs `sublist_of` ys → f <$> xs `sublist_of` f <$> ys.
Proof. induction 1; csimpl; by constructor. Qed.

Lemma keys_nodup (o : HashOrder K) m (xs : list (K * Bucket)) :
  xs `sublist_of` iter o m → NoDup xs.*1.
Proof.
  intros Hsub. eapply sublist_NoDup; [|by apply sublist_fmap_keys].
  rewrite (iter_perm o m). apply NoDup_fst_map_to_list.
Qed.

(** A part of an iteration is a part of the map. *)
Lemma sublist_lookup_map (o : HashOrder K) m (xs : list (K * Bucket)) k b :
  xs `sublist_of` iter o m → (list_to_map xs : gmap K Bucket) !! k = Some b ↔ (k, b) ∈ xs.
Proof. intros Hsub. symmetry. by apply elem_of_list_to_map, (keys_nodup o m). Qed.

Lemma elem_of_hash_iter (o : HashOrder K) m k b : (k, b) ∈ iter o m ↔ m !! k = Some b.
Proof. by rewrite (iter_perm o m), elem_of_map_to_list. Qed.

Lemma evict_subseteq (o : HashOrder K) m target max : evict_cheapest o m target max ⊆ m.
Proof.
  unfold evict_cheapest. case_match; [done|]. case_match; [done|].
  apply map_subseteq_spec. intros k b. rewrite (sublist_lookup_map o m) by apply retain_dearer_sublist.
  intros Hin. apply (elem_of_hash_iter o). eapply elem_of_sublist; [exact Hin|apply retain_dearer_sublist].
Qed.

(** The buckets that survive the budgeted [retain]: all that have spent [max]. *)
Lemma retain_dearer_exhausted max cutoff budget (xs : list (K * Bucket)) x :
  x ∈ xs → max ≤ spent x.2 → x ∈ retain_dearer max cutoff budget xs.
Proof.
  intros Hin Hs. revert budget. induction Hin as [x xs|x y xs Hin IH]; intros budget; simpl.
  - rewrite (proj2 (Z.ltb_ge _ _) Hs), andb_false_r. constructor.
  - case_match; [auto|]. constructor. auto.
Qed.

Lemma evict_keeps_exhausted (o : HashOrder K) m target max k b :
  m !! k = Some b → max ≤ spent b → evict_cheapest o m target max !! k = Some b.
Proof.
  intros Hk Hs. unfold evict_cheapest. case_match; [done|]. case_match; [done|].
  rewrite (sublist_lookup_map o m) by apply retain_dearer_sublist.
  apply retain_dearer_exhausted; [by apply elem_of_hash_iter|done].
Qed.

(** ** The cases of a check *)

(** A check first drops buckets (never the caller's own), then meters the
    caller against its bucket or, at the cap, against the shared overflow. *)
Lemma check_key_cases (o : HashOrder K) now key l r l' :
  check_key o now key l = (r, l') → max_per_window l ≠ 0 →
  ∃ m, m ⊆ buckets l ∧ m !! key = buckets l !! key
    ∧ (∀ k b, buckets l !! k = Some b → lapsed now b = false →
         max_per_window l ≤ spent b → m !! k = Some b)
    ∧ (Z.of_nat (size (buckets l)) < PURGE_AT → m = buckets l)
    ∧ ((PURGE_AT ≤ Z.of_nat (size m) ∧ m !! key = None
          ∧ check_overflow now (with_buckets m l) = (r, l'))
       ∨ ((Z.of_nat (size m) < PURGE_AT ∨ is_Some (m !! key))
          ∧ enter now key (with_buckets m l) = (r, l'))).
Proof.
  unfold check_key. intros Hc Hmax. rewrite (proj2 (Z.eqb_neq _ _) Hmax) in Hc.
  destruct ((PURGE_AT <=? Z.of_nat (size (buckets l))) && _) eqn:Hfull.
  - apply andb_true_iff in Hfull as [Hsize Hnew].
    apply negb_true_iff, bool_decide_eq_false in Hnew. rewrite <- eq_None_not_Some in Hnew.
    set (m0 := filter _ (buckets l)) in Hc.
    set (m1 := if _ <=? _ then _ else m0) in Hc.
    assert (m1 ⊆ m0) as H10 by (subst m1; destruct (PURGE_AT <=? Z.of_nat (size m0)); [apply evict_subseteq|done]).
    assert (m0 ⊆ buckets l) as H0 by apply map_filter_subseteq.
    assert (m1 !! key = None) as Hkey.
    { destruct (m1 !! key) eqn:E; [|done].
      apply (lookup_weaken _ _ _ _ E) in H10. apply (lookup_weaken _ _ _ _ H10) in H0. congruence. }
    exists m1. split_and!; [by etrans|congruence| |lia|].
    + intros k b Hk Hlive Hs. assert (m0 !! k = Some b) as Hm0 by by apply map_lookup_filter_Some.
      subst m1. destruct (PURGE_AT <=? Z.of_nat (size m0)); [by apply evict_keeps_exhausted|done].
    + destruct (PURGE_AT <=? Z.of_nat (size m1)) eqn:E; [left|right]; split_and!; try done;
        try left; lia.
  - exists (buckets l). split_and!; try done. right. split.
    + apply andb_false_iff in Hfull as [?|Hin]; [left; lia|right].
      apply negb_false_iff, bool_decide_eq_true in Hin. done.
    + by destruct l.
Qed.

(** ** The caller's own bucket *)

(** The bucket a check meters the caller against, before it admits. *)
Definition standing (now : Z) (key : K) l : Bucket :=
  let b := default (opened_at now) (buckets l !! key) in
  if lapsed now b then opened_at now else b.

Lemma standing_cases now key l :
  (∃ b, buckets l !! key = Some b ∧ lapsed now b = false ∧ standing now key l = b)
  ∨ (standing now key l = opened_at now
     ∧ ∀ b, buckets l !! key = Some b → lapsed now b = true).
Proof.
  unfold standing. destruct (buckets l !! key) as [b|] eqn:E; simpl.
  - destruct (lapsed now b) eqn:L; [right|left]; naive_solver.
  - right. split; [|done]. by case_match.
Qed.

Lemma window_pos : 0 < window.
Proof. done. Qed.

Lemma opened_not_lapsed now : lapsed now (opened_at now) = false.
Proof. apply Z.leb_gt. unfold duration_since, window, SECOND. simpl. lia. Qed.

Lemma standing_not_lapsed now key l : lapsed now (standing now key l) = false.
Proof.
  destruct (standing_cases now key l) as [(b & _ & ? & ->)|[-> _]]; [done|apply opened_not_lapsed].
Qed.

Lemma retry_after_bounds now b : lapsed now b = false → 1 ≤ retry_after now b ≤ 60.
Proof.
  unfold lapsed, retry_after. intros Hl. apply Z.leb_gt in Hl. split; [lia|].
  apply Z.max_lub; [|lia]. apply Z.lt_succ_r, Z.div_lt_upper_bound; unfold window, SECOND in *; [lia|].
  unfold duration_since in *. lia.
Qed.

Lemma enter_cases now key l r l' :
  enter now key l = (r, l') →
  let b := standing now key l in
  (r = Ok () ∧ spent b < max_per_window l
     ∧ l' = with_buckets (<[key := admit_one b]> (buckets l)) l)
  ∨ (r = Err (retry_after now b) ∧ max_per_window l ≤ spent b
     ∧ l' = with_buckets (<[key := b]> (buckets l)) l).
Proof.
  intros He. cbv zeta. unfold enter in He. fold (standing now key l) in He.
  destruct (spent (standing now key l) <? max_per_window l) eqn:E; injection He as <- <-; [left|right];
    split_and!; try done; lia.
Qed.

(** ** The limiter keeps its bounds *)

Record limiter_ok l : Prop := {
  ok_max : 0 ≤ max_per_window l ≤ u32_max;
  ok_buckets : map_Forall (λ _ b, bucket_ok (max_per_window l) b) (buckets l);
  ok_size : Z.of_nat (size (buckets l)) ≤ PURGE_AT;
  ok_overflow : bucket_ok RATE_LIMIT_OVERFLOW_MAX (overflow l) ∧ remote (overflow l) = 0
                ∧ pushed (overflow l) = 0;
}.

Lemma new_ok max now : 0 ≤ max ≤ u32_max → limiter_ok (new max now).
Proof.
  intros Hmax. split; simpl; [done|apply map_Forall_empty|by rewrite map_size_empty|].
  split; [|done]. by apply bucket_opened.
Qed.

Lemma limiter_ok_sub m l : limiter_ok l → m ⊆ buckets l → limiter_ok (with_buckets m l).
Proof.
  intros [] Hsub. split; simpl; try done.
  - intros k b Hk. apply (ok_buckets0 k b). by eapply lookup_weaken.
  - apply map_subseteq_size in Hsub. lia.
Qed.

Lemma limiter_ok_insert key b l :
  limiter_ok l → bucket_ok (max_per_window l) b →
  Z.of_nat (size (buckets l)) < PURGE_AT ∨ is_Some (buckets l !! key) →
  limiter_ok (with_buckets (<[key := b]> (buckets l)) l).
Proof.
  intros [] Hb Hroom. split; simpl; try done.
  - by apply map_Forall_insert_2.
  - rewrite map_size_insert. destruct (buckets l !! key) eqn:E; [done|].
    destruct Hroom as [?|[? ?]]; [lia|done].
Qed.

Lemma standing_ok now key l : limiter_ok l → bucket_ok (max_per_window l) (standing now key l).
Proof.
  intros [Hmax Hbs _ _]. destruct (standing_cases now key l) as [(b & Hb & _ & ->)|[-> _]].
  - by apply (Hbs key).
  - apply bucket_opened. lia.
Qed.

Lemma enter_ok now key l r l' :
  enter now key l = (r, l') → limiter_ok l →
  Z.of_nat (size (buckets l)) < PURGE_AT ∨ is_Some (buckets l !! key) →
  limiter_ok l' ∧ ∀ s, r = Err s → 1 ≤ s ≤ 60.
Proof.
  intros He Hok Hroom. pose proof (standing_ok now key l Hok) as Hb.
  apply enter_cases in He as [(-> & Hs & ->)|(-> & Hs & ->)].
  - split; [|done]. apply limiter_ok_insert; [done| |done].
    apply bucket_admit; [done| |done]. apply (ok_max _ Hok).
  - split; [by apply limiter_ok_insert|]. intros s [= <-].
    apply retry_after_bounds, standing_not_lapsed.
Qed.

Lemma overflow_ok now l r l' :
  check_overflow now l = (r, l') → limiter_ok l →
  limiter_ok l' ∧ buckets l' = buckets l ∧ max_per_window l' = max_per_window l
  ∧ ∀ s, r = Err s → 1 ≤ s ≤ 60.
Proof.
  intros Hc [Hmax Hbs Hsize Hover]. unfold check_overflow in Hc.
  set (b := if lapsed now (overflow l) then _ else _) in Hc.
  assert (lapsed now b = false) as Hlive.
  { subst b. destruct (lapsed now (overflow l)) eqn:E; [apply opened_not_lapsed|done]. }
  assert (bucket_ok RATE_LIMIT_OVERFLOW_MAX b ∧ remote b = 0 ∧ pushed b = 0) as (Hb & Hr & Hp).
  { subst b. case_match; [|done]. split; [by apply bucket_opened|done]. }
  case_match eqn:Hcount; injection Hc as <- <-.
  - split_and!; try done. split; simpl; try done. split; [|done].
    apply bucket_admit; [done|done|]. rewrite (spent_eq RATE_LIMIT_OVERFLOW_MAX) by done.
    rewrite Hr, Hp. apply Z.ltb_lt in Hcount. destruct Hb. lia.
  - split_and!; try done. intros s [= <-]. by apply retry_after_bounds.
Qed.

Lemma check_key_ok (o : HashOrder K) now key l r l' :
  check_key o now key l = (r, l') → limiter_ok l →
  limiter_ok l' ∧ ∀ s, r = Err s → 1 ≤ s ≤ 60.
Proof.
  intros Hc Hok. destruct (decide (max_per_window l = 0)) as [Hz|Hmax].
  { unfold check_key in Hc. rewrite Hz in Hc. by injection Hc as <- <-. }
  apply check_key_cases in Hc as (m & Hsub & Hkey & _ & _ & Hc); [|done].
  apply (limiter_ok_sub m) in Hok; [|done].
  destruct Hc as [(_ & _ & Hc)|(Hroom & Hc)].
  - apply overflow_ok in Hc as (? & _ & _ & ?); done.
  - by eapply enter_ok.
Qed.

(** ** One process over time

    What happens to one limiter: requests, and the two halves of a round. *)

Inductive local : RateLimiter K → list (Z * K * bool) → RateLimiter K → Prop :=
  | local_check l o now key r l' :
      check_key o now key l = (r, l') → local l [(now, key, is_ok r)] l'
  | local_ask l o now e ps m :
      take_pending o now e (buckets l) = (ps, m) → local l [] (with_buckets m l)
  | local_land l show_key sha256 tier e ps rows :
      local l [] (with_buckets (land show_key sha256 tier e ps rows (buckets l)) l).

Inductive locals : RateLimiter K → list (Z * K * bool) → RateLimiter K → Prop :=
  | locals_nil l : locals l [] l
  | locals_cons l es l' rest l'' : local l es l' → locals l' rest l'' → locals l (es ++ rest) l''.

(** A round touches neither a window nor what was admitted in it. *)
Definition same_spend (b b' : Bucket) : Prop :=
  window_start b' = window_start b ∧ count b' = count b.
Definition synced m m' : Prop := ∀ k, option_relation same_spend (λ _, False) (λ _, False) (m !! k) (m' !! k).

#[local] Instance same_spend_refl : Reflexive same_spend.
Proof. done. Qed.
#[local] Instance synced_refl : Reflexive synced.
Proof. intros m k. destruct (m !! k); by simpl. Qed.
#[local] Instance synced_trans : Transitive synced.
Proof.
  intros m1 m2 m3 H12 H23 k. specialize (H12 k). specialize (H23 k).
  destruct (m1 !! k), (m2 !! k), (m3 !! k); simpl in *; try done.
  destruct H12, H23. split; congruence.
Qed.

Lemma synced_insert m k b b' : m !! k = Some b → same_spend b b' → synced m (<[k := b']> m).
Proof.
  intros Hk Hs j. destruct (decide (k = j)) as [<-|Hne].
  - by rewrite Hk, lookup_insert_eq.
  - rewrite lookup_insert_ne by done. by destruct (m !! j); simpl.
Qed.

Lemma roll_same_spend e b : same_spend b (roll e b).
Proof. unfold roll. case_match; by split. Qed.

Lemma reported_sublist (o : HashOrder K) now m : reported o now m `sublist_of` iter o m.
Proof.
  unfold reported. etrans; [apply sublist_take|]. apply sublist_filter.
Qed.

(** The reported buckets are replaced by their rolled selves. *)
Lemma take_pending_lookup (o : HashOrder K) now e m ps m' k :
  take_pending o now e m = (ps, m') →
  m' !! k = if decide (k ∈ (reported o now m).*1) then roll e <$> m !! k else m !! k.
Proof.
  intros [= _ <-]. set (rs := reported o now m).
  assert (∀ j, (list_to_map ((λ x, (x.1, roll e x.2)) <$> rs) : gmap K Bucket) !! j
    = roll e <$> (list_to_map rs : gmap K Bucket) !! j) as Hmap.
  { intros j. induction rs as [|[i b] rs IH]; csimpl; [by rewrite lookup_empty|].
    destruct (decide (i = j)) as [<-|]; [by rewrite !lookup_insert_eq|].
    by rewrite !lookup_insert_ne. }
  case_decide as Hin.
  - apply list_elem_of_fmap in Hin as ([j b] & -> & Hin). simpl.
    assert (m !! j = Some b) as Hj.
    { apply (elem_of_hash_iter o). eapply elem_of_sublist; [exact Hin|apply reported_sublist]. }
    rewrite Hj. apply lookup_union_Some_l. rewrite Hmap.
    by rewrite (proj2 (sublist_lookup_map o m rs j b (reported_sublist o now m)) Hin).
  - rewrite lookup_union_r; [done|]. rewrite Hmap.
    rewrite not_elem_of_list_to_map_1; [done|]. done.
Qed.

Lemma take_pending_synced (o : HashOrder K) now e m ps m' :
  take_pending o now e m = (ps, m') → synced m m'.
Proof.
  intros Ht k. rewrite (take_pending_lookup _ _ _ _ _ _ k Ht).
  case_decide; destruct (m !! k); simpl; try done. apply roll_same_spend.
Qed.

Lemma land_synced show_key sha256 tier e ps rows m :
  synced m (land show_key sha256 tier e ps rows m).
Proof.
  unfold land. generalize (list_to_map (reverse rows) : gmap str Z). intros totals.
  revert m. induction ps as [|p ps IH]; intros m; simpl; [done|].
  etrans; [|apply IH]. unfold land_one.
  case_match; [|done]. case_match eqn:Hk; [|done]. case_match; [|done].
  eapply synced_insert; [exact Hk|done].
Qed.

(** ** Budgets over time *)

(** The part of [limiter_ok] no answer of the database can break. *)
Definition counts_ok l : Prop :=
  0 ≤ max_per_window l ≤ u32_max ∧ map_Forall (λ _ b, 0 ≤ count b ≤ max_per_window l) (buckets l).

Lemma limiter_counts_ok l : limiter_ok l → counts_ok l.
Proof.
  intros Hok. split; [apply Hok|]. intros j c Hj. pose proof (ok_buckets _ Hok j c Hj) as []. lia.
Qed.

Lemma spent_count b : count b ≤ spent b.
Proof. unfold spent. lia. Qed.

Lemma count_admit b max : 0 ≤ count b → spent b < max → max ≤ u32_max → count (admit_one b) = count b + 1.
Proof.
  intros H0 Hs Hmax. pose proof (spent_count b). simpl. unfold u32_wrapping_add, u32_max in *.
  rewrite Z.mod_small; lia.
Qed.

Lemma standing_count now key l : counts_ok l → 0 ≤ count (standing now key l).
Proof.
  intros [_ Hc]. destruct (standing_cases now key l) as [(b & Hb & _ & ->)|[-> _]]; [|done].
  apply (Hc key b Hb).
Qed.

Lemma synced_lookup m m' k b' : synced m m' → m' !! k = Some b' → ∃ b, m !! k = Some b ∧ same_spend b b'.
Proof. intros Hs Hk. specialize (Hs k). rewrite Hk in Hs. destruct (m !! k); [by eexists|done]. Qed.

Lemma synced_counts_ok m l : counts_ok l → synced (buckets l) m → counts_ok (with_buckets m l).
Proof.
  intros [Hmax Hc] Hs. split; [done|]. intros k b' Hk.
  destruct (synced_lookup _ _ _ _ Hs Hk) as (b & Hb & _ & ->). apply (Hc k b Hb).
Qed.

(** What one check does to the map, as the budget theorems need it. *)
Lemma check_key_buckets (o : HashOrder K) now key l r l' :
  check_key o now key l = (r, l') → max_per_window l ≠ 0 → counts_ok l →
  max_per_window l' = max_per_window l ∧ counts_ok l'
  ∧ ∃ m, m ⊆ buckets l ∧ m !! key = buckets l !! key
      ∧ (∀ k b, buckets l !! k = Some b → lapsed now b = false →
           max_per_window l ≤ spent b → m !! k = Some b)
      ∧ (Z.of_nat (size (buckets l)) < PURGE_AT → m = buckets l)
      ∧ let b := standing now key l in
        ((m !! key = None ∧ PURGE_AT ≤ Z.of_nat (size m) ∧ buckets l' = m)
         ∨ (r = Ok () ∧ spent b < max_per_window l ∧ count (admit_one b) = count b + 1
              ∧ buckets l' = <[key := admit_one b]> m)
         ∨ (is_ok r = false ∧ max_per_window l ≤ spent b ∧ buckets l' = <[key := b]> m)).
Proof.
  intros Hc Hmax [Hm Hcs]. apply check_key_cases in Hc as (m & Hsub & Hkey & Hkeep & Hroom & Hc); [|done].
  assert (counts_ok (with_buckets m l)) as Hok.
  { split; [done|]. intros k b Hk. apply (Hcs k b). by eapply lookup_weaken. }
  assert (standing now key (with_buckets m l) = standing now key l) as Hst.
  { unfold standing. simpl. by rewrite Hkey. }
  pose proof (standing_count now key _ Hok) as H0. rewrite Hst in H0.
  destruct Hc as [(Hsize & Hnone & Hc)|(_ & Hc)].
  - unfold check_overflow in Hc. assert (buckets l' = m ∧ max_per_window l' = max_per_window l) as [Hb Hml].
    { by case_match; injection Hc as <- <-. }
    split_and!; [done|split; [by rewrite Hml|rewrite Hb, Hml; apply Hok]|].
    exists m. split_and!; try done. by left.
  - apply enter_cases in Hc. rewrite Hst in Hc. destruct Hc as [(-> & Hs & ->)|(-> & Hs & ->)]; simpl in *.
    + pose proof (count_admit _ _ H0 Hs (proj2 Hm)) as Hca. pose proof (spent_count (standing now key l)).
      split_and!; [done|split; [done|]; simpl; apply map_Forall_insert_2; [simpl in Hca |- *; lia|apply Hok]|].
      exists m. split_and!; try done. right. left. by split_and!.
    + split_and!; [done|split; [done|]; simpl; apply map_Forall_insert_2; [|apply Hok]|].
      { destruct (standing_cases now key l) as [(b & Hb & _ & ->)|[-> _]]; [apply (Hcs key b Hb)|simpl; lia]. }
      exists m. split_and!; try done. right. right. by split_and!.
Qed.

(** A live bucket whose own count is the whole budget survives anything the
    others do, and lets its client in no more. *)
Lemma local_exhausted k b l es l' :
  local l es l' → max_per_window l ≠ 0 → counts_ok l →
  buckets l !! k = Some b → max_per_window l ≤ count b →
  Forall (λ e, lapsed e.1.1 b = false) es →
  max_per_window l' = max_per_window l ∧ counts_ok l' ∧
  (∃ b', buckets l' !! k = Some b' ∧ same_spend b b') ∧
  Forall (λ e, e.1.2 = k → e.2 = false) es.
Proof.
  intros Hl Hmax Hok Hk Hspent Hlive. destruct Hl as [l o now key r l' Hc|l o now e ps m Ht|].
  - rewrite Forall_singleton in Hlive. simpl in Hlive.
    pose proof (spent_count b).
    apply check_key_buckets in Hc as (Hm' & Hok' & m & _ & Hkey & Hkeep & _ & Hc); [|done..].
    assert (m !! k = Some b) as Hmk by (apply Hkeep; [done|done|lia]).
    split_and!; [done|done| |].
    + destruct (decide (key = k)) as [->|Hne].
      * assert (standing now k l = b) as Hst by (unfold standing; rewrite Hk; simpl; by rewrite Hlive).
        rewrite Hst in Hc. destruct Hc as [(? & _)|[(_ & ? & _)|(_ & _ & ->)]]; [congruence|lia|].
        exists b. by rewrite lookup_insert_eq.
      * exists b. split; [|done].
        destruct Hc as [(_ & _ & ->)|[(_ & _ & _ & ->)|(_ & _ & ->)]]; by rewrite ?lookup_insert_ne.
    + apply Forall_singleton. simpl. intros ->.
      assert (standing now k l = b) as Hst by (unfold standing; rewrite Hk; simpl; by rewrite Hlive).
      rewrite Hst in Hc. destruct Hc as [(? & _)|[(_ & ? & _)|(? & _)]]; [congruence|lia|done].
  - pose proof (take_pending_synced _ _ _ _ _ _ Ht) as Hs.
    split_and!; [done|by apply synced_counts_ok| |constructor].
    specialize (Hs k). rewrite Hk in Hs. destruct (m !! k) as [b'|] eqn:E; [|done].
    by exists b'.
  - pose proof (land_synced show_key sha256 tier e ps rows (buckets l)) as Hs.
    split_and!; [done|by apply synced_counts_ok| |constructor].
    specialize (Hs k). rewrite Hk in Hs.
    destruct (land _ _ _ _ _ _ _ !! k) as [b'|] eqn:E; [|done]. exists b'. by simpl.
Qed.

Lemma locals_exhausted k b l es l' :
  locals l es l' → max_per_window l ≠ 0 → counts_ok l →
  buckets l !! k = Some b → max_per_window l ≤ count b →
  Forall (λ e, lapsed e.1.1 b = false) es →
  max_per_window l' = max_per_window l ∧ counts_ok l' ∧
  (∃ b', buckets l' !! k = Some b' ∧ same_spend b b') ∧
  Forall (λ e, e.1.2 = k → e.2 = false) es.
Proof.
  intros Hl. revert b. induction Hl as [l|l es l1 rest l2 H1 _ IH]; intros b Hmax Hok Hk Hspent Hlive.
  - split_and!; try done. by exists b.
  - apply Forall_app in Hlive as [Hes Hrest].
    destruct (local_exhausted k b l es l1) as (Hm1 & Hok1 & (b1 & Hb1 & Hw & Hc) & Hno); try done.
    destruct (IH b1) as (Hm2 & Hok2 & (b2 & Hb2 & Hw2 & Hc2) & Hno2); try done; try congruence.
    { eapply Forall_impl; [exact Hrest|]. intros [[n ?] ?]. unfold lapsed. simpl. by rewrite Hw. }
    split_and!; [congruence|done| |by apply Forall_app].
    exists b2. split; [done|]. split; congruence.
Qed.

(** An exhausted client stays refused. Once a client's own bucket has counted
    its whole budget, nothing the other clients send (however many, the map's
    purges and evictions included) and no round of the sharing frees it: until
    its sixty seconds are over every request of it is refused, with a wait of 1
    to 60 seconds. *)
Theorem exhausted_stays_refused k b l es l' :
  limiter_ok l → max_per_window l ≠ 0 → locals l es l' →
  buckets l !! k = Some b → count b = max_per_window l →
  Forall (λ e, lapsed e.1.1 b = false) es →
  Forall (λ e, e.1.2 = k → e.2 = false) es
  ∧ ∀ (o : HashOrder K) now r l'', lapsed now b = false → check_key o now k l' = (r, l'') →
      ∃ s, r = Err s ∧ 1 ≤ s ≤ 60.
Proof.
  intros Hok Hmax Hl Hk Hc Hlive.
  pose proof (limiter_counts_ok l Hok) as Hcs.
  destruct (locals_exhausted k b l es l') as (Hm & Hok' & (b' & Hb' & Hw & Hc') & Hno); try done; [lia|].
  split; [done|]. intros o now r l'' Hnow Hchk.
  assert (lapsed now b' = false) as Hnow' by (unfold lapsed; by rewrite Hw).
  unfold check_key in Hchk. rewrite (proj2 (Z.eqb_neq _ _)) in Hchk by congruence.
  rewrite Hb', bool_decide_eq_true_2 in Hchk by by eexists. rewrite andb_false_r in Hchk.
  apply enter_cases in Hchk. assert (standing now k l' = b') as Hst.
  { unfold standing. rewrite Hb'. simpl. by rewrite Hnow'. }
  rewrite Hst in Hchk. pose proof (spent_count b').
  destruct Hchk as [(_ & ? & _)|(-> & _)]; [lia|]. eexists. split; [done|by apply retry_after_bounds].
Qed.

(** The admits of [k] in a trace. *)
Definition admits (k : K) (es : list (Z * K * bool)) : Z :=
  Z.of_nat (length (filter (λ e, e.1.2 = k ∧ e.2 = true) es)).

Lemma admits_app k es es' : admits k (es ++ es') = admits k es + admits k es'.
Proof. unfold admits. rewrite filter_app, length_app. lia. Qed.

Lemma admits_one k now key r :
  admits k [(now, key, r)] = if decide (key = k ∧ r = true) then 1 else 0.
Proof. unfold admits. rewrite filter_cons, filter_nil. simpl. by case_decide. Qed.

(** Traces that never reach the cap of the map. *)
Inductive calm_locals : RateLimiter K → list (Z * K * bool) → RateLimiter K → Prop :=
  | calm_nil l : calm_locals l [] l
  | calm_cons l es l' rest l'' :
      Z.of_nat (size (buckets l)) < PURGE_AT → local l es l' → calm_locals l' rest l'' →
      calm_locals l (es ++ rest) l''.

(** How far a client can be into its allowance of a span starting at [t0],
    having been let in [n] times: still in the bucket it had, or in one opened
    since. *)
Definition budget_at (k : K) (t0 n : Z) l : Prop :=
  match buckets l !! k with
  | None => n = 0
  | Some b => n ≤ count b ∨ (t0 ≤ window_start b ∧ n ≤ max_per_window l + count b)
  end.

Lemma budget_at_synced k t0 n l m :
  synced (buckets l) m → budget_at k t0 n l → budget_at k t0 n (with_buckets m l).
Proof.
  intros Hs. specialize (Hs k). unfold budget_at. simpl.
  destruct (buckets l !! k) as [b|], (m !! k) as [b'|]; try done. by destruct Hs as [-> ->].
Qed.

(** The bucket a check stands on continues the allowance. *)
Lemma budget_at_standing k t0 n now l :
  counts_ok l → t0 ≤ now < t0 + window → budget_at k t0 n l →
  let b := standing now k l in
  n ≤ count b ∨ (t0 ≤ window_start b ∧ n ≤ max_per_window l + count b).
Proof.
  intros [Hm Hc] Hnow Hb. cbv zeta. unfold budget_at in Hb.
  destruct (standing_cases now k l) as [(b & E & _ & ->)|[-> Hl]]; [by rewrite E in Hb|].
  right. simpl. split; [lia|]. destruct (buckets l !! k) as [b|] eqn:E; [|lia].
  pose proof (Hc k b E) as Hcb. simpl in Hcb. destruct Hb as [?|[Hw _]]; [lia|].
  specialize (Hl b eq_refl). unfold lapsed, duration_since in Hl. pose proof window_pos. lia.
Qed.

Lemma budget_at_local k t0 n l es l' :
  Z.of_nat (size (buckets l)) < PURGE_AT → local l es l' → max_per_window l ≠ 0 →
  counts_ok l → Forall (λ e, t0 ≤ e.1.1 < t0 + window) es → budget_at k t0 n l →
  max_per_window l' = max_per_window l ∧ counts_ok l' ∧ budget_at k t0 (n + admits k es) l'.
Proof.
  intros Hsize Hl Hmax Hok Hspan Hb. destruct Hl as [l o now key r l' Hc|l o now e ps m Ht|].
  - rewrite Forall_singleton in Hspan. simpl in Hspan.
    apply check_key_buckets in Hc as (Hm' & Hok' & m & _ & _ & _ & Hroom & Hc); [|done..].
    rewrite (Hroom Hsize) in Hc. split_and!; [done|done|]. rewrite admits_one.
    destruct (decide (key = k)) as [->|Hne].
    + pose proof (budget_at_standing k t0 n now l Hok Hspan Hb) as Hst. cbv zeta in Hst.
      unfold budget_at. rewrite Hm'.
      destruct Hc as [(_ & ? & _)|[(-> & _ & Hca & ->)|(Hr & _ & ->)]]; [lia| |].
      * rewrite lookup_insert_eq, decide_True, Hca by done.
        change (window_start (admit_one (standing now k l))) with (window_start (standing now k l)). lia.
      * rewrite lookup_insert_eq, decide_False by (intros [_ ?]; congruence). by rewrite Z.add_0_r.
    + rewrite decide_False by naive_solver. rewrite Z.add_0_r. unfold budget_at in *. rewrite Hm'.
      destruct Hc as [(_ & ? & _)|[(_ & _ & _ & ->)|(_ & _ & ->)]]; [lia|by rewrite lookup_insert_ne..].
  - pose proof (take_pending_synced _ _ _ _ _ _ Ht) as Hs. rewrite Z.add_0_r.
    split_and!; [done|by apply synced_counts_ok|by apply budget_at_synced].
  - pose proof (land_synced show_key sha256 tier e ps rows (buckets l)) as Hs. rewrite Z.add_0_r.
    split_and!; [done|by apply synced_counts_ok|by apply budget_at_synced].
Qed.

Lemma budget_at_locals k t0 n l es l' :
  calm_locals l es l' → max_per_window l ≠ 0 → counts_ok l →
  Forall (λ e, t0 ≤ e.1.1 < t0 + window) es → budget_at k t0 n l →
  max_per_window l' = max_per_window l ∧ counts_ok l' ∧ budget_at k t0 (n + admits k es) l'.
Proof.
  intros Hl. revert n. induction Hl as [l|l es l1 rest l2 Hsize H1 _ IH]; intros n Hmax Hok Hspan Hb.
  - by rewrite Z.add_0_r.
  - apply Forall_app in Hspan as [Hes Hrest].
    destruct (budget_at_local k t0 n l es l1) as (Hm1 & Hok1 & Hb1); try done.
    destruct (IH (n + admits k es)) as (Hm2 & Hok2 & Hb2); [congruence|done..|].
    split_and!; [congruence|done|]. by rewrite admits_app, Z.add_assoc.
Qed.

(** While one window runs, its count is what was let in. *)
Lemma locals_one_window k b l es l' :
  calm_locals l es l' → max_per_window l ≠ 0 → counts_ok l → buckets l !! k = Some b →
  Forall (λ e, lapsed e.1.1 b = false) es → admits k es ≤ max_per_window l - count b.
Proof.
  intros Hl. revert b. induction Hl as [l|l es l1 rest l2 Hsize H1 _ IH]; intros b Hmax Hok Hk Hlive.
  - destruct Hok as [_ Hc]. pose proof (Hc k b Hk) as Hb. simpl in Hb. unfold admits. simpl. lia.
  - apply Forall_app in Hlive as [Hes Hrest]. rewrite admits_app.
    assert (max_per_window l1 = max_per_window l ∧ counts_ok l1 ∧ ∃ b1, buckets l1 !! k = Some b1
      ∧ window_start b1 = window_start b ∧ count b1 = count b + admits k es) as (Hm1 & Hok1 & b1 & Hb1 & Hw & Hc).
    2:{ rewrite <- Hm1 in *. specialize (IH b1 Hmax Hok1 Hb1). rewrite Hc in IH.
        enough (admits k rest ≤ max_per_window l1 - (count b + admits k es)) by lia. apply IH.
        eapply Forall_impl; [exact Hrest|]. intros [[n ?] ?]. unfold lapsed. simpl. by rewrite Hw. }
    clear IH Hrest. destruct H1 as [l o now key r l1 Hc|l o now e ps m Ht|].
    + rewrite Forall_singleton in Hes. simpl in Hes.
      apply check_key_buckets in Hc as (Hm' & Hok' & m & _ & _ & _ & Hroom & Hc); [|done..].
      rewrite (Hroom Hsize) in Hc. split_and!; [done|done|]. rewrite admits_one.
      destruct (decide (key = k)) as [->|Hne].
      * assert (standing now k l = b) as Hst by (unfold standing; rewrite Hk; simpl; by rewrite Hes).
        rewrite Hst in Hc. destruct Hc as [(_ & ? & _)|[(-> & _ & Hca & ->)|(Hr & _ & ->)]]; [lia| |].
        -- exists (admit_one b). by rewrite lookup_insert_eq, decide_True.
        -- exists b. rewrite lookup_insert_eq, decide_False by (intros [_ ?]; congruence).
           split_and!; [done|done|lia].
      * exists b. rewrite decide_False by naive_solver. split_and!; [|done|lia].
        destruct Hc as [(_ & ? & _)|[(_ & _ & _ & ->)|(_ & _ & ->)]]; [lia|by rewrite lookup_insert_ne..].
    + pose proof (take_pending_synced _ _ _ _ _ _ Ht) as Hs.
      split_and!; [done|by apply synced_counts_ok|]. specialize (Hs k). rewrite Hk in Hs. simpl.
      destruct (m !! k) as [b'|]; [|done]. destruct Hs. exists b'. split_and!; [done|done|unfold admits; simpl; lia].
    + pose proof (land_synced show_key sha256 tier e ps rows (buckets l)) as Hs.
      split_and!; [done|by apply synced_counts_ok|]. specialize (Hs k). rewrite Hk in Hs. simpl.
      destruct (land _ _ _ _ _ _ _ !! k) as [b'|]; [|done]. destruct Hs.
      exists b'. split_and!; [done|done|unfold admits; simpl; lia].
Qed.

(** The fixed window admits at most twice the budget. In any sixty seconds,
    wherever they fall against a client's windows and whatever the others send
    or the sharing reports, a client is let in at most [2 * max] times; and
    while one window of it runs, at most what that window has left. It holds
    as long as the map stays under its cap, where no bucket is ever evicted. *)
Theorem window_budget k t0 l es l' :
  limiter_ok l → max_per_window l ≠ 0 → calm_locals l es l' →
  (Forall (λ e, t0 ≤ e.1.1 < t0 + window) es → admits k es ≤ 2 * max_per_window l)
  ∧ (∀ b, buckets l !! k = Some b → Forall (λ e, lapsed e.1.1 b = false) es →
       admits k es ≤ max_per_window l - count b).
Proof.
  intros Hok%limiter_counts_ok Hmax Hl. split.
  - intros Hspan. destruct (budget_at_locals k t0 0 l es l') as (Hm & Hok' & Hb); try done.
    { unfold budget_at. destruct (buckets l !! k) as [b|] eqn:E; [|done]. left.
      destruct Hok as [_ Hc]. apply (Hc k b E). }
    unfold budget_at in Hb. destruct Hok' as [Hm' Hc'].
    destruct (buckets l' !! k) as [b|] eqn:E; [|lia].
    pose proof (Hc' k b E) as Hcb. simpl in Hcb. lia.
  - intros b Hk Hlive. by eapply locals_one_window.
Qed.

(** ** A client that is not exhausted can be pushed out

    The map at its cap, everyone live, and only [v] with budget left. *)

Record besieged (now : Z) (v : K) (b : Bucket) l : Prop := {
  siege_size : Z.of_nat (size (buckets l)) = PURGE_AT;
  siege_victim : buckets l !! v = Some b;
  siege_budget : spent b < max_per_window l;
  siege_live : ∀ k c, buckets l !! k = Some c → lapsed now c = false;
  siege_others : ∀ k c, k ≠ v → buckets l !! k = Some c → max_per_window l ≤ spent c;
}.

Lemma spents_alone (o : HashOrder K) m v b max :
  m !! v = Some b → spent b < max → (∀ k c, k ≠ v → m !! k = Some c → max ≤ spent c) →
  filter (λ s, s < max) ((λ x, spent x.2) <$> iter o m) = [spent b].
Proof.
  intros Hv Hb Hothers. apply Permutation_singleton_r.
  rewrite (iter_perm o m). rewrite <- (insert_delete_id m v b) at 1 by done.
  rewrite map_to_list_insert by apply lookup_delete_eq. csimpl.
  rewrite filter_cons_True by done. rewrite filter_none; [done|].
  intros s Hs. apply list_elem_of_fmap in Hs as ([k c] & -> & Hk). simpl.
  apply elem_of_map_to_list, lookup_delete_Some in Hk as [Hne Hk].
  pose proof (Hothers k c (not_eq_sym Hne) Hk). lia.
Qed.

Lemma spents_none (o : HashOrder K) m max :
  (∀ k c, m !! k = Some c → max ≤ spent c) →
  filter (λ s, s < max) ((λ x, spent x.2) <$> iter o m) = [].
Proof.
  intros Hall. apply filter_none. intros s Hs. apply list_elem_of_fmap in Hs as ([k c] & -> & Hk). simpl.
  apply elem_of_hash_iter in Hk. pose proof (Hall k c Hk). lia.
Qed.

Lemma retain_drops_victim v b max (xs : list (K * Bucket)) :
  NoDup xs.*1 → spent b < max → (∀ k c, (k, c) ∈ xs → k = v ∨ max ≤ spent c) →
  (∀ c, (v, c) ∈ xs → c = b) → (v, b) ∉ retain_dearer max (spent b) 1 xs.
Proof.
  induction xs as [|[k c] xs IH]; intros Hnd Hb Hothers Hv; simpl; [apply not_elem_of_nil|].
  apply NoDup_cons in Hnd as [Hk Hnd].
  destruct ((spent c <? max) && (spent c <=? spent b)) eqn:E.
  - assert (k = v) as ->.
    { destruct (Hothers k c ltac:(constructor)); [done|lia]. }
    intros Hin. apply Hk. apply list_elem_of_fmap. exists (v, b). split; [done|].
    eapply elem_of_sublist; [exact Hin|apply retain_dearer_sublist].
  - intros [Heq|Hin]%elem_of_cons.
    + injection Heq as <- <-. lia.
    + revert Hin. apply IH; try done.
      * intros j d Hj. apply Hothers. by constructor.
      * intros d Hd. apply Hv. by constructor.
Qed.

Lemma evict_victim (o : HashOrder K) m v b max :
  Z.of_nat (size m) = PURGE_AT → m !! v = Some b → spent b < max →
  (∀ k c, k ≠ v → m !! k = Some c → max ≤ spent c) →
  evict_cheapest o m (PURGE_AT - PURGE_AT / 4) max = delete v m.
Proof.
  intros Hsize Hv Hb Hothers. apply map_eq. intros k.
  destruct (decide (k = v)) as [->|Hne].
  - rewrite lookup_delete_eq. unfold evict_cheapest. rewrite (spents_alone o m v b) by done.
    rewrite Hsize. change (PURGE_AT <=? PURGE_AT - PURGE_AT / 4) with false. cbv iota.
    change (Z.min (PURGE_AT - (PURGE_AT - PURGE_AT / 4)) (Z.of_nat (length [spent b]))) with 1.
    change (nth (Z.to_nat (1 - 1)) (merge_sort Z.le [spent b]) 0) with (spent b).
    change (1 <=? 0) with false. cbv iota. apply eq_None_not_Some. intros [c Hc].
    rewrite (sublist_lookup_map o m) in Hc by apply retain_dearer_sublist.
    assert ((v, c) ∈ iter o m) as Hin by (eapply elem_of_sublist; [exact Hc|apply retain_dearer_sublist]).
    apply elem_of_hash_iter in Hin. assert (c = b) as -> by congruence.
    revert Hc. apply retain_drops_victim; [|done| |].
    + by eapply keys_nodup.
    + intros j d Hd. apply elem_of_hash_iter in Hd.
      destruct (decide (j = v)); [by left|right; by eapply Hothers].
    + intros d Hd. apply elem_of_hash_iter in Hd. congruence.
  - rewrite lookup_delete_ne by done. destruct (m !! k) as [c|] eqn:E.
    + apply evict_keeps_exhausted; [done|]. by eapply Hothers.
    + destruct (evict_cheapest _ _ _ _ !! k) eqn:E'; [|done].
      apply (lookup_weaken _ m) in E'; [congruence|apply evict_subseteq].
Qed.

(** The map after the newcomer's first [j] requests. *)
Definition ousted (now : Z) (v n : K) l (j : Z) : RateLimiter K :=
  with_buckets (<[n := MkBucket now j 0 0 None]> (delete v (buckets l))) l.

Lemma filter_live m now : (∀ k c, m !! k = Some c → lapsed now c = false) →
  filter (λ x, lapsed now x.2 = false) m = m.
Proof. intros Hl. apply map_filter_id. intros k c Hk. by apply (Hl k). Qed.

Lemma newcomer_first (o : HashOrder K) now v b n l :
  limiter_ok l → besieged now v b l → buckets l !! n = None →
  check_key o now n l = (Ok (), ousted now v n l 1).
Proof.
  intros Hok [Hsize Hv Hb Hlive Hothers] Hn.
  assert (0 < max_per_window l) as Hpos.
  { pose proof (ok_buckets _ Hok v b Hv) as []. pose proof (spent_count b). lia. }
  unfold check_key. rewrite (proj2 (Z.eqb_neq _ _)) by lia.
  rewrite Hsize, Hn, Z.leb_refl, bool_decide_eq_false_2 by (intros [? ?]; done). simpl.
  rewrite filter_live by done. rewrite Hsize, Z.leb_refl.
  rewrite (evict_victim o _ v b) by done.
  assert (Z.of_nat (size (delete v (buckets l))) = PURGE_AT - 1) as Hsz.
  { rewrite map_size_delete, Hv. assert (size (buckets l) ≠ 0)%nat by (intros E; by rewrite E in Hsize). lia. }
  rewrite Hsz. change (PURGE_AT <=? PURGE_AT - 1) with false. cbv iota.
  unfold enter. simpl. rewrite (proj2 (lookup_delete_None _ _ _)) by (right; done). simpl.
  rewrite opened_not_lapsed. change (spent (opened_at now)) with 0.
  by rewrite (proj2 (Z.ltb_lt _ _)) by done.
Qed.

Lemma newcomer_next (o : HashOrder K) now v n l j :
  0 < j < max_per_window l → max_per_window l ≤ u32_max →
  check_key o now n (ousted now v n l j) = (Ok (), ousted now v n l (j + 1)).
Proof.
  intros Hj Hmax. unfold check_key, ousted. simpl. rewrite (proj2 (Z.eqb_neq _ _)) by lia.
  rewrite lookup_insert_eq, bool_decide_eq_true_2 by by eexists. rewrite andb_false_r.
  unfold enter. simpl. rewrite lookup_insert_eq. simpl.
  change (lapsed now (MkBucket now j 0 0 None)) with (lapsed now (opened_at now)).
  rewrite opened_not_lapsed.
  rewrite (spent_eq (max_per_window l)) by (first [done|split; simpl; unfold u32_max; first [lia|done]]).
  simpl. rewrite (proj2 (Z.ltb_lt _ _)) by lia. unfold with_buckets, admit_one, u32_wrapping_add. simpl.
  rewrite insert_insert_eq, Z.mod_small by (unfold u32_max in *; lia). done.
Qed.

Lemma newcomer_iter (o : HashOrder K) now v b n l (j : nat) :
  limiter_ok l → besieged now v b l → buckets l !! n = None → Z.of_nat (S j) ≤ max_per_window l →
  Nat.iter (S j) (λ l, (check_key o now n l).2) l = ousted now v n l (Z.of_nat (S j)).
Proof.
  intros Hok Hs Hn. induction j as [|j IH]; intros Hj.
  - simpl. by rewrite (newcomer_first o now v b n l).
  - rewrite Nat.iter_succ, IH by lia. rewrite newcomer_next; [simpl; f_equal; lia|lia|apply Hok].
Qed.

(** With every bucket exhausted, a client without one is on the shared budget. *)
Lemma saturated_overflow (o : HashOrder K) now v l :
  max_per_window l ≠ 0 → Z.of_nat (size (buckets l)) = PURGE_AT → buckets l !! v = None →
  (∀ k c, buckets l !! k = Some c → lapsed now c = false ∧ max_per_window l ≤ spent c) →
  check_key o now v l = check_overflow now l.
Proof.
  intros Hmax Hsize Hv Hall. unfold check_key. rewrite (proj2 (Z.eqb_neq _ _)) by done.
  rewrite Hsize, Hv, Z.leb_refl, bool_decide_eq_false_2 by (intros [? ?]; done). simpl.
  rewrite filter_live by (intros; by eapply Hall). rewrite Hsize, Z.leb_refl.
  assert (evict_cheapest o (buckets l) (PURGE_AT - PURGE_AT / 4) (max_per_window l) = buckets l) as ->.
  { unfold evict_cheapest. rewrite spents_none by (intros; by eapply Hall). simpl length.
    rewrite Z.min_r by (rewrite Hsize; done). by destruct (_ <=? _). }
  rewrite Hsize, Z.leb_refl. by destruct l.
Qed.

(** A client with budget left can be evicted and then starved. When the map is
    full and everyone else has spent their budget, one unknown client takes the
    bucket of the one client that had not; once that newcomer has spent its own
    budget the map is saturated, and with the shared overflow budget spent the
    evicted client, known before the flood began, is refused every request. *)
Theorem known_client_starved (o : HashOrder K) now v b n l :
  limiter_ok l → besieged now v b l → buckets l !! n = None →
  let l' := Nat.iter (Z.to_nat (max_per_window l)) (λ l, (check_key o now n l).2) l in
  buckets l' !! v = None
  ∧ ∀ l2, buckets l2 = buckets l' → max_per_window l2 = max_per_window l →
      count (overflow l2) = RATE_LIMIT_OVERFLOW_MAX → lapsed now (overflow l2) = false →
      check_key o now v l2 = (Err (retry_after now (overflow l2)), l2).
Proof.
  intros Hok Hs Hn. cbv zeta.
  assert (0 < max_per_window l) as Hpos.
  { destruct Hs as [_ Hv Hb _ _]. pose proof (ok_buckets _ Hok v b Hv) as [].
    pose proof (spent_count b). lia. }
  assert (n ≠ v) as Hne by (intros ->; destruct Hs; congruence).
  destruct (Z.to_nat (max_per_window l)) as [|j] eqn:Ej; [lia|].
  rewrite (newcomer_iter o now v b n l j) by (done || lia).
  replace (Z.of_nat (S j)) with (max_per_window l) by lia. simpl.
  split; [by rewrite lookup_insert_ne, lookup_delete_eq|].
  intros l2 Hl2 Hm2 Hc2 Hlive2. rewrite saturated_overflow.
  - unfold check_overflow. rewrite Hlive2, Hc2, Z.ltb_irrefl. by destruct l2.
  - lia.
  - rewrite Hl2, map_size_insert_None, map_size_delete, (siege_victim _ _ _ _ Hs) by
      by (rewrite lookup_delete_ne by done).
    pose proof (siege_size _ _ _ _ Hs) as Hsz.
    assert (size (buckets l) ≠ 0)%nat by (intros E; by rewrite E in Hsz). lia.
  - by rewrite Hl2, lookup_insert_ne, lookup_delete_eq.
  - intros k c. rewrite Hl2, Hm2. intros [[<- <-]|[_ [Hkv Hk]%lookup_delete_Some]]%lookup_insert_Some.
    + split; [|apply (spent_count (MkBucket _ _ _ _ _))].
      change (lapsed now (opened_at now) = false). apply opened_not_lapsed.
    + split; [by eapply siege_live|]. eapply (siege_others _ _ _ _ Hs k); [done|exact Hk].
Qed.

End Limiter.
