(* ===== verification/RateSharing.v ===== *)
(** * What the shared window of the rate limiter promises

    Over [RateLimit]'s [Fleet]: any number of processes fold what they admit
    into one table while they go on admitting, restart, time out and sweep.
    The weight that every step conserves or lowers is what the table has billed
    a client plus what each process still owes for it. *)

From S2P Require Import Prelude Text Errors Effects Uuid RateLimit RateProofs.

Open Scope Z_scope.

Section Sharing.
Context {K : Type} `{Countable K} (show_key : K → str) (sha256 : str → list N).

Abbreviation tag := (client_tag show_key sha256).
Abbreviation run := (run show_key sha256).
Abbreviation step := (step show_key sha256).
Implicit Types (m : gmap K Bucket) (p : Process K) (f g h : Fleet K) (q : Pending K).

(** ** What the table billed *)

(** The client a row belongs to: everything before the window. *)
Definition client_of (id : str) : option str := fst <$> rsplit_once 95%N id.

Lemma client_of_row_key tier k e : client_of (row_key show_key sha256 tier k e) = Some (tag tier k).
Proof.
  unfold client_of, row_key. change (lit "_" ++ show_int e) with (95%N :: show_int e).
  rewrite rsplit_once_app; [done|]. by apply show_int_no.
Qed.

Definition billed (c : str) (t : SharedRows) : Z :=
  total (λ id row, if decide (client_of id = Some c) then row.1 else 0) t.

(** ** What a process still owes *)

Definition matches (e : Z) q (b : Bucket) : bool :=
  bool_decide (epoch b = Some e) && bool_decide (window_start b = p_window_start q).

(** The part of a bucket's count that is, or is about to be, accounted for. *)
Definition base (e : Z) (ps : list (Pending K)) (k : K) (b : Bucket) : Z :=
  match List.find (λ q, bool_decide (p_key q = k)) ps with
  | Some q => if matches e q b then counted q else pushed b
  | None => pushed b
  end.

Definition unpaid (c tier : str) (e : Z) (ps : list (Pending K)) (k : K) (b : Bucket) : Z :=
  if decide (tag tier k = c) then count b - base e ps k b else 0.

(** What a statement on its way is about to bill. *)
Definition flight (c tier : str) (ps : list (Pending K)) : Z :=
  sumZ ((λ q, if decide (tag tier (p_key q) = c) then delta q else 0) <$> ps).

Definition owed (c : str) p : Z :=
  let m := buckets (limiter p) in
  match round p with
  | Sleeping => total (unpaid c (tier p) 0 []) m
  | Asked e ps => total (unpaid c (tier p) e ps) m + flight c (tier p) ps
  | Answered e ps _ => total (unpaid c (tier p) e ps) m
  end.

(** A round's report against the buckets it was taken from, which have only
    moved on since. *)
Definition pendings_ok m (e : Z) (ps : list (Pending K)) : Prop :=
  NoDup (p_key <$> ps) ∧
  ∀ q, q ∈ ps → 0 ≤ delta q ∧ ∀ b, m !! p_key q = Some b → matches e q b = true →
    pushed b + delta q = counted q ∧ counted q ≤ count b.

Definition round_ok p : Prop :=
  let m := buckets (limiter p) in
  match round p with
  | Sleeping => True
  | Asked e ps => pendings_ok m e ps
  | Answered e ps rows => pendings_ok m e ps ∧
      ∀ q, q ∈ ps → is_Some ((list_to_map (reverse rows) : gmap str Z) !!
        row_key show_key sha256 (tier p) (p_key q) e)
  end.

Record process_ok p : Prop := {
  ok_limiter : limiter_ok (limiter p);
  ok_round : round_ok p;
}.

Record fleet_ok f : Prop := {
  ok_procs : map_Forall (λ _ p, process_ok p) (procs f);
  ok_hits : map_Forall (λ _ row, 0 ≤ row.1) (shared f);
}.

Lemma find_key ps k q :
  List.find (λ q, bool_decide (p_key q = k)) ps = Some q → q ∈ ps ∧ p_key q = k.
Proof.
  intros Hf. apply List.find_some in Hf as [Hin Hk]. split; [by apply list_elem_of_In|].
  by apply bool_decide_eq_true in Hk.
Qed.

Lemma base_bounds m e ps max k b :
  pendings_ok m e ps → m !! k = Some b → bucket_ok max b → 0 ≤ base e ps k b ≤ count b.
Proof.
  intros [_ Hps] Hk [Hp _ _ _]. unfold base.
  destruct (List.find _ ps) as [q|] eqn:E; [|lia]. apply find_key in E as [Hin <-].
  destruct (matches e q b) eqn:Hm; [|lia]. destruct (Hps q Hin) as [Hd Hb].
  destruct (Hb b Hk Hm). lia.
Qed.

Lemma pendings_nil m e : pendings_ok m e [].
Proof. split; [constructor|]. intros q Hq. by apply not_elem_of_nil in Hq. Qed.

Lemma unpaid_nonneg c tier m e ps max :
  map_Forall (λ _ b, bucket_ok max b) m → pendings_ok m e ps →
  ∀ k b, m !! k = Some b → 0 ≤ unpaid c tier e ps k b.
Proof.
  intros Hm Hps k b Hk. unfold unpaid. case_decide; [|done].
  pose proof (base_bounds m e ps max k b Hps Hk (Hm k b Hk)). lia.
Qed.

Lemma flight_nonneg c tier m e ps : pendings_ok m e ps → 0 ≤ flight c tier ps.
Proof.
  intros [_ Hps]. unfold flight. induction ps as [|q ps IH]; [done|]. csimpl. rewrite sumZ_cons.
  assert (0 ≤ delta q) by (apply Hps; constructor). case_decide; [|rewrite Z.add_0_l].
  - enough (0 ≤ sumZ ((λ q, if decide (tag tier (p_key q) = c) then delta q else 0) <$> ps)) by lia.
    apply IH. intros q' Hq'. apply Hps. by constructor.
  - apply IH. intros q' Hq'. apply Hps. by constructor.
Qed.

(** What is owed is never negative. *)
Lemma owed_nonneg c p : process_ok p → 0 ≤ owed c p.
Proof.
  intros [[_ Hb _ _] Hr]. unfold owed, round_ok in *. destruct (round p) as [|e ps|e ps rows].
  - eapply total_nonneg, unpaid_nonneg; [exact Hb|apply pendings_nil].
  - pose proof (flight_nonneg c (tier p) _ _ _ Hr).
    enough (0 ≤ total (unpaid c (tier p) e ps) (buckets (limiter p))) by lia.
    by eapply total_nonneg, unpaid_nonneg.
  - destruct Hr. by eapply total_nonneg, unpaid_nonneg.
Qed.

(** ** A report takes its deltas out of the buckets *)

Lemma base_other e q ps k b : p_key q ≠ k → base e (q :: ps) k b = base e ps k b.
Proof. intros Hne. unfold base. simpl. by rewrite bool_decide_eq_false_2. Qed.

Lemma base_absent e ps k b : k ∉ p_key <$> ps → base e ps k b = pushed b.
Proof.
  intros Hk. unfold base. destruct (List.find _ ps) as [q|] eqn:E; [|done].
  apply find_key in E as [Hin <-]. destruct Hk. apply list_elem_of_fmap. by exists q.
Qed.

Lemma pendings_cons m e q ps : pendings_ok m e (q :: ps) → pendings_ok m e ps ∧ p_key q ∉ p_key <$> ps.
Proof.
  intros [Hnd Hps]. apply NoDup_cons in Hnd as [Hq Hnd]. split; [|done]. split; [done|].
  intros q' Hq'. apply Hps. by constructor.
Qed.

(** The deltas a report carries are taken off what the buckets still owe: all
    of them while their buckets stand, so a failed statement gives back at most
    what it took. *)
Lemma asked_balance c tier m e ps :
  pendings_ok m e ps →
  total (unpaid c tier 0 []) m ≤ total (unpaid c tier e ps) m + flight c tier ps
  ∧ ((∀ q, q ∈ ps → ∃ b, m !! p_key q = Some b ∧ matches e q b = true) →
     total (unpaid c tier 0 []) m = total (unpaid c tier e ps) m + flight c tier ps).
Proof.
  induction ps as [|q ps IH]; intros Hps; [unfold flight; simpl; split; intros; rewrite Z.add_0_r; done|].
  destruct (pendings_cons m e q ps Hps) as [Hps' Hq].
  destruct (IH Hps') as [Hle Heq]. clear IH.
  pose proof (total_at (unpaid c tier e (q :: ps)) (unpaid c tier e ps) m (p_key q)) as Hat.
  rewrite Hat by (intros k b Hne; unfold unpaid; by rewrite base_other).
  unfold flight in *. csimpl. rewrite sumZ_cons. destruct Hps as [_ Hps].
  destruct (Hps q ltac:(constructor)) as [Hd Hb]. unfold unpaid at 3 4 7 8.
  destruct (m !! p_key q) as [b|] eqn:E.
  - rewrite (base_absent e ps (p_key q) b Hq). unfold base. simpl. rewrite bool_decide_eq_true_2 by done.
    specialize (Hb b eq_refl). destruct (matches e q b) eqn:Hm.
    + destruct (Hb eq_refl) as [? _]. case_decide; split; try lia; intros Hall;
        rewrite Heq by (intros; apply Hall; by constructor); lia.
    + split; [case_decide; lia|]. intros Hall. destruct (Hall q ltac:(constructor)) as (b' & Hb' & Hm').
      congruence.
  - split; [case_decide; lia|]. intros Hall. destruct (Hall q ltac:(constructor)) as (b' & Hb' & _).
    congruence.
Qed.

(** ** A request *)

(** A check moves only the caller's bucket, by at most the one it lets in; a
    bucket it opens is one no round has seen. *)
Lemma check_key_moves (o : HashOrder K) now key l r l' :
  check_key o now key l = (r, l') → limiter_ok l →
  limiter_ok l' ∧ ((l' = l) ∨ ∃ m, m ⊆ buckets l ∧ m !! key = buckets l !! key
    ∧ (buckets l' = m
       ∨ ∃ b', buckets l' = <[key := b']> m
           ∧ ((∃ b, buckets l !! key = Some b
                 ∧ (b' = b ∨ (r = Ok () ∧ b' = admit_one b ∧ count b' = count b + 1)))
              ∨ (epoch b' = None ∧ pushed b' = 0 ∧ (count b' = 0 ∨ r = Ok () ∧ count b' = 1))))).
Proof.
  intros Hc Hok. split; [by eapply check_key_ok|].
  destruct (decide (max_per_window l = 0)) as [Hz|Hmax].
  { left. unfold check_key in Hc. rewrite Hz in Hc. by injection Hc as <- <-. }
  right. pose proof (limiter_counts_ok l Hok) as Hcs.
  apply check_key_buckets in Hc as (_ & _ & m & Hsub & Hkey & _ & _ & Hc); [|done..].
  exists m. split_and!; [done|done|].
  destruct Hc as [(_ & _ & ->)|[(-> & _ & Hca & ->)|(_ & _ & ->)]]; [by left|right..].
  - eexists. split; [done|]. destruct (standing_cases now key l) as [(b & Hb & _ & Hst)|[Hst _]].
    + left. exists b. split; [done|]. right. by rewrite Hst in *.
    + right. rewrite Hst. split_and!; [done|done|right; done].
  - eexists. split; [done|]. destruct (standing_cases now key l) as [(b & Hb & _ & Hst)|[Hst _]].
    + left. exists b. split; [done|]. by left.
    + right. rewrite Hst. split_and!; [done|done|left; done].
Qed.

(** One bucket's part in what is owed moves by at most the admit. *)
Lemma unpaid_entry c tier e ps k b b' r :
  ((b' = b ∨ (r = Ok () ∧ b' = admit_one b ∧ count b' = count b + 1))) →
  unpaid c tier e ps k b' ≤ unpaid c tier e ps k b
    + (if decide (is_ok (E := Z) r = true ∧ tag tier k = c) then 1 else 0).
Proof.
  unfold unpaid. intros [->|(-> & -> & Hca)]; [case_decide; case_decide; lia|].
  rewrite Hca. assert (base e ps k (admit_one b) = base e ps k b) as -> by done.
  simpl. case_decide; case_decide; naive_solver lia.
Qed.

Lemma unpaid_opened c tier e ps k b' r :
  epoch b' = None → pushed b' = 0 → (count b' = 0 ∨ r = Ok () ∧ count b' = 1) →
  0 ≤ unpaid c tier e ps k b' ≤ if decide (is_ok (E := Z) r = true ∧ tag tier k = c) then 1 else 0.
Proof.
  intros He Hp Hc. assert (base e ps k b' = 0) as Hb.
  { unfold base, matches. rewrite He, bool_decide_eq_false_2 by done. simpl. by case_match. }
  unfold unpaid. rewrite Hb. case_decide; case_decide; naive_solver lia.
Qed.

Lemma check_unpaid c tier e ps (o : HashOrder K) now key l r l' :
  check_key o now key l = (r, l') → limiter_ok l → pendings_ok (buckets l) e ps →
  pendings_ok (buckets l') e ps
  ∧ total (unpaid c tier e ps) (buckets l') ≤ total (unpaid c tier e ps) (buckets l)
      + (if decide (is_ok r = true ∧ tag tier key = c) then 1 else 0).
Proof.
  intros Hc Hok Hps.
  destruct (check_key_moves _ _ _ _ _ _ Hc Hok) as (_ & [->|(m & Hsub & Hkey & Hm)]).
  { split; [done|]. case_decide; lia. }
  assert (∀ k b, buckets l !! k = Some b → 0 ≤ unpaid c tier e ps k b) as Hnn.
  { eapply unpaid_nonneg; [apply (ok_buckets _ Hok)|done]. }
  pose proof (total_subseteq (unpaid c tier e ps) _ _ Hsub Hnn) as Hle.
  destruct Hps as [Hnd Hps]. destruct Hm as [->|(b' & -> & Hb')].
  - split; [|case_decide; lia]. split; [done|]. intros q Hq. destruct (Hps q Hq) as [? Hb].
    split; [done|]. intros b Hbm. apply Hb. by eapply lookup_weaken.
  - split.
    + split; [done|]. intros q Hq. destruct (Hps q Hq) as [Hd Hb]. split; [done|].
      intros b [[Hq' <-]|[_ Hbm]]%lookup_insert_Some; [|apply Hb; by eapply lookup_weaken].
      rewrite Hq' in *.
      destruct Hb' as [(b0 & Hb0 & [->|(_ & -> & ->)])|(He & _)].
      * by apply Hb.
      * intros Hmt. destruct (Hb b0 Hb0 Hmt). simpl. lia.
      * unfold matches. by rewrite He, bool_decide_eq_false_2.
    + rewrite total_insert, Hkey. destruct Hb' as [(b0 & Hb0 & Hb')|(He & Hp & Hcn)].
      * rewrite Hb0. simpl. pose proof (unpaid_entry c tier e ps key b0 b' r Hb'). lia.
      * pose proof (unpaid_opened c tier e ps key b' r He Hp Hcn).
        destruct (buckets l !! key) as [b0|] eqn:E; simpl; [pose proof (Hnn key b0 E)|]; lia.
Qed.

(** ** Taking a report *)

Lemma roll_ok max e b : bucket_ok max b → bucket_ok max (roll e b) ∧ epoch (roll e b) = Some e
  ∧ count (roll e b) = count b ∧ pushed b ≤ pushed (roll e b).
Proof.
  intros Hb. unfold roll. case_bool_decide as He; [by split_and!|]. destruct Hb.
  destruct (bool_decide (is_Some (epoch b))); simpl; split_and!; try done; try lia;
    split; simpl; unfold u32_max; (lia || done).
Qed.

Lemma take_pending_reports (o : HashOrder K) now e m ps m' q :
  take_pending o now e m = (ps, m') → q ∈ ps →
  ∃ b, m !! p_key q = Some b ∧ m' !! p_key q = Some (roll e b) ∧ q = pending_of (p_key q) (roll e b).
Proof.
  intros Ht Hq. assert (∃ b, (p_key q, b) ∈ reported o now m ∧ q = pending_of (p_key q) (roll e b))
    as (b & Hin & Heq).
  { injection Ht as <- _. rewrite <- list_fmap_compose in Hq.
    apply list_elem_of_fmap in Hq as ([k b] & -> & Hin). by exists b. }
  exists b. assert (m !! p_key q = Some b) as Hb.
  { apply (elem_of_hash_iter o). eapply elem_of_sublist; [exact Hin|apply reported_sublist]. }
  split_and!; [done| |done]. rewrite (take_pending_lookup _ _ _ _ _ _ _ Ht), decide_True, Hb; [done|].
  apply list_elem_of_fmap. by exists (p_key q, b).
Qed.

Lemma take_pending_ok (o : HashOrder K) now e l ps m' :
  take_pending o now e (buckets l) = (ps, m') → limiter_ok l →
  limiter_ok (with_buckets m' l) ∧ pendings_ok m' e ps
  ∧ ∀ q, q ∈ ps → ∃ b, m' !! p_key q = Some b ∧ matches e q b = true.
Proof.
  intros Ht Hok. assert (∀ q, q ∈ ps → ∃ b, m' !! p_key q = Some b ∧ matches e q b = true
    ∧ pushed b + delta q = counted q ∧ counted q = count b ∧ 0 ≤ delta q) as Hall.
  { intros q Hq. destruct (take_pending_reports _ _ _ _ _ _ _ Ht Hq) as (b & Hb & Hb' & Heq).
    pose proof (ok_buckets _ Hok _ _ Hb) as Hbok. simpl in Hbok.
    destruct (roll_ok _ e b Hbok) as (Hr & He & _ & _). exists (roll e b).
    pose proof (ok_max _ Hok). rewrite Heq. simpl.
    rewrite u32_wrapping_sub_id by (destruct Hr; unfold in_u32, u32_max in *; lia).
    split_and!; [done| |lia|done|destruct Hr; lia].
    unfold matches. simpl. by rewrite He, !bool_decide_eq_true_2. }
  split_and!.
  - destruct Hok as [Hmax Hbs Hsize Hover]. split; simpl; try done.
    + intros k b' Hk. rewrite (take_pending_lookup _ _ _ _ _ _ _ Ht) in Hk.
      case_decide; [|by apply (Hbs k)]. destruct (buckets l !! k) as [b|] eqn:E; [|done].
      injection Hk as <-. apply roll_ok, (Hbs k b E).
    + enough (size m' = size (buckets l)) as -> by done.
      rewrite <- !size_dom. f_equal. apply set_eq. intros k. rewrite !elem_of_dom.
      rewrite (take_pending_lookup _ _ _ _ _ _ _ Ht). case_decide; [|done].
      destruct (buckets l !! k); simpl; split; intros [? ?]; by eauto.
  - split.
    + injection Ht as <- _. rewrite <- !list_fmap_compose.
      replace (fmap _ (reported o now (buckets l))) with (reported o now (buckets l)).*1; [|done].
      eapply keys_nodup, reported_sublist.
    + intros q Hq. destruct (Hall q Hq) as (b & Hb & _ & Hp & Hc & Hd). split; [done|].
      intros b' Hb' _. assert (b' = b) as -> by congruence. lia.
  - intros q Hq. destruct (Hall q Hq) as (b & Hb & Hm & _). by exists b.
Qed.

(** Rolling a bucket into a new row only lowers what is owed for it. *)
Lemma take_pending_unpaid c tier (o : HashOrder K) now e l ps m' :
  take_pending o now e (buckets l) = (ps, m') → limiter_ok l →
  total (unpaid c tier 0 []) m' ≤ total (unpaid c tier 0 []) (buckets l).
Proof.
  intros Ht Hok. pose proof (ok_buckets _ Hok) as Hbs.
  set (rs := (reported o now (buckets l)).*1).
  rewrite (total_ext_map (unpaid c tier 0 []) (λ k b, unpaid c tier 0 [] k
    (if decide (k ∈ rs) then roll e b else b)) m' (buckets l)).
  2:{ intros k. rewrite (take_pending_lookup _ _ _ _ _ _ _ Ht). fold rs.
      case_decide; by destruct (buckets l !! k). }
  apply total_mono. intros k b Hk. destruct (roll_ok _ e b (Hbs k b Hk)) as (_ & _ & Hc & Hp).
  unfold unpaid, base. simpl. case_decide; [|done]. case_decide; lia.
Qed.

(** ** The statement *)

Lemma upsert_billed tier e ps t t' rows c :
  upsert show_key sha256 tier e ps t = Some (t', rows) →
  billed c t' = billed c t + flight c tier ps.
Proof.
  revert t t' rows. induction ps as [|q ps IH]; intros t t' rows; simpl.
  - intros [= -> _]. unfold flight. simpl. by rewrite Z.add_0_r.
  - case_decide; [|done]. intros ([t1 rows1] & Hup & [= <- _])%bind_Some.
    rewrite (IH _ _ _ Hup). unfold billed, SharedRows in *. rewrite total_insert, client_of_row_key.
    unfold flight. csimpl. rewrite sumZ_cons.
    destruct (t !! row_key show_key sha256 tier (p_key q) e) as [[hits start]|]; simpl;
      rewrite ?client_of_row_key; repeat case_decide; naive_solver lia.
Qed.

Lemma upsert_hits tier e ps t t' rows m :
  upsert show_key sha256 tier e ps t = Some (t', rows) → pendings_ok m e ps →
  map_Forall (λ _ row, 0 ≤ row.1) t → map_Forall (λ _ row, 0 ≤ row.1) t'.
Proof.
  revert t t' rows. induction ps as [|q ps IH]; intros t t' rows; simpl.
  - by intros [= -> _].
  - case_decide; [|done]. intros ([t1 rows1] & Hup & [= <- _])%bind_Some Hps Ht.
    pose proof (pendings_cons _ _ _ _ Hps) as [Hps' _]. eapply IH; [exact Hup|done|].
    destruct Hps as [_ Hps]. destruct (Hps q ltac:(constructor)) as [Hd _].
    apply map_Forall_insert_2; [|done].
    destruct (t !! _) as [[hits start]|] eqn:E; simpl; [|done].
    pose proof (Ht _ _ E) as Hh. simpl in Hh. lia.
Qed.

Lemma upsert_ids tier e ps t t' rows :
  upsert show_key sha256 tier e ps t = Some (t', rows) →
  rows.*1 = (λ q, row_key show_key sha256 tier (p_key q) e) <$> ps.
Proof.
  revert t t' rows. induction ps as [|q ps IH]; intros t t' rows; simpl.
  - by intros [= _ <-].
  - case_decide; [|done]. intros ([t1 rows1] & Hup & [= _ <-])%bind_Some. csimpl.
    by rewrite (IH _ _ _ Hup).
Qed.

Lemma fold_inv tier e ps t rows t' :
  fold_statement show_key sha256 tier e ps t = Ok (rows, t') →
  upsert show_key sha256 tier e ps t = Some (t', rows)
  ∧ ∀ q, q ∈ ps → is_Some ((list_to_map (reverse rows) : gmap str Z) !!
      row_key show_key sha256 tier (p_key q) e).
Proof.
  unfold fold_statement. case_decide as Hnd; [|done].
  destruct (upsert _ _ _ _ _ _) as [[t1 rows1]|] eqn:E; [|done]. intros [= -> ->]. split; [done|].
  intros q Hq. apply not_eq_None_Some. rewrite <- not_elem_of_list_to_map.
  rewrite fmap_reverse, elem_of_reverse, (upsert_ids _ _ _ _ _ _ E). intros Hno. apply Hno.
  apply list_elem_of_fmap. by exists q.
Qed.

(** ** The landing *)

Definition landed (tier : str) (e : Z) (totals : gmap str Z) q (b : Bucket) : Bucket :=
  match totals !! row_key show_key sha256 tier (p_key q) e with
  | None => b
  | Some total => if matches e q b
      then MkBucket (window_start b) (count b) (counted q) (Z.max 0 (Z.min u32_max total)) (epoch b)
      else b
  end.

Lemma land_one_lookup tier e totals m q k :
  land_one show_key sha256 tier e totals m q !! k
  = if decide (p_key q = k) then landed tier e totals q <$> m !! k else m !! k.
Proof.
  unfold land_one, landed, matches.
  destruct (totals !! _) as [total|]; [|case_decide; [subst; by destruct (m !! p_key q)|done]].
  destruct (m !! p_key q) as [b|] eqn:E.
  - destruct (bool_decide (epoch b = Some e) && _) eqn:Hm; destruct (decide (p_key q = k)) as [<-|Hk].
    + rewrite lookup_insert_eq, E. simpl. by rewrite Hm.
    + by rewrite lookup_insert_ne.
    + rewrite E. simpl. by rewrite Hm.
    + done.
  - case_decide as Hk; [|done]. subst. by rewrite E.
Qed.

Lemma land_lookup tier e ps rows m k :
  NoDup (p_key <$> ps) →
  land show_key sha256 tier e ps rows m !! k
  = match List.find (λ q, bool_decide (p_key q = k)) ps with
    | Some q => landed tier e (list_to_map (reverse rows)) q <$> m !! k
    | None => m !! k
    end.
Proof.
  unfold land. generalize (list_to_map (reverse rows) : gmap str Z). intros totals.
  revert m. induction ps as [|q ps IH]; intros m; csimpl; [done|].
  intros [Hq Hnd]%NoDup_cons. rewrite IH by done. rewrite land_one_lookup.
  destruct (decide (p_key q = k)) as [Hk|Hk]; simpl; [|by rewrite bool_decide_eq_false_2].
  rewrite bool_decide_eq_true_2 by done. destruct (List.find _ ps) as [q'|] eqn:E; [|done].
  apply find_key in E as [Hin E]. destruct Hq. apply list_elem_of_fmap. exists q'. split; [congruence|done].
Qed.

(** Landing writes down in the buckets exactly what the statement billed. *)
Lemma land_unpaid c tier e ps rows m :
  pendings_ok m e ps →
  (∀ q, q ∈ ps → is_Some ((list_to_map (reverse rows) : gmap str Z) !!
     row_key show_key sha256 tier (p_key q) e)) →
  total (unpaid c tier 0 []) (land show_key sha256 tier e ps rows m) = total (unpaid c tier e ps) m.
Proof.
  intros [Hnd _] Hrows. apply total_ext_map. intros k. rewrite land_lookup by done.
  unfold unpaid, base at 2. destruct (List.find _ ps) as [q|] eqn:E; [|done].
  apply find_key in E as [Hin <-]. destruct (m !! p_key q) as [b|]; [|done]. simpl. f_equal.
  destruct (Hrows q Hin) as [total Ht]. unfold landed. rewrite Ht.
  unfold base. simpl. by destruct (matches e q b).
Qed.

Lemma landed_ok max tier e totals q b :
  bucket_ok max b → (matches e q b = true → pushed b + delta q = counted q ∧ counted q ≤ count b) →
  0 ≤ delta q → bucket_ok max (landed tier e totals q b).
Proof.
  intros Hb Hq Hd. unfold landed. case_match; [|done]. destruct (matches e q b) eqn:Hm; [|done].
  destruct (Hq eq_refl). unfold matches in Hm. apply andb_true_iff in Hm as [He _].
  apply bool_decide_eq_true in He. destruct Hb.
  split; simpl; unfold u32_max; [lia..|]. rewrite He. done.
Qed.

Lemma land_ok tier e ps rows l :
  limiter_ok l → pendings_ok (buckets l) e ps →
  limiter_ok (with_buckets (land show_key sha256 tier e ps rows (buckets l)) l).
Proof.
  intros [Hmax Hbs Hsize Hover] [Hnd Hps]. split; simpl; try done.
  - intros k b' Hk. rewrite land_lookup in Hk by done.
    destruct (List.find _ ps) as [q|] eqn:E; [|by apply (Hbs k)].
    apply find_key in E as [Hin <-]. destruct (buckets l !! p_key q) as [b|] eqn:Eb; [|done].
    injection Hk as <-. destruct (Hps q Hin) as [Hd Hb].
    apply landed_ok; [apply (Hbs _ _ Eb)|by apply Hb|done].
  - enough (size (land show_key sha256 tier e ps rows (buckets l)) = size (buckets l)) as -> by done.
    rewrite <- !size_dom. f_equal. apply set_eq. intros k. rewrite !elem_of_dom.
    rewrite land_lookup by done. destruct (List.find _ ps); [|done].
    destruct (buckets l !! k); simpl; split; intros [? ?]; by eauto.
Qed.

(** ** One step of the fleet *)

Definition owes (c : str) f : Z := total (λ _ p, owed c p) (procs f).

Lemma owes_set c i p p' f t :
  procs f !! i = Some p →
  owes c (MkFleet (<[i := p']> (procs f)) t) = owes c f - owed c p + owed c p'.
Proof. intros Hi. unfold owes. simpl. rewrite total_insert, Hi. simpl. lia. Qed.

Lemma owes_nonneg c f : fleet_ok f → 0 ≤ owes c f.
Proof. intros [Hp _]. apply total_nonneg. intros i p Hi. by apply owed_nonneg, (Hp i). Qed.

Lemma billed_sweep c e t : map_Forall (λ _ row, 0 ≤ row.1) t → billed c (sweep e t) ≤ billed c t.
Proof.
  intros Ht. unfold billed, sweep, SharedRows in *. apply total_subseteq; [apply map_filter_subseteq|].
  intros id row Hid. pose proof (Ht id row Hid). simpl in *. case_decide; lia.
Qed.

Lemma process_set_ok i p f t :
  fleet_ok f → process_ok p → map_Forall (λ _ row, 0 ≤ row.1) t →
  fleet_ok (MkFleet (<[i := p]> (procs f)) t).
Proof. intros [Hp _] Hp' Ht. split; simpl; [by apply map_Forall_insert_2|done]. Qed.

(** The buckets' report of a round that is under way. *)
Definition report p : Z * list (Pending K) :=
  match round p with Sleeping => (0, []) | Asked e ps | Answered e ps _ => (e, ps) end.

Lemma report_ok p : process_ok p → pendings_ok (buckets (limiter p)) (report p).1 (report p).2.
Proof.
  intros [_ Hr]. unfold round_ok, report in *. destruct (round p); [apply pendings_nil|done|by destruct Hr].
Qed.

Lemma owed_report c p :
  owed c p = total (unpaid c (tier p) (report p).1 (report p).2) (buckets (limiter p))
    + (if round p is Asked _ ps then flight c (tier p) ps else 0).
Proof. unfold owed, report. destruct (round p); simpl; lia. Qed.

Lemma check_process c (o : HashOrder K) now key r l' p :
  check_key o now key (limiter p) = (r, l') → process_ok p →
  let p' := MkProcess (tier p) l' (round p) in
  process_ok p' ∧ owed c p' ≤ owed c p + (if decide (is_ok r = true ∧ tag (tier p) key = c) then 1 else 0).
Proof.
  intros Hc Hok. cbv zeta. pose proof (report_ok p Hok) as Hps. destruct Hok as [Hl Hr].
  destruct (check_unpaid c (tier p) _ _ o now key _ r l' Hc Hl Hps) as [Hps' Hle]. split.
  - split; [by eapply check_key_ok|]. unfold round_ok, report in *. simpl.
    destruct (round p); [done|done|]. split; [done|apply Hr].
  - rewrite !owed_report. simpl. unfold report in *. simpl. lia.
Qed.

Lemma step_ok f l g : step f l g → fleet_ok f → fleet_ok g.
Proof.
  intros Hs Hok. pose proof (ok_procs _ Hok) as Hps. pose proof (ok_hits _ Hok) as Hh.
  destruct Hs as [f i tr max now Hmax|f i p o now key r l' Hi Hc|f i p o now wall ps m Hi Hr Hmx Ht
    |f i p e ps rows t Hi Hr Hf|f i p e ps Hi Hr|f i p e ps rows t Hi Hr Hf|f i p e ps rows Hi Hr|f wall];
    try (pose proof (Hps i p Hi) as Hp; simpl in Hp).
  - apply process_set_ok; [done| |done]. split; [by apply new_ok|done].
  - apply process_set_ok; [done| |done]. by apply (check_process [] o now key r l').
  - destruct (take_pending_ok _ _ _ _ _ _ Ht (ok_limiter _ Hp)) as (Hl & Hps' & _).
    apply process_set_ok; [done| |done]. split; [done|]. unfold round_ok. simpl. by destruct ps.
  - apply fold_inv in Hf as [Hup Hrows]. pose proof (report_ok p Hp) as Hrep.
    unfold report in Hrep. rewrite Hr in Hrep.
    apply process_set_ok; [done| |by eapply upsert_hits]. split; [apply Hp|]. by split.
  - apply process_set_ok; [done| |done]. split; [apply Hp|done].
  - apply fold_inv in Hf as [Hup _]. pose proof (report_ok p Hp) as Hrep.
    unfold report in Hrep. rewrite Hr in Hrep.
    apply process_set_ok; [done| |by eapply upsert_hits]. split; [apply Hp|done].
  - apply process_set_ok; [done| |done]. split; [|done]. simpl. apply land_ok; [apply Hp|].
    pose proof (report_ok p Hp) as Hrep. unfold report in Hrep. by rewrite Hr in Hrep.
  - split; [done|]. simpl. intros id row [Hid _]%map_lookup_filter_Some. by apply (Hh id row).
Qed.

(** The hits of a client in the report of a late fold. *)
Definition unheard_in (c : str) (l : Label) : Z :=
  match l with Late ps => sumZ ((λ p : str * Z, if decide (p.1 = c) then p.2 else 0) <$> ps) | _ => 0 end.

Lemma unheard_flight c tier ps : unheard_in c (Late ((λ q, (tag tier (p_key q), delta q)) <$> ps)) = flight c tier ps.
Proof. unfold unheard_in, flight. by rewrite <- list_fmap_compose. Qed.

Lemma step_bill c f l g :
  step f l g → fleet_ok f →
  billed c (shared g) + owes c g
    ≤ billed c (shared f) + owes c f + (if decide (l = Allowed c) then 1 else 0) + unheard_in c l.
Proof.
  intros Hs Hok. pose proof (ok_procs _ Hok) as Hps.
  destruct Hs as [f i tr max now Hmax|f i p o now key r l' Hi Hc|f i p o now wall ps m Hi Hr Hmx Ht
    |f i p e ps rows t Hi Hr Hf|f i p e ps Hi Hr|f i p e ps rows t Hi Hr Hf|f i p e ps rows Hi Hr|f wall];
    try rewrite unheard_flight; try change (unheard_in c Silent) with 0;
    try (pose proof (Hps i p Hi) as Hp; simpl in Hp; pose proof (report_ok p Hp) as Hrep;
         unfold report in Hrep; try rewrite Hr in Hrep); unfold with_process;
    try rewrite (owes_set c i p) by done; try rewrite decide_False by done.
  - unfold owes. simpl. rewrite total_insert. change (owed c (MkProcess tr (new max now) Sleeping)) with
      (total (unpaid c tr 0 []) (∅ : gmap K Bucket)). rewrite total_empty.
    destruct (procs f !! i) as [p|] eqn:E; simpl; [pose proof (owed_nonneg c p (Hps i p E))|]; lia.
  - simpl. assert (unheard_in c (if is_ok r then Allowed (tag (tier p) key) else Refused (tag (tier p) key)) = 0) as ->
      by (by destruct (is_ok r)).
    destruct (check_process c o now key r l' p Hc Hp) as [_ Hle].
    enough ((if decide (is_ok r = true ∧ tag (tier p) key = c) then 1 else 0)
      ≤ if decide ((if is_ok r then Allowed (tag (tier p) key) else Refused (tag (tier p) key)) = Allowed c)
        then 1 else 0) by lia.
    case_decide as Hd; [|by case_decide]. destruct Hd as [Hr ->]. by rewrite Hr, decide_True.
  - simpl. pose proof (take_pending_unpaid c (tier p) _ _ _ _ _ _ Ht (ok_limiter _ Hp)) as Hle.
    destruct (take_pending_ok _ _ _ _ _ _ Ht (ok_limiter _ Hp)) as (_ & Hps' & Hall).
    destruct (asked_balance c (tier p) m _ ps Hps') as [_ Heq]. specialize (Heq Hall).
    assert (owed c p = total (unpaid c (tier p) 0 []) (buckets (limiter p))) as ->
      by (unfold owed; by rewrite Hr).
    destruct ps; unfold owed; simpl in *; lia.
  - apply fold_inv in Hf as [Hup _]. simpl. rewrite (upsert_billed _ _ _ _ _ _ c Hup).
    unfold owed at 1. rewrite Hr. unfold owed. simpl. lia.
  - simpl. destruct (asked_balance c (tier p) _ e ps Hrep) as [Hle _].
    unfold owed at 1. rewrite Hr. unfold owed. simpl. lia.
  - apply fold_inv in Hf as [Hup _]. simpl. rewrite (upsert_billed _ _ _ _ _ _ c Hup).
    destruct (asked_balance c (tier p) _ e ps Hrep) as [Hle _].
    unfold owed at 1. rewrite Hr. unfold owed. simpl. lia.
  - simpl. unfold owed at 1. rewrite Hr. unfold owed. simpl.
    destruct Hp as [_ Hro]. unfold round_ok in Hro. rewrite Hr in Hro. destruct Hro as [_ Hrows].
    rewrite land_unpaid by (apply Hrep || done). lia.
  - simpl. pose proof (billed_sweep c (current_epoch wall) (shared f) (ok_hits _ Hok)).
    unfold owes. simpl. lia.
Qed.

(** ** Runs *)

(** A fleet before anything happened. *)
Definition nobody : Fleet K := MkFleet ∅ ∅.

Definition admitted (c : str) (ls : list Label) : Z :=
  Z.of_nat (length (filter (λ l, l = Allowed c) ls)).

Lemma run_ok ls f : run nobody ls f → fleet_ok f.
Proof.
  intros Hr. remember nobody as f0 eqn:Hf0. induction Hr as [f|f ls g l h _ IH Hs]; subst.
  - split; apply map_Forall_empty.
  - by eapply step_ok; [|apply IH].
Qed.

(** The hits of a client that were reported, committed and not heard of. *)
Definition unheard (c : str) (ls : list Label) : Z := sumZ (unheard_in c <$> ls).

Lemma run_bill c ls f :
  run nobody ls f → billed c (shared f) + owes c f ≤ admitted c ls + unheard c ls.
Proof.
  intros Hr. remember nobody as f0 eqn:Hf0. induction Hr as [f|f ls g l h Hr IH Hs]; subst.
  - unfold billed, owes, SharedRows. simpl. rewrite !total_empty. done.
  - specialize (IH eq_refl). pose proof (step_bill c _ _ _ Hs (run_ok _ _ Hr)).
    unfold admitted, unheard in *. rewrite filter_app, length_app, fmap_app, sumZ_app.
    assert (length (filter (λ l, l = Allowed c) [l]) = if decide (l = Allowed c) then 1%nat else 0%nat) as ->
      by (rewrite filter_cons, filter_nil; by case_decide).
    rewrite fmap_cons, fmap_nil, sumZ_cons. change (sumZ []) with 0. case_decide; lia.
Qed.

(** C31. The shared rows bill a client for its admits and for nothing else but the
    reports whose commit went unheard: however many processes of a tier start,
    stop, admit, report, fail, land and sweep, and in whatever order, a client's
    rows hold at most as many hits as requests of it were let in, plus the hits of
    the reports its processes' deadlines dropped after the server had committed
    them. So without such a drop no admit is billed twice, and with one no more is
    billed again than that report carried. *)
Theorem billed_for_admits c ls f :
  run nobody ls f → billed c (shared f) ≤ admitted c ls + unheard c ls.
Proof.
  intros Hr. pose proof (run_bill c ls f Hr). pose proof (owes_nonneg c f (run_ok ls f Hr)). lia.
Qed.

(** The limiter stays within its bounds: in every fleet that can be reached,
    late statements included, no process ever holds more than [PURGE_AT]
    buckets, no bucket counts more than the tier's budget or has pushed more
    than it counted (so no [u32] subtraction of it wraps and no increment
    overflows), the overflow counter stays within its own budget, and no
    shared row is negative. *)
Theorem limiter_bounds ls f i p :
  run nobody ls f → procs f !! i = Some p →
  Z.of_nat (size (buckets (limiter p))) ≤ PURGE_AT
  ∧ (∀ k b, buckets (limiter p) !! k = Some b →
       0 ≤ pushed b ≤ count b ∧ count b ≤ max_per_window (limiter p) ≤ u32_max
       ∧ u32_wrapping_sub (count b) (pushed b) = count b - pushed b ∧ in_u32 (remote b))
  ∧ 0 ≤ count (overflow (limiter p)) ≤ RATE_LIMIT_OVERFLOW_MAX
  ∧ (∀ id hits start, shared f !! id = Some (hits, start) → 0 ≤ hits).
Proof.
  intros Hr Hi. destruct (run_ok ls f Hr) as [Hps Hh]. destruct (Hps i p Hi) as [[Hmax Hbs Hsize Hover] _].
  split; [done|split; [|split]].
  - intros k b Hk. destruct (Hbs k b Hk) as [? ? ? _]. unfold in_u32.
    rewrite u32_wrapping_sub_id by (unfold in_u32, u32_max in *; lia). lia.
  - destruct Hover as [[] _]. lia.
  - intros id hits start Hid. apply (Hh id (hits, start) Hid).
Qed.

End Sharing.
