(* ===== verification/RateRuns.v ===== *)
(** * Runs of the rate limiter

    Fleets run step by step: the run in which a wall window turns before a
    report lands and what was admitted since is billed to no row, and the
    concrete limiters and fleets the theorems of [RateProofs] and [RateSharing]
    apply to. *)

From S2P Require Import Prelude Text Errors Effects Uuid RateLimit RateProofs RateSharing.

Open Scope Z_scope.

Section Runs.
Context {K : Type} `{Countable K} (show_key : K → str) (sha256 : str → list N).

Definition listed : HashOrder K := MkHashOrder map_to_list (λ _, reflexivity _).

(** One process with one client [k], whose bucket is [b]. *)
Definition alone (tier : str) (max : Z) (k : K) (b : Bucket) (r : Round) (t : SharedRows) : Fleet K :=
  MkFleet {[0%nat := MkProcess tier (MkRateLimiter max {[k := b]} (opened_at 0)) r]} t.

Lemma check_alone max k b ov :
  0 < max → lapsed 0 b = false → spent b < max →
  check_key listed 0 k (MkRateLimiter max {[k := b]} ov)
  = (Ok (), MkRateLimiter max {[k := admit_one b]} ov).
Proof.
  intros Hmax Hl Hs. unfold check_key. simpl. rewrite (proj2 (Z.eqb_neq _ _)) by lia.
  rewrite map_size_singleton. simpl. unfold enter. simpl. rewrite lookup_singleton_eq. simpl.
  rewrite Hl, (proj2 (Z.ltb_lt _ _)) by done. unfold with_buckets. simpl. by rewrite insert_singleton_eq.
Qed.

Lemma take_alone e k b :
  0 < count b → lapsed 0 b = false →
  take_pending listed 0 e {[k := b]} = ([pending_of k (roll e b)], {[k := roll e b]}).
Proof.
  intros Hc Hl. unfold take_pending, reported. simpl. rewrite map_to_list_singleton.
  rewrite filter_cons_True by done. rewrite filter_nil.
  change (take _ [(k, b)]) with [(k, b)]. csimpl. f_equal.
  rewrite insert_empty. by rewrite <- insert_union_singleton_l, insert_singleton_eq.
Qed.

Lemma fold_alone tier e q t :
  in_i64 (default 0 (fst <$> t !! row_key show_key sha256 tier (p_key q) e) + delta q) →
  ∃ total t', fold_statement show_key sha256 tier e [q] t
    = Ok ([(row_key show_key sha256 tier (p_key q) e, total)], t')
    ∧ upsert show_key sha256 tier e [q] t
      = Some (t', [(row_key show_key sha256 tier (p_key q) e, total)])
    ∧ total = default 0 (fst <$> t !! row_key show_key sha256 tier (p_key q) e) + delta q.
Proof.
  intros Hin. unfold fold_statement. rewrite decide_True by apply NoDup_singleton. simpl.
  destruct (t !! _) as [[hits start]|]; simpl in *; rewrite decide_True by done; simpl; eauto 10.
Qed.

Lemma land_alone tier e k q b total :
  p_key q = k → matches e q b = true →
  land show_key sha256 tier e [q] [(row_key show_key sha256 tier k e, total)] {[k := b]}
  = {[k := MkBucket (window_start b) (count b) (counted q) (Z.max 0 (Z.min u32_max total)) (epoch b)]}.
Proof.
  intros <- Hm. unfold land. simpl. unfold land_one. rewrite insert_empty, lookup_singleton_eq.
  rewrite lookup_singleton_eq. unfold matches in Hm. by rewrite Hm, insert_singleton_eq.
Qed.

(** The statement stores nothing a [bigint] cannot hold. *)
Lemma upsert_in_i64 tier e ps t t' rows :
  upsert show_key sha256 tier e ps t = Some (t', rows) →
  map_Forall (λ _ row, in_i64 row.1) t → map_Forall (λ _ row, in_i64 row.1) t'.
Proof.
  revert t rows. induction ps as [|q ps IH]; intros t rows; simpl.
  - by intros [= -> _].
  - case_decide; [|done]. intros ([t1 rows1] & Hup & [= <- _])%bind_Some Ht.
    eapply IH; [exact Hup|]. by apply map_Forall_insert_2.
Qed.

#[local] Arguments land {_ _ _} _ _ _ _ _ _ _ : simpl never.

(** A whole round of one client: report, statement, landing. *)
Lemma round_alone ls f0 tier max k b t wall :
  run show_key sha256 f0 ls (alone tier max k b Sleeping t) →
  max ≠ 0 → 0 < count b → lapsed 0 b = false →
  let e := current_epoch wall in
  let d := delta (pending_of k (roll e b)) in
  (∀ id hits start, t !! id = Some (hits, start) → in_i64 (hits + d)) → in_i64 d →
  ∃ total t', run show_key sha256 f0 (ls ++ [Silent] ++ [Silent] ++ [Silent])
      (alone tier max k (MkBucket (window_start b) (count b) (count b)
         (Z.max 0 (Z.min u32_max total)) (Some e)) Sleeping t')
    ∧ (∀ c, billed c t' = billed c t
         + if decide (client_tag show_key sha256 tier k = c) then d else 0)
    ∧ total = default 0 (fst <$> t !! row_key show_key sha256 tier k e) + d
    ∧ (map_Forall (λ _ row, in_i64 row.1) t → map_Forall (λ _ row, in_i64 row.1) t').
Proof.
  intros Hr Hmax Hc Hl. cbv zeta. intros Hin Hd. set (e := current_epoch wall).
  set (q := pending_of k (roll e b)).
  assert (epoch (roll e b) = Some e ∧ window_start (roll e b) = window_start b
    ∧ count (roll e b) = count b) as (He & Hw & Hcb).
  { unfold roll. case_bool_decide; by split_and!. }
  destruct (fold_alone tier e q t) as (total & t' & Hf & Hup & Htot).
  { simpl. destruct (t !! _) as [[hits start]|] eqn:E; [exact (Hin _ hits start E)|exact Hd]. }
  exists total, t'. split_and!.
  - rewrite !app_assoc. eapply run_snoc; [eapply run_snoc; [eapply run_snoc; [exact Hr|]|]|].
    + eapply (step_ask _ _ _ 0%nat _ listed 0 wall); [apply lookup_singleton_eq|done|done|].
      simpl. apply take_alone; done.
    + unfold with_process. simpl. rewrite insert_singleton_eq.
      eapply (step_fold _ _ _ 0%nat); [apply lookup_singleton_eq|done|exact Hf].
    + simpl. rewrite insert_singleton_eq.
      pose proof (step_land show_key sha256 (alone tier max k (roll e b)
        (Answered e [q] [(row_key show_key sha256 tier k e, total)]) t') 0%nat _ e [q] _
        (lookup_singleton_eq _ _) eq_refl) as Hs.
      unfold with_process, with_buckets in Hs. simpl in Hs.
      rewrite (land_alone _ _ _ _ _ total), insert_singleton_eq in Hs
        by (done || unfold matches; simpl; by rewrite He, !bool_decide_eq_true_2).
      rewrite He, Hw in Hs. simpl in Hs. rewrite Hcb in Hs. exact Hs.
  - intros c. rewrite (upsert_billed _ _ _ _ _ _ _ _ c Hup). unfold flight. simpl.
    unfold sumZ. simpl. by rewrite Z.add_0_r.
  - done.
  - by eapply upsert_in_i64.
Qed.

(** A round whose answer comes too late, over an empty table. *)
Lemma late_alone ls f0 tier max k b wall :
  run show_key sha256 f0 ls (alone tier max k b Sleeping ∅) →
  max ≠ 0 → 0 < count b → lapsed 0 b = false →
  let e := current_epoch wall in
  let d := delta (pending_of k (roll e b)) in
  in_i64 d →
  ∃ t', run show_key sha256 f0 (ls ++ [Silent] ++ [Late [(client_tag show_key sha256 tier k, d)]])
      (alone tier max k (roll e b) Sleeping t')
    ∧ (∀ c, billed c t' = if decide (client_tag show_key sha256 tier k = c) then d else 0)
    ∧ ∀ id row, t' !! id = Some row → row.1 = d.
Proof.
  intros Hr Hmax Hc Hl. cbv zeta. intros Hd. set (e := current_epoch wall). set (q := pending_of k (roll e b)).
  destruct (fold_alone tier e q ∅) as (total & t' & Hf & Hup & _); [unfold SharedRows; by rewrite lookup_empty|].
  exists t'. split_and!.
  - rewrite !app_assoc. eapply run_snoc; [eapply run_snoc; [exact Hr|]|].
    + eapply (step_ask _ _ _ 0%nat _ listed 0 wall); [apply lookup_singleton_eq|done|done|].
      simpl. apply take_alone; done.
    + unfold with_process. simpl. rewrite insert_singleton_eq.
      pose proof (step_late show_key sha256 (alone tier max k (roll e b) (Asked e [q]) ∅) 0%nat _ e [q] _ t'
        (lookup_singleton_eq _ _) eq_refl Hf) as Hs.
      simpl in Hs. by rewrite insert_singleton_eq in Hs.
  - intros c. rewrite (upsert_billed _ _ _ _ _ _ _ _ c Hup). unfold flight. simpl.
    unfold sumZ, billed, SharedRows. simpl. rewrite total_empty. by case_decide; simpl; rewrite ?Z.add_0_r.
  - intros id row. simpl in Hup. unfold SharedRows in *. rewrite lookup_empty in Hup. case_decide; [|done]. injection Hup as <- _.
    by intros [_ <-]%lookup_singleton_Some.
Qed.

(** [n] more requests of the client, each let in. *)
Lemma checks_alone ls f0 tier max k b t (n : nat) :
  run show_key sha256 f0 ls (alone tier max k b Sleeping t) →
  bucket_ok max b → max ≤ u32_max → lapsed 0 b = false →
  0 < max → spent b + Z.of_nat n ≤ max →
  ∃ b', run show_key sha256 f0 (ls ++ replicate n (Allowed (client_tag show_key sha256 tier k)))
      (alone tier max k b' Sleeping t)
    ∧ bucket_ok max b' ∧ count b' = count b + Z.of_nat n ∧ pushed b' = pushed b
    ∧ epoch b' = epoch b ∧ window_start b' = window_start b.
Proof.
  intros Hr. revert ls b Hr. induction n as [|n IH]; intros ls b Hr Hb Hmax Hl Hpos Hn.
  - exists b. rewrite app_nil_r. split_and!; try done. lia.
  - destruct (bucket_admit max b Hb Hmax) as (Hb' & Hc & Hs); [lia|].
    destruct (IH (ls ++ [Allowed (client_tag show_key sha256 tier k)]) (admit_one b))
      as (b' & Hr' & Hbok & Hc' & Hp & He & Hw); try done; [|lia|].
    + eapply run_snoc; [exact Hr|].
      pose proof (step_check show_key sha256 (alone tier max k b Sleeping t) 0%nat _ listed 0 k _ _
        (lookup_singleton_eq _ _) (check_alone max k b (opened_at 0) Hpos Hl ltac:(lia))) as Hst.
      unfold with_process in Hst. simpl in Hst. by rewrite insert_singleton_eq in Hst.
    + exists b'. rewrite <- app_assoc in Hr'. split_and!; try done. lia.
Qed.

(** A process starts and lets one request of the client in. *)
Lemma boot_and_admit tier max k :
  1 ≤ max ≤ u32_max →
  run show_key sha256 nobody [Silent; Allowed (client_tag show_key sha256 tier k)]
    (alone tier max k (MkBucket 0 1 0 0 None) Sleeping ∅).
Proof.
  intros Hmax. set (c := client_tag show_key sha256 tier k). set (b1 := MkBucket 0 1 0 0 None).
  change [Silent; Allowed c] with (([] ++ [Silent]) ++ [Allowed c]).
  eapply run_snoc; [eapply run_snoc; [apply run_nil|]|].
  - apply (step_boot _ _ _ 0%nat tier max 0). lia.
  - unfold with_process. simpl.
    assert (check_key listed 0 k (new max 0) = (Ok (), MkRateLimiter max {[k := b1]} (opened_at 0))) as Hc.
    { unfold check_key. simpl. rewrite (proj2 (Z.eqb_neq _ _)) by lia. rewrite map_size_empty. simpl.
      unfold enter. simpl. rewrite lookup_empty. simpl.
      change (lapsed 0 (opened_at 0)) with false. change (spent (opened_at 0)) with 0.
      rewrite (proj2 (Z.ltb_lt _ _)) by lia. done. }
    pose proof (step_check show_key sha256 (MkFleet {[0%nat := MkProcess tier (new max 0) Sleeping]} ∅)
      0%nat _ listed 0 k _ _ (lookup_singleton_eq _ _) Hc) as Hst.
    unfold with_process in Hst. simpl in Hst. by rewrite insert_singleton_eq in Hst.
Qed.

(** What is admitted between the last report of a wall window and its end is
    billed to no row. A client is let in once and reported; then [n] more times;
    then the wall window turns before the next round. After that round nothing
    is left to report, and the shared rows hold 1 hit for [n + 1] admits: a
    process that restarts knows nothing of the others. *)
Theorem roll_forgets tier max k (n : nat) :
  Z.of_nat n + 1 ≤ max ≤ u32_max →
  let c := client_tag show_key sha256 tier k in
  ∃ ls f p b, run show_key sha256 nobody ls f ∧ (∀ ps, Late ps ∉ ls) ∧ admitted c ls = Z.of_nat n + 1
    ∧ billed c (shared f) = 1
    ∧ procs f !! 0%nat = Some p ∧ round p = Sleeping
    ∧ buckets (limiter p) !! k = Some b ∧ count b = Z.of_nat n + 1 ∧ pushed b = count b.
Proof.
  intros Hn. cbv zeta. set (c := client_tag show_key sha256 tier k).
  pose proof (boot_and_admit tier max k ltac:(lia)) as R1.
  destruct (round_alone _ _ _ _ _ _ _ 0 R1) as (tot1 & t1 & R2 & Hbill1 & Htot1 & Hin1); try done; [lia|].
  simpl in R2. change (delta _) with 1 in Hbill1.
  assert (tot1 = 1) as Htot by exact Htot1. rewrite Htot in R2. set (b2 := MkBucket 0 1 1 _ _) in R2.
  assert (bucket_ok max b2) as Hok2 by (split; simpl; unfold u32_max; (lia || done)).
  assert (spent b2 = 1) as Hs2 by done.
  destruct (checks_alone _ _ _ _ _ _ _ n R2) as (b3 & R3 & Hok3 & Hc3 & Hp3 & He3 & Hw3); try done; [lia..|].
  assert (lapsed 0 b3 = false) as Hl3 by (unfold lapsed; by rewrite Hw3).
  set (e2 := current_epoch 60000).
  assert (delta (pending_of k (roll e2 b3)) = 0) as Hd.
  { unfold roll. rewrite bool_decide_eq_false_2, bool_decide_eq_true_2 by (rewrite He3; done).
    simpl. unfold u32_wrapping_sub. by rewrite Z.sub_diag. }
  destruct (round_alone _ _ _ _ _ _ _ 60000 R3) as (tot2 & t2 & R4 & Hbill2 & _); fold e2; rewrite ?Hd; try done;
    [lia|simpl in Hc3; lia| |].
  { intros id hits start Hid. rewrite Z.add_0_r.
    apply (Hin1 ltac:(apply map_Forall_empty) id (hits, start) Hid). }
  fold e2 in R4, Hbill2. rewrite Hd in Hbill2.
  eexists _, _, _, _. split; [exact R4|]. split_and!.
  - intros ps. rewrite !elem_of_app, elem_of_replicate, !elem_of_cons, elem_of_nil. naive_solver.
  - unfold admitted. rewrite !filter_app, !length_app.
    assert (∀ n, length (filter (λ l, l = Allowed c) (replicate n (Allowed c))) = n) as Hrep.
    { intros j. induction j as [|j IH]; [done|]. simpl. rewrite filter_cons_True by done. simpl. by rewrite IH. }
    rewrite Hrep. simpl. rewrite !filter_cons, !filter_nil.
    repeat case_decide; simplify_eq; simpl; lia.
  - simpl. rewrite Hbill2, Hbill1, decide_True by done. unfold billed, SharedRows.
    rewrite total_empty. by case_decide.
  - apply lookup_singleton_eq.
  - done.
  - apply lookup_singleton_eq.
  - simpl in *. lia.
  - done.
Qed.

End Runs.

(** ** Concrete limiters *)

Definition demo_text (n : nat) : str := show_int (Z.of_nat n).
Definition demo_hash (s : str) : list N := s.
Definition API : str := lit "api".

Lemma roll_forgets_witness :
  ∃ ls f, run demo_text demo_hash nobody ls f
    ∧ admitted (client_tag demo_text demo_hash API 7%nat) ls = 4
    ∧ billed (client_tag demo_text demo_hash API 7%nat) (shared f) = 1.
Proof.
  destruct (roll_forgets demo_text demo_hash API 5 7%nat 3%nat) as (ls & f & p & b & Hr & _ & Ha & Hb & _).
  { unfold u32_max. lia. }
  exists ls, f. split; [exact Hr|]. split; [exact Ha|exact Hb].
Defined.

(** One admit, reported twice: the first report was committed and not heard of. *)
Lemma billed_for_admits_witness :
  let c := client_tag demo_text demo_hash API 7%nat in
  ∃ ls f, run demo_text demo_hash nobody ls f
    ∧ admitted c ls = 1 ∧ unheard c ls = 1 ∧ billed c (shared f) = 2
    ∧ billed c (shared f) ≤ admitted c ls + unheard c ls.
Proof.
  intros c. pose proof (boot_and_admit demo_text demo_hash API 5 7%nat ltac:(unfold u32_max; lia)) as R1.
  destruct (late_alone demo_text demo_hash _ _ _ _ _ _ 0 R1) as (t1 & R2 & Hb1 & Hrow1); [done|done|done|done|].
  destruct (round_alone demo_text demo_hash _ _ _ _ _ _ _ 0 R2) as (total & t2 & R3 & Hb2 & _); [done|done|done| |done|].
  { intros id hits start Hid. apply Hrow1 in Hid. simpl in Hid. by subst hits. }
  eexists _, _. split; [exact R3|]. split; [by vm_compute|]. split; [by vm_compute|]. split.
  - transitivity (billed c t2); [done|]. rewrite Hb2, Hb1. by vm_compute.
  - apply (billed_for_admits demo_text demo_hash _ _ _ R3).
Defined.

Lemma limiter_bounds_witness :
  ∃ p, procs (alone API 5 7%nat (MkBucket 0 1 0 0 None) Sleeping ∅) !! 0%nat = Some p
    ∧ Z.of_nat (size (buckets (limiter p))) ≤ PURGE_AT.
Proof.
  pose proof (boot_and_admit demo_text demo_hash API 5 7%nat ltac:(unfold u32_max; lia)) as Hr.
  eexists. split; [apply lookup_singleton_eq|].
  eapply (limiter_bounds demo_text demo_hash _ _ 0%nat _ Hr). apply lookup_singleton_eq.
Defined.

(** A tier of one request per window, and a client that spent it. *)
Definition spent_out : RateLimiter nat :=
  MkRateLimiter 1 {[0%nat := MkBucket 0 1 0 0 None]} (opened_at 0).

Lemma spent_out_ok : limiter_ok spent_out.
Proof.
  split; simpl; unfold u32_max; [lia| | |].
  - apply map_Forall_singleton. split; simpl; unfold u32_max; (lia || done).
  - by rewrite map_size_singleton.
  - split; [by apply bucket_opened|done].
Qed.

Lemma exhausted_stays_refused_witness :
  let l' := (check_key listed 0 1%nat spent_out).2 in
  is_ok (check_key listed 5 0%nat l').1 = false.
Proof.
  cbv zeta. set (l' := (check_key listed 0 1%nat spent_out).2).
  assert (locals spent_out ([(0, 1%nat, is_ok (check_key listed 0 1%nat spent_out).1)] ++ []) l') as Hl.
  { eapply locals_cons; [|apply locals_nil].
    apply (local_check _ listed 0 1%nat). by destruct (check_key listed 0 1%nat spent_out). }
  destruct (exhausted_stays_refused 0%nat (MkBucket 0 1 0 0 None) spent_out _ l' spent_out_ok
    ltac:(done) Hl (lookup_singleton_eq _ _) eq_refl ltac:(by repeat constructor)) as [_ Hr].
  destruct (check_key listed 5 0%nat l') as [r l''] eqn:E.
  destruct (Hr listed 5 r l'' ltac:(done) E) as (s & -> & _). done.
Defined.

Lemma window_budget_witness :
  admits 0%nat [(0, 0%nat, is_ok (check_key listed 0 0%nat spent_out).1)] ≤ 2.
Proof.
  assert (calm_locals spent_out ([(0, 0%nat, is_ok (check_key listed 0 0%nat spent_out).1)] ++ [])
    (check_key listed 0 0%nat spent_out).2) as Hl.
  { eapply calm_cons; [by vm_compute| |apply calm_nil].
    apply (local_check _ listed 0 0%nat). by destruct (check_key listed 0 0%nat spent_out). }
  destruct (window_budget 0%nat 0 _ _ _ spent_out_ok ltac:(done) Hl) as [Hb _].
  apply Hb. rewrite app_nil_r. repeat constructor; simpl; unfold window, SECOND; lia.
Defined.

(** A full map: everyone has spent both their requests, but for client 0. *)
Definition victim : Bucket := MkBucket 0 1 0 0 None.
Definition crowd (n : nat) : gmap nat Bucket :=
  <[0%nat := victim]> (list_to_map ((λ i, (i, MkBucket 0 2 0 0 None)) <$> seq 1 n)).
Definition flooded : RateLimiter nat :=
  MkRateLimiter 2 (crowd (Z.to_nat (PURGE_AT - 1))) (opened_at 0).

Lemma crowd_lookup n k c :
  crowd n !! k = Some c → k = 0%nat ∧ c = victim ∨ (k ≠ 0%nat ∧ c = MkBucket 0 2 0 0 None).
Proof.
  unfold crowd. intros [[<- <-]|[Hne Hk]]%lookup_insert_Some; [by left|right].
  apply elem_of_list_to_map_2, list_elem_of_fmap in Hk as (i & Heq & _). injection Heq as _ ->. done.
Qed.

Lemma crowd_fresh n k : k ∉ seq 1 n → k ≠ 0%nat → crowd n !! k = None.
Proof.
  intros Hk Hne. unfold crowd. rewrite lookup_insert_ne by done. apply not_elem_of_list_to_map_1.
  by rewrite <- list_fmap_compose, list_fmap_id.
Qed.

Lemma crowd_size n : size (crowd n) = S n.
Proof.
  unfold crowd. rewrite map_size_insert_None.
  - rewrite map_size_list_to_map by (rewrite <- list_fmap_compose, list_fmap_id; apply NoDup_seq).
    by rewrite length_fmap, length_seq.
  - apply not_elem_of_list_to_map_1. rewrite <- list_fmap_compose, list_fmap_id, elem_of_seq. lia.
Qed.

Lemma flooded_lookup k c :
  buckets flooded !! k = Some c → k = 0%nat ∧ c = victim ∨ (k ≠ 0%nat ∧ c = MkBucket 0 2 0 0 None).
Proof. apply crowd_lookup. Qed.

Lemma flooded_size : Z.of_nat (size (buckets flooded)) = PURGE_AT.
Proof. unfold flooded. cbn [buckets]. rewrite crowd_size. unfold PURGE_AT. lia. Qed.

Lemma flooded_ok : limiter_ok flooded ∧ besieged 0 0%nat victim flooded.
Proof.
  split; split.
  - cbn [max_per_window flooded]. unfold u32_max. lia.
  - intros k c [[-> ->]|[_ ->]]%flooded_lookup; split; simpl; unfold u32_max; (lia || done).
  - by rewrite flooded_size.
  - split; [by apply bucket_opened|done].
  - apply flooded_size.
  - apply lookup_insert_eq.
  - done.
  - by intros k c [[-> ->]|[_ ->]]%flooded_lookup.
  - intros k c Hne [[-> ->]|[_ ->]]%flooded_lookup; done.
Qed.

Definition stranger : nat := Z.to_nat PURGE_AT.

Lemma known_client_starved_witness :
  let l' := Nat.iter (Z.to_nat (max_per_window flooded)) (λ l, (check_key listed 0 stranger l).2) flooded in
  buckets l' !! 0%nat = None
  ∧ is_ok (check_key listed 0 0%nat
      (MkRateLimiter 2 (buckets l') (MkBucket 0 RATE_LIMIT_OVERFLOW_MAX 0 0 None))).1 = false.
Proof.
  destruct flooded_ok as [Hok Hs].
  assert (buckets flooded !! stranger = None) as Hn.
  { apply crowd_fresh; [rewrite elem_of_seq|]; unfold stranger, PURGE_AT; lia. }
  pose proof (known_client_starved listed 0 0%nat victim stranger flooded Hok Hs Hn) as Hstarved.
  cbv zeta in *. revert Hstarved.
  generalize (Nat.iter (Z.to_nat (max_per_window flooded)) (λ l, (check_key listed 0 stranger l).2) flooded).
  intros l' [Hgone Hstarved]. split; [exact Hgone|].
  rewrite (Hstarved (MkRateLimiter 2 (buckets l') (MkBucket 0 RATE_LIMIT_OVERFLOW_MAX 0 0 None))
    eq_refl eq_refl eq_refl eq_refl). reflexivity.
Defined.
