(* ===== verification/EventForms.v ===== *)
(** * Events, their audiences and their seats ([src/domain/event.rs],
    [src/domain/registration.rs], [src/domain/attendance.rs])

    An event is aimed at the school, at a role, at a course, at a section, or at
    a signup list with a number of seats. The list closes when the event starts,
    or ends when it has no start; from then on it is frozen. *)

From S2P Require Import Prelude Text Errors Effects Uuid Validate Modules Gates.

Open Scope Z_scope.

Definition MAX_EVENT_TITLE_LEN : Z := 200.
Definition MAX_EVENT_DESCRIPTION_LEN : Z := 2000.

Definition event_title_try_new (value : str) : result ValidationError str :=
  _ ← validate_required "title" value MAX_EVENT_TITLE_LEN; Ok value.
Definition event_description_try_new (value : str) : result ValidationError str :=
  _ ← validate_optional "description" value MAX_EVENT_DESCRIPTION_LEN; Ok value.

(** ** Audiences *)

Inductive EventAudienceKind : Set := KindSchool | KindRole | KindCourse | KindClass | KindRegistration.

#[export] Instance EventAudienceKind_eq_dec : EqDecision EventAudienceKind.
Proof. solve_decision. Defined.

(** The five audience columns. *)
Record EventAudience := MkAudience {
  au_kind : EventAudienceKind;
  au_role : option Role;
  au_course : option uuid;
  au_class : option uuid;
  au_capacity : option Z;
}.

(** ** Rows *)

(** [registration_count] is the column the seats move. *)
Record Event := MkEvent {
  ev_creator : uuid;
  ev_title : str;
  ev_description : str;
  ev_audience : EventAudience;
  ev_starts_at : option Z;
  ev_ends_at : option Z;
  registration_count : Z;
}.
Definition audience_kind (ev : Event) : EventAudienceKind := au_kind (ev_audience ev).

(** A seat, and a mark on the roll; each is keyed by (event, user). *)
Record Registration := MkRegistration { registered_by : uuid; rg_created_at : Z }.
Record Attendance := MkAttendance { at_status : str; at_marked_by : uuid; at_marked_at : Z }.

Definition on_registrations (f : Z → Z) (ev : Event) : Event :=
  MkEvent (ev_creator ev) (ev_title ev) (ev_description ev) (ev_audience ev) (ev_starts_at ev) (ev_ends_at ev)
    (f (registration_count ev)).
Definition on_audience (f : EventAudience → EventAudience) (ev : Event) : Event :=
  MkEvent (ev_creator ev) (ev_title ev) (ev_description ev) (f (ev_audience ev)) (ev_starts_at ev) (ev_ends_at ev)
    (registration_count ev).

(** Rows that are not the event's. *)
Definition off_event {V} (i : uuid) (m : gmap (uuid * uuid) V) : gmap (uuid * uuid) V :=
  filter (λ p : (uuid * uuid) * V, p.1.1 ≠ i) m.

Definition is_creator (ev : Event) (u : uuid) : bool := bool_decide (ev_creator ev = u).

(** [can_manage] ([src/web/events.rs]). *)
Definition can_manage (ev : Event) (u : User) : bool :=
  at_least (get_role u) Teacher && (is_creator ev (uid u) || at_least (get_role u) Manager).

(** ** The closing of a list *)

(** [starts_at.or(ends_at)], and [COALESCE(starts_at, ends_at)]. *)
Definition closes_at (ev : Event) : option Z :=
  match ev_starts_at ev with Some s => Some s | None => ev_ends_at ev end.

Definition not_a_list : AppError := Validation (Invalid "audience" "this event does not take registrations").
Definition list_closed : AppError := Conflict "registration closed — the event has started or ended".

(** [Event::registration_capacity]; the clock is read when there is an hour to
    hold against it. *)
Definition registration_capacity {S} (ev : Event) : io S (option Z) :=
  if negb (bool_decide (audience_kind ev = KindRegistration)) then raise not_a_list else
  match closes_at ev with
  | Some c =>
      t_now ← now;
      if c <=? t_now then raise list_closed else mret (au_capacity (ev_audience ev))
  | None => mret (au_capacity (ev_audience ev))
  end.
