(* ===== verification/Seats.v ===== *)
(** * What the tables of the events promise

    The seats of a list are counted by its event, a seat and a mark name an event
    and people that are there, and an event's audience carries the payload of its
    kind alone. The other tables enter by their keys: the accounts, the sections
    and the courses a row may point at. *)

From S2P Require Import Prelude Text Errors Effects Uuid Validate Modules Tally Gates EventForms.
Open Scope Z_scope.

(** A row keyed by what it counts for, and a user. *)
Definition roster_key {V} (p : (uuid * uuid) * V) : option uuid := Some p.1.1.

(** ** One event *)

(** Only the payload that matches the kind, and no list without a seat. *)
Record payload_ok (a : EventAudience) : Prop := {
  po_role : is_Some (au_role a) → au_kind a = KindRole;
  po_course : is_Some (au_course a) → au_kind a = KindCourse;
  po_class : is_Some (au_class a) → au_kind a = KindClass;
  po_capacity : ∀ n, au_capacity a = Some n → au_kind a = KindRegistration ∧ 1 ≤ n;
}.

(** The sections and the courses it names. *)
Definition names_only (gs cs : gset uuid) (a : EventAudience) : Prop :=
  (∀ k, au_course a = Some k → k ∈ cs) ∧ (∀ c, au_class a = Some c → c ∈ gs).

(** What the validators of a row leave. *)
Record form_ok (ev : Event) : Prop := {
  fo_title : event_title_try_new (ev_title ev) = Ok (ev_title ev);
  fo_description : event_description_try_new (ev_description ev) = Ok (ev_description ev);
  fo_payload : payload_ok (ev_audience ev);
  fo_ordered : check_time_range (ev_starts_at ev) (ev_ends_at ev) = Ok ();
}.

Definition event_ok (us gs cs : gset uuid) (ev : Event) : Prop :=
  form_ok ev ∧ ev_creator ev ∈ us ∧ names_only gs cs (ev_audience ev).

(** ** The tables *)

Record seats_ok (us gs cs : gset uuid) (evs : gmap uuid Event) (regs : gmap (uuid * uuid) Registration)
    (marks : gmap (uuid * uuid) Attendance) : Prop := {
  so_seats : tallies roster_key (registration_count <$> evs) regs;
  so_held : ∀ e u r, regs !! (e, u) = Some r → e ∈ dom evs ∧ u ∈ us ∧ registered_by r ∈ us;
  so_marked : ∀ e u a, marks !! (e, u) = Some a → e ∈ dom evs ∧ u ∈ us ∧ at_marked_by a ∈ us;
  so_event : ∀ e ev, evs !! e = Some ev → event_ok us gs cs ev;
}.

Lemma event_grow us gs cs us' gs' cs' ev :
  us ⊆ us' → gs ⊆ gs' → cs ⊆ cs' → event_ok us gs cs ev → event_ok us' gs' cs' ev.
Proof. unfold event_ok, names_only. intros Hu Hg Hc (? & ? & Hk & Hl). split_and!; [done|set_solver|..]; intros x Hx; set_solver. Qed.

Section Moves.
Context (us gs cs : gset uuid).
Implicit Types (evs : gmap uuid Event) (regs : gmap (uuid * uuid) Registration) (marks : gmap (uuid * uuid) Attendance).

Lemma seats_grow us' gs' cs' evs regs marks :
  us ⊆ us' → gs ⊆ gs' → cs ⊆ cs' → seats_ok us gs cs evs regs marks → seats_ok us' gs' cs' evs regs marks.
Proof.
  intros Hu Hg Hc [? Hh Hm He]. split; [done|..].
  - intros e u r Hr. destruct (Hh e u r Hr) as (? & ? & ?). set_solver.
  - intros e u a Ha. destruct (Hm e u a Ha) as (? & ? & ?). set_solver.
  - intros e ev Hev. eapply event_grow; eauto.
Qed.

(** A write over every event, which leaves the counts. *)
Lemma seats_events gs' cs' (f : Event → Event) evs regs marks :
  (∀ ev, registration_count (f ev) = registration_count ev) →
  (∀ ev, event_ok us gs cs ev → event_ok us gs' cs' (f ev)) →
  seats_ok us gs cs evs regs marks → seats_ok us gs' cs' (f <$> evs) regs marks.
Proof.
  intros Hf Hok [? ? ? He]. split; rewrite ?column_same_all, ?dom_fmap_L by done; try done.
  intros e ev. rewrite lookup_fmap. intros (ev0 & Hev & ->)%fmap_Some. eauto.
Qed.

Lemma event_count_ok f ev : event_ok us gs cs ev → event_ok us gs cs (on_registrations f ev).
Proof. by intros [[] ?]. Qed.

(** The columns of the rows the seats move. *)
Lemma count_alter f e evs :
  registration_count <$> alter (on_registrations f) e evs = alter f e (registration_count <$> evs).
Proof. by apply column_moves. Qed.
Lemma count_in f ids evs :
  registration_count <$> update_in ids (on_registrations f) evs = update_in ids f (registration_count <$> evs).
Proof. by apply column_moves_in. Qed.

Lemma seats_claim e u r evs regs marks :
  regs !! (e, u) = None → e ∈ dom evs → u ∈ us → registered_by r ∈ us →
  seats_ok us gs cs evs regs marks →
  seats_ok us gs cs (alter (on_registrations bumped) e evs) (<[(e, u) := r]> regs) marks.
Proof.
  intros Hn He Hu Hb [? Hh ? Hev]. split; rewrite ?count_alter, ?dom_alter_row; try done.
  - by apply tallies_bump.
  - intros e' u' r' [[[= <- <-] <-]|[_ Hr]]%lookup_insert_Some; [done|by eapply Hh].
  - intros e' ev. rewrite lookup_alter. case_decide; [|apply Hev].
    intros (ev0 & Hv & ->)%fmap_Some. eapply event_count_ok, Hev, Hv.
Qed.

Lemma seats_free e u r evs regs marks :
  regs !! (e, u) = Some r → seats_ok us gs cs evs regs marks →
  seats_ok us gs cs (alter (on_registrations given_back) e evs) (delete (e, u) regs) marks.
Proof.
  intros Hr [? Hh ? Hev]. split; rewrite ?count_alter, ?dom_alter_row; try done.
  - by eapply tallies_give_back.
  - intros e' u' r' [_ Hr']%lookup_delete_Some. by eapply Hh.
  - intros e' ev. rewrite lookup_alter. case_decide; [|apply Hev].
    intros (ev0 & Hv & ->)%fmap_Some. eapply event_count_ok, Hev, Hv.
Qed.

(** One user's seats, on the events a sweep picks. *)
Lemma seats_sweep u (gone : uuid * uuid → Prop) `{!∀ p, Decision (gone p)} evs regs marks :
  (∀ p, gone p → p.2 = u) → seats_ok us gs cs evs regs marks →
  seats_ok us gs cs (update_in (set_map fst (filter gone (dom regs))) (on_registrations given_back) evs)
    (filter (λ p : (uuid * uuid) * Registration, ¬ gone p.1) regs) marks.
Proof.
  intros Hu [Ht Hh ? Hev]. split; rewrite ?count_in, ?dom_update_in; try done.
  - apply (tallies_sweep roster_key (λ p : (uuid * uuid) * Registration, gone p.1) _ regs); [..|done].
    + intros k [e v] r [e' v'] r' _ _ Hg%Hu Hg'%Hu [= Hk] [= Hk']. simpl in *. congruence.
    + intros k. rewrite elem_of_map. unfold swept_key. split.
      * intros ([e v] & -> & [Hg [r Hr]%elem_of_dom]%elem_of_filter). by exists (e, v), r.
      * intros ([e v] & r & Hr & Hg & [= <-]). exists (e, v). split; [done|]. apply elem_of_filter.
        split; [done|]. by apply elem_of_dom_2 in Hr.
    + intros k. apply (tallied_sweep roster_key (λ p : (uuid * uuid) * Registration, gone p.1)).
  - intros e v r [Hr _]%map_lookup_filter_Some. by eapply Hh.
  - intros e ev. rewrite lookup_update_in. case_decide; [|apply Hev].
    intros (ev0 & Hv & ->)%fmap_Some. eapply event_count_ok, Hev, Hv.
Qed.

Lemma seats_mark e u a evs regs marks :
  e ∈ dom evs → u ∈ us → at_marked_by a ∈ us →
  seats_ok us gs cs evs regs marks → seats_ok us gs cs evs regs (<[(e, u) := a]> marks).
Proof.
  intros He Hu Hb [? ? Hm ?]. split; try done.
  intros e' u' a' [[[= <- <-] <-]|[_ Ha]]%lookup_insert_Some; [done|by eapply Hm].
Qed.

Lemma seats_unmark p evs regs marks :
  seats_ok us gs cs evs regs marks → seats_ok us gs cs evs regs (delete p marks).
Proof. intros [? ? Hm ?]. split; try done. intros e' u' a' [_ Ha]%lookup_delete_Some. by eapply Hm. Qed.

Lemma seats_born i ev evs regs marks :
  evs !! i = None → registration_count ev = 0 → event_ok us gs cs ev →
  seats_ok us gs cs evs regs marks → seats_ok us gs cs (<[i := ev]> evs) regs marks.
Proof.
  intros Hi Hz Hev [? Hh Hm He]. split; rewrite ?dom_insert_L.
  - rewrite fmap_insert, Hz. apply tallies_born; [|done]. intros [e u] r Hr [= ->].
    destruct (Hh _ _ _ Hr) as [Hd _]. by apply not_elem_of_dom in Hi.
  - intros e u r Hr. destruct (Hh _ _ _ Hr). set_solver.
  - intros e u a Ha. destruct (Hm _ _ _ Ha). set_solver.
  - intros e ev' [[<- <-]|[_ H]]%lookup_insert_Some; [done|by eapply He].
Qed.

Lemma seats_put i ev ev' evs regs marks :
  evs !! i = Some ev → registration_count ev' = registration_count ev → event_ok us gs cs ev' →
  seats_ok us gs cs evs regs marks → seats_ok us gs cs (<[i := ev']> evs) regs marks.
Proof.
  intros Hi Hc Hev [? Hh Hm He]. split.
  - rewrite column_put; [done|]. by rewrite Hi, Hc.
  - intros e u r Hr. destruct (Hh _ _ _ Hr). set_solver.
  - intros e u a Ha. destruct (Hm _ _ _ Ha). set_solver.
  - intros e ev0 [[<- <-]|[_ H]]%lookup_insert_Some; [done|by eapply He].
Qed.

Lemma seats_drop i evs regs marks :
  seats_ok us gs cs evs regs marks → seats_ok us gs cs (delete i evs) (off_event i regs) (off_event i marks).
Proof.
  intros [? Hh Hm He]. split; rewrite ?dom_delete_L.
  - rewrite fmap_delete. apply tallies_cut; [|done]. intros [e u] r k _ Hn [= <-]. by apply dec_stable in Hn.
  - intros e u r [Hr Hne]%map_lookup_filter_Some. destruct (Hh _ _ _ Hr). set_solver.
  - intros e u a [Ha Hne]%map_lookup_filter_Some. destruct (Hm _ _ _ Ha). set_solver.
  - intros e ev [_ H]%lookup_delete_Some. by eapply He.
Qed.
End Moves.
