(* ===== verification/Roster.v ===== *)
(** * Sections, their courses and their students ([src/db/class_group.rs],
    [src/db/class_pump.rs], [src/db/class_course_teacher.rs],
    [src/db/enrollment.rs], [src/db/course_membership.rs],
    [src/service/class_member.rs], [src/service/class_course.rs],
    [src/service/enrollment.rs])

    A section has members (stints, kept as history once ended) and instances
    (the courses it teaches). The pump keeps what it owes: every live member is
    enrolled in every instance, in rows tagged with the section that wrote them.
    Clubs and studies are joined one by one. A section belongs to a year, an
    instance teaches from the template of its course and grade, and each of these
    carries counts of the others. *)

From S2P Require Import Prelude Text Errors Effects Uuid Validate Modules Appointments Tally Gates EventForms.

Open Scope Z_scope.

Abbreviation delete := base.delete (only parsing).

Definition MAX_CLASS_MEMBERS : Z := 200.
Definition MAX_CLASS_COURSES : Z := 50.
Definition MIN_GRADE_LEVEL : Z := 0.
Definition MAX_GRADE_LEVEL : Z := 12.

(** [GradeLevel::new]. *)
Definition grade_level_new (raw : Z) : result ValidationError Z :=
  if negb (in_range MIN_GRADE_LEVEL MAX_GRADE_LEVEL raw)
  then Err (Invalid "grade_level" "must be 0 (anaokulu) through 12") else Ok raw.

(** ** Rows *)

Record Account := MkAccount { username : str; role : Role; student_number : option str }.

Record Year := MkYear {
  y_name : str;
  y_starts_at : Z;
  y_ends_at : Z;
  archived_at : option Z;
  y_creator : uuid;
  (** From a rung to the next. *)
  grade_promotions : list (Z * Z);
  class_count : Z;
  term_count : Z;
}.

Record Group := MkGroup {
  g_creator : uuid;
  g_name : str;
  grade_level : Z;
  year : option uuid;
  g_teacher : option uuid;
  class_member_count : Z;
  class_course_count : Z;
}.

Record Stint := MkStint {
  st_class : uuid;
  st_user : uuid;
  added_by : uuid;
  joined_at : Z;
  left_at : option Z;
  source_class_group : option uuid;
}.

(** [CourseKind] is the text it validates. *)
Record Course := MkCourse {
  co_creator : uuid;
  co_title : str;
  co_description : str;
  kind : str;
  taught_count : Z;
  course_membership_count : Z;
}.

Definition is_class_delivered (k : str) : bool := bool_decide (k = lit "course").

Record Offering := MkOffering {
  off_course : uuid;
  off_grade : Z;
  off_title : option str;
  off_description : option str;
  default_ders_saati : option Z;
  default_counts_toward_karne : option bool;
  off_created_by : uuid;
  off_created_at : Z;
  off_updated_at : Z;
}.

Record Blueprint := MkBlueprint { b_key : uuid; b_creator : uuid; b_courses : gset uuid }.

(** A section's own content: unset inherits. *)
Record Overrides := MkOverrides {
  i_title : option str;
  i_description : option str;
  ders_saati : option Z;
  counts_toward_karne : option bool;
  subjects_inherited : bool;
  exam_weights_inherited : bool;
  weekly_plan_inherited : bool;
}.
Definition inherit_all : Overrides := MkOverrides None None None None true true true.

Record Instance := MkInstance {
  i_class : uuid;
  i_course : uuid;
  i_offering : uuid;
  attached_by : uuid;
  (** The surrogate key of the blueprint that placed it. *)
  i_source : option uuid;
  i_content : Overrides;
  enrollment_count : Z;
  attached_at : Z;
}.

Record Enrollment := MkEnrollment { enrolled_by : uuid; source : option uuid; e_created_at : Z }.
Record Membership := MkMembership { m_added_by : uuid; m_created_at : Z }.

(** What a role change and the deletes reach beyond the rosters. *)
Record Board := MkBoard { b_owner : uuid; closed_at : option Z }.
Record Elsewhere := MkElsewhere {
  (** (parent, student). *)
  parent_links : gset (uuid * uuid);
  events : gmap uuid Event;
  (** (event, user), twice. *)
  registrations : gmap (uuid * uuid) Registration;
  attendances : gmap (uuid * uuid) Attendance;
  boards : gmap uuid Board;
  (** (board, user). *)
  participants : gset (uuid * uuid);
  calendar : Appointments.Tables;
  (** The blob keys of the images and files under an instance's exams and
      homework, rows of other components. *)
  uploads : gmap uuid (list str);
}.

Record Tables := MkTables {
  users : gmap uuid Account;
  years : gmap uuid Year;
  groups : gmap uuid Group;
  stints : gmap uuid Stint;
  courses : gmap uuid Course;
  offerings : gmap uuid Offering;
  (** One per rung. *)
  blueprints : gmap Z Blueprint;
  instances : gmap uuid Instance;
  (** [class_course_teacher]: (instance, teacher). *)
  assigned : gset (uuid * uuid);
  (** (instance, student), and (course, student). *)
  enrollments : gmap (uuid * uuid) Enrollment;
  memberships : gmap (uuid * uuid) Membership;
  elsewhere : Elsewhere;
}.

Definition set_users (f : gmap uuid Account → gmap uuid Account) (t : Tables) : Tables := MkTables (f (users t)) (years t) (groups t) (stints t) (courses t)
  (offerings t) (blueprints t) (instances t) (assigned t) (enrollments t) (memberships t) (elsewhere t).
Definition set_years (f : gmap uuid Year → gmap uuid Year) (t : Tables) : Tables := MkTables (users t) (f (years t)) (groups t) (stints t) (courses t)
  (offerings t) (blueprints t) (instances t) (assigned t) (enrollments t) (memberships t) (elsewhere t).
Definition set_groups (f : gmap uuid Group → gmap uuid Group) (t : Tables) : Tables := MkTables (users t) (years t) (f (groups t)) (stints t) (courses t)
  (offerings t) (blueprints t) (instances t) (assigned t) (enrollments t) (memberships t) (elsewhere t).
Definition set_stints (f : gmap uuid Stint → gmap uuid Stint) (t : Tables) : Tables := MkTables (users t) (years t) (groups t) (f (stints t)) (courses t)
  (offerings t) (blueprints t) (instances t) (assigned t) (enrollments t) (memberships t) (elsewhere t).
Definition set_courses_ (f : gmap uuid Course → gmap uuid Course) (t : Tables) : Tables := MkTables (users t) (years t) (groups t) (stints t) (f (courses t))
  (offerings t) (blueprints t) (instances t) (assigned t) (enrollments t) (memberships t) (elsewhere t).
Definition set_offerings (f : gmap uuid Offering → gmap uuid Offering) (t : Tables) : Tables := MkTables (users t) (years t) (groups t) (stints t) (courses t)
  (f (offerings t)) (blueprints t) (instances t) (assigned t) (enrollments t) (memberships t) (elsewhere t).
Definition set_blueprints (f : gmap Z Blueprint → gmap Z Blueprint) (t : Tables) : Tables := MkTables (users t) (years t) (groups t) (stints t) (courses t)
  (offerings t) (f (blueprints t)) (instances t) (assigned t) (enrollments t) (memberships t) (elsewhere t).
Definition set_instances (f : gmap uuid Instance → gmap uuid Instance) (t : Tables) : Tables := MkTables (users t) (years t) (groups t) (stints t) (courses t)
  (offerings t) (blueprints t) (f (instances t)) (assigned t) (enrollments t) (memberships t) (elsewhere t).
Definition set_assigned (f : gset (uuid * uuid) → gset (uuid * uuid)) (t : Tables) : Tables := MkTables (users t) (years t) (groups t) (stints t) (courses t)
  (offerings t) (blueprints t) (instances t) (f (assigned t)) (enrollments t) (memberships t) (elsewhere t).
Definition set_enrollments (f : gmap (uuid * uuid) Enrollment → gmap (uuid * uuid) Enrollment) (t : Tables) : Tables := MkTables (users t) (years t) (groups t) (stints t) (courses t)
  (offerings t) (blueprints t) (instances t) (assigned t) (f (enrollments t)) (memberships t) (elsewhere t).
Definition set_memberships (f : gmap (uuid * uuid) Membership → gmap (uuid * uuid) Membership) (t : Tables) : Tables := MkTables (users t) (years t) (groups t) (stints t) (courses t)
  (offerings t) (blueprints t) (instances t) (assigned t) (enrollments t) (f (memberships t)) (elsewhere t).
Definition set_elsewhere (f : Elsewhere → Elsewhere) (t : Tables) : Tables := MkTables (users t) (years t) (groups t) (stints t) (courses t)
  (offerings t) (blueprints t) (instances t) (assigned t) (enrollments t) (memberships t) (f (elsewhere t)).

(** A component whose tables sit beside the school's reads them through this. *)
Class School (S : Type) := the_school : S → Tables.
#[export] Instance school_itself : School Tables := λ t, t.

(** ** Moving a counter *)

Definition on_members (f : Z → Z) (g : Group) : Group :=
  MkGroup (g_creator g) (g_name g) (grade_level g) (year g) (g_teacher g) (f (class_member_count g)) (class_course_count g).
Definition on_courses (f : Z → Z) (g : Group) : Group :=
  MkGroup (g_creator g) (g_name g) (grade_level g) (year g) (g_teacher g) (class_member_count g) (f (class_course_count g)).
Definition on_taught (f : Z → Z) (c : Course) : Course :=
  MkCourse (co_creator c) (co_title c) (co_description c) (kind c) (f (taught_count c)) (course_membership_count c).
Definition on_club (f : Z → Z) (c : Course) : Course :=
  MkCourse (co_creator c) (co_title c) (co_description c) (kind c) (taught_count c) (f (course_membership_count c)).
Definition on_roster (f : Z → Z) (i : Instance) : Instance :=
  MkInstance (i_class i) (i_course i) (i_offering i) (attached_by i) (i_source i) (i_content i)
    (f (enrollment_count i)) (attached_at i).
Definition on_classes (f : Z → Z) (y : Year) : Year :=
  MkYear (y_name y) (y_starts_at y) (y_ends_at y) (archived_at y) (y_creator y) (grade_promotions y)
    (f (class_count y)) (term_count y).

(** [user::read], and the caller it makes. *)
Definition user_of (u : uuid) (t : Tables) : option User := MkUser u ∘ role <$> users t !! u.

(** ** The pump's verdicts ([src/db/class_pump.rs]) *)

Inductive Attached (T : Type) : Type :=
  | Made (row : T) | Duplicate | Gone | PivotGone | ClassFull | ClassOverloaded
  | CourseGone (instance : str) | SourceGone.
Arguments Made {T} row.
Arguments Duplicate {T}.
Arguments Gone {T}.
Arguments PivotGone {T}.
Arguments ClassFull {T}.
Arguments ClassOverloaded {T}.
Arguments CourseGone {T} instance.
Arguments SourceGone {T}.

Inductive Axis : Set := AMember | ACourse.

Definition cap (a : Axis) : Z := match a with AMember => MAX_CLASS_MEMBERS | ACourse => MAX_CLASS_COURSES end.
Definition at_ceiling_code (a : Axis) : string :=
  match a with AMember => "class_at_roster_ceiling" | ACourse => "class_at_course_ceiling" end.
Definition over_ceiling_code (a : Axis) : string :=
  match a with AMember => "class_roster_too_large" | ACourse => "class_course_list_too_large" end.
Definition other (a : Axis) : Axis := match a with AMember => ACourse | ACourse => AMember end.

Definition refusal_code {T} (v : Attached T) (a : Axis) : option string :=
  match v with
  | Made _ => None
  | Duplicate => Some "duplicate"
  | Gone => Some "class_deleted"
  | PivotGone => Some "course_deleted"
  | ClassFull => Some (at_ceiling_code a)
  | ClassOverloaded => Some (over_ceiling_code (other a))
  | CourseGone _ => Some "linked_course_missing"
  | SourceGone => Some "blueprint_deleted"
  end%string.

Inductive Pivot : Set := PUser (user : uuid) | PCourse (course : uuid).
Inductive Early : Set := EDuplicate | ESourceGone | EPivotGone | EOverloaded.

Definition refusal_of {T} (e : Early) : Attached T :=
  match e with
  | EDuplicate => Duplicate
  | ESourceGone => SourceGone
  | EPivotGone => PivotGone
  | EOverloaded => ClassOverloaded
  end.

(** A live stint of the pair, and an instance of the pair. *)
Definition live (c u : uuid) (s : Stint) : Prop := st_class s = c ∧ st_user s = u ∧ left_at s = None.
#[export] Instance live_dec c u s : Decision (live c u s).
Proof. unfold live. apply _. Defined.
Definition is_live_member (t : Tables) (c u : uuid) : Prop := map_Exists (λ _, live c u) (stints t).
#[export] Instance is_live_member_dec t c u : Decision (is_live_member t c u).
Proof. unfold is_live_member. apply _. Defined.
Definition carries (t : Tables) (c k : uuid) : Prop :=
  map_Exists (λ _ i, i_class i = c ∧ i_course i = k) (instances t).
#[export] Instance carries_dec t c k : Decision (carries t c k).
Proof. unfold carries. apply _. Defined.

(** The gates before any counter moves, and what two of them read: the key of
    the blueprint, and the kind of the course. *)
Definition early_verdicts (c : uuid) (a : Axis) (p : Pivot) (src : option Z)
    : tx Tables (option Early * option uuid * option str) := gets (λ t,
  let held := match p with
    | PUser u => bool_decide (is_live_member t c u)
    | PCourse k => bool_decide (carries t c k)
    end in
  if held then (Some EDuplicate, None, None) else
  match match src with None => Some None | Some rung => Some ∘ b_key <$> blueprints t !! rung end with
  | None => (Some ESourceGone, None, None)
  | Some source_id =>
      match match p with
        | PUser u => if bool_decide (role <$> users t !! u = Some Student) then Some None else None
        | PCourse k => Some ∘ kind <$> courses t !! k
        end with
      | None => (Some EPivotGone, None, None)
      | Some k =>
          let over := match groups t !! c with
            | Some g => match other a with
                | AMember => cap AMember <? class_member_count g
                | ACourse => cap ACourse <? class_course_count g
                end
            | None => false
            end in
          ((if over then Some EOverloaded else None), source_id, k)
      end
  end).

(** ** The pump's writes *)

Section Pump.
Context `{UuidText}.

Definition COURSE_GONE_MARK : str := lit "class_pump_course_gone:".

Fixpoint after_prefix (p s : str) : option str :=
  match p, s with
  | [], _ => Some s
  | x :: p, y :: s => if (x =? y)%N then after_prefix p s else None
  | _ :: _, [] => None
  end.

Definition map_sweep_abort {T} (outcome : result AppError (Attached T)) : result AppError (Attached T) :=
  match outcome with
  | Err (Internal m) =>
      match after_prefix COURSE_GONE_MARK m with Some i => Ok (CourseGone i) | None => outcome end
  | _ => outcome
  end.

Definition has {V} (m : gmap uuid V) (i : uuid) : bool := bool_decide (is_Some (m !! i)).

(** One pair that holds no row. The counter's update is the existence check; the
    row read absent in this step is absent when it is inserted. *)
Definition enroll_pair (c i u by_ : uuid) (at_ : Z) : tx Tables () := λ t,
  match instances t !! i with
  | None => Err (Internal (COURSE_GONE_MARK ++ uuid_text i))
  | Some _ =>
      if has (users t) u && has (users t) by_ && has (groups t) c
      then Ok ((), set_enrollments <[(i, u) := MkEnrollment by_ (Some c) at_]>
                     (set_instances (alter (on_roster bumped) i) t))
      else Err fk_violation
  end.

Fixpoint enroll_pairs (c : uuid) (pairs : list (uuid * uuid)) (by_ : uuid) (at_ : Z) : tx Tables () :=
  match pairs with
  | [] => mret ()
  | (i, u) :: pairs =>
      held ← gets (λ t, bool_decide (is_Some (enrollments t !! (i, u))));
      _ ← (if held : bool then mret () else enroll_pair c i u by_ at_);
      enroll_pairs c pairs by_ at_
  end.

(** The statement that claims a seat and inserts the link, in one: what became
    of it. A violated constraint aborts the transaction it ran in. *)
Inductive Seat : Set := Seated | NoSeat | Clashed | Violated.

Definition seat_member (i c u by_ : uuid) (src : option uuid) (at_ : Z) : tx Tables Seat := λ t,
  match groups t !! c with
  | None => Ok (NoSeat, t)
  | Some g =>
      if negb (class_member_count g <? cap AMember) then Ok (NoSeat, t) else
      if has (stints t) i then Err unique_violation else
      if bool_decide (is_live_member t c u) then Ok (Clashed, t) else
      if has (users t) u && has (users t) by_ && match src with Some s => has (groups t) s | None => true end
      then Ok (Seated, set_stints <[i := MkStint c u by_ at_ None src]> (set_groups (alter (on_members bumped) c) t))
      else Ok (Violated, t)
  end.

Definition instances_of (t : Tables) (c : uuid) : list uuid :=
  (filter (λ p : uuid * Instance, i_class p.2 = c) (map_to_list (instances t))).*1.
Definition roster_of (t : Tables) (c : uuid) : list uuid :=
  (λ p, st_user p.2) <$> filter (λ p : uuid * Stint, st_class p.2 = c ∧ left_at p.2 = None) (map_to_list (stints t)).

Definition add_member_tx (i c u by_ : uuid) (src : option uuid) (at_ at' : Z)
    : tx Tables (Attached (uuid * Stint)) := λ t0,
  (v ← early_verdicts c AMember (PUser u) None;
   match v.1.1 with
   | Some e => mret (refusal_of e)
   | None =>
       seat ← seat_member i c u by_ src at_;
       match seat with
       | Clashed => λ _, Ok (Duplicate, t0)
       | Violated => λ _, Ok (PivotGone, t0)
       | NoSeat =>
           standing ← gets (λ t, has (groups t) c);
           mret (if standing : bool then ClassFull else Gone)
       | Seated =>
           pairs ← gets (λ t, (., u) <$> instances_of t c);
           _ ← enroll_pairs c pairs by_ at';
           mret (Made (i, MkStint c u by_ at_ None src))
       end
   end) t0.

(** The closure reads the clock again for the rows it pumps. *)
Definition add_member_sourced (c u by_ : uuid) (src : option uuid) : io Tables (Attached (uuid * Stint)) :=
  at_ ← now;
  i ← fresh;
  at' ← now;
  outcome ← attempt (atomic (add_member_tx i c u by_ src at_ at'));
  lift (map_sweep_abort outcome).
Definition add_member (c u by_ : uuid) : io Tables (Attached (uuid * Stint)) := add_member_sourced c u by_ None.

(** [course_offering::ensure_tx]: found, or minted empty. *)
Definition template (t : Tables) (k : uuid) (rung : Z) : option uuid :=
  head (filter (λ p : uuid * Offering, off_course p.2 = k ∧ off_grade p.2 = rung) (map_to_list (offerings t))).*1.

Definition ensure_tx (o k : uuid) (rung : Z) (by_ : uuid) (at_ : Z) : tx Tables uuid := λ t,
  match template t k rung with
  | Some found => Ok (found, t)
  | None =>
      if has (offerings t) o then Err (from_driver RowNotFound) else
      if has (courses t) k && has (users t) by_
      then Ok (o, set_offerings <[o := MkOffering k rung None None None None by_ at_ at_]> t)
      else Err fk_violation
  end.

Definition seat_course (i c k o by_ : uuid) (source_id : option uuid) (at_ : Z) : tx Tables Seat := λ t,
  match groups t !! c with
  | None => Ok (NoSeat, t)
  | Some g =>
      if negb (class_course_count g <? cap ACourse) then Ok (NoSeat, t) else
      if has (instances t) i then Err unique_violation else
      if bool_decide (carries t c k) then Ok (Clashed, t) else
      if has (courses t) k && has (users t) by_ && has (offerings t) o
         && match source_id with
            | Some s => bool_decide (map_Exists (λ _ b, b_key b = s) (blueprints t))
            | None => true
            end
      then Ok (Seated, set_instances <[i := MkInstance c k o by_ source_id inherit_all 0 at_]>
                         (set_groups (alter (on_courses bumped) c) t))
      else Ok (Violated, t)
  end.

Definition attach_refusal : AppError := Validation (Invalid "course"
  "only a ders attaches to a class — a club or etüt is joined individually, not attached").

Definition attach_course_tx (i c k by_ : uuid) (src : option Z) (o : uuid) (at_ at_o at' : Z)
    : tx Tables (Attached (uuid * Instance)) := λ t0,
  (v ← early_verdicts c ACourse (PCourse k) src;
   match v with
   | (Some e, _, _) => mret (refusal_of e)
   | (None, _, None) => refuse (Internal (lit "a course attach locked a course but read no kind"))
   | (None, source_id, Some kind_) =>
       if negb (is_class_delivered kind_) then refuse attach_refusal else
       rung ← gets (λ t, grade_level <$> groups t !! c);
       match rung with
       | None => mret Gone
       | Some rung =>
           offering ← ensure_tx o k rung by_ at_o;
           seat ← seat_course i c k offering by_ source_id at_;
           match seat with
           | Clashed => λ _, Ok (Duplicate, t0)
           | Violated => λ _, Ok (PivotGone, t0)
           | NoSeat =>
               standing ← gets (λ t, has (groups t) c);
               mret (if standing : bool then ClassFull else Gone)
           | Seated =>
               _ ← writes (λ t, ((), set_courses_ (alter (on_taught bumped) k) t));
               pairs ← gets (λ t, (i,.) <$> roster_of t c);
               _ ← enroll_pairs c pairs by_ at';
               row ← gets (λ t, instances t !! i);
               made ← decide_tx (ok_or row (from_driver RowNotFound));
               mret (Made (i, made))
           end
       end
   end) t0.

Definition attach_course (c k by_ : uuid) (src : option Z) : io Tables (Attached (uuid * Instance)) :=
  at_ ← now;
  i ← fresh;
  at_o ← now;
  o ← fresh;
  at' ← now;
  outcome ← attempt (atomic (attach_course_tx i c k by_ src o at_ at_o at'));
  lift (map_sweep_abort outcome).

End Pump.

(** ** The pump's exits *)

(** [release]: the row goes, and its count with it. *)
Definition release (i u : uuid) : tx Tables () := λ t,
  match enrollments t !! (i, u) with
  | Some _ => Ok ((), set_instances (alter (on_roster given_back) i) (set_enrollments (delete (i, u)) t))
  | None => Ok ((), t)
  end.

Fixpoint release_all (pairs : list (uuid * uuid)) : tx Tables () :=
  match pairs with
  | [] => mret ()
  | (i, u) :: pairs => _ ← release i u; release_all pairs
  end.

Definition stamp (c u : uuid) (at_ : Z) (s : Stint) : Stint :=
  if decide (live c u s)
  then MkStint (st_class s) (st_user s) (added_by s) (joined_at s) (Some at_) (source_class_group s) else s.

(** The rows a section pumped for one student. *)
Definition pumped_rows (t : Tables) (c u : uuid) : list (uuid * uuid) :=
  (filter (λ p : (uuid * uuid) * Enrollment, p.1.2 = u ∧ source p.2 = Some c) (map_to_list (enrollments t))).*1.

Definition drop_member_tx (c u : uuid) (soft : bool) (at_ : Z) : tx Tables Z :=
  there ← gets (λ t, bool_decide (is_live_member t c u));
  if negb there then mret 0 else
  _ ← writes (λ t, ((), set_stints (λ ss,
        if soft then stamp c u at_ <$> ss else filter (λ p : uuid * Stint, ¬ live c u p.2) ss) t));
  _ ← writes (λ t, ((), set_groups (alter (on_members given_back) c) t));
  rows ← gets (λ t, pumped_rows t c u);
  _ ← release_all rows;
  mret 1.

Definition drop_member (c u : uuid) (soft : bool) : io Tables Z :=
  at_ ← now;
  atomic (drop_member_tx c u soft at_).
Definition leave_member (c u : uuid) : io Tables Z := drop_member c u true.
Definition remove_member (c u : uuid) : io Tables Z := drop_member c u false.

(** [sweep_instance_subtree], on the tables of this component: the roster, the
    teachers, and the keys of the files under the rows of the others. *)
Definition sweep_instance_subtree (i : uuid) : tx Tables (list str) := λ t,
  let e := elsewhere t in
  Ok (default [] (uploads e !! i),
      set_elsewhere (λ e, MkElsewhere (parent_links e) (events e) (registrations e) (attendances e) (boards e) (participants e)
          (calendar e) (delete i (uploads e)))
        (set_assigned (filter (λ p, p.1 ≠ i))
          (set_enrollments (filter (λ p : (uuid * uuid) * Enrollment, p.1.1 ≠ i)) t))).

(** A link a blueprint's tag owns; a hand detach asks for none. *)
Definition tagged (t : Tables) (src : option Z) (x : Instance) : Prop :=
  match src with
  | Some rung => is_Some (blueprints t !! rung) ∧ i_source x = b_key <$> blueprints t !! rung
  | None => True
  end.
#[export] Instance tagged_dec t src x : Decision (tagged t src x).
Proof. unfold tagged. destruct src; apply _. Defined.

Definition detachable (t : Tables) (c k : uuid) (src : option Z) : option uuid :=
  head (filter (λ p : uuid * Instance, i_class p.2 = c ∧ i_course p.2 = k ∧ tagged t src p.2)
    (map_to_list (instances t))).*1.

Definition detach_course_tx (c k : uuid) (src : option Z) : tx Tables (option (list str)) :=
  target ← gets (λ t, detachable t c k src);
  match target with
  | None => mret None
  | Some i =>
      blobs ← sweep_instance_subtree i;
      _ ← writes (λ t, ((), set_instances (delete i) t));
      _ ← writes (λ t, ((), set_groups (alter (on_courses given_back) c) t));
      _ ← writes (λ t, ((), set_courses_ (alter (on_taught given_back) k) t));
      mret (Some blobs)
  end.
Definition detach_course (c k : uuid) (src : option Z) : io Tables (option (list str)) :=
  atomic (detach_course_tx c k src).

(** ** Hand enrollment ([src/db/enrollment.rs]) *)

Definition read_for_user `{School D} (i u : uuid) : tx D (option Enrollment) :=
  gets (λ s, enrollments (the_school s) !! (i, u)).

Definition disown (e : Enrollment) : Enrollment := MkEnrollment (enrolled_by e) None (e_created_at e).

Definition disown_if_pumped (i u : uuid) (existing : Enrollment) : io Tables Enrollment :=
  match source existing with
  | None => mret existing
  | Some _ =>
      disowned ← atomic (λ t, match enrollments t !! (i, u) with
        | Some e => Ok (Some (disown e), set_enrollments <[(i, u) := disown e]> t)
        | None => Ok (None, t)
        end);
      mret (default existing disowned)
  end.

Inductive Verdict (T : Type) : Type := Held | Unfit | Enrolled (row : T).
Arguments Held {T}.
Arguments Unfit {T}.
Arguments Enrolled {T} row.

Definition is_student (t : Tables) (u : uuid) : Prop := role <$> users t !! u = Some Student.
#[export] Instance is_student_dec t u : Decision (is_student t u).
Proof. unfold is_student. apply _. Defined.

(** The second look for a winner of the race is the first look's answer again,
    in one step. *)
Definition enroll_tx (i u by_ : uuid) (src : option uuid) (at_ : Z) : tx Tables (Verdict Enrollment) := λ t,
  match enrollments t !! (i, u) with
  | Some _ => Ok (Held, t)
  | None =>
      if negb (bool_decide (is_student t u)) then Ok (Unfit, t) else
      match instances t !! i with
      | None => Err NotFound
      | Some _ =>
          if has (users t) by_ && match src with Some c => has (groups t) c | None => true end then
            let e := MkEnrollment by_ src at_ in
            Ok (Enrolled e, set_enrollments <[(i, u) := e]> (set_instances (alter (on_roster bumped) i) t))
          else Err fk_violation
      end
  end.

Definition only_students (what : string) : AppError := Validation (Invalid "user_id" what).

Definition enroll_row (i u by_ : uuid) (src : option uuid) : io Tables Enrollment :=
  existing ← atomic (read_for_user i u);
  match existing with
  | Some e => disown_if_pumped i u e
  | None =>
      at_ ← now;
      verdict ← atomic (enroll_tx i u by_ src at_);
      match verdict with
      | Enrolled e => mret e
      | Held =>
          row ← atomic (read_for_user i u);
          lift (ok_or row (Internal (lit "failed to enroll user")))
      | Unfit => raise (only_students "only students can be enrolled in a course")
      end
  end.

Definition unenroll_tx (i u : uuid) : tx Tables (option Enrollment) := λ t,
  match enrollments t !! (i, u) with
  | Some e => Ok (Some e, set_instances (alter (on_roster given_back) i) (set_enrollments (delete (i, u)) t))
  | None => Ok (None, t)
  end.

(** [ensure_student] of [src/service/enrollment.rs]. *)
Definition ensure_student (u : uuid) (reason : string) : io Tables () :=
  row ← atomic (gets (λ t, users t !! u));
  match row with
  | None => raise (only_students "target user does not exist")
  | Some a => if bool_decide (role a = Student) then mret () else raise (only_students reason)
  end.

Definition enroll (i u by_ : uuid) : io Tables Enrollment :=
  _ ← ensure_student u "only students can be enrolled in a course";
  enroll_row i u by_ None.

Definition unenroll (i u : uuid) : io Tables () :=
  row ← atomic (unenroll_tx i u);
  _ ← lift (ok_or row NotFound);
  mret ().

(** ** Clubs and studies ([src/db/course_membership.rs]) *)

Definition join_tx (k u by_ : uuid) (at_ : Z) : tx Tables (Verdict Membership) := λ t,
  match memberships t !! (k, u) with
  | Some _ => Ok (Held, t)
  | None =>
      if negb (bool_decide (is_student t u)) then Ok (Unfit, t) else
      match courses t !! k with
      | None => Err NotFound
      | Some _ =>
          if has (users t) by_ then
            let m := MkMembership by_ at_ in
            Ok (Enrolled m, set_memberships <[(k, u) := m]> (set_courses_ (alter (on_club bumped) k) t))
          else Err fk_violation
      end
  end.

Definition add_membership (k u by_ : uuid) : io Tables Membership :=
  existing ← atomic (gets (λ t, memberships t !! (k, u)));
  match existing with
  | Some m => mret m
  | None =>
      at_ ← now;
      verdict ← atomic (join_tx k u by_ at_);
      match verdict with
      | Enrolled m => mret m
      | Held =>
          row ← atomic (gets (λ t, memberships t !! (k, u)));
          lift (ok_or row (Internal (lit "failed to add course membership")))
      | Unfit => raise (only_students "only students can join a course")
      end
  end.

Definition join_activity (k u by_ : uuid) : io Tables Membership :=
  row ← atomic (gets (λ t, courses t !! k));
  course ← lift (ok_or row NotFound);
  if is_class_delivered (kind course) then
    raise (Validation (Invalid "course_id"
      "a ders is joined through the class instance that teaches it, not directly"))
  else
  _ ← ensure_student u "only students can join a course";
  add_membership k u by_.

Definition leave_tx (k u : uuid) : tx Tables (option Membership) := λ t,
  match memberships t !! (k, u) with
  | Some m => Ok (Some m, set_courses_ (alter (on_club given_back) k) (set_memberships (delete (k, u)) t))
  | None => Ok (None, t)
  end.
Definition leave_activity (k u : uuid) : io Tables () :=
  row ← atomic (leave_tx k u);
  _ ← lift (ok_or row NotFound);
  mret ().

(** ** The pump's routes ([src/service/class_member.rs], [src/service/class_course.rs]) *)

Definition coded {T} (v : Attached T) (a : Axis) (message : str) : AppError :=
  ConflictCoded (default ""%string (refusal_code v a)) message.

Definition add_answer {T} (landed : Attached T) : result AppError T :=
  match landed with
  | Made saved => Ok saved
  | Duplicate => Err (coded landed AMember (lit "the student is already in this class"))
  | Gone => Err NotFound
  | PivotGone => Err (only_students "only students can be added to a class")
  | ClassFull => Err (coded landed AMember
      (lit "this class already holds " ++ show_int MAX_CLASS_MEMBERS ++ lit " students"))
  | ClassOverloaded => Err (coded landed AMember
      (lit "this class holds more than " ++ show_int MAX_CLASS_COURSES
         ++ lit " courses — detach some before adding a student"))
  | CourseGone i => Err (coded landed AMember (i ++ lit " no longer exists — detach it from this class first"))
  | SourceGone => Err (Internal (lit "a class membership has no blueprint to lose"))
  end.

Definition attach_answer {T} (landed : Attached T) : result AppError T :=
  match landed with
  | Made saved => Ok saved
  | Duplicate => Err (coded landed ACourse (lit "the course is already on this class"))
  | Gone | PivotGone => Err NotFound
  | ClassFull => Err (coded landed ACourse
      (lit "this class already holds " ++ show_int MAX_CLASS_COURSES ++ lit " courses"))
  | ClassOverloaded => Err (coded landed ACourse
      (lit "this class holds more than " ++ show_int MAX_CLASS_MEMBERS
         ++ lit " students — remove some before attaching a course"))
  | CourseGone i => Err (coded landed ACourse (i ++ lit " no longer exists — detach it from this class first"))
  | SourceGone => Err (Internal (lit "a hand attach has no blueprint to lose"))
  end.

Definition add `{UuidText} (c u by_ : uuid) : io Tables (uuid * Stint) :=
  landed ← add_member c u by_; lift (add_answer landed).
Definition attach `{UuidText} (c k by_ : uuid) : io Tables (uuid * Instance) :=
  landed ← attach_course c k by_ None; lift (attach_answer landed).

Definition leave (c u : uuid) : io Tables () :=
  gone ← leave_member c u; lift (if 0 <? gone then Ok () else Err NotFound).
Definition remove (c u : uuid) : io Tables () :=
  gone ← remove_member c u; lift (if 0 <? gone then Ok () else Err NotFound).
Definition detach (c k : uuid) : io Tables (list str) :=
  swept ← detach_course c k None; lift (ok_or swept NotFound).

(** ** Staff ([src/db/class_course_teacher.rs], [src/service/class_course.rs]) *)

Definition class_of `{School D} (i : uuid) : tx D (option uuid) :=
  gets (λ s, i_class <$> instances (the_school s) !! i).

Definition assign (i u : uuid) : io Tables bool :=
  written ← atomic (λ t,
    if negb (has (instances t) i) || bool_decide ((i, u) ∈ assigned t) then Ok (false, t) else
    if negb (has (users t) u) then Err NotFound
    else Ok (true, set_assigned ({[(i, u)]} ∪.) t));
  if written : bool then mret true else
  there ← atomic (class_of i);
  match there with None => raise NotFound | Some _ => mret false end.

Definition unassign (i u : uuid) : io Tables bool :=
  atomic (λ t, Ok (bool_decide ((i, u) ∈ assigned t), set_assigned (.∖ {[(i, u)]}) t)).

Definition archived_error : AppError := ConflictCoded "academic_year_archived"
  (lit "this academic year is archived — past years are read-only").

(** [academic_year::require_open], and through the section and the instance. *)
Definition require_open_year `{School D} (y : uuid) : io D () :=
  row ← atomic (gets (λ s, years (the_school s) !! y));
  match archived_at <$> row with Some (Some _) => raise archived_error | _ => mret () end.

Definition require_open `{School D} (i : uuid) : io D () :=
  c ← atomic (class_of i);
  match c with
  | None => mret ()
  | Some c =>
      g ← atomic (gets (λ s, groups (the_school s) !! c));
      match year <$> g with Some (Some y) => require_open_year y | _ => mret () end
  end.

Definition assign_teacher (i target by_ : uuid) : io Tables () :=
  actor ← atomic (gets (λ t, users t !! by_));
  a ← lift (ok_or actor Unauthorized);
  if negb (at_least (role a) Manager)
  then raise (Forbidden "assigning a teacher is the office's call — manager role or higher") else
  target_user ← atomic (gets (λ t, users t !! target));
  u ← lift (ok_or target_user (only_students "target user does not exist"));
  if negb (at_least (role u) Teacher)
  then raise (only_students "target user must hold the teacher role or higher") else
  _ ← require_open i;
  _ ← assign i target;
  mret ().

Definition unassign_teacher (i target : uuid) : io Tables bool :=
  _ ← require_open i; unassign i target.

Definition staff_only : AppError := Forbidden
  "only this instance's teachers, its class's homeroom teacher, or a manager may act here".

Definition ensure_instance_teacher `{School D} (u : uuid) (r : Role) (i : uuid) : io D () :=
  if at_least r Manager then mret () else
  c ← atomic (class_of i);
  c ← lift (ok_or c NotFound);
  if negb (at_least r Teacher) then raise staff_only else
  teaches ← atomic (gets (λ s, bool_decide ((i, u) ∈ assigned (the_school s))));
  if teaches : bool then mret () else
  g ← atomic (gets (λ s, groups (the_school s) !! c));
  if bool_decide (g ≫= g_teacher = Some u) then mret () else raise staff_only.

(** ** Sections ([src/db/class_group.rs]) *)

Definition year_gone : AppError := Validation (Invalid "year" "academic year does not exist").

Definition year_ref_move (current : option uuid) (patch : option (option uuid)) : option uuid * option uuid :=
  match patch with
  | None => (None, None)
  | Some next => if bool_decide (next = current) then (None, None) else (next, current)
  end.

Definition create_group_tx (creator : uuid) (i : uuid) (g : Group) : tx Tables (uuid * Group) := λ t,
  let fk t := has (users t) creator && match g_teacher g with Some u => has (users t) u | None => true end in
  match year g with
  | Some yr =>
      if negb (has (years t) yr) then Err year_gone else
      if has (groups t) i then Err (Internal (lit "failed to create class")) else
      if negb (fk t) then Err year_gone
      else Ok ((i, g), set_groups <[i := g]> (set_years (alter (on_classes bumped) yr) t))
  | None =>
      if has (groups t) i then Err unique_violation else
      if negb (fk t) then Err fk_violation
      else Ok ((i, g), set_groups <[i := g]> t)
  end.

Definition create_group (creator : uuid) (name : str) (rung : Z) (y : option uuid) (teacher_ : option uuid)
    : io Tables (uuid * Group) :=
  i ← fresh;
  atomic (create_group_tx creator i (MkGroup creator name rung y teacher_ 0 0)).

Record GroupPatch := MkGroupPatch {
  p_name : option str;
  p_grade : option Z;
  p_year : option (option uuid);
  p_teacher : option (option uuid);
}.

Definition stale_move : AppError :=
  Conflict "the link this update moves changed since it was read; re-read and retry".

Definition patched (p : GroupPatch) (g : Group) : Group :=
  MkGroup (g_creator g) (default (g_name g) (p_name p)) (default (grade_level g) (p_grade p))
    (default (year g) (p_year p)) (default (g_teacher g) (p_teacher p)) (class_member_count g) (class_course_count g).

Definition group_fk (t : Tables) (g : Group) : bool :=
  match g_teacher g with Some u => has (users t) u | None => true end
  && match year g with Some y => has (years t) y | None => true end.

(** [FieldUpdate::run] with the year's refcount armed when the patch carries the
    link: release, claim, and the row write that compares the link it read. *)
Definition update_group_tx (i : uuid) (read_year : option uuid) (p : GroupPatch) : tx Tables Group := λ t,
  match p with
  | MkGroupPatch None None None None => match groups t !! i with Some g => Ok (g, t) | None => Err NotFound end
  | _ =>
      match p_year p with
      | None =>
          match groups t !! i with
          | None => Err NotFound
          | Some g =>
              if group_fk t (patched p g) then Ok (patched p g, set_groups <[i := patched p g]> t)
              else Err fk_violation
          end
      | Some _ =>
          let (claim, back) := year_ref_move read_year (p_year p) in
          let t := match back with Some y => set_years (alter (on_classes given_back) y) t | None => t end in
          if match claim with Some y => negb (has (years t) y) | None => false end then Err year_gone else
          let t := match claim with Some y => set_years (alter (on_classes bumped) y) t | None => t end in
          match groups t !! i with
          | None => Err NotFound
          | Some g =>
              if negb (bool_decide (year g = read_year)) then Err stale_move else
              if group_fk t (patched p g) then Ok (patched p g, set_groups <[i := patched p g]> t)
              else Err fk_violation
          end
      end
  end.
Definition update_group (i : uuid) (row : Group) (p : GroupPatch) : io Tables Group :=
  atomic (update_group_tx i (year row) p).

Definition unname_class (c : uuid) (ev : Event) : Event :=
  if bool_decide (au_class (ev_audience ev) = Some c)
  then on_audience (λ a, MkAudience (au_kind a) (au_role a) (au_course a) None (au_capacity a)) ev else ev.
Definition set_events (f : gmap uuid Event → gmap uuid Event) (e : Elsewhere) : Elsewhere :=
  MkElsewhere (parent_links e) (f (events e)) (registrations e) (attendances e) (boards e) (participants e) (calendar e) (uploads e).

Definition untag_stint (c : uuid) (s : Stint) : Stint :=
  if bool_decide (source_class_group s = Some c)
  then MkStint (st_class s) (st_user s) (added_by s) (joined_at s) (left_at s) None else s.
Definition untag_row (c : uuid) (e : Enrollment) : Enrollment :=
  if bool_decide (source e = Some c) then disown e else e.

(** What still points at the section refuses the delete of its row. *)
Definition delete_group_tx (i : uuid) : tx Tables bool := λ t,
  match groups t !! i with
  | None => Err NotFound
  | Some g =>
      if negb ((class_member_count g =? 0) && (class_course_count g =? 0)) then Ok (false, t) else
      let t := set_elsewhere (set_events (fmap (unname_class i))) t in
      let t := set_stints (λ ss, untag_stint i <$> filter (λ p : uuid * Stint, st_class p.2 ≠ i) ss) t in
      let t := set_enrollments (fmap (untag_row i)) t in
      if bool_decide (map_Exists (λ _ x, i_class x = i) (instances t)) then Err fk_violation else
      let t := set_groups (delete i) t in
      Ok (true, match year g with Some y => set_years (alter (on_classes given_back) y) t | None => t end)
  end.
Definition delete_group (i : uuid) : io Tables bool := atomic (delete_group_tx i).

(** ** A key's row *)

Lemma has_dom {V} (m : gmap uuid V) i : has m i = true ↔ i ∈ dom m.
Proof. unfold has. by rewrite bool_decide_eq_true, elem_of_dom. Qed.
Lemma has_not {V} (m : gmap uuid V) i : has m i = false ↔ m !! i = None.
Proof. unfold has. by rewrite bool_decide_eq_false, eq_None_not_Some. Qed.
