(* ===== verification/Events.v ===== *)
(** * Events, registration and the roll of an event ([src/db/event.rs],
    [src/db/registration.rs], [src/db/attendance.rs],
    [src/service/registration.rs], [src/web/events.rs])

    Staff publish events; an event has an expected roster, resolved from today's
    tables whenever it is asked for. A signup list hands out seats: the seat is
    claimed by a guarded update of the event's row, which reads the capacity in
    the statement that counts. The school's attendance statuses are an argument
    (they belong to its settings). *)

From S2P Require Import Prelude Text Errors Effects Uuid Validate Modules Appointments Tally Gates EventForms Roster.

Open Scope Z_scope.

Definition set_registrations (f : gmap (uuid * uuid) Registration → gmap (uuid * uuid) Registration)
    (e : Elsewhere) : Elsewhere :=
  MkElsewhere (parent_links e) (events e) (f (registrations e)) (attendances e) (boards e) (participants e)
    (calendar e) (uploads e).
Definition set_attendances (f : gmap (uuid * uuid) Attendance → gmap (uuid * uuid) Attendance)
    (e : Elsewhere) : Elsewhere :=
  MkElsewhere (parent_links e) (events e) (registrations e) (f (attendances e)) (boards e) (participants e)
    (calendar e) (uploads e).

Definition event_of (i : uuid) (t : Tables) : option Event := events (elsewhere t) !! i.
Definition seat_of (i u : uuid) (t : Tables) : option Registration := registrations (elsewhere t) !! (i, u).
Definition mark_of (i u : uuid) (t : Tables) : option Attendance := attendances (elsewhere t) !! (i, u).

(** [read(db, id).await?.ok_or(NotFound)?]. *)
Definition event_or_404 (i : uuid) : io Tables Event :=
  row ← atomic (gets (event_of i));
  lift (ok_or row NotFound).

(** ** The event's row *)

Definition audience_fk (t : Tables) (a : EventAudience) : bool :=
  match au_course a with Some k => has (courses t) k | None => true end
  && match au_class a with Some c => has (groups t) c | None => true end.

Definition insert_event_tx (i : uuid) (ev : Event) : tx Tables (uuid * Event) := λ t,
  if has (events (elsewhere t)) i then Err unique_violation else
  if negb (has (users t) (ev_creator ev) && audience_fk t (ev_audience ev)) then Err fk_violation else
  Ok ((i, ev), set_elsewhere (set_events <[i := ev]>) t).
Definition insert_event (ev : Event) : io Tables (uuid * Event) :=
  i ← fresh;
  atomic (insert_event_tx i ev).

(** What a PATCH carries; a schedule column may be set or cleared. *)
Record EventPatch := MkEventPatch {
  ep_title : option str;
  ep_description : option str;
  ep_audience : option EventAudience;
  ep_starts_at : option (option Z);
  ep_ends_at : option (option Z);
}.
Definition with_patch (p : EventPatch) (ev : Event) : Event :=
  MkEvent (ev_creator ev) (default (ev_title ev) (ep_title p)) (default (ev_description ev) (ep_description p))
    (default (ev_audience ev) (ep_audience p)) (default (ev_starts_at ev) (ep_starts_at p))
    (default (ev_ends_at ev) (ep_ends_at p)) (registration_count ev).
Definition moves_schedule (p : EventPatch) : bool :=
  bool_decide (is_Some (ep_starts_at p)) || bool_decide (is_Some (ep_ends_at p)).
Definition writes_nothing (p : EventPatch) : bool :=
  negb (bool_decide (is_Some (ep_title p)) || bool_decide (is_Some (ep_description p))
        || bool_decide (is_Some (ep_audience p)) || moves_schedule p).

(** [update]: the order of the ends is held on the merged row, when the patch
    moves one of them; no row back reads as that refusal. *)
Definition update_event_tx (i : uuid) (p : EventPatch) : tx Tables Event := λ t,
  if writes_nothing p then
    match event_of i t with Some ev => Ok (ev, t) | None => Err NotFound end
  else
    let refused := if moves_schedule p then range_error else NotFound in
    match event_of i t with
    | None => Err refused
    | Some ev =>
        let ev' := with_patch p ev in
        if moves_schedule p && negb (is_ok (check_time_range (ev_starts_at ev') (ev_ends_at ev'))) then Err refused
        else if negb match ep_audience p with Some a => audience_fk t a | None => true end then Err fk_violation
        else Ok (ev', set_elsewhere (set_events <[i := ev']>) t)
    end.
Definition update (i : uuid) (p : EventPatch) : io Tables Event := atomic (update_event_tx i p).

(** [delete]: the children, then the row. A child that lands in between makes the
    server refuse the last statement, and the transaction runs again. *)
Definition delete_event_tx (i : uuid) : tx Tables Event := λ t,
  match event_of i t with
  | None => Err NotFound
  | Some ev =>
      Ok (ev, set_elsewhere (λ e, set_events (delete i)
        (set_registrations (off_event i) (set_attendances (off_event i) e))) t)
  end.

(** ** Who is expected *)

(** [enrollment::user_is_in_course], and the list of the same people. *)
Definition user_is_in_course (t : Tables) (k u : uuid) : bool :=
  bool_decide (map_Exists (λ i x, i_course x = k ∧ is_Some (enrollments t !! (i, u))) (instances t))
  || bool_decide (is_Some (memberships t !! (k, u))).

Definition people_of_course (t : Tables) (k : uuid) : gset uuid :=
  list_to_set ((λ p : (uuid * uuid) * Enrollment, p.1.2) <$>
    filter (λ p : (uuid * uuid) * Enrollment, i_course <$> instances t !! p.1.1 = Some k) (map_to_list (enrollments t)))
  ∪ list_to_set ((λ p : (uuid * uuid) * Membership, p.1.2) <$>
    filter (λ p : (uuid * uuid) * Membership, p.1.1 = k) (map_to_list (memberships t))).
Definition list_users_for_course (t : Tables) (k : uuid) : list uuid := ascending (people_of_course t k).

(** [class_member::list_for_class]: [joined_at DESC, id DESC]. *)
Definition newest_stint (p q : uuid * Stint) : Prop :=
  joined_at q.2 < joined_at p.2 ∨ (joined_at p.2 = joined_at q.2 ∧ (q.1 ≤ p.1)%N).
#[export] Instance newest_stint_dec : RelDecision newest_stint.
Proof. intros p q. unfold newest_stint. apply _. Defined.
Definition list_for_class (t : Tables) (c : uuid) : list (uuid * Stint) :=
  merge_sort newest_stint
    (filter (λ p : uuid * Stint, st_class p.2 = c ∧ left_at p.2 = None) (map_to_list (stints t))).

(** [registration::list_for_event], and [user::list_by_role]. *)
Definition list_seats (t : Tables) (i : uuid) : list uuid :=
  descending (set_map snd (filter (λ p, p.1 = i) (dom (registrations (elsewhere t))))).
Definition list_by_role (t : Tables) (r : Role) : list uuid :=
  descending (dom (filter (λ p : uuid * Account, role p.2 = r) (users t))).

(** [includes]: the point check behind marking. *)
Definition includes (t : Tables) (i : uuid) (ev : Event) (u : User) : bool :=
  let a := ev_audience ev in
  match au_kind a with
  | KindSchool => true
  | KindRole => bool_decide (Some (get_role u) = au_role a)
  | KindCourse => match au_course a with Some k => user_is_in_course t k (uid u) | None => false end
  | KindClass =>
      match au_class a with Some c => bool_decide (is_live_member t c (uid u)) | None => false end
  | KindRegistration => bool_decide (is_Some (seat_of i (uid u) t))
  end.

(** [members]: the whole roster. *)
Definition members (t : Tables) (i : uuid) (ev : Event) : list uuid :=
  let a := ev_audience ev in
  match au_kind a with
  | KindSchool => descending (dom (users t))
  | KindRole => match au_role a with Some r => list_by_role t r | None => [] end
  | KindCourse => match au_course a with Some k => list_users_for_course t k | None => [] end
  | KindClass =>
      match au_class a with Some c => (λ p : uuid * Stint, st_user p.2) <$> list_for_class t c | None => [] end
  | KindRegistration => list_seats t i
  end.

(** ** Seats *)

(** [claim_seat]: the holder's row, the event's count and the seat are one
    statement. *)
Definition claim_seat_tx (i u by_ : uuid) (at_ : Z) : tx Tables (Claimed Registration) := λ t,
  if negb match users t !! u with Some a => negb (bool_decide (role a = Parent)) | None => false end
  then Ok (Full, t) else
  match event_of i t with
  | None => Ok (Full, t)
  | Some ev =>
      if negb match au_capacity (ev_audience ev) with Some n => registration_count ev <? n | None => true end
      then Ok (Full, t) else
      match seat_of i u t with
      | Some _ => Ok (Effects.Duplicate, t)
      | None =>
          if negb (has (users t) by_) then Err fk_violation else
          let r := MkRegistration by_ at_ in
          Ok (Effects.Made r, set_elsewhere (λ e, set_registrations <[(i, u) := r]>
            (set_events (alter (on_registrations bumped) i) e)) t)
      end
  end.
Definition claim_seat (i u by_ : uuid) : io Tables (Claimed Registration) :=
  at_ ← now;
  atomic (claim_seat_tx i u by_ at_).

Definition fell_to_parent : AppError :=
  Forbidden "that account was demoted to parent while this request ran — only students can be registered for".
Definition event_full : AppError := Conflict "the event is full".

(** [service::registration::register]. *)
Definition register (i u by_ : uuid) : io Tables Registration :=
  held ← atomic (gets (seat_of i u));
  match held with
  | Some seat => mret seat
  | None =>
      ev ← event_or_404 i;
      _ ← registration_capacity ev;
      verdict ← claim_seat i u by_;
      match verdict with
      | Effects.Made seat => mret seat
      | Effects.Duplicate =>
          again ← atomic (gets (seat_of i u));
          lift (ok_or again (Internal (lit "failed to register user")))
      | Full =>
          row ← atomic (gets (event_of i));
          match row with
          | None => raise NotFound
          | Some _ =>
              held ← atomic (gets (user_of u));
              if bool_decide (get_role <$> held = Some Parent) then raise fell_to_parent else raise event_full
          end
      end
  end.

(** [registration::remove]: the seat and its row come back together. *)
Definition remove_seat_tx (i u : uuid) : tx Tables (option Registration) := writes (λ t,
  match seat_of i u t with
  | None => (None, t)
  | Some seat =>
      (Some seat, set_elsewhere (λ e, set_registrations (delete (i, u))
        (set_events (alter (on_registrations given_back) i) e)) t)
  end).

(** ** Marks *)

(** [attendance::mark]: under the event's lock, one row per pair. *)
Definition mark_tx (i u : uuid) (status : str) (by_ : uuid) (at_ : Z) : tx Tables Attendance := λ t,
  match event_of i t with
  | None => Err NotFound
  | Some _ =>
      if negb (has (users t) u && has (users t) by_) then Err fk_violation else
      let a := MkAttendance status by_ at_ in
      Ok (a, set_elsewhere (set_attendances <[(i, u) := a]>) t)
  end.
Definition mark (i u : uuid) (status : str) (by_ : uuid) : io Tables Attendance :=
  at_ ← now;
  atomic (mark_tx i u status by_ at_).

Definition remove_mark_tx (i u : uuid) : tx Tables (option Attendance) := writes (λ t,
  (mark_of i u t, set_elsewhere (set_attendances (delete (i, u))) t)).

(** [attendance::list_for_event]: [app_user DESC]. *)
Definition list_marks (t : Tables) (i : uuid) : list (uuid * Attendance) :=
  omap (λ u, pair u <$> mark_of i u t)
    (descending (set_map snd (filter (λ p, p.1 = i) (dom (attendances (elsewhere t)))))).
