(* ===== verification/EventRoutes.v ===== *)
(** * The events' requests ([src/web/events.rs], [src/web/page.rs])

    What each route checks before it calls the service, and what the reports
    read. Everybody sees every event; staff publish them, take the roll and hand
    out the seats. *)

From S2P Require Import Prelude Text Errors Effects Uuid Validate Modules Appointments Tally Gates EventForms Roster Events.

Open Scope Z_scope.

(** ** Audiences on the wire *)

Inductive AudienceDto : Set :=
  | DtoSchool
  | DtoRole (role_ : str)
  | DtoCourse (course_ : str)
  | DtoClass (class_ : str)
  | DtoRegistration (capacity : option Z).

Definition of_kind (k : EventAudienceKind) : EventAudience := MkAudience k None None None None.

Section Routes.
Context `{UuidText}.

Definition course_missing : AppError := Validation (Invalid "audience" "course does not exist").
Definition class_missing : AppError := Validation (Invalid "audience" "class does not exist").

(** [into_domain]. *)
Definition into_domain (d : AudienceDto) : io Tables EventAudience :=
  match d with
  | DtoSchool => mret (of_kind KindSchool)
  | DtoRole r =>
      r ← checked (role_try_from_str r);
      mret (MkAudience KindRole (Some r) None None None)
  | DtoCourse key =>
      let k := uuid_from_key key in
      there ← atomic (gets (λ t, has (courses t) k));
      if negb there then raise course_missing else
      mret (MkAudience KindCourse None (Some k) None None)
  | DtoClass key =>
      let c := uuid_from_key key in
      there ← atomic (gets (λ t, has (groups t) c));
      if negb there then raise class_missing else
      mret (MkAudience KindClass None None (Some c) None)
  | DtoRegistration capacity =>
      if match capacity with Some n => n <? 1 | None => false end
      then raise (Validation (Invalid "audience" "capacity must be at least 1")) else
      mret (MkAudience KindRegistration None None None capacity)
  end.

(** [from_domain]. *)
Definition from_domain (a : EventAudience) : AudienceDto :=
  match au_kind a with
  | KindSchool => DtoSchool
  | KindRole => DtoRole (default [] (role_as_str <$> au_role a))
  | KindCourse => DtoCourse (default [] (uuid_text <$> au_course a))
  | KindClass => DtoClass (default [] (uuid_text <$> au_class a))
  | KindRegistration => DtoRegistration (au_capacity a)
  end.

(** ** Publishing *)

Record CreateEvent := MkCreateEvent {
  ce_title : str;
  ce_description : option str;
  ce_audience : option AudienceDto;
  ce_starts_at : option Z;
  ce_ends_at : option Z;
}.

Definition create_event (u : User) (req : CreateEvent) : io Tables (uuid * Event) :=
  _ ← lift (require_teacher u);
  title ← checked (event_title_try_new (ce_title req));
  description ← checked (event_description_try_new (default [] (ce_description req)));
  audience ← match ce_audience req with
    | Some d => into_domain d
    | None => mret (of_kind KindSchool)
    end;
  _ ← check_not_past "starts_at" (ce_starts_at req);
  _ ← check_not_past "ends_at" (ce_ends_at req);
  _ ← lift (check_time_range (ce_starts_at req) (ce_ends_at req));
  insert_event (MkEvent (uid u) title description audience (ce_starts_at req) (ce_ends_at req) 0).

(** A field omitted keeps its value; a schedule column takes null for clear. *)
Record UpdateEvent := MkUpdateEvent {
  ue_title : option str;
  ue_description : option str;
  ue_audience : option AudienceDto;
  ue_starts_at : option (option Z);
  ue_ends_at : option (option Z);
}.

Definition not_yours (verb : string) : AppError :=
  Forbidden ("only the creator or a manager/admin can " ++ verb ++ " this event")%string.

Definition update_event (u : User) (i : uuid) (req : UpdateEvent) : io Tables Event :=
  _ ← lift (require_teacher u);
  ev ← event_or_404 i;
  if negb (can_manage ev u) then raise (not_yours "edit") else
  title ← checked_opt event_title_try_new (ue_title req);
  description ← checked_opt event_description_try_new (ue_description req);
  audience ← match ue_audience req with
    | Some d => a ← into_domain d; mret (Some a)
    | None => mret None
    end;
  _ ← match ue_starts_at req with Some s => check_not_past "starts_at" s | None => mret () end;
  _ ← match ue_ends_at req with Some e => check_not_past "ends_at" e | None => mret () end;
  _ ← lift (check_time_range (default (ev_starts_at ev) (ue_starts_at req)) (default (ev_ends_at ev) (ue_ends_at req)));
  update i (MkEventPatch title description audience (ue_starts_at req) (ue_ends_at req)).

Definition delete_event (u : User) (i : uuid) : io Tables Event :=
  _ ← lift (require_teacher u);
  ev ← event_or_404 i;
  if negb (can_manage ev u) then raise (not_yours "delete") else
  atomic (delete_event_tx i).

(** ** The roll *)

Definition target_missing : AppError := Validation (Invalid "user_id" "target user does not exist").
Definition target_outside : AppError := Validation (Invalid "user_id" "target user is not in this event's audience").

Definition named (u : User) (user_id : option str) : uuid :=
  match user_id with Some key => uuid_from_key key | None => uid u end.

(** [allowed] is what the settings list. *)
Definition mark_attendance (u : User) (i : uuid) (allowed : list str) (status : str) (user_id : option str)
    : io Tables Attendance :=
  _ ← lift (require_teacher u);
  ev ← event_or_404 i;
  status ← checked (attendance_status_try_new status allowed);
  let target := named u user_id in
  held ← atomic (gets (user_of target));
  target_user ← lift (ok_or held target_missing);
  expected ← atomic (gets (λ t, includes t i ev target_user));
  if negb expected then raise target_outside else
  mark i target status (uid u).

Definition list_attendance (u : User) (i : uuid) (limit offset : option Z)
    : io Tables (list (uuid * Attendance) * Z) :=
  _ ← lift (require_teacher u);
  '(limit, offset) ← lift (resolve_page limit offset);
  _ ← event_or_404 i;
  paged_list (λ t, list_marks t i) limit offset.

Definition remove_attendance (u : User) (i : uuid) (target : str) : io Tables () :=
  _ ← lift (require_teacher u);
  gone ← atomic (remove_mark_tx i (uuid_from_key target));
  _ ← lift (ok_or gone NotFound);
  mret ().

(** ** The report *)

Record RosterEntry := MkRosterEntry { re_user : uuid; re_status : option str; re_marked_by : option uuid }.

Definition roster_entry (by_user : gmap uuid Attendance) (u : uuid) : RosterEntry :=
  let m := by_user !! u in MkRosterEntry u (at_status <$> m) (at_marked_by <$> m).

(** The names the page joins on are read of the accounts afterwards. *)
Definition roster (u : User) (i : uuid) (limit offset : option Z) : io Tables (list RosterEntry * Z) :=
  _ ← lift (require_teacher u);
  '(limit, offset) ← lift (resolve_page limit offset);
  ev ← event_or_404 i;
  expected ← atomic (gets (λ t, members t i ev));
  let expected := merge_sort by_key expected in
  marks ← atomic (gets (λ t, list_marks t i));
  let by_user : gmap uuid Attendance := list_to_map marks in
  mret (roster_entry by_user <$> paginate expected limit offset, Z.of_nat (length expected)).

(** ** Seats *)

Definition staff_only : AppError :=
  Forbidden "staff register themselves — only students can be registered for".
Definition staff_seat : AppError :=
  Forbidden "staff unregister themselves — only students' seats can be freed".

Definition register_user (u : User) (i : uuid) (user_id : option str) : io Tables Registration :=
  _ ← lift (require_teacher u);
  ev ← event_or_404 i;
  _ ← registration_capacity ev;
  let target := named u user_id in
  held ← atomic (gets (user_of target));
  target_user ← lift (ok_or held target_missing);
  if negb (bool_decide (target = uid u)) && negb (bool_decide (get_role target_user = Student))
  then raise staff_only else
  register i target (uid u).

Definition unregister (u : User) (i : uuid) (target : str) : io Tables () :=
  _ ← lift (require_teacher u);
  ev ← event_or_404 i;
  _ ← registration_capacity ev;
  let target := uuid_from_key target in
  _ ← (if bool_decide (target = uid u) then mret () else
       held ← atomic (gets (user_of target));
       if match held with Some v => at_least (get_role v) Teacher | None => false end
       then raise staff_seat else mret ());
  gone ← atomic (remove_seat_tx i target);
  _ ← lift (ok_or gone NotFound);
  mret ().
End Routes.

(** ** The list *)

Record WindowParams := MkWindow {
  starts_after : option Z;
  ends_after : option Z;
  starts_before : option Z;
  ends_before : option Z;
}.

Definition window_validate (w : WindowParams) : result AppError () :=
  let ok (field : string) v :=
    if match v with Some x => x <? 0 | None => false end
    then Err (Validation (Invalid field "must not be negative")) else Ok () in
  _ ← ok "starts_after"%string (starts_after w);
  _ ← ok "ends_after"%string (ends_after w);
  _ ← ok "starts_before"%string (starts_before w);
  ok "ends_before"%string (ends_before w).

Definition windowed (w : WindowParams) : bool :=
  bool_decide (is_Some (starts_after w)) || bool_decide (is_Some (ends_after w))
  || bool_decide (is_Some (starts_before w)) || bool_decide (is_Some (ends_before w)).

(** A comparison of a column with a bound, which NULL fails. *)
Definition sql_above (column bound : option Z) : bool :=
  match bound with None => true | Some b => match column with Some c => b <? c | None => false end end.
Definition sql_below (column bound : option Z) : bool :=
  match bound with None => true | Some b => match column with Some c => c <? b | None => false end end.
Definition last_at (ev : Event) : option Z :=
  match ev_ends_at ev with Some e => Some e | None => ev_starts_at ev end.

(** [list_windowed]'s conditions. *)
Definition in_window (w : WindowParams) (ev : Event) : bool :=
  sql_above (ev_starts_at ev) (starts_after w) && sql_below (ev_starts_at ev) (starts_before w)
  && sql_above (last_at ev) (ends_after w) && sql_below (last_at ev) (ends_before w).

(** [ORDER BY COALESCE(starts_at, ends_at) ASC, id ASC], and [ORDER BY id DESC]. *)
Definition opens_before (p q : uuid * Event) : Prop :=
  match closes_at p.2, closes_at q.2 with
  | Some a, Some b => a < b ∨ (a = b ∧ (p.1 ≤ q.1)%N)
  | Some _, None => True
  | None, Some _ => False
  | None, None => (p.1 ≤ q.1)%N
  end.
#[export] Instance opens_before_dec : RelDecision opens_before.
Proof. intros p q. unfold opens_before. destruct (closes_at p.2), (closes_at q.2); apply _. Defined.
Definition newest_first (p q : uuid * Event) : Prop := (q.1 ≤ p.1)%N.
#[export] Instance newest_first_dec : RelDecision newest_first.
Proof. intros p q. unfold newest_first. apply _. Defined.

Definition list_windowed (w : WindowParams) (t : Tables) : list (uuid * Event) :=
  let rows := map_to_list (events (elsewhere t)) in
  if windowed w then merge_sort opens_before (filter (λ p : uuid * Event, in_window w p.2 = true) rows)
  else merge_sort newest_first rows.

Definition list_events (w : WindowParams) (limit offset : option Z) : io Tables (list (uuid * Event) * Z) :=
  '(limit, offset) ← lift (resolve_page limit offset);
  _ ← lift (window_validate w);
  paged_list (list_windowed w) limit offset.

(** [WindowParams::apply]: the same window over a list in memory. [None] orders
    before every [Some]. *)
Definition opt_lt (a b : option Z) : bool :=
  match a, b with
  | None, Some _ => true
  | Some x, Some y => x <? y
  | _, None => false
  end.
Definition retained (w : WindowParams) (ev : Event) : bool :=
  let starts := ev_starts_at ev in
  match starts_after w with None => true | Some a => opt_lt (Some a) starts end
  && match starts_before w with None => true | Some b => match starts with Some s => s <? b | None => false end end
  && match ends_after w with None => true | Some a => opt_lt (Some a) (last_at ev) end
  && match ends_before w with None => true | Some b => match last_at ev with Some e => e <? b | None => false end end.
