(* ===== verification/Roles.v ===== *)
(** * Accounts and their roles ([src/db/user.rs], [src/service/user.rs])

    An account is minted with a role; a role change sheds, in its own
    transaction, every grant the new role may not hold, and refuses to leave the
    school without an admin. *)

From S2P Require Import Prelude Text Errors Effects Uuid Validate Modules Appointments Tally Gates EventForms Roster.

Open Scope Z_scope.

Definition number_taken : AppError := ConflictCoded "student_number_taken" (lit "student number already taken").
Definition non_student_refusal : AppError := Validation (Invalid "student_number"
  "only a student account may hold a student number").

(** The username and the student number are unique; the row's own check keeps a
    number to students. *)
Definition create_with_role (name : str) (r : Role) (number : option str) : io Tables (uuid * Account) :=
  i ← fresh;
  atomic (λ t,
    if has (users t) i then Err unique_violation else
    if bool_decide (is_Some number) && negb (bool_decide (r = Student)) then Err non_student_refusal else
    if bool_decide (map_Exists (λ _ a, username a = name) (users t))
    then Err (Conflict "username already taken") else
    if bool_decide (is_Some number) && bool_decide (map_Exists (λ _ a, student_number a = number) (users t))
    then Err number_taken
    else let a := MkAccount name r number in Ok ((i, a), set_users <[i := a]> t)).
Definition create_user (name : str) : io Tables (uuid * Account) := create_with_role name Student None.

(** ** The floor *)

Definition floor_refusal : AppError :=
  Conflict "the school must keep at least one admin — promote another account first".

Definition admins (t : Tables) : Z := count (λ p : uuid * Account, role p.2 = Admin) (users t).
Definition other_admins (u : uuid) (t : Tables) : Z :=
  count (λ p : uuid * Account, role p.2 = Admin ∧ p.1 ≠ u) (users t).

(** The guarded [UPDATE]: [others] is what its subquery counted. *)
Definition with_role (r : Role) (a : Account) : Account :=
  MkAccount (username a) r (if decide (r = Student) then student_number a else None).

Definition set_roles (f : gmap uuid str → gmap uuid str) (c : Appointments.Tables) : Appointments.Tables :=
  Appointments.MkTables (slots c) (occupied c) (appointments c) (f (roles c)).
Definition set_calendar (f : Appointments.Tables → Appointments.Tables) (e : Elsewhere) : Elsewhere :=
  MkElsewhere (parent_links e) (events e) (registrations e) (attendances e) (boards e) (participants e) (f (calendar e)) (uploads e).

Definition write_role (u : uuid) (r : Role) (others : Z) : tx Tables Account := λ t,
  match users t !! u with
  | None => Err floor_refusal
  | Some a =>
      if bool_decide (role a = Admin) && negb (bool_decide (r = Admin)) && (others =? 0) then Err floor_refusal
      else Ok (with_role r a,
               set_elsewhere (set_calendar (set_roles <[u := role_as_str r]>))
                 (set_users <[u := with_role r a]> t))
  end.

(** ** The sweeps *)

(** Off [student]. *)
Definition end_stint (u : uuid) (at_ : Z) (s : Stint) : Stint :=
  if decide (st_user s = u ∧ left_at s = None)
  then MkStint (st_class s) (st_user s) (added_by s) (joined_at s) (Some at_) (source_class_group s) else s.

Definition live_classes (u : uuid) (t : Tables) : gset uuid :=
  list_to_set ((λ p : uuid * Stint, st_class p.2) <$>
    filter (λ p : uuid * Stint, st_user p.2 = u ∧ left_at p.2 = None) (map_to_list (stints t))).
Definition rosters_with {V} (u : uuid) (rows : gmap (uuid * uuid) V) : gset uuid :=
  list_to_set ((λ p : (uuid * uuid) * V, p.1.1) <$>
    filter (λ p : (uuid * uuid) * V, p.1.2 = u) (map_to_list rows)).

Definition off_user {V} (u : uuid) (m : gmap (uuid * uuid) V) : gmap (uuid * uuid) V :=
  filter (λ p : (uuid * uuid) * V, p.1.2 ≠ u) m.

Definition set_parent_links (f : gset (uuid * uuid) → gset (uuid * uuid)) (e : Elsewhere) : Elsewhere :=
  MkElsewhere (f (parent_links e)) (events e) (registrations e) (attendances e) (boards e) (participants e) (calendar e) (uploads e).

Definition shed_student (u : uuid) (at_ : Z) : tx Tables () := writes (λ t, ((),
  let t := set_groups (update_in (live_classes u t) (on_members given_back)) (set_stints (fmap (end_stint u at_)) t) in
  let t := set_instances (update_in (rosters_with u (enrollments t)) (on_roster given_back))
             (set_enrollments (off_user u) t) in
  let t := set_courses_ (update_in (rosters_with u (memberships t)) (on_club given_back))
             (set_memberships (off_user u) t) in
  set_elsewhere (set_parent_links (filter (λ p, p.2 ≠ u))) t)).

(** To [parent]. *)
(** The freeze, as the sweep's SQL spells it. *)
Definition frozen (ev : Event) (at_ : Z) : bool :=
  bool_decide (audience_kind ev = KindRegistration)
  && match closes_at ev with Some s => s <=? at_ | None => false end.

(** The stray signups, and those on a list that has not frozen. *)
Definition freed (u : uuid) (at_ : Z) (e : Elsewhere) (p : uuid * uuid) : Prop :=
  p.2 = u ∧ match events e !! p.1 with Some ev => frozen ev at_ = false | None => True end.
#[export] Instance freed_dec u at_ e p : Decision (freed u at_ e p).
Proof. unfold freed. destruct (events e !! p.1); apply _. Defined.

Definition free_seats (u : uuid) (at_ : Z) (e : Elsewhere) : Elsewhere :=
  MkElsewhere (parent_links e)
    (update_in (set_map fst (filter (freed u at_ e) (dom (registrations e)))) (on_registrations given_back) (events e))
    (filter (λ p : (uuid * uuid) * Registration, ¬ freed u at_ e p.1) (registrations e)) (attendances e)
    (boards e) (participants e) (calendar e) (uploads e).

Definition close_board (u : uuid) (at_ : Z) (b : Board) : Board :=
  if decide (b_owner b = u ∧ closed_at b = None) then MkBoard (b_owner b) (Some at_) else b.

Definition retire_boards (u : uuid) (at_ : Z) (e : Elsewhere) : Elsewhere :=
  MkElsewhere (parent_links e) (events e) (registrations e) (attendances e) (close_board u at_ <$> boards e)
    (filter (λ p, p.2 ≠ u) (participants e)) (calendar e) (uploads e).

(** The rooms to tell, as they stand afterwards; [before] held the rosters. *)
Definition told (u : uuid) (before after : Elsewhere) : list (uuid * Board) :=
  filter (λ p : uuid * Board, (p.1, u) ∈ participants before ∨ b_owner p.2 = u) (map_to_list (boards after)).

Definition become_parent (u : uuid) (at_ : Z) : tx Tables (list (uuid * Board)) := writes (λ t,
  let t := set_elsewhere (free_seats u at_) t in
  let t' := set_elsewhere (retire_boards u at_) t in
  (told u (elsewhere t) (elsewhere t'), t')).

(** Below [teacher]. *)
Definition teacher_left : str := lit "the teacher no longer holds a teaching role".

Definition clear_homeroom (u : uuid) (g : Group) : Group :=
  if bool_decide (g_teacher g = Some u)
  then MkGroup (g_creator g) (g_name g) (grade_level g) (year g) None (class_member_count g) (class_course_count g)
  else g.

Definition taught_by (u : uuid) (c : Appointments.Tables) (a : Appointment) : Prop :=
  (slot a ≫= λ s, slots c !! s) ≫= (Some ∘ teacher) = Some u.
#[export] Instance taught_by_dec u c a : Decision (taught_by u c a).
Proof. unfold taught_by. apply _. Defined.

(** The live bookings are cancelled, and every booking loses the slot. *)
Definition settle (u : uuid) (c : Appointments.Tables) (a : Appointment) : Appointment :=
  if decide (taught_by u c a) then
    MkAppointment None (requester a) (if is_live (status a) then Cancelled else status a) (reason a)
      (proposed_starts_at a) (proposed_ends_at a) (proposed_by a) (decided_by a)
      (if is_live (status a) then Some u else cancelled_by a)
      (if is_live (status a) then Some teacher_left else cancel_reason a)
      (reject_reason a) (created_at a)
  else a.

Definition close_calendar (u : uuid) (c : Appointments.Tables) : Appointments.Tables :=
  Appointments.MkTables
    (filter (λ p : uuid * AppointmentSlot, teacher p.2 ≠ u) (slots c))
    (filter (λ p : uuid * Z, Some u ≠ teacher <$> slots c !! p.1) (occupied c))
    (settle u c <$> appointments c) (roles c).

Definition shed_staff (u : uuid) : tx Tables () := writes (λ t, ((),
  let t := set_assigned (filter (λ p, p.2 ≠ u)) t in
  let t := set_groups (fmap (clear_homeroom u)) t in
  set_elsewhere (set_calendar (close_calendar u)) t)).

Definition shed_parent (u : uuid) : tx Tables () := writes (λ t, ((),
  set_elsewhere (set_parent_links (filter (λ p, p.1 ≠ u))) t)).

(** ** The cascade: [set_role_cascade]'s statements after the floor *)

Definition cascade_tx (u : uuid) (r : Role) (others : Z) (at_ : Z) : tx Tables (Account * list (uuid * Board)) :=
  updated ← write_role u r others;
  _ ← (if decide (r = Student) then mret () else shed_student u at_);
  if decide (r = Parent) then
    told_ ← become_parent u at_;
    mret (updated, told_)
  else
    _ ← shed_parent u;
    _ ← (if at_least r Teacher then mret () else shed_staff u);
    mret (updated, []).

(** A demoted admin locks the admins first, and from there all is one step. An
    account read as something else is not locked: the subquery of the [UPDATE]
    counts on the statement's snapshot, the row is the latest one. *)
Definition set_role_cascade (u : uuid) (r : Role) : io Tables (Account * list (uuid * Board)) :=
  at_ ← now;
  if decide (r = Admin) then atomic (cascade_tx u r 0 at_) else
  current ← atomic (gets (λ t, role <$> users t !! u));
  if decide (current = Some Admin) then
    atomic (
      n ← gets admins;
      if n <=? 1 then refuse floor_refusal else
      others ← gets (other_admins u);
      cascade_tx u r others at_)
  else
    others ← atomic (gets (other_admins u));
    atomic (cascade_tx u r others at_).

Definition set_role (u : uuid) (r : Role) : io Tables (Account * list (uuid * Board)) :=
  row ← atomic (gets (λ t, users t !! u));
  _ ← lift (ok_or row NotFound);
  set_role_cascade u r.
