(* ===== verification/Catalog.v ===== *)
(** * The catalog and what a section teaches from it ([src/db/course.rs],
    [src/db/course_offering.rs], [src/service/course_offering.rs],
    [src/domain/class_course.rs], [src/db/class_course.rs],
    [src/service/class_course.rs], [src/service/instance_resolve.rs])

    A course is a row of the catalog; a grade teaches it from a template, the
    offering; a section may override what the template says. What is unset
    inherits: the section from the template, the template from the catalog or a
    constant. *)

From S2P Require Import Prelude Text Errors Effects Uuid Validate Modules Tally Gates EventForms Roster.

Open Scope Z_scope.

Definition MIN_DERS_SAATI : Z := 1.
Definition MAX_DERS_SAATI : Z := 40.
Definition MAX_COURSE_TITLE_LEN : Z := 200.
Definition MAX_COURSE_DESCRIPTION_LEN : Z := 2000.

Definition course_title_try_new (value : str) : result ValidationError str :=
  _ ← validate_required "title" value MAX_COURSE_TITLE_LEN; Ok value.
Definition course_description_try_new (value : str) : result ValidationError str :=
  _ ← validate_optional "description" value MAX_COURSE_DESCRIPTION_LEN; Ok value.
Definition course_kind_try_new (value : str) : result ValidationError str :=
  _ ← validate_course_kind value; Ok value.
Definition ders_saati_try_new (value : Z) : result ValidationError Z :=
  if negb (in_range MIN_DERS_SAATI MAX_DERS_SAATI value)
  then Err (Invalid "ders_saati" "must be between 1 and 40 weekly hours") else Ok value.

(** ** Courses ([src/db/course.rs]) *)

Definition create_course (creator : uuid) (title description kind_ : str) : io Tables (uuid * Course) :=
  i ← fresh;
  atomic (λ t,
    if has (courses t) i then Err (Internal (lit "failed to create course")) else
    if negb (has (users t) creator) then Err NotFound
    else let c := MkCourse creator title description kind_ 0 0 in Ok ((i, c), set_courses_ <[i := c]> t)).

Definition update_course (i : uuid) (title description kind_ : option str) : io Tables Course :=
  atomic (λ t, match courses t !! i with
    | None => Err NotFound
    | Some c =>
        let c' := MkCourse (co_creator c) (default (co_title c) title) (default (co_description c) description)
                    (default (kind c) kind_) (taught_count c) (course_membership_count c) in
        Ok (c', set_courses_ <[i := c']> t)
    end).

Definition unname_course (k : uuid) (ev : Event) : Event :=
  if bool_decide (au_course (ev_audience ev) = Some k)
  then on_audience (λ a, MkAudience (au_kind a) (au_role a) None (au_class a) (au_capacity a)) ev else ev.

Fixpoint sweep_instances (ids : list uuid) : tx Tables () :=
  match ids with
  | [] => mret ()
  | i :: ids => _ ← sweep_instance_subtree i; sweep_instances ids
  end.

Definition taught_in (t : Tables) (k : uuid) : list uuid :=
  (filter (λ p : uuid * Instance, i_course p.2 = k) (map_to_list (instances t))).*1.
Definition classes_with (t : Tables) (k : uuid) : gset uuid :=
  list_to_set ((λ p : uuid * Instance, i_class p.2) <$>
    filter (λ p : uuid * Instance, i_course p.2 = k) (map_to_list (instances t))).

Definition drop_course (k : uuid) (b : Blueprint) : Blueprint :=
  MkBlueprint (b_key b) (b_creator b) (b_courses b ∖ {[k]}).

(** The templates of the course go by the store's own cascade. *)
Definition delete_course_tx (k : uuid) : tx Tables bool := λ t,
  match courses t !! k with
  | None => Err NotFound
  | Some c =>
      if negb ((taught_count c =? 0) && (course_membership_count c =? 0)) then Ok (false, t) else
      (_ ← writes (λ t, ((), set_elsewhere (set_events (fmap (unname_course k))) t));
       ids ← gets (λ t, taught_in t k);
       _ ← sweep_instances ids;
       _ ← writes (λ t, ((), set_groups (update_in (classes_with t k) (on_courses given_back))
             (set_instances (filter (λ p : uuid * Instance, i_course p.2 ≠ k)) t)));
       _ ← writes (λ t, ((), set_memberships (filter (λ p : (uuid * uuid) * Membership, p.1.1 ≠ k)) t));
       _ ← writes (λ t, ((), set_blueprints (fmap (drop_course k)) t));
       _ ← writes (λ t, ((), set_offerings (filter (λ p : uuid * Offering, off_course p.2 ≠ k)) t));
       _ ← writes (λ t, ((), set_courses_ (delete k) t));
       mret true) t
  end.
Definition delete_course (k : uuid) : io Tables bool := atomic (delete_course_tx k).

(** ** Templates ([src/db/course_offering.rs], [src/service/course_offering.rs]) *)

Definition offering_exists : AppError :=
  ConflictCoded "offering_exists" (lit "this course already has an offering for this grade").

Definition create_offering_row (k : uuid) (rung : Z) (title description : option str) (hours : option Z)
    (counts : option bool) (by_ : uuid) : io Tables (uuid * Offering) :=
  at_ ← now;
  o ← fresh;
  atomic (λ t,
    if has (offerings t) o || bool_decide (is_Some (template t k rung)) then Err offering_exists else
    if negb (has (courses t) k && has (users t) by_) then Err fk_violation
    else let row := MkOffering k rung title description hours counts by_ at_ at_ in
         Ok ((o, row), set_offerings <[o := row]> t)).

Definition offering_refusal : AppError := Validation (Invalid "course"
  "only a ders has grade-level offerings — a club or etüt is joined individually, not attached").

Definition create_offering (by_ k : uuid) (rung : Z) (title description : option str) (hours : option Z)
    (counts : option bool) : io Tables (uuid * Offering) :=
  row ← atomic (gets (λ t, courses t !! k));
  c ← lift (ok_or row NotFound);
  if negb (is_class_delivered (kind c)) then raise offering_refusal
  else create_offering_row k rung title description hours counts by_.

(** [CASE WHEN present THEN value ELSE column END]; the hours are coalesced with
    the column first. *)
Definition set_or_keep {V} (patch : option (option V)) (column : option V) : option V :=
  match patch with Some v => v | None => column end.
Definition hours_patch (patch : option (option Z)) (column : option Z) : option Z :=
  match patch with
  | Some v => match v with Some h => Some h | None => column end
  | None => column
  end.

Record OfferingPatch := MkOfferingPatch {
  op_title : option (option str);
  op_description : option (option str);
  op_hours : option (option Z);
  op_counts : option (option bool);
}.

Definition patched_offering (p : OfferingPatch) (at_ : Z) (o : Offering) : Offering :=
  MkOffering (off_course o) (off_grade o) (set_or_keep (op_title p) (off_title o))
    (set_or_keep (op_description p) (off_description o)) (hours_patch (op_hours p) (default_ders_saati o))
    (set_or_keep (op_counts p) (default_counts_toward_karne o))
    (off_created_by o) (off_created_at o) at_.

Definition update_offering (i : uuid) (p : OfferingPatch) : io Tables Offering :=
  match p with
  | MkOfferingPatch None None None None =>
      row ← atomic (gets (λ t, offerings t !! i)); lift (ok_or row NotFound)
  | _ =>
      at_ ← now;
      atomic (λ t, match offerings t !! i with
        | Some o => Ok (patched_offering p at_ o, set_offerings <[i := patched_offering p at_ o]> t)
        | None => Err NotFound
        end)
  end.

Definition offering_in_use : AppError := ConflictCoded "offering_in_use"
  (lit "instances still teach this offering — detach the course from those classes first").

Definition delete_offering (i : uuid) : io Tables () :=
  deleted ← atomic (λ t,
    if has (offerings t) i && negb (bool_decide (map_Exists (λ _ x, i_offering x = i) (instances t)))
    then Ok (true, set_offerings (delete i) t) else Ok (false, t));
  if deleted : bool then mret () else
  standing ← atomic (gets (λ t, has (offerings t) i));
  raise (if standing : bool then offering_in_use else NotFound).

(** ** A section's own content ([src/db/class_course.rs], [src/service/class_course.rs]) *)

Inductive OverrideField : Set :=
  OTitle | ODescription | ODersSaati | OCountsTowardKarne | OSubjects | OExamWeights | OWeeklyPlan.
#[export] Instance OverrideField_eq_dec : EqDecision OverrideField.
Proof. solve_decision. Defined.

Definition parse_reset_field (name : str) : result AppError OverrideField :=
  if decide (name = lit "title") then Ok OTitle else
  if decide (name = lit "description") then Ok ODescription else
  if decide (name = lit "ders_saati") then Ok ODersSaati else
  if decide (name = lit "counts_toward_karne") then Ok OCountsTowardKarne else
  if decide (name = lit "subjects") then Ok OSubjects else
  if decide (name = lit "exam_weights") then Ok OExamWeights else
  if decide (name = lit "weekly_plan") then Ok OWeeklyPlan else
  Err (Validation (Unknown "fields" name)).

Definition with_content (f : Overrides → Overrides) (x : Instance) : Instance :=
  MkInstance (i_class x) (i_course x) (i_offering x) (attached_by x) (i_source x) (f (i_content x))
    (enrollment_count x) (attached_at x).

(** [COALESCE]: a patch never clears. *)
Definition or_else {V} (new old : option V) : option V := match new with Some v => Some v | None => old end.
Definition overridden (title description : option str) (hours : option Z) (counts : option bool)
    (c : Overrides) : Overrides :=
  MkOverrides (or_else title (i_title c)) (or_else description (i_description c))
    (or_else hours (ders_saati c)) (or_else counts (counts_toward_karne c))
    (subjects_inherited c) (exam_weights_inherited c) (weekly_plan_inherited c).

Definition cleared (fields : list OverrideField) (c : Overrides) : Overrides :=
  let named f := bool_decide (f ∈ fields) in
  MkOverrides (if named OTitle then None else i_title c) (if named ODescription then None else i_description c)
    (if named ODersSaati then None else ders_saati c)
    (if named OCountsTowardKarne then None else counts_toward_karne c)
    (if named OSubjects then true else subjects_inherited c)
    (if named OExamWeights then true else exam_weights_inherited c)
    (if named OWeeklyPlan then true else weekly_plan_inherited c).

Definition write_content (i : uuid) (f : Overrides → Overrides) : tx Tables Instance := λ t,
  match instances t !! i with
  | Some x => Ok (with_content f x, set_instances <[i := with_content f x]> t)
  | None => Err NotFound
  end.

Definition update_instance (i : uuid) (title description : option str) (hours : option Z) (counts : option bool)
    : io Tables Instance := atomic (write_content i (overridden title description hours counts)).

Definition reset_overrides (i : uuid) (fields : list OverrideField) : io Tables Instance :=
  match fields with
  | [] => raise (Validation (Invalid "fields" "name at least one override to reset"))
  | _ => atomic (write_content i (cleared fields))
  end.

(** ** What a section shows ([resolve_policy], [instance_resolve::resolve]) *)

Record InstancePolicy := MkPolicy { pol_hours : Z; pol_counts : bool }.

Definition policy_of (x : Instance) (hours : option Z) (counts : option bool) : InstancePolicy :=
  MkPolicy (default MIN_DERS_SAATI (or_else (ders_saati (i_content x)) hours))
    (default true (or_else (counts_toward_karne (i_content x)) counts)).

Definition resolve_policy (x : Instance) : io Tables InstancePolicy :=
  row ← atomic (gets (λ t, (λ o, (default_ders_saati o, default_counts_toward_karne o)) <$> offerings t !! i_offering x));
  d ← lift (ok_or row NotFound);
  mret (policy_of x d.1 d.2).

(** The scalars; the three sets are resolved by the components that own them. *)
Record Resolved := MkResolved {
  r_title : str;
  r_title_overridden : bool;
  r_description : str;
  r_description_overridden : bool;
  r_policy : InstancePolicy;
}.

Definition shown (own template_ : option str) (catalog : str) : str := default catalog (or_else own template_).

Definition resolve (x : Instance) : io Tables Resolved :=
  o ← atomic (gets (λ t, offerings t !! i_offering x));
  o ← lift (ok_or o NotFound);
  c ← atomic (gets (λ t, courses t !! i_course x));
  c ← lift (ok_or c NotFound);
  p ← resolve_policy x;
  let own := i_content x in
  mret (MkResolved (shown (i_title own) (off_title o) (co_title c)) (bool_decide (is_Some (i_title own)))
    (shown (i_description own) (off_description o) (co_description c))
    (bool_decide (is_Some (i_description own))) p).

(** [resolved_content]: the batch, which degrades instead of refusing. *)
Definition resolved_content (xs : list (uuid * Instance)) : io Tables (list (uuid * (str * str))) :=
  os ← atomic (gets offerings);
  cs ← atomic (gets courses);
  mret ((λ p : uuid * Instance,
    let own := i_content p.2 in
    let o := os !! i_offering p.2 in
    let c := cs !! i_course p.2 in
    (p.1, (default [] (or_else (or_else (i_title own) (o ≫= off_title)) (co_title <$> c)),
           default [] (or_else (or_else (i_description own) (o ≫= off_description)) (co_description <$> c))))) <$> xs).
