(* ===== verification/Years.v ===== *)
(** * Academic years and the rollover ([src/domain/academic_year.rs],
    [src/db/academic_year.rs], [src/service/academic_year.rs])

    A year holds sections and terms, and counts both. Archived, it is read-only.
    The rollover plants each section of one year in the next: same name, promoted
    rung, its instances with their overrides and teachers, and its live members
    through the pump. *)

From S2P Require Import Prelude Text Errors Effects Uuid Validate Modules Tally Gates EventForms Roster Catalog.

Open Scope Z_scope.

Definition MAX_ACADEMIC_YEAR_NAME_LEN : Z := 100.
Definition year_name_try_new (value : str) : result ValidationError str :=
  _ ← validate_required "name" value MAX_ACADEMIC_YEAR_NAME_LEN; Ok value.

Definition is_archived (y : Year) : bool := bool_decide (is_Some (archived_at y)).
Definition promotion_for (y : Year) (rung : Z) : option Z :=
  snd <$> find_first (λ p : Z * Z, p.1 =? rung) (grade_promotions y).
Definition range_error : AppError := Validation (Invalid "ends_at" "must be after starts_at").

(** ** Rows ([src/db/academic_year.rs]) *)

Definition name_taken : AppError := Conflict "an academic year with that name already exists".

Definition create_year (creator : uuid) (name : str) (from to : Z) (promotions : list (Z * Z))
    : io Tables (uuid * Year) :=
  if to <=? from then raise range_error else
  i ← fresh;
  atomic (λ t,
    if has (years t) i || bool_decide (map_Exists (λ _ y, y_name y = name) (years t)) then Err name_taken else
    if negb (has (users t) creator) then Err NotFound
    else let y := MkYear name from to None creator promotions 0 0 in Ok ((i, y), set_years <[i := y]> t)).

Record YearPatch := MkYearPatch {
  yp_name : option str;
  yp_starts : option Z;
  yp_ends : option Z;
  yp_promotions : option (list (Z * Z));
}.

Definition patched_year (p : YearPatch) (y : Year) : Year :=
  MkYear (default (y_name y) (yp_name p)) (default (y_starts_at y) (yp_starts p)) (default (y_ends_at y) (yp_ends p))
    (archived_at y) (y_creator y) (default (grade_promotions y) (yp_promotions p)) (class_count y) (term_count y).

(** The row's unique name is the store's own refusal. *)
Definition update_row (i : uuid) (p : YearPatch) : io Tables Year :=
  updated ← atomic (λ t, match years t !! i with
    | None => Ok (None, t)
    | Some y =>
        let y' := patched_year p y in
        if y_ends_at y' <=? y_starts_at y' then Ok (None, t) else
        if bool_decide (map_Exists (λ j z, j ≠ i ∧ y_name z = y_name y') (years t)) then Err unique_violation
        else Ok (Some y', set_years <[i := y']> t)
    end);
  match updated with
  | Some y => mret y
  | None =>
      there ← atomic (gets (λ t, has (years t) i));
      raise (if there : bool then range_error else NotFound)
  end.

Definition update_year (i : uuid) (read : Year) (p : YearPatch) : io Tables Year :=
  if is_archived read then raise archived_error else update_row i p.

Definition stamp_archived (at_ : Z) (y : Year) : Year :=
  MkYear (y_name y) (y_starts_at y) (y_ends_at y) (Some at_) (y_creator y) (grade_promotions y)
    (class_count y) (term_count y).

Definition archive_tx (i : uuid) (at_ : Z) : tx Tables (option Year) := λ t,
  match years t !! i with
  | Some y => if is_archived y then Ok (None, t)
              else Ok (Some (stamp_archived at_ y), set_years <[i := stamp_archived at_ y]> t)
  | None => Ok (None, t)
  end.

Definition archive (i : uuid) : io Tables Year :=
  row ← atomic (gets (λ t, years t !! i));
  y ← lift (ok_or row NotFound);
  if is_archived y then mret y else
  at_ ← now;
  stamped ← atomic (archive_tx i at_);
  match stamped with
  | Some y => mret y
  | None => row ← atomic (gets (λ t, years t !! i)); lift (ok_or row NotFound)
  end.

Definition delete_year_tx (i : uuid) : tx Tables bool := λ t,
  match years t !! i with
  | Some y => if (class_count y =? 0) && (term_count y =? 0) then Ok (true, set_years (delete i) t) else Ok (false, t)
  | None => Ok (false, t)
  end.

Definition delete_year (i : uuid) : io Tables () :=
  gone ← atomic (delete_year_tx i);
  if gone : bool then mret () else
  there ← atomic (gets (λ t, has (years t) i));
  raise (if there : bool
         then Conflict "classes and terms are still linked to this academic year — unlink them first"
         else NotFound).

(** [resolve]: the one spot a new link to a year passes through. *)
Definition resolve_year (key : option uuid) : io Tables (option uuid) :=
  match key with
  | None => mret None
  | Some i =>
      row ← atomic (gets (λ t, years t !! i));
      y ← lift (ok_or row (Validation (Invalid "year_id" "academic year does not exist")));
      if is_archived y then raise archived_error else mret (Some i)
  end.

(** ** The rollover ([src/service/academic_year.rs]) *)

(** [GradeLevel::label]. *)
Definition label (rung : Z) : str := if rung =? 0 then lit "Anaokulu" else show_int rung.

Record RolloverReport := MkReport { rolled : Z; students : Z; graduated : list str }.

Definition rollover_target_not_empty : AppError := ConflictCoded "rollover_target_not_empty"
  (lit "the target year already has classes — roll into an empty year").
Definition into_itself : AppError :=
  Conflict "a year cannot roll over into itself — name the year that follows".

Definition lower {V} (a b : uuid * V) : Prop := (a.1 ≤ b.1)%N.
#[export] Instance lower_dec {V} (a b : uuid * V) : Decision (lower a b).
Proof. unfold lower. apply _. Defined.
Definition by_id {V} (rows : list (uuid * V)) : list (uuid * V) := merge_sort lower rows.
(** [ORDER BY <when> DESC, id DESC]. *)
Definition newest {V} (when : V → Z) (a b : uuid * V) : Prop :=
  when b.2 < when a.2 ∨ when b.2 = when a.2 ∧ (b.1 ≤ a.1)%N.
#[export] Instance newest_dec {V} (when : V → Z) a b : Decision (newest when a b).
Proof. unfold newest. apply _. Defined.
Definition newest_first {V} (when : V → Z) (rows : list (uuid * V)) : list (uuid * V) :=
  merge_sort (newest when) rows.

Definition list_for_year (y : uuid) : tx Tables (list (uuid * Group)) :=
  gets (λ t, by_id (filter (λ p : uuid * Group, year p.2 = Some y) (map_to_list (groups t)))).
Definition list_instances (c : uuid) : tx Tables (list (uuid * Instance)) :=
  gets (λ t, newest_first attached_at (filter (λ p : uuid * Instance, i_class p.2 = c) (map_to_list (instances t)))).
Definition list_members (c : uuid) : tx Tables (list (uuid * Stint)) :=
  gets (λ t, newest_first joined_at
    (filter (λ p : uuid * Stint, st_class p.2 = c ∧ left_at p.2 = None) (map_to_list (stints t)))).
Definition list_teachers (i : uuid) : tx Tables (list uuid) :=
  gets (λ t, merge_sort N.le (filter (λ p : uuid * uuid, p.1 = i) (elements (assigned t))).*2).

Section Rollover.
Context `{UuidText}.

Fixpoint copy_teachers (i : uuid) (us : list uuid) : io Tables () :=
  match us with
  | [] => mret ()
  | u :: us => _ ← assign i u; copy_teachers i us
  end.

Fixpoint copy_instances (planted by_ : uuid) (xs : list (uuid * Instance)) : io Tables () :=
  match xs with
  | [] => mret ()
  | (i, x) :: xs =>
      landed ← attach_course planted (i_course x) by_ None;
      match landed with
      | Made (copied, _) =>
          let own := i_content x in
          _ ← update_instance copied (i_title own) (i_description own) (ders_saati own) (counts_toward_karne own);
          us ← atomic (list_teachers i);
          _ ← copy_teachers copied us;
          copy_instances planted by_ xs
      | _ => raise (Internal (lit "rollover: attaching " ++ uuid_text (i_course x) ++ lit " to the new class was refused"))
      end
  end.

Fixpoint copy_members (planted from by_ : uuid) (ms : list (uuid * Stint)) (n : Z) : io Tables Z :=
  match ms with
  | [] => mret n
  | (_, m) :: ms =>
      landed ← add_member_sourced planted (st_user m) by_ (Some from);
      match landed with
      | Made _ => copy_members planted from by_ ms (n + 1)
      | PivotGone | Gone => copy_members planted from by_ ms n
      | _ => raise (Internal (lit "rollover: adding " ++ uuid_text (st_user m) ++ lit " to the new class was refused"))
      end
  end.

Definition graduate (rung : Z) (r : RolloverReport) : RolloverReport :=
  if bool_decide (label rung ∈ graduated r) then r
  else MkReport (rolled r) (students r) (graduated r ++ [label rung]).

Fixpoint roll_classes (target by_ : uuid) (from : Year) (classes : list (uuid * Group)) (r : RolloverReport)
    : io Tables RolloverReport :=
  match classes with
  | [] => mret r
  | (c, g) :: classes =>
      match promotion_for from (grade_level g) with
      | None => roll_classes target by_ from classes (graduate (grade_level g) r)
      | Some next =>
          planted ← create_group by_ (g_name g) next (Some target) (g_teacher g);
          xs ← atomic (list_instances c);
          _ ← copy_instances planted.1 by_ xs;
          ms ← atomic (list_members c);
          n ← copy_members planted.1 c by_ ms 0;
          roll_classes target by_ from classes (MkReport (rolled r + 1) (students r + n) (graduated r))
      end
  end.

Definition rollover (target from by_ : uuid) : io Tables RolloverReport :=
  row ← atomic (gets (λ t, years t !! target));
  y ← lift (ok_or row NotFound);
  if is_archived y then raise archived_error else
  if bool_decide (target = from) then raise into_itself else
  if negb (class_count y =? 0) then raise rollover_target_not_empty else
  row ← atomic (gets (λ t, years t !! from));
  from_year ← lift (ok_or row NotFound);
  classes ← atomic (list_for_year from);
  roll_classes target by_ from_year classes (MkReport 0 0 []).
End Rollover.
