(* ===== verification/Blueprints.v ===== *)
(** * Grade templates and their pump ([src/domain/class_blueprint.rs],
    [src/db/class_blueprint.rs], [src/service/class_blueprint.rs])

    A blueprint lists the courses of a rung; applying it attaches each to each
    section of the rung, in a transaction of its own, and reports what did not
    fit. What it attached carries its tag, and only that is taken back when a
    course leaves the list or the blueprint goes. *)

From S2P Require Import Prelude Text Errors Effects Uuid Validate Modules Tally Gates EventForms Roster.

Open Scope Z_scope.

(** What a caller holds of one: the list it read. *)
Record Handle := MkHandle { h_rung : Z; h_courses : list uuid; h_creator : uuid }.

Record Skip := MkSkip { sk_class : uuid; sk_class_name : str; sk_course : uuid; sk_reason : string }.
Record Pumped := MkPumped { matched : Z; skipped : list Skip }.
Record SectionStatus := MkStatus { ss_class : uuid; ss_class_name : str; missing : list uuid }.

Definition skip_reason {T} (landed : Attached T) : option string :=
  match landed with Duplicate => None | _ => refusal_code landed ACourse end.

Fixpoint dedup (seen courses : list uuid) : list uuid :=
  match courses with
  | [] => seen
  | c :: courses => dedup (if bool_decide (c ∈ seen) then seen else seen ++ [c]) courses
  end.

Definition course_list (courses : list uuid) : result AppError (list uuid) :=
  let list := dedup [] courses in
  if MAX_CLASS_COURSES <? Z.of_nat (length list)
  then Err (Validation (Invalid "course_ids"
    "a blueprint cannot hold more courses than a class may carry (max_class_courses)"))
  else Ok list.

(** ** Rows ([src/db/class_blueprint.rs]) *)

(** [ORDER BY course]. *)
Definition junction_courses (b : Blueprint) : list uuid := merge_sort N.le (elements (b_courses b)).

Definition no_such_course : AppError :=
  Validation (Invalid "course_ids" "one of these courses does not exist").
Definition courses_alive (t : Tables) (courses_ : list uuid) : bool := forallb (has (courses t)) courses_.

Definition handle (rung : Z) (b : Blueprint) : Handle := MkHandle rung (junction_courses b) (b_creator b).

Definition create_row (creator : uuid) (rung : Z) (courses_ : list uuid) : io Tables Handle :=
  k ← fresh;
  atomic (λ t,
    if negb (courses_alive t courses_) then Err no_such_course else
    if bool_decide (map_Exists (λ _ b, b_key b = k) (blueprints t)) then Err unique_violation else
    match blueprints t !! rung with
    | Some _ => Err (Conflict "a blueprint already exists for that grade")
    | None =>
        if negb (has (users t) creator) then Err fk_violation
        else Ok (MkHandle rung courses_ creator,
                 set_blueprints <[rung := MkBlueprint k creator (list_to_set courses_)]> t)
    end).

Definition read_row (rung : Z) : tx Tables (option Handle) := gets (λ t, handle rung <$> blueprints t !! rung).

Definition set_courses_if_unchanged (rung : Z) (held wanted : list uuid) : tx Tables (option Handle) := λ t,
  if negb (courses_alive t wanted) then Err no_such_course else
  match blueprints t !! rung with
  | None => Ok (None, t)
  | Some b =>
      if negb (bool_decide (junction_courses b = merge_sort N.le held)) then Ok (None, t)
      else Ok (Some (MkHandle rung wanted (b_creator b)),
               set_blueprints <[rung := MkBlueprint (b_key b) (b_creator b) (list_to_set wanted)]> t)
  end.

(** A link that still carries the tag refuses the delete of the row. *)
Definition delete_claimed (rung : Z) (held : list uuid) : tx Tables bool := λ t,
  match blueprints t !! rung with
  | None => Ok (false, t)
  | Some b =>
      if negb (bool_decide (junction_courses b = merge_sort N.le held)) then Ok (false, t) else
      if bool_decide (map_Exists (λ _ x, i_source x = Some (b_key b)) (instances t)) then Err fk_violation
      else Ok (true, set_blueprints (delete rung) t)
  end.

Definition prune (rung : Z) (k : uuid) : tx Tables () := writes (λ t, ((),
  set_blueprints (alter (λ b, MkBlueprint (b_key b) (b_creator b) (b_courses b ∖ {[k]})) rung) t)).

(** The links that carry the tag for a course outside [keep]. *)
Definition sourced_links (t : Tables) (rung : Z) (keep : list uuid) : list (uuid * uuid) :=
  (λ p : uuid * Instance, (i_class p.2, i_course p.2)) <$>
    filter (λ p : uuid * Instance, tagged t (Some rung) p.2 ∧ i_course p.2 ∉ keep) (map_to_list (instances t)).

Fixpoint drop_links (rung : Z) (links : list (uuid * uuid)) : io Tables (list str) :=
  match links with
  | [] => mret []
  | (c, k) :: links =>
      keys ← detach_course c k (Some rung);
      rest ← drop_links rung links;
      mret (default [] keys ++ rest)
  end.

Definition list_for_grade (rung : Z) : tx Tables (list (uuid * Group)) :=
  gets (λ t, filter (λ p : uuid * Group, grade_level p.2 = rung) (map_to_list (groups t))).

(** ** The pump ([src/service/class_blueprint.rs]) *)

Definition create (creator : uuid) (rung : Z) (courses_ : list uuid) : io Tables Handle :=
  list ← lift (course_list courses_);
  create_row creator rung list.

Section Pump.
Context `{UuidText}.

(** What a run has found so far: the courses that are gone, and the skips. *)
Record Run := MkRun { dead : list uuid; skips : list Skip }.

Definition is_pivot_gone {T} (v : Attached T) : bool := match v with PivotGone => true | _ => false end.
Definition is_source_gone {T} (v : Attached T) : bool := match v with SourceGone => true | _ => false end.

Definition noted {T} (landed : Attached T) (c : uuid) (name : str) (k : uuid) (r : Run) : Run :=
  MkRun (if is_pivot_gone landed then dead r ++ [k] else dead r)
    (match skip_reason landed with
     | Some reason => skips r ++ [MkSkip c name k reason]
     | None => skips r
     end).

(** [false]: the blueprint itself is gone. *)
Fixpoint apply_courses (rung : Z) (todo : list uuid) (c : uuid) (name : str) (by_ : uuid) (r : Run)
    : io Tables (bool * Run) :=
  match todo with
  | [] => mret (true, r)
  | k :: todo =>
      if bool_decide (k ∈ dead r) then apply_courses rung todo c name by_ r else
      landed ← attach_course c k by_ (Some rung);
      _ ← (if is_pivot_gone landed then atomic (prune rung k) else mret ());
      let r := noted landed c name k r in
      if is_source_gone landed then mret (false, r) else apply_courses rung todo c name by_ r
  end.

Definition apply_to (b : Handle) (c : uuid) (name : str) (by_ : uuid) : io Tables (list Skip) :=
  out ← apply_courses (h_rung b) (h_courses b) c name by_ (MkRun [] []);
  mret (skips out.2).

Fixpoint pump_classes (b : Handle) (classes : list (uuid * Group)) (by_ : uuid) (n : Z) (r : Run)
    : io Tables (Z * Run) :=
  match classes with
  | [] => mret (n, r)
  | (c, g) :: classes =>
      out ← apply_courses (h_rung b) (h_courses b) c (g_name g) by_ r;
      if out.1 : bool then pump_classes b classes by_ (n + 1) out.2 else mret (n + 1, out.2)
  end.

Definition pump (b : Handle) (by_ : uuid) : io Tables (Handle * Pumped) :=
  classes ← atomic (list_for_grade (h_rung b));
  out ← pump_classes b classes by_ 0 (MkRun [] []);
  mret (MkHandle (h_rung b) (filter (λ k, k ∉ dead out.2) (h_courses b)) (h_creator b),
        MkPumped out.1 (skips out.2)).

Definition moved : AppError := Conflict "this blueprint changed since you read it — re-read and retry".

Definition set_courses (b : Handle) (courses_ by_ : _) : io Tables (Handle * Pumped * list str) :=
  wanted ← lift (course_list courses_);
  saved ← atomic (set_courses_if_unchanged (h_rung b) (h_courses b) wanted);
  match saved with
  | None =>
      there ← atomic (read_row (h_rung b));
      raise match there with Some _ => moved | None => NotFound end
  | Some saved =>
      doomed ← atomic (gets (λ t, sourced_links t (h_rung b) (h_courses saved)));
      blobs ← drop_links (h_rung b) doomed;
      out ← pump saved by_;
      mret (out.1, out.2, blobs)
  end.

(** The transaction holds its row locked from the first read to the commit; the
    detaches between run in transactions of their own. *)
Definition delete_blueprint (b : Handle) : io Tables (list str) :=
  stored ← atomic (gets (λ t, junction_courses <$> blueprints t !! h_rung b));
  stored ← lift (ok_or stored NotFound);
  if negb (bool_decide (stored = h_courses b)) then raise moved else
  doomed ← atomic (gets (λ t, sourced_links t (h_rung b) []));
  blobs ← drop_links (h_rung b) doomed;
  gone ← atomic (delete_claimed (h_rung b) (h_courses b));
  if gone : bool then mret blobs
  else raise (Internal (lit "the claimed blueprint row did not survive its own lock")).

Definition status (b : Handle) : io Tables (list SectionStatus) :=
  sections ← atomic (list_for_grade (h_rung b));
  match sections with
  | [] => mret []
  | _ =>
      held ← atomic (gets (λ t, (λ p : uuid * Instance, (i_class p.2, i_course p.2)) <$>
        filter (λ p : uuid * Instance, i_class p.2 ∈ sections.*1) (map_to_list (instances t))));
      mret ((λ p : uuid * Group, MkStatus p.1 (g_name p.2)
        (filter (λ k, (p.1, k) ∉ held) (h_courses b))) <$> sections)
  end.
End Pump.
