(* ===== verification/RosterProofs.v ===== *)
(** * What the roster promises, statement by statement

    Every count equals the rows it counts, the caps hold, live stints and
    (section, course) pairs are single, what a row points at is there, only
    students are on a roster, and a row a section pumped is a live member's row
    on that section's own instance. [gap] is a seat the section owes and has not
    filled: no statement opens one but a hand unenroll. *)

From S2P Require Import Prelude Text Errors Effects Uuid Validate Modules Tally Gates EventForms Seats Roster.
Open Scope Z_scope.

(** ** The invariant *)

(** What an instance is, apart from its count and content. *)
Record Shape := MkShape { sh_class : uuid; sh_course : uuid; sh_offering : uuid; sh_source : option uuid }.
Definition shape (x : Instance) : Shape := MkShape (i_class x) (i_course x) (i_offering x) (i_source x).
Definition shapes (t : Tables) : gmap uuid Shape := shape <$> instances t.

Definition member_key (p : uuid * Stint) : option uuid :=
  match left_at p.2 with None => Some (st_class p.2) | Some _ => None end.
Definition class_key (p : uuid * Shape) : option uuid := Some (sh_class p.2).
Definition course_key (p : uuid * Shape) : option uuid := Some (sh_course p.2).
Definition year_key (p : uuid * option uuid) : option uuid := p.2.

(** The events, over the keys of what they point at. *)
Definition events_ok (us gs cs : gset uuid) (e : Elsewhere) : Prop :=
  seats_ok us gs cs (events e) (registrations e) (attendances e).

Record base (t : Tables) : Prop := {
  b_members : tallies member_key (class_member_count <$> groups t) (stints t);
  b_courses : tallies class_key (class_course_count <$> groups t) (shapes t);
  b_taught : tallies course_key (taught_count <$> courses t) (shapes t);
  b_roster : tallies roster_key (enrollment_count <$> instances t) (enrollments t);
  b_clubs : tallies roster_key (course_membership_count <$> courses t) (memberships t);
  b_years : tallies year_key (class_count <$> years t) (year <$> groups t);
  b_cap_members : ∀ c n, (class_member_count <$> groups t) !! c = Some n → n ≤ MAX_CLASS_MEMBERS;
  b_cap_courses : ∀ c n, (class_course_count <$> groups t) !! c = Some n → n ≤ MAX_CLASS_COURSES;
  b_one_stint : ∀ c u i j s s', stints t !! i = Some s → stints t !! j = Some s' →
    live c u s → live c u s' → i = j;
  b_one_instance : ∀ i j x y, shapes t !! i = Some x → shapes t !! j = Some y →
    sh_class x = sh_class y → sh_course x = sh_course y → i = j;
  b_one_template : ∀ i j o o', offerings t !! i = Some o → offerings t !! j = Some o' →
    off_course o = off_course o' → off_grade o = off_grade o' → i = j;
  b_one_key : ∀ r r' b b', blueprints t !! r = Some b → blueprints t !! r' = Some b' →
    b_key b = b_key b' → r = r';
  b_stint : ∀ i s, stints t !! i = Some s → st_class s ∈ dom (groups t);
  b_class : ∀ i x, shapes t !! i = Some x → sh_class x ∈ dom (groups t);
  b_course : ∀ i x, shapes t !! i = Some x → sh_course x ∈ dom (courses t);
  b_offering : ∀ i x, shapes t !! i = Some x →
    off_course <$> offerings t !! sh_offering x = Some (sh_course x);
  b_template : ∀ i o, offerings t !! i = Some o → off_course o ∈ dom (courses t);
  b_source : ∀ i x b, shapes t !! i = Some x → sh_source x = Some b →
    ∃ r bp, blueprints t !! r = Some bp ∧ b_key bp = b;
  b_live : ∀ i s, stints t !! i = Some s → left_at s = None → is_student t (st_user s);
  b_enrolled : ∀ i u e, enrollments t !! (i, u) = Some e → i ∈ dom (instances t) ∧ is_student t u;
  b_joined : ∀ k u m, memberships t !! (k, u) = Some m → k ∈ dom (courses t) ∧ is_student t u;
  b_year : ∀ c y, (year <$> groups t) !! c = Some (Some y) → y ∈ dom (years t);
  b_events : events_ok (dom (users t)) (dom (groups t)) (dom (courses t)) (elsewhere t);
}.

(** A tagged row is a live member's, on the section's own instance. *)
Definition pumped (t : Tables) : Prop :=
  ∀ i u e c, enrollments t !! (i, u) = Some e → source e = Some c →
    sh_class <$> shapes t !! i = Some c ∧ is_live_member t c u.

Definition ok (t : Tables) : Prop := base t ∧ pumped t.

(** A seat that is owed and not filled. *)
Definition gap (t : Tables) (i u : uuid) : Prop :=
  ∃ x, shapes t !! i = Some x ∧ is_live_member t (sh_class x) u ∧ enrollments t !! (i, u) = None.

Definition no_new_gap (t t' : Tables) : Prop := ∀ i u, gap t' i u → gap t i u.
#[export] Instance no_new_gap_pre : PreOrder no_new_gap.
Proof. split; [by intros t i u|]. intros t1 t2 t3 H1 H2 i u Hg. by apply H1, H2. Qed.

(** ** Rewriting the columns of an updated row *)

Create Rewrite HintDb columns.

Lemma members_on_members f c (m : gmap uuid Group) :
  class_member_count <$> alter (on_members f) c m = alter f c (class_member_count <$> m).
Proof. by apply column_moves. Qed.
Lemma courses_on_members f c (m : gmap uuid Group) :
  class_course_count <$> alter (on_members f) c m = class_course_count <$> m.
Proof. by apply column_same. Qed.
Lemma year_on_members f c (m : gmap uuid Group) : year <$> alter (on_members f) c m = year <$> m.
Proof. by apply column_same. Qed.
Lemma members_on_courses f c (m : gmap uuid Group) :
  class_member_count <$> alter (on_courses f) c m = class_member_count <$> m.
Proof. by apply column_same. Qed.
Lemma courses_on_courses f c (m : gmap uuid Group) :
  class_course_count <$> alter (on_courses f) c m = alter f c (class_course_count <$> m).
Proof. by apply column_moves. Qed.
Lemma year_on_courses f c (m : gmap uuid Group) : year <$> alter (on_courses f) c m = year <$> m.
Proof. by apply column_same. Qed.
Lemma taught_on_taught f k (m : gmap uuid Course) : taught_count <$> alter (on_taught f) k m = alter f k (taught_count <$> m).
Proof. by apply column_moves. Qed.
Lemma clubs_on_taught f k (m : gmap uuid Course) :
  course_membership_count <$> alter (on_taught f) k m = course_membership_count <$> m.
Proof. by apply column_same. Qed.
Lemma taught_on_club f k (m : gmap uuid Course) : taught_count <$> alter (on_club f) k m = taught_count <$> m.
Proof. by apply column_same. Qed.
Lemma clubs_on_club f k (m : gmap uuid Course) :
  course_membership_count <$> alter (on_club f) k m = alter f k (course_membership_count <$> m).
Proof. by apply column_moves. Qed.
Lemma roster_on_roster f i (m : gmap uuid Instance) : enrollment_count <$> alter (on_roster f) i m = alter f i (enrollment_count <$> m).
Proof. by apply column_moves. Qed.
Lemma shape_on_roster f i (m : gmap uuid Instance) : shape <$> alter (on_roster f) i m = shape <$> m.
Proof. by apply column_same. Qed.
Lemma classes_on_classes f y (m : gmap uuid Year) : class_count <$> alter (on_classes f) y m = alter f y (class_count <$> m).
Proof. by apply column_moves. Qed.

#[export] Hint Rewrite @dom_alter_row @dom_update_in
  members_on_members courses_on_members year_on_members members_on_courses courses_on_courses
  year_on_courses taught_on_taught clubs_on_taught taught_on_club clubs_on_club roster_on_roster
  shape_on_roster classes_on_classes : columns.

(** A column that only ever comes down keeps its cap. *)
Lemma cap_alter (m : gmap uuid Z) (k : uuid) (f : Z → Z) b :
  (∀ n, m !! k = Some n → f n ≤ b) → (∀ c n, m !! c = Some n → n ≤ b) →
  ∀ c n, alter f k m !! c = Some n → n ≤ b.
Proof.
  intros Hf Hm c n. rewrite lookup_alter. case_decide as E; [subst|by apply Hm].
  intros (n0 & Hn & ->)%fmap_Some. auto.
Qed.

Lemma given_back_le n : 0 ≤ n → given_back n ≤ n.
Proof. unfold given_back. lia. Qed.

(** Unfolds a write and leaves the clauses it may break. *)
Ltac clauses Hok :=
  destruct Hok as
    [b_members0 b_courses0 b_taught0 b_roster0 b_clubs0
    b_years0 b_cap_members0 b_cap_courses0 b_one_stint0 b_one_instance0 b_one_template0
    b_one_key0 b_stint0 b_class0 b_course0 b_offering0 b_template0
    b_source0 b_live0 b_enrolled0 b_joined0 b_year0 b_events0];
  split; unfold shapes, is_student in *; cbn [users years groups stints courses offerings
    blueprints instances assigned enrollments memberships elsewhere set_users set_years set_groups set_stints
    set_courses_ set_offerings set_blueprints set_instances set_assigned set_enrollments set_memberships
    set_elsewhere] in *; autorewrite with columns; try assumption.

Lemma events_grow us gs cs us' gs' cs' e :
  us ⊆ us' → gs ⊆ gs' → cs ⊆ cs' → events_ok us gs cs e → events_ok us' gs' cs' e.
Proof. apply seats_grow. Qed.

(** A write beside the events. *)
Definition spares (f : Elsewhere → Elsewhere) : Prop :=
  ∀ e, events (f e) = events e ∧ registrations (f e) = registrations e ∧ attendances (f e) = attendances e.
Lemma events_spared us gs cs f e : spares f → events_ok us gs cs e → events_ok us gs cs (f e).
Proof. unfold events_ok. intros Hf. by destruct (Hf e) as (-> & -> & ->). Qed.

(** A section, or a course, that no audience names any more. *)
Lemma events_unname us gs cs gs' cs' (f : EventAudience → EventAudience) (on : EventAudience → bool) e :
  (∀ a, payload_ok a → payload_ok (f a)) →
  (∀ a, names_only gs cs a → names_only gs' cs' (if on a then f a else a)) →
  events_ok us gs cs e →
  events_ok us gs' cs' (set_events (fmap (λ ev, if on (ev_audience ev) then on_audience f ev else ev)) e).
Proof.
  intros Hp Hf. apply seats_events.
  - intros ev. by destruct (on _).
  - intros ev ([? ? Ha ?] & Hu & Hn). pose proof (Hf _ Hn) as Hn'. apply Hp in Ha as Ha'. by destruct (on _).
Qed.
Lemma events_unname_class us gs cs c e :
  events_ok us gs cs e → events_ok us (gs ∖ {[c]}) cs (set_events (fmap (unname_class c)) e).
Proof.
  apply (events_unname us gs cs (gs ∖ {[c]}) cs (λ a, MkAudience (au_kind a) (au_role a) (au_course a) None (au_capacity a))
    (λ a, @bool_decide (au_class a = Some c) (decide_rel eq (au_class a) (Some c)))).
  - intros a []. split; simpl; first [done|by intros []].
  - intros a [? Hc]. case_bool_decide as E; split; try done. intros c' E'. pose proof (Hc c' E'). set_solver.
Qed.

(** ** The moves the statements are made of *)

Lemma base_seat t i u e :
  base t → enrollments t !! (i, u) = None → i ∈ dom (instances t) → is_student t u →
  base (set_enrollments <[(i, u) := e]> (set_instances (alter (on_roster bumped) i) t)).
Proof.
  intros Hok Hn Hi Hu. clauses Hok.
  - by apply tallies_bump.
  - intros i' u' e' [[[= <- <-] <-]|[_ He]]%lookup_insert_Some; eauto.
Qed.

Lemma base_release t i u e :
  base t → enrollments t !! (i, u) = Some e →
  base (set_instances (alter (on_roster given_back) i) (set_enrollments (delete (i, u)) t)).
Proof.
  intros Hok He. clauses Hok.
  - by apply (tallies_give_back _ _ _ (i, u) e).
  - intros i' u' e' [_ He']%lookup_delete_Some. eauto.
Qed.

Lemma base_retag t i u e e' :
  base t → enrollments t !! (i, u) = Some e → base (set_enrollments <[(i, u) := e']> t).
Proof.
  intros Hok He. clauses Hok.
  - by apply (tallies_same _ _ _ (i, u) e).
  - intros i' u' e2 [[[= <- <-] <-]|[_ He']]%lookup_insert_Some; eauto.
Qed.

Lemma base_join t k u x :
  base t → memberships t !! (k, u) = None → k ∈ dom (courses t) → is_student t u →
  base (set_memberships <[(k, u) := x]> (set_courses_ (alter (on_club bumped) k) t)).
Proof.
  intros Hok Hn Hk Hu. clauses Hok.
  - by apply tallies_bump.
  - intros k' u' e' [[[= <- <-] <-]|[_ He]]%lookup_insert_Some; eauto.
Qed.

Lemma base_leave t k u x :
  base t → memberships t !! (k, u) = Some x →
  base (set_courses_ (alter (on_club given_back) k) (set_memberships (delete (k, u)) t)).
Proof.
  intros Hok He. clauses Hok.
  - by apply (tallies_give_back _ _ _ (k, u) x).
  - intros i' u' e' [_ He']%lookup_delete_Some. eauto.
Qed.

Lemma base_stint t i c u by_ at_ src :
  base t → stints t !! i = None → is_Some (groups t !! c) →
  (∀ n, class_member_count <$> groups t !! c = Some n → n < MAX_CLASS_MEMBERS) →
  ¬ is_live_member t c u → is_student t u →
  base (set_stints <[i := MkStint c u by_ at_ None src]> (set_groups (alter (on_members bumped) c) t)).
Proof.
  intros Hok Hi Hc Hcap Hno Hu. clauses Hok.
  - by apply tallies_bump.
  - intros c' n. apply cap_alter; [|done]. intros n' Hn. rewrite lookup_fmap in Hn.
    apply Hcap in Hn. unfold bumped. lia.
  - intros c' u' j j' s s' Hj Hj' Hs Hs'.
    apply lookup_insert_Some in Hj as [[<- <-]|[Hne Hj]]; apply lookup_insert_Some in Hj' as [[<- <-]|[Hne' Hj']];
      try done; try (by eapply b_one_stint0).
    + destruct Hs as (<- & <- & _). destruct Hno. by exists j', s'.
    + destruct Hs' as (<- & <- & _). destruct Hno. by exists j, s.
  - intros j s [[<- <-]|[_ Hj]]%lookup_insert_Some; [by apply elem_of_dom|eauto].
  - intros j s [[<- <-]|[_ Hj]]%lookup_insert_Some; eauto.
Qed.

Lemma no_row_off_roster t i u : base t → instances t !! i = None → enrollments t !! (i, u) = None.
Proof.
  intros Hok Hi. destruct (enrollments t !! (i, u)) eqn:He; [|done].
  destruct (b_enrolled _ Hok _ _ _ He) as [Hd _]. by apply not_elem_of_dom in Hi.
Qed.

Lemma shape_at t i : shapes t !! i = shape <$> instances t !! i.
Proof. apply lookup_fmap. Qed.

Lemma base_instance t i c k o by_ src at_ :
  base t → instances t !! i = None → is_Some (groups t !! c) →
  (∀ n, class_course_count <$> groups t !! c = Some n → n < MAX_CLASS_COURSES) →
  ¬ carries t c k → k ∈ dom (courses t) → off_course <$> offerings t !! o = Some k →
  (∀ b, src = Some b → ∃ r bp, blueprints t !! r = Some bp ∧ b_key bp = b) →
  base (set_courses_ (alter (on_taught bumped) k)
    (set_instances <[i := MkInstance c k o by_ src inherit_all 0 at_]> (set_groups (alter (on_courses bumped) c) t))).
Proof.
  intros Hok Hi Hc Hcap Hno Hk Ho Hsrc.
  assert (shapes t !! i = None) as Hsi by (by rewrite shape_at, Hi).
  assert (∀ j x, shapes t !! j = Some x → sh_class x = c → sh_course x = k → False) as Hfree.
  { intros j x. rewrite shape_at. intros (y & Hy & ->)%fmap_Some <- <-. apply Hno. by exists j, y. }
  pose proof (λ u, no_row_off_roster t i u Hok Hi) as Hrow.
  clauses Hok; rewrite ?fmap_insert, ?dom_insert_L.
  - by apply tallies_bump.
  - by apply tallies_bump.
  - apply tallies_born; [|done]. intros [i' u] e He [= ->]. by rewrite Hrow in He.
  - intros c' n. apply cap_alter; [|done]. intros n' Hn. rewrite lookup_fmap in Hn.
    apply Hcap in Hn. unfold bumped. lia.
  - intros j j' x y Hj Hj' Hxc Hxk.
    apply lookup_insert_Some in Hj as [[<- <-]|[Hne Hj]]; apply lookup_insert_Some in Hj' as [[<- <-]|[Hne' Hj']];
      simpl in *; try done; naive_solver.
  - intros j x [[<- <-]|[_ Hj]]%lookup_insert_Some; [by apply elem_of_dom|eauto].
  - intros j x [[<- <-]|[_ Hj]]%lookup_insert_Some; [done|eauto].
  - intros j x [[<- <-]|[_ Hj]]%lookup_insert_Some; [done|eauto].
  - intros j x b [[<- <-]|[_ Hj]]%lookup_insert_Some Hb; [by apply Hsrc|eauto].
  - intros j u e He. destruct (b_enrolled0 _ _ _ He). split; [set_solver|done].
Qed.

Lemma base_drop_instance t i c k x fe fa :
  base t → instances t !! i = Some x → i_class x = c → i_course x = k → spares fe →
  base (set_courses_ (alter (on_taught given_back) k)
    (set_groups (alter (on_courses given_back) c)
      (set_instances (delete i) (set_elsewhere fe (set_assigned fa
        (set_enrollments (filter (λ p : (uuid * uuid) * Enrollment, p.1.1 ≠ i)) t)))))).
Proof.
  intros Hok Hi <- <- Hfe.
  assert (shapes t !! i = Some (shape x)) as Hsi by (by rewrite shape_at, Hi).
  clauses Hok; rewrite ?fmap_delete, ?dom_delete_L.
  - by apply (tallies_give_back _ _ _ i (shape x)).
  - by apply (tallies_give_back _ _ _ i (shape x)).
  - apply tallies_cut; [|done]. intros [i' u] e k' _ Hn [= <-]. by apply dec_stable in Hn.
  - intros c' n. apply cap_alter; [|done]. intros n' Hn. pose proof (b_cap_courses0 _ _ Hn) as Hle.
    unfold given_back, MAX_CLASS_COURSES in *. lia.
  - intros j j' y z [_ Hj]%lookup_delete_Some [_ Hj']%lookup_delete_Some. by apply (b_one_instance0 j j' y z).
  - intros j y [_ Hj]%lookup_delete_Some. eauto.
  - intros j y [_ Hj]%lookup_delete_Some. eauto.
  - intros j y [_ Hj]%lookup_delete_Some. eauto.
  - intros j y b [_ Hj]%lookup_delete_Some. eauto.
  - intros j u e [He Hne]%map_lookup_filter_Some. destruct (b_enrolled0 _ _ _ He). split; [|done].
    apply elem_of_difference. split; [done|]. by intros ->%elem_of_singleton.
  - by apply events_spared.
Qed.

(** ** Rows found by a scan *)

Lemma elem_of_scan `{Countable K} {A} (P : K * A → Prop) `{!∀ p, Decision (P p)} (m : gmap K A) i :
  i ∈ (filter P (map_to_list m)).*1 ↔ ∃ a, m !! i = Some a ∧ P (i, a).
Proof.
  rewrite list_elem_of_fmap. split.
  - intros ([j a] & -> & [HP Hm]%list_elem_of_filter). exists a. by rewrite elem_of_map_to_list in Hm.
  - intros (a & Hm & HP). exists (i, a). split; [done|]. apply list_elem_of_filter.
    by rewrite elem_of_map_to_list.
Qed.

Lemma first_found `{Countable K} {A} (P : K * A → Prop) `{!∀ p, Decision (P p)} (m : gmap K A) i :
  head (filter P (map_to_list m)).*1 = Some i → ∃ a, m !! i = Some a ∧ P (i, a).
Proof. intros Hh. apply (elem_of_scan P m i). destruct (_.*1); [done|]. injection Hh as ->. by left. Qed.

Lemma none_found `{Countable K} {A} (P : K * A → Prop) `{!∀ p, Decision (P p)} (m : gmap K A) :
  head (filter P (map_to_list m)).*1 = None → ∀ i a, m !! i = Some a → ¬ P (i, a).
Proof.
  intros Hh i a Hm HP. assert (i ∈ (filter P (map_to_list m)).*1) as Hi by (apply (elem_of_scan P m i); by exists a).
  destruct (_.*1); [by apply not_elem_of_nil in Hi|done].
Qed.

Lemma elem_of_instances_of t c i : i ∈ instances_of t c ↔ ∃ x, instances t !! i = Some x ∧ i_class x = c.
Proof. unfold instances_of. by rewrite elem_of_scan. Qed.

Lemma elem_of_roster_of t c u : u ∈ roster_of t c ↔ is_live_member t c u.
Proof.
  unfold roster_of, is_live_member, map_Exists, live. rewrite list_elem_of_fmap. split.
  - intros ([j s] & -> & [[Hc Hl] Hm]%list_elem_of_filter). rewrite elem_of_map_to_list in Hm. by exists j, s.
  - intros (j & s & Hm & Hc & <- & Hl). exists (j, s). split; [done|]. apply list_elem_of_filter.
    by rewrite elem_of_map_to_list.
Qed.

Lemma elem_of_pumped_rows t c u p :
  p ∈ pumped_rows t c u ↔ p.2 = u ∧ ∃ e, enrollments t !! p = Some e ∧ source e = Some c.
Proof. unfold pumped_rows. rewrite elem_of_scan. naive_solver. Qed.

Lemma has_spec {V} (m : gmap uuid V) i : has m i = true ↔ i ∈ dom m.
Proof. unfold has. by rewrite bool_decide_eq_true, elem_of_dom. Qed.

Lemma base_template t o row :
  base t → offerings t !! o = None → off_course row ∈ dom (courses t) →
  template t (off_course row) (off_grade row) = None →
  base (set_offerings <[o := row]> t).
Proof.
  intros Hok Ho Hk Hno. pose proof (none_found _ _ Hno) as Hnone. clauses Hok.
  - intros j j' a b Hj Hj' Hc Hg.
    apply lookup_insert_Some in Hj as [[<- <-]|[Hne Hj]]; apply lookup_insert_Some in Hj' as [[<- <-]|[Hne' Hj']];
      [done|..|by eapply b_one_template0].
    + by destruct (Hnone _ _ Hj').
    + by destruct (Hnone _ _ Hj).
  - intros j x Hj. pose proof (b_offering0 _ _ Hj) as Hx. rewrite lookup_insert_ne; [done|].
    intros ->. by rewrite Ho in Hx.
  - intros j a [[<- <-]|[_ Hj]]%lookup_insert_Some; [done|eauto].
Qed.

(** ** Statements that move one row of the roster *)

Lemma enrollments_seen t i u e : base t → enrollments t !! (i, u) = Some e → is_Some (shapes t !! i).
Proof.
  intros Hok He. destruct (b_enrolled _ Hok _ _ _ He) as [Hd _]. rewrite shape_at, fmap_is_Some.
  by apply elem_of_dom.
Qed.

(** Every write below ends in one of these. *)
Lemma pumped_same t t' :
  shapes t' = shapes t → stints t' = stints t → enrollments t' = enrollments t → pumped t → pumped t'.
Proof. unfold pumped, is_live_member. intros -> -> -> Hp. exact Hp. Qed.

Lemma gap_same t t' :
  shapes t' = shapes t → stints t' = stints t → enrollments t' = enrollments t → no_new_gap t t'.
Proof. unfold no_new_gap, gap, is_live_member. intros -> -> -> i u Hg. exact Hg. Qed.

Lemma pumped_seat t i u e :
  (∀ c, source e = Some c → sh_class <$> shapes t !! i = Some c ∧ is_live_member t c u) → pumped t →
  pumped (set_enrollments <[(i, u) := e]> (set_instances (alter (on_roster bumped) i) t)).
Proof.
  intros He Hp i' u' e' c. unfold shapes, is_live_member. cbn. rewrite shape_on_roster.
  intros [[[= <- <-] <-]|[_ He']]%lookup_insert_Some; [apply He|by apply Hp].
Qed.

Lemma pumped_put t i u e :
  (∀ c, source e = Some c → sh_class <$> shapes t !! i = Some c ∧ is_live_member t c u) → pumped t →
  pumped (set_enrollments <[(i, u) := e]> t).
Proof.
  intros He Hp i' u' e' c. cbn.
  intros [[[= <- <-] <-]|[_ He']]%lookup_insert_Some; [apply He|by apply Hp].
Qed.

Lemma gap_seat t i u e f :
  no_new_gap t (set_enrollments <[(i, u) := e]> (set_instances (alter (on_roster f) i) t)).
Proof.
  intros i' u' (x & Hx & Hl & Hn). unfold shapes in Hx. cbn in *. rewrite shape_on_roster in Hx.
  apply lookup_insert_None in Hn as [Hn _]. by exists x.
Qed.

Lemma gap_put t i u e : no_new_gap t (set_enrollments <[(i, u) := e]> t).
Proof. intros i' u' (x & Hx & Hl & Hn). cbn in Hn. apply lookup_insert_None in Hn as [Hn _]. by exists x. Qed.

Lemma pumped_release t i u :
  pumped t → pumped (set_instances (alter (on_roster given_back) i) (set_enrollments (delete (i, u)) t)).
Proof.
  intros Hp i' u' e' c. unfold shapes, is_live_member. cbn. rewrite shape_on_roster.
  intros [_ He']%lookup_delete_Some. by apply Hp.
Qed.

(** ** Filling what a section owes *)

(** Only rosters moved, and rows were only added. *)
Definition seats_added (t t' : Tables) : Prop :=
  t' = set_enrollments (λ _, enrollments t') (set_instances (λ _, instances t') t)
  ∧ shapes t' = shapes t ∧ enrollments t ⊆ enrollments t'.
#[export] Instance seats_added_pre : PreOrder seats_added.
Proof.
  split.
  - intros []. by split.
  - intros t1 t2 t3 (E1 & S1 & H1) (E2 & S2 & H2). split_and!; [|congruence|by etrans].
    rewrite E2, E1. by destruct t1.
Qed.

Section Filling.
Context `{UuidText}.

Lemma enroll_pair_ok c i u by_ at_ t x t' :
  enroll_pair c i u by_ at_ t = Ok (x, t') →
  i ∈ dom (instances t) ∧
  t' = set_enrollments <[(i, u) := MkEnrollment by_ (Some c) at_]> (set_instances (alter (on_roster bumped) i) t).
Proof.
  unfold enroll_pair. destruct (instances t !! i) eqn:Hi; [|done]. case_match; [|done].
  intros [= _ <-]. split; [by apply elem_of_dom|done].
Qed.

Lemma seats_added_seat t i u e :
  enrollments t !! (i, u) = None →
  seats_added t (set_enrollments <[(i, u) := e]> (set_instances (alter (on_roster bumped) i) t)).
Proof.
  intros Hn. split_and!; [by destruct t|unfold shapes; cbn; by rewrite shape_on_roster|by apply insert_subseteq].
Qed.

Lemma is_live_added t t' c u : seats_added t t' → is_live_member t' c u ↔ is_live_member t c u.
Proof. intros (-> & _). done. Qed.

Lemma live_is_student t c u : base t → is_live_member t c u → is_student t u.
Proof. intros Hok (j & s & Hs & <- & <- & Hl). by eapply b_live. Qed.

Lemma enroll_pairs_spec c pairs by_ at_ t x t' :
  enroll_pairs c pairs by_ at_ t = Ok (x, t') → ok t →
  (∀ i u, (i, u) ∈ pairs → sh_class <$> shapes t !! i = Some c ∧ is_live_member t c u) →
  ok t' ∧ seats_added t t' ∧ (∀ p, p ∈ pairs → is_Some (enrollments t' !! p)).
Proof.
  intros E. revert t E. induction pairs as [|[i u] pairs IH]; cbn [enroll_pairs]; intros t E Hok Hp.
  { injection E as _ <-. split_and!; [done|done|]. by intros p ?%not_elem_of_nil. }
  apply tx_bind_ok in E as (held & ? & [-> ->]%gets_ok & E).
  apply tx_bind_ok in E as ([] & t1 & E1 & E).
  assert (ok t1 ∧ seats_added t t1 ∧ is_Some (enrollments t1 !! (i, u))) as (Hok1 & Hs1 & Hiu).
  { case_bool_decide as Hh; [injection E1 as <-; done|].
    apply enroll_pair_ok in E1 as [Hi ->]. destruct (Hp i u ltac:(by left)) as [Hc Hl].
    apply eq_None_not_Some in Hh. split_and!; [|by apply seats_added_seat|cbn; rewrite lookup_insert_eq; eauto].
    destruct Hok as [Hb Hpu]. split.
    - apply base_seat; [done..|]. by eapply live_is_student.
    - apply pumped_seat; [|done]. intros c' [= <-]. done. }
  destruct (IH t1 E Hok1) as (Hok' & Hs' & Hall).
  { intros i' u' Hin. rewrite (is_live_added t t1) by done. destruct Hs1 as (_ & -> & _). apply Hp. by right. }
  split_and!; [done|by etrans|]. intros p [->|Hin]%elem_of_cons; [|by apply Hall].
  destruct Hs' as (_ & _ & Hsub). destruct Hiu as [e He]. exists e. by eapply lookup_weaken.
Qed.
End Filling.

(** ** One statement moves by [moved] *)

Definition moved (t t' : Tables) : Prop := ok t' ∧ no_new_gap t t'.

Lemma moved_same t t' :
  base t' → shapes t' = shapes t → stints t' = stints t → enrollments t' = enrollments t → ok t → moved t t'.
Proof. intros Hb Hs Hm He [_ Hp]. split; [split; [done|by eapply pumped_same]|by apply gap_same]. Qed.

Lemma moved_refl t : ok t → moved t t.
Proof. by split. Qed.

(** A transaction of the roster: what it commits is such a move. *)
Abbreviation roster_moves := (tx_moves ok no_new_gap).

Lemma early_open c a p src t v t' :
  early_verdicts c a p src t = Ok (v, t') → v.1.1 = None →
  t' = t
  ∧ match p with
    | PUser u => ¬ is_live_member t c u ∧ is_student t u
    | PCourse k => ¬ carries t c k ∧ k ∈ dom (courses t)
    end
  ∧ ∀ b, v.1.2 = Some b → ∃ r bp, blueprints t !! r = Some bp ∧ b_key bp = b.
Proof.
  intros [-> ->]%gets_ok. split; [done|].
  destruct (match p with PUser _ => _ | PCourse _ => _ end) eqn:Hheld; [done|].
  assert (∀ s, match src with None => Some None | Some rung => Some ∘ b_key <$> blueprints t !! rung end = Some s →
    ∀ b, s = Some b → ∃ r bp, blueprints t !! r = Some bp ∧ b_key bp = b) as Hsrc.
  { intros s Hs b ->. destruct src as [r|]; [|done]. apply fmap_Some in Hs as (bp & Hbp & [= ->]). by exists r, bp. }
  destruct (match src with None => _ | Some _ => _ end) as [s|]; [|done].
  specialize (Hsrc s eq_refl). destruct p as [u|k]; apply bool_decide_eq_false in Hheld.
  - case_bool_decide; [|done]. split; [by split|]. by apply Hsrc.
  - destruct (courses t !! k) eqn:Hk; [|done]. split; [|by apply Hsrc].
    split; [done|]. by apply elem_of_dom.
Qed.

Lemma seat_member_ok i c u by_ src at_ t r t' :
  seat_member i c u by_ src at_ t = Ok (r, t') → base t → is_student t u →
  match r with
  | Seated => stints t !! i = None
      ∧ t' = set_stints <[i := MkStint c u by_ at_ None src]> (set_groups (alter (on_members bumped) c) t) ∧ base t'
  | _ => t' = t
  end.
Proof.
  unfold seat_member. intros E Hb Hu. destruct (groups t !! c) as [g|] eqn:Hg; [|by injection E as <- <-].
  destruct (class_member_count g <? cap AMember) eqn:Hcap; [|by injection E as <- <-].
  destruct (has (stints t) i) eqn:Hi; [done|]. simpl in E.
  case_bool_decide as Hl; [by injection E as <- <-|].
  case_match; [|by injection E as <- <-]. injection E as <- <-.
  assert (stints t !! i = None) as Hni by (by apply not_elem_of_dom; rewrite <- has_spec, Hi).
  split_and!; [done..|]. apply base_stint; try done.
  rewrite Hg. intros n [= <-]. by apply Z.ltb_lt.
Qed.

Section Entering.
Context `{UuidText}.

Lemma is_live_stint t c u c' u' i by_ at_ src :
  stints t !! i = None →
  is_live_member (set_stints <[i := MkStint c u by_ at_ None src]> t) c' u'
  ↔ (c' = c ∧ u' = u) ∨ is_live_member t c' u'.
Proof.
  intros Hi. unfold is_live_member, map_Exists. cbn. split.
  - intros (j & s & [[<- <-]|[_ Hj]]%lookup_insert_Some & Hs).
    + destruct Hs as (<- & <- & _). by left.
    + right. by exists j, s.
  - intros [[-> ->]|(j & s & Hj & Hs)].
    + eexists i, _. split; [apply lookup_insert_eq|done].
    + exists j, s. split; [|done]. rewrite lookup_insert_ne; [done|]. congruence.
Qed.

Lemma add_member_moves i c u by_ src at_ at' : roster_moves (add_member_tx i c u by_ src at_ at').
Proof.
  intros t v t' Hok E. change (moved t t'). unfold add_member_tx in E.
  apply tx_bind_ok in E as (ev & t1 & Ev & E).
  destruct (ev.1.1) as [e|] eqn:He.
  { injection E as _ <-. apply gets_ok in Ev as [_ ->]. by apply moved_refl. }
  destruct (early_open _ _ _ _ _ _ _ Ev He) as (-> & (Hno & Hu) & _).
  apply tx_bind_ok in E as (seat & t1 & Es & E). pose proof Hok as [Hb Hp].
  pose proof (seat_member_ok _ _ _ _ _ _ _ _ _ Es Hb Hu) as Hseat.
  destruct seat; try subst t1;
    [|apply tx_bind_ok in E as (? & ? & [-> ->]%gets_ok & E)|..]; try (injection E as _ <-; by apply moved_refl).
  destruct Hseat as (Hi & Et1 & Hb1).
  apply tx_bind_ok in E as (pairs & t2 & [-> ->]%gets_ok & E).
  apply tx_bind_ok in E as ([] & t2 & Ef & E). injection E as _ <-.
  assert (∀ c' u', is_live_member t1 c' u' ↔ (c' = c ∧ u' = u) ∨ is_live_member t c' u') as Hlive.
  { intros c' u'. rewrite Et1. by rewrite is_live_stint. }
  assert (shapes t1 = shapes t ∧ enrollments t1 = enrollments t) as [Hsh Hen] by (by rewrite Et1).
  assert (ok t1) as Hok1.
  { split; [done|]. intros i' u' e' c'. rewrite Hsh, Hen, Hlive. intros He1 He2.
    destruct (Hp _ _ _ _ He1 He2). auto. }
  destruct (enroll_pairs_spec _ _ _ _ _ _ _ Ef Hok1) as (Hok2 & Hadd & Hall).
  { intros i' u' (j & [= -> ->] & Hin)%list_elem_of_fmap. apply elem_of_instances_of in Hin as (y & Hx & Hc).
    rewrite shape_at, Hx. simpl. rewrite Hc, Hlive. auto. }
  split; [done|]. intros i' u' (x & Hx & Hl & Hn). rewrite is_live_added in Hl by done.
  destruct Hadd as (_ & Hsh2 & Hsub). rewrite Hsh2, Hsh in Hx. apply Hlive in Hl as [[Hxc ->]|Hl].
  - exfalso. destruct (Hall (i', u)) as [? Hs]; [|by rewrite Hs in Hn].
    apply list_elem_of_fmap. exists i'. split; [done|]. apply elem_of_instances_of.
    rewrite shape_at in Hx. apply fmap_Some in Hx as (y & Hy & ->). exists y. by rewrite Et1.
  - exists x. split_and!; [done..|]. rewrite <- Hen. by eapply lookup_weaken_None.
Qed.

Lemma ensure_moves o k rung by_ at_ t r t' :
  ensure_tx o k rung by_ at_ t = Ok (r, t') → ok t →
  moved t t' ∧ off_course <$> offerings t' !! r = Some k
  ∧ (∃ f, t' = set_offerings f t).
Proof.
  unfold ensure_tx. intros E Hok. destruct (template t k rung) as [found|] eqn:Ht.
  - injection E as <- <-. apply first_found in Ht as (a & Ha & Hc & _).
    split_and!; [by apply moved_refl|by rewrite Ha; simpl in *; subst|exists id; by destruct t].
  - destruct (has (offerings t) o) eqn:Ho; [done|]. case_match eqn:Hk; [|done]. injection E as <- <-.
    apply andb_true_iff in Hk as [Hk _]. apply has_spec in Hk.
    assert (offerings t !! o = None) as Hn by (by apply not_elem_of_dom; rewrite <- has_spec, Ho).
    split_and!; [|cbn; by rewrite lookup_insert_eq|by eexists].
    apply moved_same; [|done..]. apply base_template; [by apply Hok|done..].
Qed.

Lemma seat_course_ok i c k o by_ src at_ t r t' :
  seat_course i c k o by_ src at_ t = Ok (r, t') → base t → off_course <$> offerings t !! o = Some k →
  match r with
  | Seated => instances t !! i = None ∧ k ∈ dom (courses t)
      ∧ t' = set_instances <[i := MkInstance c k o by_ src inherit_all 0 at_]> (set_groups (alter (on_courses bumped) c) t)
      ∧ base (set_courses_ (alter (on_taught bumped) k) t')
  | _ => t' = t
  end.
Proof.
  unfold seat_course. intros E Hb Ho. destruct (groups t !! c) as [g|] eqn:Hg; [|by injection E as <- <-].
  destruct (class_course_count g <? cap ACourse) eqn:Hcap; [|by injection E as <- <-].
  destruct (has (instances t) i) eqn:Hi; [done|]. simpl in E.
  case_bool_decide as Hl; [by injection E as <- <-|].
  case_match eqn:Hfk; [|by injection E as <- <-]. injection E as <- <-.
  apply andb_true_iff in Hfk as [Hfk Hsrc]. apply andb_true_iff in Hfk as [Hfk _].
  apply andb_true_iff in Hfk as [Hk _]. apply has_spec in Hk.
  assert (instances t !! i = None) as Hni by (by apply not_elem_of_dom; rewrite <- has_spec, Hi).
  split_and!; [done..|]. apply base_instance; try done.
  - rewrite Hg. intros n [= <-]. by apply Z.ltb_lt.
  - intros b ->. by apply bool_decide_eq_true in Hsrc.
Qed.

Lemma attach_fills i c by_ at_ t t1 t' x :
  enroll_pairs c ((i,.) <$> roster_of t1 c) by_ at_ t1 = Ok (x, t') →
  ok t → base t1 → shapes t !! i = None → enrollments t1 = enrollments t → stints t1 = stints t →
  (∃ sh, sh_class sh = c ∧ shapes t1 = <[i := sh]> (shapes t)) → moved t t'.
Proof.
  intros Ef [Hb Hp] Hb1 Hi Hen Hst (sh & Hc & Hsh).
  assert (∀ c' u', is_live_member t1 c' u' ↔ is_live_member t c' u') as Hlive.
  { intros. unfold is_live_member. by rewrite Hst. }
  assert (ok t1) as Hok1.
  { split; [done|]. intros i' u' e' c'. rewrite Hsh, Hen, Hlive. intros He1 He2.
    rewrite lookup_insert_ne; [by eapply Hp|]. intros <-.
    destruct (enrollments_seen _ _ _ _ Hb He1). congruence. }
  destruct (enroll_pairs_spec _ _ _ _ _ _ _ Ef Hok1) as (Hok2 & Hadd & Hall).
  { intros i' u' (u & [= -> ->] & Hin)%list_elem_of_fmap. apply elem_of_roster_of in Hin.
    rewrite Hsh, lookup_insert_eq. simpl. by rewrite Hc. }
  split; [done|]. intros i' u' (x' & Hx & Hl & Hn). rewrite is_live_added in Hl by done.
  destruct Hadd as (_ & Hsh2 & Hsub). rewrite Hsh2, Hsh in Hx.
  apply lookup_insert_Some in Hx as [[<- <-]|[_ Hx]].
  - exfalso. destruct (Hall (i, u')) as [? Hs]; [|by rewrite Hs in Hn].
    apply list_elem_of_fmap. exists u'. split; [done|]. apply elem_of_roster_of. by rewrite <- Hc.
  - exists x'. rewrite Hlive in Hl. split_and!; [done..|]. rewrite <- Hen. by eapply lookup_weaken_None.
Qed.

Lemma attach_course_moves i c k by_ src o at_ at_o at' :
  roster_moves (attach_course_tx i c k by_ src o at_ at_o at').
Proof.
  intros t v t' Hok E. change (moved t t'). unfold attach_course_tx in E.
  apply tx_bind_ok in E as ([[ev source_id] knd] & t1 & Ev & E).
  destruct ev as [e|].
  { injection E as _ <-. apply gets_ok in Ev as [_ ->]. by apply moved_refl. }
  destruct (early_open _ _ _ _ _ _ _ Ev eq_refl) as (-> & (Hno & Hk) & Hsrc). simpl in Hsrc.
  destruct knd as [knd|]; [|done]. destruct (is_class_delivered knd); [|done]. simpl in E.
  apply tx_bind_ok in E as (rung & ? & [-> ->]%gets_ok & E).
  destruct (grade_level <$> groups t !! c) as [rung|]; [|injection E as _ <-; by apply moved_refl].
  apply tx_bind_ok in E as (off & t1 & Eo & E).
  destruct (ensure_moves _ _ _ _ _ _ _ _ Eo Hok) as ([Hok1 Hg1] & Hoff & f & Et1).
  apply tx_bind_ok in E as (seat & t2 & Es & E).
  pose proof (seat_course_ok _ _ _ _ _ _ _ _ _ _ Es (proj1 Hok1) Hoff) as Hseat.
  destruct seat; try subst t2;
    [|apply tx_bind_ok in E as (? & ? & [-> ->]%gets_ok & E)|..];
    try (injection E as _ <-; first [by apply moved_refl|by split]).
  destruct Hseat as (Hi & _ & Et2 & Hb2).
  apply tx_bind_ok in E as ([] & t3 & [= <-] & E).
  apply tx_bind_ok in E as (pairs & ? & [-> ->]%gets_ok & E).
  apply tx_bind_ok in E as ([] & t4 & Ef & E).
  apply tx_bind_ok in E as (row & ? & [-> ->]%gets_ok & E).
  apply tx_bind_ok in E as (made & ? & [_ ->]%decide_ok & E). injection E as _ <-.
  cut (moved t1 t4); [intros [H1 H2]; split; [done|by etrans]|].
  eapply attach_fills; [exact Ef|done..| | | |].
  - by rewrite shape_at, Hi.
  - by rewrite Et2.
  - by rewrite Et2.
  - eexists. split; [|rewrite Et2; unfold shapes; cbn; by rewrite fmap_insert]. done.
Qed.
End Entering.

(** ** Leaving *)

Lemma base_live_gone t c (ss : gmap uuid Stint) :
  base t → tallies member_key (alter given_back c (class_member_count <$> groups t)) ss →
  (∀ j s, ss !! j = Some s → ∃ s0, stints t !! j = Some s0 ∧ st_class s = st_class s0
     ∧ (left_at s = None → s = s0)) →
  base (set_groups (alter (on_members given_back) c) (set_stints (λ _, ss) t)).
Proof.
  intros Hok Hm Hsub. clauses Hok.
  - intros c' n. apply cap_alter; [|done]. intros n' Hn. pose proof (b_cap_members0 _ _ Hn).
    unfold given_back, MAX_CLASS_MEMBERS in *. lia.
  - intros c' u' j j' s s' Hj Hj' Hs Hs'. destruct (Hsub _ _ Hj) as (s0 & Hj0 & _ & Hl).
    destruct (Hsub _ _ Hj') as (s1 & Hj1 & _ & Hl'). pose proof (Hl (proj2 (proj2 Hs))) as ->.
    pose proof (Hl' (proj2 (proj2 Hs'))) as ->. by eapply b_one_stint0.
  - intros j s Hj. destruct (Hsub _ _ Hj) as (s0 & Hj0 & -> & _). eauto.
  - intros j s Hj Hl. destruct (Hsub _ _ Hj) as (s0 & Hj0 & _ & E). rewrite E in * by done. eauto.
Qed.

(** The one live row of a pair, ended or removed. *)
Definition without (c u : uuid) (soft : bool) (at_ : Z) (ss : gmap uuid Stint) : gmap uuid Stint :=
  if soft then stamp c u at_ <$> ss else filter (λ p : uuid * Stint, ¬ live c u p.2) ss.

Lemma lookup_without c u soft at_ ss j s :
  without c u soft at_ ss !! j = Some s →
  ∃ s0, ss !! j = Some s0 ∧ st_class s = st_class s0 ∧ (left_at s = None → s = s0 ∧ ¬ live c u s0).
Proof.
  unfold without. destruct soft.
  - rewrite lookup_fmap. intros (s0 & Hs & ->)%fmap_Some. exists s0. unfold stamp.
    case_decide; split_and!; done.
  - intros [Hs Hl]%map_lookup_filter_Some. by exists s.
Qed.

Lemma without_live c u soft at_ ss j s :
  ss !! j = Some s → left_at s = None → ¬ live c u s → without c u soft at_ ss !! j = Some s.
Proof.
  intros Hj Hl Hn. unfold without. destruct soft.
  - rewrite lookup_fmap, Hj. simpl. unfold stamp. by rewrite decide_False.
  - by apply map_lookup_filter_Some.
Qed.

Lemma without_tallies n c u soft at_ (ss : gmap uuid Stint) j s :
  ss !! j = Some s → live c u s →
  (∀ j' s', ss !! j' = Some s' → live c u s' → j = j') →
  tallies member_key n ss → tallies member_key (alter given_back c n) (without c u soft at_ ss).
Proof.
  intros Hj Hl Huniq Ht.
  assert (member_key (j, s) = Some c) as Hk.
  { destruct Hl as (<- & _ & E). unfold member_key. simpl. by rewrite E. }
  unfold without. destruct soft.
  - assert (stamp c u at_ <$> ss = <[j := stamp c u at_ s]> ss) as ->.
    { apply map_eq. intros j'. rewrite lookup_fmap, lookup_insert. case_decide as E; [subst; by rewrite Hj|].
      destruct (ss !! j') as [s'|] eqn:Hj'; [|done]. simpl. unfold stamp. rewrite decide_False; [done|].
      intros Hl'. by apply E, (Huniq j' s'). }
    apply (tallies_retire _ _ _ j s); try done. unfold stamp. by rewrite decide_True.
  - assert (filter (λ p : uuid * Stint, ¬ live c u p.2) ss = delete j ss) as ->.
    { apply map_eq. intros j'. rewrite lookup_delete. case_decide as E.
      - subst. apply map_lookup_filter_None. right. intros x Hx Hn. simpl in Hn. rewrite Hj in Hx.
        injection Hx as <-. done.
      - destruct (ss !! j') as [s'|] eqn:Hj'.
        + apply map_lookup_filter_Some. split; [done|]. simpl. intros Hl'. by apply E, (Huniq j' s').
        + apply map_lookup_filter_None. by left. }
    by apply (tallies_give_back _ _ _ j s).
Qed.

(** What [release_all] leaves. *)
Lemma release_all_frame pairs t x t' :
  release_all pairs t = Ok (x, t') →
  t' = set_enrollments (λ _, enrollments t') (set_instances (λ _, instances t') t)
  ∧ shapes t' = shapes t
  ∧ (∀ p, enrollments t' !! p = if decide (p ∈ pairs) then None else enrollments t !! p).
Proof.
  revert t. induction pairs as [|[i u] pairs IH]; cbn [release_all]; intros t E.
  { injection E as _ <-. split_and!; [by destruct t|done|]. intros p.
    rewrite decide_False; [done|apply not_elem_of_nil]. }
  apply tx_bind_ok in E as ([] & t1 & E1 & E).
  assert (t1 = set_enrollments (λ _, enrollments t1) (set_instances (λ _, instances t1) t)
    ∧ shapes t1 = shapes t ∧ ∀ p, enrollments t1 !! p = if decide (p = (i, u)) then None else enrollments t !! p)
    as (Et1 & Hs1 & He1).
  { unfold release in E1. destruct (enrollments t !! (i, u)) as [e|] eqn:He; injection E1 as <-.
    - split_and!; [by destruct t|unfold shapes; cbn; by rewrite shape_on_roster|].
      intros p. cbn. rewrite lookup_delete. repeat case_decide; congruence.
    - split_and!; [by destruct t|done|]. intros p. case_decide; congruence. }
  destruct (IH t1 E) as (Et & Hs & He). split_and!; [|congruence|].
  - rewrite Et, Et1 at 1. by destruct t.
  - intros p. rewrite He, He1. repeat case_decide; set_solver.
Qed.

Lemma base_release_all pairs t x t' : release_all pairs t = Ok (x, t') → base t → base t'.
Proof.
  revert t. induction pairs as [|[i u] pairs IH]; cbn [release_all]; intros t E Hb; [by injection E as _ <-|].
  apply tx_bind_ok in E as ([] & t1 & E1 & E). apply (IH t1 E). unfold release in E1.
  destruct (enrollments t !! (i, u)) eqn:He; injection E1 as <-; [by eapply base_release|done].
Qed.

Lemma drop_member_moves c u soft at_ : roster_moves (drop_member_tx c u soft at_).
Proof.
  intros t v t' Hok E. change (moved t t'). unfold drop_member_tx in E.
  apply tx_bind_ok in E as (there & ? & [-> ->]%gets_ok & E).
  case_bool_decide as Hl; [|injection E as _ <-; by apply moved_refl]. simpl in E.
  apply tx_bind_ok in E as ([] & ? & [= <-] & E). apply tx_bind_ok in E as ([] & t1 & [= Et0] & E).
  apply tx_bind_ok in E as (rows & ? & [-> ->]%gets_ok & E). apply tx_bind_ok in E as ([] & t2 & Er & E).
  injection E as _ <-. destruct Hok as [Hb Hp]. destruct Hl as (j & s & Hj & Hl).
  assert (t1 = set_groups (alter (on_members given_back) c) (set_stints (λ _, without c u soft at_ (stints t)) t))
    as Et1 by (by rewrite <- Et0; destruct soft).
  clear Et0.
  assert (base t1) as Hb1.
  { rewrite Et1. apply base_live_gone; [done| |].
    - eapply without_tallies; [done..| |by apply Hb]. intros j' s' Hj' Hl'.
      by eapply (b_one_stint _ Hb).
    - intros j' s' (s0 & ? & ? & Hs0)%lookup_without. exists s0. naive_solver. }
  assert (∀ c' u', is_live_member t1 c' u' ↔ is_live_member t c' u' ∧ ¬ (c' = c ∧ u' = u)) as Hlive.
  { intros c' u'. rewrite Et1. unfold is_live_member, map_Exists. cbn. split.
    - intros (j' & s' & (s0 & Hj' & Hc & Hs0)%lookup_without & Hl'). destruct (Hs0 (proj2 (proj2 Hl'))) as [-> Hn].
      split; [by exists j', s0|]. by intros [-> ->].
    - intros [(j' & s' & Hj' & Hl') Hne]. exists j', s'. split; [|done].
      apply without_live; [done|apply Hl'|]. intros (? & ? & _). destruct Hl' as (? & ? & _). apply Hne. split; congruence. }
  assert (shapes t1 = shapes t ∧ enrollments t1 = enrollments t) as [Hs1 He1] by (by rewrite Et1).
  pose proof (base_release_all _ _ _ _ Er Hb1) as Hb2.
  destruct (release_all_frame _ _ _ _ Er) as (Et2 & Hs2 & He2).
  assert (∀ c' u', is_live_member t2 c' u' ↔ is_live_member t1 c' u') as Hlive2 by (intros; by rewrite Et2).
  split; [split; [done|]|].
  - intros i' u' e' c'. rewrite He2, Hlive2, Hlive, Hs2, Hs1. case_decide as Hin; [done|]. rewrite He1.
    intros He' Hc'. destruct (Hp _ _ _ _ He' Hc') as [? ?]. split_and!; [done..|]. intros [-> ->].
    apply Hin. apply elem_of_pumped_rows. rewrite He1. eauto.
  - intros i' u' (x & Hx & Hlx & Hn). rewrite Hlive2, Hlive in Hlx. destruct Hlx as [Hlx Hne].
    rewrite Hs2, Hs1 in Hx. exists x. split_and!; [done..|]. rewrite He2 in Hn.
    case_decide as Hin; [|by rewrite He1 in Hn]. exfalso. apply Hne.
    apply elem_of_pumped_rows in Hin as (<- & e & He & Hc). rewrite He1 in He.
    destruct (Hp _ _ _ _ He Hc) as [Hcl _]. rewrite Hx in Hcl. simpl in *. split; [congruence|done].
Qed.

Lemma detach_course_moves c k src : roster_moves (detach_course_tx c k src).
Proof.
  intros t v t' Hok E. change (moved t t'). unfold detach_course_tx in E.
  apply tx_bind_ok in E as (target & ? & [-> ->]%gets_ok & E).
  destruct (detachable t c k src) as [i|] eqn:Hd; [|injection E as _ <-; by apply moved_refl].
  apply first_found in Hd as (x & Hx & Hc & Hk & _). simpl in *.
  injection E as _ <-. destruct Hok as [Hb Hp]. split; [split|].
  - by eapply base_drop_instance.
  - intros i' u' e' c'. unfold shapes, is_live_member. cbn. rewrite fmap_delete.
    intros [He Hne]%map_lookup_filter_Some. simpl in Hne. rewrite lookup_delete_ne by done. by apply Hp.
  - intros i' u' (y & Hy & Hl & Hn). unfold shapes in Hy. cbn in Hy, Hn. rewrite fmap_delete in Hy.
    apply lookup_delete_Some in Hy as [Hne Hy]. exists y. split_and!; [done..|].
    apply map_lookup_filter_None in Hn as [Hn|Hn]; [done|].
    destruct (enrollments t !! (i', u')) as [e|] eqn:He; [|done]. exfalso. by apply (Hn e).
Qed.

(** ** By hand *)

Lemma disown_moves i u :
  roster_moves (λ t, match enrollments t !! (i, u) with
    | Some e => Ok (Some (disown e), set_enrollments <[(i, u) := disown e]> t)
    | None => Ok (None, t)
    end).
Proof.
  intros t v t' Hok E. change (moved t t'). destruct (enrollments t !! (i, u)) eqn:He; injection E as _ <-.
  - destruct Hok. split; [split|by apply gap_put]; [by eapply base_retag|by apply pumped_put].
  - by apply moved_refl.
Qed.

Lemma enroll_moves i u by_ at_ : roster_moves (enroll_tx i u by_ None at_).
Proof.
  intros t v t' Hok E. change (moved t t'). unfold enroll_tx in E.
  destruct (enrollments t !! (i, u)) eqn:He; [injection E as _ <-; by apply moved_refl|].
  case_bool_decide as Hu; simpl in E; [|injection E as _ <-; by apply moved_refl].
  destruct (instances t !! i) eqn:Hi; [|done]. case_match; [|done]. injection E as _ <-. destruct Hok.
  split; [split|apply gap_seat]; [|by apply pumped_seat].
  apply base_seat; [done..| |done]. by apply elem_of_dom.
Qed.

Lemma unenroll_keeps i u t r t' : unenroll_tx i u t = Ok (r, t') → ok t → ok t'.
Proof.
  unfold unenroll_tx. intros E [Hb Hp]. destruct (enrollments t !! (i, u)) eqn:He; injection E as _ <-; [|done].
  split; [by eapply base_release|by apply pumped_release].
Qed.

Lemma join_moves k u by_ at_ : roster_moves (join_tx k u by_ at_).
Proof.
  intros t v t' Hok E. change (moved t t'). unfold join_tx in E.
  destruct (memberships t !! (k, u)) eqn:He; [injection E as _ <-; by apply moved_refl|].
  case_bool_decide as Hu; simpl in E; [|injection E as _ <-; by apply moved_refl].
  destruct (courses t !! k) eqn:Hi; [|done]. case_match; [|done]. injection E as _ <-.
  apply moved_same; [|done..]. apply base_join; [by apply Hok|done|by apply elem_of_dom|done].
Qed.

Lemma leave_moves k u : roster_moves (leave_tx k u).
Proof.
  intros t v t' Hok E. change (moved t t'). unfold leave_tx in E.
  destruct (memberships t !! (k, u)) eqn:He; injection E as _ <-; [|by apply moved_refl].
  apply moved_same; [|done..]. eapply base_leave; [by apply Hok|done].
Qed.

(** Tables the invariant does not read. *)
Lemma moved_assigned f t : ok t → moved t (set_assigned f t).
Proof. intros Hok. apply moved_same; [|done..]. destruct Hok as [Hb _]. by clauses Hb. Qed.
Lemma moved_elsewhere f t :
  ok t → events_ok (dom (users t)) (dom (groups t)) (dom (courses t)) (f (elsewhere t)) → moved t (set_elsewhere f t).
Proof. intros Hok He. apply moved_same; [|done..]. destruct Hok as [Hb _]. by clauses Hb. Qed.
Lemma moved_beside f t : ok t → spares f → moved t (set_elsewhere f t).
Proof. intros Hok Hf. apply moved_elsewhere; [done|]. apply events_spared; [done|apply Hok]. Qed.

(** ** Sections *)

(** What claims and releases a year's count. *)
Definition on_year (f : Z → Z) (y : option uuid) (t : Tables) : Tables :=
  match y with Some y => set_years (alter (on_classes f) y) t | None => t end.

Lemma on_year_frame f y t : on_year f y t = set_years (λ _, years (on_year f y t)) t.
Proof. destruct y; by destruct t. Qed.
Lemma on_year_classes f y t : class_count <$> years (on_year f y t) = at_key f y (class_count <$> years t).
Proof. destruct y; [|done]. cbn. by rewrite classes_on_classes. Qed.
Lemma on_year_dom f y t : dom (years (on_year f y t)) = dom (years t).
Proof. destruct y; [|done]. cbn. apply dom_alter_row. Qed.

Lemma base_years t (ys : gmap uuid Year) (gs : gmap uuid Group) :
  base t →
  tallies member_key (class_member_count <$> gs) (stints t) →
  tallies class_key (class_course_count <$> gs) (shapes t) →
  tallies year_key (class_count <$> ys) (year <$> gs) →
  (∀ c g, gs !! c = Some g → class_member_count g ≤ MAX_CLASS_MEMBERS ∧ class_course_count g ≤ MAX_CLASS_COURSES
     ∧ ∀ y, year g = Some y → y ∈ dom ys) →
  dom (groups t) ⊆ dom gs →
  base (set_groups (λ _, gs) (set_years (λ _, ys) t)).
Proof.
  intros Hok Hm Hc Hy Hg Hd. clauses Hok.
  - intros c n. rewrite lookup_fmap. intros (g & Hcg & ->)%fmap_Some. by apply (Hg c g).
  - intros c n. rewrite lookup_fmap. intros (g & Hcg & ->)%fmap_Some. by apply (Hg c g).
  - eauto.
  - eauto.
  - intros c y. rewrite lookup_fmap. intros (g & Hcg & E)%fmap_Some. by eapply (Hg c g).
  - by eapply events_grow.
Qed.

Lemma section_bounds t c g :
  base t → groups t !! c = Some g →
  class_member_count g ≤ MAX_CLASS_MEMBERS ∧ class_course_count g ≤ MAX_CLASS_COURSES
  ∧ ∀ y, year g = Some y → y ∈ dom (years t).
Proof.
  intros Hok Hg. split_and!.
  - apply (b_cap_members _ Hok c). by rewrite lookup_fmap, Hg.
  - apply (b_cap_courses _ Hok c). by rewrite lookup_fmap, Hg.
  - intros y Hy. apply (b_year _ Hok c). by rewrite lookup_fmap, Hg, <- Hy.
Qed.

Lemma base_group_new t i g :
  base t → groups t !! i = None → class_member_count g = 0 → class_course_count g = 0 →
  (∀ y, year g = Some y → y ∈ dom (years t)) →
  base (set_groups <[i := g]> (on_year bumped (year g) t)).
Proof.
  intros Hok Hi Hm Hc Hy. rewrite on_year_frame. apply not_elem_of_dom in Hi as Hd.
  apply (base_years t _ (<[i := g]> (groups t))); [done|..]; rewrite ?fmap_insert, ?Hm, ?Hc.
  - apply tallies_born; [|by apply Hok]. intros j s Hj. unfold member_key. simpl. destruct (left_at s); [done|].
    intros [= <-]. by apply Hd, (b_stint _ Hok j).
  - apply tallies_born; [|by apply Hok]. intros j s Hj [= <-]. by apply Hd, (b_class _ Hok j).
  - rewrite on_year_classes. change (year g) with (year_key (i, year g)) at 1.
    apply tallies_in; [by rewrite lookup_fmap, Hi|by apply Hok].
  - rewrite on_year_dom. intros c g' [[<- <-]|[_ Hg]]%lookup_insert_Some; [|by eapply section_bounds].
    unfold MAX_CLASS_MEMBERS, MAX_CLASS_COURSES. rewrite Hm, Hc. split_and!; [lia..|done].
  - rewrite dom_insert_L. set_solver.
Qed.

Lemma same_column {V W} (h : V → W) (m : gmap uuid V) i v v' :
  m !! i = Some v → h v' = h v → h <$> <[i := v']> m = h <$> m.
Proof. intros Hi Hv. apply column_put. rewrite Hi. simpl. by rewrite Hv. Qed.

(** A section that keeps its year, and one that moves. *)
Lemma base_group_same t i g g' :
  base t → groups t !! i = Some g → year g' = year g →
  class_member_count g' = class_member_count g → class_course_count g' = class_course_count g →
  base (set_groups <[i := g']> t).
Proof.
  intros Hok Hi Hy Hm Hc.
  assert (set_groups <[i := g']> t = set_groups (λ _, <[i := g']> (groups t)) (set_years (λ _, years t) t)) as ->
    by by destruct t.
  apply base_years; [done|..]; rewrite ?(same_column _ _ _ _ _ Hi Hm), ?(same_column _ _ _ _ _ Hi Hc),
    ?(same_column _ _ _ _ _ Hi Hy); try by apply Hok.
  - intros c g2 [[<- <-]|[_ Hg]]%lookup_insert_Some; [|by eapply section_bounds].
    rewrite Hm, Hc, Hy. by eapply section_bounds.
  - rewrite dom_insert_L. set_solver.
Qed.

Lemma base_group_moves t i g g' :
  base t → groups t !! i = Some g → class_member_count g' = class_member_count g →
  class_course_count g' = class_course_count g → (∀ y, year g' = Some y → y ∈ dom (years t)) →
  base (set_groups <[i := g']> (on_year bumped (year g') (on_year given_back (year g) t))).
Proof.
  intros Hok Hi Hm Hc Hy. set (t2 := on_year bumped (year g') (on_year given_back (year g) t)).
  assert (set_groups <[i := g']> t2 = set_groups (λ _, <[i := g']> (groups t)) (set_years (λ _, years t2) t)) as ->
    by (unfold t2; rewrite (on_year_frame bumped), (on_year_frame given_back); by destruct t).
  unfold t2. apply base_years; [done|..];
    rewrite ?(same_column _ _ _ _ _ Hi Hm), ?(same_column _ _ _ _ _ Hi Hc); try by apply Hok.
  - rewrite !on_year_classes, fmap_insert, <- insert_delete_eq.
    change (year g') with (year_key (i, year g')) at 1. apply tallies_in; [apply lookup_delete_eq|].
    change (year g) with (year_key (i, year g)). apply tallies_out; [by rewrite lookup_fmap, Hi|by apply Hok].
  - rewrite !on_year_dom. intros c g2 [[<- <-]|[_ Hg]]%lookup_insert_Some; [|by eapply section_bounds].
    rewrite Hm, Hc. split_and!; [by eapply section_bounds..|done].
  - rewrite dom_insert_L. set_solver.
Qed.

Lemma has_false {V} (m : gmap uuid V) i : has m i = false → m !! i = None.
Proof. intros Hi. apply not_elem_of_dom. by rewrite <- has_spec, Hi. Qed.

Lemma create_group_moves creator i g :
  class_member_count g = 0 → class_course_count g = 0 → roster_moves (create_group_tx creator i g).
Proof.
  intros Hm Hc t v t' Hok E. change (moved t t'). unfold create_group_tx in E.
  pose proof (base_group_new t i g (proj1 Hok)) as Hb.
  destruct (year g) as [yr|] eqn:Hy.
  - destruct (has (years t) yr) eqn:Hyr; [|done]. simpl in E. apply has_spec in Hyr.
    destruct (has (groups t) i) eqn:Hi; [done|]. apply has_false in Hi.
    case_match; [done|]. injection E as _ <-. apply moved_same; [|done..].
    apply Hb; [done..|]. by intros ? [= <-].
  - destruct (has (groups t) i) eqn:Hi; [done|]. apply has_false in Hi.
    case_match; [done|]. injection E as _ <-. apply moved_same; [|done..]. by apply Hb.
Qed.

(** The three ways of the update. *)
Definition reread (i : uuid) : tx Tables Group := λ t,
  match groups t !! i with Some g => Ok (g, t) | None => Err NotFound end.
Definition put_group (i : uuid) (ok_ : Group → bool) (p : GroupPatch) : tx Tables Group := λ t,
  match groups t !! i with
  | None => Err NotFound
  | Some g =>
      if negb (ok_ g) then Err stale_move else
      if group_fk t (patched p g) then Ok (patched p g, set_groups <[i := patched p g]> t) else Err fk_violation
  end.
Definition put_moving (i : uuid) (read claim back : option uuid) (p : GroupPatch) : tx Tables Group := λ t,
  let t1 := on_year given_back back t in
  if match claim with Some y => negb (has (years t1) y) | None => false end then Err year_gone
  else put_group i (λ g, bool_decide (year g = read)) p (on_year bumped claim t1).

Lemma update_group_cases i read p t :
  update_group_tx i read p t =
    match p with
    | MkGroupPatch None None None None => reread i t
    | _ => match p_year p with
           | None => put_group i (λ _, true) p t
           | Some next => put_moving i read (year_ref_move read (Some next)).1 (year_ref_move read (Some next)).2 p t
           end
    end.
Proof.
  destruct p as [n gr y te]. unfold put_moving.
  destruct y as [y|]; [|by destruct n, gr, te]. unfold update_group_tx, p_year, put_group.
  destruct (year_ref_move read (Some y)) as [claim back]. by destruct n, gr, te, claim, back.
Qed.

Lemma on_year_groups f y t : groups (on_year f y t) = groups t.
Proof. by destruct y. Qed.
Lemma on_year_users f y t : users (on_year f y t) = users t.
Proof. by destruct y. Qed.

Lemma group_fk_year t g y : group_fk t g = true → year g = Some y → y ∈ dom (years t).
Proof. unfold group_fk. intros [_ Hfk]%andb_true_iff Hy. rewrite Hy in Hfk. by apply has_spec. Qed.

Lemma on_year_rosters f y t :
  shapes (on_year f y t) = shapes t ∧ stints (on_year f y t) = stints t ∧ enrollments (on_year f y t) = enrollments t.
Proof. by destruct y. Qed.

Lemma update_group_moves i read p : roster_moves (update_group_tx i read p).
Proof.
  intros t v t' Hok E. change (moved t t'). rewrite update_group_cases in E.
  assert (reread i t = Ok (v, t') → moved t t') as Hreread.
  { unfold reread. destruct (groups t !! i); [|done]. intros [= _ <-]. by apply moved_refl. }
  assert (p_year p = None → put_group i (λ _, true) p t = Ok (v, t') → moved t t') as Hput.
  { intros Hy. unfold put_group. destruct (groups t !! i) as [g|] eqn:Hg; [|done]. simpl.
    destruct (group_fk t (patched p g)); [|done]. intros [= _ <-]. apply moved_same; [|done..].
    eapply base_group_same; [by apply Hok|done|..]; [|done..]. unfold patched. simpl. by rewrite Hy. }
  assert (∀ next, p_year p = Some next →
    put_moving i read (year_ref_move read (Some next)).1 (year_ref_move read (Some next)).2 p t = Ok (v, t') →
    moved t t') as Hmoving.
  { intros next Hy. unfold put_moving, put_group.
    destruct (match (year_ref_move read (Some next)).1 with Some _ => _ | None => _ end); [done|].
    rewrite !on_year_groups. destruct (groups t !! i) as [g|] eqn:Hg; [|done].
    case_bool_decide as Hr; [|done]. simpl negb. cbv iota. subst read.
    destruct (group_fk _ (patched p g)) eqn:Hfk; [|done]. intros [= _ <-].
    assert (year (patched p g) = next) as Hn by (unfold patched; simpl; by rewrite Hy).
    pose proof (λ y, group_fk_year _ _ y Hfk) as Hyd. rewrite !on_year_dom in Hyd.
    clear Hput Hreread. unfold year_ref_move in *. case_bool_decide as Hsame; cbn [fst snd] in *.
    - apply moved_same; [|done..].
      eapply base_group_same; [by apply Hok|done|congruence|done..].
    - apply moved_same; [|by destruct next, (year g)..|done].
      rewrite <- Hn. apply base_group_moves; [apply Hok|done..|exact Hyd]. }
  destruct p as [[n|] [gr|] [y|] [te|]]; eauto.
Qed.

(** The section nothing points at. *)
Lemma empty_section t i g :
  ok t → groups t !! i = Some g → class_member_count g = 0 →
  (∀ u, ¬ is_live_member t i u) ∧ (∀ j u e, enrollments t !! (j, u) = Some e → source e ≠ Some i).
Proof.
  intros [Hb Hp] Hg Hm.
  assert (∀ u, ¬ is_live_member t i u) as Hno.
  { intros u (j & s & Hj & Hc & _ & Hl).
    assert (0 = tallied member_key (stints t) i) as Ht.
    { apply (b_members _ Hb). rewrite lookup_fmap, Hg. simpl. by rewrite Hm. }
    symmetry in Ht. apply (proj1 (tallied_0 _ _ _)) with j s in Ht; [|done].
    apply Ht. unfold member_key. simpl. by rewrite Hl, Hc. }
  split; [done|]. intros j u e He Hs. by apply (Hno u), (Hp _ _ _ _ He Hs).
Qed.

Lemma untag_same i s :
  st_class (untag_stint i s) = st_class s ∧ st_user (untag_stint i s) = st_user s ∧ left_at (untag_stint i s) = left_at s.
Proof. unfold untag_stint. by case_bool_decide. Qed.

Lemma live_untag c u i s : live c u (untag_stint i s) ↔ live c u s.
Proof. unfold live. destruct (untag_same i s) as (-> & -> & ->). done. Qed.

(** The stints that stay: theirs, of the other sections. *)
Lemma stint_kept i (ss : gmap uuid Stint) j s :
  (untag_stint i <$> filter (λ p : uuid * Stint, st_class p.2 ≠ i) ss) !! j = Some s →
  ∃ s0, ss !! j = Some s0 ∧ s = untag_stint i s0 ∧ st_class s0 ≠ i.
Proof.
  rewrite lookup_fmap. intros (s0 & [Hs Hne]%map_lookup_filter_Some & ->)%fmap_Some. by exists s0.
Qed.

Lemma stint_stays i (ss : gmap uuid Stint) j s :
  ss !! j = Some s → st_class s ≠ i →
  (untag_stint i <$> filter (λ p : uuid * Stint, st_class p.2 ≠ i) ss) !! j = Some (untag_stint i s).
Proof.
  intros Hs Hne. rewrite lookup_fmap, (proj2 (map_lookup_filter_Some _ ss j s)); [done|by split].
Qed.

Lemma base_group_gone t i g :
  base t → groups t !! i = Some g → ¬ map_Exists (λ _ x, i_class x = i) (instances t) →
  base (on_year given_back (year g) (set_groups (delete i)
    (set_enrollments (fmap (untag_row i))
      (set_stints (λ ss, untag_stint i <$> filter (λ p : uuid * Stint, st_class p.2 ≠ i) ss)
        (set_elsewhere (set_events (fmap (unname_class i))) t))))).
Proof.
  intros Hok Hg Hno.
  assert (∀ j x, shapes t !! j = Some x → sh_class x ≠ i) as Hfree.
  { intros j x. rewrite shape_at. intros (y & Hy & ->)%fmap_Some Hc. apply Hno. by exists j, y. }
  assert (class_count <$> years (on_year given_back (year g) t)
    = at_key given_back (year_key (i, year g)) (class_count <$> years t)) as Hyears by apply on_year_classes.
  pose proof (on_year_dom given_back (year g) t) as Hyd.
  assert ((year <$> groups t) !! i = Some (year g)) as Hgy by (by rewrite lookup_fmap, Hg).
  pose proof (tallies_out year_key _ _ i (year g) Hgy (b_years _ Hok)) as Hys.
  rewrite <- Hyears in Hys.
  assert (∀ X, years X = years t → on_year given_back (year g) X = set_years (λ _, years (on_year given_back (year g) t)) X)
    as Hon by (intros X HX; destruct X; cbn in HX; subst; by destruct (year g)).
  rewrite Hon by done. clear Hon Hyears. set (ys := years (on_year given_back (year g) t)) in *.
  clauses Hok; rewrite ?fmap_delete, ?dom_delete_L.
  - apply (tallies_rows _ _ (filter (λ p : uuid * Stint, st_class p.2 ≠ i) (stints t))).
    + intros j. rewrite lookup_fmap. destruct (_ !! j) as [s|]; [|done]. simpl. unfold member_key. simpl.
      by destruct (untag_same i s) as (-> & _ & ->).
    + apply tallies_cut; [|done]. intros j s k' _ Hn. unfold member_key. simpl in *.
      apply dec_stable in Hn. destruct (left_at s); congruence.
  - by apply tallies_gone.
  - apply (tallies_rows _ _ (enrollments t)); [|done]. intros [j u]. rewrite lookup_fmap.
    by destruct (enrollments t !! (j, u)).
  - done.
  - intros c n [_ Hn]%lookup_delete_Some. eauto.
  - intros c n [_ Hn]%lookup_delete_Some. eauto.
  - intros c u j j' s s' (s0 & Hj & -> & _)%stint_kept (s1 & Hj' & -> & _)%stint_kept.
    rewrite !live_untag. by eapply b_one_stint0.
  - intros j s (s0 & Hj & -> & Hne)%stint_kept. destruct (untag_same i s0) as (-> & _ & _).
    apply b_stint0 in Hj. set_solver.
  - intros j x Hj. pose proof (Hfree _ _ Hj). apply b_class0 in Hj. set_solver.
  - intros j s (s0 & Hj & -> & Hne)%stint_kept. destruct (untag_same i s0) as (_ & -> & ->). eauto.
  - intros j u e. rewrite lookup_fmap. intros (e0 & He & ->)%fmap_Some. eauto.
  - intros c y [_ Hc]%lookup_delete_Some. rewrite Hyd. eauto.
  - by apply events_unname_class.
Qed.

Lemma delete_group_moves i : roster_moves (delete_group_tx i).
Proof.
  intros t v t' Hok E. change (moved t t'). unfold delete_group_tx in E.
  destruct (groups t !! i) as [g|] eqn:Hg; [|done].
  destruct (class_member_count g =? 0) eqn:Hm; simpl in E; [|injection E as _ <-; by apply moved_refl].
  destruct (class_course_count g =? 0) eqn:Hc; simpl in E; [|injection E as _ <-; by apply moved_refl].
  case_bool_decide as Hno; [done|]. injection E as _ <-. apply Z.eqb_eq in Hm.
  destruct (empty_section t i g Hok Hg Hm) as [Hempty Huntagged].
  pose proof (base_group_gone t i g (proj1 Hok) Hg Hno) as Hb.
  set (t' := set_groups _ _) in *. change (moved t (on_year given_back (year g) t')).
  destruct (on_year_rosters given_back (year g) t') as (Hs & Hst & He).
  assert (∀ c u, is_live_member (on_year given_back (year g) t') c u → is_live_member t c u ∧ c ≠ i) as Hlive.
  { intros c u (j & s & Hj & Hl). rewrite Hst in Hj. apply stint_kept in Hj as (s0 & Hj & -> & Hne).
    apply live_untag in Hl. split; [by exists j, s0|]. by destruct Hl as (<- & _). }
  split; [split; [done|]|].
  - intros j u e c. rewrite Hs, He. change (enrollments t') with (untag_row i <$> enrollments t).
    rewrite lookup_fmap. intros (e0 & He0 & ->)%fmap_Some. unfold untag_row. case_bool_decide as Hi; [done|]. intros Hsrc.
    destruct (proj2 Hok _ _ _ _ He0 Hsrc) as [Hcl (k & s & Hk & Hl)]. split; [done|].
    exists k, (untag_stint i s). split; [|by apply live_untag]. rewrite Hst.
    apply stint_stays; [done|]. destruct Hl as (-> & _). congruence.
  - intros j u (x & Hx & Hl & Hn). rewrite Hs in Hx. rewrite He in Hn. apply Hlive in Hl as [Hl _].
    exists x. split_and!; [done..|]. unfold t' in Hn. cbn in Hn. rewrite lookup_fmap in Hn.
    by destruct (enrollments t !! (j, u)).
Qed.
