(* ===== verification/RoleProofs.v ===== *)
(** * Demotion, and what it sheds

    A role change keeps the invariant of the rosters and opens no seat: the
    write of the role and the sweep of a former student's rows are one
    transaction. What is left afterwards is exactly the rows of everyone else. *)

From S2P Require Import Prelude Text Errors Effects Uuid Validate Modules Appointments Tally Gates EventForms Seats Roster Roles RosterProofs.
Open Scope Z_scope.

Lemma elem_of_live_classes u t c : c ∈ live_classes u t ↔ is_live_member t c u.
Proof.
  unfold live_classes, is_live_member, map_Exists, live. rewrite elem_of_list_to_set, list_elem_of_fmap. split.
  - intros ([j s] & -> & [[Hu Hl] Hm]%list_elem_of_filter). rewrite elem_of_map_to_list in Hm. by exists j, s.
  - intros (j & s & Hm & <- & Hu & Hl). exists (j, s). split; [done|]. apply list_elem_of_filter.
    by rewrite elem_of_map_to_list.
Qed.

Lemma elem_of_rosters_with {V} (u : uuid) (rows : gmap (uuid * uuid) V) (i : uuid) : i ∈ rosters_with u rows ↔ is_Some (rows !! (i, u)).
Proof.
  unfold rosters_with. rewrite elem_of_list_to_set, list_elem_of_fmap. split.
  - intros ([[j v] e] & -> & [Hu Hm]%list_elem_of_filter). simpl in *. subst.
    rewrite elem_of_map_to_list in Hm. by exists e.
  - intros [e He]. exists ((i, u), e). split; [done|]. apply list_elem_of_filter.
    by rewrite elem_of_map_to_list.
Qed.

Lemma lookup_off_user {V} (u : uuid) (m : gmap (uuid * uuid) V) i v :
  off_user u m !! (i, v) = if decide (v = u) then None else m !! (i, v).
Proof.
  unfold off_user. case_decide as E.
  - apply map_lookup_filter_None. right. intros x _ Hx. by apply Hx.
  - destruct (m !! (i, v)) eqn:Hm.
    + by apply map_lookup_filter_Some.
    + apply map_lookup_filter_None. by left.
Qed.

(** A counted table keyed by (counter, user) loses the rows of one user. *)
Lemma tallies_off_user {V} (u : uuid) (n : gmap uuid Z) (rows : gmap (uuid * uuid) V) :
  tallies roster_key n rows → tallies roster_key (update_in (rosters_with u rows) given_back n) (off_user u rows).
Proof.
  apply (tallies_sweep roster_key (λ p : (uuid * uuid) * V, p.1.2 = u)).
  - intros k [i v] a [i' v'] a' _ _ Hv Hv' [= Hk] [= Hk']. simpl in *. congruence.
  - intros k. rewrite elem_of_rosters_with. unfold swept_key. split.
    + intros [e He]. by exists (k, u), e.
    + intros ([i v] & e & He & Hv & [= Hk]). simpl in *. subst. by exists e.
  - intros k. apply (tallied_sweep roster_key (λ p : (uuid * uuid) * V, p.1.2 = u)).
Qed.

Lemma tallies_end_stints u at_ t (n : gmap uuid Z) :
  base t → tallies member_key n (stints t) →
  tallies member_key (update_in (live_classes u t) given_back n) (end_stint u at_ <$> stints t).
Proof.
  intros Hb. apply (tallies_sweep member_key (λ p : uuid * Stint, st_user p.2 = u ∧ left_at p.2 = None)).
  - intros k j s j' s' Hj Hj' [Hu Hl] [Hu' Hl']. unfold member_key. simpl in *. rewrite Hl, Hl'.
    intros [= Hk] [= Hk']. by eapply (b_one_stint _ Hb).
  - intros k. rewrite elem_of_live_classes. unfold swept_key, member_key, is_live_member, map_Exists, live. simpl.
    split; intros (j & s & Hj & Hs); exists j, s.
    + destruct Hs as (<- & -> & Hl). by rewrite Hl.
    + destruct Hs as [[-> Hl] Hk]. rewrite Hl in Hk. injection Hk as ->. done.
  - intros k. apply (tallied_stamp member_key (λ p : uuid * Stint, st_user p.2 = u ∧ left_at p.2 = None)).
    intros j s _. unfold end_stint, member_key. simpl. by case_decide.
Qed.

Lemma cap_update_in (m : gmap uuid Z) ids b :
  0 ≤ b → (∀ c n, m !! c = Some n → n ≤ b) → ∀ c n, update_in ids given_back m !! c = Some n → n ≤ b.
Proof.
  intros Hb Hm c n. rewrite lookup_update_in. case_decide; [|by apply Hm].
  intros (n0 & Hn & ->)%fmap_Some. apply Hm in Hn. unfold given_back. lia.
Qed.

(** The columns under the three sweeps. *)
Lemma members_in ids (m : gmap uuid Group) :
  class_member_count <$> update_in ids (on_members given_back) m = update_in ids given_back (class_member_count <$> m).
Proof. by apply column_moves_in. Qed.
Lemma courses_in ids (m : gmap uuid Group) :
  class_course_count <$> update_in ids (on_members given_back) m = class_course_count <$> m.
Proof. by apply column_same_in. Qed.
Lemma year_in ids (m : gmap uuid Group) : year <$> update_in ids (on_members given_back) m = year <$> m.
Proof. by apply column_same_in. Qed.
Lemma roster_in ids (m : gmap uuid Instance) :
  enrollment_count <$> update_in ids (on_roster given_back) m = update_in ids given_back (enrollment_count <$> m).
Proof. by apply column_moves_in. Qed.
Lemma shape_in ids (m : gmap uuid Instance) : shape <$> update_in ids (on_roster given_back) m = shape <$> m.
Proof. by apply column_same_in. Qed.
Lemma clubs_in ids (m : gmap uuid Course) :
  course_membership_count <$> update_in ids (on_club given_back) m
  = update_in ids given_back (course_membership_count <$> m).
Proof. by apply column_moves_in. Qed.
Lemma taught_in_club ids (m : gmap uuid Course) :
  taught_count <$> update_in ids (on_club given_back) m = taught_count <$> m.
Proof. by apply column_same_in. Qed.
#[export] Hint Rewrite members_in courses_in year_in roster_in shape_in clubs_in taught_in_club : columns.

(** The state [shed_student] leaves. *)
Definition shed (u : uuid) (at_ : Z) (t : Tables) : Tables :=
  let t := set_groups (update_in (live_classes u t) (on_members given_back)) (set_stints (fmap (end_stint u at_)) t) in
  let t := set_instances (update_in (rosters_with u (enrollments t)) (on_roster given_back))
             (set_enrollments (off_user u) t) in
  let t := set_courses_ (update_in (rosters_with u (memberships t)) (on_club given_back))
             (set_memberships (off_user u) t) in
  set_elsewhere (set_parent_links (filter (λ p, p.2 ≠ u))) t.

Lemma ended_stint u at_ (ss : gmap uuid Stint) j s :
  (end_stint u at_ <$> ss) !! j = Some s →
  ∃ s0, ss !! j = Some s0 ∧ st_class s = st_class s0 ∧ st_user s = st_user s0
    ∧ (left_at s = None → s = s0 ∧ st_user s ≠ u).
Proof.
  rewrite lookup_fmap. intros (s0 & Hs & ->)%fmap_Some. exists s0. split; [done|]. unfold end_stint.
  case_decide as E; split_and!; try done. intros Hl. split; [done|]. intros Hu. by apply E.
Qed.

Lemma live_after_shed u at_ t c v :
  is_live_member (shed u at_ t) c v ↔ is_live_member t c v ∧ v ≠ u.
Proof.
  unfold is_live_member, map_Exists. cbn. split.
  - intros (j & s & (s0 & Hj & _ & _ & Hl)%ended_stint & Hs). destruct (Hl (proj2 (proj2 Hs))) as [-> Hu].
    destruct Hs as (? & <- & ?). split; [by exists j, s0|done].
  - intros [(j & s & Hj & Hs) Hne]. exists j, s. split; [|done]. rewrite lookup_fmap, Hj. simpl.
    unfold end_stint. rewrite decide_False; [done|]. intros [E _]. destruct Hs as (_ & <- & _). done.
Qed.

Lemma base_shed u at_ t : base t → base (shed u at_ t).
Proof.
  intros Hok. unfold shed. pose proof (tallies_end_stints u at_ t _ Hok (b_members _ Hok)) as Hm.
  clauses Hok.
  - by apply tallies_off_user.
  - by apply tallies_off_user.
  - by apply cap_update_in.
  - intros c v j j' s s' (s0 & Hj & _ & _ & Hl)%ended_stint (s1 & Hj' & _ & _ & Hl')%ended_stint Hs Hs'.
    destruct (Hl (proj2 (proj2 Hs))) as [-> _], (Hl' (proj2 (proj2 Hs'))) as [-> _]. by eapply b_one_stint0.
  - intros j s (s0 & Hj & -> & _)%ended_stint. eauto.
  - intros j s (s0 & Hj & _ & -> & Hl)%ended_stint Hlive. destruct (Hl Hlive) as [-> _]. eauto.
  - intros i v e. rewrite lookup_off_user. case_decide; [done|]. eauto.
  - intros i v e. rewrite lookup_off_user. case_decide; [done|]. eauto.
Qed.

Lemma enrollments_shed u at_ t i v :
  enrollments (shed u at_ t) !! (i, v) = if decide (v = u) then None else enrollments t !! (i, v).
Proof. apply lookup_off_user. Qed.
Lemma memberships_shed u at_ t k v :
  memberships (shed u at_ t) !! (k, v) = if decide (v = u) then None else memberships t !! (k, v).
Proof. apply lookup_off_user. Qed.
Lemma shapes_shed u at_ t : shapes (shed u at_ t) = shapes t.
Proof. unfold shapes, shed. cbn. apply shape_in. Qed.

Lemma shed_moves u at_ t : ok t → moved t (shed u at_ t).
Proof.
  intros [Hb Hp]. split; [split; [by apply base_shed|]|].
  - intros i v e c. rewrite enrollments_shed, shapes_shed, live_after_shed. case_decide; [done|].
    intros He Hc. destruct (Hp _ _ _ _ He Hc). done.
  - intros i v (x & Hx & [Hl Hne]%live_after_shed & Hn). rewrite shapes_shed in Hx.
    rewrite enrollments_shed, decide_False in Hn by done. by exists x.
Qed.

(** ** The role *)

(** The account, and the mirror of its role the calendar reads. *)
Definition with_account (u : uuid) (r : Role) (a : Account) (t : Tables) : Tables :=
  set_elsewhere (set_calendar (set_roles <[u := role_as_str r]>)) (set_users <[u := with_role r a]> t).

Lemma is_student_account u r a t v :
  is_student (with_account u r a t) v ↔ (if decide (v = u) then r = Student else is_student t v).
Proof.
  unfold is_student. cbn. rewrite lookup_insert. destruct (decide (u = v)) as [<-|Hne].
  - rewrite (decide_True (P := u = u)) by done. simpl. split; [by intros [= ->]|by intros ->].
  - by rewrite (decide_False (P := v = u)) by done.
Qed.

(** A role may go to who holds no row of a student. *)
Definition rowless (t : Tables) (u : uuid) : Prop :=
  (∀ j s, stints t !! j = Some s → left_at s = None → st_user s ≠ u)
  ∧ (∀ i v e, enrollments t !! (i, v) = Some e → v ≠ u)
  ∧ (∀ k v m, memberships t !! (k, v) = Some m → v ≠ u).

Lemma rowless_shed u at_ t : rowless (shed u at_ t) u.
Proof.
  split_and!.
  - cbn. intros j s (s0 & Hj & _ & _ & Hl)%ended_stint Hs. by apply Hl.
  - intros i v e. rewrite enrollments_shed. by case_decide.
  - intros i v e. rewrite memberships_shed. by case_decide.
Qed.

Lemma account_moves u r a t : ok t → r = Student ∨ rowless t u → moved t (with_account u r a t).
Proof.
  intros Hok Hr. apply moved_same; [|done..].
  assert (∀ v, is_student t v → (v = u → r = Student) → is_student (with_account u r a t) v) as Hst.
  { intros v Hv Hu. apply is_student_account. case_decide; auto. }
  destruct Hok as [Hb _].
  pose proof (b_live _ Hb) as Hlive. pose proof (b_enrolled _ Hb) as Henr. pose proof (b_joined _ Hb) as Hjoin.
  destruct Hb; split; try assumption.
  - intros j s Hj Hl. apply Hst; [by eapply Hlive|]. intros <-. destruct Hr as [|(H & _ & _)]; [done|]. by destruct (H j s).
  - intros i v e He. destruct (Henr i v e He) as [Hi Hv]. split; [done|]. apply Hst; [done|].
    intros ->. destruct Hr as [|(_ & H & _)]; [done|]. by destruct (H i u e).
  - intros k v m Hm. destruct (Hjoin k v m Hm) as [Hk Hv]. split; [done|]. apply Hst; [done|].
    intros ->. destruct Hr as [|(_ & _ & H)]; [done|]. by destruct (H k u m).
  - apply (events_spared _ _ _ (set_calendar _)); [done|]. apply (events_grow (dom (users t)) (dom (groups t)) (dom (courses t)));
      [cbn; rewrite dom_insert_L; set_solver|done..].
Qed.

(** The sweep reads no account. *)
Lemma shed_account u at_ r a t : shed u at_ (with_account u r a t) = with_account u r a (shed u at_ t).
Proof. by destruct t. Qed.

Lemma write_role_ok u r others t a t' :
  write_role u r others t = Ok (a, t') →
  ∃ a0, users t !! u = Some a0 ∧ a = with_role r a0 ∧ t' = with_account u r a0 t
    ∧ (role a0 = Admin → r ≠ Admin → others ≠ 0).
Proof.
  unfold write_role. destruct (users t !! u) as [a0|]; [|done]. case_match eqn:Hfloor; [done|].
  intros [= <- <-]. exists a0. split_and!; [done..|]. intros Ha Hr Ho. subst.
  rewrite bool_decide_true in Hfloor by done. by rewrite bool_decide_false in Hfloor by done.
Qed.

Lemma moved_trans t1 t2 t3 : moved t1 t2 → moved t2 t3 → moved t1 t3.
Proof. intros [_ H1] [H2 H3]. split; [done|by etrans]. Qed.

(** Staff: homerooms, posts and calendars are no roster's. *)
Definition disrobed (u : uuid) (t : Tables) : Tables :=
  set_elsewhere (set_calendar (close_calendar u))
    (set_groups (fmap (clear_homeroom u)) (set_assigned (filter (λ p, p.2 ≠ u)) t)).

Lemma homeroom_column {V} (h : Group → V) u (m : gmap uuid Group) :
  (∀ c n r y w x z, h (MkGroup c n r y w x z) = h (MkGroup c n r y None x z)) →
  h <$> (clear_homeroom u <$> m) = h <$> m.
Proof.
  intros Hh. apply column_same_all. intros [c n r y w x z]. unfold clear_homeroom. case_bool_decide; [|done].
  symmetry. apply Hh.
Qed.

Lemma disrobed_moves u t : ok t → moved t (disrobed u t).
Proof.
  intros Hok. apply moved_same; [|done..]. unfold disrobed. destruct Hok as [Hb _]. clauses Hb;
    rewrite ?(homeroom_column class_member_count), ?(homeroom_column class_course_count),
      ?(homeroom_column year), ?dom_fmap_L by done; done.
Qed.

(** The transaction, as the moves it is made of. *)
Definition shed_for (u : uuid) (r : Role) (at_ : Z) (t : Tables) : Tables :=
  if decide (r = Student) then t else shed u at_ t.
Definition staff_for (u : uuid) (r : Role) (t : Tables) : Tables :=
  if at_least r Teacher then t else disrobed u t.
Definition seated_for (u : uuid) (r : Role) (at_ : Z) (t : Tables) : Tables :=
  if decide (r = Parent) then set_elsewhere (retire_boards u at_) (set_elsewhere (free_seats u at_) t)
  else staff_for u r (set_elsewhere (set_parent_links (filter (λ p, p.1 ≠ u))) t).
Definition after_cascade (u : uuid) (r : Role) (a0 : Account) (at_ : Z) (t : Tables) : Tables :=
  seated_for u r at_ (shed_for u r at_ (with_account u r a0 t)).

Lemma shed_student_runs u at_ t : shed_student u at_ t = Ok ((), shed u at_ t).
Proof. done. Qed.
Lemma become_parent_runs u at_ t :
  ∃ told_, become_parent u at_ t = Ok (told_, set_elsewhere (retire_boards u at_) (set_elsewhere (free_seats u at_) t)).
Proof. by eexists. Qed.
Lemma shed_parent_runs u t : shed_parent u t = Ok ((), set_elsewhere (set_parent_links (filter (λ p, p.1 ≠ u))) t).
Proof. done. Qed.
Lemma shed_staff_runs u t : shed_staff u t = Ok ((), disrobed u t).
Proof. done. Qed.

Lemma shed_for_runs u r at_ t :
  (if decide (r = Student) then mret () else shed_student u at_) t = Ok ((), shed_for u r at_ t).
Proof. unfold shed_for. destruct (decide (r = Student)); [done|apply shed_student_runs]. Qed.
Lemma staff_for_runs u r t :
  (if at_least r Teacher then mret () else shed_staff u) t = Ok ((), staff_for u r t).
Proof. unfold staff_for. destruct (at_least r Teacher); [done|apply shed_staff_runs]. Qed.

Lemma cascade_ok u r others at_ t out t' :
  cascade_tx u r others at_ t = Ok (out, t') →
  ∃ a0, users t !! u = Some a0 ∧ out.1 = with_role r a0 ∧ t' = after_cascade u r a0 at_ t
    ∧ (role a0 = Admin → r ≠ Admin → others ≠ 0).
Proof.
  unfold cascade_tx. intros (a & t1 & (a0 & Ha & -> & -> & Hf)%write_role_ok & E)%tx_bind_ok.
  exists a0. unfold after_cascade. generalize dependent (with_account u r a0 t). intros t1 E.
  apply tx_bind_ok in E as ([] & t2 & E2 & E). rewrite shed_for_runs in E2. injection E2 as <-.
  generalize dependent (shed_for u r at_ t1). intros t2 E. unfold seated_for.
  destruct (decide (r = Parent)).
  - destruct (become_parent_runs u at_ t2) as [told_ Etold].
    apply tx_bind_ok in E as (told' & t3 & E3 & E). rewrite Etold in E3. injection E3 as <- <-.
    injection E as <- <-. done.
  - apply tx_bind_ok in E as ([] & t3 & E3 & E). rewrite shed_parent_runs in E3. injection E3 as <-.
    apply tx_bind_ok in E as ([] & t4 & E4 & E). rewrite staff_for_runs in E4. injection E4 as <-.
    injection E as <- <-. done.
Qed.

(** What each leaves alone. *)
Lemma account_same u r a t :
  stints (with_account u r a t) = stints t ∧ enrollments (with_account u r a t) = enrollments t
  ∧ memberships (with_account u r a t) = memberships t
  ∧ parent_links (elsewhere (with_account u r a t)) = parent_links (elsewhere t)
  ∧ users (with_account u r a t) = <[u := with_role r a]> (users t).
Proof. done. Qed.

Lemma seated_same u r at_ t :
  users (seated_for u r at_ t) = users t ∧ stints (seated_for u r at_ t) = stints t
  ∧ enrollments (seated_for u r at_ t) = enrollments t ∧ memberships (seated_for u r at_ t) = memberships t
  ∧ parent_links (elsewhere (seated_for u r at_ t))
    = (if decide (r = Parent) then parent_links (elsewhere t) else filter (λ p, p.1 ≠ u) (parent_links (elsewhere t))).
Proof. unfold seated_for, staff_for. destruct (decide (r = Parent)); [done|]. by destruct (at_least r Teacher). Qed.

Lemma shed_same u at_ t :
  users (shed u at_ t) = users t ∧ stints (shed u at_ t) = end_stint u at_ <$> stints t
  ∧ parent_links (elsewhere (shed u at_ t)) = filter (λ p, p.2 ≠ u) (parent_links (elsewhere t)).
Proof. done. Qed.

Lemma shed_for_moves u r a at_ t : ok t → moved t (shed_for u r at_ (with_account u r a t)).
Proof.
  intros Hok. unfold shed_for. destruct (decide (r = Student)); [apply account_moves; auto|].
  rewrite shed_account. pose proof (shed_moves u at_ t Hok) as Hs. eapply moved_trans; [exact Hs|].
  apply account_moves; [apply Hs|]. right. apply rowless_shed.
Qed.
(** The seats of a fallen account. *)
Lemma free_seats_moves u at_ t : ok t → moved t (set_elsewhere (free_seats u at_) t).
Proof.
  intros Hok. apply moved_elsewhere; [done|].
  apply (seats_sweep _ _ _ u (freed u at_ (elsewhere t))); [by intros p []|apply Hok].
Qed.
Lemma seated_for_moves u r at_ t : ok t → moved t (seated_for u r at_ t).
Proof.
  intros Hok. unfold seated_for, staff_for. destruct (decide (r = Parent)).
  - pose proof (free_seats_moves u at_ t Hok) as H2. eapply moved_trans; [exact H2|].
    apply moved_beside; [apply H2|done].
  - pose proof (moved_beside (set_parent_links (filter (λ p, p.1 ≠ u))) t Hok ltac:(done)) as H2.
    destruct (at_least r Teacher); [done|]. eapply moved_trans; [exact H2|]. by apply disrobed_moves, H2.
Qed.

Lemma cascade_moves u r others at_ : tx_moves ok no_new_gap (cascade_tx u r others at_).
Proof.
  intros t out t' Hok (a0 & _ & _ & -> & _)%cascade_ok. change (moved t (after_cascade u r a0 at_ t)).
  pose proof (shed_for_moves u r a0 at_ t Hok) as H1. eapply moved_trans; [exact H1|]. by apply seated_for_moves, H1.
Qed.
