(* ===== verification/CatalogProofs.v ===== *)
(** * The catalog, the years and the blueprints keep the rosters

    What these components write is what sections and instances point at: a row
    goes only when nothing points at it, a name or a template is single, and a
    content patch moves no count. *)

From S2P Require Import Prelude Text Errors Effects Uuid Validate Modules Tally Gates EventForms Seats Roster Roles Catalog Years Blueprints RosterProofs RoleProofs.
Open Scope Z_scope.

Abbreviation roster_moves := (tx_moves ok no_new_gap).

(** ** Accounts *)

Lemma account_born t i a : ok t → users t !! i = None → moved t (set_users <[i := a]> t).
Proof.
  intros Hok Hi. apply moved_same; [|done..]. destruct Hok as [Hb _].
  assert (∀ v, is_student t v → is_student (set_users <[i := a]> t) v) as Hst.
  { intros v Hv. unfold is_student. cbn. rewrite lookup_insert_ne; [done|]. intros <-.
    unfold is_student in Hv. by rewrite Hi in Hv. }
  pose proof (b_live _ Hb) as Hlive. pose proof (b_enrolled _ Hb) as Henr. pose proof (b_joined _ Hb) as Hjoin.
  destruct Hb; split; try assumption.
  - intros j s Hj Hl. eapply Hst, Hlive; done.
  - intros j v e He. destruct (Henr _ _ _ He). auto.
  - intros j v e He. destruct (Hjoin _ _ _ He). auto.
  - cbn. rewrite dom_insert_L. eapply events_grow; [..|done]; set_solver.
Qed.

(** ** Courses and templates *)

Lemma base_course_put t i c c' :
  base t → courses t !! i = Some c → taught_count c' = taught_count c →
  course_membership_count c' = course_membership_count c → base (set_courses_ <[i := c']> t).
Proof.
  intros Hok Hi Ht Hm. assert (dom (<[i := c']> (courses t)) = dom (courses t)) as Hd.
  { rewrite dom_insert_L. apply elem_of_dom_2 in Hi. set_solver. }
  clauses Hok; rewrite ?(same_column _ _ _ _ _ Hi Ht), ?(same_column _ _ _ _ _ Hi Hm), ?Hd; done.
Qed.

Lemma base_course_new t i c :
  base t → courses t !! i = None → taught_count c = 0 → course_membership_count c = 0 →
  base (set_courses_ <[i := c]> t).
Proof.
  intros Hok Hi Ht Hm. apply not_elem_of_dom in Hi as Hd. pose proof (b_course _ Hok) as Hc.
  pose proof (b_joined _ Hok) as Hj.
  clauses Hok; rewrite ?fmap_insert, ?dom_insert_L, ?Ht, ?Hm.
  - apply tallies_born; [|done]. intros j x Hx [= <-]. by apply Hd, (Hc j).
  - apply tallies_born; [|done]. intros [k u] m Hx [= <-]. by destruct (Hj _ _ _ Hx) as [? _].
  - intros j x Hx. apply b_course0 in Hx. set_solver.
  - intros j o Ho. apply b_template0 in Ho. set_solver.
  - intros k u m Hx. destruct (b_joined0 _ _ _ Hx). set_solver.
  - eapply events_grow; [..|done]; set_solver.
Qed.

(** A course that nothing teaches and nobody joined. *)
Lemma untaught t k c :
  base t → courses t !! k = Some c → taught_count c = 0 → ∀ i x, shapes t !! i = Some x → sh_course x ≠ k.
Proof.
  intros Hb Hk Hz i x Hx Hc. assert (0 = tallied course_key (shapes t) k) as Ht.
  { apply (b_taught _ Hb). rewrite lookup_fmap, Hk. simpl. by rewrite Hz. }
  symmetry in Ht. apply (proj1 (tallied_0 _ _ _)) with i x in Ht; [|done]. apply Ht.
  unfold course_key. simpl. by rewrite Hc.
Qed.
Lemma unjoined t k c u m :
  base t → courses t !! k = Some c → course_membership_count c = 0 → memberships t !! (k, u) = Some m → False.
Proof.
  intros Hb Hk Hz Hm. assert (0 = tallied roster_key (memberships t) k) as Ht.
  { apply (b_clubs _ Hb). rewrite lookup_fmap, Hk. simpl. by rewrite Hz. }
  symmetry in Ht. by apply (proj1 (tallied_0 _ _ _)) with (k, u) m in Ht.
Qed.

(** So its sweep finds nothing, and only the row and its templates go. *)
Lemma taught_in_none t k : (∀ i x, shapes t !! i = Some x → sh_course x ≠ k) → taught_in t k = [].
Proof.
  intros Hno. destruct (taught_in t k) as [|i l] eqn:E; [done|]. exfalso.
  assert (i ∈ taught_in t k) as Hi by (rewrite E; by left). unfold taught_in in Hi.
  apply elem_of_scan in Hi as (x & Hx & Hc). simpl in Hc. apply (Hno i (shape x)); [|done].
  by rewrite shape_at, Hx.
Qed.

Definition course_gone (k : uuid) (t : Tables) : Tables :=
  set_courses_ (delete k) (set_offerings (filter (λ p : uuid * Offering, off_course p.2 ≠ k))
    (set_blueprints (fmap (drop_course k)) (set_elsewhere (set_events (fmap (unname_course k))) t))).

Lemma filter_all {K} `{Countable K} {A} (P : K * A → Prop) `{!∀ p, Decision (P p)} (m : gmap K A) :
  (∀ i a, m !! i = Some a → P (i, a)) → filter P m = m.
Proof. intros HP. by apply map_filter_id. Qed.

Lemma set_instances_id f t : f (instances t) = instances t → set_instances f t = t.
Proof. unfold set_instances. intros ->. by destruct t. Qed.
Lemma set_groups_id f t : f (groups t) = groups t → set_groups f t = t.
Proof. unfold set_groups. intros ->. by destruct t. Qed.
Lemma set_memberships_id f t : f (memberships t) = memberships t → set_memberships f t = t.
Proof. unfold set_memberships. intros ->. by destruct t. Qed.

Lemma delete_course_exact k t r t' :
  delete_course_tx k t = Ok (r, t') → ok t →
  ∃ c, courses t !! k = Some c ∧
    if r then taught_count c = 0 ∧ course_membership_count c = 0 ∧ t' = course_gone k t else t' = t.
Proof.
  unfold delete_course_tx. destruct (courses t !! k) as [c|] eqn:Hk; [|done]. intros E [Hb _]. exists c.
  split; [done|]. destruct (taught_count c =? 0) eqn:Ht; simpl in E; [|by injection E as <- <-].
  destruct (course_membership_count c =? 0) eqn:Hm; simpl in E; [|by injection E as <- <-].
  apply Z.eqb_eq in Ht, Hm. pose proof (untaught t k c Hb Hk Ht) as Hno.
  unfold mbind, tx_bind, writes, gets in E. cbn beta iota in E.
  rewrite (taught_in_none (set_elsewhere (set_events (fmap (unname_course k))) t) k Hno) in E.
  set (t1 := set_elsewhere (set_events (fmap (unname_course k))) t) in *.
  assert (∀ i x, instances t1 !! i = Some x → i_course x ≠ k) as Hni.
  { intros i x Hx Hc. apply (Hno i (shape x)); [|done]. by rewrite shape_at, (Hx : instances t !! i = Some x). }
  cbn [sweep_instances] in E. unfold mret, tx_ret in E. cbn beta iota in E. injection E as <- <-.
  split_and!; [done..|]. unfold course_gone.
  rewrite (set_instances_id _ t1) by (apply filter_all; eauto).
  rewrite (set_groups_id _ t1), (set_memberships_id _ t1); [done| |].
  - apply filter_all. intros [k' u] m Hm' Hk'. simpl in Hk'. subst. by eapply unjoined.
  - apply map_eq. intros j. rewrite lookup_update_in. rewrite decide_False; [done|]. unfold classes_with.
    rewrite elem_of_list_to_set, list_elem_of_fmap. intros ([i x] & -> & [Hc Hx]%list_elem_of_filter).
    rewrite elem_of_map_to_list in Hx. by apply (Hni i x).
Qed.

Lemma events_unname_course us gs cs k e :
  events_ok us gs cs e → events_ok us gs (cs ∖ {[k]}) (set_events (fmap (unname_course k)) e).
Proof.
  apply (events_unname us gs cs gs (cs ∖ {[k]}) (λ a, MkAudience (au_kind a) (au_role a) None (au_class a) (au_capacity a))
    (λ a, @bool_decide (au_course a = Some k) (decide_rel eq (au_course a) (Some k)))).
  - intros a []. split; simpl; first [done|by intros []].
  - intros a [Hc ?]. case_bool_decide as E; split; try done. intros c' E'. pose proof (Hc c' E'). set_solver.
Qed.

Lemma course_gone_moves k t c :
  ok t → courses t !! k = Some c → taught_count c = 0 → course_membership_count c = 0 → moved t (course_gone k t).
Proof.
  intros Hok Hk Ht Hm. apply moved_same; [|done..]. destruct Hok as [Hb _]. unfold course_gone.
  pose proof (untaught t k c Hb Hk Ht) as Hno.
  assert (∀ j u m, memberships t !! (j, u) = Some m → j ≠ k) as Hnm.
  { intros j u m Hj ->. by eapply unjoined. }
  clauses Hb; rewrite ?fmap_delete, ?dom_delete_L.
  - by apply tallies_gone.
  - by apply tallies_gone.
  - intros j j' o o' [Hj _]%map_lookup_filter_Some [Hj' _]%map_lookup_filter_Some. by eapply b_one_template0.
  - intros r r' b b'. rewrite !lookup_fmap. intros (b0 & Hr & ->)%fmap_Some (b1 & Hr' & ->)%fmap_Some E.
    exact (b_one_key0 r r' b0 b1 Hr Hr' E).
  - intros j x Hj. pose proof (Hno _ _ Hj). apply b_course0 in Hj. set_solver.
  - intros j x Hj. pose proof (Hno _ _ Hj) as Hne. pose proof (b_offering0 _ _ Hj) as Ho.
    destruct (offerings t !! sh_offering x) as [o|] eqn:Hso; [|done]. injection Ho as Ho.
    rewrite (proj2 (map_lookup_filter_Some _ (offerings t) _ o)); [simpl; by rewrite Ho|]. split; [done|].
    simpl. congruence.
  - intros j o [Ho Hne]%map_lookup_filter_Some. apply b_template0 in Ho. set_solver.
  - intros j x b Hj Hs. destruct (b_source0 _ _ _ Hj Hs) as (r & bp & Hr & <-).
    exists r, (drop_course k bp). by rewrite lookup_fmap, Hr.
  - intros j u m Hj. pose proof (Hnm _ _ _ Hj). destruct (b_joined0 _ _ _ Hj). set_solver.
  - by apply events_unname_course.
Qed.

Lemma delete_course_moves k : roster_moves (delete_course_tx k).
Proof.
  intros t r t' Hok (c & Hk & Hr)%delete_course_exact; [|done]. change (moved t t'). destruct r.
  - destruct Hr as (Ht & Hm & ->). by eapply course_gone_moves.
  - subst. by apply moved_refl.
Qed.

Lemma base_offering_put t i o o' :
  base t → offerings t !! i = Some o → off_course o' = off_course o → off_grade o' = off_grade o →
  base (set_offerings <[i := o']> t).
Proof.
  intros Hb Hi Hc Hg. assert (∀ j x, <[i := o']> (offerings t) !! j = Some x →
    ∃ y, offerings t !! j = Some y ∧ off_course x = off_course y ∧ off_grade x = off_grade y) as Hback.
  { intros j x [[<- <-]|[_ Hj]]%lookup_insert_Some; eauto. }
  clauses Hb.
  - intros j j' a b (a' & Ha & -> & ->)%Hback (b' & Hb' & -> & ->)%Hback. by eapply b_one_template0.
  - intros j x Hj. pose proof (b_offering0 _ _ Hj) as Ho. rewrite lookup_insert. case_decide as E; [|done].
    rewrite <- E, Hi in Ho. simpl in *. by rewrite Hc.
  - intros j x (y & Hy & -> & _)%Hback. eauto.
Qed.

Lemma base_offering_gone t i :
  base t → (∀ j x, shapes t !! j = Some x → sh_offering x ≠ i) → base (set_offerings (delete i) t).
Proof.
  intros Hb Hno. clauses Hb.
  - intros j j' a b [_ Ha]%lookup_delete_Some [_ Hb']%lookup_delete_Some. by eapply b_one_template0.
  - intros j x Hj. rewrite lookup_delete_ne; [eauto|]. intros ->. by apply (Hno j x).
  - intros j x [_ Hx]%lookup_delete_Some. eauto.
Qed.

(** ** Content *)

Lemma content_moves i f : roster_moves (write_content i f).
Proof.
  intros t x t' Hok E. change (moved t t'). unfold write_content in E.
  destruct (instances t !! i) as [y|] eqn:Hi; [|done]. injection E as _ <-.
  assert (shape <$> <[i := with_content f y]> (instances t) = shape <$> instances t) as Hs
    by by apply (same_column _ _ i y).
  assert (enrollment_count <$> <[i := with_content f y]> (instances t) = enrollment_count <$> instances t) as He
    by by apply (same_column _ _ i y).
  assert (dom (<[i := with_content f y]> (instances t)) = dom (instances t)) as Hd.
  { rewrite dom_insert_L. apply elem_of_dom_2 in Hi. set_solver. }
  apply moved_same; [|exact Hs|done..]. destruct Hok as [Hb _]. clauses Hb; rewrite ?Hs, ?He, ?Hd; done.
Qed.

(** ** Years *)

Lemma base_year_put t i y y' :
  base t → years t !! i = Some y → class_count y' = class_count y → base (set_years <[i := y']> t).
Proof.
  intros Hb Hi Hc. assert (dom (<[i := y']> (years t)) = dom (years t)) as Hd.
  { rewrite dom_insert_L. apply elem_of_dom_2 in Hi. set_solver. }
  clauses Hb; rewrite ?(same_column _ _ _ _ _ Hi Hc), ?Hd; done.
Qed.

Lemma base_year_new t i y :
  base t → years t !! i = None → class_count y = 0 → base (set_years <[i := y]> t).
Proof.
  intros Hb Hi Hz. apply not_elem_of_dom in Hi as Hd. pose proof (b_year _ Hb) as Hy.
  clauses Hb; rewrite ?fmap_insert, ?dom_insert_L, ?Hz.
  - apply tallies_born; [|done]. intros c o Hc [= ->]. by apply Hd, (Hy c).
  - intros c o Hc. apply b_year0 in Hc. set_solver.
Qed.

Lemma base_year_gone t i y :
  base t → years t !! i = Some y → class_count y = 0 → base (set_years (delete i) t).
Proof.
  intros Hb Hi Hz. assert (0 = tallied year_key (year <$> groups t) i) as Ht.
  { apply (b_years _ Hb). rewrite lookup_fmap, Hi. simpl. by rewrite Hz. }
  symmetry in Ht. pose proof (proj1 (tallied_0 _ _ _) Ht) as Hno.
  clauses Hb; rewrite ?fmap_delete, ?dom_delete_L.
  - by apply tallies_gone.
  - intros c o Hc. pose proof (Hno _ _ Hc) as Hne. apply b_year0 in Hc. unfold year_key in Hne. set_solver.
Qed.

(** ** Blueprints *)

Lemma base_blueprint_put t r b b' :
  base t → blueprints t !! r = Some b → b_key b' = b_key b → base (set_blueprints <[r := b']> t).
Proof.
  intros Hb Hr Hk. assert (∀ r' x, <[r := b']> (blueprints t) !! r' = Some x →
    ∃ y, blueprints t !! r' = Some y ∧ b_key x = b_key y) as Hback.
  { intros r' x [[<- <-]|[_ Hx]]%lookup_insert_Some; eauto. }
  clauses Hb.
  - intros r1 r2 x y (x' & Hx & ->)%Hback (y' & Hy & ->)%Hback. by apply b_one_key0.
  - intros j x k Hx Hs. destruct (b_source0 _ _ _ Hx Hs) as (r1 & bp & Hr1 & <-).
    destruct (decide (r1 = r)) as [->|Hne].
    + exists r, b'. rewrite lookup_insert_eq. split; [done|]. rewrite Hr in Hr1. by injection Hr1 as <-.
    + exists r1, bp. by rewrite lookup_insert_ne.
Qed.

Lemma base_blueprint_new t r b :
  base t → blueprints t !! r = None → ¬ map_Exists (λ _ x, b_key x = b_key b) (blueprints t) →
  base (set_blueprints <[r := b]> t).
Proof.
  intros Hb Hr Hk. clauses Hb.
  - intros r1 r2 x y [[<- <-]|[_ Hx]]%lookup_insert_Some [[<- <-]|[_ Hy]]%lookup_insert_Some; try done;
      intros E; [destruct Hk; by exists r2, y|destruct Hk; by exists r1, x|by eapply b_one_key0].
  - intros j x k Hx Hs. destruct (b_source0 _ _ _ Hx Hs) as (r1 & bp & Hr1 & <-). exists r1, bp.
    rewrite lookup_insert_ne; [done|]. congruence.
Qed.

Lemma base_blueprint_gone t r b :
  base t → blueprints t !! r = Some b → ¬ map_Exists (λ _ x, i_source x = Some (b_key b)) (instances t) →
  base (set_blueprints (delete r) t).
Proof.
  intros Hb Hr Hno. assert (∀ j x, shapes t !! j = Some x → sh_source x ≠ Some (b_key b)) as Hfree.
  { intros j x. rewrite shape_at. intros (y & Hy & ->)%fmap_Some Hs. apply Hno. by exists j, y. }
  clauses Hb.
  - intros r1 r2 x y [_ Hx]%lookup_delete_Some [_ Hy]%lookup_delete_Some. by apply b_one_key0.
  - intros j x k Hx Hs. pose proof (Hfree _ _ Hx) as Hne. destruct (b_source0 _ _ _ Hx Hs) as (r1 & bp & Hr1 & <-).
    exists r1, bp. rewrite lookup_delete_ne; [done|]. intros <-. rewrite Hr in Hr1. by injection Hr1 as ->.
Qed.
