(* ===== verification/EventKeeps.v ===== *)
(** * What every request of the events keeps

    Each write of the events' tables keeps the invariant of the school
    ([RosterProofs.ok]) and opens no gap in its rosters, and each moves the seats
    of an event, its capacity and its marks in one way only. Then one walk over the
    routes of [EventRoutes], for any invariant and any relation the statements
    keep; its instances are the invariant of the school, and the bound a capacity
    puts on the seats of an event. *)

From S2P Require Import Prelude Text Errors Effects Answers Uuid Validate Modules Appointments Tally Gates EventForms Seats Roster Events EventRoutes Roles Catalog RosterProofs RoleProofs CatalogProofs.

Open Scope Z_scope.

(** What a patch may write. *)
Record patch_ok (p : EventPatch) : Prop := {
  pa_title : ∀ s, ep_title p = Some s → event_title_try_new s = Ok s;
  pa_description : ∀ s, ep_description p = Some s → event_description_try_new s = Ok s;
  pa_audience : ∀ a, ep_audience p = Some a → payload_ok a;
}.

(** ** The statements, as far as they committed *)

Lemma audience_fk_names t a : audience_fk t a = true → names_only (dom (groups t)) (dom (courses t)) a.
Proof.
  unfold audience_fk, names_only. intros [Hk Hc]%andb_true_iff.
  split; intros x Hx; rewrite Hx in *; by apply has_spec.
Qed.

Lemma insert_event_ok i ev t out t' :
  insert_event_tx i ev t = Ok (out, t') →
  out = (i, ev) ∧ event_of i t = None ∧ ev_creator ev ∈ dom (users t)
  ∧ names_only (dom (groups t)) (dom (courses t)) (ev_audience ev) ∧ t' = set_elsewhere (set_events <[i := ev]>) t.
Proof.
  unfold insert_event_tx. destruct (has (events (elsewhere t)) i) eqn:Hi; [done|].
  destruct (has (users t) (ev_creator ev)) eqn:Hu; [|done].
  destruct (audience_fk t (ev_audience ev)) eqn:Ha; [|done]. simpl. intros [= <- <-].
  split_and!; [done|by apply has_false|by apply has_spec|by apply audience_fk_names..|done].
Qed.

Lemma update_event_ok i p t ev' t' :
  update_event_tx i p t = Ok (ev', t') →
  ∃ ev, event_of i t = Some ev ∧ ev' = with_patch p ev ∧
    (t' = t ∧ writes_nothing p = true ∨
     t' = set_elsewhere (set_events <[i := ev']>) t
     ∧ (moves_schedule p = true → check_time_range (ev_starts_at ev') (ev_ends_at ev') = Ok ())
     ∧ (∀ a, ep_audience p = Some a → names_only (dom (groups t)) (dom (courses t)) a)).
Proof.
  unfold update_event_tx. destruct (writes_nothing p) eqn:Hw.
  - destruct (event_of i t) as [ev|]; [|done]. intros [= <- <-]. exists ev.
    split_and!; [done| |by left]. unfold writes_nothing, moves_schedule in Hw. destruct p as [a b c d e].
    destruct a, b, c, d, e; try done. by destruct ev.
  - destruct (event_of i t) as [ev|] eqn:Hev; [|by destruct (moves_schedule p)].
    destruct (moves_schedule p) eqn:Hm; simpl;
      [destruct (check_time_range _ _) as [[]|] eqn:Hr; simpl; [|done]|];
      (destruct (ep_audience p) as [a|] eqn:Ha; simpl; [destruct (audience_fk t a) eqn:Hf; simpl; [|done]|]);
      intros [= <- <-]; exists ev; (split_and!; [done..|right]); (split_and!; [done|done|]);
      intros a' [= <-]; by apply audience_fk_names.
Qed.

Lemma claim_seat_ok i u by_ at_ t v t' :
  claim_seat_tx i u by_ at_ t = Ok (v, t') →
  match v with
  | Effects.Made r =>
      r = MkRegistration by_ at_ ∧ seat_of i u t = None ∧ by_ ∈ dom (users t)
      ∧ (∃ a, users t !! u = Some a ∧ role a ≠ Parent)
      ∧ (∃ ev, event_of i t = Some ev ∧ ∀ n, au_capacity (ev_audience ev) = Some n → registration_count ev < n)
      ∧ t' = set_elsewhere (λ e, set_registrations <[(i, u) := r]> (set_events (alter (on_registrations bumped) i) e)) t
  | Effects.Duplicate => is_Some (seat_of i u t) ∧ t' = t
  | Full =>
      t' = t ∧ (users t !! u = None ∨ role <$> users t !! u = Some Parent ∨ event_of i t = None
        ∨ ∃ ev n, event_of i t = Some ev ∧ au_capacity (ev_audience ev) = Some n ∧ n ≤ registration_count ev)
  end.
Proof.
  unfold claim_seat_tx. destruct (users t !! u) as [a|] eqn:Hu; simpl; [|intros [= <- <-]; auto].
  case_bool_decide as Hr; simpl; [intros [= <- <-]; rewrite Hr; auto|].
  destruct (event_of i t) as [ev|] eqn:Hev; [|intros [= <- <-]; auto 6].
  destruct (au_capacity (ev_audience ev)) as [n|] eqn:Hcap; simpl.
  - destruct (registration_count ev <? n) eqn:Hn; simpl; [|intros [= <- <-]; split; [done|]].
    2: { apply Z.ltb_ge in Hn. do 3 right. by exists ev, n. }
    apply Z.ltb_lt in Hn. destruct (seat_of i u t) eqn:Hs; [by intros [= <- <-]|].
    destruct (has (users t) by_) eqn:Hb; simpl; [|done]. intros [= <- <-].
    split_and!; [done|done|by apply has_spec|by exists a| |done]. exists ev. split; [done|]. rewrite Hcap. by intros m [= <-].
  - destruct (seat_of i u t) eqn:Hs; [by intros [= <- <-]|].
    destruct (has (users t) by_) eqn:Hb; simpl; [|done]. intros [= <- <-].
    split_and!; [done|done|by apply has_spec|by exists a| |done]. exists ev. split; [done|]. by rewrite Hcap.
Qed.

Lemma remove_seat_ok i u t r t' :
  remove_seat_tx i u t = Ok (r, t') →
  r = seat_of i u t ∧
  t' = match r with
       | None => t
       | Some _ => set_elsewhere (λ e, set_registrations (delete (i, u))
                     (set_events (alter (on_registrations given_back) i) e)) t
       end.
Proof. unfold remove_seat_tx, writes. destruct (seat_of i u t) eqn:Hs; by intros [= <- <-]. Qed.

Lemma mark_ok i u status by_ at_ t a t' :
  mark_tx i u status by_ at_ t = Ok (a, t') →
  a = MkAttendance status by_ at_ ∧ is_Some (event_of i t) ∧ u ∈ dom (users t) ∧ by_ ∈ dom (users t)
  ∧ t' = set_elsewhere (set_attendances <[(i, u) := a]>) t.
Proof.
  unfold mark_tx. destruct (event_of i t); [|done].
  destruct (has (users t) u) eqn:Hu; simpl; [|done]. destruct (has (users t) by_) eqn:Hb; simpl; [|done].
  intros [= <- <-]. split_and!; [done|done|by apply has_spec..|done].
Qed.

(** ** The invariant *)

Lemma patched_ok us gs cs p ev :
  patch_ok p → event_ok us gs cs ev →
  (moves_schedule p = true → check_time_range (ev_starts_at (with_patch p ev)) (ev_ends_at (with_patch p ev)) = Ok ()) →
  (∀ a, ep_audience p = Some a → names_only gs cs a) → event_ok us gs cs (with_patch p ev).
Proof.
  intros [Ht Hd Ha] ([? ? ? Ho] & Hc & Hn) Hm Hnames. split_and!; [split|done|]; simpl.
  - destruct (ep_title p) as [s|]; [by apply Ht|done].
  - destruct (ep_description p) as [s|]; [by apply Hd|done].
  - destruct (ep_audience p) as [a|]; [by apply Ha|done].
  - destruct (moves_schedule p) eqn:E; [by apply Hm|]. unfold moves_schedule in E.
    destruct (ep_starts_at p), (ep_ends_at p); try done.
  - destruct (ep_audience p) as [a|]; [by apply Hnames|done].
Qed.

Lemma insert_event_moves i ev :
  form_ok ev → registration_count ev = 0 → roster_moves (insert_event_tx i ev).
Proof.
  intros Hf Hz t out t' Hok (_ & Hi & Hc & Hn & ->)%insert_event_ok. apply moved_elsewhere; [done|].
  by apply seats_born; [..|apply Hok].
Qed.

Lemma update_event_moves i p : patch_ok p → roster_moves (update_event_tx i p).
Proof.
  intros Hp t ev' t' Hok (ev & Hev & -> & [[-> _]|(-> & Hm & Hn)])%update_event_ok; [by apply moved_refl|].
  destruct Hok as [Hb Hpu]. pose proof (so_event _ _ _ _ _ _ (b_events _ Hb) i ev Hev) as Hold.
  apply moved_elsewhere; [done|]. eapply seats_put; [exact Hev|done|by apply patched_ok|apply Hb].
Qed.

Lemma delete_event_moves i : roster_moves (delete_event_tx i).
Proof.
  intros t ev t' Hok E. unfold delete_event_tx in E. destruct (event_of i t); [|done]. injection E as _ <-.
  apply moved_elsewhere; [done|]. apply seats_drop, Hok.
Qed.

Lemma claim_seat_moves i u by_ at_ : roster_moves (claim_seat_tx i u by_ at_).
Proof.
  intros t v t' Hok E%claim_seat_ok. destruct v as [r| |].
  - destruct E as (-> & Hs & Hb & (a & Ha & _) & (ev & Hev & _) & ->). apply moved_elsewhere; [done|].
    apply seats_claim; [done|by apply elem_of_dom|by apply elem_of_dom|done|apply Hok].
  - destruct E as [-> _]. by apply moved_refl.
  - destruct E as [_ ->]. by apply moved_refl.
Qed.

Lemma remove_seat_moves i u : roster_moves (remove_seat_tx i u).
Proof.
  intros t r t' Hok [-> ->]%remove_seat_ok. destruct (seat_of i u t) as [r|] eqn:Hr; [|by apply moved_refl].
  apply moved_elsewhere; [done|]. eapply seats_free; [exact Hr|apply Hok].
Qed.

Lemma event_mark_moves i u status by_ at_ : roster_moves (mark_tx i u status by_ at_).
Proof.
  intros t a t' Hok (-> & Hi & Hu & Hb & ->)%mark_ok. apply moved_elsewhere; [done|].
  apply seats_mark; [by apply elem_of_dom|done|done|apply Hok].
Qed.

Lemma remove_mark_moves i u : roster_moves (remove_mark_tx i u).
Proof. intros t a t' Hok [= _ <-]. apply moved_elsewhere; [done|]. apply seats_unmark, Hok. Qed.

(** ** The requests *)

Inductive EventRequest : Type :=
  | Publish (u : User) (req : CreateEvent)
  | Edit (u : User) (i : uuid) (req : UpdateEvent)
  | Cancel (u : User) (i : uuid)
  | MarkOne (u : User) (i : uuid) (allowed : list str) (status : str) (user_id : option str)
  | ClearMark (u : User) (i : uuid) (target : str)
  | ReadRoll (u : User) (i : uuid) (limit offset : option Z)
  | ReadRoster (u : User) (i : uuid) (limit offset : option Z)
  | ReadList (w : WindowParams) (limit offset : option Z)
  | SignUp (u : User) (i : uuid) (user_id : option str)
  | SignOff (u : User) (i : uuid) (target : str).

Definition ended {A} (m : io Tables A) : io Tables () := _ ← m; mret ().

Definition perform_event `{UuidText} (q : EventRequest) : io Tables () :=
  match q with
  | Publish u req => ended (create_event u req)
  | Edit u i req => ended (update_event u i req)
  | Cancel u i => ended (delete_event u i)
  | MarkOne u i al st tg => ended (mark_attendance u i al st tg)
  | ClearMark u i tg => remove_attendance u i tg
  | ReadRoll u i l o => ended (list_attendance u i l o)
  | ReadRoster u i l o => ended (roster u i l o)
  | ReadList w l o => ended (list_events w l o)
  | SignUp u i tg => ended (register_user u i tg)
  | SignOff u i tg => unregister u i tg
  end.

(** ** The walk *)

Definition dto_capacity (d : AudienceDto) : option Z :=
  match d with DtoRegistration n => n | _ => None end.

Section Walk.
Context `{UuidText}.
Context (I : Tables → Prop) (R : Tables → Tables → Prop) `{!PreOrder R}.
Context (publishing : Prop) (recap : uuid → option (option Z) → Prop).
(** What the statements keep: a publication when there is one, and an edit whose
    audience, if it carries one, has a capacity the edits may give. *)
Context (Hinsert : publishing → ∀ i ev, form_ok ev → registration_count ev = 0 → tx_moves I R (insert_event_tx i ev)).
Context (Hupdate : ∀ i p, patch_ok p → recap i (au_capacity <$> ep_audience p) → tx_moves I R (update_event_tx i p)).
Context (Hdelete : ∀ i, tx_moves I R (delete_event_tx i)).
Context (Hclaim : ∀ i u by_ at_, tx_moves I R (claim_seat_tx i u by_ at_)).
Context (Hfree : ∀ i u, tx_moves I R (remove_seat_tx i u)).
Context (Hmark : ∀ i u st by_ at_, tx_moves I R (mark_tx i u st by_ at_)).
Context (Hunmark : ∀ i u, tx_moves I R (remove_mark_tx i u)).
Set Default Proof Using "All".

Definition admitted (q : EventRequest) : Prop :=
  match q with
  | Publish _ _ => publishing
  | Edit _ i req => recap i (dto_capacity <$> ue_audience req)
  | _ => True
  end.

Lemma event_or_404_answers i : answers I R (event_or_404 i) (λ _, True).
Proof. unfold event_or_404. answer_walk. Qed.
Lemma capacity_answers ev : answers I R (registration_capacity ev) (λ _, True).
Proof. unfold registration_capacity. answer_walk. Qed.
(** A validator gives back the text it was given. *)
Lemma title_kept s s' : event_title_try_new s = Ok s' → event_title_try_new s' = Ok s'.
Proof. unfold event_title_try_new. intros E. apply bind_ok in E as ([] & E & [= ->]). by rewrite E. Qed.
Lemma description_kept s s' : event_description_try_new s = Ok s' → event_description_try_new s' = Ok s'.
Proof. unfold event_description_try_new. intros E. apply bind_ok in E as ([] & E & [= ->]). by rewrite E. Qed.

Lemma into_domain_answers d :
  answers I R (into_domain d) (λ a, payload_ok a ∧ au_capacity a = dto_capacity d).
Proof.
  unfold into_domain. destruct d; simpl.
  - apply answers_ret; [apply _|]. split; [|done]. split; simpl; first [done|by intros []].
  - eapply answers_bind; [apply _|apply checked_answers; apply _|]. intros r _. apply answers_ret; [apply _|].
    split; [|done]. split; simpl; first [done|by intros []].
  - answer_walk. split; [|done]. split; simpl; first [done|by intros []].
  - answer_walk. split; [|done]. split; simpl; first [done|by intros []].
  - destruct capacity as [n|]; [destruct (n <? 1) eqn:Hn|]; answer_walk.
    + split; [|done]. split; simpl; try (by intros []). intros m [= <-]. split; [done|lia].
    + split; [|done]. split; simpl; first [done|by intros []].
Qed.

Lemma create_event_answers u req : publishing → answers I R (create_event u req) (λ _, True).
Proof.
  intros Hp. unfold create_event, insert_event. answer_walk.
  eapply answers_bind; [apply _|apply checked_answers; apply _|]. intros title Ht%title_kept.
  eapply answers_bind; [apply _|apply checked_answers; apply _|]. intros text Hd%description_kept.
  eapply (answers_bind _ _ _ _ payload_ok).
  { case_match; [|apply answers_ret; [apply _|]; split; simpl; first [done|by intros []]].
    eapply answers_weaken; [apply _|apply into_domain_answers|]. by intros ? []. }
  intros aud Haud. do 2 (eapply answers_bind; [apply _|apply not_past_answers; apply _|]; intros []  _).
  eapply answers_bind; [apply _|apply answers_lift; apply _|]. intros [] Hr.
  answer_walk. apply answers_atomic; [apply _|]. by apply Hinsert.
Qed.

Lemma update_event_answers u i req : recap i (dto_capacity <$> ue_audience req) → answers I R (update_event u i req) (λ _, True).
Proof.
  intros Hcap. unfold update_event, update. answer_walk.
  eapply answers_bind; [apply _|apply event_or_404_answers|]. intros ev _. answer_walk.
  eapply answers_bind; [apply _|apply checked_opt_answers; apply _|]. intros title Ht.
  eapply answers_bind; [apply _|apply checked_opt_answers; apply _|]. intros text Hd.
  eapply (answers_bind _ _ _ _ (λ a : option EventAudience,
    (∀ b, a = Some b → payload_ok b) ∧ au_capacity <$> a = dto_capacity <$> ue_audience req)).
  { destruct (ue_audience req) as [d|]; [|by apply answers_ret; [apply _|]].
    eapply answers_bind; [apply _|apply into_domain_answers|]. intros aud [Haud Hc]. apply answers_ret; [apply _|].
    split; [by intros ? [= <-]|]. simpl. by rewrite Hc. }
  intros aud [Haud Hc]. do 2 (eapply (answers_bind _ _ _ _ (λ _, True));
    [case_match; [apply not_past_answers; apply _|by apply answers_ret; [apply _|]]|intros [] _]).
  answer_walk. apply answers_atomic; [apply _|]. apply Hupdate; [|simpl; by rewrite Hc]. split; simpl; [..|done].
  - intros s E. destruct (Ht s E) as (s0 & _ & E0). by eapply title_kept.
  - intros s E. destruct (Hd s E) as (s0 & _ & E0). by eapply description_kept.
Qed.

Lemma register_answers i u by_ : answers I R (register i u by_) (λ _, True).
Proof.
  unfold register, claim_seat. answer_walk.
  eapply answers_bind; [apply _|apply event_or_404_answers|]. intros ev _.
  eapply answers_bind; [apply _|apply capacity_answers|]. intros _ _.
  eapply (answers_bind _ _ _ _ (λ _, True)).
  { answer_walk. by apply answers_atomic. }
  answer_walk.
Qed.

Lemma perform_event_answers q : admitted q → answers I R (perform_event q) (λ _, True).
Proof.
  intros Hq. destruct q; simpl in *; unfold ended;
    try (eapply (answers_bind _ _ _ _ (λ _, True)); [|by intros; apply answers_ret; [apply _|]]).
  - by apply create_event_answers.
  - by apply update_event_answers.
  - unfold delete_event. answer_walk. eapply answers_bind; [apply _|apply event_or_404_answers|]. intros ev _.
    answer_walk. by apply answers_atomic.
  - unfold mark_attendance, mark. answer_walk. eapply answers_bind; [apply _|apply event_or_404_answers|].
    intros ev _. eapply answers_bind; [apply _|apply (checked_answers _ _ (λ s, attendance_status_try_new s allowed)); apply _|].
    answer_walk. by apply answers_atomic.
  - unfold remove_attendance. answer_walk. eapply (answers_bind _ _ _ _ (λ _, True)); [by apply answers_atomic|].
    answer_walk.
  - unfold list_attendance, paged_list. answer_walk. eapply answers_bind; [apply _|apply event_or_404_answers|].
    answer_walk.
  - unfold roster. answer_walk. eapply answers_bind; [apply _|apply event_or_404_answers|]. answer_walk.
  - unfold list_events, paged_list. answer_walk.
  - unfold register_user. answer_walk. eapply answers_bind; [apply _|apply event_or_404_answers|]. intros ev _.
    eapply answers_bind; [apply _|apply capacity_answers|]. answer_walk. apply register_answers.
  - unfold unregister. answer_walk. eapply answers_bind; [apply _|apply event_or_404_answers|]. intros ev _.
    eapply answers_bind; [apply _|apply capacity_answers|]. intros _ _.
    eapply (answers_bind _ _ _ _ (λ _, True)); [case_match; answer_walk|]. intros _ _.
    eapply (answers_bind _ _ _ _ (λ _, True)); [by apply answers_atomic|]. answer_walk.
Qed.
End Walk.

(** ** What a capacity bounds *)

Definition seats_taken (i : uuid) (t : Tables) : Z := tallied roster_key (registrations (elsewhere t)) i.

(** The event, while it stands, has at most [c] seats to give. *)
Definition capped (c : Z) (i : uuid) (t : Tables) : Prop :=
  ∀ ev, event_of i t = Some ev → ∃ n, au_capacity (ev_audience ev) = Some n ∧ n ≤ c.

Definition within (c : Z) (i : uuid) (t t' : Tables) : Prop :=
  capped c i t → capped c i t' ∧ seats_taken i t' ≤ Z.max (seats_taken i t) c.
#[export] Instance within_pre c i : PreOrder (within c i).
Proof.
  split; [intros t Ht; split; [done|lia]|]. intros t1 t2 t3 H1 H2 Ht.
  destruct (H1 Ht) as [Ht2 ?]. destruct (H2 Ht2). split; [done|lia].
Qed.

Lemma count_is_seats t i ev : ok t → event_of i t = Some ev → registration_count ev = seats_taken i t.
Proof.
  intros [Hb _] Hev. apply (so_seats _ _ _ _ _ _ (b_events _ Hb) i). rewrite lookup_fmap. unfold event_of in Hev.
  by rewrite Hev.
Qed.

Lemma seats_nonneg i t : 0 ≤ seats_taken i t.
Proof. apply tallied_nonneg. Qed.

(** The seats stay, and the capacity of the event with them. *)
Lemma within_quiet c i t t' :
  seats_taken i t' ≤ seats_taken i t →
  (∀ ev', event_of i t' = Some ev' → ∃ ev, event_of i t = Some ev ∧
     au_capacity (ev_audience ev') = au_capacity (ev_audience ev)) → within c i t t'.
Proof.
  intros Hs Hev Hc. split; [|lia]. intros ev' H'. destruct (Hev ev' H') as (ev & Hev0 & ->). by apply Hc.
Qed.

Lemma capacity_of_counted f j i t ev' :
  event_of i (set_elsewhere (λ e, set_events (alter (on_registrations f) j) e) t) = Some ev' →
  ∃ ev, event_of i t = Some ev ∧ au_capacity (ev_audience ev') = au_capacity (ev_audience ev).
Proof.
  unfold event_of. cbn. rewrite lookup_alter. case_decide as E; [subst|eauto].
  intros (ev & Hev & ->)%fmap_Some. by exists ev.
Qed.

Section Capacity.
Context (c : Z) (i : uuid).

Lemma update_within j p :
  patch_ok p → (j = i → ∀ x, au_capacity <$> ep_audience p = Some x → ∃ n, x = Some n ∧ n ≤ c) →
  tx_moves ok (within c i) (update_event_tx j p).
Proof.
  intros Hp Hcap t ev' t' Hok E. split; [by eapply update_event_moves|].
  apply update_event_ok in E as (ev & Hev & -> & [[-> _]|(-> & _ & _)]); [reflexivity|].
  intros Hc. split; [|unfold seats_taken; cbn; lia]. intros ev'. unfold event_of. cbn. rewrite lookup_insert.
  case_decide as E; [|by apply Hc]. intros [= <-]. subst. simpl. destruct (ep_audience p) as [a|]; simpl.
  - by destruct (Hcap eq_refl _ eq_refl) as (n & -> & ?); eauto.
  - by apply Hc.
Qed.

Lemma delete_within j : tx_moves ok (within c i) (delete_event_tx j).
Proof.
  intros t ev t' Hok E. split; [by eapply delete_event_moves|].
  unfold delete_event_tx in E. destruct (event_of j t); [|done]. injection E as _ <-. apply within_quiet.
  - unfold seats_taken. cbn. unfold off_event.
    rewrite (tallied_sweep roster_key (λ p : (uuid * uuid) * Registration, p.1.1 = j)).
    pose proof (count_nonneg (λ p : (uuid * uuid) * Registration, roster_key p = Some i ∧ p.1.1 = j)
      (registrations (elsewhere t))). lia.
  - intros ev'. unfold event_of. cbn. intros [_ Hev]%lookup_delete_Some. eauto.
Qed.

Lemma claim_within j u by_ at_ : tx_moves ok (within c i) (claim_seat_tx j u by_ at_).
Proof.
  intros t v t' Hok E. split; [by eapply claim_seat_moves|]. apply claim_seat_ok in E. destruct v as [r| |].
  2: destruct E as [-> _]; reflexivity.
  2: destruct E as [_ ->]; reflexivity.
  destruct E as (-> & Hs & _ & _ & (ev & Hev & Hroom) & ->). intros Hc. split.
  - intros ev' H'. apply (capacity_of_counted bumped j i t) in H' as (ev0 & Hev0 & ->). by apply Hc.
  - unfold seats_taken at 1. cbn. rewrite tallied_insert by exact Hs. fold (seats_taken i t). unfold roster_key. simpl.
    case_decide as Eij; [|lia]. injection Eij as ->. destruct (Hc ev Hev) as (n & Hn & ?).
    pose proof (Hroom n Hn). rewrite (count_is_seats t i ev Hok Hev) in *. lia.
Qed.

Lemma free_within j u : tx_moves ok (within c i) (remove_seat_tx j u).
Proof.
  intros t r t' Hok E. split; [by eapply remove_seat_moves|]. apply remove_seat_ok in E as [-> ->].
  destruct (seat_of j u t) as [r|] eqn:Hs; [|reflexivity]. apply within_quiet.
  - unfold seats_taken. cbn. rewrite (tallied_delete roster_key _ (j, u) r) by exact Hs. case_decide; lia.
  - intros ev' H'. by apply (capacity_of_counted given_back j i t) in H'.
Qed.

Lemma mark_within j u st by_ at_ : tx_moves ok (within c i) (mark_tx j u st by_ at_).
Proof.
  intros t a t' Hok E. split; [by eapply event_mark_moves|]. apply mark_ok in E as (-> & _ & _ & _ & ->).
  apply within_quiet; [unfold seats_taken; cbn; lia|]. unfold event_of. cbn. eauto.
Qed.
Lemma unmark_within j u : tx_moves ok (within c i) (remove_mark_tx j u).
Proof.
  intros t a t' Hok E. split; [by eapply remove_mark_moves|]. injection E as _ <-.
  apply within_quiet; [unfold seats_taken; cbn; lia|]. unfold event_of. cbn. eauto.
Qed.
End Capacity.

(** ** The theorems *)

(** An edit of the event that keeps its capacity at [c] or less, if it sets an
    audience at all; publishing is about another event. *)
Definition recaps_within (c : Z) (i j : uuid) (cap : option (option Z)) : Prop :=
  j = i → ∀ x, cap = Some x → ∃ n, x = Some n ∧ n ≤ c.

Section Kept.
Context `{UuidText}.

(** C10. Whoever calls a route of the events, with whatever body, and whatever the
    others commit between two statements of the call as long as they keep it too:
    the count of every event stays the number of its seats, every seat and every
    mark is of an event and of accounts that are there, every event's audience
    carries the payload of its kind alone and names a course or a section that is
    there, its list has at least a seat, its title and text pass their validators
    and its ends stay in order; and nothing of the rosters is lost either. *)
Theorem events_keep q : outline ok no_new_gap no_new_gap (λ _, True) (perform_event q) anything.
Proof.
  apply (outline_weaken ok no_new_gap no_new_gap (λ _, True) (λ _, True) _
    (λ r _, match r with Ok _ => True | Err _ => True end)); [done..|].
  apply (perform_event_answers ok no_new_gap True (λ _ _, True));
    eauto using insert_event_moves, delete_event_moves, claim_seat_moves, remove_seat_moves, event_mark_moves, remove_mark_moves.
  - intros i p Hp _. by apply update_event_moves.
  - by destruct q.
Qed.

(** C11. A list is never filled past its capacity: while the event's capacity stays
    at [c] or less, no route raises its seats above [c], or above what they were
    when it was lowered under them; the capacity that counts is the one the row
    carries when the seat is taken, whatever the request had read before. *)
Theorem seats_within_capacity c i q :
  admitted False (recaps_within c i) q →
  outline ok (within c i) (within c i) (λ _, True) (perform_event q) anything.
Proof.
  intros Hq. apply (outline_weaken ok (within c i) (within c i) (λ _, True) (λ _, True) _
    (λ r _, match r with Ok _ => True | Err _ => True end)); [done..|].
  apply (perform_event_answers ok (within c i) False (recaps_within c i));
    eauto using update_within, delete_within, claim_within, free_within, mark_within, unmark_within.
  done.
Qed.
End Kept.
