(* ===== verification/EventFacts.v ===== *)
(** * What the events' requests do, exactly

    The freeze of a list is one rule in two spellings; a registration answers for
    every state it may find; whoever may be marked is whoever the report expects,
    once; and the window of the list is the window over a list in memory. *)

From S2P Require Import Prelude Text Errors Effects Uuid Validate Modules Appointments Tally Gates EventForms Seats Roster Events EventRoutes Roles Catalog RosterProofs RoleProofs CatalogProofs EventKeeps.

Open Scope Z_scope.

(** ** The freeze *)

(** What [registration_capacity] answers when its clock reads [at_]. *)
Definition capacity_answer (ev : Event) (at_ : Z) : result AppError (option Z) :=
  if negb (bool_decide (audience_kind ev = KindRegistration)) then Err not_a_list else
  match closes_at ev with
  | Some c => if c <=? at_ then Err list_closed else Ok (au_capacity (ev_audience ev))
  | None => Ok (au_capacity (ev_audience ev))
  end.

Lemma registration_capacity_runs {S} (ev : Event) (w : World S) :
  (registration_capacity ev w).1 = capacity_answer ev (w_clock w (w_step w))
  ∧ w_db (registration_capacity ev w).2 = w_db w ∧ w_env (registration_capacity ev w).2 = w_env w.
Proof.
  unfold registration_capacity, capacity_answer. case_bool_decide; simpl; [|done].
  destruct (closes_at ev) as [c|]; [|done]. unfold now, mbind, io_bind. simpl. by destruct (c <=? _).
Qed.

Lemma frozen_is_closed ev at_ : frozen ev at_ = true ↔ capacity_answer ev at_ = Err list_closed.
Proof.
  unfold frozen, capacity_answer. case_bool_decide; simpl; [|done].
  destruct (closes_at ev) as [c|]; [|done]. by destruct (c <=? at_).
Qed.

Lemma seat_after_free u at_ e i v :
  registrations (free_seats u at_ e) !! (i, v) =
  match registrations e !! (i, v) with
  | Some r => if decide (freed u at_ e (i, v)) then None else Some r
  | None => None
  end.
Proof.
  unfold free_seats. simpl. destruct (registrations e !! (i, v)) as [r|] eqn:Hr.
  - case_decide as Hf.
    + apply map_lookup_filter_None. right. intros r' _ Hn. by apply Hn.
    + by apply map_lookup_filter_Some.
  - apply map_lookup_filter_None. by left.
Qed.

(** C20. A fall to parent frees exactly the seats of that account that
    registration could still hand out: a seat stays when its list had closed, by
    the hour at which [registration_capacity] would have answered so, and every
    other seat of the account goes; nobody else's seat moves, and every count
    stays the number of its seats. The rule the sweep spells in SQL and the one
    the routes decide in Rust are the same one. *)
Theorem fall_frees_what_is_open u others at_ t out t' (w : World Tables) :
  cascade_tx u Parent others at_ t = Ok (out, t') → ok t → w_clock w (w_step w) = at_ →
  ok t' ∧ ∀ i v, seat_of i v t' =
    match seat_of i v t, event_of i t with
    | Some r, Some ev =>
        if decide (v = u ∧ (registration_capacity ev w).1 ≠ Err list_closed) then None else Some r
    | _, _ => None
    end.
Proof.
  intros E Hok Hat. split; [by eapply (cascade_moves u Parent others at_ t out t')|].
  apply cascade_ok in E as (a0 & _ & _ & -> & _). intros i v.
  change (seat_of i v (after_cascade u Parent a0 at_ t)) with (registrations (free_seats u at_ (elsewhere
    (shed_for u Parent at_ (with_account u Parent a0 t)))) !! (i, v)).
  rewrite seat_after_free. change (registrations (elsewhere (shed_for u Parent at_ (with_account u Parent a0 t))))
    with (registrations (elsewhere t)). unfold seat_of.
  destruct (registrations (elsewhere t) !! (i, v)) as [r|] eqn:Hr; [|done].
  destruct (so_held _ _ _ _ _ _ (b_events _ (proj1 Hok)) i v r Hr) as [[ev Hev]%elem_of_dom _].
  unfold event_of. rewrite Hev. apply decide_ext. unfold freed.
  change (events (elsewhere (shed_for u Parent at_ (with_account u Parent a0 t)))) with (events (elsewhere t)).
  simpl. rewrite Hev, (proj1 (registration_capacity_runs ev w)), Hat. pose proof (frozen_is_closed ev at_) as Hf.
  destruct (frozen ev at_); naive_solver.
Qed.

(** ** Who is expected *)


Lemma elem_of_firsts {V} (i u : uuid) (m : gmap (uuid * uuid) V) :
  u ∈@{gset uuid} set_map snd (filter (λ p, p.1 = i) (dom m)) ↔ is_Some (m !! (i, u)).
Proof.
  rewrite elem_of_map. split.
  - intros ([j v] & -> & [<- Hd]%elem_of_filter). by apply elem_of_dom in Hd.
  - intros Hm. exists (i, u). split; [done|]. apply elem_of_filter. split; [done|]. by apply elem_of_dom.
Qed.

Lemma elem_of_list_seats t i u : u ∈ list_seats t i ↔ is_Some (seat_of i u t).
Proof. unfold list_seats. rewrite elem_of_descending. apply elem_of_firsts. Qed.

Lemma elem_of_people_of_course t k u : u ∈ list_users_for_course t k ↔ user_is_in_course t k u = true.
Proof.
  unfold list_users_for_course, people_of_course, user_is_in_course.
  rewrite elem_of_ascending, elem_of_union, !elem_of_list_to_set, !list_elem_of_fmap, orb_true_iff, !bool_decide_eq_true.
  apply Morphisms_Prop.or_iff_morphism.
  - split.
    + intros ([[i v] e] & -> & [Hi He]%list_elem_of_filter). rewrite elem_of_map_to_list in He. simpl in *.
      apply fmap_Some in Hi as (x & Hx & ->). by exists i, x.
    + intros (i & x & Hx & <- & e & He). exists ((i, u), e). split; [done|]. apply list_elem_of_filter.
      rewrite elem_of_map_to_list. split; [|done]. simpl. by rewrite Hx.
  - split.
    + intros ([[j v] m] & -> & [Hj Hm]%list_elem_of_filter). rewrite elem_of_map_to_list in Hm. simpl in *. subst. by eexists.
    + intros [m Hm]. exists ((k, u), m). split; [done|]. apply list_elem_of_filter. by rewrite elem_of_map_to_list.
Qed.

Lemma elem_of_list_for_class t c p :
  p ∈ list_for_class t c ↔ stints t !! p.1 = Some p.2 ∧ st_class p.2 = c ∧ left_at p.2 = None.
Proof.
  unfold list_for_class. rewrite merge_sort_Permutation, list_elem_of_filter. destruct p as [j s]. simpl.
  rewrite elem_of_map_to_list. tauto.
Qed.

Lemma elem_of_by_role t r u : u ∈ list_by_role t r ↔ role <$> users t !! u = Some r.
Proof.
  unfold list_by_role. rewrite elem_of_descending, elem_of_dom, fmap_Some. unfold is_Some.
  setoid_rewrite map_lookup_filter_Some. simpl. naive_solver.
Qed.

(** The point check behind marking and the list behind the report agree: an
    account may be marked at an event exactly when it is on the event's expected
    roster, whatever the audience is and whatever the tables hold. *)
Theorem markable_is_expected t i ev u v :
  user_of u t = Some v → includes t i ev v = true ↔ u ∈ members t i ev.
Proof.
  unfold user_of. intros (a & Ha & ->)%fmap_Some. unfold includes, members. simpl.
  destruct (au_kind (ev_audience ev)).
  - rewrite elem_of_descending. split; [|done]. intros _. by apply elem_of_dom_2 in Ha.
  - rewrite bool_decide_eq_true. destruct (au_role (ev_audience ev)) as [r|];
      [|split; [done|by intros ?%not_elem_of_nil]].
    rewrite elem_of_by_role, Ha. simpl. done.
  - destruct (au_course (ev_audience ev)); [by rewrite elem_of_people_of_course|].
    split; [done|by intros ?%not_elem_of_nil].
  - destruct (au_class (ev_audience ev)) as [c|]; [|split; [done|by intros ?%not_elem_of_nil]].
    rewrite bool_decide_eq_true, list_elem_of_fmap. split.
    + intros (j & s & Hj & <- & Hu & Hl). exists (j, s). by rewrite elem_of_list_for_class.
    + intros ([j s] & -> & Hin). apply elem_of_list_for_class in Hin as (Hj & Hc & Hl). by exists j, s.
  - by rewrite bool_decide_eq_true, elem_of_list_seats.
Qed.

(** ** The report *)

Lemma NoDup_members t i ev : ok t → NoDup (members t i ev).
Proof.
  intros [Hb _]. unfold members, list_seats, list_by_role, list_users_for_course.
  destruct (au_kind (ev_audience ev)); [apply NoDup_descending|..|apply NoDup_descending].
  - destruct (au_role _); [apply NoDup_descending|constructor].
  - destruct (au_course _); [apply NoDup_ascending|constructor].
  - destruct (au_class (ev_audience ev)) as [c|]; [|constructor].
    apply NoDup_fmap_2_strong.
    + intros [j s] [j' s'] (Hj & Hc & Hl)%elem_of_list_for_class (Hj' & Hc' & Hl')%elem_of_list_for_class E. simpl in *.
      assert (j = j') as <- by (eapply (b_one_stint _ Hb c (st_user s)); unfold live; eauto).
      by simplify_eq.
    + unfold list_for_class. rewrite merge_sort_Permutation. apply NoDup_filter, NoDup_map_to_list.
Qed.

Lemma lookup_pairs {A} (f : uuid → option A) us v :
  (v ∉ us → f v = None) → (list_to_map (omap (λ u, pair u <$> f u) us) : gmap uuid A) !! v = f v.
Proof.
  induction us as [|x us IH]; intros Hf; simpl.
  { rewrite lookup_empty. symmetry. apply Hf, not_elem_of_nil. }
  destruct (decide (v = x)) as [->|Hne].
  - destruct (f x) eqn:Hx; simpl; [by rewrite lookup_insert_eq|]. by apply IH.
  - destruct (f x); simpl; [rewrite lookup_insert_ne by done|]; apply IH; intros Hn; apply Hf; by rewrite not_elem_of_cons.
Qed.

Lemma marks_by_user t i v : (list_to_map (list_marks t i) : gmap uuid Attendance) !! v = mark_of i v t.
Proof.
  unfold list_marks. apply (lookup_pairs (λ u, mark_of i u t)). rewrite elem_of_descending, elem_of_firsts.
  intros Hn. by apply eq_None_not_Some.
Qed.

Section Report.
Context `{UuidText}.

(** The who-came report: with nothing written meanwhile, staff reading any page
    of it get that page of one list that names every expected account once, in the
    order of its ids, each with the mark of that event and that account, or with
    none; the total is the number of the expected. *)
Theorem report_names_everyone_once u i limit offset l o ev (w : World Tables) :
  undisturbed w → ok (w_db w) → at_least (get_role u) Teacher = true → resolve_page limit offset = Ok (l, o) →
  event_of i (w_db w) = Some ev →
  ∃ people, NoDup people ∧ Sorted by_key people ∧ (∀ v, v ∈ people ↔ v ∈ members (w_db w) i ev)
    ∧ leads (roster u i limit offset) w (λ r t', t' = w_db w ∧
        r = Ok ((λ v, MkRosterEntry v (at_status <$> mark_of i v t') (at_marked_by <$> mark_of i v t'))
                  <$> paginate people l o, Z.of_nat (length people))).
Proof.
  intros Hw Hok Hrole Hpage Hev. exists (merge_sort by_key (members (w_db w) i ev)). split_and!.
  - rewrite merge_sort_Permutation. by apply NoDup_members.
  - apply Sorted_merge_sort, by_key_total.
  - intros v. by rewrite merge_sort_Permutation.
  - unfold roster, require_teacher, event_or_404. rewrite Hrole. apply leads_lift. rewrite Hpage. apply leads_lift.
    apply (leads_bind _ _ _ (λ r t, r = Ok ev ∧ t = w_db w)); [done| |by intros ? ? []|].
    { apply leads_read; [done|]. intros w1 Hw1 E1. rewrite Hev. by apply leads_done. }
    intros ev' w1 Hw1 [[= ->] E1]. apply leads_read; [done|]. intros w2 Hw2 E2. cbv zeta.
    apply leads_read; [done|]. intros w3 Hw3 E3. rewrite E2, E1 in *. apply leads_done. rewrite E3. split; [done|].
    f_equal. f_equal. apply list_fmap_ext. intros _ v _. unfold roster_entry. by rewrite marks_by_user.
Qed.
End Report.

(** ** A registration *)

Lemma event_or_404_bind {B} i (k : Event → io Tables B) w :
  undisturbed w →
  (event_or_404 i ≫= k) w = match event_of i (w_db w) with
    | Some ev => k ev (tick (w_db w) w)
    | None => (Err NotFound, tick (w_db w) w)
    end.
Proof.
  intros Hw. unfold event_or_404, mbind, io_bind. rewrite atomic_alone by done. simpl.
  by destruct (event_of i (w_db w)).
Qed.

Definition full (ev : Event) : bool :=
  match au_capacity (ev_audience ev) with Some n => n <=? registration_count ev | None => false end.

(** With one seat more. *)
Definition seated (i u : uuid) (seat : Registration) (t : Tables) : Tables :=
  set_elsewhere (λ e, set_registrations <[(i, u) := seat]> (set_events (alter (on_registrations bumped) i) e)) t.

(** What a request that finds [t] answers, its clock reading [at_] at the gate
    and [at'] at the claim. *)
Definition register_answer (i u by_ : uuid) (at_ at' : Z) (t : Tables) : result AppError Registration * Tables :=
  match seat_of i u t, event_of i t with
  | Some seat, _ => (Ok seat, t)
  | None, None => (Err NotFound, t)
  | None, Some ev =>
      match capacity_answer ev at_ with
      | Err e => (Err e, t)
      | Ok _ =>
          if bool_decide (role <$> users t !! u = Some Parent) then (Err fell_to_parent, t)
          else if negb (has (users t) u) || full ev then (Err event_full, t)
          else if negb (has (users t) by_) then (Err fk_violation, t)
          else let seat := MkRegistration by_ at' in (Ok seat, seated i u seat t)
      end
  end.

Lemma claim_seat_cases i u by_ at_ t ev :
  seat_of i u t = None → event_of i t = Some ev →
  claim_seat_tx i u by_ at_ t =
    if bool_decide (role <$> users t !! u = Some Parent) || negb (has (users t) u) || full ev then Ok (Full, t)
    else if negb (has (users t) by_) then Err fk_violation
    else let seat := MkRegistration by_ at_ in Ok (Effects.Made seat, seated i u seat t).
Proof.
  intros Hs Hev. unfold claim_seat_tx, full, has. rewrite Hev, Hs.
  destruct (users t !! u) as [a|] eqn:Hu; simpl; [|done].
  rewrite orb_false_r.
  rewrite (bool_decide_ext (Some (role a) = Some Parent) (role a = Parent)) by (split; congruence).
  case_bool_decide; simpl; [done|]. destruct (au_capacity (ev_audience ev)) as [n|]; [|done].
  rewrite Z.ltb_antisym, negb_involutive. by destruct (n <=? _).
Qed.

(** A registration, with nothing written meanwhile, answers for every state it
    may find: the seat already held, untouched; no event; not a list, or a closed
    one; an account that is a parent now; a list with no seat left; and otherwise a
    seat, which is one row and one more on the event's count and nothing else. *)
Theorem registration_is_exact i u by_ (w : World Tables) :
  undisturbed w →
  ∃ at', leads (register i u by_) w
    (λ r t', (r, t') = register_answer i u by_ (w_clock w (S (S (w_step w)))) at' (w_db w)).
Proof.
  intros Hw. unfold leads, register, register_answer. rewrite atomic_bind_alone by done. cbn [gets].
  destruct (seat_of i u (w_db w)) as [seat|] eqn:Hs; [by exists 0|].
  rewrite event_or_404_bind by done. change (w_db (tick (w_db w) w)) with (w_db w).
  destruct (event_of i (w_db w)) as [ev|] eqn:Hev; [|by exists 0]. set (w2 := tick _ (tick _ w)).
  pose proof (registration_capacity_runs ev w2) as (Hr & Hdb & Henv).
  unfold mbind at 1, io_bind at 1. destruct (registration_capacity ev w2) as [r w3]. simpl in Hr, Hdb, Henv.
  change (w_clock w2 (w_step w2)) with (w_clock w (S (S (w_step w)))) in Hr. rewrite <- Hr.
  assert (undisturbed w3) as Hw3 by (unfold undisturbed; rewrite Henv; exact Hw).
  destruct r as [c|e]; [|exists 0; by rewrite Hdb].
  exists (w_clock w3 (w_step w3)). unfold claim_seat.
  unfold mbind at 1, io_bind at 1. rewrite now_bind, atomic_alone by done.
  change (w_db (tick (w_db w3) w3)) with (w_db w3). rewrite Hdb, (claim_seat_cases _ _ _ _ _ ev Hs Hev).
  destruct (bool_decide (role <$> users (w_db w) !! u = Some Parent)) eqn:Hp; simpl;
    [|destruct (negb (has (users (w_db w)) u) || full ev); simpl;
      [|destruct (negb (has (users (w_db w)) by_)); simpl; by split]].
  - rewrite atomic_bind_alone by done. cbn. rewrite Hev, atomic_bind_alone by done. cbn.
    apply bool_decide_eq_true in Hp as (a & Ha & Hr')%fmap_Some. unfold user_of. rewrite Ha. simpl.
    rewrite bool_decide_true by (simpl; congruence). by split.
  - rewrite atomic_bind_alone by done. cbn. rewrite Hev, atomic_bind_alone by done. cbn.
    apply bool_decide_eq_false in Hp. unfold user_of.
    rewrite bool_decide_false by (intros E; apply Hp; by destruct (users (w_db w) !! u)). by split.
Qed.

(** ** The list *)

Lemma in_window_retained w ev : in_window w ev = retained w ev.
Proof.
  unfold in_window, retained, sql_above, sql_below.
  by destruct (starts_after w), (ev_starts_at ev), (ends_after w), (last_at ev).
Qed.

Lemma opens_before_total : Total opens_before.
Proof.
  intros p q. unfold opens_before. destruct (closes_at p.2) as [a|], (closes_at q.2) as [b|]; auto; [|lia].
  destruct (Z.lt_trichotomy a b) as [?|[->|?]]; [auto| |auto]. destruct (N.le_ge_cases p.1 q.1); auto.
Qed.
Lemma newest_first_total : Total newest_first.
Proof. intros p q. unfold newest_first. lia. Qed.

Lemma filter_every {A} (P : A → Prop) `{!∀ x, Decision (P x)} (xs : list A) : (∀ x, P x) → filter P xs = xs.
Proof. intros HP. induction xs as [|x xs IH]; [done|]. by rewrite filter_cons_True, IH. Qed.

Lemma unwindowed w ev : windowed w = false → retained w ev = true.
Proof. unfold windowed, retained. by destruct (starts_after w), (ends_after w), (starts_before w), (ends_before w). Qed.

(** A page cut by the database is the page the web layer would cut. *)
Lemma sql_window_paginate {A} (rows : list A) limit offset l o :
  resolve_page limit offset = Ok (l, o) → Z.of_nat (length rows) ≤ u64_max → sql_window rows l o = paginate rows l o.
Proof.
  intros Hpage Hlen. assert (0 ≤ o ∧ ∀ n, l = Some n → 0 ≤ n) as [Ho Hl].
  { unfold resolve_page in Hpage. apply bind_ok in Hpage as ([] & H1 & H2).
    destruct (default 0 offset <? 0) eqn:E; [done|]. injection H2 as <- <-. split; [lia|].
    intros n ->. destruct (in_range 1 MAX_PAGE_LIMIT n) eqn:En; [|done]. apply in_range_spec in En. lia. }
  unfold sql_window, paginate, usize_saturating_add.
  set (len := Z.of_nat (length rows)) in *. rewrite (Z.max_l o 0) by lia.
  destruct (Z.le_gt_cases o len) as [Hle|Hgt].
  - rewrite (Z.min_l o len) by lia. destruct l as [n|].
    + rewrite (Z.max_l n 0) by auto. pose proof (Hl n eq_refl).
      destruct (Z.le_gt_cases (o + n) len).
      * rewrite (Z.min_r u64_max), Z.min_l by lia. f_equal. lia.
      * rewrite Z.min_r by lia. rewrite !take_ge; rewrite ?length_drop; [done|lia..].
    + rewrite take_ge; [done|]. rewrite length_drop. lia.
  - rewrite (Z.min_r o len) by lia. rewrite (drop_ge rows (Z.to_nat o)) by lia.
    rewrite (drop_ge rows (Z.to_nat len)) by lia. destruct l; by rewrite ?take_nil.
Qed.

(** The list of events is windowed, counted and cut by the database, and
    answers what the window and the page would over a list in memory: the rows
    that [WindowParams::apply] retains, by schedule and then by id, or newest
    first when there is no window; the slice that [paginate] takes of them; and
    how many there are. *)
Theorem list_is_the_window_of_all w limit offset l o (wd : World Tables) :
  undisturbed wd → resolve_page limit offset = Ok (l, o) → window_validate w = Ok () →
  Z.of_nat (size (events (elsewhere (w_db wd)))) ≤ u64_max →
  ∃ rows, rows ≡ₚ filter (λ p : uuid * Event, retained w p.2 = true) (map_to_list (events (elsewhere (w_db wd))))
    ∧ (if windowed w then Sorted opens_before rows else Sorted newest_first rows)
    ∧ leads (list_events w limit offset) wd (λ r t', t' = w_db wd ∧
        r = Ok (paginate rows l o, Z.of_nat (length rows))).
Proof.
  intros Hw Hpage Hval Hsize. set (t := w_db wd) in *. exists (list_windowed w t).
  assert (list_windowed w t ≡ₚ filter (λ p : uuid * Event, retained w p.2 = true) (map_to_list (events (elsewhere t)))) as Hperm.
  { unfold list_windowed. destruct (windowed w) eqn:Hwin; rewrite merge_sort_Permutation.
    - apply reflexive_eq, list_filter_iff. intros p. by rewrite in_window_retained.
    - rewrite filter_every; [done|]. intros p. by apply unwindowed. }
  assert (Z.of_nat (length (list_windowed w t)) ≤ u64_max) as Hlen.
  { rewrite Hperm. etrans; [|exact Hsize]. rewrite <- length_map_to_list. apply inj_le, length_filter. }
  split_and!; [exact Hperm| |].
  - unfold list_windowed. destruct (windowed w);
      [apply Sorted_merge_sort, opens_before_total|apply Sorted_merge_sort, newest_first_total].
  - unfold list_events, paged_list. rewrite Hpage. apply leads_lift. rewrite Hval. apply leads_lift. cbv zeta.
    apply leads_read; [done|]. intros w1 Hw1 E1. fold t in E1 |- *.
    destruct (bool_decide (is_Some l) || (0 <? o)) eqn:Hc.
    + apply leads_read; [done|]. intros w2 Hw2 E2. apply leads_done. rewrite E2, E1. split; [done|].
      by rewrite (sql_window_paginate _ limit offset).
    + apply leads_done. rewrite E1. split; [done|]. destruct l; [done|].
      rewrite <- (sql_window_paginate _ limit offset) by done. unfold sql_window. simpl in Hc.
      assert (Z.to_nat o = 0)%nat as -> by lia. done.
Qed.
