(* ===== verification/RosterKeeps.v ===== *)
(** * What every request of the roster keeps

    Whoever calls, and whatever the others commit between two statements of the
    call: every request keeps the invariant, and every request but a hand
    unenroll leaves no live member without a seat the member had. *)

From S2P Require Import Prelude Text Errors Effects Uuid Validate Modules Appointments Tally Gates EventForms Seats Roster Roles Catalog Years Blueprints RosterProofs RoleProofs CatalogProofs.
Open Scope Z_scope.

(** ** The requests *)

Inductive Request : Set :=
  | CreateUser (name : str)
  | CreateAccount (name : str) (r : Role) (number : option str)
  | SetRole (u : uuid) (r : Role)
  | AddMember (c u by_ : uuid) | Leave (c u : uuid) | Remove (c u : uuid)
  | Attach (c k by_ : uuid) | Detach (c k : uuid)
  | Enroll (i u by_ : uuid) | Unenroll (i u : uuid)
  | JoinActivity (k u by_ : uuid) | LeaveActivity (k u : uuid)
  | AssignTeacher (i target by_ : uuid) | UnassignTeacher (i target : uuid)
  | CreateGroup (creator : uuid) (name : str) (rung : Z) (y : option uuid) (teacher_ : option uuid)
  | UpdateGroup (c : uuid) (row : Group) (p : GroupPatch) | DeleteGroup (c : uuid)
  | CreateCourse (creator : uuid) (title description kind_ : str)
  | UpdateCourse (k : uuid) (title description kind_ : option str) | DeleteCourse (k : uuid)
  | CreateOffering (by_ k : uuid) (rung : Z) (title description : option str) (hours : option Z) (counts : option bool)
  | UpdateOffering (o : uuid) (p : OfferingPatch) | DeleteOffering (o : uuid)
  | UpdateInstance (i : uuid) (title description : option str) (hours : option Z) (counts : option bool)
  | ResetOverrides (i : uuid) (fields : list OverrideField)
  | CreateYear (creator : uuid) (name : str) (from to : Z) (promotions : list (Z * Z))
  | UpdateYear (y : uuid) (read : Year) (p : YearPatch) | Archive (y : uuid) | DeleteYear (y : uuid)
  | Rollover (target from by_ : uuid)
  | CreateBlueprint (creator : uuid) (rung : Z) (courses_ : list uuid)
  | SetBlueprint (b : Handle) (courses_ : list uuid) (by_ : uuid)
  | ApplyBlueprint (b : Handle) (c : uuid) (name : str) (by_ : uuid)
  | DeleteBlueprint (b : Handle).

Definition done_ {A} (m : io Tables A) : io Tables () := _ ← m; mret ().

Definition perform `{UuidText} (q : Request) : io Tables () :=
  match q with
  | CreateUser n => done_ (create_user n)
  | CreateAccount n r s => done_ (create_with_role n r s)
  | SetRole u r => done_ (set_role u r)
  | AddMember c u b => done_ (add c u b)
  | Leave c u => leave c u
  | Remove c u => remove c u
  | Attach c k b => done_ (attach c k b)
  | Detach c k => done_ (detach c k)
  | Enroll i u b => done_ (enroll i u b)
  | Unenroll i u => unenroll i u
  | JoinActivity k u b => done_ (join_activity k u b)
  | LeaveActivity k u => leave_activity k u
  | AssignTeacher i u b => assign_teacher i u b
  | UnassignTeacher i u => done_ (unassign_teacher i u)
  | CreateGroup c n r y te => done_ (create_group c n r y te)
  | UpdateGroup c row p => done_ (update_group c row p)
  | DeleteGroup c => done_ (delete_group c)
  | CreateCourse c ti d k => done_ (create_course c ti d k)
  | UpdateCourse k ti d kd => done_ (update_course k ti d kd)
  | DeleteCourse k => done_ (delete_course k)
  | CreateOffering b k r ti d h cn => done_ (create_offering b k r ti d h cn)
  | UpdateOffering o p => done_ (update_offering o p)
  | DeleteOffering o => delete_offering o
  | UpdateInstance i ti d h cn => done_ (update_instance i ti d h cn)
  | ResetOverrides i fs => done_ (reset_overrides i fs)
  | CreateYear c n a b ps => done_ (create_year c n a b ps)
  | UpdateYear y row p => done_ (update_year y row p)
  | Archive y => done_ (archive y)
  | DeleteYear y => delete_year y
  | Rollover target from b => done_ (rollover target from b)
  | CreateBlueprint c r ks => done_ (create c r ks)
  | SetBlueprint h ks b => done_ (set_courses h ks b)
  | ApplyBlueprint h c n b => done_ (apply_to h c n b)
  | DeleteBlueprint h => done_ (delete_blueprint h)
  end.

(** ** Walking them *)

Section Fine.
Context `{UuidText}.
Context (R : Tables → Tables → Prop) `{!PreOrder R, small : !subrelation no_new_gap R}.
Set Default Proof Using "All".

Definition fine {A} (m : io Tables A) : Prop := outline ok R R (λ _, True) m anything.

Lemma fine_bind {A B} (m : io Tables A) (k : A → io Tables B) : fine m → (∀ a, fine (k a)) → fine (m ≫= k).
Proof. intros Hm Hk. by apply (outline_bind ok R R _ _ _ _ _ Hm). Qed.
Lemma fine_ret {A} (a : A) : fine (mret a).
Proof. by apply (outline_ret ok R R). Qed.
Lemma fine_raise {A} e : fine (raise (A := A) e).
Proof. by apply (outline_raise ok R R). Qed.
Lemma fine_lift {A} (r : result AppError A) : fine (lift r).
Proof. by apply (outline_done ok R R). Qed.
Lemma fine_now : fine now.
Proof. intros w _ Hok _. by split_and!. Qed.
Lemma fine_fresh : fine fresh.
Proof. intros w _ Hok _. by split_and!. Qed.
Lemma fine_attempt {A} (m : io Tables A) : fine m → fine (attempt m).
Proof. intros Hm w Hw Hok _. unfold attempt. specialize (Hm w Hw Hok I). by destruct (m w). Qed.
Lemma fine_atomic {A} (m : tx Tables A) : tx_moves ok R m → fine (atomic m).
Proof. intros Hm. by apply (outline_atomic ok R R). Qed.
Lemma fine_moves {A} (m : tx Tables A) : roster_moves m → fine (atomic m).
Proof.
  intros Hm. apply fine_atomic. intros t a t' Hok E. destruct (Hm _ _ _ Hok E). split; [done|]. by apply small.
Qed.
Lemma fine_gets {A} (f : Tables → A) : fine (atomic (gets f)).
Proof. apply fine_moves. intros t a t' Hok [= _ <-]. by apply moved_refl. Qed.
Lemma fine_done {A} (m : io Tables A) : fine m → fine (done_ m).
Proof. intros Hm. apply fine_bind; [done|]. intros. apply fine_ret. Qed.
End Fine.

Ltac walk :=
  repeat lazymatch goal with
  | |- ∀ _, _ => intro
  | |- fine _ (mbind _ _) => apply fine_bind; [apply _..| |]
  | |- fine _ (mret _) => apply fine_ret; apply _
  | |- fine _ (lift _) => apply fine_lift; apply _
  | |- fine _ (raise _) => apply fine_raise; apply _
  | |- fine _ now => apply fine_now; apply _
  | |- fine _ fresh => apply fine_fresh; apply _
  | |- fine _ (attempt _) => apply fine_attempt; [apply _..|]
  | |- fine _ (atomic (gets _)) => apply fine_gets; apply _
  | |- fine _ (let _ := _ in _) => progress cbv zeta
  | |- fine _ (match _ with _ => _ end) => case_match
  | |- fine _ (atomic _) => apply fine_moves; [apply _..|]
  end.

Section Requests.
Context `{UuidText}.
Context (R : Tables → Tables → Prop) `{!PreOrder R, small : !subrelation no_new_gap R}.
Set Default Proof Using "All".

Lemma attach_course_fine c k b src : fine R (attach_course c k b src).
Proof. unfold attach_course. walk. apply attach_course_moves. Qed.
Lemma add_member_fine c u b src : fine R (add_member_sourced c u b src).
Proof. unfold add_member_sourced. walk. apply add_member_moves. Qed.

(** What a committed statement did. *)
Ltac committed := intros t0 x0 t0' Hok E; change (moved t0 t0').

Lemma drop_fine c u soft : fine R (drop_member c u soft).
Proof. unfold drop_member. walk. apply drop_member_moves. Qed.
Lemma detach_fine c k src : fine R (detach_course c k src).
Proof. unfold detach_course. walk. apply detach_course_moves. Qed.
Lemma enroll_fine i u b : fine R (enroll i u b).
Proof.
  unfold enroll, ensure_student, enroll_row, disown_if_pumped, read_for_user.
  walk; solve [apply disown_moves|apply enroll_moves].
Qed.
Lemma join_fine k u b : fine R (join_activity k u b).
Proof. unfold join_activity, ensure_student, add_membership. walk. apply join_moves. Qed.
Lemma leave_activity_fine k u : fine R (leave_activity k u).
Proof. unfold leave_activity. walk. apply leave_moves. Qed.

Lemma roster_open_fine i : fine R (require_open i).
Proof. unfold require_open, require_open_year, class_of. walk. Qed.
Lemma assign_fine i u : fine R (assign i u).
Proof.
  unfold assign, class_of. walk. committed.
  repeat case_match; simplify_eq; try by apply moved_refl. by apply moved_assigned.
Qed.
Lemma assign_teacher_fine i u b : fine R (assign_teacher i u b).
Proof. unfold assign_teacher. walk; [apply roster_open_fine|apply assign_fine]. Qed.
Lemma unassign_teacher_fine i u : fine R (unassign_teacher i u).
Proof.
  unfold unassign_teacher, unassign. walk; [apply roster_open_fine|].
  intros t0 a0 t0' Hok [= _ <-]. by apply moved_assigned.
Qed.

Lemma create_group_fine c n r y te : fine R (create_group c n r y te).
Proof. unfold create_group. walk. by apply create_group_moves. Qed.

Lemma create_account_fine n r s : fine R (create_with_role n r s).
Proof.
  unfold create_with_role. walk. committed.
  destruct (has (users t0) _) eqn:Hi; [done|]. repeat case_match; simplify_eq.
  apply account_born; [done|]. by apply has_false.
Qed.
Lemma set_role_fine u r : fine R (set_role u r).
Proof.
  unfold set_role, set_role_cascade. walk; try apply cascade_moves.
  apply (tx_moves_bind ok no_new_gap no_new_gap); [apply (tx_moves_gets ok no_new_gap no_new_gap)|]. intros n_.
  case_match; [by intros ? ? ? ? ?|].
  apply (tx_moves_bind ok no_new_gap no_new_gap); [apply (tx_moves_gets ok no_new_gap no_new_gap)|]. intros. apply cascade_moves.
Qed.

Lemma create_course_fine c ti d k : fine R (create_course c ti d k).
Proof.
  unfold create_course. walk. committed.
  destruct (has (courses t0) _) eqn:Hi; [done|]. case_match; [done|]. injection E as _ <-.
  apply moved_same; [|done..]. apply base_course_new; [apply Hok| |done..]. by apply has_false.
Qed.
Lemma update_course_fine k ti d kd : fine R (update_course k ti d kd).
Proof.
  unfold update_course. walk. committed.
  destruct (courses t0 !! k) eqn:Hk; [|done]. injection E as _ <-.
  apply moved_same; [|done..]. by eapply base_course_put; [apply Hok|..].
Qed.

Lemma create_offering_fine b k r ti d h cn : fine R (create_offering b k r ti d h cn).
Proof.
  unfold create_offering, create_offering_row. walk. committed.
  destruct (has (offerings t0) _) eqn:Ho; [done|]. simpl in E. case_bool_decide as Ht; [done|].
  destruct (has (courses t0) k) eqn:Hk; [|done]. simpl in E. case_match; [done|]. injection E as _ <-.
  apply moved_same; [|done..]. apply base_template; [apply Hok|by apply has_false|by apply has_spec|].
  simpl. by apply eq_None_not_Some.
Qed.
Lemma update_offering_fine o p : fine R (update_offering o p).
Proof.
  unfold update_offering. walk; committed;
    (destruct (offerings t0 !! o) eqn:Ho; [|done]); injection E as _ <-;
    (apply moved_same; [|done..]); by eapply base_offering_put; [apply Hok|..].
Qed.
Lemma delete_offering_fine o : fine R (delete_offering o).
Proof.
  unfold delete_offering. walk. committed.
  destruct (has (offerings t0) o); simpl in E; [|injection E as _ <-; by apply moved_refl].
  case_bool_decide as Hno; simpl in E; injection E as _ <-; [by apply moved_refl|].
  apply moved_same; [|done..]. apply base_offering_gone; [apply Hok|]. intros j y.
  rewrite shape_at. intros (z & Hz & ->)%fmap_Some Hs. apply Hno. by exists j, z.
Qed.
Lemma update_instance_fine i ti d h cn : fine R (update_instance i ti d h cn).
Proof. unfold update_instance. walk. apply content_moves. Qed.
Lemma reset_fine i fs : fine R (reset_overrides i fs).
Proof. unfold reset_overrides. walk. apply content_moves. Qed.

Lemma create_year_fine c n a b ps : fine R (create_year c n a b ps).
Proof.
  unfold create_year. walk. committed.
  destruct (has (years t0) _) eqn:Hy; [done|]. simpl in E. case_bool_decide; [done|]. case_match; [done|].
  injection E as _ <-. apply moved_same; [|done..].
  apply base_year_new; [apply Hok|by apply has_false|done].
Qed.
Lemma update_year_fine y row p : fine R (update_year y row p).
Proof.
  unfold update_year, update_row. walk. committed.
  destruct (years t0 !! y) eqn:Hy; [|injection E as _ <-; by apply moved_refl].
  case_match; [injection E as _ <-; by apply moved_refl|]. case_bool_decide; [done|]. injection E as _ <-.
  apply moved_same; [|done..]. by eapply base_year_put; [apply Hok|..].
Qed.
Lemma archive_fine y : fine R (archive y).
Proof.
  unfold archive, archive_tx. walk. committed.
  destruct (years t0 !! y) eqn:Hy; [|injection E as _ <-; by apply moved_refl].
  case_match; injection E as _ <-; [by apply moved_refl|].
  apply moved_same; [|done..]. by eapply base_year_put; [apply Hok|..].
Qed.
Lemma delete_year_fine y : fine R (delete_year y).
Proof.
  unfold delete_year, delete_year_tx. walk. committed.
  destruct (years t0 !! y) as [row|] eqn:Hy; [|injection E as _ <-; by apply moved_refl].
  destruct (class_count row =? 0) eqn:Hz; simpl in E; [|injection E as _ <-; by apply moved_refl].
  case_match; injection E as _ <-; [|by apply moved_refl].
  apply moved_same; [|done..]. eapply base_year_gone; [apply Hok|done|by apply Z.eqb_eq].
Qed.

Lemma copy_teachers_fine i us : fine R (copy_teachers i us).
Proof. induction us as [|u us IH]; simpl; walk; [apply assign_fine|done]. Qed.
Lemma copy_instances_fine c b xs : fine R (copy_instances c b xs).
Proof.
  induction xs as [|[i x] xs IH]; cbn [copy_instances]; unfold list_teachers; walk;
    solve [apply attach_course_fine|apply update_instance_fine|apply copy_teachers_fine|apply IH].
Qed.
Lemma copy_members_fine c f b ms : ∀ n, fine R (copy_members c f b ms n).
Proof. induction ms as [|[j m] ms IH]; intros n; cbn [copy_members]; walk; solve [apply add_member_fine|apply IH]. Qed.
Lemma roll_classes_fine y b from cs : ∀ r, fine R (roll_classes y b from cs r).
Proof.
  induction cs as [|[c g] cs IH]; intros r; cbn [roll_classes]; unfold list_instances, list_members; walk;
    solve [apply create_group_fine|apply copy_instances_fine|apply copy_members_fine|apply IH].
Qed.
Lemma rollover_fine y f b : fine R (rollover y f b).
Proof. unfold rollover, list_for_year. walk. apply roll_classes_fine. Qed.

Lemma create_row_fine c r ks : fine R (create_row c r ks).
Proof.
  unfold create_row. walk. committed. repeat case_match; simplify_eq.
  apply moved_same; [|done..].
  apply base_blueprint_new; [apply Hok|done|by eapply bool_decide_eq_false_1].
Qed.
Lemma set_row_moves r held wanted : roster_moves (set_courses_if_unchanged r held wanted).
Proof.
  committed. unfold set_courses_if_unchanged in E. case_match; [done|].
  destruct (blueprints t0 !! r) eqn:Hr; [|injection E as _ <-; by apply moved_refl].
  case_match; injection E as _ <-; [by apply moved_refl|].
  apply moved_same; [|done..]. by eapply base_blueprint_put; [apply Hok|..].
Qed.
Lemma delete_claimed_moves r held : roster_moves (delete_claimed r held).
Proof.
  committed. unfold delete_claimed in E.
  destruct (blueprints t0 !! r) eqn:Hr; [|injection E as _ <-; by apply moved_refl].
  case_match; [injection E as _ <-; by apply moved_refl|]. case_bool_decide; [done|]. injection E as _ <-.
  apply moved_same; [|done..]. by eapply base_blueprint_gone; [apply Hok|..].
Qed.
Lemma prune_moves r k : roster_moves (prune r k).
Proof.
  committed. injection E as _ <-. apply moved_same; [|done..].
  set (f := λ b, _). destruct (blueprints t0 !! r) as [b|] eqn:Hr.
  - assert (set_blueprints (alter f r) t0 = set_blueprints <[r := f b]> t0) as ->; [|by eapply base_blueprint_put; [apply Hok|..]].
    unfold set_blueprints. by rewrite (alter_as_insert f _ _ _ Hr).
  - assert (set_blueprints (alter f r) t0 = t0) as ->; [|apply Hok].
    unfold set_blueprints. rewrite alter_id; [by destruct t0|]. intros x Hx. by rewrite Hr in Hx.
Qed.
Lemma drop_links_fine r ls : fine R (drop_links r ls).
Proof. induction ls as [|[c k] ls IH]; cbn [drop_links]; walk; [apply detach_fine|done]. Qed.
Lemma apply_courses_fine r ks c n b : ∀ run, fine R (apply_courses r ks c n b run).
Proof.
  induction ks as [|k ks IH]; intros run; cbn [apply_courses]; walk;
    solve [apply IH|apply attach_course_fine|apply prune_moves].
Qed.
Lemma apply_to_fine h c n b : fine R (apply_to h c n b).
Proof. unfold apply_to. walk. apply apply_courses_fine. Qed.
Lemma pump_classes_fine h cs b : ∀ n run, fine R (pump_classes h cs b n run).
Proof.
  induction cs as [|[c g] cs IH]; intros n run; cbn [pump_classes]; walk; solve [apply apply_courses_fine|apply IH].
Qed.
Lemma set_blueprint_fine h ks b : fine R (set_courses h ks b).
Proof.
  unfold set_courses, read_row, pump, list_for_grade. walk;
    solve [apply set_row_moves|apply drop_links_fine|apply pump_classes_fine].
Qed.
Lemma delete_blueprint_fine h : fine R (delete_blueprint h).
Proof. unfold delete_blueprint. walk; solve [apply drop_links_fine|apply delete_claimed_moves]. Qed.

(** Everything but a hand unenroll. *)
Lemma perform_fine q : (∀ i u, q ≠ Unenroll i u) → fine R (perform q).
Proof.
  intros Hq. destruct q; simpl; try (apply fine_done; [apply _..|]);
    try solve [eauto using create_account_fine, set_role_fine, enroll_fine, join_fine, leave_activity_fine,
      assign_teacher_fine, unassign_teacher_fine, create_group_fine, create_course_fine, update_course_fine,
      create_offering_fine, update_offering_fine, delete_offering_fine, update_instance_fine, reset_fine,
      create_year_fine, update_year_fine, archive_fine, delete_year_fine, rollover_fine, apply_to_fine,
      set_blueprint_fine, delete_blueprint_fine].
  - unfold add, add_member. walk. apply add_member_fine.
  - unfold leave, leave_member. walk; apply drop_fine.
  - unfold remove, remove_member. walk; apply drop_fine.
  - unfold attach. walk. apply attach_course_fine.
  - unfold detach. walk. apply detach_fine.
  - by destruct (Hq i u).
  - unfold update_group. walk. apply update_group_moves.
  - unfold delete_group. walk. apply delete_group_moves.
  - unfold delete_course. walk. apply delete_course_moves.
  - unfold create. walk. apply create_row_fine.
Qed.
End Requests.

(** ** The theorems *)

Definition whatever : Tables → Tables → Prop := λ _ _, True.
#[export] Instance whatever_pre : PreOrder whatever.
Proof. by split. Qed.

Lemma unenroll_fine i u : fine whatever (unenroll i u).
Proof.
  unfold unenroll. apply fine_bind; [apply _|intros ? ? ?; done| |].
  - apply fine_atomic; [apply _|intros ? ? ?; done|]. intros t0 x0 t0' Hok E. split; [|done].
    by eapply unenroll_keeps.
  - intros row. apply fine_bind; [apply _|intros ? ? ?; done|apply fine_lift; [apply _|intros ? ? ?; done]|].
    intros _. apply fine_ret; [apply _|intros ? ? ?; done].
Qed.

Section Kept.
Context `{UuidText}.

(** C6. Whoever calls, with whatever arguments, and whatever the others commit
    between two statements of the call as long as they keep it too: every
    request of the school's rosters keeps every count equal to the rows it
    counts (the seats of the events among them), every cap, one live stint per section and student and one instance
    per section and course, every reference on a row that stands, only students
    on a roster, and every row a section pumped a live member's on an instance
    of that section. *)
Theorem roster_keeps q : keeps ok (perform q).
Proof.
  intros w Hst Hok.
  assert (fine whatever (perform q)) as Hf.
  { assert ((∃ i u, q = Unenroll i u) ∨ ∀ i u, q ≠ Unenroll i u) as [(i & u & ->)|Hq]
      by (destruct q; naive_solver).
    - apply unenroll_fine.
    - by apply perform_fine; [apply _|intros ? ? ?|]. }
  specialize (Hf w). destruct (perform q w) as [r w'].
  destruct Hf as (? & _ & ? & _); [intros n t Ht; split; [by apply Hst|done]|done..].
Qed.

(** C7. And every request but a hand unenroll opens no gap, while the others
    open none either: a live member of a section who ends the request without a
    seat in an instance of the section had none when it began, as a member of
    that section. New members are seated in every course and new courses seat
    every member, whatever is interleaved. *)
Theorem no_seat_is_lost q :
  (∀ i u, q ≠ Unenroll i u) → outline ok no_new_gap no_new_gap (λ _, True) (perform q) anything.
Proof. intros Hq. by apply perform_fine; [apply _|intros ? ?|]. Qed.
End Kept.
