(* ===== verification/RosterExact.v ===== *)
(** * What the roster's transactions do, exactly

    Entering, leaving and demotion, row by row: which rows appear, which go,
    and that everybody else's stay as they were. *)

From S2P Require Import Prelude Text Errors Effects Uuid Validate Modules Appointments Tally Gates EventForms Seats Roster Roles RosterProofs RoleProofs.
Open Scope Z_scope.

(** ** Entering *)

Section Entering.
Context `{UuidText}.

(** Every pair is filled and nothing else moves; with the rows they name in
    place, the loop cannot fail. *)
Definition filled_with (pairs : list (uuid * uuid)) (row : Enrollment) (t t' : Tables) : Prop :=
  ∀ p, enrollments t' !! p = match enrollments t !! p with
    | Some e => Some e
    | None => if decide (p ∈ pairs) then Some row else None
    end.

(** The rosters a student newly joins count one more. *)
Definition joined (u : uuid) (is_ : list uuid) (t : Tables) (i : uuid) (x : Instance) : Instance :=
  if decide (i ∈ is_ ∧ enrollments t !! (i, u) = None) then on_roster bumped x else x.

Lemma enroll_pairs_total c u is_ by_ at_ t :
  u ∈ dom (users t) → by_ ∈ dom (users t) → c ∈ dom (groups t) → (∀ i, i ∈ is_ → i ∈ dom (instances t)) →
  ∃ t', enroll_pairs c ((., u) <$> is_) by_ at_ t = Ok ((), t') ∧ seats_added t t'
    ∧ filled_with ((., u) <$> is_) (MkEnrollment by_ (Some c) at_) t t'
    ∧ ∀ i, instances t' !! i = joined u is_ t i <$> instances t !! i.
Proof.
  intros Hu Hby Hc. revert t Hu Hby Hc. induction is_ as [|i is_ IH]; intros t Hu Hby Hc Hp.
  { exists t. split_and!; [done..| |].
    - intros p. destruct (enrollments t !! p); [done|]. by rewrite decide_False by apply not_elem_of_nil.
    - intros i. destruct (instances t !! i); simpl; [|done]. unfold joined. case_decide as Hd; [|done].
      by destruct Hd as [?%not_elem_of_nil _]. }
  pose proof (Hp i ltac:(by left)) as Hi. cbn [enroll_pairs fmap list_fmap]. rewrite tx_bind_gets.
  case_bool_decide as Hheld.
  - destruct (IH t Hu Hby Hc) as (t' & E & Ha & Hf & Hj); [intros; apply Hp; by right|].
    exists t'. split_and!; [exact E|done| |].
    + intros p. rewrite Hf. destruct (enrollments t !! p) eqn:Hpe; [done|].
      repeat case_decide; try done; try set_solver.
      assert (p ∈ (i, u) :: ((., u) <$> is_)) as [->|]%elem_of_cons by done; [|done].
      rewrite Hpe in Hheld. by destruct Hheld.
    + intros k. rewrite Hj. destruct (instances t !! k); simpl; [|done]. f_equal. unfold joined.
      apply decide_ext. rewrite elem_of_cons. split; [naive_solver|]. intros [[->|Hk] Hn]; [|done].
      rewrite Hn in Hheld. by destruct Hheld.
  - set (t1 := set_enrollments <[(i, u) := MkEnrollment by_ (Some c) at_]> (set_instances (alter (on_roster bumped) i) t)).
    destruct (IH t1) as (t' & E & Ha & Hf & Hj); [done|done|done| |].
    { intros j Hin. cbn. rewrite dom_alter_row. apply Hp. by right. }
    apply eq_None_not_Some in Hheld. exists t'. split_and!; [|etrans; [by apply seats_added_seat|exact Ha]| |].
    + unfold enroll_pair, mbind, tx_bind. apply elem_of_dom in Hi as [x Hx]. rewrite Hx.
      rewrite (proj2 (has_spec _ _) Hu), (proj2 (has_spec _ _) Hby), (proj2 (has_spec _ _) Hc). exact E.
    + intros p. rewrite Hf. unfold t1. cbn. rewrite lookup_insert.
      destruct (decide ((i, u) = p)) as [<-|Hne]; [rewrite Hheld; by rewrite decide_True by (by left)|].
      destruct (enrollments t !! p); [done|]. repeat case_decide; set_solver.
    + intros k. rewrite Hj. unfold t1. cbn. destruct (decide (i = k)) as [<-|Hk].
      * rewrite lookup_alter_eq. destruct (instances t !! i) as [x|]; simpl; [|done]. unfold joined. cbn.
        rewrite lookup_insert_eq, decide_False by (by intros [_ ?]). by rewrite decide_True by (split; [by left|done]).
      * rewrite lookup_alter_ne by done. destruct (instances t !! k) as [x|]; simpl; [|done]. f_equal. unfold joined. cbn.
        rewrite lookup_insert_ne by congruence. apply decide_ext. rewrite elem_of_cons. naive_solver.
Qed.

(** What an add that went through wrote: the stint, the section's count, a seat in
    every roster of the section and the rosters' counts, and nothing else. *)
Definition seated_in (i c u by_ : uuid) (src : option uuid) (at_ at' : Z) (t t' : Tables) : Prop :=
  t' = MkTables (users t) (years t) (alter (on_members bumped) c (groups t))
         (<[i := MkStint c u by_ at_ None src]> (stints t)) (courses t) (offerings t) (blueprints t)
         (instances t') (assigned t) (enrollments t') (memberships t) (elsewhere t)
  ∧ (∀ k, instances t' !! k = joined u (instances_of t c) t k <$> instances t !! k)
  ∧ filled_with ((., u) <$> instances_of t c) (MkEnrollment by_ (Some c) at') t t'.

(** What stands in the way of an add, and what the add answers. *)
Definition entered (i c u by_ : uuid) (src : option uuid) (at_ at' : Z) (t t' : Tables)
    (v : Attached (uuid * Stint)) : Prop :=
  let live := is_live_member t c u in
  let rows_there := is_student t u ∧ by_ ∈ dom (users t) ∧ ∀ s, src = Some s → s ∈ dom (groups t) in
  match v with
  | Made (j, s) =>
      (¬ live ∧ rows_there ∧ stints t !! i = None
       ∧ ∃ g, groups t !! c = Some g ∧ class_member_count g < MAX_CLASS_MEMBERS)
      ∧ j = i ∧ s = MkStint c u by_ at_ None src ∧ seated_in i c u by_ src at_ at' t t'
  | Duplicate => live ∧ t' = t
  | Gone => (¬ live ∧ groups t !! c = None) ∧ t' = t
  | PivotGone => (¬ live ∧ ¬ rows_there) ∧ t' = t
  | ClassFull => (¬ live ∧ class_member_count <$> groups t !! c = Some MAX_CLASS_MEMBERS) ∧ t' = t
  | ClassOverloaded | CourseGone _ | SourceGone => False
  end.

Lemma student_there t u : is_student t u → u ∈ dom (users t).
Proof. intros Hu. apply elem_of_dom. unfold is_student in Hu. destruct (users t !! u); [by eexists|done]. Qed.

Lemma not_overloaded t c :
  base t → match groups t !! c with Some g => cap ACourse <? class_course_count g | None => false end = false.
Proof.
  intros Hb. destruct (groups t !! c) as [g|] eqn:Hg; [|done]. apply Z.ltb_ge.
  by destruct (section_bounds _ _ _ Hb Hg) as (_ & ? & _).
Qed.

(** C24. Adding a student to a section either fails because the new row's id is
    taken, or answers with the one verdict that fits: already a live member; the
    section is gone; the target is no student (or the actor, or the section
    copied from, is gone); the section is at its 200 members, exactly; or made,
    which takes a student who is not a live member, an actor and a source that are
    there, and a section below 200. A made add writes the stint, one more on the
    section's count, a seat tagged with the section in every instance of it the
    student had none in, and one more on the count of each of those; no other
    column of any table moves. A refusal writes nothing. That a section holds too
    many courses, or that one vanished, cannot be answered. *)
Theorem adding_is_exact i c u by_ src at_ at' t :
  ok t →
  match add_member_tx i c u by_ src at_ at' t with
  | Ok (v, t') => entered i c u by_ src at_ at' t t' v
  | Err e => e = unique_violation ∧ is_Some (stints t !! i)
  end.
Proof.
  intros [Hb Hp]. unfold add_member_tx, early_verdicts. rewrite tx_bind_gets.
  case_bool_decide as Hlive; [by split|]. case_bool_decide as Hu; [|simpl; split; [split; [done|by intros [? _]]|done]].
  simpl other. cbv iota. rewrite not_overloaded by done. cbn [fst snd].
  unfold seat_member at 1, mbind at 1, tx_bind at 1.
  destruct (groups t !! c) as [g|] eqn:Hg.
  2:{ rewrite tx_bind_gets. unfold has. rewrite Hg, bool_decide_false by (by intros []). simpl. by split. }
  destruct (class_member_count g <? cap AMember) eqn:Hcap; simpl negb; cbv iota.
  2:{ rewrite tx_bind_gets. unfold has. rewrite Hg, bool_decide_true by done. simpl. rewrite Hg. split; [|done].
      split; [done|]. simpl. f_equal. apply Z.ltb_ge in Hcap.
      destruct (section_bounds _ _ _ Hb Hg) as (Hle & _ & _). simpl in Hcap. lia. }
  destruct (has (stints t) i) eqn:Hi.
  { split; [done|]. apply elem_of_dom. by apply has_spec. }
  rewrite bool_decide_false by done. pose proof (student_there _ _ Hu) as Hut.
  destruct (has (users t) u && has (users t) by_ && _) eqn:Hfk.
  2:{ split; [|done]. split; [done|]. intros (_ & Hby & Hs).
      rewrite (proj2 (has_spec _ _) Hut), (proj2 (has_spec _ _) Hby) in Hfk. simpl in Hfk.
      destruct src as [s|]; [|done]. by rewrite (proj2 (has_spec _ _) (Hs s eq_refl)) in Hfk. }
  apply andb_true_iff in Hfk as [Hfk Hsrc]. apply andb_true_iff in Hfk as [_ Hby].
  rewrite tx_bind_gets. set (t1 := set_stints _ _). unfold mbind at 1, tx_bind at 1.
  change (instances_of t1 c) with (instances_of t c).
  destruct (enroll_pairs_total c u (instances_of t c) by_ at' t1) as (t' & E & (Ha & _ & _) & Hf & Hj).
  - done.
  - by apply has_spec.
  - cbn. rewrite dom_alter_row. by apply elem_of_dom.
  - intros j Hin. apply elem_of_instances_of in Hin as (x & Hx & _). by apply elem_of_dom.
  - rewrite E. unfold mret, tx_ret. split_and!; [done|done|by apply has_spec| | | |done|done|by split_and!].
    + intros s ->. by apply has_spec.
    + by apply has_not.
    + exists g. split; [done|]. by apply Z.ltb_lt.
Qed.
End Entering.

(** ** Leaving *)

(** Taking a student out of a section ends (or, removed, erases) the one
    live stint of the pair, gives the section one seat back, and takes exactly
    the seats the section itself had pumped: a seat placed by hand, a seat of
    another section and every other student's stay, and so do clubs. Who is no
    live member loses nothing. *)
Theorem leaving_is_exact c u soft at_ t n t' :
  ok t → drop_member_tx c u soft at_ t = Ok (n, t') →
  if decide (is_live_member t c u) then
    n = 1 ∧ ¬ is_live_member t' c u
    ∧ stints t' = (if soft then stamp c u at_ <$> stints t
                   else filter (λ p : uuid * Stint, ¬ live c u p.2) (stints t))
    ∧ (class_member_count <$> groups t) !! c = Z.succ <$> (class_member_count <$> groups t') !! c
    ∧ (∀ i v, enrollments t' !! (i, v) =
         e ← enrollments t !! (i, v); if decide (v = u ∧ source e = Some c) then None else Some e)
    ∧ memberships t' = memberships t ∧ shapes t' = shapes t
  else n = 0 ∧ t' = t.
Proof.
  intros Hok E. pose proof (drop_member_moves c u soft at_ _ _ _ Hok E) as [[Hb' _] _].
  unfold drop_member_tx in E. rewrite tx_bind_gets in E.
  destruct (decide (is_live_member t c u)) as [Hl|Hl];
    [rewrite bool_decide_true in E by done|rewrite bool_decide_false in E by done; by injection E as <- <-].
  simpl in E. apply tx_bind_ok in E as ([] & ? & [= <-] & E). apply tx_bind_ok in E as ([] & t1 & [= Et0] & E).
  apply tx_bind_ok in E as (rows & ? & [-> ->]%gets_ok & E). apply tx_bind_ok in E as ([] & t2 & Er & E).
  injection E as <- <-.
  assert (t1 = set_groups (alter (on_members given_back) c) (set_stints (λ _, without c u soft at_ (stints t)) t))
    as Et1 by (by rewrite <- Et0; destruct soft).
  pose proof (release_all_frame _ _ _ _ Er) as (Et2 & Hs2 & He2).
  assert (stints t2 = without c u soft at_ (stints t)) as Hst by (by rewrite Et2, Et1).
  split_and!; [done| |by rewrite Hst; destruct soft| | |by rewrite Et2, Et1|by rewrite Hs2, Et1].
  - intros (j & s & Hj & Hs). rewrite Hst in Hj. apply lookup_without in Hj as (s0 & _ & _ & Hs0).
    destruct (Hs0 (proj2 (proj2 Hs))) as [-> Hn]. done.
  - assert (class_member_count <$> groups t2 = alter given_back c (class_member_count <$> groups t)) as ->
      by (rewrite Et2, Et1; apply members_on_members).
    rewrite lookup_alter_eq. destruct ((class_member_count <$> groups t) !! c) as [m|] eqn:Hm; [|done].
    simpl. f_equal. destruct Hl as (j & s & Hj & Hc & Hu & Hle).
    pose proof (tallied_pos member_key (stints t) j s c Hj) as Hpos.
    rewrite <- (b_members _ (proj1 Hok) _ _ Hm) in Hpos. unfold given_back, member_key in *. simpl in Hpos.
    rewrite Hle in Hpos. specialize (Hpos ltac:(congruence)). lia.
  - intros i v. rewrite He2. replace (enrollments t1) with (enrollments t) by (by rewrite Et1).
    destruct (enrollments t !! (i, v)) as [e|] eqn:He; simpl; [|by case_decide].
    assert ((i, v) ∈ pumped_rows t1 c u ↔ v = u ∧ source e = Some c) as Hin.
    { rewrite elem_of_pumped_rows. replace (enrollments t1) with (enrollments t) by (by rewrite Et1).
      rewrite He. simpl. naive_solver. }
    repeat case_decide; tauto.
Qed.

(** ** Demotion *)

(** What follows the shedding moves no counter of a roster. *)
Lemma seated_counts u r at_ t :
  instances (seated_for u r at_ t) = instances t ∧ courses (seated_for u r at_ t) = courses t
  ∧ class_member_count <$> groups (seated_for u r at_ t) = class_member_count <$> groups t.
Proof.
  unfold seated_for, staff_for. destruct (decide (r = Parent)); [done|]. destruct (at_least r Teacher); [done|].
  split; [done|]. split; [done|]. by apply homeroom_column.
Qed.

(** C26. A role that is not a student's is held by nobody with a seat: the change
    ends every live stint of the account (the history stays) and takes every
    enrollment, every club membership and every parent's link to it, the rows
    placed by hand included, and its own links to children too unless the new role
    is a parent's. The member count of a section, the roster of an instance and
    the count of a club go down by one exactly where the account was counted. No
    other account's stint, seat, membership, link or row moves. *)
Theorem demotion_sheds_the_student u r others at_ t out t' :
  r ≠ Student → cascade_tx u r others at_ t = Ok (out, t') →
  (∃ a, users t !! u = Some a ∧ users t' = <[u := with_role r a]> (users t))
  ∧ stints t' = end_stint u at_ <$> stints t
  ∧ (∀ c v, is_live_member t' c v ↔ is_live_member t c v ∧ v ≠ u)
  ∧ (∀ i v, enrollments t' !! (i, v) = if decide (v = u) then None else enrollments t !! (i, v))
  ∧ (∀ k v, memberships t' !! (k, v) = if decide (v = u) then None else memberships t !! (k, v))
  ∧ (∀ p v, (p, v) ∈ parent_links (elsewhere t') ↔
       (p, v) ∈ parent_links (elsewhere t) ∧ v ≠ u ∧ (r = Parent ∨ p ≠ u))
  ∧ instances t' = update_in (rosters_with u (enrollments t)) (on_roster given_back) (instances t)
  ∧ courses t' = update_in (rosters_with u (memberships t)) (on_club given_back) (courses t)
  ∧ class_member_count <$> groups t'
    = class_member_count <$> update_in (live_classes u t) (on_members given_back) (groups t).
Proof.
  intros Hr (a0 & Ha & _ & -> & _)%cascade_ok. unfold after_cascade, is_live_member.
  destruct (seated_counts u r at_ (shed_for u r at_ (with_account u r a0 t))) as (-> & -> & ->).
  destruct (seated_same u r at_ (shed_for u r at_ (with_account u r a0 t))) as (-> & -> & -> & -> & ->).
  unfold shed_for. rewrite (decide_False (P := r = Student)), shed_account by done.
  destruct (account_same u r a0 (shed u at_ t)) as (-> & -> & -> & -> & ->).
  destruct (shed_same u at_ t) as (-> & _ & ->). split_and!; try done.
  - by exists a0.
  - apply live_after_shed.
  - apply enrollments_shed.
  - apply memberships_shed.
  - intros p v. case_decide as Hp.
    + rewrite elem_of_filter. naive_solver.
    + rewrite !elem_of_filter. naive_solver.
Qed.
