(* ===== verification/StaffProofs.v ===== *)
(** * The posts of who stops teaching

    A teacher's posts are the instances assigned to them, the sections they are
    homeroom teacher of, and a calendar of slots with other people's bookings.
    A demotion below teacher clears all three, and leaves the appointments in
    the state their own component promises; a demotion to parent clears none. *)

From S2P Require Import Prelude Text Errors Effects Uuid Validate Modules Appointments AppointmentProofs Tally Gates EventForms Seats Roster Roles RosterProofs RoleProofs.
Open Scope Z_scope.

(** ** The calendar *)

Lemma settle_cases u c a :
  (taught_by u c a ∧ slot (settle u c a) = None ∧ is_live (status (settle u c a)) = false)
  ∨ (¬ taught_by u c a ∧ settle u c a = a).
Proof.
  unfold settle. destruct (decide (taught_by u c a)); [left|by right]. split_and!; [done..|].
  simpl. by destruct (is_live (status a)) eqn:E.
Qed.

Lemma settled_same_windows u c a :
  proposed_starts_at (settle u c a) = proposed_starts_at a ∧ proposed_ends_at (settle u c a) = proposed_ends_at a.
Proof. unfold settle. by case_decide. Qed.

Lemma closed_slot u c i s :
  slots (close_calendar u c) !! i = Some s ↔ slots c !! i = Some s ∧ teacher s ≠ u.
Proof. cbn. by rewrite map_lookup_filter_Some. Qed.

Lemma closed_appointment u c i a :
  appointments (close_calendar u c) !! i = Some a ↔ ∃ a0, appointments c !! i = Some a0 ∧ a = settle u c a0.
Proof. cbn. rewrite lookup_fmap, fmap_Some. naive_solver. Qed.

(** A booking on a slot that stays is not touched. *)
Lemma not_taught u c a s x : slot a = Some s → slots c !! s = Some x → teacher x ≠ u → settle u c a = a.
Proof.
  intros Hs Hx Hu. destruct (settle_cases u c a) as [(Ht & _)|[_ ->]]; [|done].
  unfold taught_by in Ht. rewrite Hs in Ht. simpl in Ht. rewrite Hx in Ht. simpl in Ht. congruence.
Qed.

Lemma count_fmap `{Countable K} {A B} (f : A → B) (P : K * B → Prop) `{!∀ p, Decision (P p)}
    (Q : K * A → Prop) `{!∀ p, Decision (Q p)} (m : gmap K A) :
  (∀ i a, m !! i = Some a → P (i, f a) ↔ Q (i, a)) → count P (f <$> m) = count Q m.
Proof.
  induction m as [|i a m Hi IH] using map_ind; intros HP; [by rewrite fmap_empty|].
  rewrite fmap_insert, !count_insert_fresh by (by rewrite ?lookup_fmap, ?Hi).
  rewrite IH by (intros j b Hj; apply HP; rewrite lookup_insert_ne; congruence).
  pose proof (HP i a (lookup_insert_eq _ _ _)). repeat case_decide; tauto.
Qed.

Lemma closed_live_on u c s :
  AppointmentProofs.ok c →
  AppointmentProofs.live_on (close_calendar u c) s
  = if decide (teacher <$> slots c !! s = Some u) then 0 else AppointmentProofs.live_on c s.
Proof.
  intros Hok. unfold AppointmentProofs.live_on, live_at. case_decide as Hs.
  - apply count_0. intros i a Ha [Hl Hsl]. apply closed_appointment in Ha as (a0 & Ha & ->).
    destruct (settle_cases u c a0) as [(_ & E & _)|[Hn E]]; [simpl in Hsl; congruence|].
    rewrite E in Hsl, Hl. simpl in *. apply Hn. unfold taught_by. rewrite Hsl. simpl.
    by destruct (slots c !! s).
  - apply count_fmap. intros i a Ha. simpl.
    destruct (settle_cases u c a) as [(Ht & E1 & E2)|[_ ->]]; [|done].
    simpl in *. split; [intros [_ ?]; congruence|]. intros [Hl Hsl]. exfalso. apply Hs. unfold taught_by in Ht. rewrite Hsl in Ht.
    simpl in Ht. by destruct (slots c !! s).
Qed.

Lemma close_calendar_keeps u c : AppointmentProofs.ok c → AppointmentProofs.ok (close_calendar u c).
Proof.
  intros Hok. pose proof (λ s, closed_live_on u c s Hok) as Hlive.
  assert (∀ i a s, appointments (close_calendar u c) !! i = Some a → slot a = Some s →
    appointments c !! i = Some a ∧ ∃ x, slots c !! s = Some x ∧ teacher x ≠ u) as Hback.
  { intros i a s (a0 & Ha & ->)%closed_appointment Hs.
    destruct (settle_cases u c a0) as [(_ & E & _)|[Hn E]]; [congruence|]. rewrite E in *. split; [done|].
    destruct (ok_slot _ Hok _ _ _ Ha Hs) as [x Hx]. exists x. split; [done|]. intros Ht. apply Hn.
    unfold taught_by. rewrite Hs. simpl. by rewrite Hx, <- Ht. }
  split.
  - intros i a s Ha Hs. destruct (Hback _ _ _ Ha Hs) as (_ & x & Hx & Hu). exists x. by apply closed_slot.
  - intros i a (a0 & Ha & ->)%closed_appointment Hl.
    destruct (settle_cases u c a0) as [(_ & _ & E)|[_ E]]; rewrite E in *; [done|]. by eapply (ok_live_slot _ Hok).
  - intros s [x [Hx Hu]%closed_slot]. rewrite Hlive, Hx, decide_False by (simpl; congruence).
    cbn. rewrite (proj2 (map_lookup_filter_Some _ (occupied c) s (AppointmentProofs.live_on c s))); [done|].
    split; [apply (ok_occupied _ Hok); by rewrite Hx|]. simpl. rewrite Hx. simpl. congruence.
  - intros s. rewrite Hlive. case_decide; [lia|apply (ok_one _ Hok)].
  - intros i s [Hs _]%closed_slot. by eapply (ok_window _ Hok).
  - intros i a (a0 & Ha & ->)%closed_appointment. destruct (settled_same_windows u c a0) as [-> ->].
    by apply (ok_proposal _ Hok i).
  - intros i j s s' [Hs _]%closed_slot [Hs' _]%closed_slot. by apply (ok_spans _ Hok i j).
  - intros i j a b sa sb ia ib Hne Ha Hb Hsa Hsb Hia Hsia Hib Hsib.
    destruct (Hback _ _ _ Ha Hia) as [Ha' _], (Hback _ _ _ Hb Hib) as [Hb' _].
    apply closed_slot in Hsia as [Hsia _], Hsib as [Hsib _].
    exact (ok_approved _ Hok i j a b sa sb ia ib Hne Ha' Hb' Hsa Hsb Hia Hsia Hib Hsib).
Qed.

Lemma roles_keep f c : AppointmentProofs.ok c → AppointmentProofs.ok (set_roles f c).
Proof. intros Hok. destruct Hok. by split. Qed.

(** ** The cascade *)

(** What the change of a role does to the calendar, and to the posts. *)
Definition calendar_after (u : uuid) (r : Role) (c : Appointments.Tables) : Appointments.Tables :=
  let c := set_roles <[u := role_as_str r]> c in
  if decide (r = Parent) then c else if at_least r Teacher then c else close_calendar u c.

Lemma after_cascade_posts u r a0 at_ t :
  calendar (elsewhere (after_cascade u r a0 at_ t)) = calendar_after u r (calendar (elsewhere t))
  ∧ assigned (after_cascade u r a0 at_ t)
    = (if decide (r = Parent) then assigned t else if at_least r Teacher then assigned t
       else filter (λ p, p.2 ≠ u) (assigned t))
  ∧ g_teacher <$> groups (after_cascade u r a0 at_ t)
    = (if decide (r = Parent) then g_teacher <$> groups t else if at_least r Teacher then g_teacher <$> groups t
       else (λ te, if decide (te = Some u) then None else te) <$> (g_teacher <$> groups t)).
Proof.
  unfold after_cascade, calendar_after.
  assert (∀ t1 t2, t1 = shed_for u r at_ t2 → calendar (elsewhere t1) = calendar (elsewhere t2)
    ∧ assigned t1 = assigned t2 ∧ g_teacher <$> groups t1 = g_teacher <$> groups t2) as Hshed.
  { intros t1 t2 ->. unfold shed_for. destruct (decide (r = Student)); [done|]. split_and!; [done..|].
    cbn. by apply column_same_in. }
  destruct (Hshed _ (with_account u r a0 t) eq_refl) as (Hc & Ha & Hg).
  set (t1 := shed_for u r at_ (with_account u r a0 t)) in *. clearbody t1.
  change (calendar (elsewhere (with_account u r a0 t))) with (set_roles <[u := role_as_str r]> (calendar (elsewhere t))) in Hc.
  change (assigned (with_account u r a0 t)) with (assigned t) in Ha.
  change (groups (with_account u r a0 t)) with (groups t) in Hg.
  unfold seated_for, staff_for. destruct (decide (r = Parent)); [by rewrite <- Hc, <- Ha, <- Hg|].
  destruct (at_least r Teacher); [by rewrite <- Hc, <- Ha, <- Hg|]. cbv zeta. rewrite <- Hc, <- Ha, <- Hg.
  split_and!; [done..|]. cbn. rewrite <- !map_fmap_compose. apply map_fmap_ext. intros i g _. cbn.
  unfold clear_homeroom. case_bool_decide; case_decide; tauto.
Qed.

(** A role change leaves the appointments in the state their own component
    promises: live bookings point at slots that stand, the seat of every slot
    equals its live bookings, spans and approved meetings do not overlap. *)
Theorem role_change_keeps_the_calendar u r others at_ t out t' :
  AppointmentProofs.ok (calendar (elsewhere t)) → cascade_tx u r others at_ t = Ok (out, t') →
  AppointmentProofs.ok (calendar (elsewhere t')).
Proof.
  intros Hok (a0 & _ & _ & -> & _)%cascade_ok.
  destruct (after_cascade_posts u r a0 at_ t) as (-> & _ & _). unfold calendar_after.
  pose proof (roles_keep <[u := role_as_str r]> _ Hok) as Hr.
  destruct (decide (r = Parent)); [done|]. destruct (at_least r Teacher); [done|].
  by apply close_calendar_keeps.
Qed.

(** Posts nobody below teacher should hold. *)
Definition no_posts (t : Tables) (u : uuid) : Prop :=
  (∀ i, (i, u) ∉ assigned t) ∧ (∀ c g, groups t !! c = Some g → g_teacher g ≠ Some u)
  ∧ (∀ s x, slots (calendar (elsewhere t)) !! s = Some x → teacher x ≠ u).

(** A demotion below teacher leaves the account no post at all, unless it is
    a demotion to parent: that one returns before the sweep, and every instance
    the account taught, every homeroom and its whole calendar of slots and
    bookings stay exactly as they were. *)
Theorem posts_go_unless_parent u r others at_ t out t' :
  at_least r Teacher = false → cascade_tx u r others at_ t = Ok (out, t') →
  if decide (r = Parent) then
    assigned t' = assigned t ∧ g_teacher <$> groups t' = g_teacher <$> groups t
    ∧ slots (calendar (elsewhere t')) = slots (calendar (elsewhere t))
    ∧ appointments (calendar (elsewhere t')) = appointments (calendar (elsewhere t))
  else no_posts t' u.
Proof.
  intros Hr (a0 & _ & _ & -> & _)%cascade_ok.
  destruct (after_cascade_posts u r a0 at_ t) as (Hc & Ha & Hg). rewrite Hr in Ha, Hg. unfold calendar_after in Hc.
  rewrite Hr in Hc. destruct (decide (r = Parent)); [by rewrite Hc, Ha, Hg|]. unfold no_posts. rewrite Hc, Ha.
  split_and!.
  - intros i. set_solver.
  - intros c g Hcg Hu. assert ((g_teacher <$> groups (after_cascade u r a0 at_ t)) !! c = Some (Some u)) as E
      by (by rewrite lookup_fmap, Hcg; simpl; rewrite Hu).
    rewrite Hg, !lookup_fmap in E. destruct (groups t !! c); [|done]. simpl in E. case_decide; congruence.
  - intros s x [_ Hx]%closed_slot. done.
Qed.
