(* ===== verification/TeachingProofs.v ===== *)
(** * What a section teaches from, and what a blueprint delivers

    What a section shows is its own word, its template's, the catalog's or a
    constant, in that order; a patch replaces what was shown and a reset falls
    back to what the template says. A pump nobody disturbs leaves every section
    of the rung with every course of the blueprint, or says why not. *)

From S2P Require Import Prelude Text Errors Effects Uuid Validate Modules Tally Gates EventForms Seats Roster Catalog Blueprints RosterProofs CatalogProofs.
Open Scope Z_scope.

(** ** Content *)

(** What [resolve] answers on a store that stands still. *)
Definition face (t : Tables) (x : Instance) : option Resolved :=
  o ← offerings t !! i_offering x;
  c ← courses t !! i_course x;
  let own := i_content x in
  Some (MkResolved (shown (i_title own) (off_title o) (co_title c)) (bool_decide (is_Some (i_title own)))
    (shown (i_description own) (off_description o) (co_description c)) (bool_decide (is_Some (i_description own)))
    (policy_of x (default_ders_saati o) (default_counts_toward_karne o))).

Lemma resolve_alone x w f :
  undisturbed w → face (w_db w) x = Some f → leads (resolve x) w (λ r t, r = Ok f ∧ t = w_db w).
Proof.
  intros Hw Hf. unfold face in Hf. unfold resolve, resolve_policy.
  destruct (offerings (w_db w) !! i_offering x) as [o|] eqn:Ho; [|done].
  destruct (courses (w_db w) !! i_course x) as [c|] eqn:Hc; [|done]. injection Hf as <-.
  apply leads_read; [done|]. intros w1 Hw1 E1. rewrite Ho. apply leads_lift. simpl.
  apply leads_read; [done|]. intros w2 Hw2 E2. rewrite E1, Hc. apply leads_lift. simpl.
  apply (leads_bind _ _ _ (λ r t, r = Ok (policy_of x (default_ders_saati o) (default_counts_toward_karne o)) ∧ t = w_db w));
    [done| |naive_solver|].
  - apply leads_read; [done|]. intros w3 Hw3 E3. rewrite E2, E1, Ho. apply leads_lift. simpl.
    apply leads_done. split; [done|congruence].
  - intros p w3 Hw3 [[= ->] E3]. by apply leads_done.
Qed.

(** A template and a catalog row stand behind every instance. *)
Lemma face_there t i x : base t → instances t !! i = Some x → ∀ g, is_Some (face t (with_content g x)).
Proof.
  intros Hb Hi g. assert (shapes t !! i = Some (shape x)) as Hs by (by rewrite shape_at, Hi).
  pose proof (b_offering _ Hb _ _ Hs) as Ho. pose proof (b_course _ Hb _ _ Hs) as Hc. unfold face. simpl in *.
  destruct (offerings t !! i_offering x); [|done]. apply elem_of_dom in Hc as [c Hc]. simpl in *.
  rewrite Hc. simpl. eauto.
Qed.

Lemma face_same t i y x : face (set_instances <[i := y]> t) x = face t x.
Proof. done. Qed.

Lemma write_content_alone i x w g A (k : Instance → io Tables A) Q :
  undisturbed w → instances (w_db w) !! i = Some x →
  (∀ w1, undisturbed w1 → w_db w1 = set_instances <[i := with_content g x]> (w_db w) →
     leads (k (with_content g x)) w1 Q) →
  leads (atomic (write_content i g) ≫= k) w Q.
Proof.
  intros Hw Hi Hk. unfold leads. rewrite atomic_bind_alone by done. unfold write_content. rewrite Hi.
  exact (Hk (tick _ w) Hw eq_refl).
Qed.

Lemma face_overridden t x f ti d h n :
  face t x = Some f →
  face t (with_content (overridden ti d h n) x) = Some
    (MkResolved (default (r_title f) ti) (bool_decide (is_Some ti) || r_title_overridden f)
       (default (r_description f) d) (bool_decide (is_Some d) || r_description_overridden f)
       (MkPolicy (default (pol_hours (r_policy f)) h) (default (pol_counts (r_policy f)) n))).
Proof.
  unfold face. simpl. destruct (offerings t !! i_offering x); [|done]. destruct (courses t !! i_course x); [|done].
  intros [= <-]. simpl. unfold policy_of, shown. simpl. by destruct ti, d, h, n.
Qed.

Lemma face_cleared t x f f0 fields :
  face t x = Some f → face t (with_content (λ _, inherit_all) x) = Some f0 →
  let named o := bool_decide (o ∈ fields) in
  face t (with_content (cleared fields) x) = Some
    (MkResolved (if named OTitle then r_title f0 else r_title f) (negb (named OTitle) && r_title_overridden f)
       (if named ODescription then r_description f0 else r_description f)
       (negb (named ODescription) && r_description_overridden f)
       (MkPolicy (if named ODersSaati then pol_hours (r_policy f0) else pol_hours (r_policy f))
          (if named OCountsTowardKarne then pol_counts (r_policy f0) else pol_counts (r_policy f)))).
Proof.
  unfold face. simpl. destruct (offerings t !! i_offering x); [|done]. destruct (courses t !! i_course x); [|done].
  intros [= <-] [= <-]. simpl. unfold policy_of, shown, cleared. simpl. by repeat case_bool_decide.
Qed.

(** A section's page: whatever an instance shows ([f]), a patch left alone
    with the store makes it show the patch where the patch speaks and what it
    showed where it is silent, marked as the section's own exactly where either
    spoke; a reset makes each named field show what the instance would show if
    it had no word of its own ([f0]), and leaves the others. Neither can fail on
    an instance that stands. *)
Theorem patch_shows_and_reset_falls_back i x w :
  undisturbed w → ok (w_db w) → instances (w_db w) !! i = Some x →
  ∃ f f0, face (w_db w) x = Some f ∧ face (w_db w) (with_content (λ _, inherit_all) x) = Some f0
  ∧ (∀ ti d h n,
      leads (y ← update_instance i ti d h n; resolve y) w (λ r _, r = Ok
        (MkResolved (default (r_title f) ti) (bool_decide (is_Some ti) || r_title_overridden f)
           (default (r_description f) d) (bool_decide (is_Some d) || r_description_overridden f)
           (MkPolicy (default (pol_hours (r_policy f)) h) (default (pol_counts (r_policy f)) n)))))
  ∧ (∀ fields, fields ≠ [] →
      leads (y ← reset_overrides i fields; resolve y) w (λ r _,
        let named o := bool_decide (o ∈ fields) in r = Ok
        (MkResolved (if named OTitle then r_title f0 else r_title f) (negb (named OTitle) && r_title_overridden f)
           (if named ODescription then r_description f0 else r_description f)
           (negb (named ODescription) && r_description_overridden f)
           (MkPolicy (if named ODersSaati then pol_hours (r_policy f0) else pol_hours (r_policy f))
              (if named OCountsTowardKarne then pol_counts (r_policy f0) else pol_counts (r_policy f)))))).
Proof.
  intros Hw [Hb _] Hi. destruct (face_there _ _ _ Hb Hi id) as [f Hf].
  assert (face (w_db w) x = Some f) as Hfx by (rewrite <- Hf; by destruct x). clear Hf.
  destruct (face_there _ _ _ Hb Hi (λ _, inherit_all)) as [f0 Hf0]. exists f, f0. split_and!; [done..| |].
  - intros ti d h n. unfold update_instance. apply (write_content_alone i x); [done..|]. intros w1 Hw1 E1.
    eapply leads_weaken; [apply (resolve_alone _ w1); [done|]|by intros r t [-> _]].
    rewrite E1, face_same. by apply face_overridden.
  - intros fields Hne. unfold reset_overrides. destruct fields as [|o fields]; [done|].
    apply (write_content_alone i x); [done..|]. intros w1 Hw1 E1.
    eapply leads_weaken; [apply (resolve_alone _ w1); [done|]|by intros r t [-> _]].
    rewrite E1, face_same. by apply face_cleared.
Qed.

(** ** The pump *)

Section Pump.
Context `{UuidText}.

Lemma enroll_pairs_added c pairs by_ at_ t x t' : enroll_pairs c pairs by_ at_ t = Ok (x, t') → seats_added t t'.
Proof.
  revert t. induction pairs as [|[i u] pairs IH]; cbn [enroll_pairs]; intros t E; [by injection E as _ <-|].
  apply tx_bind_ok in E as (held & ? & [-> ->]%gets_ok & E). apply tx_bind_ok in E as ([] & t1 & E1 & E).
  etrans; [|exact (IH t1 E)]. case_bool_decide as Hh; [by injection E1 as <-|].
  apply enroll_pair_ok in E1 as [_ ->]. apply seats_added_seat. by apply eq_None_not_Some.
Qed.

(** What one attach leaves: more instances, and the one asked for when it says so. *)
Definition grows (t t' : Tables) : Prop :=
  (∀ c k, carries t c k → carries t' c k) ∧ dom (blueprints t) = dom (blueprints t').
#[export] Instance grows_pre : PreOrder grows.
Proof.
  split; [by intros t|]. intros t1 t2 t3 [H1 D1] [H2 D2]. split; [auto|congruence].
Qed.

Lemma carries_shape t c k : carries t c k ↔ ∃ i x, shapes t !! i = Some x ∧ sh_class x = c ∧ sh_course x = k.
Proof.
  unfold carries, map_Exists. setoid_rewrite shape_at. split.
  - intros (i & x & Hx & Hc & Hk). exists i, (shape x). by rewrite Hx.
  - intros (i & y & (x & Hx & ->)%fmap_Some & Hc & Hk). by exists i, x.
Qed.

Lemma early_refused c k src t v t' e :
  early_verdicts c ACourse (PCourse k) src t = Ok (v, t') → v.1.1 = Some e →
  t' = t ∧ match e with
    | EDuplicate => carries t c k
    | ESourceGone => ∃ r, src = Some r ∧ blueprints t !! r = None
    | _ => True
    end.
Proof.
  intros [-> ->]%gets_ok. case_bool_decide as Hc; [by intros [= <-]|].
  assert (match src with None => Some None | Some rung => Some ∘ b_key <$> blueprints t !! rung end = None →
    ∃ r, src = Some r ∧ blueprints t !! r = None) as Hsrc.
  { destruct src as [r|]; [|done]. intros Hr%fmap_None. by exists r. }
  destruct (match src with None => _ | Some _ => _ end); [|intros [= <-]; auto].
  destruct (Some ∘ kind <$> courses t !! k); [|by intros [= <-]].
  simpl. destruct (match groups t !! c with Some _ => _ | None => _ end); [by intros [= <-]|done].
Qed.

Lemma seat_course_cases i c k o by_ src at_ t r t' :
  seat_course i c k o by_ src at_ t = Ok (r, t') →
  match r with
  | Seated => instances t !! i = None
      ∧ t' = set_instances <[i := MkInstance c k o by_ src inherit_all 0 at_]> (set_groups (alter (on_courses bumped) c) t)
  | Clashed => t' = t ∧ carries t c k
  | _ => t' = t
  end.
Proof.
  unfold seat_course. destruct (groups t !! c) as [g|]; [|by intros [= <- <-]].
  destruct (class_course_count g <? cap ACourse); simpl; [|by intros [= <- <-]].
  destruct (has (instances t) i) eqn:Hi; [done|]. case_bool_decide as Hc; [by intros [= <- <-]|].
  destruct (has (courses t) k && has (users t) by_ && has (offerings t) o && _); intros [= <- <-]; [|done].
  split; [by apply has_false|done].
Qed.

Lemma attach_grows i c k by_ src o at_ at_o at' t v t' :
  attach_course_tx i c k by_ src o at_ at_o at' t = Ok (v, t') →
  grows t t' ∧ (refusal_code v ACourse = None ∨ refusal_code v ACourse = Some "duplicate"%string → carries t' c k)
  ∧ (refusal_code v ACourse = Some "blueprint_deleted"%string → ∃ r, src = Some r ∧ blueprints t !! r = None).
Proof.
  unfold attach_course_tx. intros E. apply tx_bind_ok in E as ([[ev source_id] knd] & t1 & Ev & E).
  destruct ev as [e|].
  { injection E as <- <-. destruct (early_refused _ _ _ _ _ _ e Ev eq_refl) as [-> He]. split; [done|].
    by destruct e; simpl; (split; [intros [[=]|[=]]|intros [=]]). }
  apply gets_ok in Ev as [_ ->]. destruct knd as [knd|]; [|done].
  destruct (is_class_delivered knd); [|done]. simpl in E.
  apply tx_bind_ok in E as (rung & ? & [-> ->]%gets_ok & E).
  destruct (grade_level <$> groups t !! c) as [rung|]; [|by injection E as <- <-; split_and!; [|intros []|]].
  apply tx_bind_ok in E as (off & t1 & Eo & E).
  assert (∃ f, t1 = set_offerings f t) as [f ->].
  { unfold ensure_tx in Eo. destruct (template t k rung); [injection Eo as _ <-; exists id; by destruct t|].
    repeat case_match; simplify_eq. by eexists. }
  apply tx_bind_ok in E as (seat & t2 & Es & E). apply seat_course_cases in Es. cbn in Es.
  destruct seat; [destruct Es as [Hi ->]|subst t2|destruct Es as [-> Hc]|subst t2];
    [|apply tx_bind_ok in E as (? & ? & [-> ->]%gets_ok & E); injection E as <- <-;
      destruct (has _ c); (split_and!; [done|by intros [[=]|[=]]|done])
     |by injection E as <- <-; split_and!; [|intros _|]
     |by injection E as <- <-; split_and!; [|intros [[=]|[=]]|]].
  apply tx_bind_ok in E as ([] & t3 & [= <-] & E).
  apply tx_bind_ok in E as (pairs & ? & [-> ->]%gets_ok & E).
  apply tx_bind_ok in E as ([] & t4 & Ef & E). apply enroll_pairs_added in Ef as (Ea & Hs & _).
  apply tx_bind_ok in E as (row & ? & [-> ->]%gets_ok & E).
  apply tx_bind_ok in E as (made & ? & [_ ->]%decide_ok & E). injection E as <- <-.
  unfold shapes in Hs at 2. cbn in Hs. rewrite fmap_insert in Hs.
  split_and!; [split| |done].
  - intros c' k'. rewrite !carries_shape. intros (j & x & Hj & Hx). exists j, x. split; [|done].
    rewrite Hs, lookup_insert_ne; [done|]. intros <-. by rewrite shape_at, Hi in Hj.
  - by rewrite Ea.
  - intros _. apply carries_shape. rewrite Hs. eexists i, _. split; [apply lookup_insert_eq|done].
Qed.

Lemma swept_verdict {T} e (v : Attached T) : map_sweep_abort (Err e) = Ok v → ∃ m, v = CourseGone m.
Proof.
  unfold map_sweep_abort. destruct e; try done. destruct (after_prefix COURSE_GONE_MARK m); [|done].
  intros [= <-]. by eexists.
Qed.

(** The same, of the call: its clock and ids, and the one error it turns into a verdict. *)
Lemma attach_alone c k by_ src w :
  undisturbed w →
  leads (attach_course c k by_ src) w (λ r t',
    grows (w_db w) t' ∧ ∀ v, r = Ok v →
      (skip_reason v = None → carries t' c k)
      ∧ (is_source_gone v = true → ∃ rung, src = Some rung ∧ blueprints (w_db w) !! rung = None)).
Proof.
  intros Hw. unfold attach_course. apply leads_now; [done|]. intros at_ w1 Hw1 E1.
  apply leads_fresh; [done|]. intros i w2 Hw2 E2. apply leads_now; [done|]. intros at_o w3 Hw3 E3.
  apply leads_fresh; [done|]. intros o w4 Hw4 E4. apply leads_now; [done|]. intros at' w5 Hw5 E5.
  assert (w_db w5 = w_db w) as Edb by congruence. clear E1 E2 E3 E4 E5 Hw1 Hw2 Hw3 Hw4 w1 w2 w3 w4.
  unfold leads. rewrite attempt_bind, atomic_alone by done. rewrite Edb.
  destruct (attach_course_tx _ _ _ _ _ _ _ _ _ _) as [[v t']|e] eqn:E; cbn [lift tick w_db w_env].
  - destruct (attach_grows _ _ _ _ _ _ _ _ _ _ _ _ E) as (Hg & Hmade & Hgone). split_and!; [done..|].
    intros v' [= <-]. split.
    + intros Hs. apply Hmade. destruct v; simpl in *; auto; discriminate.
    + intros Hs. apply Hgone. by destruct v.
  - split; [done|]. split; [done|]. intros v Hv. apply swept_verdict in Hv as [m ->]. by split; intros [=].
Qed.

(** A list that scans a table is as long as the count. *)
Lemma length_scan `{Countable K} {A} (P : K * A → Prop) `{!∀ p, Decision (P p)} (m : gmap K A) :
  Z.of_nat (length (filter P (map_to_list m))) = count P m.
Proof.
  induction m as [|i a m Hi IH] using map_ind; [done|].
  rewrite count_insert_fresh, <- IH by done. rewrite map_to_list_insert by done.
  rewrite filter_cons. case_decide; simpl; lia.
Qed.

(** What a run of the pump has accounted for. *)
Definition told_of (r : Run) (k : uuid) : Prop :=
  ∃ s, s ∈ skips r ∧ sk_course s = k ∧ sk_reason s = "course_deleted"%string.
Definition sound_run (r : Run) : Prop := ∀ k, k ∈ dead r → told_of r k.
Definition extends (r r' : Run) : Prop := (∀ s, s ∈ skips r → s ∈ skips r').
Definition accounted (t : Tables) (r : Run) (c k : uuid) : Prop :=
  carries t c k ∨ ∃ s, s ∈ skips r ∧ sk_course s = k ∧ (sk_class s = c ∨ sk_reason s = "course_deleted"%string).

Lemma accounted_grows t t' r r' c k : grows t t' → extends r r' → accounted t r c k → accounted t' r' c k.
Proof. intros [Hg _] He [Hc|(s & Hs & Hx)]; [left; auto|right; exists s; auto]. Qed.

Lemma noted_sound {T} (v : Attached T) c name k r :
  sound_run r → sound_run (noted v c name k r) ∧ extends r (noted v c name k r)
  ∧ (skip_reason v = None ∨ ∃ s, s ∈ skips (noted v c name k r) ∧ sk_course s = k ∧ sk_class s = c).
Proof.
  intros Hr. unfold noted.
  assert (extends r (noted v c name k r)) as He.
  { intros s Hs. unfold noted. simpl. destruct (skip_reason v); [set_solver|done]. }
  split_and!; [|done|].
  - intros k' Hk'. assert (k' ∈ dead r ∨ is_pivot_gone v = true ∧ k' = k) as [Hd|[Hp ->]].
    { simpl in Hk'. destruct (is_pivot_gone v); set_solver. }
    + destruct (Hr _ Hd) as (s & Hs & Hx). exists s. split; [by apply He|done].
    + destruct v; try done. eexists. simpl. split; [apply elem_of_app; right; by left|done].
  - destruct (skip_reason v) eqn:E; [right|by left]. eexists. simpl.
    split; [apply elem_of_app; right; by left|done].
Qed.

Lemma prune_grows rung k t : grows t (set_blueprints (alter (λ b, MkBlueprint (b_key b) (b_creator b) (Roster.b_courses b ∖ {[k]})) rung) t).
Proof. split; [done|]. cbn. by rewrite dom_alter_row. Qed.

Lemma apply_courses_alone rung todo c name by_ : ∀ r w,
  undisturbed w → rung ∈ dom (blueprints (w_db w)) → sound_run r →
  leads (apply_courses rung todo c name by_ r) w (λ out t', grows (w_db w) t' ∧ ∀ fin r', out = Ok (fin, r') →
    fin = true ∧ sound_run r' ∧ extends r r' ∧ ∀ k, k ∈ todo → accounted t' r' c k).
Proof.
  induction todo as [|k todo IH]; intros r w Hw Hr Hs; cbn [apply_courses].
  { apply leads_done. split; [done|]. intros fin r' [= <- <-]. split_and!; [done|done|by intros s|].
    by intros k ?%not_elem_of_nil. }
  case_bool_decide as Hd.
  { eapply leads_weaken; [by apply IH|]. intros out t' [Hg Ho]. split; [done|]. intros fin r' ->.
    destruct (Ho _ _ eq_refl) as (-> & Hs' & He & Hall). split_and!; [done..|].
    intros k' [->|Hk']%elem_of_cons; [|by apply Hall]. right. destruct (Hs _ Hd) as (s & Hin & Hx).
    exists s. destruct Hx. auto. }
  eapply leads_bind; [done|by apply attach_alone| |].
  { intros e t [Hg _]. split; [done|]. done. }
  intros v w1 Hw1 [Hg1 Hv]. destruct (Hv _ eq_refl) as [Hmade Hgone]. clear Hv.
  apply (leads_bind _ _ _ (λ _ t, grows (w_db w1) t)); [done| |by intros e t Hg; split; [by etrans|]|].
  { destruct (is_pivot_gone v).
    - apply leads_atomic; [done|]. apply prune_grows.
    - by apply leads_done. }
  intros [] w2 Hw2 Hg2. cbv zeta.
  destruct (noted_sound v c name k r Hs) as (Hs2 & He2 & Hk2).
  assert (is_source_gone v = false) as ->.
  { destruct (is_source_gone v) eqn:Eg; [|done]. destruct (Hgone eq_refl) as (x & [= <-] & Hx).
    by apply elem_of_dom in Hr as [? ?]; simplify_eq. }
  assert (grows (w_db w) (w_db w2)) as Hg by (by etrans).
  eapply leads_weaken; [apply IH; [done|by rewrite <- (proj2 Hg)|done]|].
  intros out t' [Hg3 Ho]. split; [by etrans|]. intros fin r' ->.
  destruct (Ho _ _ eq_refl) as (-> & Hs' & He & Hall). split_and!; [done..| |].
  - intros s Hin. by apply He, He2.
  - intros k' [->|Hk']%elem_of_cons; [|by apply Hall].
    destruct Hk2 as [Hn|(s & Hin & Hx & Hc)]; [left|right; exists s; auto].
    apply Hg3, Hg2, Hmade, Hn.
Qed.

Lemma pump_classes_alone b classes by_ : ∀ n r w,
  undisturbed w → h_rung b ∈ dom (blueprints (w_db w)) → sound_run r →
  leads (pump_classes b classes by_ n r) w (λ out t', grows (w_db w) t' ∧ ∀ m r', out = Ok (m, r') →
    m = n + Z.of_nat (length classes) ∧ extends r r'
    ∧ ∀ c g k, (c, g) ∈ classes → k ∈ h_courses b → accounted t' r' c k).
Proof.
  induction classes as [|[c g] classes IH]; intros n r w Hw Hr Hs; cbn [pump_classes].
  { apply leads_done. split; [done|]. intros m r' [= <- <-]. split_and!; [simpl; lia|by intros s|].
    by intros c g k ?%not_elem_of_nil. }
  eapply leads_bind; [done|by apply apply_courses_alone| |].
  { intros e t [Hg _]. split; [done|]. done. }
  intros [fin r1] w1 Hw1 [Hg1 Ho]. destruct (Ho _ _ eq_refl) as (-> & Hs1 & He1 & Hall1). cbn [fst snd].
  eapply leads_weaken; [apply IH; [done|by rewrite <- (proj2 Hg1)|done]|].
  intros out t' [Hg2 Ho2]. split; [by etrans|]. intros m r' ->.
  destruct (Ho2 _ _ eq_refl) as (-> & He2 & Hall2). split_and!; [simpl; lia| |].
  - intros s Hin. by apply He2, He1.
  - intros c' g' k [[= -> ->]|Hin]%elem_of_cons Hk; [|by eapply Hall2].
    eapply accounted_grows; [exact Hg2|exact He2|by apply Hall1].
Qed.

(** A pump that is left alone with a blueprint that stands accounts for
    every pair: it answers the number of sections on the rung, and each of them
    carries each course of the list, or the answer names the course, either
    under that section with the reason it did not fit or as deleted. No instance
    goes, and the blueprint stands. *)
Theorem pump_accounts_for_every_pair b by_ w :
  undisturbed w → is_Some (blueprints (w_db w) !! h_rung b) →
  leads (pump b by_) w (λ r t',
    (∀ c k, carries (w_db w) c k → carries t' c k) ∧ is_Some (blueprints t' !! h_rung b)
    ∧ ∀ b' report, r = Ok (b', report) →
      matched report = count (λ p : uuid * Group, grade_level p.2 = h_rung b) (groups (w_db w))
      ∧ ∀ c g k, groups (w_db w) !! c = Some g → grade_level g = h_rung b → k ∈ h_courses b →
          carries t' c k ∨ ∃ s, s ∈ skipped report ∧ sk_course s = k
            ∧ (sk_class s = c ∨ sk_reason s = "course_deleted"%string)).
Proof.
  intros Hw Hr%elem_of_dom. unfold pump, list_for_grade. apply leads_read; [done|]. intros w1 Hw1 E1.
  rewrite <- E1 in *. clear E1 Hw w.
  set (classes := filter (λ p : uuid * Group, grade_level p.2 = h_rung b) (map_to_list (groups (w_db w1)))).
  assert (∀ t', grows (w_db w1) t' → is_Some (blueprints t' !! h_rung b)) as Hstands.
  { intros t' [_ Hd]. apply elem_of_dom. by rewrite <- Hd. }
  eapply leads_bind; [done|apply (pump_classes_alone b classes by_ 0 (MkRun [] [])); [done..|]| |].
  - by intros k ?%not_elem_of_nil.
  - intros e t [Hg _]. split_and!; [apply Hg|by apply Hstands|done].
  - intros [n r1] w2 Hw2 [Hg Ho]. destruct (Ho _ _ eq_refl) as (-> & _ & Hall). apply leads_done.
    split_and!; [apply Hg|by apply Hstands|]. intros b' report [= <- <-]. simpl. split.
    + apply length_scan.
    + intros c g k Hc Hgr Hk. apply (Hall c g k); [|done]. apply list_elem_of_filter. split; [done|].
      by apply elem_of_map_to_list.
Qed.
End Pump.
