(* ===== verification/RoleRuns.v ===== *)
(** * The last admin

    Alone, a role change never leaves the school without an admin. Beside two
    others it can: an account read as no admin takes no lock on the admins, and
    may become one before its own demotion is written. *)

From S2P Require Import Prelude Text Errors Effects Uuid Validate Modules Appointments Tally Gates EventForms Seats Roster Roles RosterProofs RoleProofs.
Open Scope Z_scope.

Lemma other_admins_same u t t' :
  (∀ v, v ≠ u → users t' !! v = users t !! v) → other_admins u t' = other_admins u t.
Proof.
  intros Hsame. unfold other_admins. apply count_ext, map_eq. intros v.
  destruct (decide (v = u)) as [->|Hne].
  - transitivity (@None Account); [|symmetry]; apply map_lookup_filter_None; right; intros a _ [_ H]; by apply H.
  - by rewrite !map_lookup_filter, Hsame.
Qed.

Lemma admins_split u t a :
  users t !! u = Some a → admins t = other_admins u t + if decide (role a = Admin) then 1 else 0.
Proof.
  intros Ha. unfold admins, other_admins.
  rewrite (count_delete _ (users t) u a Ha), (count_delete (λ p : uuid * Account, role p.2 = Admin ∧ p.1 ≠ u) (users t) u a Ha).
  rewrite (decide_False (P := role (u, a).2 = Admin ∧ (u, a).1 ≠ u)) by (simpl; tauto).
  assert (count (λ p : uuid * Account, role p.2 = Admin) (delete u (users t))
    = count (λ p : uuid * Account, role p.2 = Admin ∧ p.1 ≠ u) (delete u (users t))) as ->; [|simpl; lia].
  apply count_ext, map_filter_ext. intros v x [Hne _]%lookup_delete_Some. simpl. naive_solver.
Qed.

(** What the cascade leaves of the admins. *)
Lemma cascade_admins u r others at_ t out t' :
  cascade_tx u r others at_ t = Ok (out, t') →
  admins t' = other_admins u t + (if decide (r = Admin) then 1 else 0)
  ∧ (role <$> users t !! u = Some Admin → r ≠ Admin → others ≠ 0).
Proof.
  intros (a0 & Ha & _ & -> & Hf)%cascade_ok. split; [|rewrite Ha; intros [= E]; auto].
  destruct (seated_same u r at_ (shed_for u r at_ (with_account u r a0 t))) as (Hu & _).
  assert (users (after_cascade u r a0 at_ t) = <[u := with_role r a0]> (users t)) as Hus.
  { unfold after_cascade. rewrite Hu. unfold shed_for. by destruct (decide (r = Student)). }
  rewrite (admins_split u _ (with_role r a0)) by (rewrite Hus; apply lookup_insert_eq). simpl. f_equal.
  apply other_admins_same. intros v Hv. rewrite Hus. by rewrite lookup_insert_ne.
Qed.

(** C36. A school that has an admin and is left alone with the request has one
    when it answers, whatever account is given whatever role. *)
Theorem the_school_keeps_an_admin u r w :
  undisturbed w → 1 ≤ admins (w_db w) → leads (set_role u r) w (λ _ t', 1 ≤ admins t').
Proof.
  intros Hw Hone. unfold set_role. apply leads_read; [done|]. intros w1 Hw1 E1. apply leads_lift.
  destruct (users (w_db w) !! u) as [a|] eqn:Ha; simpl; [|by rewrite E1].
  rewrite <- E1 in Hone, Ha. clear E1 Hw w. unfold set_role_cascade. apply leads_now; [done|].
  intros at_ w2 Hw2 E2. rewrite <- E2 in Hone, Ha. clear E2 Hw1 w1.
  assert (∀ others w3, undisturbed w3 → w_db w3 = w_db w2 →
    (role a = Admin → r ≠ Admin → others = other_admins u (w_db w2)) →
    leads (atomic (cascade_tx u r others at_)) w3 (λ _ t', 1 ≤ admins t')) as Hrun.
  { intros others w3 Hw3 E3 Ho. apply leads_atomic; [done|]. rewrite E3.
    destruct (cascade_tx u r others at_ (w_db w2)) as [[out t']|] eqn:E; [|done].
    apply cascade_admins in E as [-> Hfloor]. rewrite Ha in Hfloor.
    pose proof (admins_split u (w_db w2) a Ha) as Hsplit. pose proof (count_nonneg (λ p : uuid * Account, role p.2 = Admin ∧ p.1 ≠ u) (users (w_db w2))) as Hpos.
    change (0 ≤ other_admins u (w_db w2)) in Hpos.
    destruct (decide (r = Admin)); [lia|]. destruct (decide (role a = Admin)) as [Hr|]; [|lia].
    rewrite <- Ho in * by done. simpl in Hfloor. rewrite Hr in Hfloor. specialize (Hfloor eq_refl ltac:(done)). lia. }
  destruct (decide (r = Admin)); [by apply Hrun|]. apply leads_read; [done|]. intros w3 Hw3 E3. rewrite Ha.
  simpl. destruct (decide (Some (role a) = Some Admin)) as [Hadm|Hadm].
  - apply leads_atomic; [done|]. rewrite tx_bind_gets, E3. destruct (admins (w_db w2) <=? 1); [done|].
    rewrite tx_bind_gets. specialize (Hrun (other_admins u (w_db w2)) w3 Hw3 E3 (λ _ _, eq_refl)).
    unfold leads in Hrun. rewrite atomic_alone, E3 in Hrun by done.
    destruct (cascade_tx _ _ _ _ _) as [[]|]; apply Hrun.
  - apply leads_read; [done|]. intros w4 Hw4 E4. apply Hrun; [done|congruence|]. congruence.
Qed.

(** ** Runs *)

Definition nowhere : Elsewhere :=
  MkElsewhere ∅ ∅ ∅ ∅ ∅ ∅ (Appointments.MkTables ∅ ∅ ∅ ∅) ∅.
Definition school_of (accounts : gmap uuid Account) : Tables :=
  MkTables accounts ∅ ∅ ∅ ∅ ∅ ∅ ∅ ∅ ∅ ∅ nowhere.

(** A head and a deputy, one admin between them. *)
Definition office : Tables :=
  school_of (<[1%N := MkAccount (lit "head") Admin None]> (<[2%N := MkAccount (lit "deputy") Manager None]> ∅)).
Definition noon : nat → Z := λ n, 1000 + Z.of_nat n.
Definition minted : nat → N := λ n, (100 + N.of_nat n)%N.

(** What a request leaves when nobody interferes with it. *)
Definition after {A} (m : io Tables A) (t : Tables) : Tables := w_db (m (quiet t noon minted)).2.

(** While the deputy's demotion is under way, between its count and its write,
    two more requests run from beginning to end: the deputy is promoted, and
    then the head steps down. *)
Definition handover : World Tables :=
  MkWorld office 0 (λ n t, if (n =? 4)%nat then after (set_role 1%N Teacher) (after (set_role 2%N Admin) t) else t) noon minted.

(** The floor can be raced past: three role changes, each of which leaves an
    admin when it runs alone, leave none. *)
Theorem three_role_changes_leave_no_admin :
  admins office = 1
  ∧ match (set_role 2%N Teacher handover).1 with Ok out => role out.1 = Teacher | Err _ => False end
  ∧ admins (w_db (set_role 2%N Teacher handover).2) = 0.
Proof. split_and!; by vm_compute. Qed.
