(* ===== verification/RosterRuns.v ===== *)
(** * A small school

    Built by its own requests from a few accounts, one after another: a year, a
    section of the ninth grade, two courses on it, two members and one student
    placed by hand. The concrete inputs of the roster's theorems. *)

From S2P Require Import Prelude Text Errors Effects Uuid Validate Modules Appointments AppointmentProofs Tally Gates EventForms Seats Roster Roles Catalog Years Blueprints RosterProofs RoleProofs CatalogProofs RosterKeeps RosterExact StaffProofs TeachingProofs RoleRuns.
Open Scope Z_scope.

Abbreviation roster_ok := RosterProofs.ok.

(** Requests one after another, each with ids of its own. *)
Fixpoint replay (k : N) (qs : list Request) (t : Tables) : Tables :=
  match qs with
  | [] => t
  | q :: qs => replay (k + 1) qs (w_db (perform q (quiet t noon (λ n, 1000 * k + N.of_nat n)%N)).2)
  end.

Definition no_unenroll (q : Request) : bool := match q with Unenroll _ _ => false | _ => true end.

Lemma replay_ok qs : ∀ k t, forallb no_unenroll qs = true → roster_ok t → roster_ok (replay k qs t).
Proof.
  induction qs as [|q qs IH]; intros k t Hq Hok; [done|]. simpl in Hq. apply andb_true_iff in Hq as [Hq1 Hq].
  cbn [replay]. apply IH; [done|].
  assert (fine whatever (perform q)) as Hf.
  { apply perform_fine; [apply _|intros ? ? ?; done|]. intros i u ->. done. }
  specialize (Hf (quiet t noon (λ n, 1000 * k + N.of_nat n)%N)).
  destruct (perform q _) as [r w']. destruct Hf as (? & _); [by intros n s Hs|done|done|done].
Qed.

Lemma school_ok accounts : roster_ok (school_of accounts).
Proof. split; [split|]; try done; intros ? ? ?; by rewrite ?lookup_fmap, ?lookup_empty. Qed.

Definition people : gmap uuid Account :=
  list_to_map [(1%N, MkAccount (lit "head") Admin None); (2%N, MkAccount (lit "ms_k") Teacher None);
    (3%N, MkAccount (lit "ada") Student None); (4%N, MkAccount (lit "bora") Student None);
    (5%N, MkAccount (lit "can") Student None)].

Definition opening : list Request :=
  [CreateYear 1%N (lit "2026") 10 20 [(9, 10)];
   CreateGroup 1%N (lit "9A") 9 (Some 1000%N) (Some 2%N);
   CreateCourse 1%N (lit "maths") [] (lit "course");
   CreateCourse 1%N (lit "physics") [] (lit "course");
   AddMember 2000%N 3%N 1%N;
   Attach 2000%N 3000%N 1%N;
   Attach 2000%N 4000%N 1%N;
   AddMember 2000%N 4%N 1%N;
   Enroll 6001%N 5%N 1%N;
   AssignTeacher 6001%N 2%N 1%N].

Definition first_week : Tables := replay 1 opening (school_of people).

Lemma first_week_ok : roster_ok first_week.
Proof. apply replay_ok; [done|apply school_ok]. Qed.

Example first_week_rosters :
  (class_member_count <$> groups first_week !! 2000%N, enrollment_count <$> instances first_week !! 6001%N,
   enrollment_count <$> instances first_week !! 7001%N, size (enrollments first_week))
  = (Some 2, Some 3, Some 2, 5%nat).
Proof. by vm_compute. Qed.

(** ** The theorems at it *)

#[local] Opaque first_week.

Lemma no_seat_is_lost_witness :
  outline roster_ok no_new_gap no_new_gap (λ _, True) (perform (Leave 2000%N 3%N)) anything.
Proof. apply (no_seat_is_lost (Leave 2000%N 3%N)). intros i u. discriminate. Defined.

Lemma adding_is_exact_witness :
  match add_member_tx 50%N 2000%N 5%N 1%N None 7 8 first_week with
  | Ok (v, t') => entered 50%N 2000%N 5%N 1%N None 7 8 first_week t' v
  | Err e => e = unique_violation ∧ is_Some (stints first_week !! 50%N)
  end
  ∧ bool_decide (role <$> users first_week !! 5%N = Some Student) = true.
Proof.
  pose proof (adding_is_exact 50%N 2000%N 5%N 1%N None 7 8 first_week first_week_ok) as H.
  split; [exact H|by vm_compute].
Defined.

(** What a committed transaction left. *)
Definition left_by {A} (m : tx Tables A) (t : Tables) (z : A) : A * Tables :=
  match m t with Ok out => out | Err _ => (z, t) end.
Lemma left_by_ok {A} (m : tx Tables A) t z :
  (match m t with Ok _ => true | Err _ => false end) = true → m t = Ok ((left_by m t z).1, (left_by m t z).2).
Proof. unfold left_by. by destruct (m t) as [[]|]. Qed.

Definition gone_home : Z * Tables := left_by (drop_member_tx 2000%N 3%N true 9) first_week 0.
#[local] Opaque gone_home.

Lemma leaving_is_exact_witness :
  (gone_home.1 = 1 ∧ ¬ is_live_member gone_home.2 2000%N 3%N)
  ∧ bool_decide (enrollments gone_home.2 !! (6001%N, 3%N) = None) = true
  ∧ bool_decide (is_Some (enrollments gone_home.2 !! (6001%N, 5%N))) = true.
Proof.
  split; [|split; by vm_compute].
  pose proof (leaving_is_exact 2000%N 3%N true 9 first_week gone_home.1 gone_home.2 first_week_ok
    (left_by_ok (drop_member_tx 2000%N 3%N true 9) first_week 0 ltac:(by vm_compute))) as H.
  destruct (decide (is_live_member first_week 2000%N 3%N)) as [Hl|Hl];
    [destruct H as (H1 & H2 & _); split; [exact H1|exact H2]|].
  destruct Hl. apply (bool_decide_unpack _). by vm_compute.
Defined.

(** A student becomes a teacher, and a teacher a student, and a parent. *)
Definition nobody : Account * list (uuid * Board) := (MkAccount [] Parent None, []).
Definition promoted := left_by (cascade_tx 3%N Teacher 1 9) first_week nobody.
Definition demoted (r : Role) := left_by (cascade_tx 2%N r 1 9) first_week nobody.
#[local] Opaque promoted demoted.

Lemma demotion_sheds_the_student_witness :
  (∀ i, enrollments promoted.2 !! (i, 3%N) = None)
  ∧ bool_decide (is_Some (enrollments promoted.2 !! (6001%N, 4%N))) = true
  ∧ bool_decide (is_Some (enrollments first_week !! (6001%N, 3%N))) = true.
Proof.
  split; [|split; by vm_compute].
  pose proof (demotion_sheds_the_student 3%N Teacher 1 9 first_week promoted.1 promoted.2
    ltac:(done) (left_by_ok (cascade_tx 3%N Teacher 1 9) first_week nobody ltac:(by vm_compute))) as (_ & _ & _ & H & _).
  intros i. rewrite H. by rewrite decide_True.
Defined.

Lemma empty_calendar_ok c : slots c = ∅ → appointments c = ∅ → AppointmentProofs.ok c.
Proof.
  intros Hs Ha. split; rewrite ?Hs, ?Ha; try done.
  - by intros s [x Hx].
  - intros s. unfold AppointmentProofs.live_on. rewrite Ha. by vm_compute.
Qed.

Lemma role_change_keeps_the_calendar_witness :
  AppointmentProofs.ok (calendar (elsewhere (demoted Student).2)).
Proof.
  apply (role_change_keeps_the_calendar 2%N Student 1 9 first_week (demoted Student).1).
  - apply empty_calendar_ok; by vm_compute.
  - exact (left_by_ok (cascade_tx 2%N Student 1 9) first_week nobody ltac:(by vm_compute)).
Defined.

Lemma posts_go_unless_parent_witness :
  no_posts (demoted Student).2 2%N ∧ assigned (demoted Parent).2 = {[(6001%N, 2%N)]}
  ∧ bool_decide (g_teacher <$> groups (demoted Parent).2 !! 2000%N = Some (Some 2%N)) = true.
Proof.
  split_and!; [| |by vm_compute].
  - exact (posts_go_unless_parent 2%N Student 1 9 first_week (demoted Student).1 (demoted Student).2 eq_refl
      (left_by_ok (cascade_tx 2%N Student 1 9) first_week nobody ltac:(by vm_compute))).
  - destruct (posts_go_unless_parent 2%N Parent 1 9 first_week (demoted Parent).1 (demoted Parent).2 eq_refl
      (left_by_ok (cascade_tx 2%N Parent 1 9) first_week nobody ltac:(by vm_compute))) as [-> _]. by vm_compute.
Defined.

Lemma the_school_keeps_an_admin_witness :
  leads (set_role 1%N Teacher) (quiet first_week noon minted) (λ _ t', 1 ≤ admins t').
Proof. apply (the_school_keeps_an_admin 1%N Teacher (quiet first_week noon minted)); [done|by vm_compute]. Defined.

Definition maths_of_9A : Instance := default (MkInstance 0 0 0 0 None inherit_all 0 0)%N (instances first_week !! 6001%N).
Lemma patch_shows_and_reset_falls_back_witness :
  leads (y ← update_instance 6001%N (Some (lit "maths, advanced")) None (Some 4) None; resolve y)
    (quiet first_week noon minted)
    (λ r _, r = Ok (MkResolved (lit "maths, advanced") true [] false (MkPolicy 4 true))).
Proof.
  destruct (patch_shows_and_reset_falls_back 6001%N maths_of_9A (quiet first_week noon minted)) as (f & f0 & Hf & _ & H & _);
    [done|exact first_week_ok|by vm_compute|].
  assert (face first_week maths_of_9A = Some (MkResolved (lit "maths") false [] false (MkPolicy 1 true))) as E
    by (by vm_compute).
  pose proof (eq_trans (eq_sym Hf) E) as [= ->].
  exact (H (Some (lit "maths, advanced")) None (Some 4) None).
Defined.

(** A blueprint for the ninth grade, over the two courses. *)
Definition planned : Tables :=
  replay 20 [CreateCourse 1%N (lit "music") [] (lit "course"); CreateBlueprint 1%N 9 [3000%N; 20000%N]] first_week.
#[local] Opaque planned maths_of_9A.
Definition ninth : Handle := MkHandle 9 [3000%N; 20000%N] 1%N.

Lemma pump_accounts_for_every_pair_witness :
  leads (pump ninth 1%N) (quiet planned noon (λ n, 30000 + N.of_nat n)%N) (λ r t',
    (∀ c k, carries planned c k → carries t' c k)
    ∧ match r with Ok (_, report) => matched report = 1 ∧ skipped report = [] | Err _ => False end).
Proof.
  pose proof (pump_accounts_for_every_pair ninth 1%N (quiet planned noon (λ n, 30000 + N.of_nat n)%N)
    ltac:(done) ltac:(apply (bool_decide_unpack _); by vm_compute)) as H.
  unfold leads in *. destruct (pump ninth 1%N _) as [r w'] eqn:E. destruct H as (Henv & Hc & _ & _).
  split; [exact Henv|split; [exact Hc|]].
  assert (r = (pump ninth 1%N (quiet planned noon (λ n, 30000 + N.of_nat n)%N)).1) as -> by (by rewrite E).
  clear. by vm_compute.
Defined.

