(* ===== verification/EventRuns.v ===== *)
(** * A school fair

    The small school of [RosterRuns] publishes a list with one seat, fills it and
    takes a roll; the theorems on events are applied there. The last section runs
    a registration past the closing of its list. *)

From S2P Require Import Prelude Text Errors Effects Answers Uuid Validate Modules Appointments Tally Gates EventForms Seats Roster Events EventRoutes Roles Catalog Years Blueprints RosterProofs RoleProofs CatalogProofs EventKeeps EventFacts RosterKeeps RoleRuns RosterRuns.

Open Scope Z_scope.

#[local] Existing Instance hyphenated.

Definition head : User := MkUser 1 Admin.
Definition ms_k : User := MkUser 2 Teacher.

(** The [k]-th request of the day, alone. *)
Definition day (k : N) (t : Tables) : World Tables := quiet t noon (λ n, 1000 * k + N.of_nat n)%N.
Definition run_event (k : N) (q : EventRequest) (t : Tables) : Tables := w_db (perform_event q (day k t)).2.
Fixpoint run_events (k : N) (qs : list EventRequest) (t : Tables) : Tables :=
  match qs with [] => t | q :: qs => run_events (k + 1) qs (run_event k q t) end.

Lemma run_events_ok qs : ∀ k t, roster_ok t → roster_ok (run_events k qs t).
Proof.
  induction qs as [|q qs IH]; intros k t Hok; [done|]. cbn [run_events]. apply IH.
  pose proof (perform_event_answers ok no_new_gap True (λ _ _, True)) as Hf.
  assert (answers ok no_new_gap (perform_event q) (λ _, True)) as Ha.
  { apply Hf; eauto using insert_event_moves, delete_event_moves, claim_seat_moves, remove_seat_moves, event_mark_moves, remove_mark_moves.
    - intros i p Hp _. by apply update_event_moves.
    - by destruct q. }
  specialize (Ha (day k t)). unfold run_event. destruct (perform_event q (day k t)) as [r w'].
  destruct Ha as (? & _); [by intros n s Hs|done|done|done].
Qed.

(** One seat, until 5000. *)
Definition fair_form : CreateEvent :=
  MkCreateEvent (lit "fair") None (Some (DtoRegistration (Some 1))) (Some 5000) None.
Definition the_fair : uuid := 50001%N.

Definition fair : Tables := run_events 50 [Publish ms_k fair_form] first_week.
Definition fair_full : Tables :=
  run_events 60 [SignUp ms_k the_fair None; SignUp ms_k the_fair (Some (uuid_text 3%N));
    MarkOne ms_k the_fair [lit "present"] (lit "present") None] fair.

Lemma fair_ok : roster_ok fair.
Proof. apply run_events_ok, first_week_ok. Qed.
Lemma fair_full_ok : roster_ok fair_full.
Proof. apply run_events_ok, fair_ok. Qed.

Example fair_has_one_seat :
  (event_of the_fair fair ≫= (λ ev, au_capacity (ev_audience ev)), seats_taken the_fair fair, seats_taken the_fair fair_full,
   seat_of the_fair 3%N fair_full, at_status <$> mark_of the_fair 2%N fair_full)
  = (Some 1, 0, 1, None, Some (lit "present")).
Proof. by vm_compute. Qed.

(** ** The theorems at it *)

#[local] Opaque fair fair_full.

Definition register_at_the_fair : EventRequest := SignUp ms_k the_fair (Some (uuid_text 3%N)).

Lemma seats_within_capacity_witness :
  outline ok (within 1 the_fair) (within 1 the_fair) (λ _, True) (perform_event register_at_the_fair) anything.
Proof. apply (seats_within_capacity 1 the_fair register_at_the_fair). exact I. Defined.

(** The teacher falls to parent before the fair, and after it. *)
Definition fallen (at_ : Z) := left_by (cascade_tx 2%N Parent 1 at_) fair_full nobody.
#[local] Opaque fallen.

Lemma fall_frees_what_is_open_witness :
  seat_of the_fair 2%N (fallen 1000).2 = None
  ∧ bool_decide (is_Some (seat_of the_fair 2%N (fallen 9000).2)) = true
  ∧ bool_decide (is_Some (seat_of the_fair 2%N fair_full)) = true.
Proof.
  split; [|split; by vm_compute].
  destruct (fall_frees_what_is_open 2%N 1 1000 fair_full (fallen 1000).1 (fallen 1000).2 (quiet fair_full noon minted)
    (left_by_ok (cascade_tx 2%N Parent 1 1000) fair_full nobody ltac:(by vm_compute)) fair_full_ok eq_refl) as [_ H].
  rewrite H. destruct (seat_of the_fair 2%N fair_full); [|done].
  destruct (event_of the_fair fair_full) as [ev|] eqn:Hev; [|done]. rewrite decide_True; [done|]. split; [done|].
  assert (option_map (λ ev, bool_decide ((registration_capacity ev (quiet fair_full noon minted)).1 = Err list_closed))
    (event_of the_fair fair_full) = Some false) as E by (by vm_compute).
  rewrite Hev in E. injection E as E. by apply bool_decide_eq_false in E.
Defined.

Definition the_event : Event :=
  default (MkEvent 0%N [] [] (of_kind KindSchool) None None 0) (event_of the_fair fair_full).
#[local] Opaque the_event.

Lemma markable_is_expected_witness :
  (includes fair_full the_fair the_event ms_k = true ↔ 2%N ∈ members fair_full the_fair the_event)
  ∧ bool_decide (2%N ∈ members fair_full the_fair the_event) = true
  ∧ bool_decide (3%N ∈ members fair_full the_fair the_event) = false.
Proof.
  split; [|split; by vm_compute].
  apply (markable_is_expected fair_full the_fair the_event 2%N ms_k). by vm_compute.
Defined.

Lemma report_names_everyone_once_witness :
  (roster ms_k the_fair None None (day 70 fair_full)).1 = Ok ([MkRosterEntry 2%N (Some (lit "present")) (Some 2%N)], 1).
Proof.
  destruct (report_names_everyone_once ms_k the_fair None None None 0 the_event (day 70 fair_full)) as (people & Hnd & Hs & Hin & Hrun);
    [done|exact fair_full_ok|done|done|by vm_compute|].
  assert (people ≡ₚ [2%N]) as Hp.
  { apply NoDup_Permutation; [done|by apply NoDup_singleton|]. intros v. rewrite Hin.
    assert (members fair_full the_fair the_event = [2%N]) as E by (by vm_compute). unfold day. simpl. by rewrite E. }
  apply Permutation_singleton_r in Hp as ->. unfold leads in Hrun.
  destruct (roster ms_k the_fair None None (day 70 fair_full)) as [r w']. destruct Hrun as [_ [-> ->]]. by vm_compute.
Defined.

Lemma registration_is_exact_witness :
  leads (register the_fair 3%N 2%N) (day 70 fair_full) (λ r t', r = Err event_full ∧ t' = fair_full).
Proof.
  destruct (registration_is_exact the_fair 3%N 2%N (day 70 fair_full)) as [at' H]; [done|].
  eapply leads_weaken; [exact H|]. intros r t' E.
  unfold register_answer in E. change (w_db (day 70 fair_full)) with fair_full in E.
  assert (seat_of the_fair 3%N fair_full = None) as Es by (by vm_compute).
  assert (event_of the_fair fair_full = Some the_event) as Ee by (by vm_compute).
  assert (capacity_answer the_event 1002 = Ok (Some 1)) as Ec by (by vm_compute).
  assert (bool_decide (role <$> users fair_full !! 3%N = Some Parent) = false) as Er by (by vm_compute).
  assert (negb (has (users fair_full) 3%N) || full the_event = true) as Ef by (by vm_compute).
  rewrite Es, Ee in E. change (w_clock _ _) with 1002 in E. rewrite Ec, Er, Ef in E.
  exact (conj (f_equal fst E) (f_equal snd E)).
Defined.

(** The next day's window. *)
Definition tomorrow : WindowParams := MkWindow (Some 4000) None None None.
Lemma list_is_the_window_of_all_witness :
  leads (list_events tomorrow (Some 10) None) (day 70 fair_full) (λ r t',
    r = Ok ([(the_fair, the_event)], 1)).
Proof.
  destruct (list_is_the_window_of_all tomorrow (Some 10) None (Some 10) 0 (day 70 fair_full)) as (rows & Hp & _ & H);
    [done|done|done|by vm_compute|].
  assert (rows ≡ₚ [(the_fair, the_event)]) as Hr.
  { rewrite Hp. assert (filter (λ p : uuid * Event, retained tomorrow p.2 = true) (map_to_list (events (elsewhere fair_full)))
      = [(the_fair, the_event)]) as E by (by vm_compute). exact (reflexive_eq _ _ E). }
  apply Permutation_singleton_r in Hr as ->. eapply leads_weaken; [exact H|]. intros r t' [_ ->]. done.
Defined.

(** ** Past the closing *)

(** The gate reads the clock before the claim does, and the claim asks the row for
    its seats only. *)
Definition late_clock (n : nat) : Z := if (n <? 6)%nat then 1000 else 6000.
(** Between the gate and the claim the list becomes a school event. *)
Definition turned (n : nat) (t : Tables) : Tables :=
  if (n =? 7)%nat
  then run_event 80 (Edit ms_k the_fair (MkUpdateEvent None None (Some DtoSchool) None None)) t else t.

(** A seat may be handed out after its list has closed, and on an event that
    is no list any more: the claim holds nothing of what the gate read, neither the
    hour nor the audience. *)
Theorem a_seat_after_the_close :
  match (register_user ms_k the_fair None (MkWorld fair 0 (λ _ t, t) late_clock minted)).1 with
  | Ok seat => 5000 ≤ rg_created_at seat
  | Err _ => False
  end
  ∧ (let out := register_user ms_k the_fair None (MkWorld fair 0 turned noon minted) in
     is_ok out.1 = true ∧ au_kind ∘ ev_audience <$> event_of the_fair (w_db out.2) = Some KindSchool).
Proof. by vm_compute. Qed.
