(* ===== verification/Sight.v ===== *)
(** * What a caller may see and run ([src/service/instance.rs],
    [src/service/class_course.rs], [src/service/parent_link.rs],
    [src/web/instances.rs], [src/db/class_course.rs])

    The questions every instance-scoped surface asks before it reads or writes,
    on any tables that sit beside a school's. *)

From S2P Require Import Prelude Text Errors Effects Uuid Validate Modules Gates Roster Events.

Open Scope Z_scope.

(** ** Listings *)

(** [class_member::list_for_user]: [joined_at DESC, id DESC]. *)
Definition stints_of (t : Tables) (u : uuid) : list (uuid * Stint) :=
  merge_sort newest_stint
    (filter (λ p : uuid * Stint, st_user p.2 = u ∧ left_at p.2 = None) (map_to_list (stints t))).

(** [class_group::list_for_teacher]: [id DESC]. *)
Definition homerooms_of (t : Tables) (u : uuid) : list uuid :=
  descending (dom (filter (λ p : uuid * Group, g_teacher p.2 = Some u) (groups t))).

(** [attached_at DESC, id DESC]. *)
Definition newest_instance (p q : uuid * Instance) : Prop :=
  attached_at q.2 < attached_at p.2 ∨ (attached_at p.2 = attached_at q.2 ∧ (q.1 ≤ p.1)%N).
#[export] Instance newest_instance_dec : RelDecision newest_instance.
Proof. intros p q. unfold newest_instance. apply _. Defined.

Definition list_for_class_ids (t : Tables) (classes : list uuid) : list (uuid * Instance) :=
  merge_sort newest_instance
    (filter (λ p : uuid * Instance, i_class p.2 ∈ classes) (map_to_list (instances t))).
Definition list_for_teacher_ids (t : Tables) (u : uuid) : list (uuid * Instance) :=
  merge_sort newest_instance
    (filter (λ p : uuid * Instance, (p.1, u) ∈ assigned t) (map_to_list (instances t))).

(** [enrollment::list_for_class_course]: [app_user DESC]. *)
Definition enrolled_in (t : Tables) (i : uuid) : list uuid :=
  descending (set_map snd (filter (λ p : uuid * uuid, p.1 = i) (dom (enrollments t)))).

Section Sight.
Context `{School D}.

Definition instance_or_404 (i : uuid) : io D Instance :=
  row ← atomic (gets (λ s, instances (the_school s) !! i));
  lift (ok_or row NotFound).

(** [ensure_instance_teacher] asked as a boolean: any refusal reads as no. *)
Definition can_manage_instance (u : User) (i : uuid) : io D bool :=
  r ← attempt (ensure_instance_teacher (uid u) (get_role u) i);
  mret (is_ok r).

Definition can_view_instance (u : User) (i : uuid) : io D bool :=
  manages ← can_manage_instance u i;
  if manages : bool then mret true else
  seat ← atomic (read_for_user i (uid u));
  mret (bool_decide (is_Some seat)).

(** [visible_instances]: each with whether the caller runs it. *)
Definition visible_instances (u : User) : io D (list ((uuid * Instance) * bool)) :=
  let staff := at_least (get_role u) Teacher in
  members ← atomic (gets (λ s, stints_of (the_school s) (uid u)));
  let classes := (λ p : uuid * Stint, st_class p.2) <$> members in
  homeroom ← (if staff then atomic (gets (λ s, homerooms_of (the_school s) (uid u))) else mret []);
  let classes := classes ++ filter (λ c, c ∉ classes) homeroom in
  rows ← (if bool_decide (classes = []) then mret [] else
    atomic (gets (λ s, list_for_class_ids (the_school s) classes)));
  let rows := (λ p : uuid * Instance, (p, bool_decide (i_class p.2 ∈ homeroom))) <$> rows in
  if negb staff then mret rows else
  taught ← atomic (gets (λ s, list_for_teacher_ids (the_school s) (uid u)));
  mret (rows ++ ((λ p : uuid * Instance, (p, true)) <$>
    filter (λ p : uuid * Instance, p.1 ∉ (λ r : (uuid * Instance) * bool, r.1.1) <$> rows) taught)).

(** [parent_link::links_live], and [ensure_can_observe]. *)
Definition links_live (parent student : uuid) : io D bool :=
  there ← atomic (gets (λ s, bool_decide ((parent, student) ∈ parent_links (elsewhere (the_school s)))));
  if negb there then mret false else
  row ← atomic (gets (λ s, users (the_school s) !! student));
  mret (bool_decide (role <$> row = Some Student)).

Definition not_observer : AppError :=
  Forbidden "requires teacher role or higher, or a parent link to this student".

Definition ensure_can_observe (caller : User) (target : uuid) : io D () :=
  if at_least (get_role caller) Teacher then mret () else
  tied ← (if bool_decide (get_role caller = Parent) then links_live (uid caller) target else mret false);
  if tied : bool then mret () else raise not_observer.
End Sight.
