(* ===== verification/HomeworkForms.v ===== *)
(** * Homework as values ([src/domain/homework.rs],
    [src/domain/homework_submission.rs], [src/domain/homework_result.rs],
    [src/domain/homework_file.rs], [src/domain/note_file.rs])

    An assignment of an instance with its optional subset of students, one
    student's hand-in, its files, and a grade, with their validators. *)

From S2P Require Import Prelude Text Errors Effects Uuid Validate Modules Gates.

Open Scope Z_scope.

Definition MAX_HOMEWORK_TITLE_LEN : Z := 200.
Definition MAX_HOMEWORK_DESCRIPTION_LEN : Z := 2000.
Definition MAX_HOMEWORK_TEXT_LEN : Z := 5000.
Definition MAX_HOMEWORK_FILES_PER_SUBMISSION : Z := 10.
Definition MAX_HOMEWORK_ASSIGNED : Z := 200.
Definition MAX_FILE_NAME_LEN : Z := 255.
Definition MAX_FILE_CONTENT_TYPE_LEN : Z := 100.

(** ** Validated text *)

Definition homework_title_try_new (value : str) : result ValidationError str :=
  _ ← validate_required "title" value MAX_HOMEWORK_TITLE_LEN; Ok value.
Definition homework_description_try_new (value : str) : result ValidationError str :=
  _ ← validate_optional "description" value MAX_HOMEWORK_DESCRIPTION_LEN; Ok value.
Definition submission_text_try_new (value : str) : result ValidationError str :=
  _ ← validate_optional "text" value MAX_HOMEWORK_TEXT_LEN; Ok value.
Definition homework_status_try_new (value : str) : result ValidationError str :=
  _ ← validate_homework_status value; Ok value.

Definition is_control (c : char) : bool := ((c <? 32) || ((127 <=? c) && (c <? 160)))%N.

Definition file_name_try_new (value : str) : result ValidationError str :=
  let value := trim value in
  if bool_decide (value = []) then Err (Empty "filename") else
  if MAX_FILE_NAME_LEN <? char_count value
  then Err (TooLong "filename" MAX_FILE_NAME_LEN (char_count value)) else
  if existsb (λ c, is_control c || (c =? 47)%N || (c =? 92)%N) value
  then Err (Invalid "filename" "must not contain path separators or control characters") else
  Ok value.

Definition file_content_type_try_new (value : str) : result ValidationError str :=
  let value := trim value in
  if bool_decide (value = []) then Ok (lit "application/octet-stream") else
  if MAX_FILE_CONTENT_TYPE_LEN <? char_count value
  then Err (TooLong "content_type" MAX_FILE_CONTENT_TYPE_LEN (char_count value)) else
  if negb (is_ascii value) then Err (NotAscii "content_type") else
  if existsb (λ c, (c <? 32) || (c =? 127))%N value
  then Err (Invalid "content_type" "must not contain control characters") else
  Ok value.

(** ** Rows *)

(** The columns of a [homework] row; its students are rows of their own. *)
Record Assignment := MkAssignment {
  class_course : uuid;
  hw_subject : uuid;
  hw_title : str;
  hw_description : option str;
  due_at : Z;
  hw_created_by : uuid;
  hw_created_at : Z;
}.

(** The struct a read assembles: no student row reads as the whole course. *)
Record Homework := MkHomework { hw_id : uuid; hw_row : Assignment; hw_assigned : option (list uuid) }.

Definition student_sees (hw : Homework) (u : uuid) : bool :=
  match hw_assigned hw with
  | None => true
  | Some named => bool_decide (named = []) || bool_decide (u ∈ named)
  end.

Record HomeworkSubmission := MkSubmission {
  s_homework : uuid;
  s_user : uuid;
  s_text : option str;
  submitted_at : Z;
  updated_at : Z;
  file_count : Z;
  (** The verdict the counter was credited with; null on a row older than it. *)
  counted_on_time : option bool;
  (** The grade that froze the row. *)
  graded_by_result : option uuid;
}.

Record HomeworkResult := MkResult {
  r_homework : uuid;
  r_user : uuid;
  r_status : str;
  r_mark : option Z;
  graded_by : uuid;
  r_created_at : Z;
}.

Record HomeworkFile := MkFile {
  f_submission : uuid;
  f_name : str;
  f_content_type : str;
  f_size : Z;
  (** The blob's name on disk. *)
  f_file : str;
  f_created_at : Z;
}.

(** The late flag of every response. *)
Definition late (s : HomeworkSubmission) (hw : Homework) : bool := due_at (hw_row hw) <? updated_at s.

(** ** Writing a column *)

Definition handed_again (text : option (option str)) (at_ : Z) (s : HomeworkSubmission) : HomeworkSubmission :=
  MkSubmission (s_homework s) (s_user s) (default (s_text s) text) (submitted_at s) at_
    (file_count s) (counted_on_time s) (graded_by_result s).
Definition on_files (f : Z → Z) (s : HomeworkSubmission) : HomeworkSubmission :=
  MkSubmission (s_homework s) (s_user s) (s_text s) (submitted_at s) (updated_at s)
    (f (file_count s)) (counted_on_time s) (graded_by_result s).
Definition stamped (r : option uuid) (s : HomeworkSubmission) : HomeworkSubmission :=
  MkSubmission (s_homework s) (s_user s) (s_text s) (submitted_at s) (updated_at s)
    (file_count s) (counted_on_time s) r.
