(* ===== verification/Homework.v ===== *)
(** * Homework and its hand-ins ([src/db/homework.rs],
    [src/db/homework_submission.rs], [src/db/homework_result.rs],
    [src/db/homework_file.rs], [src/service/homework.rs],
    [src/service/homework_submission.rs], [src/service/homework_result.rs],
    [src/service/homework_file.rs])

    The tables of homework beside those of the school, which these operations
    only read. A transaction that starts by locking the homework row is one step;
    what a service reads before it is a step of its own. *)

From S2P Require Import Prelude Text Errors Effects Uuid Validate Modules Badges ExamForms Tally Gates EventForms Roster HomeworkForms.

Open Scope Z_scope.

(** ** Tables *)

Record Subject := MkSubject { su_course : uuid; homework_count : Z }.
Definition on_homework (f : Z → Z) (s : Subject) : Subject := MkSubject (su_course s) (f (homework_count s)).

Record Desk := MkDesk {
  school : Tables;
  subjects : gmap uuid Subject;
  (** (offering, subject), and (instance, subject). *)
  offering_subjects : gset (uuid * uuid);
  section_subjects : gset (uuid * uuid);
  homeworks : gmap uuid Assignment;
  (** (homework, student). *)
  assignments : gset (uuid * uuid);
  submissions : gmap uuid HomeworkSubmission;
  results : gmap uuid HomeworkResult;
  files : gmap uuid HomeworkFile;
  (** The lifetime counters of [app_user], and its badges. *)
  totals : gmap uuid BadgeStats;
  award_rows : gmap (uuid * string) Z;
}.

Definition set_subjects f (d : Desk) : Desk := MkDesk (school d) (f (subjects d)) (offering_subjects d)
  (section_subjects d) (homeworks d) (assignments d) (submissions d) (results d) (files d) (totals d) (award_rows d).
Definition set_homeworks f (d : Desk) : Desk := MkDesk (school d) (subjects d) (offering_subjects d)
  (section_subjects d) (f (homeworks d)) (assignments d) (submissions d) (results d) (files d) (totals d) (award_rows d).
Definition set_assignments f (d : Desk) : Desk := MkDesk (school d) (subjects d) (offering_subjects d)
  (section_subjects d) (homeworks d) (f (assignments d)) (submissions d) (results d) (files d) (totals d) (award_rows d).
Definition set_submissions f (d : Desk) : Desk := MkDesk (school d) (subjects d) (offering_subjects d)
  (section_subjects d) (homeworks d) (assignments d) (f (submissions d)) (results d) (files d) (totals d) (award_rows d).
Definition set_results f (d : Desk) : Desk := MkDesk (school d) (subjects d) (offering_subjects d)
  (section_subjects d) (homeworks d) (assignments d) (submissions d) (f (results d)) (files d) (totals d) (award_rows d).
Definition set_files f (d : Desk) : Desk := MkDesk (school d) (subjects d) (offering_subjects d)
  (section_subjects d) (homeworks d) (assignments d) (submissions d) (results d) (f (files d)) (totals d) (award_rows d).
Definition set_totals f (d : Desk) : Desk := MkDesk (school d) (subjects d) (offering_subjects d)
  (section_subjects d) (homeworks d) (assignments d) (submissions d) (results d) (files d) (f (totals d)) (award_rows d).

#[export] Instance desk_school : School Desk := school.

#[export] Instance desk_badges : BadgeStore Desk := {
  stats_of d u := totals d !! u;
  awards := award_rows;
  set_awards a d := MkDesk (school d) (subjects d) (offering_subjects d) (section_subjects d) (homeworks d)
    (assignments d) (submissions d) (results d) (files d) (totals d) a;
  awards_set _ _ := eq_refl;
  stats_of_set _ _ _ := eq_refl;
}.

(** ** Moving a lifetime counter *)

Definition on_handed_in (f g : Z → Z) (s : BadgeStats) : BadgeStats :=
  MkStats (f (homework_submitted s)) (g (homework_on_time s)) (exam_sat s) (pomodoro_finished s)
    (pomodoro_focus_ms s) (marks_given s) (lessons_held s) (pool_approved s) (pool_published s)
    (lessons_attended s) (high_mark s) (study_streak s).
Definition on_marks_given (f : Z → Z) (s : BadgeStats) : BadgeStats :=
  MkStats (homework_submitted s) (homework_on_time s) (exam_sat s) (pomodoro_finished s)
    (pomodoro_focus_ms s) (f (marks_given s)) (lessons_held s) (pool_approved s) (pool_published s)
    (lessons_attended s) (high_mark s) (study_streak s).
(** [i64::from(on_time)]. *)
Definition credit (b : bool) : Z := if b then 1 else 0.

(** ** Reading rows *)

Definition named_in (d : Desk) (h : uuid) : gset uuid := set_map snd (filter (λ p : uuid * uuid, p.1 = h) (assignments d)).

(** [array_agg(... ORDER BY a.student)] is null over no row. *)
Definition assemble (d : Desk) (h : uuid) (row : Assignment) : Homework :=
  MkHomework h row (if decide (named_in d h = ∅) then None else Some (ascending (named_in d h))).
Definition read_homework (d : Desk) (h : uuid) : option Homework := assemble d h <$> homeworks d !! h.

(** A row by its unique pair. *)
Definition by_pair {V} (pair : V → uuid * uuid) (rows : gmap uuid V) (k : uuid * uuid) : option (uuid * V) :=
  list.head (filter (λ p : uuid * V, pair p.2 = k) (map_to_list rows)).

Definition s_pair (s : HomeworkSubmission) : uuid * uuid := (s_homework s, s_user s).
Definition r_pair (r : HomeworkResult) : uuid * uuid := (r_homework r, r_user r).

(** [homework_submission::read_for] and [homework_result::read_for]. *)
Definition submission_for (d : Desk) (h u : uuid) : option (uuid * HomeworkSubmission) :=
  by_pair s_pair (submissions d) (h, u).
Definition result_for (d : Desk) (h u : uuid) : option (uuid * HomeworkResult) :=
  by_pair r_pair (results d) (h, u).

(** The submissions to a homework, and the files under them. *)
Definition submission_ids (d : Desk) (h : uuid) : gset uuid := dom (filter (λ p, s_homework p.2 = h) (submissions d)).
Definition under (subs : gset uuid) (d : Desk) : gmap uuid HomeworkFile :=
  filter (λ p : uuid * HomeworkFile, f_submission p.2 ∈ subs) (files d).

(** Newest first: [ORDER BY id DESC]. *)
Definition newest {V} (rows : gmap uuid V) : list (uuid * V) :=
  omap (λ i, pair i <$> rows !! i) (descending (dom rows)).
Definition list_files (d : Desk) (i : uuid) : list (uuid * HomeworkFile) := newest (under {[i]} d).

(** ** The homework's row ([src/db/homework.rs]) *)

Definition subject_gone : AppError := Validation (Invalid "subject_id" "subject does not exist").
Definition STALE_MOVE : string := "the link this update moves changed since it was read; re-read and retry".

(** [UPDATE subject SET homework_count = homework_count + 1 ... RETURNING 1]. *)
Definition claim_subject (s : uuid) : tx Desk () := λ d,
  if has (subjects d) s then Ok ((), set_subjects (alter (on_homework bumped) s) d) else Err subject_gone.
Definition release_subject (s : uuid) : tx Desk () := writes (λ d,
  ((), set_subjects (alter (on_homework given_back) s) d)).

(** [INSERT INTO homework_assignment ... FROM unnest($1)]: the pair is the key. *)
Definition insert_assignments (h : uuid) (students : list uuid) : tx Desk () := λ d,
  if negb (bool_decide (NoDup students)
           && forallb (λ u, negb (bool_decide ((h, u) ∈ assignments d))) students) then Err unique_violation else
  if negb (forallb (λ u, has (users (school d)) u) students) then Err fk_violation else
  Ok ((), set_assignments (list_to_set (pair h <$> students) ∪.) d).

Definition insert_row (h : uuid) (row : Assignment) : tx Desk () := λ d,
  if has (homeworks d) h then Err (Internal (lit "failed to create homework")) else
  if negb (has (instances (school d)) (class_course row) && has (users (school d)) (hw_created_by row))
  then Err fk_violation else Ok ((), set_homeworks <[h := row]> d).

Definition create_homework_tx (h : uuid) (row : Assignment) (students : option (list uuid)) : tx Desk Homework :=
  _ ← claim_subject (hw_subject row);
  _ ← insert_row h row;
  _ ← insert_assignments h (default [] students);
  mret (MkHomework h row students).

(** What a PATCH carries; the description and the subset may be cleared. *)
Record HomeworkPatch := MkHomeworkPatch {
  hp_subject : option uuid;
  hp_title : option str;
  hp_description : option (option str);
  hp_due_at : option Z;
  hp_assigned : option (option (list uuid));
}.

Definition patched (p : HomeworkPatch) (row : Assignment) : Assignment :=
  MkAssignment (class_course row) (default (hw_subject row) (hp_subject p)) (default (hw_title row) (hp_title p))
    (default (hw_description row) (hp_description p)) (default (due_at row) (hp_due_at p))
    (hw_created_by row) (hw_created_at row).

Section Orphans.
Context `{UuidText}.

(** The loop over the holders: outside the subset, and not named yet. *)
Definition blocked_by (subset : list uuid) (holders : list uuid) : list str :=
  foldl (λ blocked u,
    let key := uuid_text u in
    if negb (bool_decide (u ∈ subset)) && negb (bool_decide (key ∈ blocked)) then blocked ++ [key] else blocked)
    [] holders.

(** [Vec<String>::join(", ")]. *)
Fixpoint join (keys : list str) : str :=
  match keys with [] => [] | [k] => k | k :: keys => k ++ lit ", " ++ join keys end.

Definition would_orphan (blocked : list str) : AppError :=
  ConflictOwned (lit "narrowing the assigned list would orphan existing work by "
    ++ show_int (Z.of_nat (length blocked)) ++ lit " student(s): " ++ join blocked).

(** Who handed in, then who was graded; neither read is ordered. *)
Definition holders (d : Desk) (h : uuid) : list uuid :=
  ((λ p : uuid * HomeworkSubmission, s_user p.2) <$>
     filter (λ p : uuid * HomeworkSubmission, s_homework p.2 = h) (map_to_list (submissions d)))
  ++ ((λ p : uuid * HomeworkResult, r_user p.2) <$>
        filter (λ p : uuid * HomeworkResult, r_homework p.2 = h) (map_to_list (results d))).

Definition ensure_no_orphans (h : uuid) (new_assigned : option (list uuid)) : tx Desk () := λ d,
  match new_assigned with
  | None => Ok ((), d)
  | Some subset =>
      let blocked := blocked_by subset (holders d h) in
      if bool_decide (blocked = []) then Ok ((), d) else Err (would_orphan blocked)
  end.

(** [update]: [read] is the handler's snapshot. *)
Definition move_subject (h current : uuid) (moving : option uuid) : tx Desk () :=
  match moving with
  | None => mret ()
  | Some next => _ ← release_subject current; claim_subject next
  end.

Definition replace_assigned (h : uuid) (students : option (option (list uuid))) : tx Desk () :=
  match students with
  | None => mret ()
  | Some resolved =>
      _ ← writes (λ d, ((), set_assignments (filter (λ p, p.1 ≠ h)) d));
      insert_assignments h (default [] resolved)
  end.

Definition update_homework_tx (read : Homework) (p : HomeworkPatch) : tx Desk Homework :=
  let h := hw_id read in
  row ← gets (λ d, homeworks d !! h);
  current ← decide_tx (ok_or row NotFound);
  _ ← match hp_assigned p with Some resolved => ensure_no_orphans h resolved | None => mret () end;
  let moving := if bool_decide (hp_subject p = Some (hw_subject (hw_row read))) then None else hp_subject p in
  _ ← move_subject h (hw_subject current) moving;
  if bool_decide (is_Some (hp_subject p)) && negb (bool_decide (hw_subject current = hw_subject (hw_row read)))
  then refuse (Conflict STALE_MOVE) else
  _ ← replace_assigned h (hp_assigned p);
  _ ← writes (λ d, ((), set_homeworks <[h := patched p current]> d));
  gets (λ d, assemble d h (patched p current)).
End Orphans.

(** [delete]: children first; the blob names are read before they go. *)
Definition delete_homework_tx (h : uuid) : tx Desk (list str) := λ d,
  let subs := submission_ids d h in
  let keys := (λ p : uuid * HomeworkFile, f_file p.2) <$> map_to_list (under subs d) in
  match homeworks d !! h with
  | None => Err NotFound
  | Some row =>
      Ok (keys,
        set_subjects (alter (on_homework given_back) (hw_subject row))
          (set_homeworks (delete h)
            (set_assignments (filter (λ p, p.1 ≠ h))
              (set_results (filter (λ p, r_homework p.2 ≠ h))
                (set_submissions (filter (λ p, s_homework p.2 ≠ h))
                  (set_files (filter (λ p, f_submission p.2 ∉ subs)) d))))))
  end.

(** The share of [sweep_instance_subtree] ([src/db/course.rs]): the homework of an
    instance that goes, each subject given back what its rows held. *)
Definition of_instance (i : uuid) (d : Desk) : gmap uuid Assignment := filter (λ p, class_course p.2 = i) (homeworks d).
Definition held_by (rows : gmap uuid Assignment) (s : uuid) : Z :=
  Z.of_nat (length (filter (λ p : uuid * Assignment, hw_subject p.2 = s) (map_to_list rows))).
Definition give_back_all (rows : gmap uuid Assignment) (subs : gmap uuid Subject) : gmap uuid Subject :=
  map_imap (λ s x, Some (on_homework (λ n, Z.max (n - held_by rows s) 0) x)) subs.
Definition sweep_homework_tx (i : uuid) : tx Desk (list str) := writes (λ d,
  let rows := of_instance i d in
  let hs : gset uuid := dom rows in
  let subs : gset uuid := dom (filter (λ p, s_homework p.2 ∈ hs) (submissions d)) in
  ((λ p : uuid * HomeworkFile, f_file p.2) <$> map_to_list (under subs d),
   set_subjects (give_back_all rows)
     (set_homeworks (filter (λ p, class_course p.2 ≠ i))
       (set_assignments (filter (λ p, p.1 ∉ hs))
         (set_results (filter (λ p, r_homework p.2 ∉ hs))
           (set_submissions (filter (λ p, s_homework p.2 ∉ hs))
             (set_files (filter (λ p, f_submission p.2 ∉ subs)) d))))))).

(** ** A hand-in ([src/db/homework_submission.rs]) *)

(** Named, or no one is. *)
Definition in_audience (d : Desk) (h u : uuid) : bool :=
  bool_decide (named_in d h = ∅) || bool_decide ((h, u) ∈ assignments d).

(** [upsert]: [None] is the freeze; the flag says whether the row was there. *)
Definition upsert_tx (i h u : uuid) (text : option str) (preserve_text : bool) (at_ : Z)
    : tx Desk (option ((uuid * HomeworkSubmission) * bool)) := λ d,
  match homeworks d !! h with
  | None => Err NotFound
  | Some row =>
      if negb (in_audience d h u) then Err NotFound else
      let on_time := at_ <=? due_at row in
      match submission_for d h u with
      | Some (j, s) =>
          match graded_by_result s with
          | Some _ => Ok (None, d)
          | None =>
              let s' := handed_again (if preserve_text then None else Some text) at_ s in
              Ok (Some ((j, s'), true), set_submissions <[j := s']> d)
          end
      | None =>
          if has (submissions d) i then Err unique_violation else
          if negb (has (users (school d)) u) then Err fk_violation else
          let s := MkSubmission h u text at_ at_ 0 (Some on_time) None in
          Ok (Some ((i, s), false),
            set_totals (alter (on_handed_in (Z.add 1) (Z.add (credit on_time))) u) (set_submissions <[i := s]> d))
      end
  end.
Definition upsert (h u : uuid) (text : option str) (preserve_text : bool)
    : io Desk (option ((uuid * HomeworkSubmission) * bool)) :=
  at_ ← now;
  i ← fresh;
  atomic (upsert_tx i h u text preserve_text at_).

Definition touch_tx (i : uuid) (at_ : Z) : tx Desk HomeworkSubmission := λ d,
  match submissions d !! i with
  | None => Err NotFound
  | Some s => let s' := handed_again None at_ s in Ok (s', set_submissions <[i := s']> d)
  end.
Definition touch (i : uuid) : io Desk HomeworkSubmission := at_ ← now; atomic (touch_tx i at_).

Definition is_graded (d : Desk) (i : uuid) : bool :=
  match submissions d !! i with Some s => bool_decide (is_Some (graded_by_result s)) | None => false end.

(** [delete]: [i] and [h] come with the row the handler read. *)
Definition delete_submission_tx (i h : uuid) : tx Desk (option HomeworkSubmission) := λ d,
  let due := due_at <$> homeworks d !! h in
  match submissions d !! i with
  | None => Ok (None, d)
  | Some s =>
      match graded_by_result s with
      | Some _ => Ok (None, d)
      | None =>
          let judged := match due with Some x => submitted_at s <=? x | None => false end in
          let on_time := credit (default judged (counted_on_time s)) in
          Ok (Some s,
            set_totals (alter (on_handed_in (λ n, Z.max (n - 1) 0) (λ n, Z.max (n - on_time) 0)) (s_user s))
              (set_submissions (delete i) (set_files (filter (λ p, f_submission p.2 ≠ i)) d)))
      end
  end.

(** ** A file ([src/db/homework_file.rs]) *)

Definition files_full : AppError := Conflict "the submission already holds the maximum of 10 files — delete one first".

(** The seat and the row are one statement; which condition refused it is read
    back afterwards. *)
Definition insert_file_tx (i : uuid) (f : HomeworkFile) : tx Desk bool := λ d,
  match submissions d !! f_submission f with
  | Some s =>
      if negb ((file_count s <? MAX_HOMEWORK_FILES_PER_SUBMISSION) && bool_decide (graded_by_result s = None))
      then Ok (false, d) else
      if has (files d) i then Err (Internal (lit "homework file id collided")) else
      Ok (true, set_files <[i := f]> (set_submissions (alter (on_files bumped) (f_submission f)) d))
  | None => Ok (false, d)
  end.
Definition insert_file (i : uuid) (f : HomeworkFile) : io Desk (option (uuid * HomeworkFile)) :=
  created ← atomic (insert_file_tx i f);
  if created : bool then mret (Some (i, f)) else
  graded ← atomic (gets (λ d, is_graded d (f_submission f)));
  if graded : bool then mret None else raise files_full.

(** [delete]: the re-stamp is the gate; a file already gone rolls it back. *)
Definition delete_file_tx (i sub : uuid) (at_ : Z) : tx Desk (option HomeworkFile) := λ d,
  match submissions d !! sub with
  | None => Ok (None, d)
  | Some s =>
      match graded_by_result s with
      | Some _ => Ok (None, d)
      | None =>
          match files d !! i with
          | Some f =>
              if negb (bool_decide (f_submission f = sub)) then Err NotFound else
              Ok (Some f, set_files (delete i) (set_submissions <[sub := on_files given_back (handed_again None at_ s)]> d))
          | None => Err NotFound
          end
      end
  end.

(** [read_for] and [read_in_homework]: a file, scoped. *)
Definition file_of_submission (d : Desk) (i sub : uuid) : option HomeworkFile :=
  match files d !! i with Some f => if bool_decide (f_submission f = sub) then Some f else None | None => None end.
Definition file_in_homework (d : Desk) (i h : uuid) : option HomeworkFile :=
  match files d !! i with
  | Some f => if bool_decide (f_submission f ∈ submission_ids d h) then Some f else None
  | None => None
  end.

(** ** A grade ([src/db/homework_result.rs]) *)

(** The stamp a grade leaves, where none is. *)
Definition stamp_pair (h u rid : uuid) : gmap uuid HomeworkSubmission → gmap uuid HomeworkSubmission :=
  fmap (λ s, if decide (s_pair s = (h, u) ∧ graded_by_result s = None) then stamped (Some rid) s else s).
(** The stamps of the pair's grade, cleared. *)
Definition unstamp_pair (h u rid : uuid) : gmap uuid HomeworkSubmission → gmap uuid HomeworkSubmission :=
  fmap (λ s, if decide (s_pair s = (h, u) ∧ graded_by_result s = Some rid) then stamped None s else s).

Definition grade_tx (i h u : uuid) (status : str) (mark : option Z) (by_ : uuid) (at_ : Z)
    : tx Desk HomeworkResult := λ d,
  match homeworks d !! h with
  | None => Err NotFound
  | Some _ =>
      let r := MkResult h u status mark by_ at_ in
      match result_for d h u with
      | Some (j, _) =>
          if negb (has (users (school d)) by_) then Err fk_violation else
          Ok (r, set_submissions (stamp_pair h u j) (set_results <[j := r]> d))
      | None =>
          if has (results d) i then Err unique_violation else
          if negb (has (users (school d)) u && has (users (school d)) by_) then Err fk_violation else
          Ok (r, set_totals (alter (on_marks_given (Z.add 1)) by_)
                   (set_submissions (stamp_pair h u i) (set_results <[i := r]> d)))
      end
  end.
Definition grade (h u : uuid) (status : str) (mark : option Z) (by_ : uuid) : io Desk HomeworkResult :=
  i ← fresh;
  at_ ← now;
  atomic (grade_tx i h u status mark by_ at_).

(** [remove]: the credit goes back to the grader the row names. *)
Definition remove_tx (h u : uuid) : tx Desk (option HomeworkResult) := writes (λ d,
  match homeworks d !! h, result_for d h u with
  | Some _, Some (j, r) =>
      (Some r, set_totals (alter (on_marks_given (λ n, Z.max (n - 1) 0)) (graded_by r))
                 (set_results (delete j) (set_submissions (unstamp_pair h u j) d)))
  | _, _ => (None, d)
  end).

(** ** Gates ([src/service/homework.rs]) *)

Definition not_in_course : AppError := Forbidden "you are not enrolled in this homework's course".
Definition students_only : AppError := Forbidden "only students have homework submissions".

Definition homework_or_404 (h : uuid) : io Desk Homework :=
  row ← atomic (gets (λ d, read_homework d h));
  lift (ok_or row NotFound).

Definition gate_own_submission (h : uuid) (u : User) : io Desk Homework :=
  hw ← homework_or_404 h;
  if negb (bool_decide (get_role u = Student)) then raise students_only else
  seat ← atomic (read_for_user (class_course (hw_row hw)) (uid u));
  if bool_decide (seat = None) then raise not_in_course else
  if negb (student_sees hw (uid u)) then raise NotFound else
  mret hw.

Definition require_open_instance (hw : Homework) : io Desk () := require_open (class_course (hw_row hw)).

(** A failed sync is logged and forgotten. *)
Definition award_badges (u : uuid) : io Desk () := _ ← attempt (sync u); mret ().

(** [offering_subject::resolves_for_class_course] and [ensure_resolved_member]. *)
Definition resolves (d : Desk) (i s : uuid) : option bool :=
  (λ x, if subjects_inherited (i_content x) then bool_decide ((i_offering x, s) ∈ offering_subjects d)
        else bool_decide ((i, s) ∈ section_subjects d)) <$> instances (school d) !! i.
Definition ensure_resolved_member (i s : uuid) : io Desk () :=
  member ← atomic (gets (λ d, resolves d i s));
  match member with
  | Some true => mret ()
  | Some false => raise (Validation (Invalid "subject_id" "subject is not in this section's subject set"))
  | None => raise NotFound
  end.

(** [service::homework::create]. *)
Definition create_homework (row : Assignment) (students : option (list uuid)) : io Desk Homework :=
  there ← atomic (gets (λ d, instances (school d) !! class_course row));
  _ ← lift (ok_or there NotFound);
  _ ← ensure_resolved_member (class_course row) (hw_subject row);
  i ← fresh;
  at_ ← now;
  atomic (create_homework_tx i (MkAssignment (class_course row) (hw_subject row) (hw_title row) (hw_description row)
    (due_at row) (hw_created_by row) at_) students).

(** ** Handing in and withdrawing ([src/service/homework_submission.rs]) *)

Definition graded_edit : AppError := Conflict
  "this homework has been graded — ask the teacher to remove the grade before editing your submission".
Definition graded_delete : AppError := Conflict
  "this homework has been graded — ask the teacher to remove the grade before deleting your submission".
Definition graded_add_file : AppError := Conflict
  "this homework has been graded — ask the teacher to remove the grade before adding files".
Definition graded_drop_file : AppError := Conflict
  "this homework has been graded — ask the teacher to remove the grade before deleting files".

(** The read before the write: the common case of the freeze. *)
Definition not_graded (h u : uuid) (refused : AppError) : io Desk () :=
  grade_ ← atomic (gets (λ d, result_for d h u));
  if bool_decide (is_Some grade_) then raise refused else mret ().

Record Submitted := MkSubmitted { existed : bool; sub_homework : Homework; sub_row : uuid * HomeworkSubmission }.

Definition submit (u : User) (h : uuid) (text : option str) : io Desk Submitted :=
  hw ← gate_own_submission h u;
  _ ← require_open_instance hw;
  _ ← not_graded (hw_id hw) (uid u) graded_edit;
  landed ← upsert (hw_id hw) (uid u) text false;
  '(row, existed_) ← lift (ok_or landed graded_edit);
  _ ← (if existed_ : bool then mret () else award_badges (uid u));
  mret (MkSubmitted existed_ hw row).

(** [delete]: the files it answers were listed before the transaction. *)
Definition withdraw (u : User) (h : uuid) : io Desk (list (uuid * HomeworkFile)) :=
  hw ← gate_own_submission h u;
  _ ← require_open_instance hw;
  _ ← not_graded (hw_id hw) (uid u) graded_delete;
  held ← atomic (gets (λ d, submission_for d (hw_id hw) (uid u)));
  '(i, s) ← lift (ok_or held NotFound);
  listed ← atomic (gets (λ d, list_files d i));
  gone ← atomic (delete_submission_tx i (s_homework s));
  _ ← lift (ok_or gone graded_delete);
  _ ← award_badges (uid u);
  mret listed.

(** [homework_file::ensure_can_attach]. *)
Definition ensure_can_attach (u : User) (hw : Homework) : io Desk (uuid * HomeworkSubmission) :=
  _ ← not_graded (hw_id hw) (uid u) graded_add_file;
  held ← atomic (gets (λ d, submission_for d (hw_id hw) (uid u)));
  match held with
  | Some row => mret row
  | None =>
      landed ← upsert (hw_id hw) (uid u) None true;
      '(row, fresh_) ← lift (ok_or landed graded_add_file);
      _ ← (if fresh_ : bool then award_badges (uid u) else mret ());
      mret row
  end.

(** ** Grading ([src/service/homework_result.rs]) *)

Definition bad_target (why : string) : AppError := Validation (Invalid "user" why).

Definition grade_student (h : uuid) (teacher : User) (status : str) (mark : option Z) (target : uuid)
    : io Desk HomeworkResult :=
  hw ← homework_or_404 h;
  if bool_decide (target = uid teacher) then raise (Forbidden "grading yourself is not allowed") else
  held ← atomic (gets (λ d, user_of target (school d)));
  target_user ← lift (ok_or held (bad_target "target user does not exist"));
  if negb (bool_decide (get_role target_user = Student))
  then raise (bad_target "only students can be graded") else
  seat ← atomic (read_for_user (class_course (hw_row hw)) target);
  if bool_decide (seat = None) then raise (bad_target "target user is not enrolled in this course") else
  if negb (student_sees hw target) then raise (bad_target "target user is not in this homework's audience") else
  r ← grade h target status mark (uid teacher);
  _ ← award_badges (uid teacher);
  mret r.
