(* ===== verification/HomeworkRoutes.v ===== *)
(** * The homework's requests ([src/web/homework.rs], [src/web/instances.rs],
    [src/web/dto.rs])

    What each route checks before it calls the service, and what the lists and
    reports answer. What a multipart body parsed to, and what the disk said of a
    blob, are arguments. *)

From S2P Require Import Prelude Text Errors Effects Uuid Validate Modules Badges ExamForms Gates Roster Events Sight HomeworkForms Homework.

Open Scope Z_scope.

Section Routes.
Context `{UuidText}.

(** ** Checked fields *)

(** [Vec<String>::sort] and [dedup]. *)
Definition str_order (a b : str) : Prop := str_le a b = true.
#[global] Instance str_order_dec : RelDecision str_order.
Proof. intros a b. unfold str_order. apply _. Defined.
Fixpoint dedup {A} `{EqDecision A} (l : list A) : list A :=
  match l with
  | x :: (y :: _) as l' => if decide (x = y) then dedup l' else x :: dedup l'
  | _ => l
  end.

Definition bad_assigned (why : string) : AppError := Validation (Invalid "assigned" why).

Definition resolve_assigned (keys : option (list str)) (i : uuid) : io Desk (option (list uuid)) :=
  match keys with
  | None | Some [] => mret None
  | Some keys =>
      let keys := dedup (merge_sort str_order keys) in
      if MAX_HOMEWORK_ASSIGNED <? Z.of_nat (length keys) then raise (bad_assigned "may name at most 200 students") else
      users_ ← mapM (λ key,
        let u := uuid_from_key key in
        seat ← atomic (read_for_user i u);
        if bool_decide (seat = None)
        then raise (bad_assigned "every assigned student must be enrolled in the instance") else mret u) keys;
      mret (Some users_)
  end.

Definition description_or_none (text : str) : io Desk (option str) :=
  if bool_decide (text = []) then mret None else
  text ← checked (homework_description_try_new text); mret (Some text).

(** [service::subject::in_course] and [in_instance]. *)
Definition in_course (key : str) (k : uuid) : io Desk uuid :=
  let s := uuid_from_key key in
  row ← atomic (gets (λ d, subjects d !! s));
  row ← lift (ok_or row subject_gone);
  if negb (bool_decide (su_course row = k))
  then raise (Validation (Invalid "subject_id" "subject belongs to a different course")) else mret s.
Definition in_instance (key : str) (i : uuid) (x : Instance) : io Desk uuid :=
  s ← in_course key (i_course x);
  _ ← ensure_resolved_member i s;
  mret s.

Definition homework_with_instance (h : uuid) : io Desk (Homework * Instance) :=
  hw ← homework_or_404 h;
  x ← instance_or_404 (class_course (hw_row hw));
  mret (hw, x).

Definition staff_can (verb : string) : AppError := Forbidden
  ("only the instance's teachers, its şube's homeroom teacher, or a manager/admin can " ++ verb)%string.
Definition managed (u : User) (hw : Homework) (verb : string) : io Desk () :=
  manages ← can_manage_instance u (class_course (hw_row hw));
  if negb manages then raise (staff_can verb) else mret ().

(** ** Assigning, editing, deleting *)

Record CreateHomework := MkCreateHomework {
  ch_title : str;
  ch_description : option str;
  ch_subject_id : str;
  ch_due_at : Z;
  ch_assigned : option (list str);
}.

Definition create_homework_in_instance (u : User) (i : uuid) (req : CreateHomework) : io Desk Homework :=
  _ ← lift (require_teacher u);
  x ← instance_or_404 i;
  _ ← ensure_instance_teacher (uid u) (get_role u) i;
  _ ← require_open i;
  title ← checked (homework_title_try_new (ch_title req));
  description ← match ch_description req with Some text => description_or_none text | None => mret None end;
  _ ← check_not_past "due_at" (Some (ch_due_at req));
  s ← in_course (ch_subject_id req) (i_course x);
  students ← resolve_assigned (ch_assigned req) i;
  create_homework (MkAssignment i s title description (ch_due_at req) (uid u) 0) students.

(** [None] keeps; the description and the subset take null for clear. *)
Record UpdateHomework := MkUpdateHomework {
  uh_title : option str;
  uh_description : option (option str);
  uh_due_at : option Z;
  uh_subject_id : option str;
  uh_assigned : option (option (list str));
}.

Definition update_homework (u : User) (h : uuid) (req : UpdateHomework) : io Desk Homework :=
  _ ← lift (require_teacher u);
  '(hw, x) ← homework_with_instance h;
  _ ← managed u hw "edit this homework";
  _ ← require_open (class_course (hw_row hw));
  title ← checked_opt homework_title_try_new (uh_title req);
  description ← match uh_description req with
    | Some text => x ← description_or_none (default [] text); mret (Some x)
    | None => mret None
    end;
  _ ← check_not_past "due_at" (uh_due_at req);
  subject ← match uh_subject_id req with
    | Some key => s ← in_instance key (class_course (hw_row hw)) x; mret (Some s)
    | None => mret None
    end;
  students ← match uh_assigned req with
    | Some keys => r ← resolve_assigned keys (class_course (hw_row hw)); mret (Some r)
    | None => mret None
    end;
  atomic (update_homework_tx hw (MkHomeworkPatch subject title description (uh_due_at req) students)).

(** Answers the blobs the route unlinks. *)
Definition delete_homework (u : User) (h : uuid) : io Desk (list str) :=
  _ ← lift (require_teacher u);
  '(hw, _) ← homework_with_instance h;
  _ ← managed u hw "delete this homework";
  _ ← require_open (class_course (hw_row hw));
  atomic (delete_homework_tx (hw_id hw)).

(** ** The student's side *)

Record SubmissionResponse := MkSubmissionResponse {
  sr_homework : Homework;
  sr_submission : uuid * HomeworkSubmission;
  sr_late : bool;
  sr_files : list (uuid * HomeworkFile);
  sr_result : option HomeworkResult;
}.
Definition submission_response (hw : Homework) (row : uuid * HomeworkSubmission) (fs : list (uuid * HomeworkFile))
    (r : option HomeworkResult) : SubmissionResponse :=
  MkSubmissionResponse hw row (late row.2 hw) fs r.

(** 201 on the first hand-in: the flag is false. *)
Definition submit_route (u : User) (h : uuid) (text : option str) : io Desk (bool * SubmissionResponse) :=
  text ← match text with
    | Some t => if bool_decide (t = []) then mret None else t ← checked (submission_text_try_new t); mret (Some t)
    | None => mret None
    end;
  landed ← submit u h text;
  fs ← atomic (gets (λ d, list_files d (sub_row landed).1));
  mret (existed landed, submission_response (sub_homework landed) (sub_row landed) fs None).

Definition get_submission (u : User) (h : uuid) : io Desk SubmissionResponse :=
  hw ← gate_own_submission h u;
  held ← atomic (gets (λ d, submission_for d (hw_id hw) (uid u)));
  row ← lift (ok_or held NotFound);
  fs ← atomic (gets (λ d, list_files d row.1));
  r ← atomic (gets (λ d, result_for d (hw_id hw) (uid u)));
  mret (submission_response hw row fs (snd <$> r)).

(** The blobs of the files listed before the rows went. *)
Definition delete_submission (u : User) (h : uuid) : io Desk (list str) :=
  fs ← withdraw u h;
  mret ((λ p : uuid * HomeworkFile, f_file p.2) <$> fs).

(** What [read_upload] took out of the body: name, type and size. *)
Definition Upload : Type := option str * option str * Z.

Definition upload_submission_file (u : User) (h : uuid) (body : result AppError Upload) (written : result AppError ())
    : io Desk (uuid * HomeworkFile) :=
  preflight ← gate_own_submission h u;
  _ ← require_open_instance preflight;
  '(name, content_type, size) ← lift body;
  name ← checked (file_name_try_new (default [] name));
  content_type ← checked (file_content_type_try_new (default [] content_type));
  hw ← gate_own_submission h u;
  _ ← require_open_instance hw;
  '(sub, _) ← ensure_can_attach u hw;
  i ← fresh;
  blob ← fresh;
  at_ ← now;
  _ ← lift written;
  stored ← insert_file i (MkFile sub name content_type size (uuid_text blob) at_);
  stored ← lift (ok_or stored graded_add_file);
  _ ← touch sub;
  mret stored.

(** The row whose bytes are served. *)
Definition download_submission_file (u : User) (h : uuid) (fid : str) : io Desk HomeworkFile :=
  let i := uuid_from_key fid in
  if bool_decide (get_role u = Student) then
    hw ← gate_own_submission h u;
    held ← atomic (gets (λ d, submission_for d (hw_id hw) (uid u)));
    row ← lift (ok_or held NotFound);
    f ← atomic (gets (λ d, file_of_submission d i row.1));
    lift (ok_or f NotFound)
  else
    '(hw, _) ← homework_with_instance h;
    _ ← managed u hw "read submission files";
    f ← atomic (gets (λ d, file_in_homework d i (hw_id hw)));
    lift (ok_or f NotFound).

Definition delete_submission_file (u : User) (h : uuid) (fid : str) : io Desk str :=
  hw ← gate_own_submission h u;
  _ ← require_open_instance hw;
  _ ← not_graded (hw_id hw) (uid u) graded_drop_file;
  held ← atomic (gets (λ d, submission_for d (hw_id hw) (uid u)));
  row ← lift (ok_or held NotFound);
  f ← atomic (gets (λ d, file_of_submission d (uuid_from_key fid) row.1));
  f ← lift (ok_or f NotFound);
  at_ ← now;
  gone ← atomic (delete_file_tx (uuid_from_key fid) row.1 at_);
  _ ← lift (ok_or gone graded_drop_file);
  mret (f_file f).

(** ** Grading *)

Definition grade_homework (u : User) (h : uuid) (user status : str) (mark : option Z) : io Desk HomeworkResult :=
  _ ← lift (require_teacher u);
  '(hw, _) ← homework_with_instance h;
  _ ← managed u hw "grade this homework";
  _ ← require_open (class_course (hw_row hw));
  status ← checked (homework_status_try_new status);
  mark ← checked_opt mark_try_new mark;
  grade_student (hw_id hw) u status mark (uuid_from_key user).

Definition remove_homework_result (u : User) (h : uuid) (target : str) : io Desk () :=
  _ ← lift (require_teacher u);
  '(hw, _) ← homework_with_instance h;
  _ ← managed u hw "remove grades";
  _ ← require_open (class_course (hw_row hw));
  removed ← atomic (remove_tx (hw_id hw) (uuid_from_key target));
  _ ← lift (ok_or removed NotFound);
  mret ().

Definition my_homework_result (u : User) (h : uuid) : io Desk HomeworkResult :=
  r ← atomic (gets (λ d, result_for d h (uid u)));
  '(_, r) ← lift (ok_or r NotFound);
  mret r.

(** ** Lists *)

(** [HomeworkResponse::for_viewer]; [new] carries the row as it is. *)
Definition for_viewer (u : uuid) (hw : Homework) : Homework :=
  MkHomework (hw_id hw) (hw_row hw) ((λ _, [u]) <$> hw_assigned hw).

Record HomeworkListFilter := MkListFilter { due_after : option Z; due_before : option Z; of_course : option uuid }.

(** [HomeworkListFilter::resolve]. *)
Definition resolve_filter (after before : option Z) (course : option str) : result AppError HomeworkListFilter :=
  let invalid (field reason : string) := Validation (Invalid field reason) in
  let bound (field : string) (x : option Z) :=
    match x with
    | Some ms => if ms <? 0 then Err (invalid field "must not be negative"%string) else Ok (Some ms)
    | None => Ok None
    end in
  after ← bound "due_after"%string after;
  before ← bound "due_before"%string before;
  course ← match trim <$> course with
    | None => Ok None
    | Some [] => Err (invalid "class_course"%string "must not be empty"%string)
    | Some key =>
        if bool_decide (uuid_from_key key = uuid_nil)
        then Err (invalid "class_course"%string "must be a hyphenated uuid"%string) else Ok (Some (uuid_from_key key))
    end;
  Ok (MkListFilter after before course).

Definition passes (f : HomeworkListFilter) (row : Assignment) : bool :=
  match due_after f with Some a => a <=? due_at row | None => true end
  && match due_before f with Some b => due_at row <? b | None => true end
  && match of_course f with Some i => bool_decide (class_course row = i) | None => true end.

(** The rows of a condition, newest first, assembled. *)
Definition rows_where (c : Assignment → bool) (d : Desk) : list Homework :=
  (λ p : uuid * Assignment, assemble d p.1 p.2) <$> newest (filter (λ p : uuid * Assignment, c p.2 = true) (homeworks d)).

Definition list_all (f : HomeworkListFilter) : Desk → list Homework := rows_where (passes f).
Definition list_for_class_courses (shown : list uuid) (f : HomeworkListFilter) : Desk → list Homework :=
  rows_where (λ row, bool_decide (class_course row ∈ shown) && passes f row).
Definition list_for_class_course (i : uuid) : Desk → list Homework :=
  rows_where (λ row, bool_decide (class_course row = i)).
(** [list_for_user_in_course]: the audience in SQL. *)
Definition list_for_user_in_course (i u : uuid) (d : Desk) : list Homework :=
  (λ p : uuid * Assignment, assemble d p.1 p.2) <$>
    newest (filter (λ p : uuid * Assignment, class_course p.2 = i ∧ in_audience d p.1 u = true) (homeworks d)).

Definition list_homework (u : User) (after before : option Z) (course : option str) (limit offset : option Z)
    : io Desk (list Homework * Z) :=
  '(limit, offset) ← lift (resolve_page limit offset);
  f ← lift (resolve_filter after before course);
  if at_least (get_role u) Manager then paged_list (list_all f) limit offset else
  visible ← visible_instances u;
  let ids := (λ r : (uuid * Instance) * bool, r.1.1) <$> visible in
  let run := (λ r : (uuid * Instance) * bool, r.1.1) <$> filter (λ r : (uuid * Instance) * bool, r.2 = true) visible in
  rows ← (if bool_decide (ids = []) then mret [] else atomic (gets (list_for_class_courses ids f)));
  let runs hw := bool_decide (class_course (hw_row hw) ∈ run) in
  let kept := filter (λ hw, runs hw || student_sees hw (uid u) = true) rows in
  mret ((λ hw, if runs hw then hw else for_viewer (uid u) hw) <$> paginate kept limit offset,
        Z.of_nat (length kept)).

Definition get_homework (u : User) (h : uuid) : io Desk Homework :=
  '(hw, _) ← homework_with_instance h;
  views ← can_view_instance u (class_course (hw_row hw));
  if negb views
  then raise (Forbidden "only the instance's enrolled students, its teachers, its şube's homeroom teacher, or a manager/admin can view this homework")
  else
  manages ← can_manage_instance u (class_course (hw_row hw));
  if negb manages && negb (student_sees hw (uid u)) then raise NotFound else
  mret (if manages : bool then hw else for_viewer (uid u) hw).

Definition list_instance_homework (u : User) (i : uuid) (limit offset : option Z) : io Desk (list Homework * Z) :=
  '(limit, offset) ← lift (resolve_page limit offset);
  _ ← instance_or_404 i;
  views ← can_view_instance u i;
  if negb views
  then raise (Forbidden "only this instance's enrolled students, its teachers, its class's homeroom teacher, or a manager/admin can view its homework")
  else
  rows ← atomic (gets (list_for_class_course i));
  manages ← can_manage_instance u i;
  let kept := if manages : bool then rows else filter (λ hw, student_sees hw (uid u) = true) rows in
  mret ((λ hw, if manages : bool then hw else for_viewer (uid u) hw) <$> paginate kept limit offset,
        Z.of_nat (length kept)).

(** ** The teacher's roster *)

Record HomeworkRosterEntry := MkHomeworkRosterEntry {
  hr_user : uuid;
  hr_submission : option (HomeworkSubmission * bool * list (uuid * HomeworkFile));
  hr_result : option HomeworkResult;
  hr_missing : bool;
  hr_unenrolled : bool;
}.

(** [homework_submission::list_for_homework] ([id ASC]) and its twin for grades
    ([id DESC]). *)
Definition submissions_to (h : uuid) (d : Desk) : list (uuid * HomeworkSubmission) :=
  reverse (newest (filter (λ p : uuid * HomeworkSubmission, s_homework p.2 = h) (submissions d))).
Definition results_of (h : uuid) (d : Desk) : list (uuid * HomeworkResult) :=
  newest (filter (λ p : uuid * HomeworkResult, r_homework p.2 = h) (results d)).

(** The audience, then whoever else owns work; sorted by key. *)
Definition roster_users (hw : Homework) (enrolled others : list uuid) : list uuid :=
  let base := match hw_assigned hw with Some (u :: us) => u :: us | _ => enrolled end in
  dedup (merge_sort by_key (foldl (λ us u, if bool_decide (u ∈ us) then us else us ++ [u]) base others)).

Definition roster_row (hw : Homework) (subs : list (uuid * HomeworkSubmission)) (rs : list (uuid * HomeworkResult))
    (enrolled : list uuid) (u : uuid) : io Desk HomeworkRosterEntry :=
  let found := list_find (λ p : uuid * HomeworkSubmission, s_user p.2 = u) subs in
  handed ← match found with
    | Some (_, (i, s)) =>
        fs ← atomic (gets (λ d, list_files d i));
        mret (Some (s, late s hw, fs))
    | None => mret None
    end;
  missing ← match found with Some _ => mret false | None => at_ ← now; mret (due_at (hw_row hw) <? at_) end;
  mret (MkHomeworkRosterEntry u handed (snd ∘ snd <$> list_find (λ p : uuid * HomeworkResult, r_user p.2 = u) rs)
    missing (negb (bool_decide (u ∈ enrolled)))).

Definition list_homework_submissions (u : User) (h : uuid) (limit offset : option Z)
    : io Desk (list HomeworkRosterEntry * Z) :=
  _ ← lift (require_teacher u);
  '(limit, offset) ← lift (resolve_page limit offset);
  '(hw, _) ← homework_with_instance h;
  _ ← managed u hw "list submissions";
  subs ← atomic (gets (submissions_to (hw_id hw)));
  rs ← atomic (gets (results_of (hw_id hw)));
  enrolled ← atomic (gets (λ d, enrolled_in (school d) (class_course (hw_row hw))));
  let people := roster_users hw enrolled
    (((λ p : uuid * HomeworkSubmission, s_user p.2) <$> subs) ++ ((λ p : uuid * HomeworkResult, r_user p.2) <$> rs)) in
  items ← mapM (roster_row hw subs rs enrolled) (paginate people limit offset);
  mret (items, Z.of_nat (length people)).

(** ** The observer's report *)

Record HomeworkReportEntry := MkHomeworkReportEntry {
  rp_homework : uuid;
  rp_class_course : uuid;
  rp_title : str;
  rp_subject : uuid;
  rp_due_at : Z;
  rp_submitted : bool;
  rp_late : bool;
  rp_missing : bool;
  rp_result : option HomeworkResult;
}.

Definition report_row (target : uuid) (hw : Homework) : io Desk HomeworkReportEntry :=
  sub ← atomic (gets (λ d, submission_for d (hw_id hw) target));
  r ← atomic (gets (λ d, result_for d (hw_id hw) target));
  missing ← match sub with Some _ => mret false | None => at_ ← now; mret (due_at (hw_row hw) <? at_) end;
  let row := hw_row hw in
  mret (MkHomeworkReportEntry (hw_id hw) (class_course row) (hw_title row) (hw_subject row) (due_at row) (bool_decide (is_Some sub))
    (match sub with Some (_, s) => late s hw | None => false end) missing (snd <$> r)).

(** The instances of the target the caller runs; asked one by one. *)
Fixpoint only_managed (u : User) (xs : list (uuid * Instance)) : io Desk (list (uuid * Instance)) :=
  match xs with
  | [] => mret []
  | x :: xs =>
      manages ← can_manage_instance u x.1;
      rest ← only_managed u xs;
      mret (if manages : bool then x :: rest else rest)
  end.

Definition homework_report (u : User) (user : str) (limit offset : option Z) : io Desk (list HomeworkReportEntry * Z) :=
  '(limit, offset) ← lift (resolve_page limit offset);
  let target := uuid_from_key user in
  _ ← ensure_can_observe u target;
  held ← atomic (gets (λ d, user_of target (school d)));
  target_user ← lift (ok_or held NotFound);
  visible ← visible_instances target_user;
  let xs := fst <$> visible in
  xs ← (if bool_decide (get_role u = Teacher) then only_managed u xs else mret xs);
  blocks ← mapM (λ x : uuid * Instance, atomic (gets (list_for_user_in_course x.1 target))) xs;
  let rows := mjoin blocks in
  items ← mapM (report_row target) (paginate rows limit offset);
  mret (items, Z.of_nat (length rows)).
End Routes.
