(* ===== verification/HomeworkProofs.v ===== *)
(** * What the tables of homework promise

    A subject counts the homework tagged with it and a submission its files; a
    student has one submission and one grade per homework; a stamp is the pair's
    own grade; every row points at rows that are there; everybody who handed in is
    in the audience; and an account was credited for what it has standing. *)

From S2P Require Import Prelude Text Errors Effects Uuid Validate Modules Badges ExamForms Tally Gates EventForms Roster HomeworkForms Homework.

Open Scope Z_scope.

(** ** Rows with a unique pair *)

Definition unique {V} (pair : V → uuid * uuid) (rows : gmap uuid V) : Prop :=
  ∀ i j v w, rows !! i = Some v → rows !! j = Some w → pair v = pair w → i = j.

Section ByPair.
Context {V : Type} (pair : V → uuid * uuid).
Implicit Types (rows : gmap uuid V).

Lemma by_pair_row rows k i v : by_pair pair rows k = Some (i, v) → rows !! i = Some v ∧ pair v = k.
Proof.
  unfold by_pair. intros Hh. destruct (filter _ _) as [|p l] eqn:E; [done|]. injection Hh as ->.
  assert ((i, v) ∈ filter (λ p : uuid * V, pair p.2 = k) (map_to_list rows)) as Hin by (rewrite E; left).
  apply list_elem_of_filter in Hin as [Hk Hm]. by rewrite elem_of_map_to_list in Hm.
Qed.

Lemma by_pair_None rows k : by_pair pair rows k = None ↔ ∀ i v, rows !! i = Some v → pair v ≠ k.
Proof.
  unfold by_pair. split.
  - intros Hn i v Hv Hk. destruct (filter _ _) as [|p l] eqn:E; [|done].
    assert ((i, v) ∈ filter (λ p : uuid * V, pair p.2 = k) (map_to_list rows)) as Hin
      by (apply list_elem_of_filter; by rewrite elem_of_map_to_list).
    rewrite E in Hin. by apply not_elem_of_nil in Hin.
  - intros Hno. destruct (filter _ _) as [|p l] eqn:E; [done|].
    assert (p ∈ filter (λ p : uuid * V, pair p.2 = k) (map_to_list rows)) as Hin by (rewrite E; left).
    destruct p as [i v]. apply list_elem_of_filter in Hin as [Hk Hm]. rewrite elem_of_map_to_list in Hm. by destruct (Hno i v).
Qed.

Lemma by_pair_Some rows k i v : unique pair rows → by_pair pair rows k = Some (i, v) ↔ rows !! i = Some v ∧ pair v = k.
Proof.
  intros Hu. split; [apply by_pair_row|]. intros [Hv Hk]. destruct (by_pair pair rows k) as [[j w]|] eqn:E.
  - apply by_pair_row in E as [Hw Hk']. assert (i = j) as <- by (apply (Hu i j v w); congruence). congruence.
  - by destruct (proj1 (by_pair_None rows k) E i v).
Qed.

Lemma unique_insert rows i v :
  unique pair rows → (∀ j w, rows !! j = Some w → pair w = pair v → j = i) → unique pair (<[i := v]> rows).
Proof.
  intros Hu Hv a b x y [[<- <-]|[Ha Hx]]%lookup_insert_Some [[<- <-]|[Hb Hy]]%lookup_insert_Some E; [done|..|by eapply Hu].
  - by rewrite (Hv b y).
  - by apply (Hv a x).
Qed.
Lemma unique_sub rows rows' : rows' ⊆ rows → unique pair rows → unique pair rows'.
Proof. intros Hs Hu i j v w Hv Hw. apply (Hu i j v w); by eapply lookup_weaken. Qed.
Lemma unique_pairs rows rows' : pair <$> rows' = pair <$> rows → unique pair rows → unique pair rows'.
Proof.
  intros E Hu i j v w Hv Hw Hp.
  assert (∀ k x, rows' !! k = Some x → ∃ y, rows !! k = Some y ∧ pair y = pair x) as Hk.
  { intros k x Hx. assert ((pair <$> rows') !! k = Some (pair x)) as Hf by (by rewrite lookup_fmap, Hx).
    rewrite E, lookup_fmap in Hf. by apply fmap_Some in Hf as (y & ? & ->); eauto. }
  destruct (Hk i v Hv) as (v0 & ? & ?). destruct (Hk j w Hw) as (w0 & ? & ?). apply (Hu i j v0 w0); congruence.
Qed.
End ByPair.

(** ** The invariant *)

Definition subject_key (p : uuid * Assignment) : option uuid := Some (hw_subject p.2).
Definition file_key (p : uuid * HomeworkFile) : option uuid := Some (f_submission p.2).
(** A submission that was credited so, and stands. *)
Definition standing (b : bool) (p : uuid * HomeworkSubmission) : option uuid :=
  if decide (counted_on_time p.2 = Some b) then Some (s_user p.2) else None.

Record rows_ok (us is_ : gset uuid) (subs : gmap uuid Subject) (hws : gmap uuid Assignment)
    (asg : gset (uuid * uuid)) : Prop := {
  ro_count : tallies subject_key (homework_count <$> subs) hws;
  ro_row : ∀ h row, hws !! h = Some row →
    class_course row ∈ is_ ∧ hw_subject row ∈ dom subs ∧ hw_created_by row ∈ us;
  ro_named : ∀ h u, (h, u) ∈ asg → h ∈ dom hws ∧ u ∈ us;
}.

Record work_ok (us hs : gset uuid) (subs : gmap uuid HomeworkSubmission) (rs : gmap uuid HomeworkResult)
    (fs : gmap uuid HomeworkFile) : Prop := {
  wo_subs : unique s_pair subs;
  wo_results : unique r_pair rs;
  wo_sub : ∀ i s, subs !! i = Some s →
    s_homework s ∈ hs ∧ s_user s ∈ us ∧ file_count s ≤ MAX_HOMEWORK_FILES_PER_SUBMISSION;
  wo_result : ∀ i r, rs !! i = Some r → r_homework r ∈ hs ∧ r_user r ∈ us ∧ graded_by r ∈ us;
  wo_files : tallies file_key (file_count <$> subs) fs;
  wo_file : ∀ i f, fs !! i = Some f → f_submission f ∈ dom subs;
  wo_stamp : ∀ i s r, subs !! i = Some s → graded_by_result s = Some r → r_pair <$> rs !! r = Some (s_pair s);
}.

Record credit_ok (us : gset uuid) (ts : gmap uuid BadgeStats) (subs : gmap uuid HomeworkSubmission) : Prop := {
  co_people : dom ts = us;
  co_kept : ∀ i s, subs !! i = Some s → is_Some (counted_on_time s);
  co_owed : ∀ u st, ts !! u = Some st →
    tallied (standing true) subs u ≤ homework_on_time st
    ∧ tallied (standing false) subs u ≤ homework_submitted st - homework_on_time st;
}.

(** Named, or nobody is. *)
Definition seen_by (asg : gset (uuid * uuid)) (k : uuid * uuid) : Prop :=
  k ∈ asg ∨ ∀ u, (k.1, u) ∉ asg.

Definition account_ids (d : Desk) : gset uuid := dom (users (school d)).

Record desk_ok (d : Desk) : Prop := {
  dk_rows : rows_ok (account_ids d) (dom (instances (school d))) (subjects d) (homeworks d) (assignments d);
  dk_work : work_ok (account_ids d) (dom (homeworks d)) (submissions d) (results d) (files d);
  dk_credit : credit_ok (account_ids d) (totals d) (submissions d);
  dk_seen : ∀ i s, submissions d !! i = Some s → seen_by (assignments d) (s_pair s);
}.

Lemma elem_of_named_in d h u : u ∈ named_in d h ↔ (h, u) ∈ assignments d.
Proof.
  unfold named_in. rewrite elem_of_map. split.
  - intros ([h' u'] & -> & [E Hin]%elem_of_filter). simpl in *. by subst.
  - intros Hin. exists (h, u). split; [done|]. by apply elem_of_filter.
Qed.
Lemma named_in_empty d h : named_in d h = ∅ ↔ ∀ u, (h, u) ∉ assignments d.
Proof.
  split.
  - intros E u Hu. apply elem_of_named_in in Hu. rewrite E in Hu. by apply elem_of_empty in Hu.
  - intros Hno. apply set_eq. intros u. rewrite elem_of_named_in. split; [by intros ?%Hno|by intros ?%elem_of_empty].
Qed.
Lemma in_audience_seen d h u : in_audience d h u = true ↔ seen_by (assignments d) (h, u).
Proof. unfold in_audience, seen_by. rewrite orb_true_iff, !bool_decide_eq_true, named_in_empty. simpl. tauto. Qed.

(** ** What a rewrite of the submissions leaves *)

(** The columns the invariant reads, but for the stamp. *)
Definition shape (s : HomeworkSubmission) : (uuid * uuid) * Z * option bool := (s_pair s, file_count s, counted_on_time s).
Definition verdict_of (s : HomeworkSubmission) : (uuid * uuid) * option bool := (s_pair s, counted_on_time s).

Section Shapes.
Implicit Types (subs : gmap uuid HomeworkSubmission) (rs : gmap uuid HomeworkResult) (fs : gmap uuid HomeworkFile).

Lemma column_of {A B C} (f : A → B) (g : B → C) (h : A → C) (rows rows' : gmap uuid A) :
  (∀ x, g (f x) = h x) → f <$> rows' = f <$> rows → h <$> rows' = h <$> rows.
Proof.
  intros Hg E. apply map_eq. intros i. pose proof (f_equal (λ m : gmap uuid B, m !! i) E) as Ei. cbv beta in Ei. revert Ei.
  rewrite !lookup_fmap. destruct (rows' !! i), (rows !! i); simpl; intros Ei; [|done..|done].
  injection Ei as Ei. by rewrite <- !Hg, Ei.
Qed.

Lemma shape_row subs subs' i s' :
  shape <$> subs' = shape <$> subs → subs' !! i = Some s' → ∃ s, subs !! i = Some s ∧ shape s' = shape s.
Proof.
  intros E Hs. assert ((shape <$> subs') !! i = Some (shape s')) as Hf by (by rewrite lookup_fmap, Hs).
  rewrite E, lookup_fmap in Hf. by apply fmap_Some in Hf as (s & ? & ?); eauto.
Qed.

Lemma work_shape us hs subs subs' rs rs' fs :
  shape <$> subs' = shape <$> subs → unique r_pair rs' →
  (∀ i r, rs' !! i = Some r → r_homework r ∈ hs ∧ r_user r ∈ us ∧ graded_by r ∈ us) →
  (∀ i s r, subs' !! i = Some s → graded_by_result s = Some r → r_pair <$> rs' !! r = Some (s_pair s)) →
  work_ok us hs subs rs fs → work_ok us hs subs' rs' fs.
Proof.
  intros E Hur Hres Hst [Hu _ Hs _ Hf Hfile _]. split; [|done| |done| | |done].
  - eapply unique_pairs; [|exact Hu]. by apply (column_of shape (λ x, x.1.1)).
  - intros i s' Hs'. destruct (shape_row subs subs' i s' E Hs') as (s & H0 & [= Ep1 Ep2 Ec _]).
    destruct (Hs i s H0) as (? & ? & ?). rewrite Ep1, Ep2, Ec. done.
  - by rewrite (column_of shape (λ x, x.1.2) file_count subs subs').
  - intros i f Hi. rewrite <- (dom_fmap_L shape), E, dom_fmap_L. by eapply Hfile.
Qed.

Lemma credit_column us ts subs subs' : verdict_of <$> subs' = verdict_of <$> subs → credit_ok us ts subs → credit_ok us ts subs'.
Proof.
  intros E [? Hk Ho]. split; [done|..].
  - intros i s' Hs'. assert ((verdict_of <$> subs') !! i = Some (verdict_of s')) as Hf by (by rewrite lookup_fmap, Hs').
    rewrite E, lookup_fmap in Hf. apply fmap_Some in Hf as (s & H0 & [= _ _ Ev]). rewrite Ev. eauto.
  - intros u st Hst. assert (∀ b, tallied (standing b) subs' u = tallied (standing b) subs u) as Ht.
    { intros b. apply tallied_frame. intros i. unfold standing. simpl.
      pose proof (f_equal (λ m : gmap uuid _, m !! i) E) as Ei. cbv beta in Ei. rewrite !lookup_fmap in Ei.
      destruct (subs' !! i), (subs !! i); [|done..|done]. injection Ei as _ Ep Ev. simpl. by rewrite Ep, Ev. }
    rewrite !Ht. eauto.
Qed.

Lemma seen_column asg subs subs' : verdict_of <$> subs' = verdict_of <$> subs →
  (∀ i s, subs !! i = Some s → seen_by asg (s_pair s)) → ∀ i s, subs' !! i = Some s → seen_by asg (s_pair s).
Proof.
  intros E Hs i s' Hs'. assert ((verdict_of <$> subs') !! i = Some (verdict_of s')) as Hf by (by rewrite lookup_fmap, Hs').
  rewrite E, lookup_fmap in Hf. apply fmap_Some in Hf as (s & H0 & [= Ep1 Ep2 _]).
  unfold s_pair. rewrite Ep1, Ep2. by apply (Hs i s).
Qed.

Lemma shape_verdict subs subs' : shape <$> subs' = shape <$> subs → verdict_of <$> subs' = verdict_of <$> subs.
Proof. by apply (column_of shape (λ x, (x.1.1, x.2))). Qed.

Lemma shape_put subs i s s' : subs !! i = Some s → shape s' = shape s → shape <$> <[i := s']> subs = shape <$> subs.
Proof. intros Hi E. apply column_put. by rewrite Hi, E. Qed.
Lemma shape_map subs (f : HomeworkSubmission → HomeworkSubmission) :
  (∀ s, shape (f s) = shape s) → shape <$> (f <$> subs) = shape <$> subs.
Proof. apply column_same_all. Qed.
End Shapes.

(** A desk with other submissions of the same shape. *)
Lemma desk_shape d f :
  shape <$> f (submissions d) = shape <$> submissions d →
  (∀ i s r, f (submissions d) !! i = Some s → graded_by_result s = Some r → r_pair <$> results d !! r = Some (s_pair s)) →
  desk_ok d → desk_ok (set_submissions f d).
Proof.
  intros E Hst [? Hw Hc Hs]. pose proof (shape_verdict _ _ E) as Ev. split; simpl; [done| |exact (credit_column _ _ _ _ Ev Hc)|].
  { eapply work_shape; [exact E|by eapply wo_results|by eapply wo_result|done|exact Hw]. }
  exact (seen_column _ _ _ Ev Hs).
Qed.

(** ** What each write owes *)

Section Writes.
Context (us is_ : gset uuid).

Lemma rows_assigned subs hws asg h row :
  hws !! h = None → class_course row ∈ is_ → hw_subject row ∈ dom subs → hw_created_by row ∈ us →
  rows_ok us is_ subs hws asg →
  rows_ok us is_ (alter (on_homework bumped) (hw_subject row) subs) (<[h := row]> hws) asg.
Proof.
  intros Hh Hi Hs Hc [Ht Hr Hn]. split.
  - rewrite (column_moves homework_count (on_homework bumped) bumped) by done. by apply tallies_bump.
  - rewrite dom_alter_row. intros h' row' [[<- <-]|[_ H']]%lookup_insert_Some; [done|]. by eapply Hr.
  - intros h' u Hu. rewrite dom_insert_L. destruct (Hn h' u Hu). set_solver.
Qed.

Lemma rows_delete subs hws asg h row :
  hws !! h = Some row → rows_ok us is_ subs hws asg →
  rows_ok us is_ (alter (on_homework given_back) (hw_subject row) subs) (delete h hws) (filter (λ p, p.1 ≠ h) asg).
Proof.
  intros Hh [Ht Hr Hn]. split.
  - rewrite (column_moves homework_count (on_homework given_back) given_back) by done. by eapply tallies_give_back.
  - rewrite dom_alter_row. intros h' row' [_ H']%lookup_delete_Some. by eapply Hr.
  - intros h' u [Hne Hu]%elem_of_filter. rewrite dom_delete_L. destruct (Hn h' u Hu). set_solver.
Qed.

(** A row that keeps its instance and its creator, and its subject or not. *)
Lemma rows_same subs hws asg h row row' :
  hws !! h = Some row → class_course row' = class_course row → hw_subject row' = hw_subject row →
  hw_created_by row' = hw_created_by row → rows_ok us is_ subs hws asg → rows_ok us is_ subs (<[h := row']> hws) asg.
Proof.
  intros Hh Hc Hs Hb [Ht Hr Hn]. split.
  - apply (tallies_same subject_key _ _ h row row'); [done| |done]. unfold subject_key. simpl. by rewrite Hs.
  - intros h' x [[<- <-]|[_ H']]%lookup_insert_Some; [|by eapply Hr]. rewrite Hc, Hs, Hb. by apply (Hr h row).
  - intros h' u Hu. rewrite dom_insert_L. destruct (Hn h' u Hu). set_solver.
Qed.

Lemma rows_retag subs hws asg h row row' :
  hws !! h = Some row → class_course row' = class_course row → hw_created_by row' = hw_created_by row →
  hw_subject row' ∈ dom subs → rows_ok us is_ subs hws asg →
  rows_ok us is_ (alter (on_homework bumped) (hw_subject row') (alter (on_homework given_back) (hw_subject row) subs))
    (<[h := row']> hws) asg.
Proof.
  intros Hh Hc Hb Hs [Ht Hr Hn]. destruct (Hr h row Hh) as (? & ? & ?). split.
  - rewrite <- insert_delete_eq, (column_moves homework_count (on_homework bumped) bumped),
      (column_moves homework_count (on_homework given_back) given_back) by done.
    apply tallies_bump; [by rewrite lookup_delete_eq|done|]. by eapply tallies_give_back.
  - rewrite !dom_alter_row. intros h' x [[<- <-]|[_ H']]%lookup_insert_Some; [|by eapply Hr]. by rewrite Hc, Hb.
  - intros h' u Hu. rewrite dom_insert_L. destruct (Hn h' u Hu). set_solver.
Qed.

(** The students of a homework, named anew. *)
Definition named_anew (h : uuid) (students : list uuid) (asg : gset (uuid * uuid)) : gset (uuid * uuid) :=
  list_to_set (pair h <$> students) ∪ filter (λ p, p.1 ≠ h) asg.

Lemma elem_of_pairs h students k : k ∈@{gset (uuid * uuid)} list_to_set (pair h <$> students) ↔ k.1 = h ∧ k.2 ∈ students.
Proof.
  rewrite elem_of_list_to_set, list_elem_of_fmap. destruct k as [a b]. simpl. split.
  - intros (x & [= -> ->] & ?). done.
  - intros [-> ?]. eauto.
Qed.
Lemma elem_of_named_anew h students asg k :
  k ∈ named_anew h students asg ↔ (k.1 = h ∧ k.2 ∈ students) ∨ (k.1 ≠ h ∧ k ∈ asg).
Proof. unfold named_anew. by rewrite elem_of_union, elem_of_pairs, elem_of_filter. Qed.

Lemma rows_named subs hws asg h students :
  h ∈ dom hws → (∀ u, u ∈ students → u ∈ us) → rows_ok us is_ subs hws asg →
  rows_ok us is_ subs hws (named_anew h students asg).
Proof.
  intros Hh Hu [? ? Hn]. split; [done|done|]. intros h' u [[E ?]|[_ ?]]%elem_of_named_anew; [|by apply Hn].
  simpl in *. subst. auto.
Qed.
End Writes.

Lemma seen_named asg h students k :
  (k.1 = h → k.2 ∈ students ∨ students = []) → seen_by asg k → seen_by (named_anew h students asg) k.
Proof.
  unfold seen_by. setoid_rewrite elem_of_named_anew. intros Hk Hs. simpl.
  destruct (decide (k.1 = h)) as [E|Hne].
  - destruct (Hk E) as [?|Hnil]; [by auto|]. right. intros u [[_ Hu]|[? _]]; [|done]. rewrite Hnil in Hu. by apply not_elem_of_nil in Hu.
  - destruct Hs as [?|Hs]; [by auto|]. right. intros u [[? _]|[_ Hu]]; [done|]. by apply (Hs u).
Qed.

Section Work.
Context (us hs : gset uuid).
Implicit Types (subs : gmap uuid HomeworkSubmission) (rs : gmap uuid HomeworkResult) (fs : gmap uuid HomeworkFile).

Lemma work_grow hs' subs rs fs : hs ⊆ hs' → work_ok us hs subs rs fs → work_ok us hs' subs rs fs.
Proof.
  intros Hs [? ? Hsub Hres ? ? ?]. split; try done.
  - intros i s Hi. destruct (Hsub i s Hi) as (? & ? & ?). set_solver.
  - intros i r Hi. destruct (Hres i r Hi) as (? & ? & ?). set_solver.
Qed.

Lemma work_handed subs rs fs i s :
  subs !! i = None → (∀ j x, subs !! j = Some x → s_pair x ≠ s_pair s) → s_homework s ∈ hs → s_user s ∈ us →
  file_count s = 0 → graded_by_result s = None → work_ok us hs subs rs fs → work_ok us hs (<[i := s]> subs) rs fs.
Proof.
  intros Hi Hp Hh Hu Hc Hg [Hun ? Hsub ? Hf Hfile Hst]. split; try done.
  - apply unique_insert; [done|]. intros j w Hw E. by destruct (Hp j w).
  - intros j x [[<- <-]|[_ Hj]]%lookup_insert_Some; [|by eapply Hsub]. rewrite Hc. done.
  - rewrite fmap_insert, Hc. apply tallies_born; [|done]. intros j f Hj [= E]. pose proof (Hfile j f Hj) as [x Hx]%elem_of_dom.
    rewrite E in Hx. congruence.
  - intros j f Hj. rewrite dom_insert_L. specialize (Hfile j f Hj). set_solver.
  - intros j x r [[<- <-]|[_ Hj]]%lookup_insert_Some Hr; [congruence|by eapply Hst].
Qed.

Lemma work_withdrawn subs rs fs i :
  work_ok us hs subs rs fs → work_ok us hs (delete i subs) rs (filter (λ p : uuid * HomeworkFile, f_submission p.2 ≠ i) fs).
Proof.
  intros [Hun ? Hsub ? Hf Hfile Hst]. split; try done.
  - eapply unique_sub; [apply delete_subseteq|done].
  - intros j s [_ Hj]%lookup_delete_Some. by eapply Hsub.
  - rewrite fmap_delete. eapply tallies_keep; [|exact Hf]. intros k c [Hne Hk]%lookup_delete_Some. split; [done|].
    intros j f _ [= E]. simpl. congruence.
  - intros j f [Hj Hne]%map_lookup_filter_Some. rewrite dom_delete_L. specialize (Hfile j f Hj). set_solver.
  - intros j s r [_ Hj]%lookup_delete_Some. by eapply Hst.
Qed.

Lemma work_filed subs rs fs i f s :
  fs !! i = None → subs !! f_submission f = Some s → file_count s < MAX_HOMEWORK_FILES_PER_SUBMISSION →
  work_ok us hs subs rs fs → work_ok us hs (alter (on_files bumped) (f_submission f) subs) rs (<[i := f]> fs).
Proof.
  intros Hi Hs Hc [Hun ? Hsub ? Hf Hfile Hst].
  assert (∀ j x, alter (on_files bumped) (f_submission f) subs !! j = Some x →
    ∃ y, subs !! j = Some y ∧ s_pair x = s_pair y ∧ graded_by_result x = graded_by_result y
      ∧ file_count x ≤ MAX_HOMEWORK_FILES_PER_SUBMISSION) as Hrow.
  { intros j x. rewrite lookup_alter. case_decide as E; [subst|].
    - rewrite Hs. intros [= <-]. exists s. unfold bumped. simpl. split_and!; [done..|]. unfold bumped. lia.
    - intros Hj. exists x. split_and!; [done..|]. by apply (Hsub j x). }
  split; try done.
  - eapply unique_pairs; [|exact Hun]. by apply column_same.
  - intros j x Hx. destruct (Hrow j x Hx) as (y & Hy & [= E1 E2] & _ & ?). destruct (Hsub j y Hy) as (? & ? & _). by rewrite E1, E2.
  - rewrite (column_moves file_count (on_files bumped) bumped) by done. by apply tallies_bump.
  - rewrite dom_alter_row. intros j g [[<- <-]|[_ Hj]]%lookup_insert_Some; [by apply elem_of_dom|by eapply Hfile].
  - intros j x r Hx Hr. destruct (Hrow j x Hx) as (y & Hy & -> & E & _). eapply Hst; [done|congruence].
Qed.

Lemma work_unfiled subs rs fs i f s s' :
  fs !! i = Some f → subs !! f_submission f = Some s →
  s_pair s' = s_pair s → file_count s' = given_back (file_count s) → graded_by_result s' = graded_by_result s →
  work_ok us hs subs rs fs → work_ok us hs (<[f_submission f := s']> subs) rs (delete i fs).
Proof.
  intros Hi Hs Ep Ec Eg [Hun ? Hsub ? Hf Hfile Hst]. split; try done.
  - eapply unique_pairs; [|exact Hun]. apply column_put. by rewrite Hs, Ep.
  - intros j x [[<- <-]|[_ Hj]]%lookup_insert_Some; [|by eapply Hsub].
    destruct (Hsub _ _ Hs) as (? & ? & ?). injection Ep as -> ->. rewrite Ec. split_and!; [done..|]. unfold given_back.
    unfold MAX_HOMEWORK_FILES_PER_SUBMISSION in *. lia.
  - assert (file_count <$> <[f_submission f := s']> subs = alter given_back (f_submission f) (file_count <$> subs)) as ->.
    { apply map_eq. intros j. rewrite lookup_fmap, lookup_alter, lookup_insert. case_decide as E; rewrite lookup_fmap; [|done].
      subst. rewrite Hs. simpl. by rewrite Ec. }
    by eapply tallies_give_back.
  - intros j g [_ Hj]%lookup_delete_Some. rewrite dom_insert_L. specialize (Hfile j g Hj). set_solver.
  - intros j x r [[<- <-]|[_ Hj]]%lookup_insert_Some Hr; [|by eapply Hst]. rewrite Ep. eapply Hst; [done|congruence].
Qed.

(** The homework within [G] goes, and all that hangs off it. *)
Lemma work_without (G : uuid → Prop) `{!∀ h, Decision (G h)} hs' subs rs fs (gone : gset uuid) :
  gone = dom (filter (λ p : uuid * HomeworkSubmission, G (s_homework p.2)) subs) →
  (∀ h, h ∈ hs → ¬ G h → h ∈ hs') → work_ok us hs subs rs fs →
  work_ok us hs' (filter (λ p : uuid * HomeworkSubmission, ¬ G (s_homework p.2)) subs)
    (filter (λ p : uuid * HomeworkResult, ¬ G (r_homework p.2)) rs)
    (filter (λ p : uuid * HomeworkFile, f_submission p.2 ∉ gone) fs).
Proof.
  intros -> Hhs [Hun Hur Hsub Hres Hf Hfile Hst]. split.
  - eapply unique_sub; [apply map_filter_subseteq|done].
  - eapply unique_sub; [apply map_filter_subseteq|done].
  - intros i s [Hi Hn]%map_lookup_filter_Some. destruct (Hsub i s Hi) as (? & ? & ?). auto.
  - intros i r [Hi Hn]%map_lookup_filter_Some. destruct (Hres i r Hi) as (? & ? & ?). auto.
  - eapply tallies_keep; [|exact Hf]. intros k c. rewrite !lookup_fmap.
    intros (s & [Hs Hn]%map_lookup_filter_Some & ->)%fmap_Some. rewrite Hs. split; [done|].
    intros j f _ [= <-]. simpl. intros [x [Hx Hg]%map_lookup_filter_Some]%elem_of_dom. simpl in *. congruence.
  - intros i f [Hi Hn]%map_lookup_filter_Some. pose proof (Hfile i f Hi) as [s Hs]%elem_of_dom. apply elem_of_dom.
    exists s. apply map_lookup_filter_Some. split; [done|]. intros Hg. apply Hn, elem_of_dom. exists s.
    by apply map_lookup_filter_Some.
  - intros i s r [Hi Hn]%map_lookup_filter_Some Hr. pose proof (Hst i s r Hi Hr) as (x & Hx & E)%fmap_Some.
    assert (filter (λ p : uuid * HomeworkResult, ¬ G (r_homework p.2)) rs !! r = Some x) as ->; [|by rewrite E].
    apply map_lookup_filter_Some. split; [done|]. injection E as E _. simpl in *. by rewrite <- E.
Qed.

Lemma work_graded subs rs fs j r h u :
  h ∈ hs → u ∈ us → graded_by r ∈ us → r_pair r = (h, u) →
  (∀ i x, rs !! i = Some x → r_pair x = (h, u) → i = j) → (∀ x, rs !! j = Some x → r_pair x = (h, u)) →
  work_ok us hs subs rs fs → work_ok us hs (stamp_pair h u j subs) (<[j := r]> rs) fs.
Proof.
  intros Hh Hu Hg Hp Hone Hj [Hun Hur Hsub Hres Hf Hfile Hst].
  apply (work_shape us hs subs _ rs); [..|by split].
  - apply shape_map. intros s. by case_decide.
  - apply unique_insert; [done|]. intros i x Hx E. apply (Hone i x Hx). congruence.
  - intros i x [[<- <-]|[_ Hx]]%lookup_insert_Some; [|by eapply Hres]. by injection Hp as -> ->.
  - intros i s x. unfold stamp_pair. rewrite lookup_fmap. intros (s0 & Hs0 & ->)%fmap_Some. case_decide as E; simpl.
    + intros [= <-]. rewrite lookup_insert_eq. simpl. rewrite Hp. f_equal. symmetry. exact (proj1 E).
    + intros Hx. pose proof (Hst i s0 x Hs0 Hx) as Hold. destruct (decide (j = x)) as [<-|Hne]; [|by rewrite lookup_insert_ne].
      rewrite lookup_insert_eq. apply fmap_Some in Hold as (y & Hy & ->). simpl. by rewrite Hp, (Hj y Hy).
Qed.

Lemma work_ungraded subs rs fs j r h u :
  rs !! j = Some r → r_pair r = (h, u) →
  work_ok us hs subs rs fs → work_ok us hs (unstamp_pair h u j subs) (delete j rs) fs.
Proof.
  intros Hj Hp [Hun Hur Hsub Hres Hf Hfile Hst].
  apply (work_shape us hs subs _ rs); [..|by split].
  - apply shape_map. intros s. by case_decide.
  - eapply unique_sub; [apply delete_subseteq|done].
  - intros i x [_ Hx]%lookup_delete_Some. by eapply Hres.
  - intros i s x. unfold unstamp_pair. rewrite lookup_fmap. intros (s0 & Hs0 & ->)%fmap_Some. case_decide as E; [done|].
    intros Hx. pose proof (Hst i s0 x Hs0 Hx) as Hold. rewrite lookup_delete_ne; [done|]. intros <-. destruct E.
    rewrite Hj in Hold. change (Some (r_pair r) = Some (s_pair s0)) in Hold. split; [congruence|done].
Qed.
End Work.

Section Credit.
Context (us : gset uuid).
Implicit Types (subs : gmap uuid HomeworkSubmission) (ts : gmap uuid BadgeStats).

Lemma credit_handed ts subs i s b :
  subs !! i = None → counted_on_time s = Some b → credit_ok us ts subs →
  credit_ok us (alter (on_handed_in (Z.add 1) (Z.add (credit b))) (s_user s) ts) (<[i := s]> subs).
Proof.
  intros Hi Hb [Hp Hk Ho]. split.
  - by rewrite dom_alter_row.
  - intros j x [[<- <-]|[_ Hj]]%lookup_insert_Some; [by rewrite Hb|by eapply Hk].
  - intros u st Hst. rewrite !tallied_insert by done.
    assert (∀ b', standing b' (i, s) = if decide (b' = b) then Some (s_user s) else None) as Hs.
    { intros b'. unfold standing. simpl. rewrite Hb. apply decide_ext. naive_solver. }
    rewrite !Hs. revert Hst. rewrite lookup_alter. case_decide as E.
    + subst u. intros (st0 & Hst0 & ->)%fmap_Some. destruct (Ho _ st0 Hst0). destruct b; simpl; repeat case_decide; simplify_eq; try lia.
    + intros Hst. destruct (Ho u st Hst). destruct b; simpl; repeat case_decide; simplify_eq; lia.
Qed.

(** What was credited comes back, and no counter meets its floor. *)
Lemma credit_covers ts subs i s b u st :
  subs !! i = Some s → counted_on_time s = Some b → s_user s = u → ts !! u = Some st → credit_ok us ts subs →
  1 ≤ homework_submitted st ∧ credit b ≤ homework_on_time st.
Proof.
  intros Hi Hb <- Hst [_ _ Ho]. destruct (Ho _ _ Hst) as [H1 H2].
  assert (∀ b', b' = b → 1 ≤ tallied (standing b') subs (s_user s)) as Hpos.
  { intros b' ->. apply (tallied_pos _ subs i s); [done|]. unfold standing. simpl. by rewrite decide_True. }
  pose proof (tallied_nonneg (standing true) subs (s_user s)). pose proof (tallied_nonneg (standing false) subs (s_user s)).
  destruct b; simpl; specialize (Hpos _ eq_refl); lia.
Qed.

Lemma credit_withdrawn ts subs i s b :
  subs !! i = Some s → counted_on_time s = Some b → credit_ok us ts subs →
  credit_ok us (alter (on_handed_in (λ n, Z.max (n - 1) 0) (λ n, Z.max (n - credit b) 0)) (s_user s) ts) (delete i subs).
Proof.
  intros Hi Hb Hc. pose proof Hc as [Hp Hk Ho]. split.
  - by rewrite dom_alter_row.
  - intros j x [_ Hj]%lookup_delete_Some. by eapply Hk.
  - intros u st Hst. rewrite !(tallied_delete _ subs i s) by done.
    assert (∀ b', standing b' (i, s) = if decide (b' = b) then Some (s_user s) else None) as Hs.
    { intros b'. unfold standing. simpl. rewrite Hb. apply decide_ext. naive_solver. }
    rewrite !Hs. revert Hst. rewrite lookup_alter. case_decide as E.
    + subst u. intros (st0 & Hst0 & ->)%fmap_Some. destruct (Ho _ st0 Hst0).
      destruct (credit_covers ts subs i s b _ st0 Hi Hb eq_refl Hst0 Hc).
      destruct b; simpl in *; repeat case_decide; simplify_eq; lia.
    + intros Hst. destruct (Ho u st Hst). destruct b; simpl; repeat case_decide; simplify_eq; lia.
Qed.

Lemma credit_filter ts subs (P : uuid * HomeworkSubmission → Prop) `{!∀ p, Decision (P p)} :
  credit_ok us ts subs → credit_ok us ts (filter P subs).
Proof.
  intros [? Hk Ho]. split; [done|..].
  - intros j x [Hj _]%map_lookup_filter_Some. by eapply Hk.
  - intros u st Hst. destruct (Ho u st Hst). pose proof (tallied_filter_le (standing true) P subs u).
    pose proof (tallied_filter_le (standing false) P subs u). lia.
Qed.

Lemma credit_marks ts subs f v : credit_ok us ts subs → credit_ok us (alter (on_marks_given f) v ts) subs.
Proof.
  intros [? Hk Ho]. split; [by rewrite dom_alter_row|done|]. intros u st. rewrite lookup_alter. case_decide; [|apply Ho].
  subst u. intros (st0 & Hst0 & ->)%fmap_Some. exact (Ho _ st0 Hst0).
Qed.
End Credit.

(** ** Every transaction keeps the invariant *)

Abbreviation desk_keeps := (tx_keeps desk_ok).

Lemma insert_assignments_ok h students d r d' :
  insert_assignments h students d = Ok (r, d') →
  (∀ u, u ∈ students → u ∈ account_ids d) ∧ d' = set_assignments (list_to_set (pair h <$> students) ∪.) d.
Proof.
  unfold insert_assignments. destruct (negb (_ && _)); [done|]. destruct (negb (forallb _ _)) eqn:E; [done|].
  intros [= _ <-]. split; [|done]. intros u Hu. apply negb_false_iff in E. rewrite forallb_forall in E.
  apply has_dom, E. by apply list_elem_of_In.
Qed.

Lemma create_homework_ok h row students d hw d' :
  create_homework_tx h row students d = Ok (hw, d') →
  hw_subject row ∈ dom (subjects d) ∧ homeworks d !! h = None ∧ class_course row ∈ dom (instances (school d))
  ∧ hw_created_by row ∈ account_ids d ∧ (∀ u, u ∈ default [] students → u ∈ account_ids d) ∧ hw = MkHomework h row students
  ∧ d' = set_assignments (list_to_set (pair h <$> default [] students) ∪.)
           (set_homeworks <[h := row]> (set_subjects (alter (on_homework bumped) (hw_subject row)) d)).
Proof.
  unfold create_homework_tx. intros ([] & d1 & E1 & ([] & d2 & E2 & ([] & d3 & E3 & E4)%tx_bind_ok)%tx_bind_ok)%tx_bind_ok.
  unfold claim_subject in E1. destruct (has (subjects d) _) eqn:Hs; [|done]. injection E1 as <-.
  unfold insert_row in E2. simpl in E2. destruct (has (homeworks d) h) eqn:Hh; [done|].
  destruct (negb (_ && _)) eqn:Hf; [done|]. injection E2 as <-.
  apply insert_assignments_ok in E3 as [Hu ->]. injection E4 as <- <-.
  apply negb_false_iff, andb_true_iff in Hf as [Hi Hc]. apply has_dom in Hs, Hi, Hc. apply has_not in Hh. done.
Qed.

Lemma create_homework_keeps h row students : desk_keeps (create_homework_tx h row students).
Proof.
  intros d hw d' [Hr Hw Hc Hs] E. apply create_homework_ok in E as (Hsub & Hh & Hi & Hb & Hu & _ & ->).
  assert (list_to_set (pair h <$> default [] students) ∪ assignments d = named_anew h (default [] students) (assignments d)) as Ea.
  { apply set_eq. intros k. rewrite elem_of_named_anew, elem_of_union, elem_of_pairs. split; [|tauto].
    intros [?|Hk]; [by left|]. right. split; [|done]. destruct k as [a b]. intros E. simpl in *. subst.
    destruct (ro_named _ _ _ _ _ Hr h b Hk) as [[x Hx]%elem_of_dom _]. congruence. }
  split; cbn.
  - rewrite Ea. apply rows_named; [rewrite dom_insert_L; set_solver|done|]. by apply rows_assigned.
  - rewrite dom_insert_L. eapply work_grow; [|exact Hw]. set_solver.
  - done.
  - rewrite Ea. intros i s Hi'. apply seen_named; [|by apply (Hs i)]. intros E.
    destruct (wo_sub _ _ _ _ _ Hw i s Hi') as ([x Hx]%elem_of_dom & _). simpl in E. congruence.
Qed.

Section Narrowing.
Context `{UuidText}.

(** The loop keeps every text once, of the holders outside the subset. *)
Lemma blocked_by_spec subset us :
  NoDup (blocked_by subset us) ∧ ∀ k, k ∈ blocked_by subset us ↔ ∃ u, u ∈ us ∧ (u ∉ subset) ∧ k = uuid_text u.
Proof.
  induction us as [|u us [Hnd Hin]] using rev_ind.
  - split; [constructor|]. intros k. split; [by intros ?%not_elem_of_nil|]. by intros (u & ?%not_elem_of_nil & _).
  - unfold blocked_by in *. rewrite foldl_snoc. cbv zeta. set (b := foldl _ [] us) in *.
    assert (∀ k, (∃ v, v ∈ us ++ [u] ∧ (v ∉ subset) ∧ k = uuid_text v) ↔ k ∈ b ∨ ((u ∉ subset) ∧ k = uuid_text u)) as Hk.
    { intros k. rewrite Hin. setoid_rewrite elem_of_app. setoid_rewrite list_elem_of_singleton. naive_solver. }
    case_bool_decide as H1; simpl; [|case_bool_decide as H2; simpl].
    + split; [done|]. intros k. rewrite Hk. naive_solver.
    + split; [done|]. intros k. rewrite Hk. naive_solver.
    + split.
      * apply NoDup_app. split_and!; [done| |apply NoDup_singleton]. intros k Hb ->%list_elem_of_singleton. done.
      * intros k. rewrite Hk, elem_of_app, list_elem_of_singleton. naive_solver.
Qed.

Lemma elem_of_holders d h u :
  u ∈ holders d h ↔ (∃ i s, submissions d !! i = Some s ∧ s_pair s = (h, u)) ∨ (∃ i r, results d !! i = Some r ∧ r_pair r = (h, u)).
Proof.
  unfold holders. rewrite elem_of_app, !list_elem_of_fmap. apply Morphisms_Prop.or_iff_morphism.
  - split.
    + intros ([i s] & -> & [Hh Hm]%list_elem_of_filter). rewrite elem_of_map_to_list in Hm. simpl in *. subst. by exists i, s.
    + intros (i & s & Hm & [= <- <-]). exists (i, s). rewrite list_elem_of_filter, elem_of_map_to_list. done.
  - split.
    + intros ([i s] & -> & [Hh Hm]%list_elem_of_filter). rewrite elem_of_map_to_list in Hm. simpl in *. subst. by exists i, s.
    + intros (i & s & Hm & [= <- <-]). exists (i, s). rewrite list_elem_of_filter, elem_of_map_to_list. done.
Qed.

(** What a narrowing passes. *)
Definition orphans_nobody (d : Desk) (h : uuid) (new_assigned : option (list uuid)) : Prop :=
  ∀ subset, new_assigned = Some subset → ∀ u, u ∈ holders d h → u ∈ subset.

Lemma ensure_no_orphans_ok h new_assigned d r d' :
  ensure_no_orphans h new_assigned d = Ok (r, d') ↔ d' = d ∧ orphans_nobody d h new_assigned.
Proof.
  unfold ensure_no_orphans, orphans_nobody. destruct r. destruct new_assigned as [subset|].
  - pose proof (blocked_by_spec subset (holders d h)) as [_ Hin]. case_bool_decide as E.
    + split; [|by intros [-> _]]. intros [= <-]. split; [done|]. intros ? [= <-] u Hu.
      destruct (decide (u ∈ subset)) as [|Hn]; [done|]. assert (uuid_text u ∈ @nil str) as []%not_elem_of_nil.
      rewrite <- E. apply Hin. eauto.
    + split; [done|]. intros [-> Hall]. destruct E. destruct (blocked_by _ _) as [|k l] eqn:Eb; [done|].
      assert (∃ u, u ∈ holders d h ∧ (u ∉ subset) ∧ k = uuid_text u) as (u & Hu & Hn & _) by (apply Hin; left).
      by destruct Hn; apply Hall.
  - split; [intros [= <-]; by split|by intros [-> _]].
Qed.

(** The subject a patch really moves to. *)
Definition moving (read : Homework) (p : HomeworkPatch) : option uuid :=
  if bool_decide (hp_subject p = Some (hw_subject (hw_row read))) then None else hp_subject p.
Definition moved_to (current : Assignment) (next : option uuid) (subs : gmap uuid Subject) : gmap uuid Subject :=
  match next with
  | None => subs
  | Some s => alter (on_homework bumped) s (alter (on_homework given_back) (hw_subject current) subs)
  end.
Definition renamed (h : uuid) (students : option (option (list uuid))) (asg : gset (uuid * uuid)) : gset (uuid * uuid) :=
  match students with None => asg | Some r => named_anew h (default [] r) asg end.

Lemma update_homework_ok read p d hw d' :
  update_homework_tx read p d = Ok (hw, d') →
  let h := hw_id read in
  ∃ current, homeworks d !! h = Some current
    ∧ (∀ resolved, hp_assigned p = Some resolved → orphans_nobody d h resolved ∧ ∀ u, u ∈ default [] resolved → u ∈ account_ids d)
    ∧ (∀ s, moving read p = Some s → s ∈ dom (subjects d))
    ∧ (is_Some (hp_subject p) → hw_subject current = hw_subject (hw_row read))
    ∧ d' = set_homeworks <[h := patched p current]> (set_assignments (renamed h (hp_assigned p))
             (set_subjects (moved_to current (moving read p)) d))
    ∧ hw = assemble d' h (patched p current).
Proof.
  unfold update_homework_tx. cbv zeta.
  intros (row & d1 & [-> ->]%gets_ok & (current & d2 & [Hrow ->]%decide_ok & (u1 & d3 & E1 & (u2 & d4 & E2 & E3)%tx_bind_ok)%tx_bind_ok)%tx_bind_ok)%tx_bind_ok.
  destruct (homeworks d !! hw_id read) as [row|] eqn:Hh; [|done]. injection Hrow as ->. exists current. split; [done|].
  assert (d3 = d ∧ ∀ resolved, hp_assigned p = Some resolved → orphans_nobody d (hw_id read) resolved) as [-> Horph].
  { destruct (hp_assigned p) as [r|]; [|by injection E1 as _ <-]. apply ensure_no_orphans_ok in E1 as [-> ?]. split; [done|]. by intros ? [= <-]. }
  change (move_subject (hw_id read) (hw_subject current) (moving read p) d = Ok (u2, d4)) in E2.
  assert (d4 = set_subjects (moved_to current (moving read p)) d ∧ ∀ s, moving read p = Some s → s ∈ dom (subjects d)) as [-> Hmov].
  { unfold move_subject in E2. destruct (moving read p) as [s|]; [|injection E2 as _ <-; by destruct d].
    apply tx_bind_ok in E2 as ([] & d5 & [= <-] & E2). unfold claim_subject in E2. destruct (has _ s) eqn:Hs; [|done].
    injection E2 as _ <-. split; [done|]. intros ? [= <-]. apply has_dom in Hs. simpl in Hs. by rewrite dom_alter_row in Hs. }
  destruct (bool_decide (is_Some _) && _) eqn:Hstale; [done|].
  apply tx_bind_ok in E3 as (u3 & d5 & E3 & (u4 & d6 & [= _ <-] & [-> ->]%gets_ok)%tx_bind_ok).
  assert (d5 = set_assignments (renamed (hw_id read) (hp_assigned p)) (set_subjects (moved_to current (moving read p)) d)
    ∧ ∀ resolved, hp_assigned p = Some resolved → ∀ u, u ∈ default [] resolved → u ∈ account_ids d) as [-> Hpeople].
  { unfold replace_assigned in E3. destruct (hp_assigned p) as [r|]; [|by injection E3 as _ <-].
    apply tx_bind_ok in E3 as ([] & d7 & [= <-] & E3). apply insert_assignments_ok in E3 as [Hu ->]. split; [done|]. by intros ? [= <-]. }
  split_and!; [intros r Hr; split; eauto|done| |done|done]. intros Hs. rewrite bool_decide_true in Hstale by done.
  apply negb_false_iff, bool_decide_eq_true in Hstale. done.
Qed.

Lemma update_homework_keeps read p : desk_keeps (update_homework_tx read p).
Proof.
  intros d hw d' [Hr Hw Hc Hs] E. apply update_homework_ok in E as (current & Hh & Hass & Hmov & Hst & -> & _).
  assert (hw_id read ∈ dom (homeworks d)) as Hdom by (by apply elem_of_dom).
  split; cbn; [|by rewrite dom_insert_L, subseteq_union_1_L by set_solver|done|].
  - assert (rows_ok (account_ids d) (dom (instances (school d))) (moved_to current (moving read p) (subjects d))
      (<[hw_id read := patched p current]> (homeworks d)) (assignments d)) as Hrows.
    { unfold moving, moved_to in *. case_bool_decide as E.
      - eapply rows_same; try done. simpl. rewrite E. simpl. by rewrite <- Hst by (by rewrite E).
      - destruct (hp_subject p) as [s|] eqn:Es; [|eapply rows_same; try done; simpl; by rewrite Es].
        assert (s = hw_subject (patched p current)) as -> by (simpl; by rewrite Es).
        eapply rows_retag; try done. by apply Hmov. }
    unfold renamed. destruct (hp_assigned p) as [r|] eqn:Ea; [|done].
    apply rows_named; [rewrite dom_insert_L; set_solver|by apply (Hass r)|done].
  - intros i s Hi. specialize (Hs i s Hi). unfold renamed. destruct (hp_assigned p) as [r|] eqn:Ea; [|done].
    apply seen_named; [|done]. intros E. destruct (Hass r eq_refl) as [Ho _]. destruct r as [subset|]; [left|by right].
    apply (Ho subset eq_refl), elem_of_holders. left. exists i, s. split; [done|]. unfold s_pair in *. simpl in *. congruence.
Qed.
End Narrowing.

(** ** The rest of the transactions *)

Lemma delete_homework_keeps h : desk_keeps (delete_homework_tx h).
Proof.
  intros d r d' [Hr Hw Hc Hs] E. unfold delete_homework_tx in E. destruct (homeworks d !! h) as [row|] eqn:Hh; [|done].
  injection E as _ <-. split; cbn.
  - by apply rows_delete.
  - exact (work_without (account_ids d) (dom (homeworks d)) (λ h', h' = h) (dom (delete h (homeworks d))) _ _ _ (submission_ids d h)
      eq_refl ltac:(intros h' ? ?; rewrite dom_delete_L; set_solver) Hw).
  - by apply credit_filter.
  - intros i s [Hi Hne]%map_lookup_filter_Some. simpl in Hne. destruct (Hs i s Hi) as [?|Hno].
    + left. by apply elem_of_filter.
    + right. intros u [_ Hu]%elem_of_filter. by apply (Hno u).
Qed.

Lemma held_by_count rows s : held_by rows s = count (λ p : uuid * Assignment, hw_subject p.2 = s) rows.
Proof.
  unfold held_by, count. f_equal. rewrite <- length_map_to_list. apply Permutation_length.
  apply NoDup_Permutation; [apply NoDup_filter, NoDup_map_to_list|apply NoDup_map_to_list|].
  intros [i x]. rewrite list_elem_of_filter, !elem_of_map_to_list, map_lookup_filter_Some. tauto.
Qed.

Lemma sweep_homework_keeps i : desk_keeps (sweep_homework_tx i).
Proof.
  intros d r d' [Hr Hw Hc Hs] E. injection E as _ <-. split; cbn.
  - destruct Hr as [Ht Hrow Hn]. assert (dom (give_back_all (of_instance i d) (subjects d)) = dom (subjects d)) as Hdom.
    { unfold give_back_all. apply set_eq. intros s. rewrite !elem_of_dom, map_lookup_imap. by destruct (subjects d !! s). }
    split.
    + intros s c. unfold give_back_all. rewrite lookup_fmap, map_lookup_imap. destruct (subjects d !! s) as [x|] eqn:Hx; [|done].
      intros [= <-]. specialize (Ht s (homework_count x) ltac:(by rewrite lookup_fmap, Hx)).
      rewrite held_by_count. unfold of_instance.
      pose proof (tallied_sweep subject_key (λ p : uuid * Assignment, class_course p.2 = i) (homeworks d) s) as Hsw.
      pose proof (tallied_nonneg subject_key (filter (λ p : uuid * Assignment, ¬ class_course p.2 = i) (homeworks d)) s).
      assert (count (λ p : uuid * Assignment, hw_subject p.2 = s) (filter (λ p : uuid * Assignment, class_course p.2 = i) (homeworks d))
        = count (λ p : uuid * Assignment, subject_key p = Some s ∧ class_course p.2 = i) (homeworks d)) as ->.
      { apply count_ext. rewrite map_filter_filter. apply map_filter_ext. intros j a _. unfold subject_key. simpl. naive_solver. }
      simpl in *. rewrite Ht. lia.
    + rewrite Hdom. intros h row [Hh _]%map_lookup_filter_Some. by eapply Hrow.
    + intros h u [Hnh Hu]%elem_of_filter. destruct (Hn h u Hu) as [[row Hh]%elem_of_dom ?]. split; [|done].
      apply elem_of_dom. exists row. apply map_lookup_filter_Some. split; [done|]. simpl in *. intros E. apply Hnh.
      apply elem_of_dom. exists row. by apply map_lookup_filter_Some.
  - refine (work_without (account_ids d) (dom (homeworks d)) (λ h, h ∈@{gset uuid} dom (of_instance i d))
      (dom (filter (λ p : uuid * Assignment, class_course p.2 ≠ i) (homeworks d))) _ _ _ _ eq_refl _ Hw).
    intros h [row Hh]%elem_of_dom Hn. apply elem_of_dom. exists row. apply map_lookup_filter_Some. split; [done|].
    intros E. apply Hn, elem_of_dom. exists row. by apply map_lookup_filter_Some.
  - by apply credit_filter.
  - intros j s [Hi Hne]%map_lookup_filter_Some. destruct (Hs j s Hi) as [?|Hno].
    + left. by apply elem_of_filter.
    + right. intros u [_ Hu]%elem_of_filter. by apply (Hno u).
Qed.

Lemma handed_again_shape text at_ s : shape (handed_again text at_ s) = shape s.
Proof. done. Qed.

Lemma upsert_keeps i h u text p at_ : desk_keeps (upsert_tx i h u text p at_).
Proof.
  intros d r d' Hok E. pose proof Hok as [Hr Hw Hc Hs]. unfold upsert_tx in E.
  destruct (homeworks d !! h) as [row|] eqn:Hh; [|done]. destruct (in_audience d h u) eqn:Ha; [|done]. cbv zeta in E. simpl negb in E.
  cbn [negb] in E. destruct (submission_for d h u) as [[j s]|] eqn:Hsub.
  - apply by_pair_row in Hsub as [Hj Hp]. destruct (graded_by_result s) eqn:Hg; [by injection E as _ <-|]. injection E as _ <-.
    apply desk_shape; [by apply shape_put with s| |done]. intros j' s' x [[<- <-]|[_ Hj']]%lookup_insert_Some Hx; [simpl in Hx; congruence|].
    by eapply wo_stamp.
  - destruct (has (submissions d) i) eqn:Hi; [done|]. destruct (has (users (school d)) u) eqn:Hu; [|done]. injection E as _ <-.
    apply has_not in Hi. apply has_dom in Hu. pose proof (proj1 (by_pair_None _ _ _) Hsub) as Hno.
    split; cbn; [done| | |].
    + apply work_handed; try done. by apply elem_of_dom.
    + exact (credit_handed _ (totals d) (submissions d) i (MkSubmission h u text at_ at_ 0 (Some (at_ <=? due_at row)) None) _ Hi eq_refl Hc).
    + intros j s [[<- <-]|[_ Hj]]%lookup_insert_Some; [by apply in_audience_seen|by apply (Hs j)].
Qed.

Lemma touch_keeps i at_ : desk_keeps (touch_tx i at_).
Proof.
  intros d r d' Hok E. unfold touch_tx in E. destruct (submissions d !! i) as [s|] eqn:Hi; [|done]. injection E as _ <-.
  apply desk_shape; [by apply shape_put with s| |done].
  intros j s' x [[<- <-]|[_ Hj]]%lookup_insert_Some Hx; [|by eapply wo_stamp, Hx; [apply Hok|]].
  change (s_pair (handed_again None at_ s)) with (s_pair s). by eapply wo_stamp; [apply Hok|..].
Qed.

Lemma delete_submission_keeps i h : desk_keeps (delete_submission_tx i h).
Proof.
  intros d r d' Hok E. pose proof Hok as [Hr Hw Hc Hs]. unfold delete_submission_tx in E.
  destruct (submissions d !! i) as [s|] eqn:Hi; [|by injection E as _ <-].
  destruct (graded_by_result s); [by injection E as _ <-|]. cbv zeta in E. injection E as _ <-.
  destruct (co_kept _ _ _ Hc i s Hi) as [b Hb]. rewrite Hb. split; cbn; [done| | |].
  - by apply work_withdrawn.
  - by apply credit_withdrawn.
  - intros j x [_ Hj]%lookup_delete_Some. by apply (Hs j).
Qed.

Lemma insert_file_keeps i f : desk_keeps (insert_file_tx i f).
Proof.
  intros d r d' Hok E. pose proof Hok as [Hr Hw Hc Hs]. unfold insert_file_tx in E.
  destruct (submissions d !! f_submission f) as [s|] eqn:Hi; [|by injection E as _ <-].
  destruct (negb _) eqn:Hfull; [by injection E as _ <-|]. destruct (has (files d) i) eqn:Hf; [done|]. injection E as _ <-.
  apply negb_false_iff, andb_true_iff in Hfull as [Hfull _]. apply has_not in Hf.
  assert (verdict_of <$> alter (on_files bumped) (f_submission f) (submissions d) = verdict_of <$> submissions d) as Hcol
    by (by apply column_same).
  split; cbn; [done| |exact (credit_column _ _ _ _ Hcol Hc)|exact (seen_column _ _ _ Hcol Hs)].
  eapply work_filed; [done|done|lia|done].
Qed.

Lemma delete_file_keeps i sub at_ : desk_keeps (delete_file_tx i sub at_).
Proof.
  intros d r d' Hok E. pose proof Hok as [Hr Hw Hc Hs]. unfold delete_file_tx in E.
  destruct (submissions d !! sub) as [s|] eqn:Hi; [|by injection E as _ <-].
  destruct (graded_by_result s) eqn:Hg; [by injection E as _ <-|]. destruct (files d !! i) as [f|] eqn:Hf; [|done].
  case_bool_decide as Hsub; [|done]. injection E as _ <-. subst.
  assert (verdict_of <$> <[f_submission f := on_files given_back (handed_again None at_ s)]> (submissions d)
    = verdict_of <$> submissions d) as Hcol by (apply column_put; by rewrite Hi).
  split; cbn; [done| |exact (credit_column _ _ _ _ Hcol Hc)|exact (seen_column _ _ _ Hcol Hs)].
  by eapply work_unfiled.
Qed.

Lemma grade_keeps i h u st m by_ at_ : desk_keeps (grade_tx i h u st m by_ at_).
Proof.
  intros d r d' Hok E. pose proof Hok as [Hr Hw Hc Hs]. unfold grade_tx in E.
  destruct (homeworks d !! h) as [row|] eqn:Hh; [|done]. apply elem_of_dom_2 in Hh. cbv zeta in E.
  assert (∀ j, verdict_of <$> stamp_pair h u j (submissions d) = verdict_of <$> submissions d) as Hcol.
  { intros j. apply column_same_all. intros s. by case_decide. }
  destruct (result_for d h u) as [[j x]|] eqn:Hres.
  - destruct (has (users (school d)) by_) eqn:Hb; [|done]. injection E as _ <-. apply has_dom in Hb.
    apply by_pair_row in Hres as [Hj Hp]. destruct (wo_result _ _ _ _ _ Hw j x Hj) as (_ & Hu & _).
    split; cbn; [done| |exact (credit_column _ _ _ _ (Hcol _) Hc)|exact (seen_column _ _ _ (Hcol _) Hs)].
    apply work_graded; try done.
    + injection Hp as _ <-. done.
    + intros k y Hy E. apply (wo_results _ _ _ _ _ Hw k j y x); congruence.
    + intros y Hy. congruence.
  - destruct (has (results d) i) eqn:Hi; [done|]. destruct (negb _) eqn:Hu; [done|]. injection E as _ <-.
    apply negb_false_iff, andb_true_iff in Hu as [Hu Hb]. apply has_dom in Hu, Hb. apply has_not in Hi.
    pose proof (proj1 (by_pair_None _ _ _) Hres) as Hno.
    split; cbn; [done| |apply credit_marks; exact (credit_column _ _ _ _ (Hcol _) Hc)|exact (seen_column _ _ _ (Hcol _) Hs)].
    apply work_graded; try done.
    + intros k y Hy E. by destruct (Hno k y).
    + intros y Hy. congruence.
Qed.

Lemma remove_keeps h u : desk_keeps (remove_tx h u).
Proof.
  intros d r d' Hok E. pose proof Hok as [Hr Hw Hc Hs]. unfold remove_tx, writes in E.
  destruct (homeworks d !! h); [|by injection E as _ <-]. destruct (result_for d h u) as [[j x]|] eqn:Hres; [|by injection E as _ <-].
  injection E as _ <-. apply by_pair_row in Hres as [Hj Hp].
  assert (verdict_of <$> unstamp_pair h u j (submissions d) = verdict_of <$> submissions d) as Hcol.
  { apply column_same_all. intros s. by case_decide. }
  split; cbn; [done| |apply credit_marks; exact (credit_column _ _ _ _ Hcol Hc)|exact (seen_column _ _ _ Hcol Hs)].
  by eapply work_ungraded.
Qed.

(** A badge touches no row of these. *)
Lemma award_desk_keeps u b at_ : desk_keeps (award u b at_).
Proof.
  intros d r d' Hok E. unfold award in E. destruct (awards d !! (u, b)); [by injection E as _ <-|].
  destruct (stats_of d u); [|done]. injection E as _ <-. destruct Hok. by split.
Qed.
