(* ===== verification/HomeworkKeeps.v ===== *)
(** * What every request of the homework keeps

    One walk over the routes of [HomeworkRoutes]; its instances are the invariant
    of the tables, the work a grade has frozen, and the stamp of a first hand-in. *)

From S2P Require Import Prelude Text Errors Effects Answers Uuid Validate Modules Badges ExamForms Tally Gates EventForms Roster Events Sight HomeworkForms Homework HomeworkRoutes HomeworkProofs.

Open Scope Z_scope.

(** ** The requests *)

Inductive HomeworkRequest : Type :=
  | Assign (u : User) (i : uuid) (req : CreateHomework)
  | EditHomework (u : User) (h : uuid) (req : UpdateHomework)
  | DropHomework (u : User) (h : uuid)
  | HandIn (u : User) (h : uuid) (text : option str)
  | Withdraw (u : User) (h : uuid)
  | ReadHandIn (u : User) (h : uuid)
  | Attach (u : User) (h : uuid) (body : result AppError Upload) (written : result AppError ())
  | Detach (u : User) (h : uuid) (fid : str)
  | Download (u : User) (h : uuid) (fid : str)
  | GradeOne (u : User) (h : uuid) (user status : str) (mark : option Z)
  | Ungrade (u : User) (h : uuid) (target : str)
  | MyResult (u : User) (h : uuid)
  | ReadSubmissions (u : User) (h : uuid) (limit offset : option Z)
  | ReadReport (u : User) (user : str) (limit offset : option Z)
  | ReadHomeworks (u : User) (after before : option Z) (course : option str) (limit offset : option Z)
  | ReadHomework (u : User) (h : uuid)
  | ReadInstance (u : User) (i : uuid) (limit offset : option Z).

Definition perform_homework `{UuidText} (q : HomeworkRequest) : io Desk () :=
  match q with
  | Assign u i req => silent (create_homework_in_instance u i req)
  | EditHomework u h req => silent (update_homework u h req)
  | DropHomework u h => silent (delete_homework u h)
  | HandIn u h text => silent (submit_route u h text)
  | Withdraw u h => silent (delete_submission u h)
  | ReadHandIn u h => silent (get_submission u h)
  | Attach u h body written => silent (upload_submission_file u h body written)
  | Detach u h fid => silent (delete_submission_file u h fid)
  | Download u h fid => silent (download_submission_file u h fid)
  | GradeOne u h user st m => silent (grade_homework u h user st m)
  | Ungrade u h tg => remove_homework_result u h tg
  | MyResult u h => silent (my_homework_result u h)
  | ReadSubmissions u h l o => silent (list_homework_submissions u h l o)
  | ReadReport u tg l o => silent (homework_report u tg l o)
  | ReadHomeworks u a b c l o => silent (list_homework u a b c l o)
  | ReadHomework u h => silent (get_homework u h)
  | ReadInstance u i l o => silent (list_instance_homework u i l o)
  end.

(** ** The gates, whatever the others keep *)

Section Gates.
Context (I : Desk → Prop).
Set Default Proof Using "All".

Abbreviation fine m := (answers I anyhow m (λ _, True)).

Lemma homework_or_404_answers h : answers I anyhow (homework_or_404 h) (λ hw, hw_id hw = h).
Proof.
  unfold homework_or_404.
  eapply (fine_then _ _ (λ row, ∀ hw, row = Some hw → hw_id hw = h)).
  { apply answers_read; [apply _|]. intros d _ hw. unfold read_homework. by intros (row & _ & ->)%fmap_Some. }
  intros row Hrow. eapply answers_weaken; [apply _|apply answers_lift; apply _|]. intros hw. destruct row as [x|]; [|done].
  intros [= ->]. by apply Hrow.
Qed.
Lemma instance_or_404_fine i : fine (instance_or_404 (D := Desk) i).
Proof. unfold instance_or_404. answer_walk. Qed.
Lemma open_year_fine i : fine (require_open (D := Desk) i).
Proof. unfold require_open, require_open_year, class_of. answer_walk. Qed.
Lemma ensure_instance_teacher_fine u r i : fine (ensure_instance_teacher (D := Desk) u r i).
Proof. unfold ensure_instance_teacher, class_of. answer_walk. Qed.
Lemma caller_manages_fine u i : fine (can_manage_instance (D := Desk) u i).
Proof.
  unfold can_manage_instance. eapply fine_then; [eapply answers_attempt, ensure_instance_teacher_fine; apply _|]. answer_walk.
Qed.
Lemma can_view_fine u i : fine (can_view_instance (D := Desk) u i).
Proof. unfold can_view_instance, read_for_user. eapply fine_then; [apply caller_manages_fine|]. answer_walk. Qed.
Lemma visible_fine u : fine (visible_instances (D := Desk) u).
Proof.
  unfold visible_instances. answer_walk.
  all: eapply (fine_then _ _ (λ _, True)); [answer_walk; apply answers_gets; apply _|]; answer_walk.
  all: eapply (fine_then _ _ (λ _, True)); [answer_walk; apply answers_gets; apply _|]; answer_walk.
Qed.
Lemma observe_fine u tg : fine (ensure_can_observe (D := Desk) u tg).
Proof.
  unfold ensure_can_observe, links_live. answer_walk.
  eapply (fine_then _ _ (λ _, True)); [answer_walk|]. answer_walk.
Qed.
Lemma managed_fine u hw v : fine (managed u hw v).
Proof. unfold managed. eapply fine_then; [apply caller_manages_fine|]. answer_walk. Qed.
Lemma with_instance_answers h : answers I anyhow (homework_with_instance h) (λ p, hw_id p.1 = h).
Proof.
  unfold homework_with_instance. eapply fine_then; [apply homework_or_404_answers|]. intros hw Hh.
  eapply fine_then; [apply instance_or_404_fine|]. answer_walk.
Qed.
Lemma gate_answers h u : answers I anyhow (gate_own_submission h u) (λ hw, hw_id hw = h).
Proof.
  unfold gate_own_submission, read_for_user. eapply fine_then; [apply homework_or_404_answers|]. intros hw Hh. answer_walk.
Qed.
Lemma not_graded_fine h u e : fine (not_graded h u e).
Proof. unfold not_graded. answer_walk. Qed.
End Gates.

(** ** The walk *)

Section Walk.
Context `{UuidText}.
Context (I : Desk → Prop).
(** The homework that may go, the grades that may be taken back, the hand-ins
    that may be withdrawn and the rows that then go. *)
Context (drops : uuid → Prop) (ungrades withdraws : uuid → uuid → Prop) (loose : uuid → Prop).
Context (Hloose : ∀ d h u i s, I d → withdraws h u → submission_for d h u = Some (i, s) → loose i).
Context (Hcreate : ∀ i row students, tx_keeps I (create_homework_tx i row students)).
Context (Hupdate : ∀ read p, tx_keeps I (update_homework_tx read p)).
Context (Hdelete : ∀ h, drops h → tx_keeps I (delete_homework_tx h)).
Context (Hupsert : ∀ i h u text p at_, tx_keeps I (upsert_tx i h u text p at_)).
Context (Htouch : ∀ i at_, tx_keeps I (touch_tx i at_)).
Context (Hwithdraw : ∀ i h, loose i → tx_keeps I (delete_submission_tx i h)).
Context (Hfile : ∀ i f, tx_keeps I (insert_file_tx i f)).
Context (Hunfile : ∀ i sub at_, tx_keeps I (delete_file_tx i sub at_)).
Context (Hgrade : ∀ i h u st m by_ at_, tx_keeps I (grade_tx i h u st m by_ at_)).
Context (Hremove : ∀ h u, ungrades h u → tx_keeps I (remove_tx h u)).
Context (Haward : ∀ u b at_, tx_keeps I (award u b at_)).
Set Default Proof Using "All".

Definition admitted (q : HomeworkRequest) : Prop :=
  match q with
  | DropHomework _ h => drops h
  | Ungrade _ h target => ungrades h (uuid_from_key target)
  | Withdraw u h => withdraws h (uid u)
  | _ => True
  end.

Abbreviation fine m := (answers I anyhow m (λ _, True)).

Lemma award_badges_fine u : fine (award_badges u).
Proof.
  unfold award_badges. eapply fine_then; [eapply (answers_attempt _ _ _ (λ _, True))|by answer_walk].
  unfold sync, load. answer_walk. apply answers_for_each; [apply _|]. intros b. by apply fine_tx.
Qed.

(** ** Assigning, editing, deleting *)

Lemma only_managed_fine u xs : fine (only_managed u xs).
Proof.
  induction xs as [|x xs IH]; simpl; [answer_walk|]. eapply fine_then; [apply caller_manages_fine|]. intros b _.
  eapply fine_then; [exact IH|]. answer_walk.
Qed.
Lemma resolve_assigned_fine keys i : fine (resolve_assigned keys i).
Proof.
  unfold resolve_assigned. case_match; [|answer_walk]. case_match; [answer_walk|]. answer_walk.
  eapply fine_then; [apply (answers_mapM _ _ _ _ (λ _, True)); unfold read_for_user; answer_walk|]. answer_walk.
Qed.
Lemma description_fine text : fine (description_or_none text).
Proof. unfold description_or_none. case_match; [answer_walk|]. eapply fine_then; [apply checked_answers; apply _|]. answer_walk. Qed.
Lemma in_course_fine key k : fine (in_course key k).
Proof. unfold in_course. answer_walk. Qed.
Lemma resolved_member_fine i s : fine (ensure_resolved_member i s).
Proof. unfold ensure_resolved_member. answer_walk. Qed.

Lemma assigning_fine u i req : fine (create_homework_in_instance u i req).
Proof.
  unfold create_homework_in_instance, create_homework. answer_walk.
  eapply fine_then; [apply instance_or_404_fine|]. intros x _. eapply fine_then; [apply ensure_instance_teacher_fine|]. intros _ _.
  eapply fine_then; [apply open_year_fine|]. intros _ _. eapply fine_then; [apply checked_answers; apply _|]. intros t _.
  eapply (fine_then _ _ (λ _, True)); [case_match; [apply description_fine|by answer_walk]|]. intros de _.
  eapply fine_then; [apply not_past_answers; apply _|]. intros _ _. eapply fine_then; [apply in_course_fine|]. intros s _.
  eapply fine_then; [apply resolve_assigned_fine|]. answer_walk. eapply fine_then; [apply resolved_member_fine|]. answer_walk.
  by apply fine_tx.
Qed.

Lemma edit_fine u h req : fine (update_homework u h req).
Proof.
  unfold update_homework, in_instance. answer_walk. eapply fine_then; [apply with_instance_answers|]. intros [hw x] _.
  eapply fine_then; [apply managed_fine|]. intros _ _. eapply fine_then; [apply open_year_fine|]. intros _ _.
  eapply fine_then; [apply checked_opt_answers; apply _|]. intros t _.
  eapply (fine_then _ _ (λ _, True)).
  { case_match; [|by answer_walk]. eapply fine_then; [apply description_fine|]. by answer_walk. }
  intros de _. eapply fine_then; [apply not_past_answers; apply _|]. intros _ _.
  eapply (fine_then _ _ (λ _, True)).
  { case_match; [|by answer_walk]. eapply (fine_then _ _ (λ _, True)); [|by answer_walk].
    eapply fine_then; [apply in_course_fine|]. intros s _. eapply fine_then; [apply resolved_member_fine|]. by answer_walk. }
  intros s _. eapply (fine_then _ _ (λ _, True)).
  { case_match; [|by answer_walk]. eapply fine_then; [apply resolve_assigned_fine|]. by answer_walk. }
  intros st _. by apply fine_tx.
Qed.

Lemma dropping_fine u h : drops h → fine (delete_homework u h).
Proof.
  intros Hd. unfold delete_homework. answer_walk. eapply fine_then; [apply with_instance_answers|]. intros [hw x] Hh. simpl in Hh.
  eapply fine_then; [apply managed_fine|]. intros _ _. eapply fine_then; [apply open_year_fine|]. intros _ _.
  apply fine_tx. rewrite Hh. by apply Hdelete.
Qed.

(** ** The student's side *)

Lemma upsert_fine h u text p : fine (upsert h u text p).
Proof. unfold upsert. answer_walk. by apply fine_tx. Qed.

Lemma submit_fine u h text : fine (submit_route u h text).
Proof.
  unfold submit_route, submit, require_open_instance.
  eapply (fine_then _ _ (λ _, True)).
  { case_match; [|by answer_walk]. case_match; [by answer_walk|]. eapply fine_then; [apply checked_answers; apply _|]. by answer_walk. }
  intros t _. eapply (fine_then _ _ (λ _, True)); [|answer_walk].
  eapply fine_then; [apply gate_answers|]. intros hw _. eapply fine_then; [apply open_year_fine|]. intros _ _.
  eapply fine_then; [apply not_graded_fine|]. intros _ _. eapply fine_then; [apply upsert_fine|]. answer_walk.
  eapply (fine_then _ _ (λ _, True)); [case_match; [by answer_walk|apply award_badges_fine]|]. by answer_walk.
Qed.

Lemma get_submission_fine u h : fine (get_submission u h).
Proof. unfold get_submission. eapply fine_then; [apply gate_answers|]. answer_walk. Qed.

Lemma withdraw_fine u h : withdraws h (uid u) → fine (delete_submission u h).
Proof.
  intros Hw. unfold delete_submission, withdraw, require_open_instance.
  eapply (fine_then _ _ (λ _, True)); [|answer_walk].
  eapply fine_then; [apply gate_answers|]. intros hw Hh. eapply fine_then; [apply open_year_fine|]. intros _ _.
  eapply fine_then; [apply not_graded_fine|]. intros _ _.
  eapply (fine_then _ _ (λ held, ∀ i s, held = Some (i, s) → loose i)).
  { apply answers_read; [apply _|]. rewrite Hh. intros d HI i s. by apply Hloose. }
  intros held Hl. eapply fine_then; [apply answers_lift; apply _|]. intros [i s] Hheld.
  assert (loose i) by (apply (Hl i s); destruct held; simpl in Hheld; congruence).
  answer_walk. eapply (fine_then _ _ (λ _, True)); [by apply fine_tx, Hwithdraw|]. answer_walk.
  eapply fine_then; [apply award_badges_fine|]. by answer_walk.
Qed.

Lemma attach_fine u hw : fine (ensure_can_attach u hw).
Proof.
  unfold ensure_can_attach. eapply fine_then; [apply not_graded_fine|]. answer_walk.
  eapply fine_then; [apply upsert_fine|]. answer_walk.
  eapply (fine_then _ _ (λ _, True)); [case_match; [apply award_badges_fine|by answer_walk]|]. by answer_walk.
Qed.

Lemma upload_fine u h body written : fine (upload_submission_file u h body written).
Proof.
  unfold upload_submission_file, require_open_instance, insert_file, touch.
  eapply fine_then; [apply gate_answers|]. intros pre _. eapply fine_then; [apply open_year_fine|]. answer_walk.
  eapply fine_then; [apply checked_answers; apply _|]. intros nm _. eapply fine_then; [apply checked_answers; apply _|]. intros ct _.
  eapply fine_then; [apply gate_answers|]. intros hw _. eapply fine_then; [apply open_year_fine|]. intros _ _.
  eapply fine_then; [apply attach_fine|]. answer_walk.
  eapply (fine_then _ _ (λ _, True)).
  { eapply (fine_then _ _ (λ _, True)); [by apply fine_tx|]. answer_walk. }
  answer_walk. eapply (fine_then _ _ (λ _, True)); [answer_walk; by apply fine_tx|]. by answer_walk.
Qed.

Lemma download_fine u h fid : fine (download_submission_file u h fid).
Proof.
  unfold download_submission_file. answer_walk.
  - eapply fine_then; [apply gate_answers|]. answer_walk.
  - eapply fine_then; [apply with_instance_answers|]. answer_walk. eapply fine_then; [apply managed_fine|]. answer_walk.
Qed.

Lemma unfile_fine u h fid : fine (delete_submission_file u h fid).
Proof.
  unfold delete_submission_file, require_open_instance.
  eapply fine_then; [apply gate_answers|]. intros hw _. eapply fine_then; [apply open_year_fine|]. intros _ _.
  eapply fine_then; [apply not_graded_fine|]. answer_walk.
  eapply (fine_then _ _ (λ _, True)); [by apply fine_tx|]. by answer_walk.
Qed.

(** ** Grading *)

Lemma grade_fine u h user st m : fine (grade_homework u h user st m).
Proof.
  unfold grade_homework, grade_student, grade, read_for_user. answer_walk.
  eapply fine_then; [apply with_instance_answers|]. intros [hw x] _. eapply fine_then; [apply managed_fine|]. intros _ _.
  eapply fine_then; [apply open_year_fine|]. intros _ _. eapply fine_then; [apply checked_answers; apply _|]. intros s _.
  eapply fine_then; [apply checked_opt_answers; apply _|]. intros mk _.
  eapply fine_then; [apply homework_or_404_answers|]. answer_walk.
  eapply (fine_then _ _ (λ _, True)); [answer_walk; by apply fine_tx|]. intros r _.
  eapply fine_then; [apply award_badges_fine|]. by answer_walk.
Qed.

Lemma ungrade_fine u h target : ungrades h (uuid_from_key target) → fine (remove_homework_result u h target).
Proof.
  intros Hu. unfold remove_homework_result. answer_walk. eapply fine_then; [apply with_instance_answers|].
  intros [hw x] Hh. simpl in Hh. eapply fine_then; [apply managed_fine|]. intros _ _.
  eapply fine_then; [apply open_year_fine|]. intros _ _. rewrite Hh.
  eapply (fine_then _ _ (λ _, True)); [by apply fine_tx, Hremove|]. by answer_walk.
Qed.

(** ** Reading *)

Lemma roster_row_fine hw subs rs en u : fine (roster_row hw subs rs en u).
Proof.
  unfold roster_row. cbv zeta.
  eapply (fine_then _ _ (λ _, True)); [destruct (list_find _ _) as [[? []]|]; by answer_walk|]. intros handed _.
  eapply (fine_then _ _ (λ _, True)); [case_match; by answer_walk|]. by answer_walk.
Qed.

Lemma list_submissions_fine u h l o : fine (list_homework_submissions u h l o).
Proof.
  unfold list_homework_submissions. answer_walk. eapply fine_then; [apply with_instance_answers|]. intros [hw x] _.
  eapply fine_then; [apply managed_fine|]. answer_walk.
  eapply fine_then; [apply (answers_mapM _ _ _ _ (λ _, True)), roster_row_fine; apply _|]. by answer_walk.
Qed.

Lemma report_fine u tg l o : fine (homework_report u tg l o).
Proof.
  unfold homework_report. answer_walk. eapply fine_then; [apply observe_fine|]. answer_walk.
  eapply fine_then; [apply visible_fine|]. answer_walk.
  eapply (fine_then _ _ (λ _, True)); [case_match; [apply only_managed_fine|by answer_walk]|]. intros xs _.
  eapply fine_then; [apply (answers_mapM _ _ _ _ (λ _, True)); intros; apply answers_gets; apply _|]. intros bs _.
  eapply fine_then; [apply (answers_mapM _ _ _ _ (λ _, True))|by answer_walk]. intros hw. unfold report_row. answer_walk.
  eapply (fine_then _ _ (λ _, True)); [case_match; by answer_walk|]. by answer_walk.
Qed.

Lemma list_fine u a b c l o : fine (list_homework u a b c l o).
Proof.
  unfold list_homework. answer_walk; [unfold paged_list; by answer_walk|]. eapply fine_then; [apply visible_fine|]. answer_walk.
  eapply (fine_then _ _ (λ _, True)); [case_match; [by answer_walk|apply answers_gets; apply _]|]. by answer_walk.
Qed.

Lemma get_homework_fine u h : fine (get_homework u h).
Proof.
  unfold get_homework. eapply fine_then; [apply with_instance_answers|]. intros [hw x] _.
  eapply fine_then; [apply can_view_fine|]. answer_walk. eapply fine_then; [apply caller_manages_fine|]. by answer_walk.
Qed.

Lemma list_instance_fine u i l o : fine (list_instance_homework u i l o).
Proof.
  unfold list_instance_homework. answer_walk. eapply fine_then; [apply instance_or_404_fine|]. intros x _.
  eapply fine_then; [apply can_view_fine|]. answer_walk. eapply fine_then; [apply caller_manages_fine|]. by answer_walk.
Qed.

Lemma my_result_fine u h : fine (my_homework_result u h).
Proof. unfold my_homework_result. answer_walk. Qed.

Lemma perform_homework_fine q : admitted q → fine (perform_homework q).
Proof.
  intros Hq. destruct q; simpl in *; unfold silent; first [by apply ungrade_fine|eapply (fine_then _ _ (λ _, True)); [|by answer_walk]].
  all: eauto using assigning_fine, edit_fine, dropping_fine, submit_fine, withdraw_fine, get_submission_fine, upload_fine,
    unfile_fine, download_fine, grade_fine, my_result_fine, list_submissions_fine, report_fine, list_fine,
    get_homework_fine, list_instance_fine.
Qed.
End Walk.

(** ** The work a grade froze *)

Definition work_in (s : HomeworkSubmission) : (uuid * uuid) * option str * Z * Z * option bool :=
  (s_pair s, s_text s, submitted_at s, file_count s, counted_on_time s).

(** The row [i] as a grade found it: its columns but for the stamp of the last
    touch, its files, and the grade [r] that froze them. *)
Record frozen (i r : uuid) (w : (uuid * uuid) * option str * Z * Z * option bool)
    (fs : gmap uuid HomeworkFile) (d : Desk) : Prop := {
  fz_row : ∃ s, submissions d !! i = Some s ∧ work_in s = w ∧ graded_by_result s = Some r;
  fz_files : under {[i]} d = fs;
}.

Section Frozen.
Context (i r : uuid) (h u : uuid) (text : option str) (at_ n : Z) (c : option bool) (fs : gmap uuid HomeworkFile).
Abbreviation still := (frozen i r ((h, u), text, at_, n, c) fs).

(** A step that leaves the files, and the row but for its stamp's time. *)
Lemma frozen_row d d' :
  still d → files d' = files d →
  (∀ s, submissions d !! i = Some s → graded_by_result s = Some r → s_pair s = (h, u) →
     ∃ s', submissions d' !! i = Some s' ∧ work_in s' = work_in s ∧ graded_by_result s' = Some r) → still d'.
Proof.
  intros [(s & Hs & Hw & Hg) Hf] E Hrow. split; [|unfold under; by rewrite E].
  destruct (Hrow s Hs Hg) as (s' & ? & ? & ?); [by inversion Hw|]. exists s'. split_and!; congruence.
Qed.
Lemma frozen_insert d j s : still d → i ≠ j → still (set_submissions <[j := s]> d).
Proof. intros Hd Hj. apply (frozen_row d); [done..|]. intros s0 Hs Hg _. exists s0. cbn. by rewrite lookup_insert_ne. Qed.
Lemma frozen_same d d' : still d → files d' = files d → submissions d' = submissions d → still d'.
Proof. intros Hd E E'. apply (frozen_row d); [done..|]. rewrite E'. eauto. Qed.

Lemma create_frozen j row students : tx_keeps still (create_homework_tx j row students).
Proof.
  intros d hw d' Hd E. apply create_homework_ok in E. naive_solver (eauto using frozen_same).
Qed.
Lemma edit_frozen `{UuidText} read p : tx_keeps still (update_homework_tx read p).
Proof.
  intros d hw d' Hd E. apply update_homework_ok in E. naive_solver (eauto using frozen_same).
Qed.
Lemma delete_homework_frozen g : g ≠ h → tx_keeps still (delete_homework_tx g).
Proof.
  intros Hg d ks d' [(s & Hs & Hw & Hr) Hf] E. unfold delete_homework_tx in E. cbv zeta in E.
  destruct (homeworks d !! g); [|done]. injection E as _ <-. inversion Hw as [[Eh Eu]].
  assert (i ∉ submission_ids d g) as Hno.
  { unfold submission_ids. intros (x & [Hx ?]%map_lookup_filter_Some)%elem_of_dom. simpl in *. congruence. }
  split.
  - exists s. cbn. split; [|done]. apply map_lookup_filter_Some. simpl. split; [done|congruence].
  - rewrite <- Hf. unfold under. cbn. rewrite map_filter_filter. apply map_filter_ext. simpl. intros j f _. set_solver.
Qed.
Lemma upsert_frozen j g v tx pr a : tx_keeps still (upsert_tx j g v tx pr a).
Proof.
  intros d res d' Hd E. pose proof Hd as [(s & Hs & _ & Hg) _]. unfold upsert_tx in E. destruct (homeworks d !! g); [|done].
  destruct (negb _); [done|]. cbv zeta in E. destruct (submission_for d g v) as [[k x]|] eqn:Hk.
  - apply by_pair_row in Hk as [Hk _]. destruct (graded_by_result x) eqn:Hx; injection E as _ <-; [done|].
    apply frozen_insert; [done|]. congruence.
  - destruct (has (submissions d) j) eqn:Hj; [done|]. destruct (negb _); [done|]. injection E as _ <-. apply has_not in Hj.
    eapply frozen_same; [apply (frozen_insert d j)|..]; try done. congruence.
Qed.
Lemma touch_frozen j a : tx_keeps still (touch_tx j a).
Proof.
  intros d res d' Hd E. unfold touch_tx in E. destruct (submissions d !! j) as [x|] eqn:Hj; [|done]. injection E as _ <-.
  apply (frozen_row d); [done..|]. intros s Hs Hg _. cbn. destruct (decide (i = j)) as [<-|].
  - exists (handed_again None a x). rewrite lookup_insert_eq. split_and!; [done|..]; assert (x = s) as -> by congruence; done.
  - exists s. by rewrite lookup_insert_ne.
Qed.
Lemma withdraw_frozen j g : tx_keeps still (delete_submission_tx j g).
Proof.
  intros d res d' Hd E. pose proof Hd as [(s & Hs & Hw & Hg) Hf]. unfold delete_submission_tx in E.
  destruct (submissions d !! j) as [x|] eqn:Hj; [|by injection E as _ <-].
  destruct (graded_by_result x) eqn:Hx; [by injection E as _ <-|]. cbv zeta in E. injection E as _ <-.
  assert (i ≠ j) by congruence. split.
  - exists s. cbn. by rewrite lookup_delete_ne.
  - rewrite <- Hf. unfold under. cbn. rewrite map_filter_filter. apply map_filter_ext. simpl. intros k f _. set_solver.
Qed.
Lemma insert_file_frozen j f : tx_keeps still (insert_file_tx j f).
Proof.
  intros d res d' Hd E. pose proof Hd as [(s & Hs & Hw & Hg) Hf]. unfold insert_file_tx in E.
  destruct (submissions d !! f_submission f) as [x|] eqn:Hx; [|by injection E as _ <-].
  destruct (negb _) eqn:Hfull; [by injection E as _ <-|]. destruct (has (files d) j) eqn:Hj; [done|]. injection E as _ <-.
  apply negb_false_iff, andb_true_iff in Hfull as [_ Hnone%bool_decide_eq_true]. apply has_not in Hj.
  assert (i ≠ f_submission f) by congruence. split.
  - exists s. cbn. by rewrite lookup_alter_ne.
  - rewrite <- Hf. unfold under. cbn. rewrite map_filter_insert_not'; [done| |].
    + simpl. by rewrite elem_of_singleton.
    + intros y Hy. congruence.
Qed.
Lemma delete_file_frozen j sub a : tx_keeps still (delete_file_tx j sub a).
Proof.
  intros d res d' Hd E. pose proof Hd as [(s & Hs & Hw & Hg) Hf]. unfold delete_file_tx in E.
  destruct (submissions d !! sub) as [x|] eqn:Hx; [|by injection E as _ <-].
  destruct (graded_by_result x) eqn:Hxg; [by injection E as _ <-|]. destruct (files d !! j) as [f|] eqn:Hj; [|done].
  case_bool_decide as Hsub; [|done]. injection E as _ <-. assert (i ≠ sub) by congruence. split.
  - exists s. cbn. by rewrite lookup_insert_ne.
  - rewrite <- Hf. unfold under. cbn. rewrite map_filter_delete, delete_id; [done|].
    apply map_lookup_filter_None. right. intros y Hy. simpl. set_solver.
Qed.
(** Another grade's stamp passes it by. *)
Lemma frozen_stamps d d' (f : HomeworkSubmission → HomeworkSubmission) :
  still d → files d' = files d → submissions d' = f <$> submissions d →
  (∀ s, graded_by_result s = Some r → s_pair s = (h, u) → f s = s) → still d'.
Proof.
  intros Hd Ef Es Hfix. apply (frozen_row d); [done..|]. intros s Hs Hg Hp. exists s. rewrite Es, lookup_fmap, Hs. simpl.
  by rewrite Hfix.
Qed.
Lemma grade_frozen j g v st m by_ a : tx_keeps still (grade_tx j g v st m by_ a).
Proof.
  intros d res d' Hd E. unfold grade_tx in E. destruct (homeworks d !! g); [|done]. cbv zeta in E.
  destruct (result_for d g v) as [[k x]|].
  - destruct (negb _); [done|]. injection E as _ <-. eapply frozen_stamps; [done..|]. intros s Hg _. simpl. case_decide; [|done]. naive_solver.
  - destruct (has (results d) j); [done|]. destruct (negb _); [done|]. injection E as _ <-.
    eapply frozen_stamps; [done..|]. intros s Hg _. simpl. case_decide; [|done]. naive_solver.
Qed.
Lemma remove_frozen g v : (g, v) ≠ (h, u) → tx_keeps still (remove_tx g v).
Proof.
  intros Hgv d res d' Hd E. unfold remove_tx, writes in E. destruct (homeworks d !! g); [|by injection E as _ <-].
  destruct (result_for d g v) as [[k x]|]; injection E as _ <-; [|done].
  eapply frozen_stamps; [done..|]. intros s _ Hp. simpl. case_decide as Hc; [|done]. destruct Hc. congruence.
Qed.
Lemma award_frozen v b a : tx_keeps still (award v b a).
Proof.
  intros d res d' Hd E. unfold award in E. destruct (awards d !! (v, b)); [by injection E as _ <-|].
  destruct (stats_of d v); [|done]. injection E as _ <-. eapply frozen_same; done.
Qed.
End Frozen.

(** ** The stamp of a first hand-in *)

(** The pair's row as it was first handed in. *)
Definition first_handed (i : uuid) (k : uuid * uuid) (at_ : Z) (verdict : option bool) (d : Desk) : Prop :=
  ∃ s, submissions d !! i = Some s ∧ (s_pair s, submitted_at s, counted_on_time s) = (k, at_, verdict).

Section FirstHanded.
Context (i : uuid) (k : uuid * uuid) (at_ : Z) (c : option bool).
Abbreviation first := (first_handed i k at_ c).
Definition handed_columns (s : HomeworkSubmission) : (uuid * uuid) * Z * option bool := (s_pair s, submitted_at s, counted_on_time s).

Lemma first_step d d' :
  first d → (∀ s, submissions d !! i = Some s → ∃ s', submissions d' !! i = Some s' ∧ handed_columns s' = handed_columns s) → first d'.
Proof.
  intros (s & Hs & E) Hstep. destruct (Hstep s Hs) as (s' & Hs' & E'). exists s'. split; [done|].
  change (handed_columns s' = (k, at_, c)). rewrite E'. exact E.
Qed.
Lemma first_same d d' : first d → submissions d' = submissions d → first d'.
Proof. intros Hd E. apply (first_step d); [done|]. rewrite E. eauto. Qed.
Lemma first_column d d' : first d → handed_columns <$> submissions d' = handed_columns <$> submissions d → first d'.
Proof.
  intros Hd E. apply (first_step d); [done|]. intros s Hs.
  assert ((handed_columns <$> submissions d') !! i = Some (handed_columns s)) as Hc by (by rewrite E, lookup_fmap, Hs).
  rewrite lookup_fmap in Hc. apply fmap_Some in Hc as (s' & ? & ?). eauto.
Qed.

Lemma create_first j row students : tx_keeps first (create_homework_tx j row students).
Proof. intros d hw d' Hd E. apply create_homework_ok in E. naive_solver (eauto using first_same). Qed.
Lemma update_first `{UuidText} read p : tx_keeps first (update_homework_tx read p).
Proof. intros d hw d' Hd E. apply update_homework_ok in E. naive_solver (eauto using first_same). Qed.
Lemma delete_homework_first g : g ≠ k.1 → tx_keeps first (delete_homework_tx g).
Proof.
  intros Hg d ks d' Hd E. unfold delete_homework_tx in E. cbv zeta in E.
  destruct (homeworks d !! g); [|done]. injection E as _ <-. destruct Hd as (s & Hs & Hc). exists s. split; [|done].
  cbn. apply map_lookup_filter_Some. simpl. split; [done|]. intros <-. apply Hg. by inversion Hc.
Qed.
Lemma upsert_first j g v tx pr a : tx_keeps first (upsert_tx j g v tx pr a).
Proof.
  intros d res d' Hd E. unfold upsert_tx in E. destruct (homeworks d !! g); [|done].
  destruct (negb _); [done|]. cbv zeta in E. destruct (submission_for d g v) as [[n x]|] eqn:Hn.
  - apply by_pair_row in Hn as [Hn _]. destruct (graded_by_result x); injection E as _ <-; [done|].
    apply (first_column d); [done|]. apply column_put. by rewrite Hn.
  - destruct (has (submissions d) j) eqn:Hj; [done|]. destruct (negb _); [done|]. injection E as _ <-. apply has_not in Hj.
    apply (first_step d); [done|]. intros s Hs. exists s. cbn. rewrite lookup_insert_ne; [done|]. congruence.
Qed.
Lemma touch_first j a : tx_keeps first (touch_tx j a).
Proof.
  intros d res d' Hd E. unfold touch_tx in E. destruct (submissions d !! j) as [x|] eqn:Hj; [|done]. injection E as _ <-.
  apply (first_column d); [done|]. apply column_put. by rewrite Hj.
Qed.
Lemma withdraw_first j g : j ≠ i → tx_keeps first (delete_submission_tx j g).
Proof.
  intros Hj d res d' Hd E. unfold delete_submission_tx in E. destruct (submissions d !! j) as [x|]; [|by injection E as _ <-].
  destruct (graded_by_result x); [by injection E as _ <-|]. cbv zeta in E. injection E as _ <-.
  apply (first_step d); [done|]. intros s Hs. exists s. cbn. by rewrite lookup_delete_ne.
Qed.
Lemma insert_file_first j f : tx_keeps first (insert_file_tx j f).
Proof.
  intros d res d' Hd E. unfold insert_file_tx in E. destruct (submissions d !! f_submission f); [|by injection E as _ <-].
  destruct (negb _); [by injection E as _ <-|]. destruct (has (files d) j); [done|]. injection E as _ <-.
  apply (first_column d); [done|]. by apply column_same.
Qed.
Lemma delete_file_first j sub a : tx_keeps first (delete_file_tx j sub a).
Proof.
  intros d res d' Hd E. unfold delete_file_tx in E. destruct (submissions d !! sub) as [x|] eqn:Hx; [|by injection E as _ <-].
  destruct (graded_by_result x); [by injection E as _ <-|]. destruct (files d !! j); [|done].
  case_bool_decide; [|done]. injection E as _ <-. apply (first_column d); [done|]. apply column_put. by rewrite Hx.
Qed.
Lemma grade_first j g v st m by_ a : tx_keeps first (grade_tx j g v st m by_ a).
Proof.
  intros d res d' Hd E. unfold grade_tx in E. destruct (homeworks d !! g); [|done]. cbv zeta in E.
  destruct (result_for d g v) as [[n x]|]; [|destruct (has (results d) j); [done|]];
    (destruct (negb _); [done|]); injection E as _ <-; apply (first_column d); try done;
    apply column_same_all; intros s; by case_decide.
Qed.
Lemma remove_first g v : tx_keeps first (remove_tx g v).
Proof.
  intros d res d' Hd E. unfold remove_tx, writes in E. destruct (homeworks d !! g); [|by injection E as _ <-].
  destruct (result_for d g v) as [[n x]|]; injection E as _ <-; [|done].
  apply (first_column d); [done|]. apply column_same_all. intros s. by case_decide.
Qed.
Lemma award_first v b a : tx_keeps first (award v b a).
Proof.
  intros d res d' Hd E. unfold award in E. destruct (awards d !! (v, b)); [by injection E as _ <-|].
  destruct (stats_of d v); [|done]. injection E as _ <-. by eapply first_same.
Qed.
End FirstHanded.

(** ** The theorems *)

Section Kept.
Context `{UuidText}.

Lemma desk_answers q : answers desk_ok anyhow (perform_homework q) (λ _, True).
Proof.
  apply (perform_homework_fine desk_ok (λ _, True) (λ _ _, True) (λ _ _, True) (λ _, True));
    eauto using create_homework_keeps, update_homework_keeps, delete_homework_keeps, upsert_keeps, touch_keeps,
      delete_submission_keeps, insert_file_keeps, delete_file_keeps, grade_keeps, remove_keeps, award_desk_keeps.
  by destruct q.
Qed.

(** C12. Whoever calls a route of the homework, with whatever body, and whatever the
    others commit between two statements of the call as long as they keep it too:
    every subject counts the homework tagged with it, every submission counts its
    files and never more than ten, a student has at most one submission and one
    grade for a homework, a stamp names the pair's own grade, every row points at
    rows that are there, everybody who handed in is in the audience the homework
    names, and the lifetime counters of an account cover the hand-ins it has
    standing, the punctual ones and the late ones each. *)
Theorem homework_keeps q : outline desk_ok anyhow anyhow (λ _, True) (perform_homework q) anything.
Proof. apply kept_anything, desk_answers. Qed.

(** C13. What a grade was given for stays what it was: from the moment a submission
    carries a grade, no route changes its text, the moment it was first handed in
    or the verdict that counted it, adds a file to it or takes one away, or deletes
    it, however the request interleaves with the others and whatever it had read
    before the grade landed; only the removal of that grade or of that homework
    frees it. *)
Theorem graded_work_stands i r h u text at_ n c fs q :
  admitted (λ g, g ≠ h) (λ g v, (g, v) ≠ (h, u)) (λ _ _, True) q →
  let still := frozen i r ((h, u), text, at_, n, c) fs in
  outline still anyhow anyhow (λ _, True) (perform_homework q) anything.
Proof.
  intros Hq still. apply kept_anything,
    (perform_homework_fine still (λ g, g ≠ h) (λ g v, (g, v) ≠ (h, u)) (λ _ _, True) (λ _, True));
    eauto using create_frozen, edit_frozen, delete_homework_frozen, upsert_frozen, touch_frozen, withdraw_frozen,
      insert_file_frozen, delete_file_frozen, grade_frozen, remove_frozen, award_frozen.
Qed.

(** C14. A hand-in keeps the moment it was first made and the verdict it was counted
    with: whatever the student hands in again, whatever files come and go, however
    the deadline moves, whatever grade comes and goes, no route rewrites them; only
    the student's own withdrawal or the deletion of the homework ends the row. *)
Theorem first_hand_in_stands i h u at_ c q :
  admitted (λ g, g ≠ h) (λ _ _, True) (λ g v, (g, v) ≠ (h, u)) q →
  let stands := first_handed i (h, u) at_ c in
  outline stands anyhow anyhow (λ _, True) (perform_homework q) anything.
Proof.
  intros Hq stands. apply kept_anything,
    (perform_homework_fine stands (λ g, g ≠ h) (λ _ _, True) (λ g v, (g, v) ≠ (h, u)) (λ j, j ≠ i));
    eauto using create_first, update_first, upsert_first, touch_first, withdraw_first,
      insert_file_first, delete_file_first, grade_first, remove_first, award_first.
  - intros d g v j s (s0 & Hs0 & E) Hne Hj. apply by_pair_row in Hj as [Hj Hp]. intros ->. inversion E. congruence.
  - intros g Hg. by apply delete_homework_first.
Qed.
End Kept.
