(* ===== verification/HomeworkFacts.v ===== *)
(** * What the homework's operations answer

    The audience read in SQL and in Rust, what a student is shown, a narrowing, a
    hand-in and its withdrawal, and a grade, each for every state it may find. *)

From S2P Require Import Prelude Text Errors Effects Answers Uuid Validate Modules Badges ExamForms Tally Gates EventForms Roster Events Sight HomeworkForms Homework HomeworkRoutes HomeworkProofs HomeworkKeeps.

Open Scope Z_scope.

(** ** The audience *)

Lemma sees_assembled d h row u : student_sees (assemble d h row) u = in_audience d h u.
Proof.
  unfold student_sees, assemble, in_audience. simpl. destruct (decide (named_in d h = ∅)) as [E|E].
  - by rewrite (bool_decide_true (named_in d h = ∅)).
  - rewrite (bool_decide_false (named_in d h = ∅)) by done.
    assert (ascending (named_in d h) ≠ []) as Hne.
    { intros Hn. apply E, set_eq. intros x. rewrite <- elem_of_ascending, Hn, elem_of_nil. by rewrite elem_of_empty. }
    rewrite (bool_decide_false (ascending _ = [])) by done. simpl. apply bool_decide_ext.
    by rewrite elem_of_ascending, elem_of_named_in.
Qed.

(** A listing of the rows of a condition is the listing, filtered. *)
Lemma sorted_filter {A} (R : A → A → Prop) (P : A → Prop) `{!∀ x, Decision (P x)} (xs : list A) :
  StronglySorted R xs → StronglySorted R (filter P xs).
Proof.
  induction 1 as [|x xs Hs IH Hx]; [constructor|]. rewrite filter_cons. case_decide; [|done]. constructor; [done|].
  apply Forall_forall. intros y [_ Hy]%list_elem_of_filter. by eapply Forall_forall in Hx.
Qed.
Lemma ascending_filter (P : uuid → Prop) `{!∀ x, Decision (P x)} (us vs : gset uuid) :
  (∀ u, u ∈ vs ↔ P u ∧ u ∈ us) → ascending vs = filter P (ascending us).
Proof.
  intros Hin. assert (∀ ws, StronglySorted N.le (ascending ws)) as Hs.
  { intros ws. apply StronglySorted_merge_sort; [intros a b c; apply N.le_trans|]. intros a b. lia. }
  apply (StronglySorted_unique N.le); [done|by apply sorted_filter|].
  apply NoDup_Permutation; [apply NoDup_ascending|apply NoDup_filter, NoDup_ascending|].
  intros u. by rewrite list_elem_of_filter, !elem_of_ascending.
Qed.
Lemma elem_of_newest {V} (rows : gmap uuid V) i v : (i, v) ∈ newest rows → rows !! i = Some v.
Proof. unfold newest. rewrite list_elem_of_omap. intros (j & _ & (w & Hw & [= <- <-])%fmap_Some). done. Qed.
Lemma newest_filter {V} (rows : gmap uuid V) (P : uuid * V → Prop) `{!∀ x, Decision (P x)} :
  newest (filter P rows) = filter P (newest rows).
Proof.
  unfold newest, descending.
  rewrite (ascending_filter (λ i, is_Some (filter P rows !! i)) (dom rows)).
  2: { intros u. rewrite !elem_of_dom. unfold is_Some. setoid_rewrite map_lookup_filter_Some. naive_solver. }
  rewrite <- filter_reverse. induction (reverse (ascending (dom rows))) as [|i us IH]; [done|].
  rewrite filter_cons. destruct (rows !! i) as [v|] eqn:Hv; [destruct (decide (P (i, v))) as [HP|HP]|].
  - assert (filter P rows !! i = Some v) as E by (by apply map_lookup_filter_Some_2).
    rewrite decide_True by (by rewrite E). cbn [omap list_omap]. rewrite E, Hv. simpl. rewrite filter_cons_True by done.
    f_equal. exact IH.
  - assert (filter P rows !! i = None) as E by (apply map_lookup_filter_None; right; congruence).
    rewrite decide_False by (rewrite E; apply is_Some_None). cbn [omap list_omap]. rewrite Hv. simpl.
    rewrite filter_cons_False by done. exact IH.
  - assert (filter P rows !! i = None) as E by (by apply map_lookup_filter_None; left).
    rewrite decide_False by (rewrite E; apply is_Some_None). cbn [omap list_omap]. rewrite Hv. exact IH.
Qed.

Lemma filter_assembled d (P : Homework → Prop) `{!∀ x, Decision (P x)} (rows : list (uuid * Assignment)) :
  filter P ((λ p : uuid * Assignment, assemble d p.1 p.2) <$> rows)
  = (λ p : uuid * Assignment, assemble d p.1 p.2) <$> filter (λ p : uuid * Assignment, P (assemble d p.1 p.2)) rows.
Proof. induction rows as [|p rows IH]; [done|]. rewrite fmap_cons, !filter_cons. case_decide; [rewrite fmap_cons|]; by rewrite IH. Qed.

(** C29. The observer's report reads the audience in SQL and every other surface in
    Rust, and they agree: the homework listed for a student in an instance is
    exactly the instance's list, newest first, with what the student is not given
    left out, whatever the tables hold. *)
Theorem listed_is_what_the_student_sees i u d :
  list_for_user_in_course i u d = filter (λ hw, student_sees hw u = true) (list_for_class_course i d).
Proof.
  unfold list_for_user_in_course, list_for_class_course, rows_where. rewrite filter_assembled. f_equal.
  rewrite <- newest_filter, map_filter_filter. f_equal. apply map_filter_ext. intros h row _. simpl.
  rewrite sees_assembled, bool_decide_eq_true. tauto.
Qed.

(** ** What a student is shown *)

Section Shown.
Context `{UuidText}.
Context (I : Desk → Prop).
Set Default Proof Using "All".

(** A homework as some state the request met held it: one whose audience there is
    everybody, or names the student; its row, and of the names only the student's
    own. *)
Definition shown_to (u : uuid) (hw' : Homework) : Prop :=
  ∃ d row, I d ∧ homeworks d !! hw_id hw' = Some row ∧ hw_row hw' = row
    ∧ in_audience d (hw_id hw') u = true
    ∧ hw_assigned hw' = if bool_decide (named_in d (hw_id hw') = ∅) then None else Some [u].

(** Read off the tables of a state the request met. *)
Definition held (hw : Homework) : Prop := ∃ d row, I d ∧ homeworks d !! hw_id hw = Some row ∧ hw = assemble d (hw_id hw) row.

Lemma shown_for_viewer u hw : held hw → student_sees hw u = true → shown_to u (for_viewer u hw).
Proof.
  intros (d & row & HI & Hrow & E) Hs. destruct hw as [h r a]. simpl in *. injection E as -> ->.
  change (student_sees (assemble d h row) u = true) in Hs. rewrite sees_assembled in Hs. exists d, row.
  split_and!; [done..|]. simpl. case_bool_decide; [by rewrite decide_True|by rewrite decide_False].
Qed.

Lemma rows_held c d : I d → Forall held (rows_where c d).
Proof.
  intros HI. apply Forall_fmap, Forall_forall. intros [h row] Hin. apply elem_of_newest in Hin.
  apply map_lookup_filter_Some in Hin as [Hrow _]. simpl. by exists d, row.
Qed.
Lemma with_instance_held h : answers I anyhow (homework_with_instance h) (λ p, held p.1).
Proof.
  unfold homework_with_instance, homework_or_404. eapply (fine_then _ _ held).
  - eapply (fine_then _ _ (λ row, ∀ hw, row = Some hw → held hw)).
    { apply answers_read; [apply _|]. intros d HI hw. unfold read_homework. intros (row & Hrow & ->)%fmap_Some. by exists d, row. }
    intros row Hrow. eapply answers_weaken; [apply _|apply answers_lift; apply _|]. intros hw. destruct row as [x|]; [|done].
    intros [= ->]. by apply Hrow.
  - intros hw Hh. eapply fine_then; [apply instance_or_404_fine|]. by answer_walk.
Qed.

Section Student.
Context (u : User) (Hrole : at_least (get_role u) Teacher = false).

Lemma student_manages_nothing i : answers I anyhow (can_manage_instance (D := Desk) u i) (λ b, b = false).
Proof.
  assert (at_least (get_role u) Manager = false) as Hm by (destruct (get_role u); done).
  unfold can_manage_instance. eapply answers_bind; [apply _|apply (answers_attempted _ _ _ (λ _, False))|].
  - unfold ensure_instance_teacher, class_of. rewrite Hm, Hrole. answer_walk.
  - intros [] Hr; [done|]. by answer_walk.
Qed.

Lemma student_runs_nothing : answers I anyhow (visible_instances (D := Desk) u) (Forall (λ r, r.2 = false)).
Proof.
  unfold visible_instances. rewrite Hrole. simpl. answer_walk.
  eapply (answers_bind _ _ _ _ (λ homeroom, homeroom = [])); [by answer_walk|]. intros _ ->. cbv zeta.
  eapply (answers_bind _ _ _ _ (λ _, True)); [case_match; [by answer_walk|apply answers_gets; apply _]|].
  intros rows _. answer_walk. apply Forall_fmap, Forall_forall. intros x _. done.
Qed.
(** A page of a list is within it. *)
Lemma Forall_paginate {A} (P : A → Prop) (xs : list A) limit offset : Forall P xs → Forall P (paginate xs limit offset).
Proof. intros HP. unfold paginate. by apply Forall_take, Forall_drop. Qed.

(** C28. A student is told of a homework exactly what concerns them: every homework
    the three routes answer to a caller below teacher is the row some state met
    while the request ran held under that id, one whose audience in that state was
    everybody or named the caller; and the list of its students is absent when it
    named nobody and the caller alone when it named anybody; whatever the others
    do meanwhile. *)
Theorem a_student_is_shown_their_own h i after before course limit offset :
  answers I anyhow (get_homework u h) (shown_to (uid u))
  ∧ answers I anyhow (list_instance_homework u i limit offset) (λ p, Forall (shown_to (uid u)) p.1)
  ∧ answers I anyhow (list_homework u after before course limit offset) (λ p, Forall (shown_to (uid u)) p.1).
Proof.
  assert (at_least (get_role u) Manager = false) as Hm by (destruct (get_role u); done).
  assert (∀ rows l o, Forall held rows →
    Forall (shown_to (uid u)) ((λ hw, for_viewer (uid u) hw) <$> paginate (filter (λ hw, student_sees hw (uid u) = true) rows) l o)) as Hpage.
  { intros rows l o Hrows. apply Forall_fmap, Forall_paginate, Forall_forall. intros hw [Hs Hin]%list_elem_of_filter.
    apply shown_for_viewer; [|done]. by eapply Forall_forall in Hrows. }
  split_and!.
  - unfold get_homework. eapply fine_then; [apply with_instance_held|]. intros [hw x] Hheld. simpl in Hheld.
    eapply fine_then; [apply can_view_fine|]. answer_walk.
    eapply fine_then; [apply student_manages_nothing|]. intros ? ->. simpl. answer_walk.
    by apply shown_for_viewer, negb_false_iff.
  - unfold list_instance_homework. answer_walk. eapply fine_then; [apply instance_or_404_fine|]. intros x _.
    eapply fine_then; [apply can_view_fine|]. intros views _. destruct (negb views); [by answer_walk|].
    eapply (fine_then _ _ (Forall held)); [apply answers_read; [apply _|]; intros d HI; by apply rows_held|]. intros rows Hrows.
    eapply fine_then; [apply student_manages_nothing|]. intros ? ->. answer_walk. by apply Hpage.
  - unfold list_homework. rewrite Hm. answer_walk. eapply fine_then; [apply student_runs_nothing|].
    intros visible Hv. cbv zeta.
    assert (filter (λ r : uuid * Instance * bool, r.2 = true) visible = []) as ->.
    { induction Hv as [|r rs Hr _ IH]; [done|]. rewrite filter_cons_False by (rewrite Hr; done). exact IH. }
    eapply (fine_then _ _ (Forall held)).
    { case_bool_decide; [by answer_walk|]. apply answers_read; [apply _|]. intros d HI. by apply rows_held. }
    intros rows Hrows. answer_walk. by apply (Hpage rows o z).
Qed.
End Student.
End Shown.

(** ** A narrowing *)

Lemma holder_for d h u : u ∈ holders d h ↔ is_Some (submission_for d h u) ∨ is_Some (result_for d h u).
Proof.
  assert (∀ V (pr : V → uuid * uuid) rows, (∃ i v, rows !! i = Some v ∧ pr v = (h, u)) ↔ is_Some (by_pair pr rows (h, u))) as Hby.
  { intros V pr rows. split.
    - intros (i & v & Hv & Hp). destruct (by_pair pr rows (h, u)) eqn:E; [done|]. by destruct (proj1 (by_pair_None pr rows _) E i v).
    - intros [[i v] E]. apply by_pair_row in E. eauto. }
  by rewrite elem_of_holders, !Hby.
Qed.

Section Narrowing.
Context `{UuidText}.

(** With nobody left out who has work, and the rows the patch names in place, the
    edit goes through. *)
Lemma narrowing_lands read p subset current d :
  let h := hw_id read in
  homeworks d !! h = Some current → hp_assigned p = Some (Some subset) → blocked_by subset (holders d h) = [] →
  NoDup subset → (∀ u, u ∈ subset → u ∈ account_ids d) →
  (∀ s, moving read p = Some s → s ∈ dom (subjects d)) →
  (is_Some (hp_subject p) → hw_subject current = hw_subject (hw_row read)) →
  ∃ hw d', update_homework_tx read p d = Ok (hw, d').
Proof.
  intros h Hh Hp Hb Hnd Hus Hmov Hst. unfold update_homework_tx. cbv zeta. fold h. rewrite tx_bind_gets, Hh, Hp.
  change (if bool_decide (hp_subject p = Some (hw_subject (hw_row read))) then None else hp_subject p) with (moving read p).
  unfold mbind, tx_bind. simpl. unfold ensure_no_orphans. rewrite bool_decide_true by done.
  assert (∃ d1, move_subject h (hw_subject current) (moving read p) d = Ok ((), d1)
    ∧ assignments d1 = assignments d ∧ school d1 = school d) as (d1 & -> & Ea & Es).
  { unfold move_subject. destruct (moving read p) as [s|]; [|by exists d]. unfold mbind, tx_bind. simpl. unfold claim_subject.
    rewrite (proj2 (has_dom _ _)); [by eexists|]. cbn. rewrite dom_alter_row. by apply Hmov. }
  destruct (bool_decide (is_Some (hp_subject p)) && _) eqn:Hstale.
  { apply andb_true_iff in Hstale as [Hs%bool_decide_eq_true Hn%negb_true_iff%bool_decide_eq_false]. by destruct Hn; apply Hst. }
  simpl. unfold insert_assignments. rewrite (bool_decide_true (NoDup subset)) by done. simpl.
  unfold mbind, tx_bind, writes. cbv beta iota.
  rewrite (proj2 (forallb_forall _ _)).
  2:{ intros u _. cbn. rewrite Ea. apply negb_true_iff, bool_decide_eq_false. by intros [? _]%elem_of_filter. }
  simpl. rewrite (proj2 (forallb_forall _ _)).
  2:{ intros u Hu%list_elem_of_In. cbn. rewrite Es. by apply has_dom, Hus. }
  simpl. by eexists _, _.
Qed.

(** C27. Narrowing a homework to a list of students is refused as orphaning work when
    somebody left out has handed in or been graded, and the refusal names each of
    them once and nobody else. When nobody is, the narrowing goes through, given
    that the list names accounts, each once, and that the subject the patch names
    is there and the one read is still the homework's; and then the list is the
    one given, and no submission, file or grade has moved. *)
Theorem narrowing_orphans_no_work read p subset current d :
  homeworks d !! hw_id read = Some current → hp_assigned p = Some (Some subset) →
  let h := hw_id read in
  ∃ blocked, NoDup blocked
    ∧ (∀ k, k ∈ blocked ↔ ∃ u, (is_Some (submission_for d h u) ∨ is_Some (result_for d h u)) ∧ (u ∉ subset) ∧ k = uuid_text u)
    ∧ (blocked ≠ [] → update_homework_tx read p d = Err (would_orphan blocked))
    ∧ (blocked = [] → NoDup subset → (∀ u, u ∈ subset → u ∈ account_ids d) →
         (∀ s, moving read p = Some s → s ∈ dom (subjects d)) →
         (is_Some (hp_subject p) → hw_subject current = hw_subject (hw_row read)) →
         ∃ hw d', update_homework_tx read p d = Ok (hw, d'))
    ∧ ∀ hw d', update_homework_tx read p d = Ok (hw, d') →
        blocked = [] ∧ (∀ u, u ∈ named_in d' h ↔ u ∈ subset)
        ∧ submissions d' = submissions d ∧ results d' = results d ∧ files d' = files d
        ∧ homeworks d' = <[h := patched p current]> (homeworks d).
Proof.
  intros Hh Hp h. destruct (blocked_by_spec subset (holders d h)) as [Hnd Hin].
  exists (blocked_by subset (holders d h)). split; [done|].
  split; [intros k; rewrite Hin; by setoid_rewrite holder_for|]. split_and!.
  - intros Hb. unfold update_homework_tx. cbv zeta. rewrite tx_bind_gets, Hh, Hp. unfold mbind, tx_bind. simpl.
    unfold ensure_no_orphans. by rewrite bool_decide_false.
  - intros Hb. by apply narrowing_lands.
  - intros hw d' E. apply update_homework_ok in E as (current' & Hc & Hass & _ & _ & -> & _). subst h.
    assert (current' = current) as -> by congruence.
    assert (orphans_nobody d (hw_id read) (Some subset)) as Ho by (apply Hass, Hp). split_and!; try done.
    + destruct (blocked_by subset _) as [|k ks] eqn:E; [done|].
      destruct (proj1 (Hin k)) as (u & Hu & Hn & _); [by left|]. destruct Hn. by apply (Ho subset).
    + intros u. rewrite elem_of_named_in. cbn. rewrite Hp. cbn. rewrite elem_of_named_anew. simpl. naive_solver.
Qed.
End Narrowing.

(** ** Alone, up to the first write *)

Section Asking.
Context {S : Type}.

(** The world a read leaves: only the statement's turn is spent. *)
Definition untouched (w w' : World S) : Prop :=
  w_db w' = w_db w ∧ w_env w' = w_env w ∧ w_clock w' = w_clock w ∧ w_fresh w' = w_fresh w.
#[global] Instance untouched_pre : PreOrder untouched.
Proof. split; [by intros w|]. intros w1 w2 w3 (? & ? & ? & ?) (? & ? & ? & ?). repeat split; congruence. Qed.
Lemma tick_untouched w : untouched w (tick (w_db w) w).
Proof. done. Qed.
Lemma undisturbed_untouched w w' : undisturbed w → untouched w w' → undisturbed w'.
Proof. unfold undisturbed. by intros Hw (_ & -> & _). Qed.

(** [m] answers [r] and writes nothing. *)
Definition asks {A} (m : io S A) (w : World S) (r : result AppError A) : Prop := ∃ w', m w = (r, w') ∧ untouched w w'.

Lemma asks_done {A} (r : result AppError A) w : asks (λ w, (r, w)) w r.
Proof. by exists w. Qed.
Lemma asks_bind {A B} (m : io S A) (k : A → io S B) w r0 r :
  asks m w r0 → match r0 with Ok a => ∀ w1, untouched w w1 → asks (k a) w1 r | Err e => r = Err e end → asks (m ≫= k) w r.
Proof.
  intros (w1 & Hm & Hw1) Hk. unfold asks, mbind, io_bind. rewrite Hm. destruct r0 as [a|e]; [|subst; eauto].
  destruct (Hk w1 Hw1) as (w2 & -> & Hw2). exists w2. split; [done|by etrans].
Qed.
Lemma asks_read {A} (f : S → A) w : undisturbed w → asks (atomic (gets f)) w (Ok (f (w_db w))).
Proof. intros Hw. exists (tick (w_db w) w). by rewrite atomic_alone. Qed.
Lemma leads_asks {A B} (m : io S A) (k : A → io S B) w r0 Q :
  asks m w r0 →
  match r0 with Ok a => ∀ w1, untouched w w1 → leads (k a) w1 Q | Err e => Q (Err e) (w_db w) end → leads (m ≫= k) w Q.
Proof.
  intros (w1 & Hm & Hw1) Hk. unfold leads, mbind, io_bind. rewrite Hm. pose proof Hw1 as (Hd & He & _).
  destruct r0 as [a|e]; [|by rewrite Hd]. specialize (Hk w1 Hw1). unfold leads in Hk. destruct (k a w1). by rewrite <- He.
Qed.
Lemma leads_now_asked {B} (k : Z → io S B) w Q :
  (∀ w1, untouched w w1 → leads (k (w_clock w (w_step w))) w1 Q) → leads (now ≫= k) w Q.
Proof. intros Hk. exact (Hk (tick (w_db w) w) (tick_untouched w)). Qed.
Lemma leads_fresh_asked {B} (k : N → io S B) w Q :
  (∀ w1, untouched w w1 → leads (k (w_fresh w (w_step w))) w1 Q) → leads (fresh ≫= k) w Q.
Proof. intros Hk. exact (Hk (tick (w_db w) w) (tick_untouched w)). Qed.
End Asking.

(** ** A hand-in *)

(** What the archive gate answers. *)
Definition open_answer (i : uuid) (t : Tables) : result AppError () :=
  match i_class <$> instances t !! i with
  | None => Ok ()
  | Some c =>
      match year <$> groups t !! c with
      | Some (Some y) => match archived_at <$> years t !! y with Some (Some _) => Err archived_error | _ => Ok () end
      | _ => Ok ()
      end
  end.

Lemma require_open_asks i (w : World Desk) : undisturbed w → asks (require_open i) w (open_answer i (school (w_db w))).
Proof.
  intros Hw. unfold require_open, class_of, open_answer.
  eapply asks_bind; [by apply asks_read|]. intros w1 Hw1. change (the_school (w_db w)) with (school (w_db w)).
  destruct (i_class <$> instances (school (w_db w)) !! i) as [c|]; [|apply asks_done].
  eapply asks_bind; [by apply asks_read, (undisturbed_untouched w)|]. intros w2 Hw2. destruct Hw1 as (E1 & E1' & _).
  rewrite E1. change (the_school (w_db w)) with (school (w_db w)).
  destruct (year <$> groups (school (w_db w)) !! c) as [[y|]|]; [|apply asks_done..]. destruct Hw2 as (E2 & E2' & _).
  unfold require_open_year. eapply asks_bind; [apply asks_read; unfold undisturbed; rewrite E2', E1'; exact Hw|]. intros w3 Hw3.
  rewrite E2, E1. change (the_school (w_db w)) with (school (w_db w)).
  destruct (archived_at <$> years (school (w_db w)) !! y) as [[x|]|]; apply asks_done.
Qed.

(** What the gate of the student's routes answers. *)
Definition gate_answer (h : uuid) (u : User) (d : Desk) : result AppError Homework :=
  match read_homework d h with
  | None => Err NotFound
  | Some hw =>
      if negb (bool_decide (get_role u = Student)) then Err students_only else
      if bool_decide (enrollments (school d) !! (class_course (hw_row hw), uid u) = None) then Err not_in_course else
      if negb (in_audience d h (uid u)) then Err NotFound else Ok hw
  end.

Lemma gate_asks h u (w : World Desk) : undisturbed w → asks (gate_own_submission h u) w (gate_answer h u (w_db w)).
Proof.
  intros Hw. unfold gate_own_submission, gate_answer, homework_or_404.
  apply asks_bind with (ok_or (read_homework (w_db w) h) NotFound).
  { eapply asks_bind; [by apply asks_read|]. intros w1 _. apply asks_done. }
  destruct (read_homework (w_db w) h) as [hw|] eqn:Er; simpl; [|done]. intros w1 Hw1.
  case_bool_decide; simpl; [|apply asks_done]. unfold read_for_user.
  eapply asks_bind; [by apply asks_read, (undisturbed_untouched w)|]. intros w2 _. destruct Hw1 as (-> & _).
  change (the_school (w_db w)) with (school (w_db w)). case_bool_decide; [apply asks_done|].
  unfold read_homework in Er. apply fmap_Some in Er as (row & _ & ->). rewrite sees_assembled.
  destruct (in_audience (w_db w) h (uid u)); apply asks_done.
Qed.

Lemma not_graded_asks h u e (w : World Desk) :
  undisturbed w → asks (not_graded h u e) w (if bool_decide (is_Some (result_for (w_db w) h u)) then Err e else Ok ()).
Proof.
  intros Hw. eapply asks_bind; [by apply asks_read|]. intros w1 _. case_bool_decide; apply asks_done.
Qed.

(** An undisturbed sync moves no table but the awards. *)
Lemma award_badges_alone u (w : World Desk) :
  undisturbed w → leads (award_badges u) w (λ r d, r = Ok () ∧ ∃ a, d = set_awards a (w_db w)).
Proof.
  intros Hw. set (d0 := w_db w). pose (J := λ d : Desk, ∃ a, d = set_awards a d0).
  assert (∀ b at_, tx_keeps J (award u b at_)) as Ha.
  { intros b at_ d r d' [a ->] E. unfold award in E. destruct (awards _ !! _); [injection E as _ <-; by exists a|].
    destruct (stats_of _ u); [|done]. injection E as _ <-. by eexists. }
  assert (keeps J (sync u)) as Hk by (unfold sync, load; keeps_walk; apply Ha).
  assert (J d0) as H0 by (exists (award_rows d0); by destruct d0).
  pose proof (Hk w ltac:(by intros n s Hs; rewrite Hw) H0) as Hs.
  unfold leads, award_badges, mbind, io_bind, attempt. destruct (sync u w) as [r w']. simpl. naive_solver.
Qed.

(** A stamp is of a grade that is there. *)
Lemma ungraded_unstamped d h u i s :
  desk_ok d → submission_for d h u = Some (i, s) → result_for d h u = None → graded_by_result s = None.
Proof.
  intros Hok Hs Hr. apply by_pair_row in Hs as [Hi Hp]. destruct (graded_by_result s) as [r|] eqn:Hg; [|done].
  pose proof (wo_stamp _ _ _ _ _ (dk_work d Hok) i s r Hi Hg) as (x & Hx & E)%fmap_Some.
  destruct (proj1 (by_pair_None r_pair _ _) Hr r x Hx). congruence.
Qed.

(** The row, and the credit, of a first hand-in. *)
Definition first_row (hw : Homework) (u : uuid) (text : option str) (at_ : Z) : HomeworkSubmission :=
  MkSubmission (hw_id hw) u text at_ at_ 0 (Some (at_ <=? due_at (hw_row hw))) None.
Definition handed (hw : Homework) (u : uuid) (i : uuid) (text : option str) (at_ : Z) (d : Desk) : Desk :=
  set_totals (alter (on_handed_in (Z.add 1) (Z.add (credit (at_ <=? due_at (hw_row hw))))) u)
    (set_submissions <[i := first_row hw u text at_]> d).

Definition hand_in_answer (u : User) (h : uuid) (text : option str) (i : uuid) (at_ : Z) (d : Desk)
    : result AppError Submitted * Desk :=
  match gate_answer h u d with
  | Err e => (Err e, d)
  | Ok hw =>
      match open_answer (class_course (hw_row hw)) (school d) with
      | Err e => (Err e, d)
      | Ok _ =>
          if bool_decide (is_Some (result_for d h (uid u))) then (Err graded_edit, d) else
          match submission_for d h (uid u) with
          | Some (j, s) =>
              let s' := handed_again (Some text) at_ s in
              (Ok (MkSubmitted true hw (j, s')), set_submissions <[j := s']> d)
          | None => (Ok (MkSubmitted false hw (i, first_row hw (uid u) text at_)), handed hw (uid u) i text at_ d)
          end
      end
  end.

Lemma gate_ok h u d hw :
  gate_answer h u d = Ok hw → ∃ row, homeworks d !! h = Some row ∧ hw = assemble d h row ∧ in_audience d h (uid u) = true.
Proof.
  unfold gate_answer, read_homework. destruct (homeworks d !! h) as [row|]; simpl; [|done]. intros E. exists row. split; [done|].
  destruct (negb _); [done|]. case_bool_decide; [done|]. destruct (in_audience d h (uid u)); [|done]. by injection E as <-.
Qed.

Lemma upsert_alone hw u text i at_ d row :
  desk_ok d → homeworks d !! hw_id hw = Some row → hw_row hw = row → in_audience d (hw_id hw) u = true →
  u ∈ account_ids d → submissions d !! i = None → result_for d (hw_id hw) u = None →
  upsert_tx i (hw_id hw) u text false at_ d =
    match submission_for d (hw_id hw) u with
    | Some (j, s) => Ok (Some ((j, handed_again (Some text) at_ s), true), set_submissions <[j := handed_again (Some text) at_ s]> d)
    | None => Ok (Some ((i, first_row hw u text at_), false), handed hw u i text at_ d)
    end.
Proof.
  intros Hok Hh <- Ha Hu Hi Hr. unfold upsert_tx. rewrite Hh, Ha. simpl.
  destruct (submission_for d (hw_id hw) u) as [[j s]|] eqn:Hs; [by rewrite (ungraded_unstamped d _ _ _ _ Hok Hs Hr)|].
  rewrite (proj2 (has_not _ _) Hi). apply has_dom in Hu. by rewrite Hu.
Qed.

(** C18. A hand-in, with nothing written meanwhile, answers for every state it may
    find: no such homework, a caller who is no student, is not enrolled or is not
    given it; an archived year; work already graded; otherwise the student's row,
    its text and its last touch rewritten and nothing else, or, the first time, one
    row stamped with this moment and one credit, punctual or late by the deadline
    of this moment. *)
Theorem hand_in_is_exact u h text (w : World Desk) :
  undisturbed w → desk_ok (w_db w) → uid u ∈ account_ids (w_db w) → (∀ n, submissions (w_db w) !! w_fresh w n = None) →
  leads (submit u h text) w (λ r d', ∃ k n a,
    let '(answer, after) := hand_in_answer u h text (w_fresh w k) (w_clock w n) (w_db w) in r = answer ∧ d' = set_awards a after).
Proof.
  intros Hw Hok Hu Hfresh. assert (∀ d', d' = set_awards (award_rows d') d') as Hsame by (by intros []).
  unfold submit, hand_in_answer, require_open_instance, upsert.
  eapply leads_asks; [by apply gate_asks|]. destruct (gate_answer h u (w_db w)) as [hw|e] eqn:Eg; [|exists 0%nat, 0%nat; eauto].
  pose proof (gate_ok _ _ _ _ Eg) as (row & Hrow & Ehw & Ha). assert (hw_id hw = h) as Hid by (by subst hw). rewrite Hid.
  intros w1 Hw1. pose proof Hw1 as (E1 & _). eapply leads_asks; [by apply require_open_asks, (undisturbed_untouched w)|].
  rewrite E1. destruct (open_answer _ _); [|exists 0%nat, 0%nat; eauto]. intros w2 Hw2.
  assert (untouched w w2) as Hw02 by (by etrans). pose proof Hw02 as (E2 & _).
  eapply leads_asks; [by apply not_graded_asks, (undisturbed_untouched w)|]. rewrite E2.
  destruct (bool_decide (is_Some (result_for (w_db w) h (uid u)))) eqn:Er; [exists 0%nat, 0%nat; eauto|]. intros w3 Hw3.
  apply bool_decide_eq_false, eq_None_not_Some in Er. assert (untouched w w3) as Hw03 by (by etrans). pose proof Hw03 as (E3 & _ & C3 & _).
  eapply (leads_bind _ _ _ (λ r d', ∃ k n, let d := w_db w in
    match submission_for d h (uid u) with
    | Some (j, s) => let s' := handed_again (Some text) (w_clock w n) s in
        r = Ok (Some ((j, s'), true)) ∧ d' = set_submissions <[j := s']> d
    | None => r = Ok (Some ((w_fresh w k, first_row hw (uid u) text (w_clock w n)), false))
        ∧ d' = handed hw (uid u) (w_fresh w k) text (w_clock w n) d
    end)); [by apply (undisturbed_untouched w)| |
    intros e t (k & n & Hl); cbv zeta in Hl; destruct (submission_for _ _ _) as [[]|]; by destruct Hl|].
  - apply leads_now_asked. intros w4 Hw4. assert (untouched w w4) as Hw04 by (by etrans). pose proof Hw04 as (E4 & _ & _ & F4).
    apply leads_fresh_asked. intros w5 Hw5. assert (untouched w w5) as Hw05 by (by etrans). pose proof Hw05 as (E5 & _).
    apply leads_atomic; [by apply (undisturbed_untouched w)|]. rewrite E5, C3, F4, <- Hid.
    rewrite (upsert_alone _ _ _ _ _ _ row); try done; try (by rewrite Hid); try (by subst hw).
    rewrite Hid. destruct (submission_for _ _ _) as [[]|] eqn:Es; exists (w_step w4), (w_step w3); cbv zeta; by rewrite Es.
  - intros landed w4 Hw4 (k & n & Hl). cbv zeta in Hl. destruct (submission_for (w_db w) h (uid u)) as [[j s]|].
    + destruct Hl as [[= ->] Hd]. apply leads_lift. simpl. eapply leads_asks; [apply asks_done|]. intros w5 (E5 & _).
      apply leads_done. exists k, n. rewrite E5, Hd. eauto.
    + destruct Hl as [[= ->] Hd]. apply leads_lift. simpl.
      eapply leads_bind; [done|by apply award_badges_alone|..]; [by intros ? ? []|]. intros [] w5 _ [_ [a' E5]].
      apply leads_done. exists k, n, a'. by rewrite E5, Hd.
Qed.

(** ** A withdrawal *)

Lemma counters_nonneg d u st : desk_ok d → totals d !! u = Some st → 0 ≤ homework_on_time st ∧ 0 ≤ homework_submitted st.
Proof.
  intros Hok Hst. destruct (co_owed _ _ _ (dk_credit d Hok) u st Hst).
  pose proof (tallied_nonneg (standing true) (submissions d) u). pose proof (tallied_nonneg (standing false) (submissions d) u). lia.
Qed.

Lemma credit_undone b st :
  0 ≤ homework_on_time st → 0 ≤ homework_submitted st →
  on_handed_in (λ n, Z.max (n - 1) 0) (λ n, Z.max (n - credit b) 0) (on_handed_in (Z.add 1) (Z.add (credit b)) st) = st.
Proof.
  intros. destruct st. unfold on_handed_in. simpl in *.
  assert (Z.max (1 + homework_submitted - 1) 0 = homework_submitted) as -> by lia.
  assert (Z.max (credit b + homework_on_time - credit b) 0 = homework_on_time) as -> by lia. done.
Qed.

(** What a first hand-in wrote. *)
Lemma first_upsert_ok i h u text p at_ d row d1 :
  upsert_tx i h u text p at_ d = Ok (Some (row, false), d1) →
  ∃ hw, homeworks d !! h = Some hw ∧ submissions d !! i = None
    ∧ row = (i, MkSubmission h u text at_ at_ 0 (Some (at_ <=? due_at hw)) None)
    ∧ d1 = set_totals (alter (on_handed_in (Z.add 1) (Z.add (credit (at_ <=? due_at hw)))) u) (set_submissions <[i := row.2]> d).
Proof.
  unfold upsert_tx. destruct (homeworks d !! h) as [hw|]; [|done]. destruct (negb _); [done|]. cbv zeta.
  destruct (submission_for d h u) as [[j s]|]; [destruct (graded_by_result s); discriminate|].
  destruct (has (submissions d) i) eqn:Hi; [done|]. destruct (negb _); [done|]. intros [= <- <-]. apply has_not in Hi. by exists hw.
Qed.

(** C19. Withdrawing gives back exactly what handing in was credited: at once, it
    undoes the hand-in altogether; later, with the row kept but ungraded, whatever
    has become of its text, its files and the deadline, the student's counters are
    what they were before, the row is gone and so are its files. *)
Theorem withdrawing_undoes_the_hand_in i h u text p at_ d row d1 :
  desk_ok d → upsert_tx i h u text p at_ d = Ok (Some (row, false), d1) →
  delete_submission_tx i h d1 = Ok (Some row.2, d)
  ∧ ∀ s d2, submissions d2 !! i = Some s → s_user s = u → counted_on_time s = counted_on_time row.2 →
      graded_by_result s = None → totals d2 !! u = totals d1 !! u →
      ∃ d3, delete_submission_tx i h d2 = Ok (Some s, d3)
        ∧ totals d3 !! u = totals d !! u ∧ submissions d3 !! i = None ∧ under {[i]} d3 = ∅.
Proof.
  intros Hok E. apply first_upsert_ok in E as (hw & Hh & Hi & -> & ->). set (b := at_ <=? due_at hw).
  pose proof (counters_nonneg d u) as Hnn.
  assert (∀ m : gmap uuid BadgeStats, m !! u = alter (on_handed_in (Z.add 1) (Z.add (credit b))) u (totals d) !! u →
    alter (on_handed_in (λ n, Z.max (n - 1) 0) (λ n, Z.max (n - credit b) 0)) u m !! u = totals d !! u) as Hback.
  { intros m Hm. rewrite lookup_alter_eq, Hm, lookup_alter_eq. destruct (totals d !! u) as [st|] eqn:Hst; [|done]. simpl.
    rewrite credit_undone; [done|by eapply Hnn..]. }
  split.
  - unfold delete_submission_tx. cbn. rewrite lookup_insert_eq. cbn. do 2 f_equal. destruct d as [sc su os ss hws asg subs rs fs ts aw].
    cbn in *. unfold set_totals, set_submissions, set_files. cbn. f_equal.
    + by rewrite delete_insert_id.
    + apply map_filter_id. intros j f Hf. simpl. intros <-. pose proof (wo_file _ _ _ _ _ (dk_work _ Hok) j f Hf) as Hin.
      cbn in Hin. apply elem_of_dom in Hin as [x Hx]. congruence.
    + apply map_eq. intros v. destruct (decide (v = u)) as [->|Hv]; [by apply Hback|]. by rewrite !lookup_alter_ne.
  - intros s d2 Hs Hu Hc Hg Ht. unfold delete_submission_tx. rewrite Hs, Hg. cbv zeta. rewrite Hc, Hu. cbn. eexists. split; [done|].
    cbn. split_and!; [by apply Hback|by rewrite lookup_delete_eq|].
    apply map_eq. intros j. rewrite lookup_empty. apply map_lookup_filter_None. right. intros f [_ Hne]%map_lookup_filter_Some.
    simpl in *. by rewrite elem_of_singleton.
Qed.

(** ** A grade *)

Lemma other_result (rs : gmap uuid HomeworkResult) j r k :
  unique r_pair (<[j := r]> rs) → unique r_pair rs → (r_pair <$> rs !! j = Some (r_pair r) ∨ rs !! j = None) → k ≠ r_pair r →
  by_pair r_pair (<[j := r]> rs) k = by_pair r_pair rs k.
Proof.
  intros Hu' Hu Hj Hk. destruct (by_pair r_pair rs k) as [[i x]|] eqn:E.
  - apply by_pair_row in E as [Hx Hp]. apply by_pair_Some; [done|]. split; [|done]. rewrite lookup_insert_ne; [done|].
    intros <-. rewrite Hx in Hj. apply Hk. destruct Hj as [Hj|]; [|done]. apply (inj Some) in Hj. by rewrite <- Hp, <- Hj.
  - apply by_pair_None. intros i x [[<- <-]|[_ Hx]]%lookup_insert_Some; [congruence|]. by apply (proj1 (by_pair_None _ _ _) E i).
Qed.

(** A grade, where the homework, the student and the grader are there, always
    lands, and is the pair's one grade from then on: it takes the place of the one
    before and moves nobody else's; it freezes the pair's submission, if there is
    one; and it is credited to the grader only when it is the pair's first. *)
Theorem grading_is_exact i h u st m by_ at_ d :
  desk_ok d → h ∈ dom (homeworks d) → u ∈ account_ids d → by_ ∈ account_ids d → results d !! i = None →
  let r := MkResult h u st m by_ at_ in
  ∃ d', grade_tx i h u st m by_ at_ d = Ok (r, d')
    ∧ (∃ j, result_for d' h u = Some (j, r)
         ∧ ∀ k s, submissions d' !! k = Some s → s_pair s = (h, u) → graded_by_result s = Some j)
    ∧ (∀ k, k ≠ (h, u) → by_pair r_pair (results d') k = by_pair r_pair (results d) k)
    ∧ totals d' = (if bool_decide (is_Some (result_for d h u)) then totals d
                   else alter (on_marks_given (Z.add 1)) by_ (totals d)).
Proof.
  intros Hok [row Hh]%elem_of_dom Hu Hb Hi r. apply has_dom in Hu, Hb.
  assert (∃ j d', grade_tx i h u st m by_ at_ d = Ok (r, d')
    ∧ results d' = <[j := r]> (results d) ∧ submissions d' = stamp_pair h u j (submissions d)
    ∧ (r_pair <$> results d !! j = Some (h, u) ∨ results d !! j = None)
    ∧ (∀ k x, results d !! k = Some x → r_pair x = (h, u) → k = j)
    ∧ totals d' = (if bool_decide (is_Some (result_for d h u)) then totals d
                   else alter (on_marks_given (Z.add 1)) by_ (totals d))) as (j & d' & E & Er & Es & Hj & Hone & Et).
  { unfold grade_tx. rewrite Hh. cbv zeta. destruct (result_for d h u) as [[j x]|] eqn:Hres.
    - rewrite Hb. apply by_pair_row in Hres as [Hj Hp]. exists j. eexists. split; [done|]. split_and!; try done.
      + left. by rewrite Hj, <- Hp.
      + intros k y Hy Hpy. apply (wo_results _ _ _ _ _ (dk_work d Hok) k j y x); congruence.
    - rewrite (proj2 (has_not _ _) Hi), Hu, Hb. exists i. eexists. split; [done|]. split_and!; try done; [by right|].
      intros k y Hy Hpy. by destruct (proj1 (by_pair_None r_pair _ _) Hres k y). }
  exists d'. split; [done|]. assert (desk_ok d') as Hok' by (by eapply grade_keeps).
  pose proof (wo_results _ _ _ _ _ (dk_work d' Hok')) as Hun. rewrite Er in Hun. split_and!; [|..|done].
  - exists j. unfold result_for. rewrite Er. split; [apply by_pair_Some; [done|]; by rewrite lookup_insert_eq|].
    intros k s Hs Hp. rewrite Es in Hs. unfold stamp_pair in Hs. rewrite lookup_fmap in Hs.
    apply fmap_Some in Hs as (s0 & Hs0 & ->). case_decide as Hc; [done|].
    destruct (graded_by_result s0) as [g|] eqn:Hg; [|by destruct Hc].
    pose proof (wo_stamp _ _ _ _ _ (dk_work d Hok) k s0 g Hs0 Hg) as (x & Hx & E')%fmap_Some.
    f_equal. apply (Hone g x); congruence.
  - intros k Hk. rewrite Er. apply other_result; [done|apply Hok|by destruct Hj; [left|right]|done].
Qed.
