(* ===== verification/HomeworkRuns.v ===== *)
(** * A week of homework

    The small school of [RosterRuns] is given a subject and an assignment; the
    theorems on homework are applied there. The last section runs what a hand-in
    meets in between, a first hand-in that is a photograph, and two graders. *)

From S2P Require Import Prelude Text Errors Effects Answers Uuid Validate Modules Badges ExamForms Appointments Tally Gates EventForms Seats Roster Events Sight HomeworkForms Homework HomeworkRoutes RosterProofs HomeworkProofs HomeworkKeeps HomeworkFacts RoleRuns RosterRuns.

Open Scope Z_scope.

#[local] Existing Instance hyphenated.

Definition head : User := MkUser 1 Admin.
Definition ms_k : User := MkUser 2 Teacher.
Definition ada : User := MkUser 3 Student.
Definition nora : User := MkUser 4 Student.

Definition algebra : uuid := 900%N.
Definition the_class : uuid := 6001%N.

(** The [k]-th request of the day, alone. *)
Definition day (k : N) (d : Desk) : World Desk := quiet d noon (λ n, 1000 * k + N.of_nat n)%N.
Definition run_homework (k : N) (q : HomeworkRequest) (d : Desk) : Desk := w_db (perform_homework q (day k d)).2.
Fixpoint run_week (k : N) (qs : list HomeworkRequest) (d : Desk) : Desk :=
  match qs with [] => d | q :: qs => run_week (k + 1) qs (run_homework k q d) end.

Lemma run_week_ok qs : ∀ k d, desk_ok d → desk_ok (run_week k qs d).
Proof.
  induction qs as [|q qs IH]; intros k d Hok; [done|]. cbn [run_week]. apply IH.
  pose proof (desk_answers q (day k d)) as Ha. unfold run_homework. destruct (perform_homework q (day k d)) as [r w'].
  destruct Ha as (? & _); [by intros n s Hs|done..].
Qed.

(** A school that has assigned nothing. *)
Definition blank (t : Tables) (courses : gmap uuid uuid) (taught : gset (uuid * uuid)) : Desk :=
  MkDesk t ((λ k, MkSubject k 0) <$> courses) taught ∅ ∅ ∅ ∅ ∅ ∅ ((λ _, no_stats) <$> users t) ∅.

Lemma blank_ok t courses taught : desk_ok (blank t courses taught).
Proof.
  assert (∀ (V : Type) (key : uuid * V → option uuid) (n : gmap uuid Z), (∀ s c, n !! s = Some c → c = 0) → tallies key n ∅) as Hcount.
  { intros V key n Hn s c Hc. rewrite (Hn s c Hc). symmetry. by apply tallied_0. }
  split; cbn.
  - split.
    + apply Hcount. intros s c Hc. rewrite !lookup_fmap in Hc. destruct (courses !! s); by simplify_eq/=.
    + intros h row Hr. by rewrite lookup_empty in Hr.
    + by intros h u ?%elem_of_empty.
  - split; intros i; intros; by simplify_map_eq.
  - split; [by rewrite dom_fmap_L|intros i s Hs; by rewrite lookup_empty in Hs|].
    intros u st (x & Hx & _)%lookup_fmap_Some. subst.
    assert (∀ b, tallied (standing b) ∅ u = 0) as E by (intros b; by apply tallied_0). by rewrite !E.
  - intros i s Hs. by rewrite lookup_empty in Hs.
Qed.

(** Algebra is one of the subjects of the ninth grade's course. *)
Definition first_desk : Desk := blank first_week {[algebra := 3000%N]} {[(6003%N, algebra)]}.

(** Due at noon plus some, for Ada and Nora. *)
Definition worksheet : CreateHomework :=
  MkCreateHomework (lit "worksheet") None (uuid_text algebra) 5000 (Some [uuid_text 4%N; uuid_text 3%N]).
Definition the_worksheet : uuid := 1012%N.
Definition assigned_desk : Desk := run_week 1 [Assign ms_k the_class worksheet] first_desk.

(** Ada hands in a text and a photograph, and is graded. *)
Definition photograph : result AppError Upload := Ok (Some (lit "page.jpg"), Some (lit "image/jpeg"), 1024).
Definition handed_desk : Desk :=
  run_week 2 [HandIn ada the_worksheet (Some (lit "four")); Attach ada the_worksheet photograph (Ok ())] assigned_desk.
Definition graded_desk : Desk :=
  run_week 4 [GradeOne ms_k the_worksheet (uuid_text 3%N) (lit "done") (Some 90)] handed_desk.

Lemma assigned_desk_ok : desk_ok assigned_desk.
Proof. apply run_week_ok, blank_ok. Qed.
Lemma handed_desk_ok : desk_ok handed_desk.
Proof. apply run_week_ok, assigned_desk_ok. Qed.
Lemma graded_desk_ok : desk_ok graded_desk.
Proof. apply run_week_ok, handed_desk_ok. Qed.

Example adas_week :
  (homework_count <$> subjects graded_desk !! algebra, map_to_list (graded_by_result <$> submissions graded_desk),
   map_to_list (file_count <$> submissions graded_desk), elements (dom (award_rows graded_desk)),
   (λ st, (homework_submitted st, homework_on_time st)) <$> totals graded_desk !! 3%N)
  = (Some 1, [(2007%N, Some 4010%N)], [(2007%N, 1)], [(3%N, "homework_submitted_1"%string)], Some (1, 1)).
Proof. by vm_compute. Qed.

(** ** The theorems at it *)

Definition adas_row : HomeworkSubmission :=
  default (MkSubmission 0%N 0%N None 0 0 0 None None) (submissions graded_desk !! 2007%N).
Definition second_thoughts : HomeworkRequest := HandIn ada the_worksheet (Some (lit "five")).

#[local] Opaque first_desk assigned_desk handed_desk graded_desk.

Lemma graded_work_stands_witness :
  let still := frozen 2007%N 4010%N ((the_worksheet, 3%N), Some (lit "four"), 1006, 1, Some true) (under {[2007%N]} graded_desk) in
  outline still anyhow anyhow (λ _, True) (perform_homework second_thoughts) anything
  ∧ (option_map (λ s, (work_in s, graded_by_result s)) (submissions graded_desk !! 2007%N)
     = Some (((the_worksheet, 3%N), Some (lit "four"), 1006, 1, Some true), Some 4010%N)).
Proof.
  split; [|by vm_compute].
  apply (graded_work_stands 2007%N 4010%N the_worksheet 3%N (Some (lit "four")) 1006 1 (Some true) (under {[2007%N]} graded_desk)
    second_thoughts). exact I.
Defined.

Lemma first_hand_in_stands_witness :
  let stands := first_handed 2007%N (the_worksheet, 3%N) 1006 (Some true) in
  outline stands anyhow anyhow (λ _, True) (perform_homework (Withdraw nora the_worksheet)) anything
  ∧ option_map handed_columns (submissions graded_desk !! 2007%N) = Some ((the_worksheet, 3%N), 1006, Some true).
Proof.
  split; [|by vm_compute].
  apply (first_hand_in_stands 2007%N the_worksheet 3%N 1006 (Some true) (Withdraw nora the_worksheet)). simpl. congruence.
Defined.

Lemma a_student_is_shown_their_own_witness :
  answers desk_ok anyhow (get_homework nora the_worksheet) (shown_to desk_ok 4%N)
  ∧ (hw_assigned <$> read_homework assigned_desk the_worksheet = Some (Some [3%N; 4%N]))
  ∧ match (get_homework nora the_worksheet (day 9 assigned_desk)).1 with Ok hw => hw_assigned hw | Err _ => None end = Some [4%N].
Proof.
  split; [|split; by vm_compute].
  exact (proj1 (a_student_is_shown_their_own desk_ok nora eq_refl the_worksheet the_class None None None None None)).
Defined.

(** Ada left out. *)
Definition the_homework : Homework :=
  default (MkHomework 0%N (MkAssignment 0%N 0%N [] None 0 0%N 0) None) (read_homework graded_desk the_worksheet).
Definition without_ada : HomeworkPatch := MkHomeworkPatch None None None None (Some (Some [4%N])).

(** Ada alone: nobody left out has work. *)
Definition ada_alone : HomeworkPatch := MkHomeworkPatch None None None None (Some (Some [3%N])).

Lemma narrowing_orphans_no_work_witness :
  (∃ blocked, update_homework_tx the_homework without_ada graded_desk = Err (would_orphan blocked) ∧ uuid_text 3%N ∈ blocked)
  ∧ (∃ hw d', update_homework_tx the_homework ada_alone graded_desk = Ok (hw, d') ∧ ∀ u, u ∈ named_in d' the_worksheet ↔ u ∈ [3%N]).
Proof.
  assert (homeworks graded_desk !! hw_id the_homework = Some (hw_row the_homework)) as Hh by (by vm_compute).
  split.
  - assert (is_Some (submission_for graded_desk (hw_id the_homework) 3%N)) as Hs by (refine (proj1 (bool_decide_eq_true _) _); by vm_compute).
    destruct (narrowing_orphans_no_work the_homework without_ada [4%N] _ graded_desk Hh eq_refl) as (blocked & _ & Hin & Hb & _).
    assert (uuid_text 3%N ∈ blocked) as Ha by (apply Hin; exists 3%N; split_and!; [by left|by intros ?%list_elem_of_singleton|done]).
    exists blocked. split; [|done]. apply Hb. intros ->. by apply not_elem_of_nil in Ha.
  - destruct (narrowing_orphans_no_work the_homework ada_alone [3%N] _ graded_desk Hh eq_refl) as (blocked & _ & Hin & _ & Hlands & Hok).
    assert (blocked = []) as Hb.
    { destruct blocked as [|k ks]; [done|]. destruct (proj1 (Hin k)) as (u & Hu & Hn & _); [by left|]. exfalso.
      assert (holders graded_desk (hw_id the_homework) = [3%N; 3%N]) as Eh by (by vm_compute).
      apply holder_for in Hu. rewrite Eh in Hu. apply Hn.
      apply elem_of_cons in Hu as [->|Hu%list_elem_of_singleton]; [left|rewrite Hu; left]. }
    destruct Hlands as (hw & d' & E); [exact Hb|apply NoDup_singleton| |done|by intros [? ?]|].
    + intros u ->%list_elem_of_singleton. refine (proj1 (bool_decide_eq_true _) _). by vm_compute.
    + exists hw, d'. split; [exact E|]. exact (proj1 (proj2 (Hok hw d' E))).
Defined.

Definition noras_answer : option str := Some (lit "four").
Lemma hand_in_is_exact_witness :
  leads (submit nora the_worksheet noras_answer) (day 9 graded_desk) (λ r d',
    match r with
    | Ok landed => existed landed = false ∧ submissions d' !! (sub_row landed).1 = Some (sub_row landed).2
    | Err _ => False
    end).
Proof.
  assert (4%N ∈ account_ids graded_desk) as Hu by (refine (proj1 (bool_decide_eq_true _) _); by vm_compute).
  assert (∀ n, submissions graded_desk !! (9000 + N.of_nat n)%N = None) as Hfresh.
  { intros n. assert (forallb (λ i, (i <? 9000)%N) (elements (dom (submissions graded_desk))) = true) as Hall by (by vm_compute).
    destruct (submissions graded_desk !! _) eqn:E; [|done]. apply elem_of_dom_2, elem_of_elements, list_elem_of_In in E.
    rewrite forallb_forall in Hall. apply Hall in E. lia. }
  eapply leads_weaken; [exact (hand_in_is_exact nora the_worksheet noras_answer (day 9 graded_desk) (λ _ _, eq_refl) graded_desk_ok Hu Hfresh)|].
  intros r d' (k & n & a & E). change (w_db (day 9 graded_desk)) with graded_desk in E. unfold hand_in_answer in E.
  assert (gate_answer the_worksheet nora graded_desk = Ok the_homework) as Eg by (by vm_compute).
  assert (open_answer the_class (school graded_desk) = Ok ()) as Eo by (by vm_compute).
  assert (result_for graded_desk the_worksheet 4%N = None) as Er by (by vm_compute).
  assert (submission_for graded_desk the_worksheet 4%N = None) as Es by (by vm_compute).
  rewrite Eg in E. change (class_course (hw_row the_homework)) with the_class in E. cbn [uid nora] in E. rewrite Eo, Er, Es in E.
  destruct E as [-> ->]. split; [done|]. cbn. by rewrite lookup_insert_eq.
Defined.

(** Nora hands in at noon and takes it back. *)
Definition noras_row : HomeworkSubmission := MkSubmission the_worksheet 4%N noras_answer 1000 1000 0 (Some true) None.
Definition nora_handed : Desk :=
  match upsert_tx 9000%N the_worksheet 4%N noras_answer false 1000 graded_desk with Ok (_, d) => d | Err _ => graded_desk end.

Lemma withdrawing_undoes_the_hand_in_witness :
  delete_submission_tx 9000%N the_worksheet nora_handed = Ok (Some noras_row, graded_desk).
Proof.
  apply (withdrawing_undoes_the_hand_in 9000%N the_worksheet 4%N noras_answer false 1000 graded_desk (9000%N, noras_row) nora_handed
    graded_desk_ok).
  unfold nora_handed. destruct (upsert_tx _ _ _ _ _ _ _) as [[o d]|e] eqn:E.
  - assert (match upsert_tx 9000%N the_worksheet 4%N noras_answer false 1000 graded_desk with
            | Ok (o, _) => o = Some ((9000%N, noras_row), false) | Err _ => False end) as Ho by (by vm_compute).
    rewrite E in Ho. exact (f_equal (λ x, Ok (x, d)) Ho).
  - assert (is_ok (upsert_tx 9000%N the_worksheet 4%N noras_answer false 1000 graded_desk) = true) as Ho by (by vm_compute).
    rewrite E in Ho. discriminate Ho.
Defined.

Lemma grading_is_exact_witness :
  ∃ d', grade_tx 9000%N the_worksheet 3%N (lit "incomplete") None 1%N 2000 graded_desk
          = Ok (MkResult the_worksheet 3%N (lit "incomplete") None 1%N 2000, d')
    ∧ totals d' = totals graded_desk.
Proof.
  assert (the_worksheet ∈ dom (homeworks graded_desk)) as Hh by (refine (proj1 (bool_decide_eq_true _) _); by vm_compute).
  assert (3%N ∈ account_ids graded_desk) as Hu by (refine (proj1 (bool_decide_eq_true _) _); by vm_compute).
  assert (1%N ∈ account_ids graded_desk) as Hb by (refine (proj1 (bool_decide_eq_true _) _); by vm_compute).
  assert (results graded_desk !! 9000%N = None) as Hi by (by vm_compute).
  destruct (grading_is_exact 9000%N the_worksheet 3%N (lit "incomplete") None 1%N 2000 graded_desk graded_desk_ok Hh Hu Hb Hi)
    as (d' & E & _ & _ & Ht). exists d'. split; [done|]. rewrite Ht.
  assert (bool_decide (is_Some (result_for graded_desk the_worksheet 3%N)) = true) as Er by (by vm_compute). by rewrite Er.
Defined.

(** ** What meets a hand-in, and who is credited *)

Definition badge_of (u : uuid) (d : Desk) : option Z * bool :=
  (homework_submitted <$> totals d !! u, bool_decide (is_Some (award_rows d !! (u, "homework_submitted_1"%string)))).

(** A first hand-in that is a photograph is counted like any other and earns no
    badge: the flag the upsert answers says that the row was already there, and the
    upload takes it for the news that it was not. *)
Theorem a_photograph_earns_no_badge :
  badge_of 4%N (run_homework 9 (HandIn nora the_worksheet noras_answer) graded_desk) = (Some 1, true)
  ∧ badge_of 4%N (run_homework 9 (Attach nora the_worksheet photograph (Ok ())) graded_desk) = (Some 1, false).
Proof. split; by vm_compute. Qed.

(** Between the read of the grade and the write the teacher grades Nora. *)
Definition graded_meanwhile (n : nat) (d : Desk) : Desk :=
  if (n =? 8)%nat then run_homework 70 (GradeOne ms_k the_worksheet (uuid_text 4%N) (lit "missing") None) d else d.

(** A first hand-in may land beside a grade and stay unfrozen: the write asks
    the row for its stamp, and where there is no row the homework's lock says
    nothing of a grade given before it was taken. *)
Theorem a_hand_in_beside_a_grade :
  let out := submit nora the_worksheet noras_answer (MkWorld graded_desk 0 graded_meanwhile noon (λ n, 9000 + N.of_nat n)%N) in
  is_ok out.1 = true
  ∧ (r_status ∘ snd <$> result_for (w_db out.2) the_worksheet 4%N) = Some (lit "missing")
  ∧ (graded_by_result ∘ snd <$> submission_for (w_db out.2) the_worksheet 4%N) = Some None.
Proof. split_and!; by vm_compute. Qed.

(** One grades, the other grades over it, and the grade is removed. *)
Definition regraded (i h u : uuid) (st : str) (a b : uuid) : tx Desk () :=
  _ ← grade_tx i h u st None a 0;
  _ ← grade_tx i h u st None b 0;
  _ ← remove_tx h u;
  mret ().
Fixpoint rounds_of (n : nat) (m : tx Desk ()) : tx Desk () :=
  match n with O => mret () | S n => _ ← m; rounds_of n m end.

Definition credited_once (a b : uuid) (ts : gmap uuid BadgeStats) : gmap uuid BadgeStats :=
  alter (on_marks_given (λ n, Z.max (n - 1) 0)) b (alter (on_marks_given (Z.add 1)) a ts).

Lemma result_landed rs i r h u :
  by_pair r_pair rs (h, u) = None → r_pair r = (h, u) → by_pair r_pair (<[i := r]> rs) (h, u) = Some (i, r).
Proof.
  intros Hn Hp. pose proof (proj1 (by_pair_None r_pair rs (h, u)) Hn) as Hno.
  destruct (by_pair r_pair (<[i := r]> rs) (h, u)) as [[j x]|] eqn:E.
  - apply by_pair_row in E as [[[<- <-]|[_ Hx]]%lookup_insert_Some Hpx]; [done|]. by destruct (Hno j x).
  - by destruct (proj1 (by_pair_None r_pair _ _) E i r); [by rewrite lookup_insert_eq|].
Qed.

Lemma regraded_runs i h u st a b d :
  h ∈ dom (homeworks d) → u ∈ account_ids d → a ∈ account_ids d → b ∈ account_ids d →
  results d !! i = None → result_for d h u = None →
  ∃ d', regraded i h u st a b d = Ok ((), d')
    ∧ homeworks d' = homeworks d ∧ school d' = school d ∧ results d' = results d ∧ totals d' = credited_once a b (totals d).
Proof.
  intros [row Hh]%elem_of_dom Hu Ha Hb Hi Hn. apply has_dom in Hu, Ha, Hb. apply has_not in Hi.
  unfold regraded, mbind, tx_bind. unfold grade_tx at 1. rewrite Hh, Hn, Hi, Hu, Ha. cbn [negb andb].
  unfold grade_tx at 1. cbn [homeworks set_totals set_submissions set_results]. rewrite Hh.
  assert (∀ x d1, r_pair x = (h, u) → results d1 = <[i := x]> (results d) → result_for d1 h u = Some (i, x)) as Hres.
  { intros x d1 Hx E. unfold result_for. rewrite E. by apply result_landed. }
  erewrite (Hres (MkResult h u st None a 0)); [|done|reflexivity]. cbn [school set_totals set_submissions set_results]. rewrite Hb. cbn [negb].
  unfold remove_tx, writes. cbn [homeworks set_totals set_submissions set_results]. rewrite Hh.
  erewrite (Hres (MkResult h u st None b 0)); [|done|cbn; by rewrite insert_insert_eq].
  eexists. split; [reflexivity|]. cbn. split_and!; try done.
  rewrite insert_insert_eq. apply delete_insert_id. by apply has_not.
Qed.

(** C37. Two graders can mint credit: a regrade moves the grade's name and not its
    credit, so taking the grade back refunds the second grader for what the first
    was credited. However many rounds are played, no grade is left and the first
    grader's counter has gone up by one for each. *)
Theorem regrading_mints_credit i h u st a b d :
  a ≠ b → h ∈ dom (homeworks d) → u ∈ account_ids d → a ∈ account_ids d → b ∈ account_ids d →
  results d !! i = None → result_for d h u = None → ∀ n, ∃ d',
    rounds_of n (regraded i h u st a b) d = Ok ((), d')
    ∧ results d' = results d
    ∧ marks_given <$> totals d' !! a = (λ st, marks_given st + Z.of_nat n) <$> totals d !! a.
Proof.
  intros Hab Hh Hu Ha Hb Hi Hn n. revert d Hh Hu Ha Hb Hi Hn. induction n as [|n IH]; intros d Hh Hu Ha Hb Hi Hn.
  - exists d. split_and!; [done..|]. destruct (totals d !! a); simpl; [|done]. by rewrite Z.add_0_r.
  - destruct (regraded_runs i h u st a b d Hh Hu Ha Hb Hi Hn) as (d1 & E & Eh & Es & Er & Et). unfold account_ids in *.
    destruct (IH d1) as (d' & E' & Er' & Em); [by rewrite ?Eh, ?Es, ?Er..|unfold result_for; by rewrite Er|].
    exists d'. cbn [rounds_of]. unfold mbind, tx_bind. rewrite E, E', Er'. split_and!; [done..|]. rewrite Em, Et.
    unfold credited_once. rewrite lookup_alter_ne by done. rewrite lookup_alter_eq. destruct (totals d !! a); [|done].
    cbn. f_equal. lia.
Qed.

Lemma regrading_mints_credit_witness :
  ∃ d', rounds_of 3 (regraded 9000%N the_worksheet 4%N (lit "done") 2%N 1%N) graded_desk = Ok ((), d')
    ∧ results d' = results graded_desk
    ∧ marks_given <$> totals d' !! 2%N = (λ st, marks_given st + 3) <$> totals graded_desk !! 2%N.
Proof.
  assert (the_worksheet ∈ dom (homeworks graded_desk)) as Hh by (refine (proj1 (bool_decide_eq_true _) _); by vm_compute).
  assert (4%N ∈ account_ids graded_desk) as Hu by (refine (proj1 (bool_decide_eq_true _) _); by vm_compute).
  assert (2%N ∈ account_ids graded_desk) as Ha by (refine (proj1 (bool_decide_eq_true _) _); by vm_compute).
  assert (1%N ∈ account_ids graded_desk) as Hb by (refine (proj1 (bool_decide_eq_true _) _); by vm_compute).
  assert (results graded_desk !! 9000%N = None) as Hi by (by vm_compute).
  assert (result_for graded_desk the_worksheet 4%N = None) as Hn by (by vm_compute).
  exact (regrading_mints_credit 9000%N the_worksheet 4%N (lit "done") 2%N 1%N graded_desk ltac:(done) Hh Hu Ha Hb Hi Hn 3).
Defined.
