(* ===== verification/Pool.v ===== *)
(** * The question pool ([src/db/pool_question.rs], [src/db/solution.rs],
    [src/db/pool_question_image.rs], [src/db/solution_image.rs],
    [src/service/pool_question.rs], [src/service/solution.rs])

    Questions students ask, pending until a teacher approves them, the solutions
    anybody offers on an approved one, a photograph of either, and the blobs of the
    photographs on the disk. The accounts are the school's. *)

From S2P Require Import Prelude Text Errors Effects Uuid Validate Modules Badges Gates Roster HomeworkForms.

Open Scope Z_scope.

Definition MAX_POOL_QUESTION_TITLE_LEN : Z := 200.
Definition MAX_POOL_QUESTION_BODY_LEN : Z := 10000.
Definition MAX_SOLUTION_BODY_LEN : Z := 10000.
Definition STATUS_PENDING : str := lit "pending".
Definition STATUS_APPROVED : str := lit "approved".
Definition POOL_QUESTION_STATUSES : list str := [STATUS_PENDING; STATUS_APPROVED].

(** ** Values ([src/domain/pool_question.rs], [src/domain/solution.rs]) *)

Definition pool_title_try_new (value : str) : result ValidationError str :=
  _ ← validate_required "title" value MAX_POOL_QUESTION_TITLE_LEN; Ok value.
Definition pool_body_try_new (value : str) : result ValidationError str :=
  _ ← validate_required "body" value MAX_POOL_QUESTION_BODY_LEN; Ok value.
Definition solution_body_try_new (value : str) : result ValidationError str :=
  _ ← validate_required "body" value MAX_SOLUTION_BODY_LEN; Ok value.

Record PoolQuestion := MkPoolQuestion {
  asker : uuid;
  q_title : str;
  q_body : str;
  q_status : str;
  asked_at : Z;
  approved_by : option uuid;
}.
Definition is_approved (q : PoolQuestion) : bool := bool_decide (q_status q = STATUS_APPROVED).

Record Solution := MkSolution { so_question : uuid; author : uuid; so_body : str; offered_at : Z }.

(** A row of [pool_question_image] or [solution_image]. *)
Record Photo := MkPhoto { ph_file : str; ph_content_type : str; ph_size : Z }.

(** ** Tables *)

Record Hall := MkHall {
  hall_school : Tables;
  pool : gmap uuid PoolQuestion;
  photos : gmap uuid Photo;
  offers : gmap uuid Solution;
  offer_photos : gmap uuid Photo;
  tallied_for : gmap uuid BadgeStats;
  hall_awards : gmap (uuid * string) Z;
  (** The files on the disk, by name. *)
  blobs : gset str;
}.
Definition set_pool f (d : Hall) : Hall :=
  MkHall (hall_school d) (f (pool d)) (photos d) (offers d) (offer_photos d) (tallied_for d) (hall_awards d) (blobs d).
Definition set_photos f (d : Hall) : Hall :=
  MkHall (hall_school d) (pool d) (f (photos d)) (offers d) (offer_photos d) (tallied_for d) (hall_awards d) (blobs d).
Definition set_offers f (d : Hall) : Hall :=
  MkHall (hall_school d) (pool d) (photos d) (f (offers d)) (offer_photos d) (tallied_for d) (hall_awards d) (blobs d).
Definition set_offer_photos f (d : Hall) : Hall :=
  MkHall (hall_school d) (pool d) (photos d) (offers d) (f (offer_photos d)) (tallied_for d) (hall_awards d) (blobs d).
Definition set_tallied f (d : Hall) : Hall :=
  MkHall (hall_school d) (pool d) (photos d) (offers d) (offer_photos d) (f (tallied_for d)) (hall_awards d) (blobs d).
Definition set_blobs f (d : Hall) : Hall :=
  MkHall (hall_school d) (pool d) (photos d) (offers d) (offer_photos d) (tallied_for d) (hall_awards d) (f (blobs d)).

#[export] Instance hall_is_school : School Hall := hall_school.
#[export] Instance hall_badges : BadgeStore Hall := {
  stats_of d u := tallied_for d !! u;
  awards := hall_awards;
  set_awards a d := MkHall (hall_school d) (pool d) (photos d) (offers d) (offer_photos d) (tallied_for d) a (blobs d);
  awards_set _ _ := eq_refl;
  stats_of_set _ _ _ := eq_refl;
}.

Definition on_approvals (f : Z → Z) (s : BadgeStats) : BadgeStats :=
  MkStats (homework_submitted s) (homework_on_time s) (exam_sat s) (pomodoro_finished s) (pomodoro_focus_ms s)
    (marks_given s) (lessons_held s) (f (pool_approved s)) (pool_published s) (lessons_attended s) (high_mark s) (study_streak s).
Definition on_published (f : Z → Z) (s : BadgeStats) : BadgeStats :=
  MkStats (homework_submitted s) (homework_on_time s) (exam_sat s) (pomodoro_finished s) (pomodoro_focus_ms s)
    (marks_given s) (lessons_held s) (pool_approved s) (f (pool_published s)) (lessons_attended s) (high_mark s) (study_streak s).

Definition there (d : Hall) (u : uuid) : bool := has (users (hall_school d)) u.

(** ** Questions ([src/db/pool_question.rs]) *)

Definition insert_question_tx (i : uuid) (q : PoolQuestion) : tx Hall PoolQuestion := λ d,
  if has (pool d) i then Err unique_violation else
  if negb (there d (asker q)) then Err fk_violation else
  Ok (q, set_pool <[i := q]> d).

(** [asked_at DESC, id DESC]. *)
Definition newest_question (p q : uuid * PoolQuestion) : Prop :=
  asked_at q.2 < asked_at p.2 ∨ (asked_at p.2 = asked_at q.2 ∧ (q.1 ≤ p.1)%N).
#[export] Instance newest_question_dec : RelDecision newest_question.
Proof. intros p q. unfold newest_question. apply _. Defined.

(** The gate and the filter, as the clauses of one [WHERE]. *)
Definition in_view (viewer : option uuid) (status : option str) (q : PoolQuestion) : bool :=
  match viewer with Some u => bool_decide (q_status q = STATUS_APPROVED) || bool_decide (asker q = u) | None => true end
  && match status with Some s => bool_decide (q_status q = s) | None => true end.
Definition list_pool (viewer : option uuid) (status : option str) (d : Hall) : list (uuid * PoolQuestion) :=
  merge_sort newest_question (filter (λ p : uuid * PoolQuestion, in_view viewer status p.2 = true) (map_to_list (pool d))).

Definition approved_now (by_ : uuid) (q : PoolQuestion) : PoolQuestion :=
  MkPoolQuestion (asker q) (q_title q) (q_body q) STATUS_APPROVED (asked_at q) (Some by_).

(** [approve]: the status is the guard; one's own question credits nobody. *)
Definition approve_tx (i by_ : uuid) : tx Hall (option PoolQuestion) := λ d,
  match pool d !! i with
  | Some q =>
      if negb (bool_decide (q_status q = STATUS_PENDING)) then Ok (None, d) else
      if negb (there d by_) then Err fk_violation else
      let q' := approved_now by_ q in
      let d := set_pool <[i := q']> d in
      if bool_decide (asker q = by_) then Ok (Some q', d) else
      Ok (Some q', set_tallied (alter (on_published (Z.add 1)) (asker q) ∘ alter (on_approvals (Z.add 1)) by_) d)
  | None => Ok (None, d)
  end.

(** [set_image] and [clear_image]: [None] is a question gone or no longer pending. *)
Definition set_image_tx (i : uuid) (p : Photo) : tx Hall (option (option str)) := writes (λ d,
  match pool d !! i with
  | Some q =>
      if negb (bool_decide (q_status q = STATUS_PENDING)) then (None, d) else
      (Some (ph_file <$> photos d !! i), set_photos <[i := p]> d)
  | None => (None, d)
  end).
Definition clear_image_tx (i : uuid) : tx Hall (option (option str)) := writes (λ d,
  match pool d !! i with
  | Some q =>
      if negb (bool_decide (q_status q = STATUS_PENDING)) then (None, d) else
      (Some (ph_file <$> photos d !! i), set_photos (delete i) d)
  | None => (None, d)
  end).

(** The solutions of a question, and the photographs under them. *)
Definition offers_on (i : uuid) (d : Hall) : gset uuid := dom (filter (λ p : uuid * Solution, so_question p.2 = i) (offers d)).
Definition photos_under (is_ : gset uuid) (ps : gmap uuid Photo) : list str :=
  (λ p : uuid * Photo, ph_file p.2) <$> map_to_list (filter (λ p : uuid * Photo, p.1 ∈ is_) ps).
Definition opt_list {A} (x : option A) : list A := match x with Some a => [a] | None => [] end.

(** [delete]: children first; answers the blobs the rows named. *)
Definition delete_question_tx (i : uuid) : tx Hall (option (list str)) := writes (λ d,
  let os := offers_on i d in
  let files := photos_under os (offer_photos d) ++ opt_list (ph_file <$> photos d !! i) in
  let swept := set_pool (delete i) (set_photos (delete i) (set_offers (filter (λ p, so_question p.2 ≠ i))
    (set_offer_photos (filter (λ p, p.1 ∉ os)) d))) in
  (if has (pool d) i then Some files else None, swept)).

(** [service::pool_question::approve]. *)
Definition already_approved : AppError := Conflict "the question is already approved".
Definition approve (i by_ : uuid) : io Hall PoolQuestion :=
  done_ ← atomic (approve_tx i by_);
  match done_ with
  | Some q => mret q
  | None =>
      row ← atomic (gets (λ d, pool d !! i));
      if bool_decide (row = None) then raise NotFound else raise already_approved
  end.

(** ** Solutions ([src/db/solution.rs]) *)

(** The question's foreign key is the 404. *)
Definition insert_solution_tx (i : uuid) (s : Solution) : tx Hall Solution := λ d,
  if has (offers d) i then Err unique_violation else
  if negb (has (pool d) (so_question s)) then Err NotFound else
  if negb (there d (author s)) then Err fk_violation else
  Ok (s, set_offers <[i := s]> d).

Definition solution_of (d : Hall) (i q : uuid) : option Solution :=
  match offers d !! i with Some s => if bool_decide (so_question s = q) then Some s else None | None => None end.

(** [offered_at ASC, id ASC]. *)
Definition oldest_offer (p q : uuid * Solution) : Prop :=
  offered_at p.2 < offered_at q.2 ∨ (offered_at p.2 = offered_at q.2 ∧ (p.1 ≤ q.1)%N).
#[export] Instance oldest_offer_dec : RelDecision oldest_offer.
Proof. intros p q. unfold oldest_offer. apply _. Defined.
Definition list_offers (q : uuid) (d : Hall) : list (uuid * Solution) :=
  merge_sort oldest_offer (filter (λ p : uuid * Solution, so_question p.2 = q) (map_to_list (offers d))).

(** [counts_for]: one entry per question that has any. *)
Definition offer_count (d : Hall) (q : uuid) : Z := Z.of_nat (size (offers_on q d)).

Definition with_body (body : str) (s : Solution) : Solution := MkSolution (so_question s) (author s) body (offered_at s).
Definition set_body_tx (i : uuid) (body : str) : tx Hall (option Solution) := writes (λ d,
  (with_body body <$> offers d !! i, set_offers (alter (with_body body) i) d)).

Definition set_offer_image_tx (i : uuid) (p : Photo) : tx Hall (option (option str)) := writes (λ d,
  if has (offers d) i then (Some (ph_file <$> offer_photos d !! i), set_offer_photos <[i := p]> d) else (None, d)).
Definition clear_offer_image_tx (i : uuid) : tx Hall (option (option str)) := writes (λ d,
  if has (offers d) i then (Some (ph_file <$> offer_photos d !! i), set_offer_photos (delete i) d) else (None, d)).

Definition delete_solution_tx (i : uuid) : tx Hall (option (option str)) := writes (λ d,
  (if has (offers d) i then Some (ph_file <$> offer_photos d !! i) else None,
   set_offers (delete i) (set_offer_photos (delete i) d))).

(** ** The disk ([src/web/image.rs]) *)

Definition put_blob (f : str) : io Hall () := atomic (writes (λ d, ((), set_blobs ({[f]} ∪.) d))).
(** Best effort: a failure is logged. *)
Definition remove_blob (f : str) : io Hall () := atomic (writes (λ d, ((), set_blobs (.∖ {[f]}) d))).

(** [store_blob]: [written] is what the disk said. *)
Definition store_blob {A} (written : result AppError ()) (f : str) (write_row : io Hall (A * option str)) : io Hall A :=
  _ ← lift written;
  _ ← put_blob f;
  r ← attempt write_row;
  match r with
  | Ok (stored, replaced) =>
      _ ← (match replaced with Some old => remove_blob old | None => mret () end);
      mret stored
  | Err e => _ ← remove_blob f; raise e
  end.

(** * The requests ([src/web/questions.rs], [src/web/image.rs])

    What each route checks before it writes and what it shows. What a multipart
    body parsed to, and what the disk said of a blob, are arguments. *)

Definition QUESTION_IMAGE_CONTENT_TYPES : list str :=
  [lit "image/png"; lit "image/jpeg"; lit "image/webp"; lit "image/gif"].

(** [image_content_type]. *)
Definition image_content_type (raw : str) : result AppError str :=
  ct ← map_err Validation (file_content_type_try_new raw);
  if negb (existsb (λ x, bool_decide (x = ct)) QUESTION_IMAGE_CONTENT_TYPES)
  then Err (Validation (Invalid "content_type" "must be image/png, image/jpeg, image/webp, or image/gif")) else Ok ct.

(** What [read_upload] took out of the body: the declared type and the size. *)
Definition read_image_upload (body : result AppError (option str * Z)) : result AppError (str * Z) :=
  '(declared, size) ← body;
  ct ← image_content_type (default [] declared);
  Ok (ct, size).

(** ** Who may see, who may change *)

Definition visible (q : PoolQuestion) (u : User) : bool :=
  is_approved q || at_least (get_role u) Teacher || bool_decide (asker q = uid u).
Definition ensure_visible (q : PoolQuestion) (u : User) : result AppError () :=
  if visible q u then Ok () else Err NotFound.

Definition frozen_content : AppError := Conflict "the question is approved — its content is frozen".
Definition ensure_asker_editable (q : PoolQuestion) (u : User) : result AppError () :=
  _ ← ensure_visible q u;
  if negb (bool_decide (asker q = uid u)) then Err (Forbidden "only the asker may change the question's image") else
  if is_approved q then Err frozen_content else Ok ().

Definition question_or_404 (i : uuid) : io Hall PoolQuestion :=
  row ← atomic (gets (λ d, pool d !! i));
  lift (ok_or row NotFound).

(** ** What a question is shown as *)

(** A person of a response: the account, if it is still there. *)
Definition PersonRef : Type := uuid * option Account.
Record PoolQuestionResponse := MkPoolQuestionResponse {
  qr_id : uuid;
  qr_row : PoolQuestion;
  qr_asker : PersonRef;
  qr_approved_by : option PersonRef;
  qr_image : option Photo;
  qr_solution_count : Z;
}.
Record SolutionResponse := MkSolutionResponse { sr_id : uuid; sr_row : Solution; sr_author : PersonRef; sr_image : option Photo }.

(** [person_map]: the accounts behind the ids, in one query. *)
Definition person_map (us : list uuid) : io Hall (gmap uuid Account) :=
  atomic (gets (λ d, filter (λ p : uuid * Account, p.1 ∈ us) (users (hall_school d)))).
Definition resolve (people : gmap uuid Account) (u : uuid) : PersonRef := (u, people !! u).

Definition question_responses (qs : list (uuid * PoolQuestion)) : io Hall (list PoolQuestionResponse) :=
  people ← person_map (mjoin ((λ p : uuid * PoolQuestion, asker p.2 :: opt_list (approved_by p.2)) <$> qs));
  counts ← (if bool_decide (qs = []) then mret [] else
    atomic (gets (λ d, (λ p : uuid * PoolQuestion, offer_count d p.1) <$> qs)));
  images ← (if bool_decide (qs = []) then mret ∅ else
    atomic (gets (λ d, filter (λ p : uuid * Photo, p.1 ∈ qs.*1) (photos d))));
  mret (zip_with (λ (p : uuid * PoolQuestion) n,
    MkPoolQuestionResponse p.1 p.2 (resolve people (asker p.2)) (resolve people <$> approved_by p.2) (images !! p.1) n) qs counts).

(** A slice of one. *)
Definition question_response (i : uuid) (q : PoolQuestion) (failed : string) : io Hall PoolQuestionResponse :=
  rs ← question_responses [(i, q)];
  lift (ok_or (list.head rs) (Internal (lit failed))).

(** ** Questions *)

Definition ask_question (u : User) (title body : str) : io Hall PoolQuestionResponse :=
  if negb (bool_decide (get_role u = Student)) then raise (Forbidden "only students ask pool questions") else
  title ← checked (pool_title_try_new title);
  body ← checked (pool_body_try_new body);
  i ← fresh;
  at_ ← now;
  q ← atomic (insert_question_tx i (MkPoolQuestion (uid u) title body STATUS_PENDING at_ None));
  question_response i q "failed to render the created question".

Definition bad_status : AppError := Validation (Invalid "status" "must be one of: pending, approved").
Definition viewer_of (u : User) : option uuid := if at_least (get_role u) Teacher then None else Some (uid u).
Definition list_questions (u : User) (status : option str) (limit offset : option Z)
    : io Hall (list PoolQuestionResponse * Z) :=
  _ ← lift (require_student u);
  '(limit, offset) ← lift (resolve_page limit offset);
  let status := trim <$> status in
  if match status with Some s => negb (existsb (λ x, bool_decide (x = s)) POOL_QUESTION_STATUSES) | None => false end
  then raise bad_status else
  '(qs, total) ← paged_list (list_pool (viewer_of u) status) limit offset;
  items ← question_responses qs;
  mret (items, total).

Definition get_question (u : User) (i : uuid) : io Hall PoolQuestionResponse :=
  _ ← lift (require_student u);
  q ← question_or_404 i;
  _ ← lift (ensure_visible q u);
  question_response i q "failed to render the question".

(** A failed sync is logged and forgotten. *)
Definition sync_quietly (u : uuid) : io Hall () := _ ← attempt (sync u); mret ().

Definition approve_question (u : User) (i : uuid) : io Hall PoolQuestionResponse :=
  _ ← lift (require_teacher u);
  q ← approve i (uid u);
  _ ← for_each [uid u; asker q] sync_quietly;
  question_response i q "failed to render the approved question".

Definition delete_question (u : User) (i : uuid) : io Hall () :=
  _ ← lift (require_student u);
  q ← question_or_404 i;
  _ ← lift (ensure_visible q u);
  if negb (bool_decide (asker q = uid u)) && negb (at_least (get_role u) Teacher)
  then raise (Forbidden "only the asker or a teacher+ may delete a question") else
  removed ← atomic (delete_question_tx i);
  files ← lift (ok_or removed NotFound);
  for_each files remove_blob.

(** ** The question's photograph *)

Definition no_longer_pending : AppError := Conflict "the question is no longer pending".

Section Named.
Context `{UuidText}.

Definition upload_image (u : User) (i : uuid) (body : result AppError (option str * Z)) (written : result AppError ())
    : io Hall (str * Z) :=
  _ ← lift (require_student u);
  q ← question_or_404 i;
  _ ← lift (ensure_asker_editable q u);
  '(ct, size) ← lift (read_image_upload body);
  name ← fresh;
  let f := uuid_text name in
  _ ← store_blob written f (
    landed ← atomic (set_image_tx i (MkPhoto f ct size));
    replaced ← lift (ok_or landed no_longer_pending);
    mret ((), replaced));
  mret (ct, size).

Definition get_image (u : User) (i : uuid) : io Hall Photo :=
  _ ← lift (require_student u);
  q ← question_or_404 i;
  _ ← lift (ensure_visible q u);
  p ← atomic (gets (λ d, photos d !! i));
  lift (ok_or p NotFound).

Definition delete_image (u : User) (i : uuid) : io Hall () :=
  _ ← lift (require_student u);
  q ← question_or_404 i;
  _ ← lift (ensure_asker_editable q u);
  cleared ← atomic (clear_image_tx i);
  match cleared with
  | Some (Some f) => remove_blob f
  | Some None => raise NotFound
  | None => raise no_longer_pending
  end.

(** ** Solutions *)

Definition visible_solution (u : User) (i : uuid) (sid : str) : io Hall (uuid * Solution) :=
  q ← question_or_404 i;
  _ ← lift (ensure_visible q u);
  s ← atomic (gets (λ d, solution_of d (uuid_from_key sid) i));
  s ← lift (ok_or s NotFound);
  mret (uuid_from_key sid, s).
Definition author_solution (u : User) (i : uuid) (sid : str) : io Hall (uuid * Solution) :=
  '(j, s) ← visible_solution u i sid;
  if negb (bool_decide (author s = uid u)) then raise (Forbidden "only the author may edit a solution") else
  mret (j, s).

Definition not_open_yet : AppError := Conflict "the question is not approved yet — solutions open with the pool".
Definition offer_solution (u : User) (i : uuid) (body : str) : io Hall SolutionResponse :=
  _ ← lift (require_student u);
  q ← question_or_404 i;
  _ ← lift (ensure_visible q u);
  if negb (is_approved q) then raise not_open_yet else
  body ← checked (solution_body_try_new body);
  j ← fresh;
  at_ ← now;
  s ← atomic (insert_solution_tx j (MkSolution i (uid u) body at_));
  people ← person_map [uid u];
  mret (MkSolutionResponse j s (resolve people (author s)) None).

Definition list_solutions (u : User) (i : uuid) (limit offset : option Z) : io Hall (list SolutionResponse * Z) :=
  _ ← lift (require_student u);
  '(limit, offset) ← lift (resolve_page limit offset);
  q ← question_or_404 i;
  _ ← lift (ensure_visible q u);
  '(os, total) ← paged_list (list_offers i) limit offset;
  people ← person_map ((λ p : uuid * Solution, author p.2) <$> os);
  images ← (if bool_decide (os = []) then mret ∅ else
    atomic (gets (λ d, filter (λ p : uuid * Photo, p.1 ∈ os.*1) (offer_photos d))));
  mret ((λ p : uuid * Solution, MkSolutionResponse p.1 p.2 (resolve people (author p.2)) (images !! p.1)) <$> os, total).

Definition delete_solution (u : User) (i : uuid) (sid : str) : io Hall () :=
  _ ← lift (require_student u);
  '(j, s) ← visible_solution u i sid;
  if negb (bool_decide (author s = uid u)) && negb (at_least (get_role u) Teacher)
  then raise (Forbidden "only the author or a teacher+ may delete a solution") else
  removed ← atomic (delete_solution_tx j);
  image ← lift (ok_or removed NotFound);
  match image with Some f => remove_blob f | None => mret () end.

Definition edit_solution (u : User) (i : uuid) (sid body : str) : io Hall SolutionResponse :=
  _ ← lift (require_student u);
  '(j, s) ← author_solution u i sid;
  body ← checked (solution_body_try_new body);
  updated ← atomic (set_body_tx j body);
  s ← lift (ok_or updated NotFound);
  people ← person_map [uid u];
  image ← atomic (gets (λ d, offer_photos d !! j));
  mret (MkSolutionResponse j s (resolve people (author s)) image).

Definition upload_solution_image (u : User) (i : uuid) (sid : str) (body : result AppError (option str * Z))
    (written : result AppError ()) : io Hall (str * Z) :=
  _ ← lift (require_student u);
  '(j, s) ← author_solution u i sid;
  '(ct, size) ← lift (read_image_upload body);
  name ← fresh;
  let f := uuid_text name in
  _ ← store_blob written f (
    landed ← atomic (set_offer_image_tx j (MkPhoto f ct size));
    replaced ← lift (ok_or landed NotFound);
    mret ((), replaced));
  mret (ct, size).

Definition get_solution_image (u : User) (i : uuid) (sid : str) : io Hall Photo :=
  _ ← lift (require_student u);
  '(j, s) ← visible_solution u i sid;
  p ← atomic (gets (λ d, offer_photos d !! j));
  lift (ok_or p NotFound).

Definition delete_solution_image (u : User) (i : uuid) (sid : str) : io Hall () :=
  _ ← lift (require_student u);
  '(j, s) ← author_solution u i sid;
  cleared ← atomic (clear_offer_image_tx j);
  match cleared with
  | Some (Some f) => remove_blob f
  | _ => raise NotFound
  end.
End Named.
