(* ===== verification/PoolKeeps.v ===== *)
(** * What the question pool promises

    The invariant of the tables: a question is worded within the limits and is
    pending with no approver or approved with one, every row points at rows that
    are there, and an account was credited for the questions it has in the pool by
    somebody else's approval. Then one walk over the routes of [Pool] on behalf of
    one caller; its instances are that invariant, what an approval settles, the
    question and the solution nobody else may touch, and the counter one's own
    requests never move. *)

From S2P Require Import Prelude Text Errors Effects Answers Uuid Validate Modules Badges Tally Gates Roster HomeworkForms Pool.

Open Scope Z_scope.

(** ** The invariant *)

Definition people (d : Hall) : gset uuid := dom (users (hall_school d)).

Definition standing_ok (q : PoolQuestion) : Prop :=
  (q_status q = STATUS_PENDING ∧ approved_by q = None) ∨ (q_status q = STATUS_APPROVED ∧ is_Some (approved_by q)).
Record well_asked (q : PoolQuestion) : Prop := {
  wa_title : pool_title_try_new (q_title q) = Ok (q_title q);
  wa_body : pool_body_try_new (q_body q) = Ok (q_body q);
  wa_standing : standing_ok q;
}.
Definition well_offered (s : Solution) : Prop := solution_body_try_new (so_body s) = Ok (so_body s).

(** The approver, and the asker, of a question one person asked and another approved. *)
Definition judged (q : PoolQuestion) : option (uuid * uuid) :=
  match approved_by q with Some by_ => if decide (asker q = by_) then None else Some (by_, asker q) | None => None end.
Definition approval_of (p : uuid * PoolQuestion) : option uuid := fst <$> judged p.2.
Definition publication_of (p : uuid * PoolQuestion) : option uuid := snd <$> judged p.2.

Record rows_stand (us : gset uuid) (qs : gmap uuid PoolQuestion) (ps : gmap uuid Photo)
    (os : gmap uuid Solution) (ops : gmap uuid Photo) : Prop := {
  rs_question : ∀ i q, qs !! i = Some q → well_asked q ∧ asker q ∈ us ∧ ∀ u, approved_by q = Some u → u ∈ us;
  rs_offer : ∀ j s, os !! j = Some s → well_offered s ∧ so_question s ∈ dom qs ∧ author s ∈ us;
  rs_photo : dom ps ⊆ dom qs;
  rs_offer_photo : dom ops ⊆ dom os;
}.
Record judged_ok (us : gset uuid) (ts : gmap uuid BadgeStats) (qs : gmap uuid PoolQuestion) : Prop := {
  jo_people : dom ts = us;
  jo_owed : ∀ u st, ts !! u = Some st →
    tallied approval_of qs u ≤ pool_approved st ∧ tallied publication_of qs u ≤ pool_published st;
}.
Record hall_ok (d : Hall) : Prop := {
  ho_rows : rows_stand (people d) (pool d) (photos d) (offers d) (offer_photos d);
  ho_judged : judged_ok (people d) (tallied_for d) (pool d);
}.

Lemma there_people d u : there d u = true ↔ u ∈ people d.
Proof. unfold there, has, people. by rewrite bool_decide_eq_true, elem_of_dom. Qed.

(** ** Validators answer the text they were given *)

Lemma pool_title_same t t' : pool_title_try_new t = Ok t' → t' = t.
Proof. unfold pool_title_try_new. destruct (validate_required _ _ _); [by intros [= ->]|done]. Qed.
Lemma pool_body_same t t' : pool_body_try_new t = Ok t' → t' = t.
Proof. unfold pool_body_try_new. destruct (validate_required _ _ _); [by intros [= ->]|done]. Qed.
Lemma solution_body_same t t' : solution_body_try_new t = Ok t' → t' = t.
Proof. unfold solution_body_try_new. destruct (validate_required _ _ _); [by intros [= ->]|done]. Qed.

(** ** Every statement keeps it *)

Lemma question_put d i q q' :
  hall_ok d → pool d !! i = Some q → well_asked q' → asker q' ∈ people d → (∀ u, approved_by q' = Some u → u ∈ people d) →
  rows_stand (people d) (<[i := q']> (pool d)) (photos d) (offers d) (offer_photos d).
Proof.
  intros [[Hq Ho Hp Hop] _] Hi Hw Ha Hb. assert (dom (<[i := q']> (pool d)) = dom (pool d)) as E.
  { rewrite dom_insert_L. apply elem_of_dom_2 in Hi. set_solver. }
  split; [|intros j s Hs; rewrite E; by eapply Ho|by rewrite E|done]. intros j x [[<- <-]|[_ Hx]]%lookup_insert_Some; [done|by eapply Hq].
Qed.

Definition asked (u : uuid) (title body : str) (at_ : Z) : PoolQuestion := MkPoolQuestion u title body STATUS_PENDING at_ None.

Lemma insert_question_keeps i u title body at_ :
  pool_title_try_new title = Ok title → pool_body_try_new body = Ok body →
  tx_keeps hall_ok (insert_question_tx i (asked u title body at_)).
Proof.
  intros Ht Hb d r d' [[Hq Ho Hp Hop] [Hus Hj]] E. unfold insert_question_tx in E.
  destruct (has (pool d) i) eqn:Hi; [done|]. destruct (there d _) eqn:Hu; [|done]. injection E as _ <-.
  apply has_not in Hi. apply there_people in Hu. split; split; cbn.
  - intros j x [[<- <-]|[_ Hx]]%lookup_insert_Some; [|by eapply Hq]. split_and!; [|done..]. split; [done..|by left].
  - intros j s Hs. rewrite dom_insert_L. destruct (Ho j s Hs) as (? & ? & ?). split_and!; [done|set_solver|done].
  - rewrite dom_insert_L. set_solver.
  - done.
  - exact Hus.
  - intros v st Hst. rewrite !tallied_insert by done. cbn. rewrite !Z.add_0_r. by apply Hj.
Qed.

Lemma dom_credited (f g : BadgeStats → BadgeStats) u v (ts : gmap uuid BadgeStats) : dom (alter f u (alter g v ts)) = dom ts.
Proof. by rewrite !dom_alter_L. Qed.

Lemma keys_pending (i : uuid) q : approved_by q = None → approval_of (i, q) = None ∧ publication_of (i, q) = None.
Proof. unfold approval_of, publication_of, judged. simpl. by intros ->. Qed.
Lemma keys_judged (i : uuid) q by_ :
  asker q ≠ by_ → approval_of (i, approved_now by_ q) = Some by_ ∧ publication_of (i, approved_now by_ q) = Some (asker q).
Proof. intros Hne. unfold approval_of, publication_of, judged. simpl. by rewrite !decide_False. Qed.
Lemma keys_own (i : uuid) q : approval_of (i, approved_now (asker q) q) = None ∧ publication_of (i, approved_now (asker q) q) = None.
Proof. unfold approval_of, publication_of, judged. simpl. by rewrite !decide_True. Qed.

(** What an approval owes the two accounts. *)
Lemma judged_credit us ts qs i q by_ :
  judged_ok us ts qs → qs !! i = Some q → approved_by q = None → asker q ≠ by_ →
  judged_ok us (alter (on_published (Z.add 1)) (asker q) (alter (on_approvals (Z.add 1)) by_ ts)) (<[i := approved_now by_ q]> qs).
Proof.
  intros [Hus Hj] Hi Hn Hne. split; [by rewrite dom_credited|]. intros u st Hst.
  rewrite !(tallied_update _ qs i q) by done.
  destruct (keys_pending i q Hn) as [-> ->]. destruct (keys_judged i q by_ Hne) as [-> ->].
  rewrite !(decide_False (P := None = _)) by done.
  rewrite lookup_alter in Hst. case_decide as Ha.
  - subst u. rewrite lookup_alter_ne in Hst by done. apply fmap_Some in Hst as (s0 & Hs0 & ->).
    specialize (Hj _ _ Hs0) as [? ?]. rewrite decide_False, decide_True by congruence. simpl. lia.
  - rewrite (decide_False (P := Some (asker q) = _)) by congruence. rewrite lookup_alter in Hst. case_decide as Hb.
    + subst u. apply fmap_Some in Hst as (s0 & Hs0 & ->). specialize (Hj _ _ Hs0) as [? ?]. rewrite decide_True by done. simpl. lia.
    + specialize (Hj _ _ Hst) as [? ?]. rewrite decide_False by congruence. lia.
Qed.
Lemma judged_own us ts qs i q :
  judged_ok us ts qs → qs !! i = Some q → approved_by q = None → judged_ok us ts (<[i := approved_now (asker q) q]> qs).
Proof.
  intros [Hus Hj] Hi Hn. split; [done|]. intros u st Hst.
  destruct (keys_pending i q Hn) as [E1 E2]. destruct (keys_own i q) as [E3 E4].
  rewrite !(tallied_same _ qs i q) by congruence. by apply Hj.
Qed.

Lemma pending_unjudged q : standing_ok q → q_status q = STATUS_PENDING → approved_by q = None.
Proof. intros [[]|[E _]]; [done|]. rewrite E. by intros ?%(f_equal (@length _)). Qed.

Lemma approve_pool_keeps i by_ : tx_keeps hall_ok (approve_tx i by_).
Proof.
  intros d r d' Hok E. pose proof Hok as [Hr Hj]. unfold approve_tx in E.
  destruct (pool d !! i) as [q|] eqn:Hi; [|by injection E as _ <-].
  case_bool_decide as Hp; [|by injection E as _ <-]. cbn [negb] in E.
  destruct (there d by_) eqn:Hb; [|done]. cbn [negb] in E. apply there_people in Hb.
  destruct (rs_question _ _ _ _ _ Hr i q Hi) as ([Ht Hbo Hs] & Ha & _). pose proof (pending_unjudged q Hs Hp) as Hn.
  assert (well_asked (approved_now by_ q)) as Hw by (split; [done..|right; by eexists]).
  assert (∀ u, approved_by (approved_now by_ q) = Some u → u ∈ people d) as Hbp by (by intros u [= <-]).
  pose proof (question_put d i q _ Hok Hi Hw Ha Hbp) as Hput.
  case_bool_decide as Hown; injection E as _ <-; split; try exact Hput; cbn.
  - rewrite <- Hown. by apply judged_own.
  - by apply judged_credit.
Qed.

(** A hall with other photographs, solutions or files, under the same questions. *)
Lemma hall_rows d d' :
  hall_ok d → hall_school d' = hall_school d → pool d' = pool d → tallied_for d' = tallied_for d →
  rows_stand (people d) (pool d) (photos d') (offers d') (offer_photos d') → hall_ok d'.
Proof.
  intros [_ Hj] Es Ep Et Hr. split; unfold people in *; by rewrite Es, Ep, ?Et.
Qed.

Lemma set_image_keeps i p : tx_keeps hall_ok (set_image_tx i p).
Proof.
  intros d r d' Hok E. unfold set_image_tx, writes in E. destruct (pool d !! i) as [q|] eqn:Hi; [|by injection E as _ <-].
  destruct (negb _); [by injection E as _ <-|]. injection E as _ <-. apply elem_of_dom_2 in Hi.
  eapply hall_rows; [done..|]. destruct (ho_rows d Hok) as [? ? ? ?]. split; [done..| |done].
  cbn. rewrite dom_insert_L. set_solver.
Qed.
Lemma clear_image_keeps i : tx_keeps hall_ok (clear_image_tx i).
Proof.
  intros d r d' Hok E. unfold clear_image_tx, writes in E. destruct (pool d !! i) as [q|]; [|by injection E as _ <-].
  destruct (negb _); [by injection E as _ <-|]. injection E as _ <-.
  eapply hall_rows; [done..|]. destruct (ho_rows d Hok) as [? ? ? ?]. split; [done..| |done].
  cbn. rewrite dom_delete_L. set_solver.
Qed.

(** Deleting questions only lowers what is owed. *)
Lemma judged_delete us ts qs i : judged_ok us ts qs → judged_ok us ts (delete i qs).
Proof.
  intros [Hus Hj]. split; [done|]. intros u st Hst. specialize (Hj u st Hst).
  destruct (qs !! i) as [q|] eqn:Hi; [|by rewrite delete_id].
  rewrite !(tallied_delete _ qs i q) by done. repeat case_decide; lia.
Qed.

Lemma delete_question_keeps i : tx_keeps hall_ok (delete_question_tx i).
Proof.
  intros d r d' [Hr Hj] E. unfold delete_question_tx, writes in E. cbv zeta in E. injection E as _ <-.
  split; [|by apply judged_delete]. cbn. destruct Hr as [Hq Ho Hp Hop]. split.
  - intros j q [_ Hq']%lookup_delete_Some. by eapply Hq.
  - intros j s [Hs Hne]%map_lookup_filter_Some. simpl in Hne. destruct (Ho j s Hs) as (? & ? & ?).
    split_and!; [done| |done]. rewrite dom_delete_L. set_solver.
  - rewrite !dom_delete_L. set_solver.
  - intros j Hj'. apply elem_of_dom in Hj' as [p [Hp' Hn]%map_lookup_filter_Some]. simpl in Hn.
    assert (j ∈ dom (offers d)) as [s Hs]%elem_of_dom by (apply Hop; by apply elem_of_dom_2 in Hp').
    apply elem_of_dom. exists s. apply map_lookup_filter_Some. split; [done|]. simpl. intros Hi.
    apply Hn, elem_of_dom. exists s. by apply map_lookup_filter_Some.
Qed.

Lemma insert_solution_keeps j i u body at_ :
  solution_body_try_new body = Ok body → tx_keeps hall_ok (insert_solution_tx j (MkSolution i u body at_)).
Proof.
  intros Hb d r d' Hok E. unfold insert_solution_tx in E. destruct (has (offers d) j) eqn:Hj; [done|].
  destruct (has (pool d) _) eqn:Hq; [|done]. destruct (there d _) eqn:Hu; [|done]. injection E as _ <-.
  apply has_dom in Hq. apply there_people in Hu. eapply hall_rows; [done..|].
  destruct (ho_rows d Hok) as [? Ho ? ?]. split; [done| |done|]; cbn.
  - by intros k s [[<- <-]|[_ Hs]]%lookup_insert_Some; [|eapply Ho].
  - rewrite dom_insert_L. set_solver.
Qed.
Lemma set_body_keeps j body : solution_body_try_new body = Ok body → tx_keeps hall_ok (set_body_tx j body).
Proof.
  intros Hb d r d' Hok E. unfold set_body_tx, writes in E. injection E as _ <-. eapply hall_rows; [done..|].
  destruct (ho_rows d Hok) as [? Ho ? ?]. split; [done| |done|]; cbn; [|by rewrite dom_alter_L].
  intros k s Hs. apply lookup_alter_Some in Hs as [(<- & s0 & Hs0 & ->)|[_ Hs]]; [|by eapply Ho].
  destruct (Ho j s0 Hs0) as (_ & ? & ?). done.
Qed.
Lemma set_offer_image_keeps j p : tx_keeps hall_ok (set_offer_image_tx j p).
Proof.
  intros d r d' Hok E. unfold set_offer_image_tx, writes in E. destruct (has (offers d) j) eqn:Hj; [|by injection E as _ <-].
  injection E as _ <-. apply has_dom in Hj. eapply hall_rows; [done..|].
  destruct (ho_rows d Hok) as [? ? ? ?]. split; [done..|]. cbn. rewrite dom_insert_L. set_solver.
Qed.
Lemma clear_offer_image_keeps j : tx_keeps hall_ok (clear_offer_image_tx j).
Proof.
  intros d r d' Hok E. unfold clear_offer_image_tx, writes in E. destruct (has (offers d) j); [|by injection E as _ <-].
  injection E as _ <-. eapply hall_rows; [done..|].
  destruct (ho_rows d Hok) as [? ? ? ?]. split; [done..|]. cbn. rewrite dom_delete_L. set_solver.
Qed.
Lemma delete_solution_keeps j : tx_keeps hall_ok (delete_solution_tx j).
Proof.
  intros d r d' Hok E. unfold delete_solution_tx, writes in E. injection E as _ <-. eapply hall_rows; [done..|].
  destruct (ho_rows d Hok) as [? Ho ? ?]. split; [done| |done|]; cbn.
  - intros k s [_ Hs]%lookup_delete_Some. by eapply Ho.
  - rewrite !dom_delete_L. set_solver.
Qed.
Lemma blobs_keeps f : tx_keeps hall_ok (writes (λ d, ((), set_blobs f d))).
Proof. intros d r d' Hok E. injection E as _ <-. eapply hall_rows; [done..|]. exact (ho_rows d Hok). Qed.
Lemma award_hall_keeps u b at_ : tx_keeps hall_ok (award u b at_).
Proof.
  intros d r d' Hok E. unfold award in E. destruct (awards d !! (u, b)); [by injection E as _ <-|].
  destruct (stats_of d u); [|done]. injection E as _ <-. eapply hall_rows; [done..|]. exact (ho_rows d Hok).
Qed.

(** ** The requests *)

Inductive PoolRequest : Type :=
  | Ask (title body : str)
  | ReadPool (status : option str) (limit offset : option Z)
  | ReadQuestion (i : uuid)
  | Approve (i : uuid)
  | DropQuestion (i : uuid)
  | UploadImage (i : uuid) (body : result AppError (option str * Z)) (written : result AppError ())
  | ReadImage (i : uuid)
  | DropImage (i : uuid)
  | Offer (i : uuid) (body : str)
  | ReadOffers (i : uuid) (limit offset : option Z)
  | DropOffer (i : uuid) (sid : str)
  | EditOffer (i : uuid) (sid body : str)
  | UploadOfferImage (i : uuid) (sid : str) (body : result AppError (option str * Z)) (written : result AppError ())
  | ReadOfferImage (i : uuid) (sid : str)
  | DropOfferImage (i : uuid) (sid : str).

Definition perform_pool `{UuidText} (u : User) (r : PoolRequest) : io Hall () :=
  match r with
  | Ask t b => silent (ask_question u t b)
  | ReadPool s l o => silent (list_questions u s l o)
  | ReadQuestion i => silent (get_question u i)
  | Approve i => silent (approve_question u i)
  | DropQuestion i => delete_question u i
  | UploadImage i b w => silent (upload_image u i b w)
  | ReadImage i => silent (get_image u i)
  | DropImage i => delete_image u i
  | Offer i b => silent (offer_solution u i b)
  | ReadOffers i l o => silent (list_solutions u i l o)
  | DropOffer i s => delete_solution u i s
  | EditOffer i s b => silent (edit_solution u i s b)
  | UploadOfferImage i s b w => silent (upload_solution_image u i s b w)
  | ReadOfferImage i s => silent (get_solution_image u i s)
  | DropOfferImage i s => delete_solution_image u i s
  end.

(** ** The walk *)

Section Walk.
Context `{UuidText}.
Context (I : Hall → Prop) (R : Hall → Hall → Prop) `{!PreOrder R} (u : User).
Abbreviation teaches := (at_least (get_role u) Teacher = true).

(** A row the caller found while the others were keeping [I]. *)
Definition found (i : uuid) (q : PoolQuestion) : Prop := ∃ d, I d ∧ pool d !! i = Some q.
Definition found_offer (j : uuid) (s : Solution) : Prop := ∃ d, I d ∧ offers d !! j = Some s.

(** The questions this request may take out of the pool. *)
Context (drops : uuid → Prop).
Context (Hask : ∀ i t b at_, pool_title_try_new t = Ok t → pool_body_try_new b = Ok b →
  tx_moves I R (insert_question_tx i (asked (uid u) t b at_))).
Context (Happrove : ∀ i, teaches → tx_moves I R (approve_tx i (uid u))).
Context (Hdrop : ∀ i q, found i q → asker q = uid u ∨ teaches → drops i → tx_moves I R (delete_question_tx i)).
Context (Himage : ∀ i q p, found i q → asker q = uid u → is_approved q = false → tx_moves I R (set_image_tx i p)).
Context (Hclear : ∀ i q, found i q → asker q = uid u → is_approved q = false → tx_moves I R (clear_image_tx i)).
Context (Hoffer : ∀ j i b at_, solution_body_try_new b = Ok b → tx_moves I R (insert_solution_tx j (MkSolution i (uid u) b at_))).
Context (Hbody : ∀ j s b, found_offer j s → author s = uid u → solution_body_try_new b = Ok b → tx_moves I R (set_body_tx j b)).
Context (Hoimage : ∀ j s p, found_offer j s → author s = uid u → tx_moves I R (set_offer_image_tx j p)).
Context (Hoclear : ∀ j s, found_offer j s → author s = uid u → tx_moves I R (clear_offer_image_tx j)).
Context (Hodrop : ∀ j s, found_offer j s → author s = uid u ∨ teaches → tx_moves I R (delete_solution_tx j)).
Context (Hblobs : ∀ f, tx_moves I R (writes (λ d, ((), set_blobs f d)))).
Context (Haward : ∀ v b at_, tx_moves I R (award v b at_)).
Set Default Proof Using "All".

Definition within (r : PoolRequest) : Prop := match r with DropQuestion i => drops i | _ => True end.

Abbreviation fine m := (answers I R m (λ _, True)).

Lemma move_tx {A} (m : tx Hall A) : tx_moves I R m → fine (atomic m).
Proof. apply answers_atomic, _. Qed.
Lemma move_then {A B} (m : io Hall A) (k : A → io Hall B) φ ψ :
  answers I R m φ → (∀ a, φ a → answers I R (k a) ψ) → answers I R (m ≫= k) ψ.
Proof. apply answers_bind, _. Qed.
Lemma question_answers i : answers I R (question_or_404 i) (found i).
Proof.
  unfold question_or_404. eapply (move_then _ _ (λ row, ∀ q, row = Some q → found i q)).
  { apply answers_read; [apply _|]. intros d HI q Hq. by exists d. }
  intros row Hrow. eapply answers_weaken; [apply _|apply answers_lift; apply _|]. intros q. destruct row; [|done].
  intros [= ->]. by apply Hrow.
Qed.
Lemma visible_solution_answers i sid : answers I R (visible_solution u i sid) (λ p, found_offer p.1 p.2).
Proof.
  unfold visible_solution. eapply move_then; [apply question_answers|]. intros q _.
  eapply move_then; [apply answers_lift; apply _|]. intros _ _.
  eapply (move_then _ _ (λ row, ∀ s, row = Some s → found_offer (uuid_from_key sid) s)).
  { apply answers_read; [apply _|]. intros d HI s Hs. exists d. split; [done|]. unfold solution_of in Hs.
    destruct (offers d !! _); [|done]. by case_bool_decide. }
  intros row Hrow. eapply move_then; [apply answers_lift; apply _|]. intros s Hs. answer_walk. apply Hrow.
  destruct row; [by injection Hs as ->|done].
Qed.
Lemma author_solution_answers i sid :
  answers I R (author_solution u i sid) (λ p, found_offer p.1 p.2 ∧ author p.2 = uid u).
Proof.
  unfold author_solution. eapply move_then; [apply visible_solution_answers|]. intros [j s] Hf. simpl in Hf.
  destruct (negb _) eqn:E; answer_walk. by apply negb_false_iff, bool_decide_eq_true in E.
Qed.

Lemma remove_blob_fine f : fine (remove_blob f).
Proof. by apply move_tx. Qed.
Lemma put_blob_fine f : fine (put_blob f).
Proof. by apply move_tx. Qed.
Lemma store_blob_fine {A} written f (row : io Hall (A * option str)) : fine row → fine (store_blob written f row).
Proof.
  intros Hr. unfold store_blob. answer_walk. eapply move_then; [apply put_blob_fine|]. intros _ _.
  eapply move_then; [by eapply answers_attempt; [apply _|]|]. intros [[x [old|]]|e] _.
  - eapply move_then; [apply remove_blob_fine|]. by answer_walk.
  - by answer_walk.
  - eapply move_then; [apply remove_blob_fine|]. by answer_walk.
Qed.

Lemma responses_fine qs : fine (question_responses qs).
Proof.
  unfold question_responses, person_map. answer_walk.
  eapply (move_then _ _ (λ _, True)); [case_bool_decide; [by answer_walk|apply answers_gets, _]|]. intros counts _.
  eapply (move_then _ _ (λ _, True)); [case_bool_decide; [by answer_walk|apply answers_gets, _]|]. by answer_walk.
Qed.
Lemma response_fine i q e : fine (question_response i q e).
Proof. unfold question_response. eapply move_then; [apply responses_fine|]. by answer_walk. Qed.

Lemma sync_quietly_fine v : fine (sync_quietly v).
Proof.
  unfold sync_quietly. eapply move_then; [eapply (answers_attempt _ _ _ (λ _, True))|by answer_walk].
  unfold sync, load. answer_walk. apply answers_for_each; [apply _|]. intros b. by apply move_tx.
Qed.

(** ** Questions *)

Lemma ask_fine t b : fine (ask_question u t b).
Proof.
  unfold ask_question. answer_walk. eapply move_then; [apply checked_answers; apply _|]. intros t' Ht.
  eapply move_then; [apply checked_answers; apply _|]. intros b' Hb. pose proof (pool_title_same _ _ Ht) as ->.
  pose proof (pool_body_same _ _ Hb) as ->. answer_walk. eapply move_then; [by apply move_tx, Hask|]. intros q _. apply response_fine.
Qed.
Lemma list_pool_fine s l o : fine (list_questions u s l o).
Proof.
  unfold list_questions, paged_list. answer_walk.
  all: eapply (move_then _ _ (λ _, True)); [answer_walk|]; answer_walk.
  all: eapply move_then; [apply responses_fine|]; by answer_walk.
Qed.
Lemma get_fine i : fine (get_question u i).
Proof. unfold get_question. answer_walk. eapply move_then; [apply question_answers|]. answer_walk. apply response_fine. Qed.

Lemma approve_fine i : fine (approve_question u i).
Proof.
  unfold approve_question, approve. eapply move_then; [apply answers_lift; apply _|]. intros [] Ht.
  assert teaches as Ht' by (revert Ht; clear; unfold require_teacher; by destruct (at_least _ _)).
  eapply (move_then _ _ (λ _, True)).
  { eapply move_then; [by apply move_tx, Happrove|]. by answer_walk. }
  intros q _. eapply move_then; [apply (answers_for_each I R), sync_quietly_fine|]. intros _ _. apply response_fine.
Qed.
Lemma drop_question_fine i : drops i → fine (delete_question u i).
Proof.
  intros Hd. unfold delete_question. answer_walk. eapply move_then; [apply question_answers|]. intros q Hq. answer_walk.
  rename select (negb _ && _ = false) into Hmay.
  assert (asker q = uid u ∨ teaches) as Hm.
  { apply andb_false_iff in Hmay as [E|E]; apply negb_false_iff in E; [left; by apply bool_decide_eq_true in E|by right]. }
  eapply (move_then _ _ (λ _, True)); [by apply move_tx, (Hdrop i q)|]. answer_walk.
  apply (answers_for_each I R), remove_blob_fine.
Qed.

Lemma editable_answers i q : found i q →
  answers I R (lift (ensure_asker_editable q u)) (λ _, asker q = uid u ∧ is_approved q = false).
Proof.
  intros Hq. eapply answers_weaken; [apply _|apply answers_lift; apply _|]. intros [] E. unfold ensure_asker_editable in E.
  destruct (ensure_visible q u); [|done]. simpl in E. case_bool_decide; [|done]. simpl in E. by destruct (is_approved q).
Qed.
Lemma upload_image_fine i body written : fine (upload_image u i body written).
Proof.
  unfold upload_image. answer_walk. eapply move_then; [apply question_answers|]. intros q Hq.
  eapply move_then; [by apply (editable_answers i)|]. intros _ [Ha Hp]. answer_walk.
  eapply (move_then _ _ (λ _, True)); [|by answer_walk]. apply store_blob_fine.
  eapply (move_then _ _ (λ _, True)); [by apply move_tx, (Himage i q)|]. by answer_walk.
Qed.
Lemma get_image_fine i : fine (get_image u i).
Proof. unfold get_image. answer_walk. eapply move_then; [apply question_answers|]. by answer_walk. Qed.
Lemma drop_image_fine i : fine (delete_image u i).
Proof.
  unfold delete_image. answer_walk. eapply move_then; [apply question_answers|]. intros q Hq.
  eapply move_then; [by apply (editable_answers i)|]. intros _ [Ha Hp].
  eapply (move_then _ _ (λ _, True)); [by apply move_tx, (Hclear i q)|]. answer_walk. apply remove_blob_fine.
Qed.

(** ** Solutions *)

Lemma offer_fine i b : fine (offer_solution u i b).
Proof.
  unfold offer_solution, person_map. answer_walk. eapply move_then; [apply question_answers|]. answer_walk.
  eapply move_then; [apply checked_answers; apply _|]. intros b' Hb. pose proof (solution_body_same _ _ Hb) as ->. answer_walk.
  eapply (move_then _ _ (λ _, True)); [by apply move_tx, Hoffer|]. by answer_walk.
Qed.
Lemma list_offers_fine i l o : fine (list_solutions u i l o).
Proof.
  unfold list_solutions, paged_list, person_map. answer_walk. eapply move_then; [apply question_answers|]. answer_walk.
  eapply (move_then _ _ (λ _, True)); [answer_walk|]. answer_walk.
  eapply (move_then _ _ (λ _, True)); [|by answer_walk]. case_bool_decide; [by answer_walk|apply answers_gets, _].
Qed.
Lemma drop_offer_fine i sid : fine (delete_solution u i sid).
Proof.
  unfold delete_solution. answer_walk. eapply move_then; [apply visible_solution_answers|]. intros [j s] Hf. simpl in Hf.
  answer_walk. rename select (negb _ && _ = false) into Hmay.
  assert (author s = uid u ∨ teaches) as Hm.
  { apply andb_false_iff in Hmay as [E|E]; apply negb_false_iff in E; [left; by apply bool_decide_eq_true in E|by right]. }
  eapply (move_then _ _ (λ _, True)); [by apply move_tx, (Hodrop j s)|]. answer_walk. apply remove_blob_fine.
Qed.
Lemma edit_offer_fine i sid b : fine (edit_solution u i sid b).
Proof.
  unfold edit_solution, person_map. answer_walk. eapply move_then; [apply author_solution_answers|]. intros [j s] [Hf Ha]. simpl in *.
  eapply move_then; [apply checked_answers; apply _|]. intros b' Hb. pose proof (solution_body_same _ _ Hb) as ->.
  eapply (move_then _ _ (λ _, True)); [by apply move_tx, (Hbody j s)|]. by answer_walk.
Qed.
Lemma upload_offer_fine i sid body written : fine (upload_solution_image u i sid body written).
Proof.
  unfold upload_solution_image. answer_walk. eapply move_then; [apply author_solution_answers|]. intros [j s] [Hf Ha]. simpl in *.
  answer_walk. eapply (move_then _ _ (λ _, True)); [|by answer_walk]. apply store_blob_fine.
  eapply (move_then _ _ (λ _, True)); [by apply move_tx, (Hoimage j s)|]. by answer_walk.
Qed.
Lemma get_offer_image_fine i sid : fine (get_solution_image u i sid).
Proof. unfold get_solution_image. answer_walk. eapply move_then; [apply visible_solution_answers|]. by answer_walk. Qed.
Lemma drop_offer_image_fine i sid : fine (delete_solution_image u i sid).
Proof.
  unfold delete_solution_image. answer_walk. eapply move_then; [apply author_solution_answers|]. intros [j s] [Hf Ha]. simpl in *.
  eapply (move_then _ _ (λ _, True)); [by apply move_tx, (Hoclear j s)|]. answer_walk. apply remove_blob_fine.
Qed.

Lemma perform_pool_fine r : within r → fine (perform_pool u r).
Proof.
  intros Hr. destruct r; simpl in *; unfold silent;
    first [by eauto using drop_question_fine, drop_image_fine, drop_offer_fine, drop_offer_image_fine
      |eapply (move_then _ _ (λ _, True)); [|by answer_walk]].
  all: eauto using ask_fine, list_pool_fine, get_fine, approve_fine, upload_image_fine, get_image_fine, offer_fine, list_offers_fine,
    edit_offer_fine, upload_offer_fine, get_offer_image_fine.
Qed.
End Walk.

(** When the others may do anything that keeps [I]. *)
Lemma kept_moves {A} (I : Hall → Prop) (m : tx Hall A) : tx_keeps I m → tx_moves I anyhow m.
Proof. intros Hm d r d' HI E. split; [by eapply Hm|done]. Qed.

(** ** What each statement leaves of the tables *)

Ltac settle E :=
  cbv zeta in E; repeat (match type of E with
  | context [match ?x with _ => _ end] => destruct x eqn:?; try discriminate E
  end); injection E as _ <-.

Definition landed (d d' : Hall) (P : Prop) (d1 : Hall) : Prop := d' = d ∨ (P ∧ d' = d1).

Lemma insert_question_ok i q d r d' : insert_question_tx i q d = Ok (r, d') → pool d !! i = None ∧ d' = set_pool <[i := q]> d.
Proof. intros E. unfold insert_question_tx in E. settle E. split; [by apply has_not|done]. Qed.
Lemma set_image_ok i p d r d' :
  set_image_tx i p d = Ok (r, d') → landed d d' (∃ q, pool d !! i = Some q ∧ q_status q = STATUS_PENDING) (set_photos <[i := p]> d).
Proof.
  intros E. unfold set_image_tx, writes in E. settle E; [by left| |by left]. right. split; [|done]. eexists. split; [done|].
  rename select (negb _ = false) into Hs. by apply negb_false_iff, bool_decide_eq_true in Hs.
Qed.
Lemma clear_image_ok i d r d' :
  clear_image_tx i d = Ok (r, d') → landed d d' (∃ q, pool d !! i = Some q ∧ q_status q = STATUS_PENDING) (set_photos (delete i) d).
Proof.
  intros E. unfold clear_image_tx, writes in E. settle E; [by left| |by left]. right. split; [|done]. eexists. split; [done|].
  rename select (negb _ = false) into Hs. by apply negb_false_iff, bool_decide_eq_true in Hs.
Qed.
Lemma set_offer_image_ok j p d r d' :
  set_offer_image_tx j p d = Ok (r, d') → landed d d' True (set_offer_photos <[j := p]> d).
Proof. intros E. unfold set_offer_image_tx, writes in E. settle E; [by right|by left]. Qed.
Lemma clear_offer_image_ok j d r d' :
  clear_offer_image_tx j d = Ok (r, d') → landed d d' True (set_offer_photos (delete j) d).
Proof. intros E. unfold clear_offer_image_tx, writes in E. settle E; [by right|by left]. Qed.
Lemma insert_solution_ok j s d r d' : insert_solution_tx j s d = Ok (r, d') → offers d !! j = None ∧ d' = set_offers <[j := s]> d.
Proof. intros E. unfold insert_solution_tx in E. settle E. split; [by apply has_not|done]. Qed.
Lemma award_hall_ok u b at_ (d : Hall) r d' : award u b at_ d = Ok (r, d') → ∃ a, d' = set_awards a d.
Proof.
  intros E. unfold award in E. destruct (awards d !! (u, b)); [injection E as _ <-; exists (hall_awards d); by destruct d|].
  destruct (stats_of d u); [|done]. injection E as _ <-. by eexists.
Qed.

(** The counters an approval moves, and the question it stamps. *)
Definition credited (by_ : uuid) (q : PoolQuestion) (ts : gmap uuid BadgeStats) : gmap uuid BadgeStats :=
  if bool_decide (asker q = by_) then ts else alter (on_published (Z.add 1)) (asker q) (alter (on_approvals (Z.add 1)) by_ ts).
Definition published (i by_ : uuid) (q : PoolQuestion) (d : Hall) : Hall :=
  set_tallied (credited by_ q) (set_pool <[i := approved_now by_ q]> d).

Lemma approve_ok i by_ d r d' :
  approve_tx i by_ d = Ok (r, d') →
  (r = None ∧ d' = d ∧ ∀ q, pool d !! i = Some q → q_status q ≠ STATUS_PENDING)
  ∨ ∃ q, pool d !! i = Some q ∧ q_status q = STATUS_PENDING ∧ r = Some (approved_now by_ q) ∧ d' = published i by_ q d.
Proof.
  intros E. unfold approve_tx in E. destruct (pool d !! i) as [q|] eqn:Hi; [|left; injection E as <- <-; by split_and!].
  case_bool_decide as Hp; simpl in E; [|left; injection E as <- <-; split_and!; [done..|by intros q' [= <-]]].
  destruct (there d by_); [|done]. simpl in E. right. exists q. split; [done|]. split; [done|]. unfold published, credited.
  case_bool_decide; injection E as <- <-; [split; [done|by destruct d]|done].
Qed.

(** Which side of the tables a statement leaves alone. *)
Definition question_side (d : Hall) : gmap uuid PoolQuestion * gmap uuid Photo := (pool d, photos d).
Definition offer_side (d : Hall) : gmap uuid Solution * gmap uuid Photo := (offers d, offer_photos d).
Definition passes {A X} (view : Hall → X) (m : tx Hall A) : Prop := ∀ d r d', m d = Ok (r, d') → view d' = view d.

Lemma passes_keeps {A X} (view : Hall → X) (I : Hall → Prop) (m : tx Hall A) :
  (∀ d d', I d → view d' = view d → I d') → passes view m → tx_keeps I m.
Proof. intros HI Hm d r d' Hd E. by eapply HI, Hm. Qed.

Lemma blobs_passes {X} (view : Hall → X) f :
  (∀ d, view (set_blobs f d) = view d) → passes view (writes (λ d, ((), set_blobs f d))).
Proof. intros Hv d r d' E. injection E as _ <-. apply Hv. Qed.

Section Passes.
Context (i j u : uuid).

Lemma insert_question_passes q : passes offer_side (insert_question_tx i q) ∧ passes tallied_for (insert_question_tx i q).
Proof. by split; intros d r d' [_ ->]%insert_question_ok. Qed.
Lemma approve_passes : passes offer_side (approve_tx i u).
Proof. by intros d r d' [(_ & -> & _)|(x & _ & _ & _ & ->)]%approve_ok. Qed.
Lemma set_image_passes p : passes offer_side (set_image_tx i p) ∧ passes tallied_for (set_image_tx i p).
Proof. by split; intros d r d' [->|[_ ->]]%set_image_ok. Qed.
Lemma clear_image_passes : passes offer_side (clear_image_tx i) ∧ passes tallied_for (clear_image_tx i).
Proof. by split; intros d r d' [->|[_ ->]]%clear_image_ok. Qed.
Lemma delete_question_passes : passes tallied_for (delete_question_tx i).
Proof. intros d r d' E. by injection E as _ <-. Qed.
Lemma insert_solution_passes s : passes question_side (insert_solution_tx j s) ∧ passes tallied_for (insert_solution_tx j s).
Proof. by split; intros d r d' [_ ->]%insert_solution_ok. Qed.
Lemma set_body_passes b : passes question_side (set_body_tx j b) ∧ passes tallied_for (set_body_tx j b).
Proof. split; intros d r d' E; by injection E as _ <-. Qed.
Lemma set_offer_image_passes p : passes question_side (set_offer_image_tx j p) ∧ passes tallied_for (set_offer_image_tx j p).
Proof. by split; intros d r d' [->|[_ ->]]%set_offer_image_ok. Qed.
Lemma clear_offer_image_passes : passes question_side (clear_offer_image_tx j) ∧ passes tallied_for (clear_offer_image_tx j).
Proof. by split; intros d r d' [->|[_ ->]]%clear_offer_image_ok. Qed.
Lemma delete_solution_passes : passes question_side (delete_solution_tx j) ∧ passes tallied_for (delete_solution_tx j).
Proof. split; intros d r d' E; by injection E as _ <-. Qed.
Lemma award_passes b at_ : let m := award (S := Hall) u b at_ in passes question_side m ∧ passes offer_side m ∧ passes tallied_for m.
Proof. by split_and!; intros d r d' [a ->]%award_hall_ok. Qed.
End Passes.

Create HintDb pool.
#[export] Hint Resolve insert_question_passes approve_passes set_image_passes clear_image_passes delete_question_passes
  insert_solution_passes set_body_passes set_offer_image_passes clear_offer_image_passes delete_solution_passes
  award_passes : pool.

(** A statement that passes a side by keeps what is said of that side alone. *)
Ltac pass view HI := apply (passes_keeps view); [exact HI|first [by auto with pool|by apply insert_question_passes
  |by apply set_image_passes|by apply clear_image_passes|by apply insert_solution_passes|by apply set_body_passes
  |by apply set_offer_image_passes|by apply clear_offer_image_passes|by apply delete_solution_passes
  |by apply blobs_passes|by apply award_passes]].

(** ** A question nobody may touch *)

Definition stands (i : uuid) (q : PoolQuestion) (ph : option Photo) (d : Hall) : Prop :=
  pool d !! i = Some q ∧ photos d !! i = ph.

Section Stands.
Context (i : uuid) (q : PoolQuestion) (ph : option Photo).
Abbreviation still := (stands i q ph).

Lemma stands_side d d' : still d → question_side d' = question_side d → still d'.
Proof. intros [? ?] [= Ep Eh]. split; congruence. Qed.
Lemma insert_question_stands j q' : tx_keeps still (insert_question_tx j q').
Proof.
  intros d r d' [Hi Hp] [Hj ->]%insert_question_ok. split; [|done]. cbn. rewrite lookup_insert_ne; [done|]. congruence.
Qed.
Lemma approve_stands j by_ : j ≠ i ∨ is_approved q = true → tx_keeps still (approve_tx j by_).
Proof.
  intros Hc d r d' [Hi Hp] [(_ & -> & _)|(x & Hx & Hs & _ & ->)]%approve_ok; [done|]. split; [|done]. cbn.
  destruct Hc as [Hj|Ha]; [by rewrite lookup_insert_ne|]. rewrite lookup_insert_ne; [done|]. intros ->.
  apply bool_decide_eq_true in Ha. assert (x = q) as -> by congruence. rewrite Ha in Hs. discriminate Hs.
Qed.
Lemma delete_question_stands j : j ≠ i → tx_keeps still (delete_question_tx j).
Proof. intros Hj d r d' [Hi Hp] E. injection E as _ <-. split; cbn; by rewrite lookup_delete_ne. Qed.
Lemma set_image_stands j p : j ≠ i → tx_keeps still (set_image_tx j p).
Proof. intros Hj d r d' [Hi Hp] [->|[_ ->]]%set_image_ok; [done|]. split; [done|]. cbn. by rewrite lookup_insert_ne. Qed.
Lemma clear_image_stands j : j ≠ i → tx_keeps still (clear_image_tx j).
Proof. intros Hj d r d' [Hi Hp] [->|[_ ->]]%clear_image_ok; [done|]. split; [done|]. cbn. by rewrite lookup_delete_ne. Qed.
End Stands.

(** What an approval settles: the row and the photograph, while the question is there. *)
Definition lasting (i : uuid) (d d' : Hall) : Prop :=
  ∀ q, pool d !! i = Some q → is_approved q = true → pool d' !! i = Some q ∧ photos d' !! i = photos d !! i.
#[global] Instance lasting_pre i : PreOrder (lasting i).
Proof.
  split; [by intros d q Hq Ha|]. intros d1 d2 d3 H12 H23 q Hq Ha. destruct (H12 q Hq Ha) as [Hq2 Hp2].
  destruct (H23 q Hq2 Ha) as [Hq3 Hp3]. split; congruence.
Qed.

(** Any state at all. *)
Definition whatever (_ : Hall) : Prop := True.

Section Lasting.
Context (i : uuid).

Lemma lasting_moves {A} (m : tx Hall A) :
  (∀ d r d' q, pool d !! i = Some q → is_approved q = true → m d = Ok (r, d') → stands i q (photos d !! i) d') →
  tx_moves whatever (lasting i) m.
Proof. intros Hm d r d' _ E. split; [done|]. intros q Hq Ha. by eapply Hm. Qed.
Lemma stands_lasting {A} (m : tx Hall A) : (∀ q ph, tx_keeps (stands i q ph) m) → tx_moves whatever (lasting i) m.
Proof. intros Hm. apply lasting_moves. intros d r d' q Hq Ha E. by eapply (Hm q (photos d !! i) d). Qed.
Lemma approve_lasting j by_ : tx_moves whatever (lasting i) (approve_tx j by_).
Proof. apply lasting_moves. intros d r d' q Hq Ha. apply approve_stands; [by right|done]. Qed.

Lemma pending_apart d j q :
  (∃ x, pool d !! j = Some x ∧ q_status x = STATUS_PENDING) → pool d !! i = Some q → is_approved q = true → j ≠ i.
Proof.
  intros (x & Hx & Hs) Hq Ha ->. apply bool_decide_eq_true in Ha. assert (x = q) as -> by congruence.
  rewrite Ha in Hs. discriminate Hs.
Qed.
Lemma set_image_lasting j p : tx_moves whatever (lasting i) (set_image_tx j p).
Proof.
  apply lasting_moves. intros d r d' q Hq Ha E. destruct (set_image_ok _ _ _ _ _ E) as [->|[Hs _]]; [by split|].
  by eapply set_image_stands; [eapply pending_apart| |].
Qed.
Lemma clear_image_lasting j : tx_moves whatever (lasting i) (clear_image_tx j).
Proof.
  apply lasting_moves. intros d r d' q Hq Ha E. destruct (clear_image_ok _ _ _ _ E) as [->|[Hs _]]; [by split|].
  by eapply clear_image_stands; [eapply pending_apart| |].
Qed.
End Lasting.

(** ** A solution nobody else may touch *)

Definition offered (j : uuid) (s : Solution) (ph : option Photo) (d : Hall) : Prop :=
  offers d !! j = Some s ∧ offer_photos d !! j = ph.

Section Offered.
Context (j : uuid) (s : Solution) (ph : option Photo).
Abbreviation still := (offered j s ph).

Lemma offered_side d d' : still d → offer_side d' = offer_side d → still d'.
Proof. intros [? ?] [= Ep Eh]. split; congruence. Qed.
Lemma delete_question_offered k : k ≠ so_question s → tx_keeps still (delete_question_tx k).
Proof.
  intros Hk d r d' [Hj Hp] E. injection E as _ <-. split; cbn.
  - apply map_lookup_filter_Some. simpl. by split.
  - rewrite map_lookup_filter, Hp. destruct ph as [p|]; simpl; [|done]. rewrite option_guard_True; [done|].
    unfold offers_on. intros Hd. apply elem_of_dom in Hd as [x [Hx He]%map_lookup_filter_Some]. simpl in He. congruence.
Qed.
Lemma insert_solution_offered k s' : tx_keeps still (insert_solution_tx k s').
Proof.
  intros d r d' [Hj Hp] [Hk ->]%insert_solution_ok. split; [|done]. cbn. rewrite lookup_insert_ne; [done|]. congruence.
Qed.
Lemma set_body_offered k b : k ≠ j → tx_keeps still (set_body_tx k b).
Proof. intros Hk d r d' [Hj Hp] E. injection E as _ <-. split; [|done]. cbn. by rewrite lookup_alter_ne. Qed.
Lemma set_offer_image_offered k p : k ≠ j → tx_keeps still (set_offer_image_tx k p).
Proof. intros Hk d r d' [Hj Hp] [->|[_ ->]]%set_offer_image_ok; [done|]. split; [done|]. cbn. by rewrite lookup_insert_ne. Qed.
Lemma clear_offer_image_offered k : k ≠ j → tx_keeps still (clear_offer_image_tx k).
Proof. intros Hk d r d' [Hj Hp] [->|[_ ->]]%clear_offer_image_ok; [done|]. split; [done|]. cbn. by rewrite lookup_delete_ne. Qed.
Lemma delete_solution_offered k : k ≠ j → tx_keeps still (delete_solution_tx k).
Proof. intros Hk d r d' [Hj Hp] E. injection E as _ <-. split; cbn; by rewrite lookup_delete_ne. Qed.
End Offered.

(** ** The credit one's own requests do not move *)

Definition published_by (u : uuid) (n : option Z) (d : Hall) : Prop := pool_published <$> tallied_for d !! u = n.

Lemma published_side u n d d' : published_by u n d → tallied_for d' = tallied_for d → published_by u n d'.
Proof. unfold published_by. by intros Hn ->. Qed.
Lemma approve_credit u n i : tx_keeps (published_by u n) (approve_tx i u).
Proof.
  intros d r d' Hd [(_ & -> & _)|(x & _ & _ & _ & ->)]%approve_ok; [done|]. unfold published_by in *. cbn. unfold credited.
  case_bool_decide; [done|]. rewrite lookup_alter_ne, lookup_alter_eq by done. by destruct (tallied_for d !! u).
Qed.

(** ** The theorems *)

Section Kept.
Context `{UuidText}.

Lemma hall_answers u r : answers hall_ok anyhow (perform_pool u r) (λ _, True).
Proof.
  apply (perform_pool_fine hall_ok anyhow u (λ _, True)); intros; try apply kept_moves; auto using insert_question_keeps, approve_pool_keeps,
    delete_question_keeps, set_image_keeps, clear_image_keeps, insert_solution_keeps, set_body_keeps, set_offer_image_keeps,
    clear_offer_image_keeps, delete_solution_keeps, blobs_keeps, award_hall_keeps. by destruct r.
Qed.

(** C15. Whoever calls a route of the question pool, with whatever body, and whatever
    the others commit between two statements of the call as long as they keep it
    too: every question is worded within the limits and is pending with no approver
    or approved with one, every photograph hangs on a row that is there, every
    solution on a question that is there, and the two counters of an account cover
    the questions it approved of others and the ones of its own that others
    approved. *)
Theorem pool_keeps u r : outline hall_ok anyhow anyhow (λ _, True) (perform_pool u r) anything.
Proof. apply kept_anything, hall_answers. Qed.

Lemma approval_lasts i u r :
  within (λ j, j ≠ i) r → answers whatever (lasting i) (perform_pool u r) (λ _, True).
Proof.
  intros Hr. apply (perform_pool_fine whatever (lasting i) u (λ j, j ≠ i)); [..|done]; intros;
    first [by apply approve_lasting|by apply set_image_lasting|by apply clear_image_lasting|apply stands_lasting; intros q0 ph].
  - by apply insert_question_stands.
  - by apply delete_question_stands.
  - pass question_side (stands_side i q0 ph).
  - pass question_side (stands_side i q0 ph).
  - pass question_side (stands_side i q0 ph).
  - pass question_side (stands_side i q0 ph).
  - pass question_side (stands_side i q0 ph).
  - pass question_side (stands_side i q0 ph).
  - pass question_side (stands_side i q0 ph).
Qed.
Lemma a_strangers_question i q ph u r :
  asker q ≠ uid u → at_least (get_role u) Teacher = false → answers (stands i q ph) anyhow (perform_pool u r) (λ _, True).
Proof.
  intros Hn Ht.
  assert (∀ j x, found (stands i q ph) j x → j = i → x = q) as Hsame by (intros j x (d & [Hq _] & Hx) ->; congruence).
  apply (perform_pool_fine _ _ u (λ _, True)); [..|by destruct r]; intros; apply kept_moves.
  - by apply insert_question_stands.
  - congruence.
  - apply delete_question_stands. intros Hj. rename select (found _ _ _) into Hf. pose proof (Hsame _ _ Hf Hj) as ->.
    rename select (_ ∨ _) into Hm. destruct Hm; congruence.
  - apply set_image_stands. intros Hj. rename select (found _ _ _) into Hf. pose proof (Hsame _ _ Hf Hj). congruence.
  - apply clear_image_stands. intros Hj. rename select (found _ _ _) into Hf. pose proof (Hsame _ _ Hf Hj). congruence.
  - pass question_side (stands_side i q ph).
  - pass question_side (stands_side i q ph).
  - pass question_side (stands_side i q ph).
  - pass question_side (stands_side i q ph).
  - pass question_side (stands_side i q ph).
  - pass question_side (stands_side i q ph).
  - pass question_side (stands_side i q ph).
Qed.


(** A solution is its author's: no request of anybody else below teacher changes a
    word or the photograph of it or takes it away, whatever the others commit
    meanwhile; only the deletion of its question takes it along. *)
Theorem a_solution_is_its_authors j s ph u r :
  author s ≠ uid u → at_least (get_role u) Teacher = false → within (λ i, i ≠ so_question s) r →
  let still := offered j s ph in
  outline still anyhow anyhow (λ _, True) (perform_pool u r) anything.
Proof.
  intros Hn Ht Hr still. apply kept_anything.
  assert (∀ k x, found_offer still k x → k = j → x = s) as Hsame by (intros k x (d & [Hs _] & Hx) ->; congruence).
  apply (perform_pool_fine still anyhow u (λ i, i ≠ so_question s)); [..|done].
  all: intros; apply kept_moves.
  - pass offer_side (offered_side j s ph).
  - pass offer_side (offered_side j s ph).
  - by apply delete_question_offered.
  - pass offer_side (offered_side j s ph).
  - pass offer_side (offered_side j s ph).
  - by apply insert_solution_offered.
  - apply set_body_offered. intros Hk. rename select (found_offer _ _ _) into Hf. pose proof (Hsame _ _ Hf Hk). congruence.
  - apply set_offer_image_offered. intros Hk. rename select (found_offer _ _ _) into Hf. pose proof (Hsame _ _ Hf Hk). congruence.
  - apply clear_offer_image_offered. intros Hk. rename select (found_offer _ _ _) into Hf. pose proof (Hsame _ _ Hf Hk). congruence.
  - apply delete_solution_offered. intros Hk. rename select (found_offer _ _ _) into Hf. pose proof (Hsame _ _ Hf Hk).
    rename select (_ ∨ _) into Ha. destruct Ha; congruence.
  - pass offer_side (offered_side j s ph).
  - pass offer_side (offered_side j s ph).
Qed.

(** C17. Nobody earns the published counter alone: none of an account's own requests,
    an approval of its own question included, moves its own [pool_published_total],
    so it moves only when somebody else approves. *)
Theorem nobody_publishes_themselves u n r :
  let still := published_by (uid u) n in
  outline still anyhow anyhow (λ _, True) (perform_pool u r) anything.
Proof.
  intros still. apply kept_anything.
  apply (perform_pool_fine still anyhow u (λ _, True)); [..|by destruct r]; intros; apply kept_moves; try (by apply approve_credit);
    pass tallied_for (published_side (uid u) n).
Qed.
End Kept.
