(* ===== verification/PoolRuns.v ===== *)
(** * A question in the pool

    The small school of [RosterRuns] asks, approves and answers one question; the
    theorems on the pool are applied there. *)

From S2P Require Import Prelude Text Errors Effects Answers Uuid Validate Modules Badges Appointments Tally Gates Roster HomeworkForms Pool PoolKeeps RoleRuns RosterRuns.

Open Scope Z_scope.

#[local] Existing Instance hyphenated.

Definition the_teacher : User := MkUser 2 Teacher.
Definition ada_asks : User := MkUser 3 Student.
Definition bora_answers : User := MkUser 4 Student.

Definition run_pool (k : N) (u : User) (q : PoolRequest) (d : Hall) : Hall :=
  w_db (perform_pool u q (quiet d noon (λ n, 1000 * k + N.of_nat n)%N)).2.
Fixpoint run_hall (k : N) (qs : list (User * PoolRequest)) (d : Hall) : Hall :=
  match qs with [] => d | (u, q) :: qs => run_hall (k + 1) qs (run_pool k u q d) end.

Lemma run_hall_ok qs : ∀ k d, hall_ok d → hall_ok (run_hall k qs d).
Proof.
  induction qs as [|[u q] qs IH]; intros k d Hok; [done|]. cbn [run_hall]. apply IH.
  pose proof (hall_answers u q (quiet d noon (λ n, 1000 * k + N.of_nat n)%N)) as Ha. unfold run_pool.
  destruct (perform_pool u q _) as [r w']. destruct Ha as (? & _); [by intros n s Hs|done..].
Qed.

(** A school nobody has asked anything in. *)
Definition empty_hall (t : Tables) : Hall := MkHall t ∅ ∅ ∅ ∅ ((λ _, no_stats) <$> users t) ∅ ∅.
Lemma empty_hall_ok t : hall_ok (empty_hall t).
Proof.
  split; split; cbn.
  - intros i q Hq. by rewrite lookup_empty in Hq.
  - intros i q Hq. by rewrite lookup_empty in Hq.
  - set_solver.
  - set_solver.
  - by rewrite dom_fmap_L.
  - intros u st (x & Hx & _)%lookup_fmap_Some. subst.
    assert (∀ key, tallied key (∅ : gmap uuid PoolQuestion) u = 0) as E by (intros key; by apply tallied_0). by rewrite !E.
Qed.

(** Ada asks with a photograph. *)
Definition the_question : uuid := 1000%N.
Definition page : result AppError (option str * Z) := Ok (Some (lit "image/png"), 2048).
Definition asking_hall : Hall :=
  run_hall 1 [(ada_asks, Ask (lit "limits") (lit "why?")); (ada_asks, UploadImage the_question page (Ok ()))] (empty_hall first_week).

(** The teacher approves, Bora offers a solution. *)
Definition the_solution : uuid := 4001%N.
Definition open_hall : Hall :=
  run_hall 3 [(the_teacher, Approve the_question); (bora_answers, Offer the_question (lit "because"))] asking_hall.

Lemma asking_hall_ok : hall_ok asking_hall.
Proof. apply run_hall_ok, empty_hall_ok. Qed.
Lemma open_hall_ok : hall_ok open_hall.
Proof. apply run_hall_ok, asking_hall_ok. Qed.

Definition stored_question (d : Hall) : PoolQuestion :=
  default (MkPoolQuestion 0%N [] [] [] 0 None) (pool d !! the_question).
Definition stored_solution : Solution := default (MkSolution 0%N 0%N [] 0) (offers open_hall !! the_solution).

Example the_pool :
  (q_status <$> pool asking_hall !! the_question, approved_by <$> pool open_hall !! the_question,
   ph_size <$> photos open_hall !! the_question, (λ s, (so_question s, author s)) <$> offers open_hall !! the_solution,
   pool_approved <$> tallied_for open_hall !! 2%N, pool_published <$> tallied_for open_hall !! 3%N)
  = (Some STATUS_PENDING, Some (Some 2%N), Some 2048, Some (the_question, 4%N), Some 1, Some 1).
Proof. by vm_compute. Qed.

#[local] Opaque first_week asking_hall open_hall.


Lemma a_solution_is_its_authors_witness :
  outline (offered the_solution stored_solution (offer_photos open_hall !! the_solution)) anyhow anyhow (λ _, True)
    (perform_pool ada_asks (EditOffer the_question (uuid_text the_solution) (lit "no"))) anything
  ∧ offered the_solution stored_solution (offer_photos open_hall !! the_solution) open_hall.
Proof.
  split; [|by vm_compute].
  apply (a_solution_is_its_authors the_solution stored_solution (offer_photos open_hall !! the_solution) ada_asks
    (EditOffer the_question (uuid_text the_solution) (lit "no"))); [by vm_compute|by vm_compute|exact I].
Defined.
